(* ===== verification/_CoqProject ===== *)
-Q . S2P
Prelude.v
StateMonad.v
Types.v
Config.v
Validate.v
Csr.v
FlowCompiler.v
Samples.v
CompilerInv.v
FieldClassifier.v
CompilerFlows.v
HashPlacement.v
CompilerProps.v
CompilerErrors.v
FlowRow.v
Scalar.v
Yaml.v
ConfigParse.v
ReaderProps.v
FramePreview.v
HeaderClassify.v
Ipc.v
Backend.v
Programming.v
ProgrammingProps.v
Dma.v
DmaProps.v
C2hRing.v
BackendBar.v
BarSafety.v
BarTables.v
Deploy.v
BackendFake.v
FakeProps.v
Stats.v
HostPlane.v
GpioSync.v
SpiFlash.v
FlashProps.v
Daemon.v
RunState.v
DaemonProps.v
DaemonClaims.v
BarDaemon.v
DaemonSamples.v
Text.v
Pci.v
Vfio.v
CardLife.v
Json.v
Forms.v
FormProps.v
Secrets.v
SecretsProps.v
Taps.v
TapsProps.v
Proxy.v
ProxyProps.v
Sfp.v
SfpBus.v
SfpTxn.v
SfpProps.v
Reports.v
TapDev.v
Requests.v
ReportProps.v
BarReports.v
Metrics.v
MetricsProps.v
Server.v
ServerProps.v
ServerSamples.v
Client.v
ClientShow.v
ClientFiles.v
ClientRun.v
ClientMain.v
ClientProps.v
ClientSamples.v
Gateway.v
