(* ===== verification/Prelude.v ===== *)
(** * PacketWyrm host stack: a verification library

    PacketWyrm is a multi-card packet generator and analyser: FPGA cards with two
    10G ports, a host library (src/sw/libpacketwyrm) that turns a YAML file into
    the tables of the cards and moves frames over the slow path, a daemon
    (src/sw/packetwyrmd) that owns the cards and serves a control socket, an HTTPS
    gateway (src/sw/packetwyrm-proxyd) in front of that socket and a command-line
    client (src/sw/pktwyrm) of either. This library models that C code as Rocq
    functions and proves what the parts promise to each other.

    ** How the parts fit

    A configuration text is read ([Yaml], [Scalar], [ConfigParse]) into the structs
    of [Config], checked ([Validate]) and compiled ([FlowCompiler]) to one program
    per card: flow rows, flow-id map, field classifier and hash classifier in the
    wire formats of [Csr]. [Programming] writes a program through the operation
    table of [Backend], which [BackendBar] implements over a mapped register window
    and [BackendFake] in memory. Frames for and from the host travel over the
    register mailbox or the XDMA rings ([Dma], [C2hRing]) and are bridged to TAP
    devices by [HostPlane]; [Taps] sets those up. [GpioSync], [SpiFlash] and [Sfp]
    drive the sync block, the configuration flash and the transceiver modules
    through the same operation table. [Daemon] keeps cards and program together
    over loads, starts, stops and the latency servo; [Secrets], [Forms], [Reports]
    and [Requests] are its control requests, [Metrics] its Prometheus page,
    [Server] its [main]; [Ipc] frames the socket, [Proxy] is the gateway and
    [Client] to [ClientMain] the client. [Pci], [Vfio] and [TapDev] reach the
    kernel for the cards and the TAP devices.

    ** Files and sources

    Unless a directory is named, sources are under src/sw/libpacketwyrm/src and
    its include/packetwyrm.

    - [Prelude], [StateMonad], [Text]: result type, integer widths, generic lemmas,
      hint databases; the state-and-error monad of the register-driving code with
      its proof rules; C strings as character lists.
    - [Types] (types.c, ids.c), [Config] (config.h, lookups of config.c),
      [Validate] (validate.c): [validate_iff] reads the checker as a declarative
      specification.
    - [Csr] (csr.h): registers, windows, packed structs and their byte images.
    - [FlowCompiler] (flow_compiler.c) with [CompilerInv], [FieldClassifier],
      [CompilerFlows], [HashPlacement], [CompilerProps], [CompilerErrors],
      [FlowRow]: one slot per flow and card, rows and map entries owned by one
      flow, the hash table finds exactly the flows that share a key, the field
      rules match exactly what the punt and forward sections say, nothing exceeds
      the hardware tables, and each failure has its cause. [Samples] holds the
      configurations of the witnesses.
    - [Scalar] (scalar.c), [Yaml] (yaml.c), [ConfigParse] (config.c) with
      [ReaderProps]: every accepted value fits its field, every rejection carries a
      diagnostic, the YAML tree is the document's.
    - [FramePreview] (frame_preview.c), [HeaderClassify]: the previewed frame byte
      by byte with valid checksums, and that every frame the modifiers produce
      still hits its flow's hash entry.
    - [Backend] (backend.h), [Programming] (programming.c) with [ProgrammingProps]:
      the calls made and the tables they leave, over the class [CardTables].
    - [BackendBar], [Dma] (backend_bar.c) with [BarSafety] (no access leaves the
      mapped window), [BarTables] (the window keeps the table interface),
      [DmaProps] (injection returns by its deadline), [C2hRing] (punt ring: frames
      in order, none twice, overrun skips), and [Deploy]: compile and program
      compose to a card that holds the configuration.
    - [BackendFake] (backend_fake.c) with [FakeProps]; [Stats] (stats.c);
      [HostPlane] (host_plane.c); [GpioSync] (gpio_sync.c).
    - [SpiFlash] (spi_flash.c) with [FlashProps]: after an update the flash holds
      the image in the target range and its old contents elsewhere.
    - [Sfp] (sfp.c) with [SfpBus], [SfpTxn], [SfpProps]: reads and writes over the
      bit-banged bus are exact against a module that follows the protocol, and a
      register fault is never reported as success.
    - [Daemon] (src/sw/packetwyrmd/src/main.c) with [RunState], [DaemonProps],
      [DaemonClaims]: a load is atomic, an acceptable one is accepted, a test
      switches every generator; [BarDaemon] shows that the BAR backend is a card
      in this sense, [DaemonSamples] a concrete one.
    - [Json] (json-c as an interface), [Forms] with [FormProps] (the form view
      parses back), [Secrets] with [SecretsProps] (the secret check, the redacted
      view, the atomic replacement of the environment file), [Taps] with
      [TapsProps]: all of the daemon's main.c.
    - [Reports], [Requests] with [ReportProps], [BarReports]: every
      request of the control socket; [Metrics] with [MetricsProps]: the metrics
      page; [Server] with [ServerProps], [ServerSamples]: options, startup, main
      loop and threads. [server_always_in_sync] is the invariant of the running
      process, [startup_whole] what reaching the main loop guarantees,
      [request_guarded] that only the secret opens the daemon, [shutdown_exact] that
      no thread works on what is closed and that the daemon gets to its end.
    - [Proxy] (src/sw/packetwyrm-proxyd/src/main.c) with [ProxyProps]: one request
      is read exactly, nothing reaches the daemon that the checks refuse, and the
      accept loop and its workers keep to 32 connections, none lost or closed twice,
      in every interleaving of their atomic actions ([pool_exact]).
    - [Pci] (pci.c): bus addresses have one canonical form, the
      cards found are sorted whatever the order of sysfs. [Vfio] (vfio.c): the
      registry of IOMMU groups over every sequence of opens,
      closes and DMA mappings. [CardLife] (backend_bar.c's open and close over the
      two, and the probe of src/kernel/packetwyrm.c): whatever the sequence of cards
      opened, refused, used and closed, the process holds what its open cards account
      for ([cards_account_exact]). [TapDev] (tap.c): requests name the interface asked
      for or are not made.
    - [Client], [ClientShow], [ClientFiles], [ClientRun], [ClientMain]
      (src/sw/pktwyrm/src/main.c) with [ClientProps], [ClientSamples]:
      the command-line client, whole. A call of the client is one
      request of the daemon ([client_call_exact]), what the verdict of a test run
      means on the daemon's own report ([test_run_verdict]), what a firmware update
      leaves in the flash ([firmware_update_exact]).
    - [Gateway]: client, gateway and daemon composed. The header block of the
      request and of the reply read line by line, so that a call over HTTPS is one
      request of the daemon too ([gateway_call_exact]).
    ** Parameters

    Code outside the sources is a parameter with its contract as a class: the FPGA
    behind the register window ([bar_dev], [CardDevice], [ControlDevice]), the XDMA
    engine ([xdma_dev], [C2hEngine]), the sync block ([SyncHw]), the flash chip
    ([FlashCard]), the transceiver module ([SfpCage]); libyaml as the events it
    delivers for a text; [inet_pton] and [inet_ntop] ([InetPton], [InetNtop]);
    json-c ([JsonC]); [log10], [strtod]; the kernel as the answers of its calls ([io_answer],
    [listen_env], [save_env], [req_env], [start_env], [pass_env], [vfio_env],
    [Kernel], [cli_env], [card_env], the read and write of a TAP, the daemon behind
    the gateway, the peer of the client). [CardTables], [DaemonCard] and
    [ReportCard] are what clients of a card rely on; [BarTables], [BarDaemon] and
    [BarReports] discharge them for the BAR backend.

    ** Bounds and fuel

    Loops that the code bounds keep its bound: 100000 polls of the inject mailbox,
    4096 hash seeds, 2000000 SPI polls, 4000000 write-in-progress polls, 8 sync
    reads, 100 clock-stretch polls, 50 acknowledge polls, 200 priming reads, a
    control frame of 65536 bytes, a gateway request of 73728. Where the code loops
    on data the fuel is the length of the data (page program, text lines) or twice
    the event list plus one (YAML); the H2C poll runs at most to its deadline, and
    [dma_tx_returns] shows that it ends. Registers are read word by word in the
    order of the code; threads are interleaved pass by pass, since the code's own
    argument is that concurrent passes touch disjoint registers.

    ** Not modelled

    OpenSSL's set-up in the gateway (certificate, context, handshake: whether each
    succeeds is an answer of the environment) and the texts it prints while starting,
    its signal handling; the release of memory; the command-line client's certificate
    warning; [strtod]; the kernel module's registration and the SystemVerilog. *)

From stdpp Require Export base tactics numbers list strings pretty gmap.
From Stdlib Require Export ZArith Lia.

#[global] Open Scope Z_scope.

(** ** Results with an error value *)

Inductive result (E A : Type) : Type :=
| Ok (a : A)
| Err (e : E).
Arguments Ok {E A} a.
Arguments Err {E A} e.

#[global] Instance result_ret E : MRet (result E) := fun A a => Ok a.
#[global] Instance result_bind E : MBind (result E) :=
  fun A B f m => match m with Ok a => f a | Err e => Err e end.

(** [fail_if c e] is the source's [if (c) return e;]. *)
Definition fail_if {E} (c : bool) (e : E) : result E unit :=
  if c then Err e else Ok tt.

Definition of_option {E A} (o : option A) (e : E) : result E A :=
  match o with Some a => Ok a | None => Err e end.

(** A [for] loop over an array from index [i]: the body sees the index, the
    element and the elements after it (for nested [j = i + 1] loops), and an
    error leaves the loop at once. *)
Fixpoint for_each {E A} (i : nat) (l : list A)
    (body : nat -> A -> list A -> result E unit) : result E unit :=
  match l with
  | [] => Ok tt
  | x :: rest => body i x rest ;; for_each (S i) rest body
  end.

(** A [for] loop that threads a state. *)
Fixpoint mfold {E S A} (f : nat -> S -> A -> result E S) (i : nat) (s : S)
    (l : list A) : result E S :=
  match l with
  | [] => Ok s
  | x :: rest => s' ← f i s x; mfold f (Datatypes.S i) s' rest
  end.

Lemma filter_keep {A} (P : A -> Prop) `{forall x, Decision (P x)} (l : list A) :
  (forall x, x ∈ l -> P x) -> filter P l = l.
Proof.
  induction l as [|x l IH]; intros Hl; [done|]. rewrite filter_cons_True by (apply Hl; left).
  f_equal. apply IH. intros y Hy. apply Hl. by right.
Qed.

(** ** Fixed-width unsigned integers as [Z] *)

Definition u8 (z : Z) : Z := z mod 2 ^ 8.
Definition u16 (z : Z) : Z := z mod 2 ^ 16.
Definition u32 (z : Z) : Z := z mod 2 ^ 32.
Definition i32 (z : Z) : Z := (z + 2 ^ 31) mod 2 ^ 32 - 2 ^ 31.
Definition u64 (z : Z) : Z := z mod 2 ^ 64.
Definition u128 (z : Z) : Z := z mod 2 ^ 128.
Arguments u8 : simpl never.
Arguments u16 : simpl never.
Arguments u32 : simpl never.
Arguments u64 : simpl never.
Arguments u128 : simpl never.

Definition is_w (w z : Z) : Prop := 0 <= z < 2 ^ w.
Abbreviation is_u8 := (is_w 8).
Abbreviation is_u16 := (is_w 16).
Abbreviation is_u32 := (is_w 32).
Abbreviation is_u64 := (is_w 64).

#[global] Instance is_w_dec w z : Decision (is_w w z).
Proof. unfold is_w. apply _. Defined.

Declare Scope pw_scope.
Delimit Scope pw_scope with pw.
Notation "a &&& b" := (Z.land a b) (at level 40, left associativity) : pw_scope.
Notation "a ||| b" := (Z.lor a b) (at level 50, left associativity) : pw_scope.
Notation "a ^^^ b" := (Z.lxor a b) (at level 45, left associativity) : pw_scope.
Notation "a <<< b" := (Z.shiftl a b) (at level 38, left associativity) : pw_scope.
Notation "a >>> b" := (Z.shiftr a b) (at level 38, left associativity) : pw_scope.
#[global] Open Scope pw_scope.

(** C's [~x] at 32 and 16 bits. *)
Definition not32 (z : Z) : Z := u32 (Z.lnot z).
Definition not16 (z : Z) : Z := u16 (Z.lnot z).

(** C truth value of an integer. *)
Definition ztrue (z : Z) : bool := negb (z =? 0).
Definition b2z (b : bool) : Z := if b then 1 else 0.

(** Big-endian word of four bytes: [(b0<<24)|(b1<<16)|(b2<<8)|b3]. *)
Definition be32 (b0 b1 b2 b3 : Z) : Z :=
  (b0 <<< 24) ||| (b1 <<< 16) ||| (b2 <<< 8) ||| b3.

(** [&a[off]] read as a big-endian word; bytes past the end read 0. *)
Definition be32_at (a : list Z) (off : nat) : Z :=
  be32 (nth off a 0) (nth (off + 1) a 0) (nth (off + 2) a 0) (nth (off + 3) a 0).

(** Little-endian bytes of a value, and back. *)
Fixpoint le_bytes (n : nat) (z : Z) : list Z :=
  match n with
  | O => []
  | S n' => z mod 256 :: le_bytes n' (z / 256)
  end.

Fixpoint le_val (l : list Z) : Z :=
  match l with
  | [] => 0
  | b :: l' => b + 256 * le_val l'
  end.

(** ** C strings *)

(** [snprintf] into a buffer of [sz] bytes keeps at most [sz - 1] characters. *)
Definition cstr (sz : nat) (s : string) : string := String.substring 0 (sz - 1) s.

Definition str_nat (n : nat) : string := pretty (N.of_nat n).
Definition str_Z (z : Z) : string := pretty z.

(** ** Generic lemmas *)

Section Monad.
Context {E : Type}.

Lemma bind_ok {A B} (m : result E A) (f : A -> result E B) b :
  m ≫= f = Ok b <-> exists a, m = Ok a /\ f a = Ok b.
Proof. destruct m; simpl; naive_solver. Qed.

Lemma bind_err {A B} (m : result E A) (f : A -> result E B) e :
  m ≫= f = Err e <-> m = Err e \/ exists a, m = Ok a /\ f a = Err e.
Proof. destruct m; simpl; naive_solver. Qed.

Lemma fail_if_ok (c : bool) (e : E) u : fail_if c e = Ok u <-> c = false.
Proof. destruct c, u; simpl; naive_solver. Qed.

Lemma fail_if_err (c : bool) (e e' : E) : fail_if c e = Err e' -> e' = e.
Proof. destruct c; simpl; congruence. Qed.

Lemma if_ok (c : bool) (m : result E unit) :
  (if c then m else Ok tt) = Ok tt <-> (c = true -> m = Ok tt).
Proof. destruct c; naive_solver. Qed.

Lemma of_option_ok {A} (o : option A) (e : E) a : of_option o e = Ok a <-> o = Some a.
Proof. destruct o; simpl; naive_solver. Qed.

Lemma seq_ok {B} (m : result E unit) (k : result E B) b :
  (m ;; k) = Ok b <-> m = Ok tt /\ k = Ok b.
Proof. destruct m as [[]|]; simpl; naive_solver. Qed.

Lemma for_each_ok {A} (body : nat -> A -> list A -> result E unit) l : forall i,
  for_each i l body = Ok tt <->
  forall k x, l !! k = Some x -> body (i + k)%nat x (drop (S k) l) = Ok tt.
Proof.
  induction l as [|x l IH]; intros i; simpl; [naive_solver|].
  rewrite bind_ok. split.
  - intros ([] & Hb & Hr) [|k] y; simpl.
    + intros [= <-]. by rewrite Nat.add_0_r, drop_0.
    + intros Hk. rewrite Nat.add_succ_r. by apply (proj1 (IH (S i)) Hr).
  - intros H. exists tt. split.
    + specialize (H 0%nat x eq_refl). by rewrite Nat.add_0_r, drop_0 in H.
    + apply IH. intros k y Hk. specialize (H (S k) y Hk).
      by rewrite Nat.add_succ_r in H.
Qed.

Lemma for_each_err {A} (body : nat -> A -> list A -> result E unit) l e : forall i,
  for_each i l body = Err e ->
  exists k x, l !! k = Some x /\ body (i + k)%nat x (drop (S k) l) = Err e.
Proof.
  induction l as [|x l IH]; intros i; simpl; [done|].
  intros [H|([] & _ & H)]%bind_err.
  - exists 0%nat, x. by rewrite Nat.add_0_r, drop_0.
  - destruct (IH (S i) H) as (k & y & Hk & Hy). exists (S k), y.
    by rewrite Nat.add_succ_r.
Qed.

(** Loop invariant rule for [mfold]. *)
Lemma mfold_inv {S A} (f : nat -> S -> A -> result E S) (I : nat -> S -> Prop) l :
  forall i s s', I i s ->
  (forall k x s1 s2, l !! k = Some x -> I (i + k)%nat s1 -> f (i + k)%nat s1 x = Ok s2 ->
    I (Datatypes.S (i + k)) s2) ->
  mfold f i s l = Ok s' -> I (i + length l)%nat s'.
Proof.
  induction l as [|x l IH]; simpl; intros i s s' Hi Hstep Hr.
  - rewrite Nat.add_0_r. congruence.
  - apply bind_ok in Hr as (s1 & Hf & Hr).
    rewrite Nat.add_succ_r, <- Nat.add_succ_l. apply (IH (Datatypes.S i) s1); [| |done].
    + specialize (Hstep 0%nat x s s1). rewrite Nat.add_0_r in Hstep. by apply Hstep.
    + intros k y s2 s3 Hk. rewrite Nat.add_succ_l, <- Nat.add_succ_r.
      by apply (Hstep (Datatypes.S k)).
Qed.

(** A loop fails in some iteration, from an invariant state. *)
Lemma mfold_err {S A} (f : nat -> S -> A -> result E S) (I : nat -> S -> Prop) l e :
  forall i s, I i s ->
  (forall k x s1 s2, l !! k = Some x -> I (i + k)%nat s1 -> f (i + k)%nat s1 x = Ok s2 ->
    I (Datatypes.S (i + k)) s2) ->
  mfold f i s l = Err e ->
  exists k x s1, l !! k = Some x /\ I (i + k)%nat s1 /\ f (i + k)%nat s1 x = Err e.
Proof.
  induction l as [|x l IH]; simpl; intros i s Hi Hstep Hr; [done|].
  apply bind_err in Hr as [Hf|(s1 & Hf & Hr)].
  - exists 0%nat, x, s. by rewrite Nat.add_0_r.
  - destruct (IH (Datatypes.S i) s1) as (k & y & s2 & Hk & H2 & He); [| |done|].
    + specialize (Hstep 0%nat x s s1). rewrite Nat.add_0_r in Hstep. by apply Hstep.
    + intros k y s2 s3 Hk. rewrite Nat.add_succ_l, <- Nat.add_succ_r.
      by apply (Hstep (Datatypes.S k)).
    + exists (Datatypes.S k), y, s2. rewrite Nat.add_succ_r, <- Nat.add_succ_l. done.
Qed.

(** A loop succeeds when every iteration does from every invariant state. *)
Lemma mfold_total {S A} (f : nat -> S -> A -> result E S) (I : nat -> S -> Prop) l :
  forall i s, I i s ->
  (forall k x s1, l !! k = Some x -> I (i + k)%nat s1 ->
    exists s2, f (i + k)%nat s1 x = Ok s2 /\ I (Datatypes.S (i + k)) s2) ->
  exists s', mfold f i s l = Ok s' /\ I (i + length l)%nat s'.
Proof.
  induction l as [|x l IH]; simpl; intros i s Hi Hstep.
  - exists s. by rewrite Nat.add_0_r.
  - destruct (Hstep 0%nat x s) as (s1 & Hf & H1); [done|by rewrite Nat.add_0_r|].
    rewrite Nat.add_0_r in Hf, H1. rewrite Hf. simpl.
    destruct (IH (Datatypes.S i) s1) as (s' & Hr & H'); [done| |].
    + intros k y s2 Hk. rewrite Nat.add_succ_l, <- Nat.add_succ_r.
      by apply (Hstep (Datatypes.S k)).
    + exists s'. split; [done|]. by rewrite Nat.add_succ_r, <- Nat.add_succ_l.
Qed.
End Monad.

(** Turn successful monadic equations in the context into their parts. *)
Ltac mon :=
  repeat match goal with
  | H : _ ≫= _ = Ok _ |- _ => apply bind_ok in H as (? & ? & ?)
  | H : fail_if _ _ = Ok _ |- _ => apply fail_if_ok in H
  | H : of_option _ _ = Ok _ |- _ => apply of_option_ok in H
  | H : Ok _ = Ok _ |- _ => injection H as H
  | H : mret _ = Ok _ |- _ => injection H as H
  | H : Err _ = Ok _ |- _ => discriminate H
  | u : unit |- _ => destruct u
  end; subst.

(** The [i < j] double loop finds an equal pair exactly when the list has one. *)
Lemma pairwise_NoDup {A B} (f : A -> B) (l : list A) :
  (forall k x, l !! k = Some x -> forall j y, drop (S k) l !! j = Some y -> f x <> f y)
  <-> NoDup (f <$> l).
Proof.
  rewrite NoDup_alt. split.
  - intros H i j b Hi Hj. rewrite !list_lookup_fmap in Hi, Hj.
    apply fmap_Some in Hi as (x & Hx & ->). apply fmap_Some in Hj as (y & Hy & Hb).
    destruct (lt_eq_lt_dec i j) as [[Hlt|Heq]|Hlt]; [exfalso|done|exfalso].
    + apply (H i x Hx (j - S i)%nat y); [|done].
      rewrite lookup_drop. by replace (S i + (j - S i))%nat with j by lia.
    + apply (H j y Hy (i - S j)%nat x); [|done].
      rewrite lookup_drop. by replace (S j + (i - S j))%nat with i by lia.
  - intros H k x Hk j y Hj Hxy. rewrite lookup_drop in Hj.
    enough (k = (S k + j)%nat) by lia.
    apply (H _ _ (f x)); rewrite list_lookup_fmap.
    + by rewrite Hk.
    + rewrite Hj. simpl. by rewrite Hxy.
Qed.

(** ** Integer width lemmas *)

Create HintDb width.

Lemma is_w_mod w z : 0 <= w -> is_w w (z mod 2 ^ w).
Proof. intros. apply Z.mod_pos_bound, Z.pow_pos_nonneg; lia. Qed.

Lemma u8_w z : is_u8 (u8 z). Proof. apply is_w_mod. lia. Qed.
Lemma u16_w z : is_u16 (u16 z). Proof. apply is_w_mod. lia. Qed.
Lemma u32_w z : is_u32 (u32 z). Proof. apply is_w_mod. lia. Qed.
Lemma u64_w z : is_u64 (u64 z). Proof. apply is_w_mod. lia. Qed.

Lemma u8_id z : is_u8 z -> u8 z = z. Proof. intros. by apply Z.mod_small. Qed.
Lemma u16_id z : is_u16 z -> u16 z = z. Proof. intros. by apply Z.mod_small. Qed.
Lemma u32_id z : is_u32 z -> u32 z = z. Proof. intros. by apply Z.mod_small. Qed.
Lemma u64_id z : is_u64 z -> u64 z = z. Proof. intros. by apply Z.mod_small. Qed.

Lemma is_w_le w w' z : w <= w' -> is_w w z -> is_w w' z.
Proof.
  unfold is_w. intros Hw [? Hz]. split; [done|].
  eapply Z.lt_le_trans; [exact Hz|]. apply Z.pow_le_mono_r; lia.
Qed.

Lemma is_w_bits w z : 0 <= w ->
  is_w w z <-> 0 <= z /\ forall i, w <= i -> Z.testbit z i = false.
Proof.
  intros Hw. split.
  - intros Hz. split; [by destruct Hz|]. intros i Hi.
    rewrite <- (Z.mod_small z (2 ^ w)) by done. by apply Z.mod_pow2_bits_high.
  - intros [Hz Hb]. unfold is_w. split; [done|].
    destruct (Z.le_gt_cases (2 ^ w) z) as [Hge|]; [exfalso|done].
    assert (w <= Z.log2 z) by (apply Z.log2_le_pow2; [|done];
      pose proof (Z.pow_pos_nonneg 2 w); lia).
    assert (0 < z) by (pose proof (Z.pow_pos_nonneg 2 w); lia).
    pose proof (Z.bit_log2 z). rewrite Hb in * by done. naive_solver.
Qed.

Lemma is_w_land_l w a b : 0 <= w -> is_w w a -> is_w w (a &&& b).
Proof.
  intros Hw Ha. apply is_w_bits in Ha as [Ha Hab]; [|done]. apply is_w_bits; [done|].
  split; [apply Z.land_nonneg; by left|]. intros i Hi. by rewrite Z.land_spec, Hab.
Qed.

Lemma is_w_land_r w a b : 0 <= w -> is_w w b -> is_w w (a &&& b).
Proof. rewrite Z.land_comm. apply is_w_land_l. Qed.

Lemma is_w_lor w a b : 0 <= w -> is_w w a -> is_w w b -> is_w w (a ||| b).
Proof.
  intros Hw Ha Hb. apply is_w_bits in Ha as [Ha Hab]; [|done].
  apply is_w_bits in Hb as [Hb Hbb]; [|done]. apply is_w_bits; [done|].
  split; [by apply Z.lor_nonneg|]. intros i Hi. by rewrite Z.lor_spec, Hab, Hbb.
Qed.

Lemma is_w_lxor w a b : 0 <= w -> is_w w a -> is_w w b -> is_w w (Z.lxor a b).
Proof.
  intros Hw Ha Hb. apply is_w_bits in Ha as [Ha Hab]; [|done].
  apply is_w_bits in Hb as [Hb Hbb]; [|done]. apply is_w_bits; [done|].
  split; [by apply Z.lxor_nonneg|]. intros i Hi. by rewrite Z.lxor_spec, Hab, Hbb.
Qed.

Lemma is_w_shiftl w k a : 0 <= k -> is_w w a -> is_w (w + k) (a <<< k).
Proof.
  intros Hk [Ha Hw]. unfold is_w. rewrite Z.shiftl_mul_pow2 by done.
  assert (0 < 2 ^ k) by (apply Z.pow_pos_nonneg; lia).
  destruct (Z.le_gt_cases 0 w).
  - rewrite Z.pow_add_r by done. nia.
  - rewrite Z.pow_neg_r in Hw by done. lia.
Qed.

Lemma testbit_mod z w i : 0 <= w -> 0 <= i ->
  Z.testbit (z mod 2 ^ w) i = (i <? w) && Z.testbit z i.
Proof.
  intros. destruct (Z.ltb_spec i w).
  - by rewrite Z.mod_pow2_bits_low by lia.
  - by rewrite Z.mod_pow2_bits_high by lia.
Qed.

Lemma lor_disjoint a b n : 0 <= n -> 0 <= b < 2 ^ n -> (a <<< n) ||| b = a * 2 ^ n + b.
Proof.
  intros Hn Hb. rewrite Z.shiftl_mul_pow2 by done. symmetry.
  apply Z.bits_inj'. intros i Hi.
  destruct (Z.lt_ge_cases i n).
  - rewrite Z.lor_spec, Z.mul_pow2_bits_low by done. simpl.
    rewrite <- (Z.mod_pow2_bits_low (a * 2 ^ n + b) n i) by done.
    rewrite Z.add_comm, Z.mod_add by (apply Z.pow_nonzero; lia).
    by rewrite Z.mod_pow2_bits_low.
  - rewrite Z.lor_spec, Z.mul_pow2_bits by done.
    assert (Z.testbit b i = false) as -> by (apply (is_w_bits n b); done).
    rewrite orb_false_r. replace i with (i - n + n) at 1 by lia.
    rewrite <- Z.div_pow2_bits by lia. f_equal.
    rewrite Z.div_add_l by (apply Z.pow_nonzero; lia). rewrite Z.div_small by done. lia.
Qed.

(** The bytes of a big-endian word add up. *)
Lemma lor_add a b n : 0 <= n -> 0 <= b < 2 ^ n -> (a * 2 ^ n) ||| b = a * 2 ^ n + b.
Proof. intros. rewrite <- lor_disjoint by done. by rewrite Z.shiftl_mul_pow2. Qed.

Lemma be32_sum b0 b1 b2 b3 : is_u8 b0 -> is_u8 b1 -> is_u8 b2 -> is_u8 b3 ->
  be32 b0 b1 b2 b3 = b0 * 16777216 + b1 * 65536 + b2 * 256 + b3.
Proof.
  unfold is_w, be32. change (2 ^ 8) with 256. intros H0 H1 H2 H3.
  rewrite !Z.shiftl_mul_pow2 by lia.
  rewrite (lor_add b0 (b1 * 2 ^ 16) 24) by lia.
  replace (b0 * 2 ^ 24 + b1 * 2 ^ 16) with ((b0 * 256 + b1) * 2 ^ 16) by lia.
  rewrite (lor_add _ (b2 * 2 ^ 8) 16) by lia.
  replace ((b0 * 256 + b1) * 2 ^ 16 + b2 * 2 ^ 8) with ((b0 * 65536 + b1 * 256 + b2) * 2 ^ 8) by lia.
  rewrite (lor_add _ b3 8) by lia. lia.
Qed.
