(* ===== verification/StateMonad.v ===== *)
(** * Stateful code with early returns

    The monad of the code that threads a device or process state through calls
    which may fail: an early [return status] keeps the state reached so far. The
    predicate [returns] is total correctness (the code comes back with a value),
    with a rule for sequencing and one for counted loops. *)

From S2P Require Import Prelude.

Definition stm (S E A : Type) : Type := S -> S * result E A.

#[global] Instance stm_ret S E : MRet (stm S E) := fun A a s => (s, Ok a).
#[global] Instance stm_bind S E : MBind (stm S E) := fun A B f m s =>
  match m s with
  | (s, Ok a) => f a s
  | (s, Err e) => (s, Err e)
  end.

Definition throw {S E A} (e : E) : stm S E A := fun s => (s, Err e).

(** [for (i = from; i < to; i += step)] visits these values. *)
Definition steps (from to step : Z) : list Z :=
  (fun k => from + step * k) <$> seqZ 0 ((to - from + step - 1) / step).

(** A loop that updates the state and an accumulator; an error leaves it at once. *)
Fixpoint st_for {S E A B} (f : A -> B -> stm S E B) (l : list A) (b : B) : stm S E B :=
  match l with
  | [] => mret b
  | x :: l => b ← f x b; st_for f l b
  end.

(** ** Total correctness *)

Definition returns {S E A} (m : stm S E A) (s : S) (Q : A -> S -> Prop) : Prop :=
  exists a s', m s = (s', Ok a) /\ Q a s'.

Section Rules.
Context {S E : Type}.

Lemma returns_ret {A} (a : A) (s : S) (Q : A -> S -> Prop) :
  Q a s -> returns (mret a : stm S E A) s Q.
Proof. intros. by exists a, s. Qed.

Lemma returns_mono {A} (m : stm S E A) s (P Q : A -> S -> Prop) :
  returns m s P -> (forall a s', P a s' -> Q a s') -> returns m s Q.
Proof. intros (a & s' & Hm & HP) HQ. exists a, s'. auto. Qed.

Lemma returns_bind {A B} (m : stm S E A) (f : A -> stm S E B) s (P : A -> S -> Prop) Q :
  returns m s P -> (forall a s', P a s' -> returns (f a) s' Q) -> returns (m ≫= f) s Q.
Proof.
  intros (a & s' & Hm & HP) Hf. destruct (Hf a s' HP) as (b & s'' & Hb & HQ).
  exists b, s''. unfold mbind, stm_bind. by rewrite Hm.
Qed.

Lemma returns_for {A B} (f : A -> B -> stm S E B) (I : nat -> B -> S -> Prop) l :
  forall k b s, I k b s ->
  (forall j x b s, l !! j = Some x -> I (k + j)%nat b s ->
    returns (f x b) s (I (Datatypes.S (k + j)))) ->
  returns (st_for f l b) s (I (k + length l)%nat).
Proof.
  induction l as [|x l IH]; simpl; intros k b s Hi Hf.
  - rewrite Nat.add_0_r. by apply returns_ret.
  - eapply returns_bind.
    + apply (Hf 0%nat); [done|]. by rewrite Nat.add_0_r.
    + intros b' s'. rewrite Nat.add_0_r, Nat.add_succ_r, <- Nat.add_succ_l. intros Hi'.
      apply IH; [done|]. intros j y b1 s1 Hj.
      rewrite Nat.add_succ_l, <- Nat.add_succ_r. by apply (Hf (Datatypes.S j)).
Qed.

Lemma steps_lookup from to step j x : 0 < step ->
  steps from to step !! j = Some x <-> x = from + step * Z.of_nat j /\ x < to.
Proof.
  intros Hs. unfold steps. rewrite list_lookup_fmap_Some. setoid_rewrite lookup_seqZ.
  split.
  - intros (k & -> & -> & Hk). split; [lia|].
    pose proof (Z.mul_div_le (to - from + step - 1) step Hs). nia.
  - intros [-> Hx]. exists (Z.of_nat j). split; [done|]. split; [lia|].
    enough (Z.of_nat j + 1 <= (to - from + step - 1) / step) by lia.
    apply Z.div_le_lower_bound; nia.
Qed.

Lemma steps_length from to step : 0 < step ->
  Z.of_nat (length (steps from to step)) = Z.max 0 ((to - from + step - 1) / step).
Proof. intros. unfold steps. rewrite length_fmap, length_seqZ. lia. Qed.

(** The counted loop: the invariant speaks of the loop variable. *)
Lemma returns_steps {B} (f : Z -> B -> stm S E B) (I : Z -> B -> S -> Prop) from to step b s :
  0 < step -> I from b s ->
  (forall i b s, from <= i < to -> (step | i - from) -> I i b s ->
    returns (f i b) s (I (i + step))) ->
  returns (st_for f (steps from to step) b) s
    (fun b' s' => exists e, to <= e /\ (from < to -> e < to + step) /\ (to <= from -> e = from) /\ I e b' s').
Proof.
  intros Hs Hi Hf.
  eapply returns_mono; [apply (returns_for f (fun k b s => I (from + step * Z.of_nat k) b s) _ 0%nat)|].
  - by replace (from + step * Z.of_nat 0) with from by lia.
  - intros j x b1 s1 [-> Hx]%steps_lookup H1; [|done].
    replace (from + step * Z.of_nat (Datatypes.S (0 + j)))
      with (from + step * Z.of_nat j + step) by lia.
    apply Hf; [split; [nia|done]|exists (Z.of_nat j); lia|done].
  - simpl. intros b' s' H'. eexists; split; [|split; [|split; [|exact H']]]; rewrite steps_length by done.
    + pose proof (Z.mul_succ_div_gt (to - from + step - 1) step Hs). nia.
    + intros Hlt. pose proof (Z.mul_div_le (to - from + step - 1) step Hs). nia.
    + intros Hge. assert ((to - from + step - 1) / step <= 0); [|nia].
      apply Z.lt_succ_r, Z.div_lt_upper_bound; lia.
Qed.
End Rules.

(** ** Where a computation may move the state *)

(** Whatever it returns, the computation moves the state along [R]. *)
Definition along {S E A} (R : S -> S -> Prop) (m : stm S E A) : Prop := forall s, R s (m s).1.

Section Along.
Context {S E : Type} (R : S -> S -> Prop) `{!PreOrder R}.

Lemma along_ret {A} (a : A) : along R (mret a : stm S E A).
Proof. intros s. reflexivity. Qed.

Lemma along_throw {A} (e : E) : along R (throw e : stm S E A).
Proof. intros s. reflexivity. Qed.

Lemma along_bind {A B} (m : stm S E A) (f : A -> stm S E B) :
  along R m -> (forall a, along R (f a)) -> along R (m ≫= f).
Proof.
  intros Hm Hf s. unfold mbind, stm_bind. specialize (Hm s). destruct (m s) as [s1 [a|e]]; cbn [fst] in *; [|done].
  etransitivity; [exact Hm|apply Hf].
Qed.

Lemma along_for {A B} (f : A -> B -> stm S E B) l :
  (forall x, x ∈ l -> forall b, along R (f x b)) -> forall b, along R (st_for f l b).
Proof.
  induction l as [|x l IH]; intros Hf b; [apply along_ret|]. apply along_bind; [apply Hf; left|].
  intros b'. apply IH. intros y Hy. apply Hf. by right.
Qed.

Lemma along_if {A} (c : bool) (m n : stm S E A) :
  (c = true -> along R m) -> (c = false -> along R n) -> along R (if c then m else n).
Proof. destruct c; auto. Qed.
End Along.
