(* ===== verification/Types.v ===== *)
(** * Scalar types, status codes, diagnostics and the ID system

    Models [sw/libpacketwyrm/include/packetwyrm/types.h], [ids.h], [src/types.c]
    and [src/ids.c]. A [pw_status] is an inductive type with the source's
    enumerators and [status_code] gives their C values. A failing operation of
    the library yields an [err]: the returned status and what it wrote into the
    caller's [struct pw_diag], if anything. *)

From S2P Require Import Prelude.

Definition PW_TEST_HDR_MAGIC : Z := 0xA5027E57.
Definition PW_NAME_MAX : nat := 32.
Definition PW_PCI_BDF_MAX : nat := 16.
Definition PW_MAX_CARDS : nat := 16.
Definition PW_PORTS_PER_CARD : nat := 2.

Inductive pw_status : Set :=
| PW_OK
| PW_E_INVAL | PW_E_PARSE | PW_E_DUP_CARD_ID | PW_E_DUP_GLOBAL_PORT
| PW_E_DUP_LOGICAL_IF | PW_E_DUP_FLOW_ID | PW_E_UNKNOWN_CARD
| PW_E_UNKNOWN_GLOBAL_PORT | PW_E_UNKNOWN_LOGICAL_IF
| PW_E_CROSS_CARD_LATENCY | PW_E_MISSING_FIELD | PW_E_OUT_OF_RANGE
| PW_E_NO_CARD | PW_E_NO_RESOURCES | PW_E_BACKEND | PW_E_IO | PW_E_OVERFLOW
| PW_E_DEGRADED | PW_E_NOT_IMPLEMENTED.

#[global] Instance pw_status_eq_dec : EqDecision pw_status.
Proof. solve_decision. Defined.

Definition status_code (s : pw_status) : Z :=
  match s with
  | PW_OK => 0
  | PW_E_INVAL => -1 | PW_E_PARSE => -2 | PW_E_DUP_CARD_ID => -3
  | PW_E_DUP_GLOBAL_PORT => -4 | PW_E_DUP_LOGICAL_IF => -5
  | PW_E_DUP_FLOW_ID => -6 | PW_E_UNKNOWN_CARD => -7
  | PW_E_UNKNOWN_GLOBAL_PORT => -8 | PW_E_UNKNOWN_LOGICAL_IF => -9
  | PW_E_CROSS_CARD_LATENCY => -10 | PW_E_MISSING_FIELD => -11
  | PW_E_OUT_OF_RANGE => -12 | PW_E_NO_CARD => -20
  | PW_E_NO_RESOURCES => -21 | PW_E_BACKEND => -22 | PW_E_IO => -23
  | PW_E_OVERFLOW => -24 | PW_E_DEGRADED => -25 | PW_E_NOT_IMPLEMENTED => -99
  end.

Definition pw_strerror (s : pw_status) : string :=
  match s with
  | PW_OK => "ok"
  | PW_E_INVAL => "invalid argument"
  | PW_E_PARSE => "parse error"
  | PW_E_DUP_CARD_ID => "duplicate card_id"
  | PW_E_DUP_GLOBAL_PORT => "duplicate global_port_id"
  | PW_E_DUP_LOGICAL_IF => "duplicate logical_if_id"
  | PW_E_DUP_FLOW_ID => "duplicate global_flow_id"
  | PW_E_UNKNOWN_CARD => "unknown card"
  | PW_E_UNKNOWN_GLOBAL_PORT => "unknown global_port_id"
  | PW_E_UNKNOWN_LOGICAL_IF => "unknown logical_if_id"
  | PW_E_CROSS_CARD_LATENCY => "cross-card flow does not support latency/jitter"
  | PW_E_MISSING_FIELD => "required field missing"
  | PW_E_OUT_OF_RANGE => "value out of range"
  | PW_E_NO_CARD => "no card with that PCI BDF"
  | PW_E_NO_RESOURCES => "out of resources (memory or table slot)"
  | PW_E_BACKEND => "backend error"
  | PW_E_IO => "I/O error"
  | PW_E_OVERFLOW => "value overflow"
  | PW_E_DEGRADED => "card is degraded"
  | PW_E_NOT_IMPLEMENTED => "not implemented"
  end%string.

(** [struct pw_diag] *)
Record pw_diag := {
  d_code : pw_status;
  d_path : string;
  d_message : string
}.

(** What a failing call hands back: its status, and the diagnostic it filled
    ([None]: it left the caller's [*diag] alone). *)
Record err := {
  e_status : pw_status;
  e_diag : option pw_diag
}.

Definition fail_bare (s : pw_status) : err := {| e_status := s; e_diag := None |}.

(** A status with the diagnostic [snprintf]ed into [path[256]], [message[256]]. *)
Definition fail_diag (s : pw_status) (path msg : string) : err :=
  {| e_status := s;
     e_diag := Some {| d_code := s; d_path := cstr 256 path; d_message := cstr 256 msg |} |}.

Abbreviation M := (result err).

(** The status an operation returns. *)
Definition status_of {A} (r : M A) : pw_status :=
  match r with Ok _ => PW_OK | Err e => e_status e end.

(** [struct pwfpga_port_ref] *)
Record pwfpga_port_ref := {
  pr_card_id : Z;
  pr_local_port_id : Z;
  pr_global_port_id : Z
}.

(** [pw_tap_name]: the text left in [buf] ([snprintf] truncates it) and the
    return value, the length or a negative status. *)
Definition pw_tap_name (buflen : nat) (global_port_id vlan_id : Z) : string * Z :=
  if (buflen =? 0)%nat then (""%string, status_code PW_E_INVAL) else
  let s := ("tap-pw-p" +:+ str_Z global_port_id +:+ "-v" +:+ str_Z vlan_id)%string in
  let n := String.length s in
  (cstr buflen s,
   if (buflen <=? n)%nat then status_code PW_E_OUT_OF_RANGE else Z.of_nat n).

Example tap_name_p3_v100 : pw_tap_name 32 3 100 = ("tap-pw-p3-v100"%string, 14).
Proof. reflexivity. Qed.

(** Distinct statuses have distinct C values, and only success is 0. *)
Lemma status_code_inj s t : status_code s = status_code t -> s = t.
Proof. destruct s, t; simpl; intros H; first [reflexivity | discriminate]. Qed.

#[global] Instance status_code_Inj : Inj (=) (=) status_code.
Proof. intros s t. apply status_code_inj. Qed.
