(* ===== verification/Config.v ===== *)
(** * The in-memory configuration model

    Models [sw/libpacketwyrm/include/packetwyrm/config.h] (the structs, with
    the C field names under a per-struct prefix) and the bookkeeping half of
    [src/config.c]: the lookups by id, [pw_config_resolve_port] and
    [pw_config_clone_env]. Arrays with a length field are lists; [uint8_t x[16]]
    arrays are lists of bytes in memory order; enumerated bytes are inductive
    types. *)

From S2P Require Import Prelude Types.

Definition PW_SECRET_MAX : nat := 128.

Record pw_system := {
  sys_name : string;
  sys_mode : string;
  sys_default_speed : string;
  sys_stats_poll_interval_ms : Z;
  sys_control_socket : string;
  sys_secret : string
}.

Record pw_card_port := {
  cp_local_port : Z;
  cp_global_port : Z;
  cp_name : string
}.

Record pw_card := {
  card_id : Z;
  card_name : string;
  card_pci : string;
  card_ports : list pw_card_port
}.

Record pw_punt_flags := {
  punt_arp : bool;
  punt_ipv6_nd : bool;
  punt_lldp : bool;
  punt_icmp : bool;
  punt_bgp : bool;
  punt_ospf : bool;
  punt_is_is : bool
}.

Record pw_logical_if := {
  lif_id : Z;
  lif_name : string;
  lif_global_port : Z;
  lif_vlan : Z;
  lif_mac : list Z;
  lif_mtu : Z;
  lif_netns : string;
  lif_punt : pw_punt_flags
}.

Record pw_flow_l2 := {
  l2_src_mac : list Z;
  l2_dst_mac : list Z;
  l2_vlan_set : bool;
  l2_vlan : Z;
  l2_pcp : Z;
  l2_ethertype : Z
}.

Record pw_flow_ipv4 := {
  v4_present : bool;
  v4_src : Z;
  v4_dst : Z;
  v4_ttl : Z;
  v4_dscp : Z
}.

Record pw_flow_ipv6 := {
  v6_present : bool;
  v6_src : list Z;
  v6_dst : list Z;
  v6_hop_limit : Z;
  v6_dscp : Z
}.

Inductive pw_encap_kind : Set :=
| PW_ENCAP_NONE | PW_ENCAP_IPIP | PW_ENCAP_GRE | PW_ENCAP_ETHERIP.

#[global] Instance pw_encap_kind_eq_dec : EqDecision pw_encap_kind.
Proof. solve_decision. Defined.

Definition encap_code (k : pw_encap_kind) : Z :=
  match k with
  | PW_ENCAP_NONE => 0 | PW_ENCAP_IPIP => 1 | PW_ENCAP_GRE => 2 | PW_ENCAP_ETHERIP => 3
  end.

Record pw_flow_encap := {
  enc_present : bool;
  enc_type : pw_encap_kind;
  enc_outer_ipv4 : pw_flow_ipv4;
  enc_outer_ipv6 : pw_flow_ipv6;
  enc_inner_mac_set : bool;
  enc_inner_src_mac : list Z;
  enc_inner_dst_mac : list Z
}.

Inductive pw_rx_expect : Set := PW_RX_INNER | PW_RX_TUNNELED.

Definition rx_expect_code (x : pw_rx_expect) : Z :=
  match x with PW_RX_INNER => 0 | PW_RX_TUNNELED => 1 end.

Record pw_flow_udp := {
  udp_src_port : Z;
  udp_dst_port : Z;
  udp_l4_proto : Z;
  udp_tcp_flags : Z
}.

Inductive pw_frame_template : Set :=
| PW_FRAME_TEMPLATE_TEST | PW_FRAME_TEMPLATE_L4RAW
| PW_FRAME_TEMPLATE_L3RAW | PW_FRAME_TEMPLATE_L2RAW.

#[global] Instance pw_frame_template_eq_dec : EqDecision pw_frame_template.
Proof. solve_decision. Defined.

Definition frame_template_code (t : pw_frame_template) : Z :=
  match t with
  | PW_FRAME_TEMPLATE_TEST => 0 | PW_FRAME_TEMPLATE_L4RAW => 1
  | PW_FRAME_TEMPLATE_L3RAW => 2 | PW_FRAME_TEMPLATE_L2RAW => 3
  end.

Inductive pwfpga_payload_mode : Set :=
| PWFPGA_PAYLOAD_ZERO | PWFPGA_PAYLOAD_INCREMENT
| PWFPGA_PAYLOAD_PRBS | PWFPGA_PAYLOAD_RANDOM.

Definition payload_mode_code (m : pwfpga_payload_mode) : Z :=
  match m with
  | PWFPGA_PAYLOAD_ZERO => 0 | PWFPGA_PAYLOAD_INCREMENT => 1
  | PWFPGA_PAYLOAD_PRBS => 2 | PWFPGA_PAYLOAD_RANDOM => 3
  end.

Record pw_flow_traffic := {
  tr_frame_template : pw_frame_template;
  tr_frame_len_fixed_set : bool;
  tr_frame_len_fixed : Z;
  tr_frame_len_min : Z;
  tr_frame_len_max : Z;
  tr_frame_len_step : Z;
  tr_rate_bps : Z;
  tr_rate_pps : Z;
  tr_burst_size : Z;
  tr_burst_gap_ticks : Z;
  tr_payload_mode : pwfpga_payload_mode;
  tr_payload_seed : Z;
  tr_insert_sequence : bool;
  tr_insert_timestamp : bool
}.

Record pw_flow_meas := {
  meas_loss : bool;
  meas_latency : bool;
  meas_jitter : bool
}.

Inductive pwfpga_field_mod : Set :=
| PWFPGA_FIELD_STATIC | PWFPGA_FIELD_INCREMENT | PWFPGA_FIELD_RANDOM.

#[global] Instance pwfpga_field_mod_eq_dec : EqDecision pwfpga_field_mod.
Proof. solve_decision. Defined.

Definition field_mod_code (m : pwfpga_field_mod) : Z :=
  match m with
  | PWFPGA_FIELD_STATIC => 0 | PWFPGA_FIELD_INCREMENT => 1 | PWFPGA_FIELD_RANDOM => 2
  end.

Record pw_field_mod := {
  fm_mode : pwfpga_field_mod;
  fm_mask : Z
}.

Record pw_flow_modifiers := {
  mod_src_ipv4 : pw_field_mod;
  mod_dst_ipv4 : pw_field_mod;
  mod_udp_src : pw_field_mod;
  mod_udp_dst : pw_field_mod;
  mod_src_mac : pw_field_mod;
  mod_dst_mac : pw_field_mod;
  mod_vlan : pw_field_mod;
  mod_src_ipv6_mask : list Z;
  mod_dst_ipv6_mask : list Z
}.

Record pw_flow := {
  f_id : Z;
  f_name : string;
  f_tx_global_port : Z;
  f_rx_global_port : Z;
  f_logical_if_id : Z;
  f_l2 : pw_flow_l2;
  f_ipv4 : pw_flow_ipv4;
  f_ipv6 : pw_flow_ipv6;
  f_udp : pw_flow_udp;
  f_traffic : pw_flow_traffic;
  f_meas : pw_flow_meas;
  f_mod : pw_flow_modifiers;
  f_background : bool;
  f_encap : pw_flow_encap;
  f_rx_expect : pw_rx_expect;
  f_match_udp_dst_mask : Z;
  f_match_ipv4_dst_mask : Z;
  f_match_ipv6_dst_set : bool;
  f_match_ipv6_dst_mask : list Z;
  f_match_ipv6_src_set : bool;
  f_match_ipv6_src_mask : list Z;
  f_classify_header : bool
}.

Record pw_forward_rule := {
  fr_name : string;
  fr_ingress_port : Z;
  fr_egress_port : Z;
  fr_priority : Z;
  fr_ethertype : Z;
  fr_ip_proto : Z;
  fr_udp_dst : Z;
  fr_vlan : Z;
  fr_ipv6_dst_set : bool;
  fr_ipv6_dst : list Z;
  fr_ipv6_dst_mask : list Z;
  fr_ipv6_src_set : bool;
  fr_ipv6_src : list Z;
  fr_ipv6_src_mask : list Z
}.

Record pw_config := {
  cfg_system : pw_system;
  cfg_cards : list pw_card;
  cfg_logical_if : list pw_logical_if;
  cfg_flows : list pw_flow;
  cfg_forwards : list pw_forward_rule
}.

(** [calloc]ed structs. *)
Definition zero_mac : list Z := replicate 6 0.
Definition zero_v6 : list Z := replicate 16 0.
Definition zero_system : pw_system :=
  {| sys_name := ""; sys_mode := ""; sys_default_speed := "";
     sys_stats_poll_interval_ms := 0; sys_control_socket := ""; sys_secret := "" |}.
Definition zero_ipv4 : pw_flow_ipv4 :=
  {| v4_present := false; v4_src := 0; v4_dst := 0; v4_ttl := 0; v4_dscp := 0 |}.
Definition zero_ipv6 : pw_flow_ipv6 :=
  {| v6_present := false; v6_src := zero_v6; v6_dst := zero_v6; v6_hop_limit := 0; v6_dscp := 0 |}.
Definition zero_l2 : pw_flow_l2 :=
  {| l2_src_mac := zero_mac; l2_dst_mac := zero_mac; l2_vlan_set := false; l2_vlan := 0;
     l2_pcp := 0; l2_ethertype := 0 |}.
Definition zero_encap : pw_flow_encap :=
  {| enc_present := false; enc_type := PW_ENCAP_NONE; enc_outer_ipv4 := zero_ipv4;
     enc_outer_ipv6 := zero_ipv6; enc_inner_mac_set := false;
     enc_inner_src_mac := zero_mac; enc_inner_dst_mac := zero_mac |}.
Definition zero_field_mod : pw_field_mod :=
  {| fm_mode := PWFPGA_FIELD_STATIC; fm_mask := 0 |}.
Definition zero_modifiers : pw_flow_modifiers :=
  {| mod_src_ipv4 := zero_field_mod; mod_dst_ipv4 := zero_field_mod;
     mod_udp_src := zero_field_mod; mod_udp_dst := zero_field_mod;
     mod_src_mac := zero_field_mod; mod_dst_mac := zero_field_mod;
     mod_vlan := zero_field_mod;
     mod_src_ipv6_mask := zero_v6; mod_dst_ipv6_mask := zero_v6 |}.
Definition zero_punt : pw_punt_flags :=
  {| punt_arp := false; punt_ipv6_nd := false; punt_lldp := false; punt_icmp := false;
     punt_bgp := false; punt_ospf := false; punt_is_is := false |}.
Definition zero_meas : pw_flow_meas :=
  {| meas_loss := false; meas_latency := false; meas_jitter := false |}.

Definition pw_config_new : pw_config :=
  {| cfg_system := zero_system; cfg_cards := []; cfg_logical_if := [];
     cfg_flows := []; cfg_forwards := [] |}.

(** ** Lookups: the first array element with the id. *)

Definition pw_config_card_by_id (cfg : pw_config) (id : Z) : option pw_card :=
  snd <$> list_find (fun c => card_id c = id) (cfg_cards cfg).

Definition pw_config_logical_if_by_id (cfg : pw_config) (id : Z) : option pw_logical_if :=
  snd <$> list_find (fun l => lif_id l = id) (cfg_logical_if cfg).

Definition pw_config_flow_by_id (cfg : pw_config) (id : Z) : option pw_flow :=
  snd <$> list_find (fun f => f_id f = id) (cfg_flows cfg).

(** The inner loop of [pw_config_resolve_port] over one card's ports. *)
Fixpoint resolve_in_ports (cid gp : Z) (ps : list pw_card_port) : option pwfpga_port_ref :=
  match ps with
  | [] => None
  | p :: ps' =>
      if cp_global_port p =? gp
      then Some {| pr_card_id := cid; pr_local_port_id := cp_local_port p; pr_global_port_id := gp |}
      else resolve_in_ports cid gp ps'
  end.

Fixpoint resolve_in_cards (gp : Z) (cs : list pw_card) : option pwfpga_port_ref :=
  match cs with
  | [] => None
  | c :: cs' =>
      match resolve_in_ports (card_id c) gp (card_ports c) with
      | Some r => Some r
      | None => resolve_in_cards gp cs'
      end
  end.

Definition pw_config_resolve_port (cfg : pw_config) (gp : Z) : M pwfpga_port_ref :=
  of_option (resolve_in_cards gp (cfg_cards cfg)) (fail_bare PW_E_UNKNOWN_GLOBAL_PORT).

(** Deep copy of the environment half; flows and forwards start empty. *)
Definition pw_config_clone_env (src : pw_config) : pw_config :=
  {| cfg_system := cfg_system src; cfg_cards := cfg_cards src;
     cfg_logical_if := cfg_logical_if src; cfg_flows := []; cfg_forwards := [] |}.

(** ** Lemmas *)

(** The port a reference stands for: a card of the list, one of its ports. *)
Definition port_in (cs : list pw_card) (gp : Z) (r : pwfpga_port_ref) : Prop :=
  exists c p, c ∈ cs /\ p ∈ card_ports c /\ cp_global_port p = gp /\
    pr_card_id r = card_id c /\ pr_local_port_id r = cp_local_port p /\
    pr_global_port_id r = gp.

(** Every global port of every card, in declaration order. *)
Definition all_global_ports (cs : list pw_card) : list Z :=
  cs ≫= fun c => cp_global_port <$> card_ports c.

Lemma resolve_in_ports_some cid gp ps r :
  resolve_in_ports cid gp ps = Some r ->
  exists p, p ∈ ps /\ cp_global_port p = gp /\ pr_card_id r = cid /\
    pr_local_port_id r = cp_local_port p /\ pr_global_port_id r = gp.
Proof.
  induction ps as [|p ps IH]; simpl; [done|].
  destruct (Z.eqb_spec (cp_global_port p) gp).
  - intros [= <-]. exists p. split_and!; try done. left.
  - intros (q & ? & ?)%IH. exists q. split; [by right|done].
Qed.

Lemma resolve_in_ports_none cid gp ps :
  resolve_in_ports cid gp ps = None <-> gp ∉ (cp_global_port <$> ps).
Proof.
  induction ps as [|p ps IH]; simpl; [split; [set_solver|done]|].
  rewrite not_elem_of_cons. destruct (Z.eqb_spec (cp_global_port p) gp); [naive_solver|].
  rewrite IH. naive_solver.
Qed.

Lemma resolve_in_cards_some gp cs r : resolve_in_cards gp cs = Some r -> port_in cs gp r.
Proof.
  induction cs as [|c cs IH]; simpl; [done|].
  destruct (resolve_in_ports _ _ _) as [r0|] eqn:Hp.
  - intros [= <-]. apply resolve_in_ports_some in Hp as (p & Hin & ?).
    exists c, p. split_and!; [left|naive_solver..].
  - intros (c' & p & ? & ?)%IH. exists c', p. split; [by right|done].
Qed.

Lemma resolve_in_cards_none gp cs :
  resolve_in_cards gp cs = None <-> gp ∉ all_global_ports cs.
Proof.
  unfold all_global_ports.
  induction cs as [|c cs IH]; simpl; [split; [set_solver|done]|].
  rewrite not_elem_of_app, <- IH, <- (resolve_in_ports_none (card_id c)).
  destruct (resolve_in_ports _ _ _); naive_solver.
Qed.

(** A reference obtained from a configuration names one of its cards. *)
Lemma resolve_card_in cfg gp r :
  pw_config_resolve_port cfg gp = Ok r -> pr_card_id r ∈ (card_id <$> cfg_cards cfg).
Proof.
  unfold pw_config_resolve_port. intros H. mon.
  apply resolve_in_cards_some in H as (c & p & Hc & _ & _ & -> & _).
  apply list_elem_of_fmap. eauto.
Qed.

Lemma resolve_port_status cfg gp r :
  pw_config_resolve_port cfg gp = Err r -> r = fail_bare PW_E_UNKNOWN_GLOBAL_PORT.
Proof. unfold pw_config_resolve_port. destruct (resolve_in_cards _ _); simpl; congruence. Qed.
