(* ===== verification/Validate.v ===== *)
(** * Static validation of a configuration

    Models [sw/libpacketwyrm/src/validate.c]: [pw_config_validate] as the same
    sequence of loops and early returns, with the diagnostic each one fills.
    [valid_config] is the declarative meaning of a valid configuration;
    [validate_iff] shows that the validator accepts exactly those. *)

From S2P Require Import Prelude Types Config.

Definition PW_TAP_IFNAME_MAX : nat := 16.

Local Open Scope string_scope.
Local Open Scope Z_scope.

Definition at_idx (arr : string) (i : nat) (suffix : string) : string :=
  arr +:+ "[" +:+ str_nat i +:+ "]" +:+ suffix.

(** [cards[i].id] and [cards[i].pci] against every later card. *)
Definition validate_cards (cards : list pw_card) : M unit :=
  for_each 0 cards (fun i ci later =>
    for_each (S i) later (fun j cj _ =>
      fail_if (card_id ci =? card_id cj)
        (fail_diag PW_E_DUP_CARD_ID (at_idx "cards" j ".id") "duplicate card id") ;;
      fail_if (bool_decide (card_pci ci = card_pci cj))
        (fail_diag PW_E_DUP_CARD_ID (at_idx "cards" j ".pci") "duplicate PCI BDF"))).

Definition dup_global_port (j pj : nat) : err :=
  fail_diag PW_E_DUP_GLOBAL_PORT (at_idx "cards" j (at_idx ".ports" pj ".global_port"))
    "duplicate global_port".

(** Per card: its global ports against its own later ports and every port of
    the later cards, then its local ports against each other. *)
Definition validate_card_ports (i : nat) (ci : pw_card) (later : list pw_card) : M unit :=
  for_each 0 (card_ports ci) (fun pi p ps =>
    for_each (S pi) ps (fun pj q _ =>
      fail_if (cp_global_port p =? cp_global_port q) (dup_global_port i pj)) ;;
    for_each (S i) later (fun j cj _ =>
      for_each 0 (card_ports cj) (fun pj q _ =>
        fail_if (cp_global_port p =? cp_global_port q) (dup_global_port j pj)))) ;;
  for_each 0 (card_ports ci) (fun pi p ps =>
    for_each (S pi) ps (fun pj q _ =>
      fail_if (cp_local_port p =? cp_local_port q)
        (fail_diag PW_E_DUP_GLOBAL_PORT
          (at_idx "cards" i (at_idx ".ports" pj ".local_port"))
          "duplicate local_port within card"))).

Definition validate_ports (cards : list pw_card) : M unit :=
  for_each 0 cards validate_card_ports.

Definition port_resolves (cfg : pw_config) (gp : Z) : bool :=
  match pw_config_resolve_port cfg gp with Ok _ => true | Err _ => false end.

Definition validate_logical_ifs (cfg : pw_config) : M unit :=
  for_each 0 (cfg_logical_if cfg) (fun i l later =>
    fail_if (PW_TAP_IFNAME_MAX <=? String.length (lif_name l))%nat
      (fail_diag PW_E_INVAL (at_idx "logical_interfaces" i ".name")
        "logical_if name too long for a TAP device (max 15 chars)") ;;
    fail_if (negb (bool_decide (lif_netns l = "")))
      (fail_diag PW_E_INVAL (at_idx "logical_interfaces" i ".netns")
        "logical_if netns is not yet supported (TAP stays in the daemon's namespace); move the TAP externally or omit netns") ;;
    for_each (S i) later (fun j l' _ =>
      fail_if (lif_id l =? lif_id l')
        (fail_diag PW_E_DUP_LOGICAL_IF (at_idx "logical_interfaces" j ".id")
          "duplicate logical_if id") ;;
      fail_if (bool_decide (lif_name l = lif_name l'))
        (fail_diag PW_E_DUP_LOGICAL_IF (at_idx "logical_interfaces" j ".name")
          "duplicate logical_if name")) ;;
    fail_if (negb (port_resolves cfg (lif_global_port l)))
      (fail_diag PW_E_UNKNOWN_GLOBAL_PORT (at_idx "logical_interfaces" i ".global_port")
        "global_port is not declared in any card")).

Definition flow_measured (f : pw_flow) : bool :=
  meas_loss (f_meas f) || meas_latency (f_meas f) || meas_jitter (f_meas f).

(** The reference checks of one flow. *)
Definition validate_flow_refs (cfg : pw_config) (i : nat) (f : pw_flow) : M unit :=
  fail_if (negb (port_resolves cfg (f_tx_global_port f)))
    (fail_diag PW_E_UNKNOWN_GLOBAL_PORT (at_idx "flows" i ".tx_global_port")
      "tx_global_port is not declared in any card") ;;
  fail_if (negb (port_resolves cfg (f_rx_global_port f)))
    (fail_diag PW_E_UNKNOWN_GLOBAL_PORT (at_idx "flows" i ".rx_global_port")
      "rx_global_port is not declared in any card") ;;
  fail_if (ztrue (f_logical_if_id f) &&
           bool_decide (pw_config_logical_if_by_id cfg (f_logical_if_id f) = None))
    (fail_diag PW_E_UNKNOWN_LOGICAL_IF (at_idx "flows" i ".logical_if_id")
      "logical_if_id is not declared").

(** Frame-length and rate exclusivity of one flow. *)
Definition validate_flow_traffic (i : nat) (f : pw_flow) : M unit :=
  let has_fixed := tr_frame_len_fixed_set (f_traffic f) in
  let has_range := ztrue (tr_frame_len_max (f_traffic f)) in
  fail_if (has_fixed && has_range)
    (fail_diag PW_E_INVAL (at_idx "flows" i ".traffic.frame_len*")
      "set either frame_len or frame_len_min/max/step, not both") ;;
  fail_if (negb has_fixed && negb has_range)
    (fail_diag PW_E_MISSING_FIELD (at_idx "flows" i ".traffic")
      "frame_len or frame_len_min/max required") ;;
  fail_if ((tr_rate_bps (f_traffic f) =? 0) && (tr_rate_pps (f_traffic f) =? 0))
    (fail_diag PW_E_MISSING_FIELD (at_idx "flows" i ".traffic")
      "rate_bps or rate_pps required") ;;
  fail_if (ztrue (tr_rate_bps (f_traffic f)) && ztrue (tr_rate_pps (f_traffic f)))
    (fail_diag PW_E_INVAL (at_idx "flows" i ".traffic")
      "set either rate_bps or rate_pps, not both").

(** Raw templates and background flows cannot be measured. *)
Definition validate_flow_template (i : nat) (f : pw_flow) : M unit :=
  (if bool_decide (tr_frame_template (f_traffic f) <> PW_FRAME_TEMPLATE_TEST) then
     fail_if (flow_measured f)
       (fail_diag PW_E_INVAL (at_idx "flows" i ".measurements")
         "raw frame templates (raw/ip/eth) carry no test header -- loss/latency/jitter cannot be measured; remove measurements") ;;
     fail_if (negb (f_classify_header f))
       (fail_diag PW_E_INVAL (at_idx "flows" i ".classify")
         "raw frame templates (raw/ip/eth) have no test-header flow_id -- set classify: header") ;;
     fail_if (enc_present (f_encap f))
       (fail_diag PW_E_INVAL (at_idx "flows" i ".encap")
         "encapsulation is not supported with a raw frame template")
   else Ok tt) ;;
  fail_if (f_background f && flow_measured f)
    (fail_diag PW_E_INVAL (at_idx "flows" i ".measurements")
      "background flows are TX-only and cannot request measurements (loss/latency/jitter); remove measurements or background").

Definition validate_flows (cfg : pw_config) : M unit :=
  for_each 0 (cfg_flows cfg) (fun i f later =>
    for_each (S i) later (fun j g _ =>
      fail_if (f_id f =? f_id g)
        (fail_diag PW_E_DUP_FLOW_ID (at_idx "flows" j ".id") "duplicate flow id")) ;;
    validate_flow_refs cfg i f ;;
    validate_flow_traffic i f ;;
    validate_flow_template i f).

Definition same_card_ports (cfg : pw_config) (a b : Z) : bool :=
  match pw_config_resolve_port cfg a, pw_config_resolve_port cfg b with
  | Ok ra, Ok rb => pr_card_id ra =? pr_card_id rb
  | _, _ => false
  end.

Definition validate_forwards (cfg : pw_config) : M unit :=
  for_each 0 (cfg_forwards cfg) (fun i fr _ =>
    fail_if (negb (port_resolves cfg (fr_ingress_port fr)))
      (fail_diag PW_E_UNKNOWN_GLOBAL_PORT (at_idx "forwards" i ".ingress_port")
        "ingress_port does not resolve to a card port") ;;
    fail_if (negb (port_resolves cfg (fr_egress_port fr)))
      (fail_diag PW_E_UNKNOWN_GLOBAL_PORT (at_idx "forwards" i ".egress_port")
        "egress_port does not resolve to a card port") ;;
    fail_if (negb (same_card_ports cfg (fr_ingress_port fr) (fr_egress_port fr)))
      (fail_diag PW_E_INVAL (at_idx "forwards" i "")
        "ingress and egress ports must be on the same card")).

Definition pw_config_validate (cfg : pw_config) : M unit :=
  validate_cards (cfg_cards cfg) ;;
  validate_ports (cfg_cards cfg) ;;
  validate_logical_ifs cfg ;;
  validate_flows cfg ;;
  validate_forwards cfg.

(** ** What a valid configuration is *)

Definition port_known (cfg : pw_config) (gp : Z) : Prop :=
  gp ∈ all_global_ports (cfg_cards cfg).

Record valid_traffic (t : pw_flow_traffic) : Prop := {
  vt_len : tr_frame_len_fixed_set t = true <-> tr_frame_len_max t = 0;
  vt_rate : tr_rate_bps t = 0 <-> tr_rate_pps t <> 0
}.

Record valid_flow (cfg : pw_config) (f : pw_flow) : Prop := {
  vf_tx : port_known cfg (f_tx_global_port f);
  vf_rx : port_known cfg (f_rx_global_port f);
  vf_lif : f_logical_if_id f = 0 \/ f_logical_if_id f ∈ (lif_id <$> cfg_logical_if cfg);
  vf_traffic : valid_traffic (f_traffic f);
  vf_raw : tr_frame_template (f_traffic f) <> PW_FRAME_TEMPLATE_TEST ->
    flow_measured f = false /\ f_classify_header f = true /\ enc_present (f_encap f) = false;
  vf_background : f_background f = true -> flow_measured f = false
}.

Record valid_config (cfg : pw_config) : Prop := {
  vc_card_ids : NoDup (card_id <$> cfg_cards cfg);
  vc_card_pcis : NoDup (card_pci <$> cfg_cards cfg);
  vc_global_ports : NoDup (all_global_ports (cfg_cards cfg));
  vc_local_ports : forall c, c ∈ cfg_cards cfg -> NoDup (cp_local_port <$> card_ports c);
  vc_lif_names : forall l, l ∈ cfg_logical_if cfg ->
    (String.length (lif_name l) < PW_TAP_IFNAME_MAX)%nat /\ lif_netns l = "";
  vc_lif_ids : NoDup (lif_id <$> cfg_logical_if cfg);
  vc_lif_unique_names : NoDup (lif_name <$> cfg_logical_if cfg);
  vc_lif_ports : forall l, l ∈ cfg_logical_if cfg -> port_known cfg (lif_global_port l);
  vc_flow_ids : NoDup (f_id <$> cfg_flows cfg);
  vc_flows : forall f, f ∈ cfg_flows cfg -> valid_flow cfg f;
  vc_forwards : forall fr, fr ∈ cfg_forwards cfg ->
    exists ri re, pw_config_resolve_port cfg (fr_ingress_port fr) = Ok ri /\
      pw_config_resolve_port cfg (fr_egress_port fr) = Ok re /\ pr_card_id ri = pr_card_id re
}.

(** ** The validator decides [valid_config] *)

Ltac loops :=
  repeat first [setoid_rewrite for_each_ok | setoid_rewrite seq_ok
               | setoid_rewrite fail_if_ok | setoid_rewrite if_ok].

Lemma validate_cards_ok cards :
  validate_cards cards = Ok tt <->
  NoDup (card_id <$> cards) /\ NoDup (card_pci <$> cards).
Proof.
  unfold validate_cards. loops. rewrite <- !pairwise_NoDup.
  setoid_rewrite Z.eqb_neq. setoid_rewrite bool_decide_eq_false. split.
  - intros H. split; intros k x Hk j y Hj; by apply (H k x Hk j y Hj).
  - intros [H1 H2] k x Hk j y Hj. split; [by apply (H1 k x Hk j)|by apply (H2 k x Hk j)].
Qed.

Lemma pair_loop_ok {A} (f : A -> Z) (e : nat -> err) (l : list A) :
  for_each 0 l (fun i x later =>
    for_each (S i) later (fun j y _ => fail_if (f x =? f y) (e j))) = Ok tt
  <-> NoDup (f <$> l).
Proof. loops. rewrite <- pairwise_NoDup. by setoid_rewrite Z.eqb_neq. Qed.

Lemma for_each_forall {A} (i : nat) (l : list A) (P : A -> Prop)
    (body : nat -> A -> list A -> M unit) :
  (forall k x r, body k x r = Ok tt <-> P x) ->
  for_each i l body = Ok tt <-> forall x, x ∈ l -> P x.
Proof.
  intros HP. rewrite for_each_ok. setoid_rewrite HP. split.
  - intros H x [k Hk]%list_elem_of_lookup. eauto.
  - intros H k x Hk. apply H, list_elem_of_lookup. eauto.
Qed.

Lemma validate_card_ports_ok i c later :
  validate_card_ports i c later = Ok tt <->
  NoDup (cp_global_port <$> card_ports c) /\
  (forall gp, gp ∈ (cp_global_port <$> card_ports c) -> gp ∉ all_global_ports later) /\
  NoDup (cp_local_port <$> card_ports c).
Proof.
  unfold validate_card_ports. rewrite seq_ok, pair_loop_ok. rewrite (and_assoc _ _ (NoDup _)).
  apply and_iff_compat_r. rewrite for_each_ok. setoid_rewrite seq_ok.
  rewrite <- pairwise_NoDup. setoid_rewrite for_each_ok at 1. setoid_rewrite fail_if_ok at 1.
  setoid_rewrite Z.eqb_neq at 1.
  assert (Hl : forall k x, for_each (S i) later (fun j cj _ =>
      for_each 0 (card_ports cj) (fun pj q _ =>
        fail_if (cp_global_port x =? cp_global_port q) (dup_global_port j pj))) = Ok tt
      <-> (k = k :> nat -> cp_global_port x ∉ all_global_ports later)).
  { intros k x. rewrite (for_each_forall _ _ (fun cj => cp_global_port x ∉ (cp_global_port <$> card_ports cj))).
    - unfold all_global_ports. rewrite list_elem_of_bind. naive_solver.
    - intros j cj r. rewrite (for_each_forall _ _ (fun q => cp_global_port x <> cp_global_port q)).
      + rewrite list_elem_of_fmap. naive_solver.
      + intros ? q ?. rewrite fail_if_ok. apply Z.eqb_neq. }
  split.
  - intros H. split; [intros k x Hk; by apply (H k x Hk)|].
    intros gp (x & -> & [k Hk]%list_elem_of_lookup)%list_elem_of_fmap.
    by apply (Hl k x); [apply (H k x Hk)|].
  - intros [H1 H2] k x Hk. split; [by apply H1|]. apply (Hl k x). intros _. apply H2.
    apply list_elem_of_fmap. eexists; split; [done|]. apply list_elem_of_lookup. eauto.
Qed.

Lemma validate_ports_ok cards :
  validate_ports cards = Ok tt <->
  NoDup (all_global_ports cards) /\
  forall c, c ∈ cards -> NoDup (cp_local_port <$> card_ports c).
Proof.
  unfold validate_ports. generalize 0%nat. induction cards as [|c cs IH]; intros i; simpl.
  - split; [|done]. intros _. split; [constructor|set_solver].
  - rewrite seq_ok, validate_card_ports_ok, IH. unfold all_global_ports at 2. simpl.
    rewrite NoDup_app. setoid_rewrite elem_of_cons. unfold all_global_ports. naive_solver.
Qed.

Lemma port_resolves_spec cfg gp : port_resolves cfg gp = true <-> port_known cfg gp.
Proof.
  unfold port_resolves, pw_config_resolve_port, port_known.
  pose proof (resolve_in_cards_none gp (cfg_cards cfg)) as H.
  destruct (resolve_in_cards gp (cfg_cards cfg)) eqn:E; simpl.
  - split; [|done]. intros _.
    destruct (decide (gp ∈ all_global_ports (cfg_cards cfg))); [done|naive_solver].
  - naive_solver.
Qed.

Lemma validate_logical_ifs_ok cfg :
  validate_logical_ifs cfg = Ok tt <->
  (forall l, l ∈ cfg_logical_if cfg ->
    (String.length (lif_name l) < PW_TAP_IFNAME_MAX)%nat /\ lif_netns l = "") /\
  NoDup (lif_id <$> cfg_logical_if cfg) /\ NoDup (lif_name <$> cfg_logical_if cfg) /\
  (forall l, l ∈ cfg_logical_if cfg -> port_known cfg (lif_global_port l)).
Proof.
  unfold validate_logical_ifs. loops. rewrite <- !pairwise_NoDup.
  setoid_rewrite Z.eqb_neq. setoid_rewrite bool_decide_eq_false.
  setoid_rewrite negb_false_iff. setoid_rewrite port_resolves_spec.
  setoid_rewrite bool_decide_eq_true. setoid_rewrite Nat.leb_gt.
  split.
  - intros H. split_and!; [intros l [k Hk]%list_elem_of_lookup|..|intros l [k Hk]%list_elem_of_lookup];
      try (intros k x Hk j y Hj); naive_solver.
  - intros (H1 & H2 & H3 & H4) k x Hk.
    assert (x ∈ cfg_logical_if cfg) by (apply list_elem_of_lookup; eauto). naive_solver.
Qed.

Lemma logical_if_by_id_none cfg id :
  pw_config_logical_if_by_id cfg id = None <-> id ∉ (lif_id <$> cfg_logical_if cfg).
Proof.
  unfold pw_config_logical_if_by_id. rewrite fmap_None, list_find_None, Forall_forall.
  rewrite list_elem_of_fmap. naive_solver.
Qed.

Lemma validate_flow_refs_ok cfg i f :
  validate_flow_refs cfg i f = Ok tt <->
  port_known cfg (f_tx_global_port f) /\ port_known cfg (f_rx_global_port f) /\
  (f_logical_if_id f = 0 \/ f_logical_if_id f ∈ (lif_id <$> cfg_logical_if cfg)).
Proof.
  unfold validate_flow_refs, ztrue. rewrite !seq_ok, !fail_if_ok, !negb_false_iff, !port_resolves_spec.
  rewrite andb_false_iff, negb_false_iff, Z.eqb_eq, bool_decide_eq_false, logical_if_by_id_none.
  destruct (decide (f_logical_if_id f ∈ (lif_id <$> cfg_logical_if cfg))); naive_solver.
Qed.

Lemma validate_flow_traffic_ok i f :
  validate_flow_traffic i f = Ok tt <-> valid_traffic (f_traffic f).
Proof.
  unfold validate_flow_traffic, ztrue. rewrite !seq_ok, !fail_if_ok.
  destruct (tr_frame_len_fixed_set _) eqn:Ef, (Z.eqb_spec (tr_frame_len_max (f_traffic f)) 0),
    (Z.eqb_spec (tr_rate_bps (f_traffic f)) 0), (Z.eqb_spec (tr_rate_pps (f_traffic f)) 0);
    simpl; split; intros H; try (split; rewrite ?Ef); try destruct H as [Hl Hr];
    rewrite ?Ef in *; naive_solver.
Qed.

Lemma validate_flow_template_ok i f :
  validate_flow_template i f = Ok tt <->
  (tr_frame_template (f_traffic f) <> PW_FRAME_TEMPLATE_TEST ->
    flow_measured f = false /\ f_classify_header f = true /\ enc_present (f_encap f) = false) /\
  (f_background f = true -> flow_measured f = false).
Proof.
  unfold validate_flow_template. rewrite seq_ok, if_ok, bool_decide_eq_true, !seq_ok, !fail_if_ok.
  rewrite negb_false_iff. destruct (f_background f), (flow_measured f); simpl; naive_solver.
Qed.

Lemma validate_flow_ok cfg i f :
  (validate_flow_refs cfg i f ;; validate_flow_traffic i f ;; validate_flow_template i f) = Ok tt
  <-> valid_flow cfg f.
Proof.
  rewrite !seq_ok, validate_flow_refs_ok, validate_flow_traffic_ok, validate_flow_template_ok.
  split; [intros; split; naive_solver|intros []; naive_solver].
Qed.

Lemma validate_flows_ok cfg :
  validate_flows cfg = Ok tt <->
  NoDup (f_id <$> cfg_flows cfg) /\ forall f, f ∈ cfg_flows cfg -> valid_flow cfg f.
Proof.
  unfold validate_flows. rewrite for_each_ok. setoid_rewrite seq_ok.
  setoid_rewrite validate_flow_ok. setoid_rewrite for_each_ok at 1. setoid_rewrite fail_if_ok at 1.
  setoid_rewrite Z.eqb_neq. rewrite <- pairwise_NoDup. split.
  - intros H. split; [intros k x Hk j y Hj; by eapply H|].
    intros f [k Hk]%list_elem_of_lookup. by eapply H.
  - intros [H1 H2] k x Hk. split; [by apply H1|]. apply H2, list_elem_of_lookup. eauto.
Qed.

Lemma validate_forwards_ok cfg :
  validate_forwards cfg = Ok tt <->
  forall fr, fr ∈ cfg_forwards cfg ->
    exists ri re, pw_config_resolve_port cfg (fr_ingress_port fr) = Ok ri /\
      pw_config_resolve_port cfg (fr_egress_port fr) = Ok re /\ pr_card_id ri = pr_card_id re.
Proof.
  apply for_each_forall. intros k fr r. rewrite !seq_ok, !fail_if_ok, !negb_false_iff.
  unfold port_resolves, same_card_ports.
  destruct (pw_config_resolve_port cfg (fr_ingress_port fr)) as [ri|],
    (pw_config_resolve_port cfg (fr_egress_port fr)) as [re|]; rewrite ?Z.eqb_eq; naive_solver.
Qed.

Lemma validate_ok_iff (cfg : pw_config) : pw_config_validate cfg = Ok tt <-> valid_config cfg.
Proof.
  unfold pw_config_validate.
  rewrite !seq_ok, validate_cards_ok, validate_ports_ok, validate_logical_ifs_ok,
    validate_flows_ok, validate_forwards_ok.
  split; [intros; split; naive_solver|intros []; naive_solver].
Qed.

(** An accepted configuration is valid. *)
Lemma validate_ok_valid (cfg : pw_config) : pw_config_validate cfg = Ok tt -> valid_config cfg.
Proof. apply validate_ok_iff. Qed.


(** Every rejection carries a diagnostic whose code is the returned status. *)
Definition diagnosed (e : err) : Prop :=
  e_status e <> PW_OK /\ exists d, e_diag e = Some d /\ d_code d = e_status e.

Lemma diagnosed_fail s p m : s <> PW_OK -> diagnosed (fail_diag s p m).
Proof. intros. split; [done|]. eexists. done. Qed.

(** All errors of [r] are diagnosed. *)
Definition errs_diagnosed {A} (r : M A) : Prop := forall e, r = Err e -> diagnosed e.

Lemma diag_seq {B} (m : M unit) (k : M B) :
  errs_diagnosed m -> errs_diagnosed k -> errs_diagnosed (m ;; k).
Proof. intros Hm Hk e [H|(a & _ & H)]%bind_err; eauto. Qed.

Lemma diag_fail_if c s p m : s <> PW_OK -> errs_diagnosed (fail_if c (fail_diag s p m)).
Proof. intros Hs e. destruct c; simpl; [intros [= <-]; by apply diagnosed_fail|done]. Qed.

Lemma diag_for_each {A} (body : nat -> A -> list A -> M unit) l :
  (forall i x r, errs_diagnosed (body i x r)) -> forall i, errs_diagnosed (for_each i l body).
Proof.
  intros Hb. induction l as [|x l IH]; intros i; simpl; [done|]. by apply diag_seq.
Qed.

Create HintDb diag.
#[export] Hint Resolve diag_seq diag_fail_if diag_for_each : diag.
#[export] Hint Extern 1 (_ <> PW_OK) => discriminate : diag.
#[export] Hint Extern 1 (errs_diagnosed (Ok _)) => intros ? [=] : diag.
#[export] Hint Extern 1 (errs_diagnosed (if ?b then _ else _)) => destruct b : diag.

(** When the validator rejects a configuration it returns a non-OK status and
    has filled the caller's diagnostic with that same code. *)
Lemma errs_validate (cfg : pw_config) : errs_diagnosed (pw_config_validate cfg).
Proof.
  unfold pw_config_validate, validate_cards, validate_ports, validate_card_ports,
    validate_logical_ifs, validate_flows, validate_flow_refs, validate_flow_traffic,
    validate_flow_template, validate_forwards, dup_global_port.
  auto 20 with diag.
Qed.
