(* ===== verification/Csr.v ===== *)
(** * CSR map and wire structures

    Models [sw/libpacketwyrm/include/packetwyrm/csr.h]: the BAR0 register and
    window offsets, the classifier and hash-table register layouts, and the
    packed [struct pwfpga_flow_config] as a list of wire fields whose
    little-endian bytes are the 244-byte row the FPGA reads. *)

From S2P Require Import Prelude Types.

(** ** Register and window offsets *)

Definition PWFPGA_REG_DEVICE_ID : Z := 0x0000.
Definition PWFPGA_REG_VERSION : Z := 0x0004.
Definition PWFPGA_REG_BUILD_ID : Z := 0x0008.
Definition PWFPGA_REG_GIT_HASH : Z := 0x000c.
Definition PWFPGA_REG_CAPABILITIES : Z := 0x0010.
Definition PWFPGA_REG_NUM_LOCAL_PORTS : Z := 0x0014.
Definition PWFPGA_REG_NUM_LOCAL_FLOWS : Z := 0x0018.
Definition PWFPGA_REG_NUM_LOGICAL_IFS : Z := 0x001c.
Definition PWFPGA_REG_NUM_CLASSIFIER : Z := 0x0020.
Definition PWFPGA_REG_NUM_HIST_BINS : Z := 0x0024.
Definition PWFPGA_REG_GLOBAL_CONTROL : Z := 0x0100.
Definition PWFPGA_REG_GLOBAL_STATUS : Z := 0x0104.
Definition PWFPGA_REG_TIMESTAMP_LOW : Z := 0x0108.
Definition PWFPGA_REG_TIMESTAMP_HIGH : Z := 0x010c.
Definition PWFPGA_REG_ERROR_STATUS : Z := 0x0110.
Definition PWFPGA_REG_IRQ_STATUS : Z := 0x0114.
Definition PWFPGA_REG_GPIO_SYNC_CTRL : Z := 0x0130.
Definition PWFPGA_REG_GPIO_SYNC_TS_LOW : Z := 0x0134.
Definition PWFPGA_REG_GPIO_SYNC_TS_HIGH : Z := 0x0138.
Definition PWFPGA_REG_GPIO_SYNC_SEQ : Z := 0x013c.
Definition PWFPGA_REG_LAT_CORRECTION_BASE : Z := 0x0180.
Definition PWFPGA_REG_SFP_I2C : Z := 0x0150.
(** The SPI byte engine. *)
Definition PWFPGA_WIN_SPI_FLASH : Z := 0x0800.
Definition PWFPGA_REG_SPI_CTRL : Z := PWFPGA_WIN_SPI_FLASH + 0x000.
Definition PWFPGA_REG_SPI_LEN : Z := PWFPGA_WIN_SPI_FLASH + 0x004.
Definition PWFPGA_SPI_TXBUF : Z := PWFPGA_WIN_SPI_FLASH + 0x100.
Definition PWFPGA_SPI_RXBUF : Z := PWFPGA_WIN_SPI_FLASH + 0x300.
Definition PWFPGA_SPI_BUF_BYTES : Z := 512.
Definition PWFPGA_SPI_CTRL_GO : Z := 1 <<< 0.
Definition PWFPGA_SPI_CTRL_CS_HOLD : Z := 1 <<< 1.
Definition PWFPGA_SPI_STATUS_BUSY : Z := 1 <<< 0.
Definition PWFPGA_WIN_FLOWID_MAP : Z := 0x0400.
Definition PWFPGA_WIN_FC_CMP : Z := 0x2000.
Definition PWFPGA_WIN_FC_UDF : Z := 0x2100.
Definition PWFPGA_WIN_FC_RULE : Z := 0x2200.
Definition PWFPGA_WIN_HASH_MASK : Z := 0x2F00.
Definition PWFPGA_REG_HASH_SEED : Z := 0x2FFC.
Definition PWFPGA_WIN_FC_HASH : Z := 0x3000.
Definition PWFPGA_WIN_FLOW_TABLE : Z := 0x6000.
Definition PWFPGA_WIN_HISTOGRAM : Z := 0xA000.
Definition PWFPGA_WIN_STATS_SNAPSHOT : Z := 0xC000.

Definition PWFPGA_FLOWID_MAP_DEPTH : Z := 256.
Definition PWFPGA_FLOWID_MAP_VALID : Z := 1 <<< 31.
Definition PWFPGA_NUM_CMP : Z := 12.
Definition PWFPGA_NUM_UDF : Z := 2.
Definition PWFPGA_NUM_RULE : Z := 32.
Definition PWFPGA_HASH_DEPTH : Z := 128.
Definition PWFPGA_HASH_KEY_WORDS : nat := 11.
Definition PWFPGA_HASH_KEY_WORD (base i w : Z) : Z := base + i * 64 + w * 4.
Definition PWFPGA_HASH_CTRL (base i : Z) : Z := base + i * 64 + 0x2C.
Definition PWFPGA_HASH_CTRL_VALID : Z := 1 <<< 31.
Definition PWFPGA_HASH_MASK_WORD (base w : Z) : Z := base + w * 4.

(** Comparator source selectors ([enum pwfpga_fc_src]). *)
Inductive pwfpga_fc_src : Set :=
| FC_SRC_L4_DST | FC_SRC_L4_SRC | FC_SRC_IPV4_DST | FC_SRC_IPV4_SRC
| FC_SRC_IPV6_DST_3 | FC_SRC_IPV6_DST_2 | FC_SRC_IPV6_DST_1 | FC_SRC_IPV6_DST_0
| FC_SRC_ETHERTYPE | FC_SRC_L3_PROTO | FC_SRC_VLAN | FC_SRC_FLOW_ID | FC_SRC_FLAGS
| FC_SRC_INGRESS | FC_SRC_IPV6_SRC_0 | FC_SRC_IPV6_SRC_3 | FC_SRC_IPV6_SRC_1
| FC_SRC_IPV6_SRC_2.

#[global] Instance pwfpga_fc_src_eq_dec : EqDecision pwfpga_fc_src.
Proof. solve_decision. Defined.

Definition fc_src_code (s : pwfpga_fc_src) : Z :=
  match s with
  | FC_SRC_L4_DST => 0 | FC_SRC_L4_SRC => 1 | FC_SRC_IPV4_DST => 2 | FC_SRC_IPV4_SRC => 3
  | FC_SRC_IPV6_DST_3 => 4 | FC_SRC_IPV6_DST_2 => 5 | FC_SRC_IPV6_DST_1 => 6
  | FC_SRC_IPV6_DST_0 => 7 | FC_SRC_ETHERTYPE => 8 | FC_SRC_L3_PROTO => 9
  | FC_SRC_VLAN => 10 | FC_SRC_FLOW_ID => 11 | FC_SRC_FLAGS => 12 | FC_SRC_INGRESS => 13
  | FC_SRC_IPV6_SRC_0 => 14 | FC_SRC_IPV6_SRC_3 => 15 | FC_SRC_IPV6_SRC_1 => 16
  | FC_SRC_IPV6_SRC_2 => 17
  end.

Definition PWFPGA_FC_FLAG_IS_IPV6 : Z := 1 <<< 3.

Definition PWFPGA_FC_CMP_SRC (base i : Z) : Z := base + i * 16 + 0.
Definition PWFPGA_FC_CMP_MASK (base i : Z) : Z := base + i * 16 + 4.
Definition PWFPGA_FC_CMP_VALUE (base i : Z) : Z := base + i * 16 + 8.
Definition PWFPGA_FC_UDF_OFFSET (base i : Z) : Z := base + i * 16 + 0.
Definition PWFPGA_FC_UDF_MASK (base i : Z) : Z := base + i * 16 + 4.
Definition PWFPGA_FC_UDF_VALUE (base i : Z) : Z := base + i * 16 + 8.
Definition PWFPGA_FC_RULE_WORD0 (base i : Z) : Z := base + i * 16 + 0.
Definition PWFPGA_FC_RULE_LFID (base i : Z) : Z := base + i * 16 + 4.
Definition PWFPGA_FC_RULE_LIF (base i : Z) : Z := base + i * 16 + 8.

Definition PWFPGA_FC_RULE_W0 (care action egress prio : Z) (enable : bool) : Z :=
  (care &&& 0x3FFF) |||
  ((action &&& 0x7) <<< 14) |||
  ((egress &&& 0xF) <<< 17) |||
  ((prio &&& 0xFF) <<< 21) |||
  (if enable then 1 <<< 31 else 0).

Definition PWFPGA_GCTL_ENABLE : Z := 1 <<< 0.
Definition PWFPGA_GCTL_ARM : Z := 1 <<< 1.
Definition PWFPGA_GCTL_RESET_COUNTERS : Z := 1 <<< 2.
Definition PWFPGA_GSTAT_READY : Z := 1 <<< 0.
Definition PWFPGA_GSTAT_ARMED : Z := 1 <<< 1.
Definition PWFPGA_CAP_HAS_DMA : Z := 1 <<< 0.
Definition PWFPGA_CAP_HAS_HISTOGRAM : Z := 1 <<< 2.

Inductive pwfpga_action : Set :=
| PWFPGA_ACT_DROP | PWFPGA_ACT_TEST_RX | PWFPGA_ACT_PUNT_TO_HOST
| PWFPGA_ACT_MIRROR_TO_HOST | PWFPGA_ACT_FORWARD_PORT.

#[global] Instance pwfpga_action_eq_dec : EqDecision pwfpga_action.
Proof. solve_decision. Defined.

Definition action_code (a : pwfpga_action) : Z :=
  match a with
  | PWFPGA_ACT_DROP => 0 | PWFPGA_ACT_TEST_RX => 1 | PWFPGA_ACT_PUNT_TO_HOST => 2
  | PWFPGA_ACT_MIRROR_TO_HOST => 3 | PWFPGA_ACT_FORWARD_PORT => 4
  end.

Definition PWFPGA_DATA_PLANE_CLOCK_HZ : Z := 156250000.

(** Window strides and capacities. *)
Definition PWFPGA_FLOW_STRIDE : Z := 256.
Definition PWFPGA_PORT_STATS_STRIDE : Z := 128.
Definition PWFPGA_FLOW_STATS_STRIDE : Z := 128.
Definition PWFPGA_FLOW_HIST_STRIDE : Z := 128.
Definition PWFPGA_FLOW_STATS_BASE : Z := 0x100.
Definition PWFPGA_REG_FLOW_COMMIT : Z := PWFPGA_WIN_FLOW_TABLE + 0x3FFC.
Definition PWFPGA_REG_STATS_SNAPSHOT_TRIGGER : Z := PWFPGA_WIN_STATS_SNAPSHOT + 0x3FFC.
Definition PWFPGA_REG_STATS_CLEAR : Z := PWFPGA_WIN_STATS_SNAPSHOT + 0x3FF8.
Definition PWFPGA_REG_DP_RESET : Z := PWFPGA_WIN_STATS_SNAPSHOT + 0x3FF4.
Definition PWFPGA_FLOW_TABLE_ROWS : Z :=
  (PWFPGA_WIN_HISTOGRAM - PWFPGA_WIN_FLOW_TABLE) / PWFPGA_FLOW_STRIDE.
Definition PWFPGA_FLOW_HIST_SLOTS : Z :=
  (PWFPGA_WIN_STATS_SNAPSHOT - PWFPGA_WIN_HISTOGRAM) / PWFPGA_FLOW_HIST_STRIDE.
Definition PWFPGA_FLOW_STATS_SLOTS : Z :=
  (PWFPGA_REG_DP_RESET - (PWFPGA_WIN_STATS_SNAPSHOT + PWFPGA_FLOW_STATS_BASE))
  / PWFPGA_FLOW_STATS_STRIDE.

(** ** Packed structures *)

(** A field of a packed struct: an [n]-byte little-endian integer or an array
    of [n] bytes. *)
Inductive wire : Type :=
| WInt (n : nat) (z : Z)
| WArr (n : nat) (l : list Z).

Definition wire_size (w : wire) : nat := match w with WInt n _ | WArr n _ => n end.
Definition wire_bytes (w : wire) : list Z :=
  match w with WInt n z => le_bytes n z | WArr n l => take n ((u8 <$> l) ++ replicate n 0) end.
Definition wires_bytes (ws : list wire) : list Z := ws ≫= wire_bytes.
Definition wires_size (ws : list wire) : nat := sum_list (wire_size <$> ws).

(** Read back fields of the same shapes as [ws]. *)
Fixpoint read_wires (ws : list wire) (bs : list Z) : list wire :=
  match ws with
  | [] => []
  | WInt n _ :: ws' => WInt n (le_val (take n bs)) :: read_wires ws' (drop n bs)
  | WArr n _ :: ws' => WArr n (take n bs) :: read_wires ws' (drop n bs)
  end.

(** The value fits its field. *)
Definition wire_ok (w : wire) : Prop :=
  match w with
  | WInt n z => 0 <= z < 256 ^ Z.of_nat n
  | WArr n l => length l = n /\ Forall is_u8 l
  end.

Record pwfpga_flow_config := {
  fc_enable : Z;
  fc_egress_local_port : Z;
  fc_global_flow_id : Z;
  fc_local_flow_id : Z;
  fc_logical_if_id : Z;
  fc_dst_mac : list Z;
  fc_src_mac : list Z;
  fc_vlan_enable : Z;
  fc_vlan_id : Z;
  fc_pcp : Z;
  fc_ip_version : Z;
  fc_src_ipv4 : Z;
  fc_dst_ipv4 : Z;
  fc_dscp : Z;
  fc_ttl : Z;
  fc_udp_src_port : Z;
  fc_udp_dst_port : Z;
  fc_frame_len_min : Z;
  fc_frame_len_max : Z;
  fc_frame_len_step : Z;
  fc_rate_bps : Z;
  fc_rate_pps : Z;
  fc_burst_size : Z;
  fc_burst_gap_ticks : Z;
  fc_tokens_per_tick_fp : Z;
  fc_burst_bytes : Z;
  fc_reserved0 : Z;
  fc_payload_mode : Z;
  fc_payload_seed : Z;
  fc_insert_sequence : Z;
  fc_insert_timestamp : Z;
  fc_tx_enable : Z;
  fc_rx_check_enable : Z;
  fc_src_ipv4_mod : Z;
  fc_src_ipv4_mask : Z;
  fc_dst_ipv4_mod : Z;
  fc_dst_ipv4_mask : Z;
  fc_udp_src_mod : Z;
  fc_udp_src_mask : Z;
  fc_udp_dst_mod : Z;
  fc_udp_dst_mask : Z;
  fc_ipv6_src : list Z;
  fc_ipv6_dst : list Z;
  fc_src_mac_mod : Z;
  fc_src_mac_mask : list Z;
  fc_dst_mac_mod : Z;
  fc_dst_mac_mask : list Z;
  fc_vlan_mod : Z;
  fc_vlan_mask : Z;
  fc_encap_type : Z;
  fc_outer_ip_version : Z;
  fc_rx_expect : Z;
  fc_outer_ttl : Z;
  fc_outer_dscp : Z;
  fc_outer_src_ipv4 : Z;
  fc_outer_dst_ipv4 : Z;
  fc_outer_ipv6_src : list Z;
  fc_outer_ipv6_dst : list Z;
  fc_inner_dst_mac : list Z;
  fc_inner_src_mac : list Z;
  fc_src_ipv6_mask_hi : list Z;
  fc_dst_ipv6_mask_hi : list Z;
  fc_l4_proto : Z;
  fc_tcp_flags : Z;
  fc_frame_template : Z;
  fc_reserved_ft : Z;
  fc_l2_ethertype : Z
}.

Definition zero_flow_config : pwfpga_flow_config := {|
  fc_enable := 0;
  fc_egress_local_port := 0;
  fc_global_flow_id := 0;
  fc_local_flow_id := 0;
  fc_logical_if_id := 0;
  fc_dst_mac := replicate 6 0;
  fc_src_mac := replicate 6 0;
  fc_vlan_enable := 0;
  fc_vlan_id := 0;
  fc_pcp := 0;
  fc_ip_version := 0;
  fc_src_ipv4 := 0;
  fc_dst_ipv4 := 0;
  fc_dscp := 0;
  fc_ttl := 0;
  fc_udp_src_port := 0;
  fc_udp_dst_port := 0;
  fc_frame_len_min := 0;
  fc_frame_len_max := 0;
  fc_frame_len_step := 0;
  fc_rate_bps := 0;
  fc_rate_pps := 0;
  fc_burst_size := 0;
  fc_burst_gap_ticks := 0;
  fc_tokens_per_tick_fp := 0;
  fc_burst_bytes := 0;
  fc_reserved0 := 0;
  fc_payload_mode := 0;
  fc_payload_seed := 0;
  fc_insert_sequence := 0;
  fc_insert_timestamp := 0;
  fc_tx_enable := 0;
  fc_rx_check_enable := 0;
  fc_src_ipv4_mod := 0;
  fc_src_ipv4_mask := 0;
  fc_dst_ipv4_mod := 0;
  fc_dst_ipv4_mask := 0;
  fc_udp_src_mod := 0;
  fc_udp_src_mask := 0;
  fc_udp_dst_mod := 0;
  fc_udp_dst_mask := 0;
  fc_ipv6_src := replicate 16 0;
  fc_ipv6_dst := replicate 16 0;
  fc_src_mac_mod := 0;
  fc_src_mac_mask := replicate 6 0;
  fc_dst_mac_mod := 0;
  fc_dst_mac_mask := replicate 6 0;
  fc_vlan_mod := 0;
  fc_vlan_mask := 0;
  fc_encap_type := 0;
  fc_outer_ip_version := 0;
  fc_rx_expect := 0;
  fc_outer_ttl := 0;
  fc_outer_dscp := 0;
  fc_outer_src_ipv4 := 0;
  fc_outer_dst_ipv4 := 0;
  fc_outer_ipv6_src := replicate 16 0;
  fc_outer_ipv6_dst := replicate 16 0;
  fc_inner_dst_mac := replicate 6 0;
  fc_inner_src_mac := replicate 6 0;
  fc_src_ipv6_mask_hi := replicate 12 0;
  fc_dst_ipv6_mask_hi := replicate 12 0;
  fc_l4_proto := 0;
  fc_tcp_flags := 0;
  fc_frame_template := 0;
  fc_reserved_ft := 0;
  fc_l2_ethertype := 0
|}.

(** The fields in declaration order, with their C sizes. *)
Definition flow_config_wires (f : pwfpga_flow_config) : list wire := [
  WInt 1 (fc_enable f);
  WInt 1 (fc_egress_local_port f);
  WInt 4 (fc_global_flow_id f);
  WInt 4 (fc_local_flow_id f);
  WInt 4 (fc_logical_if_id f);
  WArr 6 (fc_dst_mac f);
  WArr 6 (fc_src_mac f);
  WInt 1 (fc_vlan_enable f);
  WInt 2 (fc_vlan_id f);
  WInt 1 (fc_pcp f);
  WInt 1 (fc_ip_version f);
  WInt 4 (fc_src_ipv4 f);
  WInt 4 (fc_dst_ipv4 f);
  WInt 1 (fc_dscp f);
  WInt 1 (fc_ttl f);
  WInt 2 (fc_udp_src_port f);
  WInt 2 (fc_udp_dst_port f);
  WInt 2 (fc_frame_len_min f);
  WInt 2 (fc_frame_len_max f);
  WInt 2 (fc_frame_len_step f);
  WInt 8 (fc_rate_bps f);
  WInt 8 (fc_rate_pps f);
  WInt 4 (fc_burst_size f);
  WInt 4 (fc_burst_gap_ticks f);
  WInt 4 (fc_tokens_per_tick_fp f);
  WInt 2 (fc_burst_bytes f);
  WInt 2 (fc_reserved0 f);
  WInt 1 (fc_payload_mode f);
  WInt 4 (fc_payload_seed f);
  WInt 1 (fc_insert_sequence f);
  WInt 1 (fc_insert_timestamp f);
  WInt 1 (fc_tx_enable f);
  WInt 1 (fc_rx_check_enable f);
  WInt 1 (fc_src_ipv4_mod f);
  WInt 4 (fc_src_ipv4_mask f);
  WInt 1 (fc_dst_ipv4_mod f);
  WInt 4 (fc_dst_ipv4_mask f);
  WInt 1 (fc_udp_src_mod f);
  WInt 2 (fc_udp_src_mask f);
  WInt 1 (fc_udp_dst_mod f);
  WInt 2 (fc_udp_dst_mask f);
  WArr 16 (fc_ipv6_src f);
  WArr 16 (fc_ipv6_dst f);
  WInt 1 (fc_src_mac_mod f);
  WArr 6 (fc_src_mac_mask f);
  WInt 1 (fc_dst_mac_mod f);
  WArr 6 (fc_dst_mac_mask f);
  WInt 1 (fc_vlan_mod f);
  WInt 2 (fc_vlan_mask f);
  WInt 1 (fc_encap_type f);
  WInt 1 (fc_outer_ip_version f);
  WInt 1 (fc_rx_expect f);
  WInt 1 (fc_outer_ttl f);
  WInt 1 (fc_outer_dscp f);
  WInt 4 (fc_outer_src_ipv4 f);
  WInt 4 (fc_outer_dst_ipv4 f);
  WArr 16 (fc_outer_ipv6_src f);
  WArr 16 (fc_outer_ipv6_dst f);
  WArr 6 (fc_inner_dst_mac f);
  WArr 6 (fc_inner_src_mac f);
  WArr 12 (fc_src_ipv6_mask_hi f);
  WArr 12 (fc_dst_ipv6_mask_hi f);
  WInt 1 (fc_l4_proto f);
  WInt 1 (fc_tcp_flags f);
  WInt 1 (fc_frame_template f);
  WInt 1 (fc_reserved_ft f);
  WInt 2 (fc_l2_ethertype f)
].

Definition flow_config_bytes (f : pwfpga_flow_config) : list Z :=
  wires_bytes (flow_config_wires f).
Definition flow_config_ok (f : pwfpga_flow_config) : Prop :=
  Forall wire_ok (flow_config_wires f).

(** Field [w] starts at byte [off] of the row ([offsetof]). *)
Definition at_offset (f : pwfpga_flow_config) (off : nat) (w : wire) : Prop :=
  exists i, flow_config_wires f !! i = Some w /\
    wires_size (take i (flow_config_wires f)) = off.

(** The four fields a program overwrites in an existing row. *)
Definition set_run_fields (f : pwfpga_flow_config) (lfid egress tx_en rx_chk : Z) : pwfpga_flow_config := {|
  fc_enable := fc_enable f;
  fc_egress_local_port := egress;
  fc_global_flow_id := fc_global_flow_id f;
  fc_local_flow_id := lfid;
  fc_logical_if_id := fc_logical_if_id f;
  fc_dst_mac := fc_dst_mac f;
  fc_src_mac := fc_src_mac f;
  fc_vlan_enable := fc_vlan_enable f;
  fc_vlan_id := fc_vlan_id f;
  fc_pcp := fc_pcp f;
  fc_ip_version := fc_ip_version f;
  fc_src_ipv4 := fc_src_ipv4 f;
  fc_dst_ipv4 := fc_dst_ipv4 f;
  fc_dscp := fc_dscp f;
  fc_ttl := fc_ttl f;
  fc_udp_src_port := fc_udp_src_port f;
  fc_udp_dst_port := fc_udp_dst_port f;
  fc_frame_len_min := fc_frame_len_min f;
  fc_frame_len_max := fc_frame_len_max f;
  fc_frame_len_step := fc_frame_len_step f;
  fc_rate_bps := fc_rate_bps f;
  fc_rate_pps := fc_rate_pps f;
  fc_burst_size := fc_burst_size f;
  fc_burst_gap_ticks := fc_burst_gap_ticks f;
  fc_tokens_per_tick_fp := fc_tokens_per_tick_fp f;
  fc_burst_bytes := fc_burst_bytes f;
  fc_reserved0 := fc_reserved0 f;
  fc_payload_mode := fc_payload_mode f;
  fc_payload_seed := fc_payload_seed f;
  fc_insert_sequence := fc_insert_sequence f;
  fc_insert_timestamp := fc_insert_timestamp f;
  fc_tx_enable := tx_en;
  fc_rx_check_enable := rx_chk;
  fc_src_ipv4_mod := fc_src_ipv4_mod f;
  fc_src_ipv4_mask := fc_src_ipv4_mask f;
  fc_dst_ipv4_mod := fc_dst_ipv4_mod f;
  fc_dst_ipv4_mask := fc_dst_ipv4_mask f;
  fc_udp_src_mod := fc_udp_src_mod f;
  fc_udp_src_mask := fc_udp_src_mask f;
  fc_udp_dst_mod := fc_udp_dst_mod f;
  fc_udp_dst_mask := fc_udp_dst_mask f;
  fc_ipv6_src := fc_ipv6_src f;
  fc_ipv6_dst := fc_ipv6_dst f;
  fc_src_mac_mod := fc_src_mac_mod f;
  fc_src_mac_mask := fc_src_mac_mask f;
  fc_dst_mac_mod := fc_dst_mac_mod f;
  fc_dst_mac_mask := fc_dst_mac_mask f;
  fc_vlan_mod := fc_vlan_mod f;
  fc_vlan_mask := fc_vlan_mask f;
  fc_encap_type := fc_encap_type f;
  fc_outer_ip_version := fc_outer_ip_version f;
  fc_rx_expect := fc_rx_expect f;
  fc_outer_ttl := fc_outer_ttl f;
  fc_outer_dscp := fc_outer_dscp f;
  fc_outer_src_ipv4 := fc_outer_src_ipv4 f;
  fc_outer_dst_ipv4 := fc_outer_dst_ipv4 f;
  fc_outer_ipv6_src := fc_outer_ipv6_src f;
  fc_outer_ipv6_dst := fc_outer_ipv6_dst f;
  fc_inner_dst_mac := fc_inner_dst_mac f;
  fc_inner_src_mac := fc_inner_src_mac f;
  fc_src_ipv6_mask_hi := fc_src_ipv6_mask_hi f;
  fc_dst_ipv6_mask_hi := fc_dst_ipv6_mask_hi f;
  fc_l4_proto := fc_l4_proto f;
  fc_tcp_flags := fc_tcp_flags f;
  fc_frame_template := fc_frame_template f;
  fc_reserved_ft := fc_reserved_ft f;
  fc_l2_ethertype := fc_l2_ethertype f
|}.

(** The generator of a row on or off. *)
Definition set_run_state (f : pwfpga_flow_config) (en : Z) : pwfpga_flow_config := {|
  fc_enable := en;
  fc_egress_local_port := fc_egress_local_port f;
  fc_global_flow_id := fc_global_flow_id f;
  fc_local_flow_id := fc_local_flow_id f;
  fc_logical_if_id := fc_logical_if_id f;
  fc_dst_mac := fc_dst_mac f;
  fc_src_mac := fc_src_mac f;
  fc_vlan_enable := fc_vlan_enable f;
  fc_vlan_id := fc_vlan_id f;
  fc_pcp := fc_pcp f;
  fc_ip_version := fc_ip_version f;
  fc_src_ipv4 := fc_src_ipv4 f;
  fc_dst_ipv4 := fc_dst_ipv4 f;
  fc_dscp := fc_dscp f;
  fc_ttl := fc_ttl f;
  fc_udp_src_port := fc_udp_src_port f;
  fc_udp_dst_port := fc_udp_dst_port f;
  fc_frame_len_min := fc_frame_len_min f;
  fc_frame_len_max := fc_frame_len_max f;
  fc_frame_len_step := fc_frame_len_step f;
  fc_rate_bps := fc_rate_bps f;
  fc_rate_pps := fc_rate_pps f;
  fc_burst_size := fc_burst_size f;
  fc_burst_gap_ticks := fc_burst_gap_ticks f;
  fc_tokens_per_tick_fp := fc_tokens_per_tick_fp f;
  fc_burst_bytes := fc_burst_bytes f;
  fc_reserved0 := fc_reserved0 f;
  fc_payload_mode := fc_payload_mode f;
  fc_payload_seed := fc_payload_seed f;
  fc_insert_sequence := fc_insert_sequence f;
  fc_insert_timestamp := fc_insert_timestamp f;
  fc_tx_enable := en;
  fc_rx_check_enable := fc_rx_check_enable f;
  fc_src_ipv4_mod := fc_src_ipv4_mod f;
  fc_src_ipv4_mask := fc_src_ipv4_mask f;
  fc_dst_ipv4_mod := fc_dst_ipv4_mod f;
  fc_dst_ipv4_mask := fc_dst_ipv4_mask f;
  fc_udp_src_mod := fc_udp_src_mod f;
  fc_udp_src_mask := fc_udp_src_mask f;
  fc_udp_dst_mod := fc_udp_dst_mod f;
  fc_udp_dst_mask := fc_udp_dst_mask f;
  fc_ipv6_src := fc_ipv6_src f;
  fc_ipv6_dst := fc_ipv6_dst f;
  fc_src_mac_mod := fc_src_mac_mod f;
  fc_src_mac_mask := fc_src_mac_mask f;
  fc_dst_mac_mod := fc_dst_mac_mod f;
  fc_dst_mac_mask := fc_dst_mac_mask f;
  fc_vlan_mod := fc_vlan_mod f;
  fc_vlan_mask := fc_vlan_mask f;
  fc_encap_type := fc_encap_type f;
  fc_outer_ip_version := fc_outer_ip_version f;
  fc_rx_expect := fc_rx_expect f;
  fc_outer_ttl := fc_outer_ttl f;
  fc_outer_dscp := fc_outer_dscp f;
  fc_outer_src_ipv4 := fc_outer_src_ipv4 f;
  fc_outer_dst_ipv4 := fc_outer_dst_ipv4 f;
  fc_outer_ipv6_src := fc_outer_ipv6_src f;
  fc_outer_ipv6_dst := fc_outer_ipv6_dst f;
  fc_inner_dst_mac := fc_inner_dst_mac f;
  fc_inner_src_mac := fc_inner_src_mac f;
  fc_src_ipv6_mask_hi := fc_src_ipv6_mask_hi f;
  fc_dst_ipv6_mask_hi := fc_dst_ipv6_mask_hi f;
  fc_l4_proto := fc_l4_proto f;
  fc_tcp_flags := fc_tcp_flags f;
  fc_frame_template := fc_frame_template f;
  fc_reserved_ft := fc_reserved_ft f;
  fc_l2_ethertype := fc_l2_ethertype f
|}.

(** ** Lemmas *)

Create HintDb csr.
#[export] Hint Unfold PWFPGA_WIN_FLOWID_MAP PWFPGA_WIN_FC_CMP PWFPGA_WIN_FC_UDF
  PWFPGA_WIN_FC_RULE PWFPGA_WIN_HASH_MASK PWFPGA_REG_HASH_SEED PWFPGA_WIN_FC_HASH
  PWFPGA_WIN_FLOW_TABLE PWFPGA_WIN_HISTOGRAM PWFPGA_WIN_STATS_SNAPSHOT
  PWFPGA_FLOWID_MAP_DEPTH PWFPGA_NUM_CMP PWFPGA_NUM_UDF PWFPGA_NUM_RULE PWFPGA_HASH_DEPTH
  PWFPGA_HASH_KEY_WORDS PWFPGA_HASH_KEY_WORD PWFPGA_HASH_CTRL PWFPGA_HASH_MASK_WORD
  PWFPGA_FC_CMP_SRC PWFPGA_FC_CMP_MASK PWFPGA_FC_CMP_VALUE PWFPGA_FC_UDF_OFFSET
  PWFPGA_FC_UDF_MASK PWFPGA_FC_UDF_VALUE PWFPGA_FC_RULE_WORD0 PWFPGA_FC_RULE_LFID
  PWFPGA_FC_RULE_LIF PWFPGA_FLOW_STRIDE PWFPGA_FLOW_STATS_BASE PWFPGA_FLOW_STATS_STRIDE
  PWFPGA_FLOW_HIST_STRIDE PWFPGA_PORT_STATS_STRIDE PWFPGA_REG_FLOW_COMMIT
  PWFPGA_REG_STATS_SNAPSHOT_TRIGGER PWFPGA_REG_STATS_CLEAR PWFPGA_REG_DP_RESET
  PWFPGA_REG_LAT_CORRECTION_BASE PWFPGA_REG_GPIO_SYNC_CTRL : csr.

Ltac csr := autounfold with csr in *.

Lemma flow_table_rows_64 : PWFPGA_FLOW_TABLE_ROWS = 64.
Proof. reflexivity. Qed.

Lemma length_le_bytes n z : length (le_bytes n z) = n.
Proof. revert z. induction n; intros; simpl; auto. Qed.

Lemma le_bytes_u8 n z : Forall is_u8 (le_bytes n z).
Proof.
  revert z. induction n; intros z; simpl; constructor; [|done].
  unfold is_w. change (2 ^ 8) with 256. apply Z.mod_pos_bound. lia.
Qed.

Lemma le_val_bytes n z : 0 <= z < 256 ^ Z.of_nat n -> le_val (le_bytes n z) = z.
Proof.
  revert z. induction n as [|n IH]; intros z Hz; simpl in *; [lia|].
  rewrite Nat2Z.inj_succ, Z.pow_succ_r in Hz by lia.
  rewrite IH; [rewrite (Z.div_mod z 256) at 3; lia|].
  split; [apply Z.div_pos; lia|]. apply Z.div_lt_upper_bound; lia.
Qed.

Lemma le_bytes_val l : Forall is_u8 l -> le_bytes (length l) (le_val l) = l.
Proof.
  induction 1 as [|b l Hb Hl IH]; simpl; [done|].
  unfold is_w in Hb. change (2 ^ 8) with 256 in Hb.
  rewrite (Z.mul_comm 256), Z.mod_add, Z.mod_small, Z.div_add, Z.div_small by lia.
  by rewrite Z.add_0_l, IH.
Qed.

Lemma u8_fmap_id l : Forall is_u8 l -> u8 <$> l = l.
Proof. induction 1; [done|]. rewrite fmap_cons, u8_id by done. by f_equal. Qed.

Lemma wire_bytes_u8 w : Forall is_u8 (wire_bytes w).
Proof.
  destruct w as [n z|n l]; cbn [wire_bytes]; [apply le_bytes_u8|].
  apply Forall_take, Forall_app_2.
  - apply Forall_fmap, Forall_true. intros b. apply u8_w.
  - apply Forall_replicate. by unfold is_w.
Qed.

Lemma wires_bytes_u8 ws : Forall is_u8 (wires_bytes ws).
Proof.
  unfold wires_bytes. induction ws as [|w ws IH]; [done|]. rewrite bind_cons.
  apply Forall_app_2; [apply wire_bytes_u8|done].
Qed.

Lemma wire_bytes_size w : length (wire_bytes w) = wire_size w.
Proof.
  destruct w as [n z|n l]; cbn [wire_bytes wire_size]; [apply length_le_bytes|].
  rewrite length_take, length_app, length_fmap, length_replicate. lia.
Qed.

Lemma wires_bytes_size ws : length (wires_bytes ws) = wires_size ws.
Proof.
  induction ws as [|w ws IH]; [done|]. unfold wires_bytes, wires_size in *.
  by rewrite bind_cons, length_app, wire_bytes_size, IH.
Qed.

(** Fields that fit are read back from their bytes. *)
Lemma read_wires_bytes ws : Forall wire_ok ws -> read_wires ws (wires_bytes ws) = ws.
Proof.
  induction 1 as [|w ws Hw _ IH]; [done|]. unfold wires_bytes in *. rewrite bind_cons.
  destruct w as [n z|n l]; cbn [read_wires wire_bytes wire_ok] in *.
  - rewrite take_app_length', drop_app_length' by (by rewrite length_le_bytes).
    by rewrite le_val_bytes, IH.
  - destruct Hw as [<- Hl]. rewrite u8_fmap_id by done. rewrite take_app_length.
    by rewrite take_app_length, drop_app_length, IH.
Qed.

(** The row's bytes determine every field of the row. *)
Lemma flow_config_wires_inj f g : flow_config_wires f = flow_config_wires g -> f = g.
Proof. destruct f, g. unfold flow_config_wires. cbn. intros H. by simplify_eq. Qed.

Lemma flow_config_shapes f g bs :
  read_wires (flow_config_wires f) bs = read_wires (flow_config_wires g) bs.
Proof. reflexivity. Qed.

(** The packed flow row is exactly 244 bytes, its asserted fields sit at
    the wire offsets the RTL reads, and two well-formed rows with the same bytes
    are the same row. *)
Theorem flow_config_layout :
  (forall f, length (flow_config_bytes f) = 244%nat) /\
  (forall f, at_offset f 0 (WInt 1 (fc_enable f)) /\
             at_offset f 90 (WInt 1 (fc_tx_enable f)) /\
             at_offset f 108 (WArr 16 (fc_ipv6_src f)) /\
             at_offset f 157 (WInt 1 (fc_encap_type f)) /\
             at_offset f 214 (WArr 12 (fc_src_ipv6_mask_hi f)) /\
             at_offset f 226 (WArr 12 (fc_dst_ipv6_mask_hi f)) /\
             at_offset f 238 (WInt 1 (fc_l4_proto f)) /\
             at_offset f 240 (WInt 1 (fc_frame_template f)) /\
             at_offset f 242 (WInt 2 (fc_l2_ethertype f))) /\
  (forall f g, flow_config_ok f -> flow_config_ok g ->
     flow_config_bytes f = flow_config_bytes g -> f = g).
Proof.
  split_and!.
  - intros f. apply wires_bytes_size.
  - intros f. split_and!;
      [exists 0%nat|exists 31%nat|exists 41%nat|exists 49%nat|exists 60%nat|exists 61%nat
      |exists 62%nat|exists 64%nat|exists 66%nat]; split; reflexivity.
  - intros f g Hf Hg Hb. apply flow_config_wires_inj.
    rewrite <- (read_wires_bytes _ Hf), <- (read_wires_bytes _ Hg).
    unfold flow_config_bytes in Hb. rewrite Hb. apply flow_config_shapes.
Qed.
