(* ===== verification/FlowCompiler.v ===== *)
(** * The flow compiler

    Models [sw/libpacketwyrm/include/packetwyrm/flow_compiler.h] and
    [src/flow_compiler.c]: a validated configuration becomes one program per
    card (flow rows, flow-id map, field/UDF comparators and rules, hash table)
    plus a per-flow metadata table. [struct pw_card_program *] pointers are
    indices into [p_per_card], so the TX and RX card of a same-card flow alias
    as in the source. A failing compilation returns the status; the partly
    filled program, which every caller frees, is not returned. Allocation does
    not fail in the model. *)

From S2P Require Import Prelude Types Config Validate Csr.

(** ** Data *)

Record pw_flow_meta := {
  m_global_flow_id : Z;
  m_tx_card_id : Z;
  m_rx_card_id : Z;
  m_tx_local_flow_id : Z;
  m_rx_local_flow_id : Z;
  m_latency_valid : bool;
  m_rx_slot_valid : bool
}.

Record pw_flowid_map_entry := {
  me_flow_id : Z;
  me_local_flow_id : Z
}.

Record pw_fc_cmp := {
  cmp_src : pwfpga_fc_src;
  cmp_mask : Z;
  cmp_value : Z
}.

Record pw_fc_udf := {
  udf_offset : Z;
  udf_mask : Z;
  udf_value : Z
}.

Record pw_fc_rule := {
  rl_care : Z;
  rl_action : pwfpga_action;
  rl_egress : Z;
  rl_local_flow_id : Z;
  rl_logical_if_id : Z;
  rl_priority : Z
}.

Record pw_fc_hash_entry := {
  he_index : Z;
  he_key_word : list Z;
  he_local_flow_id : Z
}.

#[global] Instance pw_fc_cmp_eq_dec : EqDecision pw_fc_cmp.
Proof. solve_decision. Defined.
#[global] Instance pw_fc_udf_eq_dec : EqDecision pw_fc_udf.
Proof. solve_decision. Defined.

Record pw_card_program := {
  cp_card_id : Z;
  cp_flow_rows : list pwfpga_flow_config;
  cp_map_entries : list pw_flowid_map_entry;
  cp_fc_cmps : list pw_fc_cmp;
  cp_fc_udfs : list pw_fc_udf;
  cp_fc_rules : list pw_fc_rule;
  cp_hash_seed : Z;
  cp_hash_mask : list Z;
  cp_hash_entries : list pw_fc_hash_entry
}.

Record pw_program := {
  p_per_card : list pw_card_program;
  p_flow_meta : list pw_flow_meta
}.

Definition zero_meta : pw_flow_meta :=
  {| m_global_flow_id := 0; m_tx_card_id := 0; m_rx_card_id := 0; m_tx_local_flow_id := 0;
     m_rx_local_flow_id := 0; m_latency_valid := false; m_rx_slot_valid := false |}.

(** A zeroed card program with its id set. *)
Definition new_card_program (id : Z) : pw_card_program :=
  {| cp_card_id := id; cp_flow_rows := []; cp_map_entries := []; cp_fc_cmps := [];
     cp_fc_udfs := []; cp_fc_rules := []; cp_hash_seed := 0;
     cp_hash_mask := replicate 11 0; cp_hash_entries := [] |}.

(** Field updates of a card program. *)
Definition set_rows (cp : pw_card_program) (rows : list pwfpga_flow_config) : pw_card_program :=
  {| cp_card_id := cp_card_id cp; cp_flow_rows := rows; cp_map_entries := cp_map_entries cp;
     cp_fc_cmps := cp_fc_cmps cp; cp_fc_udfs := cp_fc_udfs cp; cp_fc_rules := cp_fc_rules cp;
     cp_hash_seed := cp_hash_seed cp; cp_hash_mask := cp_hash_mask cp;
     cp_hash_entries := cp_hash_entries cp |}.
Definition set_map (cp : pw_card_program) (es : list pw_flowid_map_entry) : pw_card_program :=
  {| cp_card_id := cp_card_id cp; cp_flow_rows := cp_flow_rows cp; cp_map_entries := es;
     cp_fc_cmps := cp_fc_cmps cp; cp_fc_udfs := cp_fc_udfs cp; cp_fc_rules := cp_fc_rules cp;
     cp_hash_seed := cp_hash_seed cp; cp_hash_mask := cp_hash_mask cp;
     cp_hash_entries := cp_hash_entries cp |}.
Definition set_fc (cp : pw_card_program) (cmps : list pw_fc_cmp) (udfs : list pw_fc_udf)
    (rules : list pw_fc_rule) : pw_card_program :=
  {| cp_card_id := cp_card_id cp; cp_flow_rows := cp_flow_rows cp;
     cp_map_entries := cp_map_entries cp; cp_fc_cmps := cmps; cp_fc_udfs := udfs;
     cp_fc_rules := rules; cp_hash_seed := cp_hash_seed cp; cp_hash_mask := cp_hash_mask cp;
     cp_hash_entries := cp_hash_entries cp |}.
Definition set_hash (cp : pw_card_program) (seed : Z) (mask : list Z)
    (es : list pw_fc_hash_entry) : pw_card_program :=
  {| cp_card_id := cp_card_id cp; cp_flow_rows := cp_flow_rows cp;
     cp_map_entries := cp_map_entries cp; cp_fc_cmps := cp_fc_cmps cp;
     cp_fc_udfs := cp_fc_udfs cp; cp_fc_rules := cp_fc_rules cp; cp_hash_seed := seed;
     cp_hash_mask := mask; cp_hash_entries := es |}.

(** ** Table appends *)

(** Index of the first card program with this id ([card_slot]). *)
Definition card_slot (p : pw_program) (id : Z) : option nat :=
  fst <$> list_find (fun cp => cp_card_id cp = id) (p_per_card p).

(** [*cp] for a slot obtained from [card_slot]. *)
Definition card_at (p : pw_program) (i : nat) : pw_card_program :=
  default (new_card_program 0) (p_per_card p !! i).
Definition set_card (p : pw_program) (i : nat) (cp : pw_card_program) : pw_program :=
  {| p_per_card := <[i := cp]> (p_per_card p); p_flow_meta := p_flow_meta p |}.
Definition set_meta (p : pw_program) (i : nat) (m : pw_flow_meta) : pw_program :=
  {| p_per_card := p_per_card p; p_flow_meta := <[i := m]> (p_flow_meta p) |}.

Definition append_flow (cp : pw_card_program) (f : pwfpga_flow_config) : pw_card_program :=
  set_rows cp (cp_flow_rows cp ++ [f]).

Definition append_map (cp : pw_card_program) (flow_id local_flow_id : Z) : pw_card_program :=
  set_map cp (cp_map_entries cp ++
    [{| me_flow_id := flow_id; me_local_flow_id := local_flow_id |}]).

(** Dedup, then append within the comparator pool; returns the comparator bit. *)
Definition append_fc_cmp (cp : pw_card_program) (src : pwfpga_fc_src) (mask value : Z)
    : M (pw_card_program * Z) :=
  let c := {| cmp_src := src; cmp_mask := mask; cmp_value := value |} in
  match list_find (fun c' => c' = c) (cp_fc_cmps cp) with
  | Some (i, _) => Ok (cp, Z.of_nat i)
  | None =>
      if PWFPGA_NUM_CMP <=? Z.of_nat (length (cp_fc_cmps cp))
      then Err (fail_bare PW_E_NO_RESOURCES)
      else Ok (set_fc cp (cp_fc_cmps cp ++ [c]) (cp_fc_udfs cp) (cp_fc_rules cp),
               Z.of_nat (length (cp_fc_cmps cp)))
  end.

(** [care |= (uint16_t)(1u << bit)] *)
Definition care_or (care bit : Z) : Z := care ||| u16 (1 <<< bit).

(** One word [w] of [append_ipv6_cmps]. *)
Definition append_ipv6_word (addr mask : list Z) (w : nat) (sel : pwfpga_fc_src)
    (s : pw_card_program * Z) : M (pw_card_program * Z) :=
  let '(cp, care) := s in
  let m := be32_at mask (w * 4) in
  if m =? 0 then Ok (cp, care) else
  let v := be32_at addr (w * 4) &&& m in
  '(cp', bit) ← append_fc_cmp cp sel m v;
  Ok (cp', care_or care bit).

Definition append_ipv6_cmps (cp : pw_card_program) (addr mask : list Z)
    (sel : list pwfpga_fc_src) (care : Z) : M (pw_card_program * Z) :=
  mfold (fun w s c => append_ipv6_word addr mask w c s) 0 (cp, care) (take 4 sel).

Definition append_fc_udf (cp : pw_card_program) (offset mask value : Z)
    : M (pw_card_program * Z) :=
  let u := {| udf_offset := offset; udf_mask := mask; udf_value := value |} in
  match list_find (fun u' => u' = u) (cp_fc_udfs cp) with
  | Some (i, _) => Ok (cp, PWFPGA_NUM_CMP + Z.of_nat i)
  | None =>
      if PWFPGA_NUM_UDF <=? Z.of_nat (length (cp_fc_udfs cp))
      then Err (fail_bare PW_E_NO_RESOURCES)
      else Ok (set_fc cp (cp_fc_cmps cp) (cp_fc_udfs cp ++ [u]) (cp_fc_rules cp),
               PWFPGA_NUM_CMP + Z.of_nat (length (cp_fc_udfs cp)))
  end.

Definition append_fc_rule (cp : pw_card_program) (rule : pw_fc_rule) : M pw_card_program :=
  if PWFPGA_NUM_RULE <=? Z.of_nat (length (cp_fc_rules cp))
  then Err (fail_bare PW_E_NO_RESOURCES)
  else Ok (set_fc cp (cp_fc_cmps cp) (cp_fc_udfs cp) (cp_fc_rules cp ++ [rule])).

(** ** Hash keys *)

(** Big-endian bytes as a 128-bit number ([dst = (dst << 8) | b]). *)
Definition be128 (l : list Z) : Z := fold_left (fun a b => u128 (a <<< 8) ||| b) l 0.

Definition pw_fc_l3_words (a : Z) : list Z :=
  [a &&& 0xFFFFFFFF; (a >>> 32) &&& 0xFFFFFFFF; (a >>> 64) &&& 0xFFFFFFFF;
   (a >>> 96) &&& 0xFFFFFFFF].

Definition pw_fc_hash_words (f : pw_flow) : list Z :=
  let tmpl := tr_frame_template (f_traffic f) in
  let vlan16 := if l2_vlan_set (f_l2 f) then l2_vlan (f_l2 f) &&& 0x0FFF else 0 in
  if bool_decide (tmpl = PW_FRAME_TEMPLATE_L2RAW) then
    let et := if ztrue (l2_ethertype (f_l2 f)) then l2_ethertype (f_l2 f)
              else if v6_present (f_ipv6 f) then 0x86DD else 0x0800 in
    replicate 8 0 ++ [0; u32 (vlan16 <<< 16) ||| (et &&& 0xFFFF); 0]
  else
    let '(dst, src) :=
      if v6_present (f_ipv6 f)
      then (be128 (v6_dst (f_ipv6 f)), be128 (v6_src (f_ipv6 f)))
      else (v4_dst (f_ipv4 f), v4_src (f_ipv4 f)) in
    let w8 := if bool_decide (tmpl = PW_FRAME_TEMPLATE_L3RAW) then 0
              else u32 (udp_src_port (f_udp f) <<< 16) ||| udp_dst_port (f_udp f) in
    let eth := if v6_present (f_ipv6 f) then 0x86DD else 0x0800 in
    let w9 := u32 (vlan16 <<< 16) ||| eth in
    let w10 := if ztrue (udp_l4_proto (f_udp f)) then udp_l4_proto (f_udp f) else 17 in
    pw_fc_l3_words dst ++ pw_fc_l3_words src ++ [w8; w9; w10].

(** [for (d = depth; d > 1; d >>= 1) idx_w++] *)
Fixpoint idx_width (fuel : nat) (d : Z) : Z :=
  match fuel with
  | O => 0
  | S k => if 1 <? d then 1 + idx_width k (d >>> 1) else 0
  end.

Definition pw_fc_hash_index (w : list Z) (seed : Z) : Z :=
  let k32 := fold_left Z.lxor w 0 in
  let prod := u32 (k32 * (seed ||| 1)) in
  let idx_w := idx_width 32 PWFPGA_HASH_DEPTH in
  u16 (prod >>> (32 - idx_w)).

Definition append_hash_entry (cp : pw_card_program) (w : list Z) (lfid : Z)
    : M pw_card_program :=
  if PWFPGA_HASH_DEPTH <=? Z.of_nat (length (cp_hash_entries cp))
  then Err (fail_bare PW_E_NO_RESOURCES)
  else Ok (set_hash cp (cp_hash_seed cp) (cp_hash_mask cp)
        (cp_hash_entries cp ++
           [{| he_index := 0; he_key_word := w; he_local_flow_id := lfid |}])).

Definition compile_header_classify (rx_cp : pw_card_program) (f : pw_flow) (rx_lfid : Z)
    : M pw_card_program :=
  append_hash_entry rx_cp (pw_fc_hash_words f) rx_lfid.

(** [mask[w] &= v], when [c]. *)
Definition mask_and (c : bool) (w : nat) (v : Z) (mask : list Z) : list Z :=
  if c then alter (fun x => x &&& v) w mask else mask.

Definition modified (m : pw_field_mod) : bool :=
  bool_decide (fm_mode m <> PWFPGA_FIELD_STATIC).

Definition pw_fc_relax_mask (mask : list Z) (f : pw_flow) : list Z :=
  let md := f_mod f in
  let v6 := v6_present (f_ipv6 f) in
  let m := mask_and (modified (mod_dst_ipv4 md)) 0 (not32 (u32 (fm_mask (mod_dst_ipv4 md)))) mask in
  let m := mask_and (negb (f_match_ipv4_dst_mask f =? 0xFFFFFFFF)) 0 (f_match_ipv4_dst_mask f) m in
  let m := mask_and (modified (mod_src_ipv4 md)) 4 (not32 (u32 (fm_mask (mod_src_ipv4 md)))) m in
  let m := fold_left (fun m w => mask_and (v6 && modified (mod_dst_ipv4 md)) w
             (not32 (be32_at (mod_dst_ipv6_mask md) ((3 - w) * 4))) m) [1; 2; 3]%nat m in
  let m := fold_left (fun m w => mask_and (v6 && modified (mod_src_ipv4 md)) (4 + w)
             (not32 (be32_at (mod_src_ipv6_mask md) ((3 - w) * 4))) m) [1; 2; 3]%nat m in
  let m := fold_left (fun m i => mask_and (f_match_ipv6_dst_set f) i
             (be32_at (f_match_ipv6_dst_mask f) ((3 - i) * 4)) m) [0; 1; 2; 3]%nat m in
  let m := fold_left (fun m i => mask_and (f_match_ipv6_src_set f) (4 + i)
             (be32_at (f_match_ipv6_src_mask f) ((3 - i) * 4)) m) [0; 1; 2; 3]%nat m in
  let m := mask_and (modified (mod_udp_dst md)) 8
             (not32 (u32 (fm_mask (mod_udp_dst md)) &&& 0xFFFF)) m in
  let m := mask_and (negb (f_match_udp_dst_mask f =? 0xFFFF)) 8
             (0xFFFF0000 ||| f_match_udp_dst_mask f) m in
  let m := mask_and (modified (mod_udp_src md)) 8
             (not32 (u32 ((u32 (fm_mask (mod_udp_src md)) &&& 0xFFFF) <<< 16))) m in
  mask_and (modified (mod_vlan md)) 9
    (not32 (u32 ((u32 (fm_mask (mod_vlan md)) &&& 0x0FFF) <<< 16))) m.

(** ** Flow rows *)

Definition pw_flow_min_legal_frame (f : pw_flow) : Z :=
  let l := 14 in
  let l := if l2_vlan_set (f_l2 f) then l + 4 else l in
  let ip := if v6_present (f_ipv6 f) then 40 else 20 in
  match tr_frame_template (f_traffic f) with
  | PW_FRAME_TEMPLATE_L2RAW => l
  | PW_FRAME_TEMPLATE_L3RAW => l + ip
  | _ =>
      let l := if enc_present (f_encap f)
               then l + (if v6_present (enc_outer_ipv6 (f_encap f)) then 40 else 20)
                      + (match enc_type (f_encap f) with
                         | PW_ENCAP_GRE => 4 | PW_ENCAP_ETHERIP => 16 | _ => 0 end)
               else l in
      let l := l + ip in
      let l := l + (if udp_l4_proto (f_udp f) =? 6 then 20 else 8) in
      if bool_decide (tr_frame_template (f_traffic f) = PW_FRAME_TEMPLATE_TEST)
      then l + 32 else l
  end.

Definition UINT64_MAX : Z := 2 ^ 64 - 1.

(** The byte rate (x8) the token bucket meters; [rate_pps] is widened to 128
    bits and saturates. *)
Definition eff_rate_bps (f : pw_flow) : Z :=
  let t := f_traffic f in
  if (tr_rate_bps t =? 0) && ztrue (tr_rate_pps t) then
    let flen := if tr_frame_len_fixed_set t then tr_frame_len_fixed t else tr_frame_len_min t in
    let minf := pw_flow_min_legal_frame f in
    let flen := if flen <? minf then minf else flen in
    let pr := u128 (u128 (tr_rate_pps t * flen) * 8) in
    if UINT64_MAX <? pr then UINT64_MAX else u64 pr
  else tr_rate_bps t.

Definition tokens_per_tick (f : pw_flow) : Z :=
  let num := u128 (eff_rate_bps f * 65536) in
  let den := u128 (PWFPGA_DATA_PLANE_CLOCK_HZ * 8) in
  let q := if den =? 0 then 0 else num / den in
  if 0xFFFFFFFF <? q then 0xFFFFFFFF else u32 q.

(** The token-bucket cap for a row whose [frame_len_max] is [flmax]. *)
Definition burst_bytes_of (f : pw_flow) (flmax : Z) : Z :=
  let flen := if ztrue flmax then flmax else 1518 in
  let minf := pw_flow_min_legal_frame f in
  let flen := if flen <? minf then minf else flen in
  let bsz := if ztrue (tr_burst_size (f_traffic f)) then tr_burst_size (f_traffic f) else 1 in
  let cap := u64 (bsz * flen) in
  let cap := if cap <? flen then flen else cap in
  if 0xFFFF <? cap then 0xFFFF else u16 cap.

(** [(uint8_t)(mask >> (8 * (5 - i)))], [i = 0..5] *)
Definition mac_mask_bytes (mask : Z) : list Z :=
  (fun i => u8 (mask >>> (8 * (5 - i)))) <$> [0; 1; 2; 3; 4; 5].

(** [hi[i] = mask[11 - i]], [i = 0..11] *)
Definition mask_hi (mask : list Z) : list Z := (fun i => nth (11 - i) mask 0) <$> seq 0 12.

Definition frame_lens (t : pw_flow_traffic) : Z * Z * Z :=
  if tr_frame_len_fixed_set t
  then (tr_frame_len_fixed t, tr_frame_len_fixed t, 1)
  else (tr_frame_len_min t, tr_frame_len_max t,
        if ztrue (tr_frame_len_step t) then tr_frame_len_step t else 1).

(** The TX row of a flow on card-local port [port] in slot [lfid]. *)
Definition tx_row (f : pw_flow) (port lfid : Z) (same_card : bool) : pwfpga_flow_config :=
  let v6 := v6_present (f_ipv6 f) in
  let e := f_encap f in
  let ep := enc_present e in
  let o6 := v6_present (enc_outer_ipv6 e) in
  let md := f_mod f in
  let '(flmin, flmax, flstep) := frame_lens (f_traffic f) in
  {| fc_enable := 1;
     fc_egress_local_port := port;
     fc_global_flow_id := f_id f;
     fc_local_flow_id := lfid;
     fc_logical_if_id := f_logical_if_id f;
     fc_dst_mac := l2_dst_mac (f_l2 f);
     fc_src_mac := l2_src_mac (f_l2 f);
     fc_vlan_enable := b2z (l2_vlan_set (f_l2 f));
     fc_vlan_id := l2_vlan (f_l2 f);
     fc_pcp := l2_pcp (f_l2 f);
     fc_ip_version := if v6 then 6 else 4;
     fc_src_ipv4 := if v6 then 0 else v4_src (f_ipv4 f);
     fc_dst_ipv4 := if v6 then 0 else v4_dst (f_ipv4 f);
     fc_dscp := if v6 then v6_dscp (f_ipv6 f) else v4_dscp (f_ipv4 f);
     fc_ttl := if v6 then v6_hop_limit (f_ipv6 f) else v4_ttl (f_ipv4 f);
     fc_udp_src_port := udp_src_port (f_udp f);
     fc_udp_dst_port := udp_dst_port (f_udp f);
     fc_frame_len_min := flmin;
     fc_frame_len_max := flmax;
     fc_frame_len_step := flstep;
     fc_rate_bps := tr_rate_bps (f_traffic f);
     fc_rate_pps := tr_rate_pps (f_traffic f);
     fc_burst_size := tr_burst_size (f_traffic f);
     fc_burst_gap_ticks := tr_burst_gap_ticks (f_traffic f);
     fc_tokens_per_tick_fp := tokens_per_tick f;
     fc_burst_bytes := burst_bytes_of f flmax;
     fc_reserved0 := 0;
     fc_payload_mode := payload_mode_code (tr_payload_mode (f_traffic f));
     fc_payload_seed := tr_payload_seed (f_traffic f);
     fc_insert_sequence := b2z (tr_insert_sequence (f_traffic f));
     fc_insert_timestamp := b2z (tr_insert_timestamp (f_traffic f));
     fc_tx_enable := 1;
     fc_rx_check_enable := b2z (same_card && negb (f_background f));
     fc_src_ipv4_mod := field_mod_code (fm_mode (mod_src_ipv4 md));
     fc_src_ipv4_mask := u32 (fm_mask (mod_src_ipv4 md));
     fc_dst_ipv4_mod := field_mod_code (fm_mode (mod_dst_ipv4 md));
     fc_dst_ipv4_mask := u32 (fm_mask (mod_dst_ipv4 md));
     fc_udp_src_mod := field_mod_code (fm_mode (mod_udp_src md));
     fc_udp_src_mask := u16 (fm_mask (mod_udp_src md));
     fc_udp_dst_mod := field_mod_code (fm_mode (mod_udp_dst md));
     fc_udp_dst_mask := u16 (fm_mask (mod_udp_dst md));
     fc_ipv6_src := if v6 then v6_src (f_ipv6 f) else zero_v6;
     fc_ipv6_dst := if v6 then v6_dst (f_ipv6 f) else zero_v6;
     fc_src_mac_mod := field_mod_code (fm_mode (mod_src_mac md));
     fc_src_mac_mask := mac_mask_bytes (fm_mask (mod_src_mac md));
     fc_dst_mac_mod := field_mod_code (fm_mode (mod_dst_mac md));
     fc_dst_mac_mask := mac_mask_bytes (fm_mask (mod_dst_mac md));
     fc_vlan_mod := field_mod_code (fm_mode (mod_vlan md));
     fc_vlan_mask := u16 (fm_mask (mod_vlan md) &&& 0x0FFF);
     fc_encap_type := if ep then encap_code (enc_type e) else 0;
     fc_outer_ip_version := if ep then (if o6 then 6 else 4) else 0;
     fc_rx_expect := if ep then rx_expect_code (f_rx_expect f) else 0;
     fc_outer_ttl := if ep then (if o6 then v6_hop_limit (enc_outer_ipv6 e)
                                 else v4_ttl (enc_outer_ipv4 e)) else 0;
     fc_outer_dscp := if ep then (if o6 then v6_dscp (enc_outer_ipv6 e)
                                  else v4_dscp (enc_outer_ipv4 e)) else 0;
     fc_outer_src_ipv4 := if ep && negb o6 then v4_src (enc_outer_ipv4 e) else 0;
     fc_outer_dst_ipv4 := if ep && negb o6 then v4_dst (enc_outer_ipv4 e) else 0;
     fc_outer_ipv6_src := if ep && o6 then v6_src (enc_outer_ipv6 e) else zero_v6;
     fc_outer_ipv6_dst := if ep && o6 then v6_dst (enc_outer_ipv6 e) else zero_v6;
     fc_inner_dst_mac := if ep then (if enc_inner_mac_set e then enc_inner_dst_mac e
                                     else l2_dst_mac (f_l2 f)) else zero_mac;
     fc_inner_src_mac := if ep then (if enc_inner_mac_set e then enc_inner_src_mac e
                                     else l2_src_mac (f_l2 f)) else zero_mac;
     fc_src_ipv6_mask_hi := if v6 then mask_hi (mod_src_ipv6_mask md) else replicate 12 0;
     fc_dst_ipv6_mask_hi := if v6 then mask_hi (mod_dst_ipv6_mask md) else replicate 12 0;
     fc_l4_proto := if ztrue (udp_l4_proto (f_udp f)) then udp_l4_proto (f_udp f) else 17;
     fc_tcp_flags := udp_tcp_flags (f_udp f);
     fc_frame_template := frame_template_code (tr_frame_template (f_traffic f));
     fc_reserved_ft := 0;
     fc_l2_ethertype := l2_ethertype (f_l2 f) |}.

Definition n_rows (cp : pw_card_program) : Z := Z.of_nat (length (cp_flow_rows cp)).

(** The metadata entry of a flow. *)
Definition flow_meta_of (f : pw_flow) (tx rx : pwfpga_port_ref) (tx_lfid rx_lfid : Z)
    : pw_flow_meta :=
  let same_card := pr_card_id tx =? pr_card_id rx in
  {| m_global_flow_id := f_id f;
     m_tx_card_id := pr_card_id tx;
     m_rx_card_id := pr_card_id rx;
     m_tx_local_flow_id := tx_lfid;
     m_rx_local_flow_id := rx_lfid;
     m_latency_valid := same_card && negb (f_background f);
     m_rx_slot_valid := negb (f_background f) |}.

(** The RX classification entry of a flow: hash key or flow-id map. *)
Definition classify_rx (cp : pw_card_program) (f : pw_flow) (rx_lfid : Z) : M pw_card_program :=
  if f_classify_header f then compile_header_classify cp f rx_lfid
  else
    fail_if (PWFPGA_FLOWID_MAP_DEPTH <=? f_id f) (fail_bare PW_E_INVAL) ;;
    Ok (append_map cp (f_id f) rx_lfid).

Definition compile_one_flow (out : pw_program) (cfg : pw_config) (f : pw_flow)
    (flow_index : nat) : M pw_program :=
  tx ← pw_config_resolve_port cfg (f_tx_global_port f);
  rx ← pw_config_resolve_port cfg (f_rx_global_port f);
  let same_card := pr_card_id tx =? pr_card_id rx in
  ti ← of_option (card_slot out (pr_card_id tx)) (fail_bare PW_E_UNKNOWN_CARD);
  ri ← of_option (card_slot out (pr_card_id rx)) (fail_bare PW_E_UNKNOWN_CARD);
  fail_if (PWFPGA_FLOW_TABLE_ROWS <=? n_rows (card_at out ti)) (fail_bare PW_E_NO_RESOURCES) ;;
  fail_if (negb same_card && negb (f_background f) &&
           (PWFPGA_FLOW_TABLE_ROWS <=? n_rows (card_at out ri)))
    (fail_bare PW_E_NO_RESOURCES) ;;
  let tx_lfid := u32 (n_rows (card_at out ti)) in
  let rx_lfid := if same_card || f_background f then tx_lfid
                 else u32 (n_rows (card_at out ri)) in
  let row := tx_row f (pr_local_port_id tx) tx_lfid same_card in
  let out := set_card out ti (append_flow (card_at out ti) row) in
  let out := set_meta out flow_index (flow_meta_of f tx rx tx_lfid rx_lfid) in
  if f_background f then Ok out else
  let out :=
    if same_card then out
    else set_card out ri (append_flow (card_at out ri)
           (set_run_fields row rx_lfid (pr_local_port_id rx) 0 1)) in
  cp ← classify_rx (card_at out ri) f rx_lfid;
  Ok (set_card out ri cp).

(** ** Punt and forward rules *)

(** An optional comparator: [if (v) { append_fc_cmp(...); care |= 1 << bit; }] *)
Definition opt_cmp (c : bool) (src : pwfpga_fc_src) (mask value : Z)
    (s : pw_card_program * Z) : M (pw_card_program * Z) :=
  let '(cp, care) := s in
  if c then '(cp', bit) ← append_fc_cmp cp src mask value; Ok (cp', care_or care bit)
  else Ok (cp, care).

Definition add_punt_rule (cp : pw_card_program) (ref : pwfpga_port_ref) (l : pw_logical_if)
    (eth l3p : Z) (l4lane : pwfpga_fc_src) (l4port udf_off udf_val prio : Z)
    : M pw_card_program :=
  s ← opt_cmp true FC_SRC_INGRESS 0xF (pr_local_port_id ref) (cp, 0);
  s ← opt_cmp (ztrue (lif_vlan l)) FC_SRC_VLAN 0x0FFF (lif_vlan l) s;
  s ← opt_cmp (ztrue eth) FC_SRC_ETHERTYPE 0xFFFF eth s;
  s ← opt_cmp (ztrue l3p) FC_SRC_L3_PROTO 0xFF l3p s;
  s ← opt_cmp (ztrue l4port) l4lane 0xFFFF l4port s;
  '(cp, care) ← (let '(cp, care) := s in
       if ztrue udf_val then
         '(cp', bit) ← append_fc_udf cp udf_off 0xFFFF0000 udf_val;
         Ok (cp', care_or care bit)
       else Ok (cp, care));
  append_fc_rule cp
    {| rl_care := care; rl_action := PWFPGA_ACT_PUNT_TO_HOST; rl_egress := 0;
       rl_local_flow_id := 0; rl_logical_if_id := lif_id l; rl_priority := prio |}.

(** The [PUNT(...)] invocations of [compile_punt_rules], each under its flag:
    ethertype, L3 protocol, L4 lane and port, UDF offset and value, priority. *)
Definition punt_args : Type := Z * Z * pwfpga_fc_src * Z * Z * Z * Z.

Definition punt_list (p : pw_punt_flags) : list punt_args :=
  (if punt_arp p then [(0x0806, 0, FC_SRC_L4_DST, 0, 0, 0, 20)] else []) ++
  (if punt_ipv6_nd p then [(0x86DD, 58, FC_SRC_L4_DST, 0, 0, 0, 20)] else []) ++
  (if punt_lldp p then [(0x88CC, 0, FC_SRC_L4_DST, 0, 0, 0, 20)] else []) ++
  (if punt_icmp p then [(0x0800, 1, FC_SRC_L4_DST, 0, 0, 0, 25)] else []) ++
  (if punt_bgp p then [(0x0800, 6, FC_SRC_L4_DST, 179, 0, 0, 30);
                       (0x0800, 6, FC_SRC_L4_SRC, 179, 0, 0, 30)] else []) ++
  (if punt_ospf p then [(0x0800, 89, FC_SRC_L4_DST, 0, 0, 0, 30)] else []) ++
  (if punt_ospf p && punt_ipv6_nd p then [(0x86DD, 89, FC_SRC_L4_DST, 0, 0, 0, 30)] else []) ++
  (if punt_bgp p && punt_ipv6_nd p then [(0x86DD, 6, FC_SRC_L4_DST, 179, 0, 0, 30);
                                         (0x86DD, 6, FC_SRC_L4_SRC, 179, 0, 0, 30)] else []) ++
  (if punt_is_is p then [(0, 0, FC_SRC_L4_DST, 0, 0, 0xFEFE0000, 30)] else []).

Definition compile_punt_lif (cfg : pw_config) (out : pw_program) (l : pw_logical_if)
    : M pw_program :=
  ref ← pw_config_resolve_port cfg (lif_global_port l);
  ci ← of_option (card_slot out (pr_card_id ref)) (fail_bare PW_E_UNKNOWN_CARD);
  cp ← mfold (fun _ cp '(eth, l3p, lane, port, uoff, uval, prio) =>
          add_punt_rule cp ref l eth l3p lane port uoff uval prio)
        0 (card_at out ci) (punt_list (lif_punt l));
  Ok (set_card out ci cp).

Definition compile_punt_rules (out : pw_program) (cfg : pw_config) : M pw_program :=
  mfold (fun _ out l => compile_punt_lif cfg out l) 0 out (cfg_logical_if cfg).

Definition dsel : list pwfpga_fc_src :=
  [FC_SRC_IPV6_DST_3; FC_SRC_IPV6_DST_2; FC_SRC_IPV6_DST_1; FC_SRC_IPV6_DST_0].
Definition ssel : list pwfpga_fc_src :=
  [FC_SRC_IPV6_SRC_3; FC_SRC_IPV6_SRC_2; FC_SRC_IPV6_SRC_1; FC_SRC_IPV6_SRC_0].

(** The comparators and rule of one forward rule on its card. *)
Definition add_forward_rule (cp : pw_card_program) (fr : pw_forward_rule)
    (ing egr : pwfpga_port_ref) : M pw_card_program :=
  s ← opt_cmp true FC_SRC_INGRESS 0xF (pr_local_port_id ing) (cp, 0);
  s ← opt_cmp (ztrue (fr_vlan fr)) FC_SRC_VLAN 0x0FFF (fr_vlan fr) s;
  s ← opt_cmp (ztrue (fr_ethertype fr)) FC_SRC_ETHERTYPE 0xFFFF (fr_ethertype fr) s;
  s ← opt_cmp (ztrue (fr_ip_proto fr)) FC_SRC_L3_PROTO 0xFF (fr_ip_proto fr) s;
  s ← opt_cmp (ztrue (fr_udp_dst fr)) FC_SRC_L4_DST 0xFFFF (fr_udp_dst fr) s;
  s ← opt_cmp (fr_ipv6_dst_set fr || fr_ipv6_src_set fr) FC_SRC_FLAGS
        PWFPGA_FC_FLAG_IS_IPV6 PWFPGA_FC_FLAG_IS_IPV6 s;
  s ← (let '(cp, care) := s in
       if fr_ipv6_dst_set fr
       then append_ipv6_cmps cp (fr_ipv6_dst fr) (fr_ipv6_dst_mask fr) dsel care
       else Ok (cp, care));
  '(cp, care) ← (let '(cp, care) := s in
       if fr_ipv6_src_set fr
       then append_ipv6_cmps cp (fr_ipv6_src fr) (fr_ipv6_src_mask fr) ssel care
       else Ok (cp, care));
  append_fc_rule cp
    {| rl_care := care; rl_action := PWFPGA_ACT_FORWARD_PORT;
       rl_egress := pr_local_port_id egr; rl_local_flow_id := 0; rl_logical_if_id := 0;
       rl_priority := fr_priority fr |}.

Definition compile_forward (cfg : pw_config) (out : pw_program) (fr : pw_forward_rule)
    : M pw_program :=
  ing ← pw_config_resolve_port cfg (fr_ingress_port fr);
  egr ← pw_config_resolve_port cfg (fr_egress_port fr);
  fail_if (negb (pr_card_id ing =? pr_card_id egr)) (fail_bare PW_E_INVAL) ;;
  ci ← of_option (card_slot out (pr_card_id ing)) (fail_bare PW_E_UNKNOWN_CARD);
  cp ← add_forward_rule (card_at out ci) fr ing egr;
  Ok (set_card out ci cp).

Definition compile_forward_rules (out : pw_program) (cfg : pw_config) : M pw_program :=
  mfold (fun _ out fr => compile_forward cfg out fr) 0 out (cfg_forwards cfg).

(** ** Hash placement *)

(** The flows whose header key a card's table carries: [classify: header] and
    received on that card. *)
Definition header_flow_on (cfg : pw_config) (id : Z) (f : pw_flow) : bool :=
  f_classify_header f &&
  match pw_config_resolve_port cfg (f_rx_global_port f) with
  | Ok rx => pr_card_id rx =? id
  | Err _ => false
  end.

Definition hash_mask_of (cfg : pw_config) (id : Z) : list Z :=
  fold_left (fun m f => if header_flow_on cfg id f then pw_fc_relax_mask m f else m)
    (cfg_flows cfg) (replicate 11 0xFFFFFFFF).

Definition apply_mask (mask : list Z) (e : pw_fc_hash_entry) : pw_fc_hash_entry :=
  {| he_index := he_index e; he_key_word := zip_with Z.land (he_key_word e) mask;
     he_local_flow_id := he_local_flow_id e |}.

Definition dup_key_err (id : Z) (ej ei : pw_fc_hash_entry) : err :=
  fail_diag PW_E_INVAL ("card[" +:+ str_Z id +:+ "].hash")%string
    ("header-classify flows in slots " +:+ str_Z (he_local_flow_id ej) +:+ " and " +:+
     str_Z (he_local_flow_id ei) +:+ " are indistinguishable under the hash key mask (a field that separates them is randomized by a modifier or cleared by match); make them differ in a non-randomized field, or use classify: map")%string.

(** [for i, for j < i: memcmp(key[i], key[j]) == 0]; [seen] holds entries
    [0..i-1]. *)
Fixpoint check_dup_keys (id : Z) (seen l : list pw_fc_hash_entry) : M unit :=
  match l with
  | [] => Ok tt
  | ei :: l' =>
      for_each 0 seen (fun _ ej _ =>
        fail_if (bool_decide (he_key_word ei = he_key_word ej)) (dup_key_err id ej ei)) ;;
      check_dup_keys id (seen ++ [ei]) l'
  end.

Definition seed_of (attempt : Z) : Z := u32 (u32 (0x9E3779B1 * (attempt + 1)) + 1).

(** One attempt: the buckets of the keys under [seed], or a collision. *)
Fixpoint place_keys (seed : Z) (used : list Z) (keys : list (list Z)) : option (list Z) :=
  match keys with
  | [] => Some []
  | k :: keys' =>
      let idx := pw_fc_hash_index k seed in
      if bool_decide (idx ∈ used) then None
      else r ← place_keys seed (idx :: used) keys'; Some (idx :: r)
  end.

Fixpoint seed_search (tries : nat) (attempt : Z) (keys : list (list Z)) : option (Z * list Z) :=
  match tries with
  | O => None
  | S n =>
      let seed := seed_of attempt in
      match place_keys seed [] keys with
      | Some idxs => Some (seed, idxs)
      | None => seed_search n (attempt + 1) keys
      end
  end.

Definition SEED_TRIES : nat := 4096.

Definition set_index (e : pw_fc_hash_entry) (i : Z) : pw_fc_hash_entry :=
  {| he_index := i; he_key_word := he_key_word e; he_local_flow_id := he_local_flow_id e |}.

Definition place_card (cfg : pw_config) (cp : pw_card_program) : M pw_card_program :=
  match cp_hash_entries cp with
  | [] => Ok cp
  | _ =>
      let mask := hash_mask_of cfg (cp_card_id cp) in
      let es := apply_mask mask <$> cp_hash_entries cp in
      check_dup_keys (cp_card_id cp) [] es ;;
      '(seed, idxs) ← of_option (seed_search SEED_TRIES 0 (he_key_word <$> es))
                                (fail_bare PW_E_NO_RESOURCES);
      Ok (set_hash cp seed mask (zip_with set_index es idxs))
  end.

(** ** The compiler *)

(** Attach the capacity diagnostic to an out-of-resources failure. *)
Definition with_capacity_diag {A} (r : M A) (path msg : string) : M A :=
  match r with
  | Err e => if bool_decide (e_status e = PW_E_NO_RESOURCES)
             then Err (fail_diag PW_E_NO_RESOURCES path msg) else Err e
  | Ok a => Ok a
  end.

Definition flow_capacity_msg (f : pw_flow) : string :=
  "flow " +:+ str_Z (f_id f) +:+ ": per-card resource capacity exceeded (flow-table rows max " +:+
  str_Z PWFPGA_FLOW_TABLE_ROWS +:+ "/card, or comparator/hash pool)".

Definition punt_capacity_msg : string :=
  "field-comparator pool exhausted (limit NCMP=" +:+ str_Z PWFPGA_NUM_CMP +:+
  ", shared across punt+forward rules); reduce per-rule match conditions".

Definition forward_capacity_msg : string :=
  "field-comparator pool exhausted (limit NCMP=" +:+ str_Z PWFPGA_NUM_CMP +:+
  ", shared across punt+forward rules); a /128 IPv6 match costs 4 + 1 is_ipv6, /64 costs 2 + 1; reduce per-rule match conditions".

Definition new_program (cfg : pw_config) : pw_program :=
  {| p_per_card := (fun c => new_card_program (card_id c)) <$> cfg_cards cfg;
     p_flow_meta := replicate (length (cfg_flows cfg)) zero_meta |}.

Definition compile_flows (cfg : pw_config) (out : pw_program) : M pw_program :=
  mfold (fun i out f =>
    with_capacity_diag (compile_one_flow out cfg f i)
      ("flows[" +:+ str_nat i +:+ "]") (flow_capacity_msg f)) 0 out (cfg_flows cfg).

Definition place_cards (cfg : pw_config) (out : pw_program) : M pw_program :=
  cs ← mfold (fun _ done cp => cp' ← place_card cfg cp; Ok (done ++ [cp'])) 0 []
         (p_per_card out);
  Ok {| p_per_card := cs; p_flow_meta := p_flow_meta out |}.

Definition pw_flow_compile (cfg : pw_config) : M pw_program :=
  pw_config_validate cfg ;;
  out ← compile_flows cfg (new_program cfg);
  out ← with_capacity_diag (compile_punt_rules out cfg) "punt" punt_capacity_msg;
  out ← with_capacity_diag (compile_forward_rules out cfg) "forwards" forward_capacity_msg;
  place_cards cfg out.
