(* ===== verification/Samples.v ===== *)
(** * Sample configurations

    Concrete configurations the witnesses evaluate: two cards, one logical
    interface, and flows covering the compiler's branches (same-card map flow,
    cross-card header flow with modifiers, background flow, IPv6 header flow),
    with one IPv6 forward rule. *)

From S2P Require Import Prelude Types Config Validate Csr FlowCompiler.

Local Open Scope string_scope.
Local Open Scope Z_scope.

Definition s_port (l g : Z) : pw_card_port :=
  {| cp_local_port := l; cp_global_port := g; cp_name := "p" |}.

Definition s_card (id : Z) (pci : string) (g0 g1 : Z) : pw_card :=
  {| card_id := id; card_name := "card"; card_pci := pci;
     card_ports := [s_port 0 g0; s_port 1 g1] |}.

Definition s_lif : pw_logical_if :=
  {| lif_id := 7; lif_name := "tap-pw-p0-v0"; lif_global_port := 0; lif_vlan := 100;
     lif_mac := [2; 0; 0; 0; 0; 1]; lif_mtu := 1500; lif_netns := "";
     lif_punt := {| punt_arp := true; punt_ipv6_nd := true; punt_lldp := false;
       punt_icmp := true; punt_bgp := true; punt_ospf := false; punt_is_is := true |} |}.

Definition s_v4 (src dst : Z) : pw_flow_ipv4 :=
  {| v4_present := true; v4_src := src; v4_dst := dst; v4_ttl := 64; v4_dscp := 0 |}.

Definition s_v6 (lo : Z) : pw_flow_ipv6 :=
  {| v6_present := true; v6_src := [0x20; 1; 0x0d; 0xb8] ++ replicate 11 0 ++ [1];
     v6_dst := [0x20; 1; 0x0d; 0xb8] ++ replicate 11 0 ++ [lo];
     v6_hop_limit := 64; v6_dscp := 0 |}.

Definition s_traffic (len pps : Z) : pw_flow_traffic :=
  {| tr_frame_template := PW_FRAME_TEMPLATE_TEST; tr_frame_len_fixed_set := true;
     tr_frame_len_fixed := len; tr_frame_len_min := 0; tr_frame_len_max := 0;
     tr_frame_len_step := 0; tr_rate_bps := 0; tr_rate_pps := pps; tr_burst_size := 1;
     tr_burst_gap_ticks := 0; tr_payload_mode := PWFPGA_PAYLOAD_INCREMENT;
     tr_payload_seed := 0; tr_insert_sequence := true; tr_insert_timestamp := true |}.

Definition s_rand (mask : Z) : pw_field_mod :=
  {| fm_mode := PWFPGA_FIELD_RANDOM; fm_mask := mask |}.

Definition s_mods : pw_flow_modifiers :=
  {| mod_src_ipv4 := s_rand 0xFF; mod_dst_ipv4 := zero_field_mod;
     mod_udp_src := s_rand 0x3F; mod_udp_dst := zero_field_mod;
     mod_src_mac := zero_field_mod; mod_dst_mac := zero_field_mod; mod_vlan := zero_field_mod;
     mod_src_ipv6_mask := zero_v6; mod_dst_ipv6_mask := zero_v6 |}.

Definition s_flow (id tx rx : Z) (v4 : pw_flow_ipv4) (v6 : pw_flow_ipv6)
    (md : pw_flow_modifiers) (bg hdr : bool) : pw_flow :=
  {| f_id := id; f_name := "flow"; f_tx_global_port := tx; f_rx_global_port := rx;
     f_logical_if_id := 0;
     f_l2 := {| l2_src_mac := [2; 0; 0; 0; 0; 1]; l2_dst_mac := [2; 0; 0; 0; 0; 2];
                l2_vlan_set := true; l2_vlan := 100; l2_pcp := 3; l2_ethertype := 0 |};
     f_ipv4 := v4; f_ipv6 := v6;
     f_udp := {| udp_src_port := 1000; udp_dst_port := 2000 + id; udp_l4_proto := 17;
                 udp_tcp_flags := 2 |};
     f_traffic := s_traffic 128 1000;
     f_meas := {| meas_loss := negb bg; meas_latency := negb bg; meas_jitter := false |};
     f_mod := md; f_background := bg; f_encap := zero_encap; f_rx_expect := PW_RX_INNER;
     f_match_udp_dst_mask := 0xFFFF; f_match_ipv4_dst_mask := 0xFFFFFFFF;
     f_match_ipv6_dst_set := false; f_match_ipv6_dst_mask := zero_v6;
     f_match_ipv6_src_set := false; f_match_ipv6_src_mask := zero_v6;
     f_classify_header := hdr |}.

Definition s_fwd : pw_forward_rule :=
  {| fr_name := "fwd"; fr_ingress_port := 2; fr_egress_port := 3; fr_priority := 40;
     fr_ethertype := 0; fr_ip_proto := 17; fr_udp_dst := 0; fr_vlan := 0;
     fr_ipv6_dst_set := true; fr_ipv6_dst := v6_dst (s_v6 9);
     fr_ipv6_dst_mask := replicate 8 0xFF ++ replicate 8 0;
     fr_ipv6_src_set := false; fr_ipv6_src := zero_v6; fr_ipv6_src_mask := zero_v6 |}.

Definition s_flow_map : pw_flow :=
  s_flow 1 0 1 (s_v4 0x0A000001 0x0A000002) zero_ipv6 zero_modifiers false false.
Definition s_flow_hdr : pw_flow :=
  s_flow 2 0 2 (s_v4 0x0A000001 0x0A000102) zero_ipv6 s_mods false true.
Definition s_flow_bg : pw_flow :=
  s_flow 3 1 2 (s_v4 0x0A000003 0x0A000202) zero_ipv6 zero_modifiers true false.
Definition s_flow_v6 : pw_flow :=
  s_flow 4 2 3 zero_ipv4 (s_v6 5) zero_modifiers false true.

Definition s_cfg : pw_config :=
  {| cfg_system := zero_system;
     cfg_cards := [s_card 10 "0000:03:00.0" 0 1; s_card 11 "0000:04:00.0" 2 3];
     cfg_logical_if := [s_lif];
     cfg_flows := [s_flow_map; s_flow_hdr; s_flow_bg; s_flow_v6];
     cfg_forwards := [s_fwd] |}.

Definition s_prog : pw_program := Eval vm_compute in
  match pw_flow_compile s_cfg with Ok p => p | Err _ => new_program s_cfg end.

Example s_cfg_compiles : pw_flow_compile s_cfg = Ok s_prog.
Proof. vm_compute. reflexivity. Qed.

(** Its two card programs. *)
Definition s_cp (i : nat) : pw_card_program := card_at s_prog i.

Example s_cp0_in : s_cp 0 ∈ p_per_card s_prog.
Proof. left. Qed.
Example s_cp1_in : s_cp 1 ∈ p_per_card s_prog.
Proof. right. left. Qed.

(** A valid configuration the compiler rejects: two header-classified flows
    that differ only in a randomized field. *)
Definition s_amb_mods : pw_flow_modifiers :=
  {| mod_src_ipv4 := zero_field_mod; mod_dst_ipv4 := zero_field_mod;
     mod_udp_src := zero_field_mod; mod_udp_dst := s_rand 0xFFFF;
     mod_src_mac := zero_field_mod; mod_dst_mac := zero_field_mod; mod_vlan := zero_field_mod;
     mod_src_ipv6_mask := zero_v6; mod_dst_ipv6_mask := zero_v6 |}.
Definition s_flow_amb (id : Z) : pw_flow :=
  s_flow id 0 2 (s_v4 0x0A000001 0x0A000102) zero_ipv6 s_amb_mods false true.
Definition s_ambiguous : pw_config :=
  {| cfg_system := zero_system; cfg_cards := cfg_cards s_cfg; cfg_logical_if := [];
     cfg_flows := [s_flow_amb 5; s_flow_amb 6]; cfg_forwards := [] |}.
