(* ===== verification/CompilerInv.v ===== *)
(** * Growth and capacity invariant of the program under construction

    Every step of the compiler only appends to the tables of a card
    ([card_le], [prog_le]) and keeps the per-card invariant [card_inv]: the
    tables stay within the FPGA's capacities, row [i] carries local flow id [i],
    and rules only refer to comparators that exist. *)

From S2P Require Import Prelude Types Config Validate Csr FlowCompiler.

(** ** Orders *)

Record card_le (a b : pw_card_program) : Prop := {
  le_id : cp_card_id a = cp_card_id b;
  le_rows : cp_flow_rows a `prefix_of` cp_flow_rows b;
  le_map : cp_map_entries a `prefix_of` cp_map_entries b;
  le_cmps : cp_fc_cmps a `prefix_of` cp_fc_cmps b;
  le_udfs : cp_fc_udfs a `prefix_of` cp_fc_udfs b;
  le_rules : cp_fc_rules a `prefix_of` cp_fc_rules b;
  le_hash : cp_hash_entries a `prefix_of` cp_hash_entries b
}.

#[global] Instance card_le_preorder : PreOrder card_le.
Proof.
  split.
  - intros a. by split.
  - intros a b c [] []. split; etrans; eauto.
Qed.

Definition prog_le (p q : pw_program) : Prop := Forall2 card_le (p_per_card p) (p_per_card q).

#[global] Instance prog_le_preorder : PreOrder prog_le.
Proof.
  split.
  - intros p. unfold prog_le. apply Forall2_same_length_lookup_2; [done|]. naive_solver.
  - intros p q r H1 H2. unfold prog_le in *. revert H2. generalize (p_per_card r).
    induction H1 as [|a b l k Hab _ IH]; intros cs H2; inversion H2; subst; constructor;
      [by etrans|by apply IH].
Qed.

(** ** The per-card invariant *)

Definition care_refs (cp : pw_card_program) (care : Z) : Prop :=
  0 <= care /\ forall b, Z.testbit care b = true ->
    0 <= b < PWFPGA_NUM_CMP /\ b < Z.of_nat (length (cp_fc_cmps cp)) \/
    PWFPGA_NUM_CMP <= b < PWFPGA_NUM_CMP + Z.of_nat (length (cp_fc_udfs cp)).

(** The flow tables of a card. *)
Record rows_inv (cp : pw_card_program) : Prop := {
  ri_rows : n_rows cp <= PWFPGA_FLOW_TABLE_ROWS;
  ri_lfid : forall i r, cp_flow_rows cp !! i = Some r -> fc_local_flow_id r = Z.of_nat i;
  ri_map : forall e, e ∈ cp_map_entries cp ->
    me_flow_id e < PWFPGA_FLOWID_MAP_DEPTH /\ 0 <= me_local_flow_id e < n_rows cp;
  ri_hash : Z.of_nat (length (cp_hash_entries cp)) <= PWFPGA_HASH_DEPTH;
  ri_hash_lfid : forall e, e ∈ cp_hash_entries cp ->
    0 <= he_local_flow_id e < n_rows cp /\ length (he_key_word e) = 11%nat
}.

(** The whole card: its flow tables, and rules that fit and only refer to
    programmed comparators. *)
Record card_inv (cp : pw_card_program) : Prop := {
  ci_rows : rows_inv cp;
  ci_cmps : Z.of_nat (length (cp_fc_cmps cp)) <= PWFPGA_NUM_CMP;
  ci_udfs : Z.of_nat (length (cp_fc_udfs cp)) <= PWFPGA_NUM_UDF;
  ci_rules : Z.of_nat (length (cp_fc_rules cp)) <= PWFPGA_NUM_RULE;
  ci_care : forall r, r ∈ cp_fc_rules cp -> care_refs cp (rl_care r)
}.

Lemma rows_inv_new id : rows_inv (new_card_program id).
Proof. split; simpl; unfold n_rows; simpl; csr; try lia; try done; set_solver. Qed.

(** ** Comparator appends *)

(** What a comparator append yields: the pool grows by at most the comparator
    asked for, which sits at the returned bit. *)
Record cmp_appended (cp cp' : pw_card_program) (c : pw_fc_cmp) (bit : Z) : Prop := {
  ca_le : card_le cp cp';
  ca_rest : cp' = set_fc cp (cp_fc_cmps cp') (cp_fc_udfs cp) (cp_fc_rules cp);
  ca_bit : 0 <= bit;
  ca_at : cp_fc_cmps cp' !! Z.to_nat bit = Some c;
  ca_cap : Z.of_nat (length (cp_fc_cmps cp)) <= PWFPGA_NUM_CMP ->
           Z.of_nat (length (cp_fc_cmps cp')) <= PWFPGA_NUM_CMP
}.

Lemma append_fc_cmp_ok cp src m v cp' bit :
  append_fc_cmp cp src m v = Ok (cp', bit) ->
  cmp_appended cp cp' {| cmp_src := src; cmp_mask := m; cmp_value := v |} bit.
Proof.
  unfold append_fc_cmp. destruct (list_find _ _) as [[i c]|] eqn:Hf.
  - intros [= <- <-]. apply list_find_Some in Hf as (Hi & -> & _).
    split; [done|by destruct cp|lia|by rewrite Nat2Z.id|done].
  - destruct (Z.leb_spec PWFPGA_NUM_CMP (Z.of_nat (length (cp_fc_cmps cp)))); [done|].
    intros [= <- <-]. split; simpl.
    + split; simpl; try done. by apply prefix_app_r.
    + done.
    + lia.
    + by rewrite Nat2Z.id, list_lookup_middle.
    + rewrite length_app. simpl. lia.
Qed.

(** The only way a comparator append fails. *)
Lemma append_fc_cmp_err cp src m v e :
  append_fc_cmp cp src m v = Err e -> e = fail_bare PW_E_NO_RESOURCES.
Proof.
  unfold append_fc_cmp. destruct (list_find _ _) as [[i c]|]; [done|].
  destruct (_ <=? _); simpl; congruence.
Qed.

Record udf_appended (cp cp' : pw_card_program) (u : pw_fc_udf) (bit : Z) : Prop := {
  ua_le : card_le cp cp';
  ua_rest : cp' = set_fc cp (cp_fc_cmps cp) (cp_fc_udfs cp') (cp_fc_rules cp);
  ua_bit : PWFPGA_NUM_CMP <= bit;
  ua_at : cp_fc_udfs cp' !! Z.to_nat (bit - PWFPGA_NUM_CMP) = Some u;
  ua_cap : Z.of_nat (length (cp_fc_udfs cp)) <= PWFPGA_NUM_UDF ->
           Z.of_nat (length (cp_fc_udfs cp')) <= PWFPGA_NUM_UDF
}.

Lemma append_fc_udf_ok cp o m v cp' bit :
  append_fc_udf cp o m v = Ok (cp', bit) ->
  udf_appended cp cp' {| udf_offset := o; udf_mask := m; udf_value := v |} bit.
Proof.
  unfold append_fc_udf. destruct (list_find _ _) as [[i c]|] eqn:Hf.
  - intros [= <- <-]. apply list_find_Some in Hf as (Hi & -> & _).
    split; [done|by destruct cp|lia|by rewrite Z.add_simpl_l, Nat2Z.id|done].
  - destruct (Z.leb_spec PWFPGA_NUM_UDF (Z.of_nat (length (cp_fc_udfs cp)))); [done|].
    intros [= <- <-]. split; simpl.
    + split; simpl; try done. by apply prefix_app_r.
    + done.
    + lia.
    + by rewrite Z.add_simpl_l, Nat2Z.id, list_lookup_middle.
    + rewrite length_app. simpl. lia.
Qed.

(** Bits of an extended care mask. *)
Lemma care_or_bit care bit b : 0 <= care -> 0 <= bit < 16 ->
  Z.testbit (care_or care bit) b = Z.testbit care b || (b =? bit).
Proof.
  intros Hc Hb. unfold care_or, u16. rewrite Z.lor_spec. f_equal.
  destruct (Z.le_gt_cases 0 b).
  - rewrite testbit_mod by lia. rewrite Z.shiftl_1_l, Z.pow2_bits_eqb by lia.
    rewrite (Z.eqb_sym bit b). destruct (Z.ltb_spec b 16), (Z.eqb_spec b bit); simpl; lia.
  - rewrite Z.testbit_neg_r by lia. symmetry. apply Z.eqb_neq. lia.
Qed.

Lemma care_or_nonneg care bit : 0 <= care -> 0 <= care_or care bit.
Proof.
  intros. unfold care_or. apply Z.lor_nonneg. split; [done|]. apply u16_w.
Qed.

(** References survive growth of the pools. *)
Lemma care_refs_le cp cp' care : card_le cp cp' -> care_refs cp care -> care_refs cp' care.
Proof.
  intros [_ _ _ Hc%prefix_length Hu%prefix_length _ _] [H0 H]. split; [done|].
  intros b Hb. destruct (H b Hb); [left|right]; lia.
Qed.

Lemma care_refs_cmp cp cp' c bit care :
  cmp_appended cp cp' c bit -> Z.of_nat (length (cp_fc_cmps cp')) <= PWFPGA_NUM_CMP ->
  care_refs cp care -> care_refs cp' (care_or care bit).
Proof.
  intros [Hle _ Hb Hat _] Hcap Hr. apply (care_refs_le _ _ _ Hle) in Hr as [H0 H].
  apply lookup_lt_Some in Hat. csr. split; [by apply care_or_nonneg|].
  intros b. rewrite care_or_bit by lia. intros [?|Hq%Z.eqb_eq]%orb_true_iff; [auto|subst b].
  left. csr. lia.
Qed.

Lemma care_refs_udf cp cp' u bit care :
  udf_appended cp cp' u bit -> Z.of_nat (length (cp_fc_udfs cp')) <= PWFPGA_NUM_UDF ->
  care_refs cp care -> care_refs cp' (care_or care bit).
Proof.
  intros [Hle _ Hb Hat _] Hcap Hr. apply (care_refs_le _ _ _ Hle) in Hr as [H0 H].
  apply lookup_lt_Some in Hat. csr. split; [by apply care_or_nonneg|].
  intros b. rewrite care_or_bit by lia. intros [?|Hq%Z.eqb_eq]%orb_true_iff; [auto|subst b].
  right. csr. lia.
Qed.

(** ** Cards of a program *)

(** [P] holds of a card program with this id. *)
Definition on_card (p : pw_program) (id : Z) (P : pw_card_program -> Prop) : Prop :=
  exists i cp, p_per_card p !! i = Some cp /\ cp_card_id cp = id /\ P cp.

Lemma prog_le_lookup p q i cp : prog_le p q -> p_per_card p !! i = Some cp ->
  exists cp', p_per_card q !! i = Some cp' /\ card_le cp cp'.
Proof. intros H Hi. by eapply Forall2_lookup_l in H. Qed.

(** A property that survives growth of a card survives growth of the program. *)
Lemma on_card_le p q id (P Q : pw_card_program -> Prop) :
  prog_le p q -> (forall a b, card_le a b -> P a -> Q b) -> on_card p id P -> on_card q id Q.
Proof.
  intros Hle HP (i & cp & Hi & <- & H).
  destruct (prog_le_lookup _ _ _ _ Hle Hi) as (cp' & Hi' & Hc).
  exists i, cp'. split_and!; [done| |by eapply HP]. symmetry. apply Hc.
Qed.

Lemma card_slot_some p id i : card_slot p id = Some i ->
  exists cp, p_per_card p !! i = Some cp /\ cp_card_id cp = id /\ card_at p i = cp.
Proof.
  unfold card_slot, card_at. intros ([j cp] & Hf & ->)%fmap_Some.
  apply list_find_Some in Hf as (Hi & Hid & _). simpl. exists cp. by rewrite Hi.
Qed.

Lemma card_slot_ids p id i : p_per_card p !! i = None -> card_slot p id <> Some i.
Proof. intros Hi (cp & ? & _)%card_slot_some. congruence. Qed.

(** [card_slot] only depends on the ids, which no step changes. *)
Definition card_ids (p : pw_program) : list Z := cp_card_id <$> p_per_card p.

Lemma card_ids_le p q : prog_le p q -> card_ids p = card_ids q.
Proof.
  unfold prog_le, card_ids. induction 1 as [|a b l k Hab _ IH]; [done|].
  rewrite !fmap_cons, IH. by rewrite (le_id _ _ Hab).
Qed.

Lemma card_slot_in p id : id ∈ card_ids p -> exists i, card_slot p id = Some i.
Proof.
  unfold card_ids, card_slot. intros (cp & Hid & Hin)%list_elem_of_fmap.
  destruct (list_find_elem_of (fun c => cp_card_id c = id) _ cp Hin) as [[i c] ->]; [done|].
  by exists i.
Qed.

(** Replacing the card in a slot by a grown one. *)
Lemma set_card_le p i cp cp' :
  p_per_card p !! i = Some cp -> card_le cp cp' -> prog_le p (set_card p i cp').
Proof.
  intros Hi Hle. unfold prog_le, set_card. simpl.
  apply Forall2_same_length_lookup_2; [by rewrite length_insert|].
  intros j a b Ha Hb. destruct (decide (i = j)) as [<-|Hne].
  - rewrite list_lookup_insert_eq in Hb by (by eapply lookup_lt_Some). congruence.
  - rewrite list_lookup_insert_ne in Hb by done. assert (a = b) as -> by congruence. done.
Qed.

Lemma set_card_at p i cp cp' :
  p_per_card p !! i = Some cp -> p_per_card (set_card p i cp') !! i = Some cp'.
Proof. intros. by apply list_lookup_insert_eq, lookup_lt_Some with cp. Qed.

(** A property of all cards survives replacing one card by another that has it. *)
Lemma set_card_forall (P : pw_card_program -> Prop) p i cp :
  Forall P (p_per_card p) -> P cp -> Forall P (p_per_card (set_card p i cp)).
Proof. intros. by apply Forall_insert. Qed.

Lemma set_meta_le p i m : prog_le p (set_meta p i m).
Proof. by change (prog_le p p). Qed.
