(* ===== verification/FieldClassifier.v ===== *)
(** * What the punt and forward rules of a program match

    The card's field classifier ([rtl/phase3/pw_field_classifier.sv]) evaluates
    shared comparators on the canonical fields of a frame, and a rule hits when
    every comparator in its care mask matches; the hit with the lowest priority
    value wins, the lower index on a tie. [field_classify] runs that on a
    compiled card program. [rule_spec] is a rule with comparators of its own.
    This file shows that [compile_punt_rules] and [compile_forward_rules], which
    share one deduplicated comparator pool per card, classify every frame as the
    list of rule specifications of the configuration does. *)

From S2P Require Import Prelude Types Config Validate Csr FlowCompiler CompilerInv.

(** ** The classifier *)

(** A frame as the classifier sees it: a 32-bit lane per source selector, and
    the 32-bit slice at a UDF offset. *)
Record match_key := {
  k_lane : pwfpga_fc_src -> Z;
  k_udf : Z -> Z
}.

Definition cmp_match (k : match_key) (c : pw_fc_cmp) : bool :=
  k_lane k (cmp_src c) &&& cmp_mask c =? cmp_value c &&& cmp_mask c.

Definition udf_match (k : match_key) (u : pw_fc_udf) : bool :=
  k_udf k (udf_offset u) &&& udf_mask u =? udf_value u &&& udf_mask u.

(** [cmatch[b]]; an unprogrammed comparator has mask 0 and matches. *)
Definition bit_match (cp : pw_card_program) (k : match_key) (b : Z) : bool :=
  if b <? PWFPGA_NUM_CMP
  then match cp_fc_cmps cp !! Z.to_nat b with Some c => cmp_match k c | None => true end
  else match cp_fc_udfs cp !! Z.to_nat (b - PWFPGA_NUM_CMP) with
       | Some u => udf_match k u | None => true end.

(** [(cmatch & care) == care] over the 14 comparator bits. *)
Definition care_hit (cp : pw_card_program) (k : match_key) (care : Z) : bool :=
  forallb (fun b => implb (Z.testbit care b) (bit_match cp k b))
    (seqZ 0 (PWFPGA_NUM_CMP + PWFPGA_NUM_UDF)).

(** The winner among the hits: lowest priority, then lowest index. *)
Definition pick {A} (hit : A -> bool) (prio : A -> Z) (l : list A) : option A :=
  fold_left (fun best x =>
    if hit x then
      match best with
      | Some y => if prio x <? prio y then Some x else best
      | None => Some x
      end
    else best) l None.

(** Action, egress port and logical interface of a classified frame. *)
Definition verdict : Type := pwfpga_action * Z * Z.

Definition field_classify (cp : pw_card_program) (k : match_key) : option verdict :=
  (fun r => (rl_action r, rl_egress r, rl_logical_if_id r)) <$>
  pick (fun r => care_hit cp k (rl_care r)) rl_priority (cp_fc_rules cp).

(** ** Rule specifications *)

Record rule_spec := {
  rs_cmps : list pw_fc_cmp;
  rs_udfs : list pw_fc_udf;
  rs_action : pwfpga_action;
  rs_egress : Z;
  rs_lif : Z;
  rs_prio : Z
}.

Definition spec_hit (k : match_key) (cs : list pw_fc_cmp) (us : list pw_fc_udf) : bool :=
  forallb (cmp_match k) cs && forallb (udf_match k) us.

Definition spec_classify (l : list rule_spec) (k : match_key) : option verdict :=
  (fun s => (rs_action s, rs_egress s, rs_lif s)) <$>
  pick (fun s => spec_hit k (rs_cmps s) (rs_udfs s)) rs_prio l.

(** The condition [field & mask = value], present when [c]. *)
Definition cond (c : bool) (src : pwfpga_fc_src) (mask value : Z) : list pw_fc_cmp :=
  if c then [{| cmp_src := src; cmp_mask := mask; cmp_value := value |}] else [].

Definition punt_spec (ref : pwfpga_port_ref) (l : pw_logical_if) (a : punt_args) : rule_spec :=
  let '(eth, l3p, lane, port, uoff, uval, prio) := a in
  {| rs_cmps := cond true FC_SRC_INGRESS 0xF (pr_local_port_id ref) ++
                cond (ztrue (lif_vlan l)) FC_SRC_VLAN 0x0FFF (lif_vlan l) ++
                cond (ztrue eth) FC_SRC_ETHERTYPE 0xFFFF eth ++
                cond (ztrue l3p) FC_SRC_L3_PROTO 0xFF l3p ++
                cond (ztrue port) lane 0xFFFF port;
     rs_udfs := if ztrue uval
                then [{| udf_offset := uoff; udf_mask := 0xFFFF0000; udf_value := uval |}]
                else [];
     rs_action := PWFPGA_ACT_PUNT_TO_HOST; rs_egress := 0; rs_lif := lif_id l;
     rs_prio := prio |}.

(** All four words of an IPv6 prefix match. *)
Definition ipv6_conds (addr mask : list Z) (sel : list pwfpga_fc_src) : list pw_fc_cmp :=
  imap (fun w s => {| cmp_src := s; cmp_mask := be32_at mask (w * 4);
                      cmp_value := be32_at addr (w * 4) |}) sel.

Definition forward_spec (fr : pw_forward_rule) (ing egr : pwfpga_port_ref) : rule_spec :=
  {| rs_cmps := cond true FC_SRC_INGRESS 0xF (pr_local_port_id ing) ++
                cond (ztrue (fr_vlan fr)) FC_SRC_VLAN 0x0FFF (fr_vlan fr) ++
                cond (ztrue (fr_ethertype fr)) FC_SRC_ETHERTYPE 0xFFFF (fr_ethertype fr) ++
                cond (ztrue (fr_ip_proto fr)) FC_SRC_L3_PROTO 0xFF (fr_ip_proto fr) ++
                cond (ztrue (fr_udp_dst fr)) FC_SRC_L4_DST 0xFFFF (fr_udp_dst fr) ++
                cond (fr_ipv6_dst_set fr || fr_ipv6_src_set fr) FC_SRC_FLAGS
                  PWFPGA_FC_FLAG_IS_IPV6 PWFPGA_FC_FLAG_IS_IPV6 ++
                (if fr_ipv6_dst_set fr
                 then ipv6_conds (fr_ipv6_dst fr) (fr_ipv6_dst_mask fr) dsel else []) ++
                (if fr_ipv6_src_set fr
                 then ipv6_conds (fr_ipv6_src fr) (fr_ipv6_src_mask fr) ssel else []);
     rs_udfs := [];
     rs_action := PWFPGA_ACT_FORWARD_PORT; rs_egress := pr_local_port_id egr; rs_lif := 0;
     rs_prio := fr_priority fr |}.

(** The rules a configuration asks of card [id], in program order: the punt
    rules of its logical interfaces, then its forwards. *)
Definition lif_rules (cfg : pw_config) (id : Z) (l : pw_logical_if) : list rule_spec :=
  match pw_config_resolve_port cfg (lif_global_port l) with
  | Ok ref => if pr_card_id ref =? id then punt_spec ref l <$> punt_list (lif_punt l) else []
  | Err _ => []
  end.

Definition forward_rules (cfg : pw_config) (id : Z) (fr : pw_forward_rule) : list rule_spec :=
  match pw_config_resolve_port cfg (fr_ingress_port fr),
        pw_config_resolve_port cfg (fr_egress_port fr) with
  | Ok ing, Ok egr => if pr_card_id ing =? id then [forward_spec fr ing egr] else []
  | _, _ => []
  end.

Definition field_rules (cfg : pw_config) (id : Z) : list rule_spec :=
  (cfg_logical_if cfg ≫= lif_rules cfg id) ++ (cfg_forwards cfg ≫= forward_rules cfg id).

(** ** Care masks and the conditions they stand for *)

(** [care] selects comparators of [cp] that together test [cs] and [us]. *)
Record care_sem (cp : pw_card_program) (care : Z) (cs : list pw_fc_cmp)
    (us : list pw_fc_udf) : Prop := {
  cs_refs : care_refs cp care;
  cs_hit : forall k, care_hit cp k care = spec_hit k cs us
}.

Record rule_impl (cp : pw_card_program) (s : rule_spec) (r : pw_fc_rule) : Prop := {
  ri_sem : care_sem cp (rl_care r) (rs_cmps s) (rs_udfs s);
  ri_action : rl_action r = rs_action s;
  ri_egress : rl_egress r = rs_egress s;
  ri_lif : rl_logical_if_id r = rs_lif s;
  ri_prio : rl_priority r = rs_prio s
}.

Lemma care_hit_true cp k care :
  care_hit cp k care = true <->
  forall b, 0 <= b < PWFPGA_NUM_CMP + PWFPGA_NUM_UDF ->
    Z.testbit care b = true -> bit_match cp k b = true.
Proof.
  unfold care_hit. rewrite forallb_forall. setoid_rewrite <- list_elem_of_In.
  setoid_rewrite elem_of_seqZ. setoid_rewrite Z.add_0_l. setoid_rewrite implb_true_iff.
  naive_solver.
Qed.

Lemma care_hit_or cp k care bit : 0 <= care -> 0 <= bit < 14 ->
  care_hit cp k (care_or care bit) = care_hit cp k care && bit_match cp k bit.
Proof.
  intros Hc Hb. apply eq_true_iff_eq. rewrite andb_true_iff, !care_hit_true. csr. split.
  - intros H. split; [intros b Hr Ht|]; apply H; try lia; rewrite care_or_bit by lia.
    + by rewrite Ht.
    + by rewrite Z.eqb_refl, orb_true_r.
  - intros [H1 H2] b Hr. rewrite care_or_bit by lia.
    intros [?|Hq%Z.eqb_eq]%orb_true_iff; [auto|by subst b].
Qed.

(** Growing the pools does not change what a care mask tests. *)
Lemma care_hit_le cp cp' k care :
  card_le cp cp' -> care_refs cp care -> care_hit cp' k care = care_hit cp k care.
Proof.
  intros Hle [_ Hr]. apply eq_true_iff_eq. rewrite !care_hit_true.
  assert (forall b, Z.testbit care b = true -> bit_match cp' k b = bit_match cp k b) as Heq.
  { intros b Hb. unfold bit_match. destruct (Z.ltb_spec b PWFPGA_NUM_CMP).
    - destruct (lookup_lt_is_Some_2 (cp_fc_cmps cp) (Z.to_nat b)) as [c Hc].
      { destruct (Hr b Hb); csr; lia. }
      by rewrite Hc, (prefix_lookup_Some _ _ _ _ Hc (le_cmps _ _ Hle)).
    - destruct (lookup_lt_is_Some_2 (cp_fc_udfs cp) (Z.to_nat (b - PWFPGA_NUM_CMP))) as [u Hu].
      { destruct (Hr b Hb); csr; lia. }
      by rewrite Hu, (prefix_lookup_Some _ _ _ _ Hu (le_udfs _ _ Hle)). }
  split; intros H b Hb Hc; specialize (H b Hb Hc); rewrite Heq in *; done.
Qed.

Lemma care_sem_le cp cp' care cs us :
  card_le cp cp' -> care_sem cp care cs us -> care_sem cp' care cs us.
Proof.
  intros Hle [Hr Hh]. split; [by eapply care_refs_le|]. intros k. by rewrite (care_hit_le cp).
Qed.

Lemma care_sem_nil cp : care_sem cp 0 [] [].
Proof.
  split; [split; [done|]; intros b; by rewrite Z.bits_0|].
  intros k. apply care_hit_true. intros b _. by rewrite Z.bits_0.
Qed.

Definition cmps_fit (cp : pw_card_program) : Prop :=
  Z.of_nat (length (cp_fc_cmps cp)) <= PWFPGA_NUM_CMP /\
  Z.of_nat (length (cp_fc_udfs cp)) <= PWFPGA_NUM_UDF.

Lemma care_sem_cmp cp cp' c bit care cs us :
  cmp_appended cp cp' c bit -> cmps_fit cp' ->
  care_sem cp care cs us -> care_sem cp' (care_or care bit) (cs ++ [c]) us.
Proof.
  intros Ha [Hf _] Hs. split; [eapply care_refs_cmp; [done..|apply Hs]|]. intros k.
  assert (bit < PWFPGA_NUM_CMP) as Hb
    by (pose proof (lookup_lt_Some _ _ _ (ca_at _ _ _ _ Ha)); pose proof (ca_bit _ _ _ _ Ha); lia).
  pose proof (ca_bit _ _ _ _ Ha). destruct Hs as [[Hn Hr] Hh].
  rewrite care_hit_or by (csr; lia).
  rewrite (care_hit_le cp cp'), Hh by (apply Ha || done).
  unfold bit_match. rewrite (proj2 (Z.ltb_lt _ _) Hb), (ca_at _ _ _ _ Ha).
  unfold spec_hit. rewrite forallb_app. simpl. rewrite andb_true_r.
  by destruct (forallb (cmp_match k) cs), (cmp_match k c), (forallb (udf_match k) us).
Qed.

Lemma care_sem_udf cp cp' u bit care cs us :
  udf_appended cp cp' u bit -> cmps_fit cp' ->
  care_sem cp care cs us -> care_sem cp' (care_or care bit) cs (us ++ [u]).
Proof.
  intros Ha [_ Hf] Hs. split; [eapply care_refs_udf; [done..|apply Hs]|]. intros k.
  pose proof (lookup_lt_Some _ _ _ (ua_at _ _ _ _ Ha)). pose proof (ua_bit _ _ _ _ Ha).
  destruct Hs as [[Hn Hr] Hh].
  rewrite care_hit_or by (csr; lia).
  rewrite (care_hit_le cp cp'), Hh by (apply Ha || done).
  unfold bit_match. rewrite (proj2 (Z.ltb_ge _ _) (ua_bit _ _ _ _ Ha)), (ua_at _ _ _ _ Ha).
  unfold spec_hit. rewrite forallb_app. simpl. by rewrite andb_true_r, andb_assoc.
Qed.

Lemma care_sem_ext cp care cs us cs' us' :
  (forall k, spec_hit k cs us = spec_hit k cs' us') ->
  care_sem cp care cs us -> care_sem cp care cs' us'.
Proof. intros He [Hr Hh]. split; [done|]. intros k. by rewrite Hh. Qed.

(** ** Building one rule *)

(** [cp'] only differs from [cp] in the comparator pools and rules. *)
Definition only_fc (cp cp' : pw_card_program) : Prop :=
  cp' = set_fc cp (cp_fc_cmps cp') (cp_fc_udfs cp') (cp_fc_rules cp').

(** State of a rule under construction from card [cp0]: the card so far and a
    care mask that tests [cs] and [us]. *)
Record building (cp0 : pw_card_program) (s : pw_card_program * Z) (cs : list pw_fc_cmp)
    (us : list pw_fc_udf) : Prop := {
  bd_le : card_le cp0 s.1;
  bd_fc : only_fc cp0 s.1;
  bd_rules : cp_fc_rules s.1 = cp_fc_rules cp0;
  bd_fit : cmps_fit s.1;
  bd_sem : care_sem s.1 s.2 cs us
}.

Lemma building_start cp : cmps_fit cp -> building cp (cp, 0) [] [].
Proof. intros. split; simpl; try done; [by destruct cp|apply care_sem_nil]. Qed.

Lemma building_cmp cp0 cp care cs us src m v cp' bit :
  building cp0 (cp, care) cs us -> append_fc_cmp cp src m v = Ok (cp', bit) ->
  building cp0 (cp', care_or care bit)
    (cs ++ [{| cmp_src := src; cmp_mask := m; cmp_value := v |}]) us.
Proof.
  intros [Hle Hfc Hru [Hf Hu] Hs] Ha%append_fc_cmp_ok. cbn [fst snd] in *.
  assert (cmps_fit cp') as Hfit.
  { split; [by apply Ha|]. rewrite (ca_rest _ _ _ _ Ha). done. }
  split; cbn [fst snd]; [etrans; [done|apply Ha]| | |done|by eapply care_sem_cmp].
  - unfold only_fc in *. rewrite (ca_rest _ _ _ _ Ha), Hfc. done.
  - rewrite (ca_rest _ _ _ _ Ha). done.
Qed.

Lemma building_opt cp0 s cs us c src m v s' :
  building cp0 s cs us -> opt_cmp c src m v s = Ok s' ->
  building cp0 s' (cs ++ cond c src m v) us.
Proof.
  destruct s as [cp care]. intros Hb. unfold opt_cmp, cond. destruct c.
  - intros H. mon. destruct x as [cp' bit]. mon. by eapply building_cmp.
  - intros [= <-]. by rewrite app_nil_r.
Qed.

Lemma building_udf cp0 cp care cs us o m v cp' bit :
  building cp0 (cp, care) cs us -> append_fc_udf cp o m v = Ok (cp', bit) ->
  building cp0 (cp', care_or care bit) cs
    (us ++ [{| udf_offset := o; udf_mask := m; udf_value := v |}]).
Proof.
  intros [Hle Hfc Hru [Hf Hu] Hs] Ha%append_fc_udf_ok. cbn [fst snd] in *.
  assert (cmps_fit cp') as Hfit.
  { split; [|by apply Ha]. rewrite (ua_rest _ _ _ _ Ha). done. }
  split; cbn [fst snd]; [etrans; [done|apply Ha]| | |done|by eapply care_sem_udf].
  - unfold only_fc in *. rewrite (ua_rest _ _ _ _ Ha), Hfc. done.
  - rewrite (ua_rest _ _ _ _ Ha). done.
Qed.

Lemma building_ext cp0 s cs us cs' us' :
  (forall k, spec_hit k cs us = spec_hit k cs' us') ->
  building cp0 s cs us -> building cp0 s cs' us'.
Proof. intros He []. split; try done. by eapply care_sem_ext. Qed.

(** One word of an IPv6 prefix: a zero mask tests nothing, a stored value is
    already masked. *)
Lemma building_ipv6_word cp0 s cs us addr mask w sel s' :
  building cp0 s cs us -> append_ipv6_word addr mask w sel s = Ok s' ->
  building cp0 s' (cs ++ [{| cmp_src := sel; cmp_mask := be32_at mask (w * 4);
                             cmp_value := be32_at addr (w * 4) |}]) us.
Proof.
  destruct s as [cp care]. intros Hb. unfold append_ipv6_word.
  destruct (Z.eqb_spec (be32_at mask (w * 4)) 0) as [H0|H0]; intros H; mon.
  - revert Hb. apply building_ext. intros k. unfold spec_hit. rewrite forallb_app. simpl.
    unfold cmp_match. simpl. by rewrite H0, !Z.land_0_r, andb_true_r.
  - destruct x as [cp' bit]. mon.
    eapply building_ext; [|by eapply building_cmp]. intros k. unfold spec_hit.
    rewrite !forallb_app. simpl. unfold cmp_match. simpl.
    by rewrite <- Z.land_assoc, Z.land_diag.
Qed.

Lemma building_ipv6 cp0 cp care cs us addr mask sel s' :
  length sel = 4%nat -> building cp0 (cp, care) cs us ->
  append_ipv6_cmps cp addr mask sel care = Ok s' ->
  building cp0 s' (cs ++ ipv6_conds addr mask sel) us.
Proof.
  intros Hl Hb H. unfold append_ipv6_cmps in H. rewrite take_ge in H by lia.
  apply (mfold_inv _ (fun i s => building cp0 s (cs ++ take i (ipv6_conds addr mask sel)) us)) in H.
  - simpl in H. rewrite take_ge in H; [done|]. unfold ipv6_conds. by rewrite length_imap.
  - by rewrite take_0, app_nil_r.
  - simpl. intros w sl s1 s2 Hw Hs1 Hs2. erewrite take_S_r.
    + rewrite app_assoc. by eapply building_ipv6_word.
    + unfold ipv6_conds. by rewrite list_lookup_imap, Hw.
Qed.

(** ** The rules of a card *)

Record rules_ok (cp : pw_card_program) (specs : list rule_spec) : Prop := {
  ro_fit : cmps_fit cp;
  ro_cap : Z.of_nat (length (cp_fc_rules cp)) <= PWFPGA_NUM_RULE;
  ro_impl : Forall2 (rule_impl cp) specs (cp_fc_rules cp)
}.

Lemma rule_impl_le cp cp' s r : card_le cp cp' -> rule_impl cp s r -> rule_impl cp' s r.
Proof. intros Hle []. split; try done. by eapply care_sem_le. Qed.

(** What adding a rule to a card does. *)
Record rule_added (cp cp' : pw_card_program) (specs : list rule_spec) : Prop := {
  ra_le : card_le cp cp';
  ra_fc : only_fc cp cp';
  ra_ok : rules_ok cp' specs
}.

Lemma append_rule_ok cp0 cp care cs us specs s r cp' :
  rules_ok cp0 specs -> building cp0 (cp, care) cs us ->
  append_fc_rule cp r = Ok cp' ->
  rl_care r = care -> rs_cmps s = cs -> rs_udfs s = us ->
  rl_action r = rs_action s -> rl_egress r = rs_egress s -> rl_logical_if_id r = rs_lif s ->
  rl_priority r = rs_prio s ->
  rule_added cp0 cp' (specs ++ [s]).
Proof.
  intros [Hfit Hcap Himpl] [Hle Hfc Hru Hf Hs] Ha. cbn [fst snd] in *. intros <- <- <- ????.
  unfold append_fc_rule in Ha.
  destruct (Z.leb_spec PWFPGA_NUM_RULE (Z.of_nat (length (cp_fc_rules cp)))); [done|]. mon.
  set (cp' := set_fc _ _ _ _).
  assert (card_le cp cp') as Hle'.
  { split; simpl; try done. by apply prefix_app_r. }
  split; [by etrans| |].
  - unfold only_fc, cp' in *. simpl. rewrite Hfc. reflexivity.
  - split; [done|simpl; rewrite length_app; simpl; lia|]. simpl. apply Forall2_app.
    + rewrite Hru. eapply Forall2_impl; [exact Himpl|]. intros ? ? Hi.
      eapply rule_impl_le; [exact Hle'|]. by eapply rule_impl_le.
    + constructor; [|constructor]. split; try done. exact (care_sem_le _ _ _ _ _ Hle' Hs).
Qed.

Ltac build_opts :=
  repeat match goal with
  | Ho : opt_cmp _ _ _ _ ?s = Ok _, Hb : building _ ?s _ _ |- _ =>
      eapply building_opt in Hb; [|exact Ho]; clear Ho
  end.

Lemma add_punt_rule_ok cp ref l eth l3p lane port uoff uval prio cp' specs :
  rules_ok cp specs ->
  add_punt_rule cp ref l eth l3p lane port uoff uval prio = Ok cp' ->
  rule_added cp cp' (specs ++ [punt_spec ref l (eth, l3p, lane, port, uoff, uval, prio)]).
Proof.
  intros Hr H. pose proof (building_start cp (ro_fit _ _ Hr)) as Hb.
  unfold add_punt_rule in H. mon. build_opts.
  rewrite app_nil_l, <- !app_assoc in Hb. destruct x3 as [cp5 care], x4 as [cp6 care'].
  assert (building cp (cp6, care')
    (rs_cmps (punt_spec ref l (eth, l3p, lane, port, uoff, uval, prio)))
    (rs_udfs (punt_spec ref l (eth, l3p, lane, port, uoff, uval, prio)))) as Hb'.
  { simpl. destruct (ztrue uval); mon; [|done].
    match goal with q : pw_card_program * Z |- _ => destruct q as [cp7 bit] end. mon.
    by eapply (building_udf _ _ _ _ []). }
  by eapply append_rule_ok.
Qed.

Lemma add_forward_rule_ok cp fr ing egr cp' specs :
  rules_ok cp specs -> add_forward_rule cp fr ing egr = Ok cp' ->
  rule_added cp cp' (specs ++ [forward_spec fr ing egr]).
Proof.
  intros Hr H. pose proof (building_start cp (ro_fit _ _ Hr)) as Hb.
  unfold add_forward_rule in H. mon. build_opts.
  rewrite app_nil_l, <- !app_assoc in Hb.
  destruct x4 as [cp5 care], x5 as [cp6 care6], x6 as [cp7 care7].
  assert (building cp (cp7, care7) (rs_cmps (forward_spec fr ing egr)) []) as Hb'.
  { cbn [forward_spec rs_cmps]. rewrite !app_assoc in *.
    destruct (fr_ipv6_dst_set fr), (fr_ipv6_src_set fr); mon; rewrite ?app_nil_r in *;
      repeat (eapply building_ipv6; [reflexivity| |eassumption]); done. }
  by eapply append_rule_ok.
Qed.

(** ** The rules of a program *)

(** The rules of every card implement the list [R] gives for its id. *)
Definition prog_rules (R : Z -> list rule_spec) (p : pw_program) : Prop :=
  Forall (fun cp => rules_ok cp (R (cp_card_id cp))) (p_per_card p).

(** Extend the rules of the card found in one slot; card ids are unique. *)
Lemma prog_rules_set R R' p i cp cp' :
  NoDup (card_ids p) -> prog_rules R p -> p_per_card p !! i = Some cp ->
  rule_added cp cp' (R' (cp_card_id cp)) ->
  (forall id, id <> cp_card_id cp -> R' id = R id) ->
  prog_rules R' (set_card p i cp').
Proof.
  intros Hnd HR Hi Ha Hne. unfold prog_rules, set_card. simpl.
  apply Forall_lookup. intros j c Hj. destruct (decide (i = j)) as [<-|Hij].
  - rewrite list_lookup_insert_eq in Hj by (by eapply lookup_lt_Some).
    injection Hj as <-. rewrite <- (le_id _ _ (ra_le _ _ _ Ha)). apply Ha.
  - rewrite list_lookup_insert_ne in Hj by done. unfold prog_rules in HR.
    rewrite Forall_lookup in HR. rewrite Hne; [by eapply HR|]. intros Heq. apply Hij.
    unfold card_ids in Hnd. eapply NoDup_lookup; [exact Hnd|..];
      rewrite list_lookup_fmap; [by rewrite Hi|rewrite Hj; simpl; by rewrite Heq].
Qed.

Lemma prog_rules_ext R R' p :
  (forall id, id ∈ card_ids p -> R id = R' id) -> prog_rules R p -> prog_rules R' p.
Proof.
  intros He H. unfold prog_rules in *. rewrite Forall_forall in *. intros cp Hin.
  rewrite <- He; [by apply H|]. apply list_elem_of_fmap. eauto.
Qed.

(** What a rule-compiling step does to the program. *)
Record rules_step (p p' : pw_program) (R : Z -> list rule_spec) : Prop := {
  rs_le : prog_le p p';
  rs_meta : p_flow_meta p' = p_flow_meta p;
  rs_only : Forall2 only_fc (p_per_card p) (p_per_card p');
  rs_rules : prog_rules R p'
}.

#[global] Instance only_fc_preorder : PreOrder only_fc.
Proof.
  split.
  - intros cp. by destruct cp.
  - intros a b c Hab Hbc. unfold only_fc in *. rewrite Hbc, Hab at 1. done.
Qed.

Lemma only_fc_set p i cp cp' : p_per_card p !! i = Some cp -> only_fc cp cp' ->
  Forall2 only_fc (p_per_card p) (p_per_card (set_card p i cp')).
Proof.
  intros Hi Hle. simpl. apply Forall2_same_length_lookup_2; [by rewrite length_insert|].
  intros j a b Ha Hb. destruct (decide (i = j)) as [<-|Hne].
  - rewrite list_lookup_insert_eq in Hb by (by eapply lookup_lt_Some). congruence.
  - rewrite list_lookup_insert_ne in Hb by done. assert (a = b) as -> by congruence. done.
Qed.

Lemma rules_step_set p i cp cp' R R' :
  NoDup (card_ids p) -> prog_rules R p -> p_per_card p !! i = Some cp ->
  rule_added cp cp' (R' (cp_card_id cp)) ->
  (forall id, id <> cp_card_id cp -> R' id = R id) ->
  rules_step p (set_card p i cp') R'.
Proof.
  intros Hnd HR Hi Ha Hne. split.
  - eapply set_card_le; [done|apply Ha].
  - done.
  - eapply only_fc_set; [done|apply Ha].
  - by eapply prog_rules_set.
Qed.

Lemma punts_ok ref l args cp cp' specs :
  rules_ok cp specs ->
  mfold (fun _ cp '(eth, l3p, lane, port, uoff, uval, prio) =>
          add_punt_rule cp ref l eth l3p lane port uoff uval prio) 0 cp args = Ok cp' ->
  rule_added cp cp' (specs ++ (punt_spec ref l <$> args)).
Proof.
  intros Hr H.
  apply (mfold_inv _ (fun i c => rule_added cp c (specs ++ (punt_spec ref l <$> take i args)))) in H.
  - simpl in H. by rewrite take_ge in H.
  - simpl. rewrite app_nil_r. by split.
  - simpl. intros k a c1 c2 Hk [Hle Hfc Hok] Ha. erewrite take_S_r by done.
    destruct a as [[[[[[eth l3p] lane] port] uoff] uval] prio].
    rewrite fmap_app, app_assoc. eapply add_punt_rule_ok in Ha as [Hle' Hfc' Hok']; [|done].
    split; [by etrans..|done].
Qed.

Lemma compile_punt_lif_ok cfg out l out' R :
  NoDup (card_ids out) -> prog_rules R out -> compile_punt_lif cfg out l = Ok out' ->
  rules_step out out' (fun id => R id ++ lif_rules cfg id l).
Proof.
  intros Hnd HR H. unfold compile_punt_lif in H. mon.
  destruct (card_slot_some _ _ _ H0) as (cp & Hi & Hid & Hat). rewrite Hat in H1.
  assert (rules_ok cp (R (cp_card_id cp))) as Hok
    by (eapply Forall_lookup_1 in HR; done).
  eapply rules_step_set; [done..| |].
  - unfold lif_rules. rewrite H, Hid, Z.eqb_refl. rewrite <- Hid. by apply punts_ok.
  - intros id Hne. unfold lif_rules. rewrite H.
    destruct (Z.eqb_spec (pr_card_id x) id); [congruence|]. apply app_nil_r.
Qed.

Lemma compile_forward_ok cfg out fr out' R :
  NoDup (card_ids out) -> prog_rules R out -> compile_forward cfg out fr = Ok out' ->
  rules_step out out' (fun id => R id ++ forward_rules cfg id fr).
Proof.
  intros Hnd HR H. unfold compile_forward in H. mon.
  destruct (card_slot_some _ _ _ H2) as (cp & Hi & Hid & Hat). rewrite Hat in H3.
  assert (rules_ok cp (R (cp_card_id cp))) as Hok
    by (eapply Forall_lookup_1 in HR; done).
  eapply rules_step_set; [done..| |].
  - unfold forward_rules. rewrite H, H0, Hid, Z.eqb_refl. rewrite <- Hid.
    by apply add_forward_rule_ok.
  - intros id Hne. unfold forward_rules. rewrite H, H0.
    destruct (Z.eqb_spec (pr_card_id x) id); [congruence|]. apply app_nil_r.
Qed.

(** A loop of rule-compiling steps. *)
Lemma rules_loop {A} (f : nat -> pw_program -> A -> M pw_program) (rl : Z -> A -> list rule_spec)
    l p p' R :
  (forall k x p1 p2 R1, NoDup (card_ids p1) -> prog_rules R1 p1 -> f k p1 x = Ok p2 ->
     rules_step p1 p2 (fun id => R1 id ++ rl id x)) ->
  NoDup (card_ids p) -> prog_rules R p -> mfold f 0 p l = Ok p' ->
  rules_step p p' (fun id => R id ++ (l ≫= rl id)).
Proof.
  intros Hf Hnd HR H.
  apply (mfold_inv _ (fun i q => rules_step p q (fun id => R id ++ (take i l ≫= rl id)))) in H.
  - simpl in H. by rewrite take_ge in H.
  - simpl. split; [done..| |].
    + apply Forall2_same_length_lookup_2; [done|]. intros i a b Ha Hb.
      assert (a = b) as -> by congruence. done.
    + revert HR. apply prog_rules_ext. intros id _. by rewrite app_nil_r.
  - simpl. intros k x p1 p2 Hk [Hle Hm Hfc Hr] Hs.
    assert (NoDup (card_ids p1)) as Hnd1 by (by rewrite <- (card_ids_le _ _ Hle)).
    specialize (Hf _ _ _ _ _ Hnd1 Hr Hs) as [Hle' Hm' Hfc' Hr'].
    split; [by etrans|congruence| |].
    + eapply Forall2_trans; [|done..]. intros ???. apply transitivity.
    + revert Hr'. apply prog_rules_ext. intros id _. erewrite take_S_r by done.
      rewrite bind_app. simpl. by rewrite app_nil_r, app_assoc.
Qed.
