(* ===== verification/CompilerFlows.v ===== *)
(** * The flow stage of the compiler

    After [compile_flows] every flow owns its slots and every table entry belongs
    to a flow: [flows_inv] relates the metadata table, the rows, the flow-id map
    and the (not yet placed) hash keys of the program to the first [k] flows of
    the configuration. *)

From S2P Require Import Prelude Types Config Validate Csr FlowCompiler CompilerInv.

Section Flows.
Context (cfg : pw_config).

(** ** Slots *)

Definition slot (cp : pw_card_program) (lfid : Z) (r : pwfpga_flow_config) : Prop :=
  0 <= lfid /\ cp_flow_rows cp !! Z.to_nat lfid = Some r.

(** Row [r] in slot [lfid] of card [id] is flow [f]'s: its TX row, or the RX
    row of a measured flow that crosses cards. *)
Definition row_of (f : pw_flow) (id lfid : Z) (r : pwfpga_flow_config) : Prop :=
  exists tx rx, pw_config_resolve_port cfg (f_tx_global_port f) = Ok tx /\
    pw_config_resolve_port cfg (f_rx_global_port f) = Ok rx /\
    (id = pr_card_id tx /\
       r = tx_row f (pr_local_port_id tx) lfid (pr_card_id tx =? pr_card_id rx) \/
     id = pr_card_id rx /\ pr_card_id tx <> pr_card_id rx /\ f_background f = false /\
       r = set_run_fields (tx_row f (pr_local_port_id tx) lfid false) lfid
             (pr_local_port_id rx) 0 1).

(** Slot [lfid] of [cp] is where flow [f] is checked on reception. *)
Definition rx_slot (f : pw_flow) (lfid : Z) (cp : pw_card_program) : Prop :=
  f_background f = false /\
  exists rx r, pw_config_resolve_port cfg (f_rx_global_port f) = Ok rx /\
    cp_card_id cp = pr_card_id rx /\ slot cp lfid r /\
    fc_global_flow_id r = f_id f /\ fc_rx_check_enable r = 1.

(** The classification entry of flow [f] for slot [lfid]. *)
Definition classified (f : pw_flow) (lfid : Z) (cp : pw_card_program) : Prop :=
  if f_classify_header f
  then {| he_index := 0; he_key_word := pw_fc_hash_words f; he_local_flow_id := lfid |}
         ∈ cp_hash_entries cp
  else {| me_flow_id := f_id f; me_local_flow_id := lfid |} ∈ cp_map_entries cp.

(** ** The invariant *)

Definition nth_flow (k : nat) (f : pw_flow) : Prop :=
  exists j, (j < k)%nat /\ cfg_flows cfg !! j = Some f.

(** Every row of a card belongs to one of the first [kr] flows, every
    classification entry to one of the first [k]. *)
Record card_orig (kr k : nat) (cp : pw_card_program) : Prop := {
  co_rows : forall i r, cp_flow_rows cp !! i = Some r ->
    exists f, nth_flow kr f /\ row_of f (cp_card_id cp) (Z.of_nat i) r;
  co_map : forall e, e ∈ cp_map_entries cp ->
    exists f, nth_flow k f /\ f_classify_header f = false /\ me_flow_id e = f_id f /\
      rx_slot f (me_local_flow_id e) cp;
  co_hash : forall e, e ∈ cp_hash_entries cp ->
    exists f, nth_flow k f /\ f_classify_header f = true /\
      he_key_word e = pw_fc_hash_words f /\ he_index e = 0 /\
      rx_slot f (he_local_flow_id e) cp;
  co_row_ids : NoDup (fc_global_flow_id <$> cp_flow_rows cp);
  co_map_ids : NoDup (me_flow_id <$> cp_map_entries cp);
  co_hash_slots : NoDup (he_local_flow_id <$> cp_hash_entries cp)
}.

(** Metadata [m] describes flow [f] in program [p]. *)
Definition meta_ok (p : pw_program) (f : pw_flow) (m : pw_flow_meta) : Prop :=
  exists tx rx tx_lfid rx_lfid,
    pw_config_resolve_port cfg (f_tx_global_port f) = Ok tx /\
    pw_config_resolve_port cfg (f_rx_global_port f) = Ok rx /\
    m = flow_meta_of f tx rx tx_lfid rx_lfid /\
    on_card p (pr_card_id tx) (fun cp => slot cp tx_lfid
      (tx_row f (pr_local_port_id tx) tx_lfid (pr_card_id tx =? pr_card_id rx))) /\
    (f_background f = false ->
       on_card p (pr_card_id rx) (fun cp => rx_slot f rx_lfid cp /\ classified f rx_lfid cp)).

Record flows_inv (k : nat) (p : pw_program) : Prop := {
  fi_ids : card_ids p = card_id <$> cfg_cards cfg;
  fi_len : length (p_flow_meta p) = length (cfg_flows cfg);
  fi_rows : Forall rows_inv (p_per_card p);
  fi_orig : Forall (card_orig k k) (p_per_card p);
  fi_fc : Forall (fun cp => cp_fc_cmps cp = [] /\ cp_fc_udfs cp = [] /\ cp_fc_rules cp = [])
            (p_per_card p);
  fi_meta : forall j f, (j < k)%nat -> cfg_flows cfg !! j = Some f ->
    exists m, p_flow_meta p !! j = Some m /\ meta_ok p f m
}.

(** ** Stability under growth *)

Lemma slot_le cp cp' lfid r : card_le cp cp' -> slot cp lfid r -> slot cp' lfid r.
Proof.
  intros Hle [H0 H]. split; [done|]. eapply prefix_lookup_Some; [done|apply Hle].
Qed.

Lemma rx_slot_le f lfid cp cp' : card_le cp cp' -> rx_slot f lfid cp -> rx_slot f lfid cp'.
Proof.
  intros Hle (Hb & rx & r & Hrx & Hid & Hs & Hr). split; [done|]. exists rx, r.
  split_and!; try done; [by rewrite <- (le_id _ _ Hle)|by eapply slot_le|apply Hr..].
Qed.

Lemma elem_of_prefix {A} (l k : list A) x : l `prefix_of` k -> x ∈ l -> x ∈ k.
Proof. intros [t ->]. set_solver. Qed.

Lemma classified_le f lfid cp cp' :
  card_le cp cp' -> classified f lfid cp -> classified f lfid cp'.
Proof.
  intros Hle. unfold classified.
  destruct (f_classify_header f); apply elem_of_prefix; apply Hle.
Qed.

Lemma meta_ok_le p q f m : prog_le p q -> meta_ok p f m -> meta_ok q f m.
Proof.
  intros Hle (tx & rx & tl & rl & Htx & Hrx & -> & Ht & Hr).
  exists tx, rx, tl, rl. split_and!; try done.
  - revert Ht. apply on_card_le; [done|]. intros a b. apply slot_le.
  - intros Hb. specialize (Hr Hb). revert Hr. apply on_card_le; [done|].
    intros a b Hab [H1 H2]. split; [by eapply rx_slot_le|by eapply classified_le].
Qed.

Lemma nth_flow_mono k k' f : (k <= k')%nat -> nth_flow k f -> nth_flow k' f.
Proof. intros ? (j & ? & ?). exists j. split; [lia|done]. Qed.

Lemma card_orig_mono kr kr' k k' cp :
  (kr <= kr')%nat -> (k <= k')%nat -> card_orig kr k cp -> card_orig kr' k' cp.
Proof.
  intros ?? [H1 H2 H3 H4 H5 H6]. split; try done.
  - intros i r Hi. destruct (H1 i r Hi) as (f & ? & ?). eauto using nth_flow_mono.
  - intros e He. destruct (H2 e He) as (f & ? & ?). eauto using nth_flow_mono.
  - intros e He. destruct (H3 e He) as (f & ? & ?). eauto using nth_flow_mono.
Qed.

(** ** Appending a row *)

Lemma append_flow_le cp r : card_le cp (append_flow cp r).
Proof. split; simpl; try done. by apply prefix_app_r. Qed.

Lemma append_flow_slot cp r lfid :
  lfid = n_rows cp -> slot (append_flow cp r) lfid r.
Proof.
  intros ->. unfold n_rows. split; [lia|]. simpl. by rewrite Nat2Z.id, list_lookup_middle.
Qed.

Lemma append_flow_rows cp r :
  rows_inv cp -> n_rows cp < PWFPGA_FLOW_TABLE_ROWS -> fc_local_flow_id r = n_rows cp ->
  rows_inv (append_flow cp r).
Proof.
  intros [H1 H2 H3 H4 H5] Hlt Hl.
  assert (n_rows (append_flow cp r) = n_rows cp + 1) as Hn.
  { unfold n_rows. simpl. rewrite length_app. simpl. lia. }
  split; rewrite ?Hn; simpl; try done.
  - lia.
  - intros i r' [Hi|(-> & Hi)]%lookup_snoc_Some; [by apply H2; destruct Hi|].
    subst r'. done.
  - intros e He. specialize (H3 e He). lia.
  - intros e He. destruct (H5 e He). split; [lia|done].
Qed.

(** A flow not among the first [k] has none of their ids. *)
Lemma nth_flow_fresh k f f' :
  NoDup (f_id <$> cfg_flows cfg) -> cfg_flows cfg !! k = Some f -> nth_flow k f' ->
  f_id f' <> f_id f.
Proof.
  intros Hnd Hf (j & Hj & Hf') Heq. enough (j = k) by lia.
  eapply NoDup_lookup; [exact Hnd|..]; rewrite list_lookup_fmap;
    [by rewrite Hf'|by rewrite Hf, Heq].
Qed.

Lemma NoDup_snoc_f {A B} (g : A -> B) (l : list A) x :
  NoDup (g <$> l) -> (forall y, y ∈ l -> g y <> g x) -> NoDup (g <$> l ++ [x]).
Proof.
  intros Hnd Hx. rewrite fmap_app. apply NoDup_app. split_and!; [done| |apply NoDup_singleton].
  intros b (y & -> & Hy)%list_elem_of_fmap Hb. apply list_elem_of_singleton in Hb.
  by apply (Hx y).
Qed.

(** The slot fields of a TX row. *)
Lemma tx_row_fields f port lfid same :
  fc_local_flow_id (tx_row f port lfid same) = lfid /\
  fc_egress_local_port (tx_row f port lfid same) = port /\
  fc_global_flow_id (tx_row f port lfid same) = f_id f /\
  fc_tx_enable (tx_row f port lfid same) = 1 /\
  fc_rx_check_enable (tx_row f port lfid same) = b2z (same && negb (f_background f)).
Proof. unfold tx_row. by destruct (frame_lens (f_traffic f)) as [[??]?]. Qed.

(** The RX row does not depend on the TX slot. *)
Lemma rx_row_slot f port lfid lfid' same same' l e t c :
  set_run_fields (tx_row f port lfid same) l e t c =
  set_run_fields (tx_row f port lfid' same') l e t c.
Proof. unfold tx_row. by destruct (frame_lens (f_traffic f)) as [[??]?]. Qed.

Lemma row_of_id f id l r : row_of f id l r -> fc_global_flow_id r = f_id f.
Proof. intros (tx & rx & _ & _ & [[_ ->]|(_ & _ & _ & ->)]); apply tx_row_fields. Qed.

Lemma append_flow_orig k f cp r :
  NoDup (f_id <$> cfg_flows cfg) -> cfg_flows cfg !! k = Some f ->
  card_orig k k cp -> row_of f (cp_card_id cp) (n_rows cp) r ->
  card_orig (S k) k (append_flow cp r).
Proof.
  intros Hnd Hf Ho Hr. pose proof (append_flow_le cp r) as Hle.
  destruct Ho as [H1 H2 H3 H4 H5 H6]. split; simpl; try done.
  - intros i r' [Hi|(-> & <-)]%lookup_snoc_Some.
    + destruct Hi as [_ Hi]. destruct (H1 i r' Hi) as (f' & ? & ?). exists f'.
      split; [|done]. eapply nth_flow_mono; [|done]. lia.
    + exists f. split; [|done]. exists k. split; [lia|done].
  - intros e He. destruct (H2 e He) as (f' & ? & ? & ? & ?). exists f'.
    split_and!; eauto using rx_slot_le.
  - intros e He. destruct (H3 e He) as (f' & ? & ? & ? & ? & ?). exists f'.
    split_and!; eauto using rx_slot_le.
  - apply NoDup_snoc_f; [done|]. intros r' [i Hi]%list_elem_of_lookup.
    destruct (H1 i r' Hi) as (f' & Hf' & Hr').
    rewrite (row_of_id _ _ _ _ Hr), (row_of_id _ _ _ _ Hr'). by eapply nth_flow_fresh.
Qed.

(** ** Adding the classification entry *)

Lemma pw_fc_hash_words_length f : length (pw_fc_hash_words f) = 11%nat.
Proof.
  unfold pw_fc_hash_words, pw_fc_l3_words.
  repeat case_match; reflexivity.
Qed.

Lemma rx_slot_bound f lfid cp : rx_slot f lfid cp -> 0 <= lfid < n_rows cp.
Proof.
  intros (_ & rx & r & _ & _ & [H0 Hs%lookup_lt_Some] & _). unfold n_rows. lia.
Qed.

Lemma rx_slot_flow f f' lfid cp :
  rx_slot f lfid cp -> rx_slot f' lfid cp -> f_id f = f_id f'.
Proof.
  intros (_ & rx & r & _ & _ & [_ Hs] & <- & _) (_ & rx' & r' & _ & _ & [_ Hs'] & <- & _).
  congruence.
Qed.

(** A flow has at most one check slot on a card. *)
Lemma rx_slot_unique kr k f l l' cp :
  card_orig kr k cp -> rx_slot f l cp -> rx_slot f l' cp -> l = l'.
Proof.
  intros Ho (_ & rx & r & _ & _ & [H0 Hs] & Hg & _) (_ & rx' & r' & _ & _ & [H0' Hs'] & Hg' & _).
  enough (Z.to_nat l = Z.to_nat l') by lia.
  eapply NoDup_lookup; [apply Ho|..]; rewrite list_lookup_fmap;
    [by rewrite Hs|rewrite Hs'; simpl; congruence].
Qed.

(** What [classify_rx] does to the card of the RX slot. *)
Record classify_done (k : nat) (f : pw_flow) (lfid : Z) (cp cp' : pw_card_program) : Prop := {
  cd_le : card_le cp cp';
  cd_rows : rows_inv cp';
  cd_orig : card_orig (S k) (S k) cp';
  cd_fc : cp_fc_cmps cp' = cp_fc_cmps cp /\ cp_fc_udfs cp' = cp_fc_udfs cp /\
          cp_fc_rules cp' = cp_fc_rules cp;
  cd_entry : classified f lfid cp'
}.

Lemma classify_rx_done k f lfid cp cp' :
  NoDup (f_id <$> cfg_flows cfg) -> cfg_flows cfg !! k = Some f ->
  rows_inv cp -> card_orig (S k) k cp -> rx_slot f lfid cp ->
  classify_rx cp f lfid = Ok cp' -> classify_done k f lfid cp cp'.
Proof.
  intros Hnd Hk Hri Ho Hrx Hc. pose proof (rx_slot_bound _ _ _ Hrx) as Hlt.
  assert (nth_flow (S k) f) as Hkf by (exists k; split; [lia|done]).
  assert (Hmono : forall f', nth_flow k f' -> nth_flow (S k) f')
    by (intros; eapply nth_flow_mono; [|done]; lia).
  destruct Hri as [R1 R2 R3 R4 R5], Ho as [O1 O2 O3 Or O4 O5].
  unfold classify_rx, compile_header_classify, append_hash_entry in Hc.
  destruct (f_classify_header f) eqn:Hh.
  - destruct (Z.leb_spec PWFPGA_HASH_DEPTH (Z.of_nat (length (cp_hash_entries cp)))); [done|].
    mon. assert (card_le cp (set_hash cp (cp_hash_seed cp) (cp_hash_mask cp)
      (cp_hash_entries cp ++ [{| he_index := 0; he_key_word := pw_fc_hash_words f;
                                 he_local_flow_id := lfid |}]))) as Hle.
    { split; simpl; try done. by apply prefix_app_r. }
    split; [done| | |done|unfold classified; rewrite Hh; simpl; set_solver].
    + split; simpl; try done; [rewrite length_app; simpl; lia|].
      intros e [He| ->%list_elem_of_singleton]%elem_of_app; [by apply R5|].
      split; [done|apply pw_fc_hash_words_length].
    + split; simpl; try done.
      * intros e (f' & ? & ? & ? & ?)%O2. exists f'. split_and!; eauto using rx_slot_le.
      * intros e [(f' & ? & ? & ? & ? & ?)%O3| ->%list_elem_of_singleton]%elem_of_app.
        -- exists f'. split_and!; eauto using rx_slot_le.
        -- exists f. split_and!; eauto using rx_slot_le.
      * apply NoDup_snoc_f; [done|]. simpl. intros e (f' & Hf' & _ & _ & _ & Hs)%O3 Heq.
        rewrite Heq in Hs. by eapply nth_flow_fresh, rx_slot_flow.
  - mon. assert (card_le cp (append_map cp (f_id f) lfid)) as Hle.
    { split; simpl; try done. by apply prefix_app_r. }
    apply Z.leb_gt in H. split; [done| | |done|unfold classified; rewrite Hh; simpl; set_solver].
    + split; simpl; try done.
      intros e [He| ->%list_elem_of_singleton]%elem_of_app; [by apply R3|done].
    + split; simpl; try done.
      * intros e [(f' & ? & ? & ? & ?)%O2| ->%list_elem_of_singleton]%elem_of_app.
        -- exists f'. split_and!; eauto using rx_slot_le.
        -- exists f. split_and!; eauto using rx_slot_le.
      * intros e (f' & ? & ? & ? & ? & ?)%O3. exists f'. split_and!; eauto using rx_slot_le.
      * apply NoDup_snoc_f; [done|]. simpl. intros e (f' & Hf' & _ & -> & _)%O2.
        by eapply nth_flow_fresh.
Qed.

(** ** One flow *)

(** The card half of [flows_inv], with the rows ahead of the entries. *)
Record cards_inv (kr k : nat) (p : pw_program) : Prop := {
  ca_ids : card_ids p = card_id <$> cfg_cards cfg;
  ca_rows : Forall rows_inv (p_per_card p);
  ca_orig : Forall (card_orig kr k) (p_per_card p);
  ca_fc : Forall (fun cp => cp_fc_cmps cp = [] /\ cp_fc_udfs cp = [] /\ cp_fc_rules cp = [])
            (p_per_card p)
}.

Lemma cards_inv_set kr k kr' k' p i cp cp' :
  cards_inv kr k p -> (kr <= kr')%nat -> (k <= k')%nat -> p_per_card p !! i = Some cp ->
  card_le cp cp' -> rows_inv cp' -> card_orig kr' k' cp' ->
  cp_fc_cmps cp' = cp_fc_cmps cp /\ cp_fc_udfs cp' = cp_fc_udfs cp /\
    cp_fc_rules cp' = cp_fc_rules cp ->
  cards_inv kr' k' (set_card p i cp').
Proof.
  intros [H1 H2 H3 H4] ?? Hi Hle Hr Ho (E1 & E2 & E3). split.
  - rewrite <- H1. symmetry. by eapply card_ids_le, set_card_le.
  - by apply set_card_forall.
  - apply set_card_forall; [|done]. eapply Forall_impl; [exact H3|].
    intros c. by apply card_orig_mono.
  - apply set_card_forall; [done|]. rewrite E1, E2, E3. by eapply Forall_lookup_1 in H4.
Qed.

Lemma cards_inv_mono kr k kr' k' p :
  (kr <= kr')%nat -> (k <= k')%nat -> cards_inv kr k p -> cards_inv kr' k' p.
Proof.
  intros ?? [H1 H2 H3 H4]. split; try done. eapply Forall_impl; [exact H3|].
  intros c. by apply card_orig_mono.
Qed.

(** Appending flow [f]'s row to a card that has none of its rows yet. *)
Lemma append_row_step kr k p i cp f r :
  NoDup (f_id <$> cfg_flows cfg) -> cfg_flows cfg !! k = Some f ->
  cards_inv kr k p -> (kr <= S k)%nat -> p_per_card p !! i = Some cp -> card_orig k k cp ->
  n_rows cp < PWFPGA_FLOW_TABLE_ROWS ->
  row_of f (cp_card_id cp) (n_rows cp) r -> fc_local_flow_id r = n_rows cp ->
  cards_inv (S k) k (set_card p i (append_flow cp r)) /\
  prog_le p (set_card p i (append_flow cp r)).
Proof.
  intros Hnd Hf Hc Hk Hi Ho Hlt Hr Hl.
  assert (rows_inv cp) by (destruct Hc as [_ H _ _]; by eapply Forall_lookup_1 in H).
  split; [|eapply set_card_le; [done|apply append_flow_le]].
  eapply cards_inv_set; [exact Hc|lia|lia|done|apply append_flow_le| | |done].
  - by apply append_flow_rows.
  - by eapply append_flow_orig.
Qed.

Lemma cards_orig_at kr k p i cp :
  cards_inv kr k p -> p_per_card p !! i = Some cp -> card_orig kr k cp.
Proof. intros [_ _ H _] Hi. by eapply Forall_lookup_1 in H. Qed.

Lemma n_rows_u32 cp : n_rows cp < PWFPGA_FLOW_TABLE_ROWS -> u32 (n_rows cp) = n_rows cp.
Proof.
  intros H. apply u32_id. rewrite flow_table_rows_64 in H. unfold n_rows, is_w in *. lia.
Qed.

(** Everything one flow does to the program. *)
Record flow_step (k : nat) (f : pw_flow) (out out' : pw_program) : Prop := {
  fs_le : prog_le out out';
  fs_cards : cards_inv (S k) (S k) out';
  fs_meta : exists m, p_flow_meta out' = <[k := m]> (p_flow_meta out) /\ meta_ok out' f m
}.

(** The classification half of a measured flow, on a program that already has
    its rows. *)
Lemma classify_step k f out0 out ri cp tx rx tx_lfid rx_lfid cp' :
  NoDup (f_id <$> cfg_flows cfg) -> cfg_flows cfg !! k = Some f ->
  pw_config_resolve_port cfg (f_tx_global_port f) = Ok tx ->
  pw_config_resolve_port cfg (f_rx_global_port f) = Ok rx ->
  prog_le out0 out -> cards_inv (S k) k out ->
  on_card out (pr_card_id tx) (fun c => slot c tx_lfid
    (tx_row f (pr_local_port_id tx) tx_lfid (pr_card_id tx =? pr_card_id rx))) ->
  p_per_card out !! ri = Some cp -> rx_slot f rx_lfid cp ->
  p_flow_meta out = <[k := flow_meta_of f tx rx tx_lfid rx_lfid]> (p_flow_meta out0) ->
  classify_rx cp f rx_lfid = Ok cp' ->
  flow_step k f out0 (set_card out ri cp').
Proof.
  intros Hnd Hf Htx Hrx Hle Hc Ht Hri Hs Hm Hcl.
  assert (rows_inv cp) as Hr by (destruct Hc as [_ H _ _]; by eapply Forall_lookup_1 in H).
  assert (card_orig (S k) k cp) as Ho
    by (destruct Hc as [_ _ H' _]; by eapply Forall_lookup_1 in H').
  destruct (classify_rx_done k f rx_lfid cp cp') as [Dle Drows Dorig Dfc Dentry]; try done.
  assert (prog_le out (set_card out ri cp')) as Hle' by (by eapply set_card_le).
  split; [by etrans| |].
  - eapply cards_inv_set; [exact Hc|lia|lia|done..].
  - exists (flow_meta_of f tx rx tx_lfid rx_lfid). split; [done|].
    exists tx, rx, tx_lfid, rx_lfid. split_and!; try done.
    + revert Ht. apply on_card_le; [done|]. intros a b. apply slot_le.
    + intros _. exists ri, cp'. split_and!; [by eapply set_card_at| |by eapply rx_slot_le|done].
      destruct Hs as (_ & rx' & r & Hrx' & Hid & ?). rewrite <- (le_id _ _ Dle). congruence.
Qed.

Lemma card_slot_ne p i j id id' :
  card_slot p id = Some i -> card_slot p id' = Some j -> id <> id' -> i <> j.
Proof.
  intros (cp & Hi & <- & _)%card_slot_some (cp' & Hj & <- & _)%card_slot_some Hne ->. congruence.
Qed.

Lemma card_at_set p i j cp cp' : p_per_card p !! i = Some cp ->
  card_at (set_card p i cp') j = if decide (i = j) then cp' else card_at p j.
Proof.
  intros Hi. unfold card_at, set_card. simpl. destruct (decide (i = j)) as [<-|Hne].
  - by rewrite list_lookup_insert_eq by (by eapply lookup_lt_Some).
  - by rewrite list_lookup_insert_ne.
Qed.

(** Setting the metadata entry touches no card. *)
Lemma cards_inv_meta kr k p i m : cards_inv kr k p -> cards_inv kr k (set_meta p i m).
Proof. intros []. by split. Qed.

Lemma compile_one_flow_step k f out out' :
  NoDup (f_id <$> cfg_flows cfg) -> cfg_flows cfg !! k = Some f ->
  cards_inv k k out -> compile_one_flow out cfg f k = Ok out' -> flow_step k f out out'.
Proof.
  intros Hnd Hf Hc H. unfold compile_one_flow in H.
  apply bind_ok in H as (tx & Htx & H). apply bind_ok in H as (rx & Hrx & H).
  apply bind_ok in H as (ti & Hti%of_option_ok & H).
  apply bind_ok in H as (ri & Hri%of_option_ok & H).
  apply seq_ok in H as [Hcap%fail_if_ok H]. apply seq_ok in H as [Hcap2%fail_if_ok H].
  destruct (card_slot_some _ _ _ Hti) as (cpt & Ht & Hidt & Hat).
  rewrite Hat in *. apply Z.leb_gt in Hcap. rewrite (n_rows_u32 _ Hcap) in H.
  set (same := pr_card_id tx =? pr_card_id rx) in *.
  set (row := tx_row f (pr_local_port_id tx) (n_rows cpt) same) in *.
  assert (row_of f (cp_card_id cpt) (n_rows cpt) row) as Hrow.
  { exists tx, rx. split_and!; try done. left. done. }
  destruct (append_row_step k k out ti cpt f row) as [Hc1 Hle1];
    [done..|lia|done|by eapply cards_orig_at|done|done|apply tx_row_fields|].
  set (out1 := set_card out ti (append_flow cpt row)) in *.
  assert (p_per_card out1 !! ti = Some (append_flow cpt row)) as Hat1 by (by eapply set_card_at).
  assert (forall m, on_card (set_meta out1 k m) (pr_card_id tx)
            (fun c => slot c (n_rows cpt) row)) as Hslot.
  { intros m. exists ti, (append_flow cpt row).
    split_and!; [done|done|by apply append_flow_slot]. }
  destruct (f_background f) eqn:Hb.
  - (* TX only *)
    injection H as <-.
    split; [done|apply cards_inv_meta; eapply cards_inv_mono; [..|done]; lia|].
    eexists. split; [done|]. rewrite orb_true_r. exists tx, rx, (n_rows cpt), (n_rows cpt).
    split_and!; try done. by rewrite Hb.
  - destruct same eqn:Hsame; simpl orb in H; cbv iota in H.
    + (* same card: one slot *)
      assert (ri = ti) as -> by (subst same; apply Z.eqb_eq in Hsame; congruence).
      apply bind_ok in H as (cp' & Hcl & H). injection H as <-.
      eapply (classify_step k f out _ ti (append_flow cpt row) tx rx (n_rows cpt) (n_rows cpt));
        [done..|by apply cards_inv_meta| |done| |done|].
      * fold same. rewrite Hsame. apply Hslot.
      * split; [done|]. exists rx, row. split_and!; [done| |by apply append_flow_slot|apply tx_row_fields|].
        -- simpl. rewrite Hidt. subst same. by apply Z.eqb_eq in Hsame.
        -- unfold row. destruct (tx_row_fields f (pr_local_port_id tx) (n_rows cpt) true)
             as (_ & _ & _ & _ & ->). by rewrite Hb.
      * unfold card_at in Hcl. simpl in Hcl, Hat1. by rewrite Hat1 in Hcl.
    + (* cross card: a second slot on the RX card *)
      destruct (card_slot_some _ _ _ Hri) as (cpr & Hr & Hidr & Hatr).
      assert (pr_card_id tx <> pr_card_id rx) as Hne by (by apply Z.eqb_neq).
      assert (ti <> ri) as Hij by (by eapply card_slot_ne).
      simpl in Hcap2. rewrite Hatr in *. apply Z.leb_gt in Hcap2.
      rewrite (n_rows_u32 _ Hcap2) in H.
      assert (p_per_card out1 !! ri = Some cpr) as Hr1
        by (simpl; by rewrite list_lookup_insert_ne).
      apply bind_ok in H as (cp' & Hcl & H). injection H as <-.
      set (m := flow_meta_of _ _ _ _ _) in *.
      set (row' := set_run_fields _ _ _ _ _) in *.
      assert (card_at (set_meta out1 k m) ri = cpr) as Har
        by (unfold card_at; simpl in *; by rewrite Hr1).
      rewrite Har in *.
      destruct (append_row_step (S k) k (set_meta out1 k m) ri cpr f row') as [Hc2 Hle2];
        [done|done|by apply cards_inv_meta|lia|done|by eapply cards_orig_at|done| |done|].
      { exists tx, rx. split_and!; try done. right.
        split_and!; try done. apply rx_row_slot. }
      assert (p_per_card (set_card (set_meta out1 k m) ri (append_flow cpr row')) !! ri
        = Some (append_flow cpr row')) as Hat2 by (by eapply set_card_at).
      eapply (classify_step k f out _ ri (append_flow cpr row') tx rx (n_rows cpt) (n_rows cpr));
        [done..| |done| |done| |done|].
      * etrans; [exact Hle1|]. exact Hle2.
      * fold same. rewrite Hsame. eapply on_card_le; [exact Hle2| |apply Hslot].
        intros a b. apply slot_le.
      * split; [done|]. exists rx, row'.
        split_and!; [done|by simpl|by apply append_flow_slot|apply tx_row_fields|done].
      * unfold card_at in Hcl. by rewrite Hat2 in Hcl.
Qed.

(** ** The loop over the flows *)

Lemma flows_inv_cards k p : flows_inv k p -> cards_inv k k p.
Proof. intros []. by split. Qed.

Lemma flows_inv_new : flows_inv 0 (new_program cfg).
Proof.
  split; simpl.
  - unfold card_ids. simpl. rewrite <- list_fmap_compose. done.
  - apply length_replicate.
  - apply Forall_fmap, Forall_true. intros c. apply rows_inv_new.
  - apply Forall_fmap, Forall_true. intros c.
    split; simpl; intros; first [by inversion 1|set_solver|constructor].
  - by apply Forall_fmap, Forall_true.
  - lia.
Qed.

Lemma flows_inv_step k f out out' :
  cfg_flows cfg !! k = Some f -> flows_inv k out -> flow_step k f out out' ->
  flows_inv (S k) out'.
Proof.
  intros Hf Hi [Hle [C1 C2 C3 C4] (m & Hm & Hok)]. split; try done.
  - rewrite Hm, length_insert. apply Hi.
  - intros j g Hj Hg. destruct (decide (j = k)) as [->|Hne].
    + exists m. rewrite Hm, list_lookup_insert_eq.
      * split; [done|]. by assert (g = f) as -> by congruence.
      * rewrite (fi_len _ _ Hi). by eapply lookup_lt_Some.
    + destruct (fi_meta _ _ Hi j g) as (m' & Hm' & Hok'); [lia|done|].
      exists m'. rewrite Hm, list_lookup_insert_ne by done. split; [done|].
      by eapply meta_ok_le.
Qed.
End Flows.

Lemma with_capacity_diag_ok {A} (r : M A) p m a : with_capacity_diag r p m = Ok a -> r = Ok a.
Proof. unfold with_capacity_diag. destruct r; [done|]. by case_bool_decide. Qed.

Lemma compile_flows_inv cfg out :
  NoDup (f_id <$> cfg_flows cfg) -> compile_flows cfg (new_program cfg) = Ok out ->
  flows_inv cfg (length (cfg_flows cfg)) out.
Proof.
  intros Hnd H. apply (mfold_inv _ (fun k p => flows_inv cfg k p)) in H; [done|apply flows_inv_new|].
  simpl. intros k f p1 p2 Hf Hi Hs%with_capacity_diag_ok.
  eapply flows_inv_step; [done..|]. apply compile_one_flow_step; try done.
  by apply flows_inv_cards.
Qed.
