(* ===== verification/HashPlacement.v ===== *)
(** * The header-classifier hash table

    [pw_flow_compile] gives every card one key mask, one seed and a bucket per
    header-classified flow. The card ([rtl/phase3/pw_hash_classifier.sv]) masks
    the key of a received frame, hashes it to one bucket and compares the stored
    key. [hash_lookup] runs that on a compiled card program; this file shows that
    the seed search yields an injective placement or reports that none of its
    seeds does, and what a lookup then returns. *)

From S2P Require Import Prelude Types Config Validate Csr FlowCompiler CompilerInv.

(** ** The lookup *)

Definition masked (mask k : list Z) : list Z := zip_with Z.land k mask.

(** The direct-indexed table after writing the entries in order. *)
Definition hash_table (es : list pw_fc_hash_entry) : gmap Z (list Z * Z) :=
  fold_left (fun m e => <[he_index e := (he_key_word e, he_local_flow_id e)]> m) es ∅.

Definition hash_lookup (cp : pw_card_program) (k : list Z) : option Z :=
  let mk := masked (cp_hash_mask cp) k in
  match hash_table (cp_hash_entries cp) !! pw_fc_hash_index mk (cp_hash_seed cp) with
  | Some (key, lfid) => if bool_decide (key = mk) then Some lfid else None
  | None => None
  end.

(** ** Index range *)

Lemma hash_index_bound w seed : 0 <= pw_fc_hash_index w seed < PWFPGA_HASH_DEPTH.
Proof.
  unfold pw_fc_hash_index. change (32 - idx_width 32 PWFPGA_HASH_DEPTH) with 25.
  set (p := u32 _). assert (is_u32 p) as Hp by apply u32_w. unfold is_w in Hp.
  assert (0 <= p >>> 25 < 128) as Hs.
  { rewrite Z.shiftr_div_pow2 by lia. split; [apply Z.div_pos; lia|].
    apply Z.div_lt_upper_bound; [lia|]. change (2 ^ 25 * 128) with (2 ^ 32). lia. }
  rewrite u16_id by (unfold is_w; lia). csr. lia.
Qed.

(** ** The seed search *)

(** One attempt succeeds exactly when the keys fall into distinct buckets. *)
Lemma place_keys_some seed keys : forall used idxs,
  place_keys seed used keys = Some idxs <->
  idxs = (fun k => pw_fc_hash_index k seed) <$> keys /\ NoDup idxs /\
  (forall i, i ∈ idxs -> i ∉ used).
Proof.
  induction keys as [|k keys IH]; intros used idxs; cbn [place_keys].
  - split; [intros [= <-]|intros (-> & _)]; split_and?; try done; [constructor|set_solver].
  - rewrite fmap_cons. set (idx := pw_fc_hash_index k seed). case_bool_decide as Hin.
    + split; [done|]. intros (-> & _ & H). exfalso. apply (H idx); set_solver.
    + rewrite bind_Some. split.
      * intros (r & (-> & Hnd & Hu)%IH & [= <-]). split_and!; [done| |].
        -- apply NoDup_cons. split; [|done]. intros Hi. by apply (Hu idx Hi); left.
        -- intros i [->|Hi]%elem_of_cons; [done|]. specialize (Hu i Hi). set_solver.
      * intros (-> & [Hni Hnd]%NoDup_cons & Hu). eexists. split; [|done]. apply IH.
        split_and!; [done..|]. set_solver.
Qed.

Definition injective_seed (seed : Z) (keys : list (list Z)) : Prop :=
  NoDup ((fun k => pw_fc_hash_index k seed) <$> keys).

Lemma place_keys_none seed keys :
  place_keys seed [] keys = None <-> ~ injective_seed seed keys.
Proof.
  unfold injective_seed. split.
  - intros Hn Hnd.
    assert (place_keys seed [] keys = Some ((fun k => pw_fc_hash_index k seed) <$> keys)) as Hs
      by (apply place_keys_some; split_and!; [done..|set_solver]). congruence.
  - intros Hn. destruct (place_keys seed [] keys) as [l|] eqn:E; [|done].
    apply place_keys_some in E as (-> & Hnd & _). done.
Qed.

Lemma seed_search_some n : forall a keys seed idxs,
  seed_search n a keys = Some (seed, idxs) -> place_keys seed [] keys = Some idxs.
Proof.
  induction n as [|n IH]; intros a keys seed idxs; cbn [seed_search]; [done|].
  destruct (place_keys (seed_of a) [] keys) as [l|] eqn:E; [by intros [= <- <-]|apply IH].
Qed.

Lemma seed_search_none n : forall a keys,
  seed_search n a keys = None <->
  forall i, 0 <= i < Z.of_nat n -> ~ injective_seed (seed_of (a + i)) keys.
Proof.
  induction n as [|n IH]; intros a keys; cbn [seed_search]; [split; [lia|done]|].
  destruct (place_keys (seed_of a) [] keys) as [l|] eqn:E.
  - split; [done|]. intros H. exfalso. apply (H 0); [lia|]. rewrite Z.add_0_r.
    apply place_keys_some in E as (-> & Hnd & _). done.
  - rewrite IH. apply place_keys_none in E. split.
    + intros H i Hi. destruct (decide (i = 0)) as [->|Hne]; [by rewrite Z.add_0_r|].
      replace (a + i) with (a + 1 + (i - 1)) by lia. apply H. lia.
    + intros H i Hi. rewrite <- Z.add_assoc. apply H. lia.
Qed.

(** ** The key mask *)

Lemma mask_and_length c w v m : length (mask_and c w v m) = length m.
Proof. unfold mask_and. destruct c; [apply length_alter|done]. Qed.

Lemma relax_mask_length m f : length (pw_fc_relax_mask m f) = length m.
Proof. unfold pw_fc_relax_mask. cbn [fold_left]. by rewrite !mask_and_length. Qed.

Lemma hash_mask_length cfg id : length (hash_mask_of cfg id) = 11%nat.
Proof.
  unfold hash_mask_of. transitivity (length (replicate 11 0xFFFFFFFF)); [|done].
  generalize (replicate 11 0xFFFFFFFF). induction (cfg_flows cfg) as [|f fs IH]; intros m; [done|].
  cbn [fold_left]. rewrite IH. destruct (header_flow_on _ _ _); [apply relax_mask_length|done].
Qed.

(** ** Distinct keys *)

Lemma check_dup_keys_ok id l : forall seen,
  NoDup (he_key_word <$> seen) ->
  check_dup_keys id seen l = Ok tt <-> NoDup (he_key_word <$> seen ++ l).
Proof.
  induction l as [|e l IH]; intros seen Hs; cbn [check_dup_keys].
  - rewrite app_nil_r. done.
  - rewrite seq_ok, for_each_ok. setoid_rewrite fail_if_ok.
    setoid_rewrite bool_decide_eq_false. rewrite (cons_middle e seen l), app_assoc.
    assert ((forall k x, seen !! k = Some x -> he_key_word e <> he_key_word x) <->
            he_key_word e ∉ (he_key_word <$> seen)) as ->.
    { rewrite list_elem_of_fmap. setoid_rewrite list_elem_of_lookup. naive_solver. }
    assert (NoDup (he_key_word <$> seen ++ [e]) <-> he_key_word e ∉ (he_key_word <$> seen)) as Hq.
    { rewrite fmap_app, NoDup_app. simpl. setoid_rewrite list_elem_of_singleton.
      split; [naive_solver|]. intros H. split_and!; [done| |apply NoDup_singleton].
      intros x Hx ->. done. }
    split.
    + intros [H1 H2]. by apply IH in H2; [|apply Hq].
    + intros H. assert (NoDup (he_key_word <$> seen ++ [e])) as H'
        by (rewrite fmap_app in H; by apply NoDup_app in H as [? _]).
      split; [by apply Hq|]. by apply IH.
Qed.

(** ** The placed table *)

(** Entry [e] placed with this mask and seed. *)
Record entry_placed (mask : list Z) (seed : Z) (e e' : pw_fc_hash_entry) : Prop := {
  ep_key : he_key_word e' = masked mask (he_key_word e);
  ep_lfid : he_local_flow_id e' = he_local_flow_id e;
  ep_index : he_index e' = pw_fc_hash_index (he_key_word e') seed
}.

Record card_placed (cfg : pw_config) (cp cp' : pw_card_program) : Prop := {
  pl_same : cp' = set_hash cp (cp_hash_seed cp') (cp_hash_mask cp') (cp_hash_entries cp');
  pl_mask : cp_hash_entries cp <> [] -> cp_hash_mask cp' = hash_mask_of cfg (cp_card_id cp);
  pl_entries : Forall2 (entry_placed (cp_hash_mask cp') (cp_hash_seed cp'))
                 (cp_hash_entries cp) (cp_hash_entries cp');
  pl_keys : NoDup (he_key_word <$> cp_hash_entries cp');
  pl_indices : NoDup (he_index <$> cp_hash_entries cp')
}.

Lemma set_index_keys es idxs : length es = length idxs ->
  he_key_word <$> zip_with set_index es idxs = he_key_word <$> es.
Proof.
  revert idxs. induction es as [|e es IH]; intros [|i idxs] Hl; simplify_eq/=; [done..|].
  f_equal. by apply IH.
Qed.

Lemma set_index_indices es idxs : length es = length idxs ->
  he_index <$> zip_with set_index es idxs = idxs.
Proof.
  revert idxs. induction es as [|e es IH]; intros [|i idxs] Hl; simplify_eq/=; [done..|].
  f_equal. by apply IH.
Qed.

Lemma place_card_ok cfg cp cp' : place_card cfg cp = Ok cp' -> card_placed cfg cp cp'.
Proof.
  unfold place_card. destruct (cp_hash_entries cp) as [|e0 es0] eqn:He.
  - intros [= <-]. split; [by destruct cp|..]; rewrite ?He; [done|constructor..].
  - rewrite <- He. clear He e0 es0. set (es := cp_hash_entries cp). intros H.
    apply seq_ok in H as [Hd H]. apply bind_ok in H as ([seed idxs] & Hs & H).
    apply of_option_ok, seed_search_some, place_keys_some in Hs as (Hi & Hnd & _).
    injection H as <-. set (mask := hash_mask_of cfg (cp_card_id cp)) in *.
    apply check_dup_keys_ok in Hd; [|constructor]. simpl in Hd.
    set (es1 := apply_mask mask <$> es) in *.
    assert (length es1 = length idxs) as Hlen by (by rewrite Hi, !length_fmap).
    split; simpl; [done..| | |].
    + apply Forall2_same_length_lookup_2.
      { rewrite length_zip_with, <- Hlen, Nat.min_id. unfold es1. by rewrite length_fmap. }
      intros j e e' Hj Hj'. rewrite lookup_zip_with in Hj'. subst idxs. unfold es1 in Hj'.
      fold es in Hj. rewrite !list_lookup_fmap, Hj in Hj'. simpl in Hj'.
      injection Hj' as <-. by split.
    + by rewrite set_index_keys.
    + by rewrite set_index_indices.
Qed.

(** With distinct buckets the table holds exactly the entries. *)
Lemma hash_table_lookup es i k l : NoDup (he_index <$> es) ->
  hash_table es !! i = Some (k, l) <->
  exists e, e ∈ es /\ he_index e = i /\ he_key_word e = k /\ he_local_flow_id e = l.
Proof.
  induction es as [|e es IH] using rev_ind; intros Hnd.
  - unfold hash_table. simpl. rewrite lookup_empty. split; [done|]. set_solver.
  - unfold hash_table in *. rewrite fold_left_app. cbn [fold_left].
    rewrite fmap_app in Hnd. apply NoDup_app in Hnd as (Hnd & Hd & _).
    specialize (IH Hnd). destruct (decide (he_index e = i)) as [<-|Hne].
    + rewrite lookup_insert_eq. split.
      * intros [= <- <-]. exists e. set_solver.
      * intros (e' & [He| ->%list_elem_of_singleton]%elem_of_app & Hi & <- & <-); [|done].
        exfalso. apply (Hd (he_index e')); [by apply list_elem_of_fmap_2|]. rewrite Hi. set_solver.
    + rewrite lookup_insert_ne, IH by done. split.
      * intros (e' & ? & ?). exists e'. set_solver.
      * intros (e' & [He| ->%list_elem_of_singleton]%elem_of_app & Hi & ?); [|done].
        by exists e'.
Qed.

(** A lookup finds exactly the entry whose stored key is the masked frame key. *)
Lemma hash_lookup_entry cfg cp0 cp k l : card_placed cfg cp0 cp ->
  hash_lookup cp k = Some l <->
  exists e, e ∈ cp_hash_entries cp0 /\ he_local_flow_id e = l /\
    masked (cp_hash_mask cp) (he_key_word e) = masked (cp_hash_mask cp) k.
Proof.
  intros [_ _ He Hk Hi]. unfold hash_lookup.
  set (mk := masked (cp_hash_mask cp) k).
  trans (exists e', e' ∈ cp_hash_entries cp /\ he_local_flow_id e' = l /\ he_key_word e' = mk).
  - split.
    + destruct (hash_table _ !! _) as [[k' l']|] eqn:E; [|done].
      case_bool_decide; [|done]. intros [= <-]. subst k'.
      apply hash_table_lookup in E as (e & ? & ? & ? & ?); [|done]. by exists e.
    + intros (e' & Hin & <- & Hke).
      assert (he_index e' = pw_fc_hash_index mk (cp_hash_seed cp)) as Hix.
      { apply list_elem_of_lookup in Hin as [j Hj].
        eapply Forall2_lookup_r in He as (e & _ & [_ _ ->]); [|done]. by rewrite Hke. }
      assert (hash_table (cp_hash_entries cp) !! pw_fc_hash_index mk (cp_hash_seed cp)
              = Some (mk, he_local_flow_id e')) as -> by (apply hash_table_lookup; eauto).
      by rewrite bool_decide_eq_true_2.
  - split.
    + intros (e' & [j Hj]%list_elem_of_lookup & <- & Hke).
      eapply Forall2_lookup_r in He as (e & Hje & [Hk' Hl' _]); [|done]. exists e.
      split_and!; [apply list_elem_of_lookup; eauto|done|congruence].
    + intros (e & [j Hj]%list_elem_of_lookup & <- & Hke).
      eapply Forall2_lookup_l in He as (e' & Hje & [Hk' Hl' _]); [|done]. exists e'.
      split_and!; [apply list_elem_of_lookup; eauto|done|congruence].
Qed.
