(* ===== verification/CompilerProps.v ===== *)
(** * Correctness of the flow compiler

    The theorems about [pw_flow_compile] as a whole: capacities and slot
    numbering of every card program, ownership of slots by flows, the meaning of
    the metadata table, of the flow-id map, of the hash table and of the punt and
    forward rules, and the errors a valid configuration can meet. *)

From S2P Require Import Prelude Types Config Validate Csr FlowCompiler CompilerInv FieldClassifier.
From S2P Require Import CompilerFlows HashPlacement Samples.

(** ** The stages together *)

Lemma only_fc_rows_inv cp cp' : only_fc cp cp' -> rows_inv cp -> rows_inv cp'.
Proof. intros -> []. by split. Qed.

Lemma only_fc_orig cfg kr k cp cp' : only_fc cp cp' -> card_orig cfg kr k cp -> card_orig cfg kr k cp'.
Proof. intros -> []. by split. Qed.

(** What the stages leave on each card: [cp0] before, [cp] after placement. *)
Record card_stage (cfg : pw_config) (cp0 cp : pw_card_program) : Prop := {
  st_rows : rows_inv cp0;
  st_orig : card_orig cfg (length (cfg_flows cfg)) (length (cfg_flows cfg)) cp0;
  st_rules : rules_ok cp0 (field_rules cfg (cp_card_id cp0));
  st_placed : card_placed cfg cp0 cp
}.

Record compiled (cfg : pw_config) (p : pw_program) : Prop := {
  cm_valid : valid_config cfg;
  cm_ids : card_ids p = card_id <$> cfg_cards cfg;
  cm_len : length (p_flow_meta p) = length (cfg_flows cfg);
  cm_stage : exists p0, Forall2 (card_stage cfg) (p_per_card p0) (p_per_card p) /\
    forall j f, cfg_flows cfg !! j = Some f ->
      exists m, p_flow_meta p !! j = Some m /\ meta_ok cfg p0 f m
}.

Lemma place_cards_ok cfg out p : place_cards cfg out = Ok p ->
  Forall2 (card_placed cfg) (p_per_card out) (p_per_card p) /\ p_flow_meta p = p_flow_meta out.
Proof.
  unfold place_cards. intros H. mon. simpl. split; [|done].
  apply (mfold_inv _ (fun i cs => Forall2 (card_placed cfg) (take i (p_per_card out)) cs)) in H.
  - simpl in H. by rewrite take_ge in H.
  - constructor.
  - simpl. intros k cp cs cs' Hk Hcs Hs. mon. erewrite take_S_r by done.
    apply Forall2_app; [done|]. constructor; [by apply place_card_ok|constructor].
Qed.

Lemma only_fc_forall (P : pw_card_program -> Prop) p q :
  (forall a b, only_fc a b -> P a -> P b) ->
  Forall2 only_fc (p_per_card p) (p_per_card q) -> Forall P (p_per_card p) ->
  Forall P (p_per_card q).
Proof.
  intros HP H2 H1. rewrite Forall_lookup in *. intros i b Hb.
  eapply Forall2_lookup_r in H2 as (a & Ha & ?); [|done]. eauto.
Qed.

Lemma rules_ok_nil cp :
  cp_fc_cmps cp = [] /\ cp_fc_udfs cp = [] /\ cp_fc_rules cp = [] -> rules_ok cp [].
Proof.
  intros (H1 & H2 & H3). split; [split; rewrite ?H1, ?H2; simpl; csr; lia| |];
    rewrite H3; [simpl; csr; lia|constructor].
Qed.

(** The program before hash placement. *)
Record unplaced (cfg : pw_config) (p : pw_program) : Prop := {
  up_ids : card_ids p = card_id <$> cfg_cards cfg;
  up_len : length (p_flow_meta p) = length (cfg_flows cfg);
  up_rows : Forall rows_inv (p_per_card p);
  up_orig : Forall (card_orig cfg (length (cfg_flows cfg)) (length (cfg_flows cfg))) (p_per_card p);
  up_meta : forall j f, cfg_flows cfg !! j = Some f ->
    exists m, p_flow_meta p !! j = Some m /\ meta_ok cfg p f m
}.

Lemma unplaced_flows cfg p : flows_inv cfg (length (cfg_flows cfg)) p -> unplaced cfg p.
Proof.
  intros [I1 I2 I3 I4 I5 I6]. split; try done. intros j f Hj. apply I6; [|done].
  by eapply lookup_lt_Some.
Qed.

Lemma unplaced_step cfg p q R : unplaced cfg p -> rules_step p q R -> unplaced cfg q.
Proof.
  intros [U1 U2 U3 U4 U5] [L M F _]. split.
  - by rewrite <- (card_ids_le _ _ L).
  - by rewrite M.
  - eapply only_fc_forall; [apply only_fc_rows_inv|done..].
  - eapply only_fc_forall; [apply only_fc_orig|done..].
  - intros j f Hj. destruct (U5 j f Hj) as (m & Hm & Hok). exists m. rewrite M.
    split; [done|]. by eapply meta_ok_le.
Qed.

Lemma flows_stage cfg o1 :
  valid_config cfg -> compile_flows cfg (new_program cfg) = Ok o1 ->
  unplaced cfg o1 /\ prog_rules (fun _ => []) o1.
Proof.
  intros Hv H1. apply compile_flows_inv in H1; [|apply Hv].
  split; [by apply unplaced_flows|]. eapply Forall_impl; [apply (fi_fc _ _ _ H1)|].
  intros cp. apply rules_ok_nil.
Qed.

Lemma punts_stage cfg o1 o2 :
  valid_config cfg -> unplaced cfg o1 -> prog_rules (fun _ => []) o1 ->
  compile_punt_rules o1 cfg = Ok o2 ->
  unplaced cfg o2 /\ prog_rules (fun id => cfg_logical_if cfg ≫= lif_rules cfg id) o2.
Proof.
  intros Hv U1 R1 H2. assert (NoDup (card_ids o1)) as Hnd by (rewrite (up_ids _ _ U1); apply Hv).
  eapply rules_loop in H2 as HS; [|intros; by apply compile_punt_lif_ok|done..].
  split; [by eapply unplaced_step|apply HS].
Qed.

Lemma forwards_stage cfg o2 o3 :
  valid_config cfg -> unplaced cfg o2 ->
  prog_rules (fun id => cfg_logical_if cfg ≫= lif_rules cfg id) o2 ->
  compile_forward_rules o2 cfg = Ok o3 ->
  unplaced cfg o3 /\ prog_rules (field_rules cfg) o3.
Proof.
  intros Hv U2 R2 H3. assert (NoDup (card_ids o2)) as Hnd by (rewrite (up_ids _ _ U2); apply Hv).
  eapply rules_loop in H3 as HS; [|intros; by apply compile_forward_ok|done..].
  split; [by eapply unplaced_step|apply HS].
Qed.

Lemma pw_flow_compile_compiled cfg p : pw_flow_compile cfg = Ok p -> compiled cfg p.
Proof.
  unfold pw_flow_compile. intros H. apply seq_ok in H as [Hv%validate_ok_valid H].
  apply bind_ok in H as (o1 & H1 & H).
  apply bind_ok in H as (o2 & H2%with_capacity_diag_ok & H).
  apply bind_ok in H as (o3 & H3%with_capacity_diag_ok & H).
  apply flows_stage in H1 as [U1 R1]; [|done].
  apply punts_stage in H2 as [U2 R2]; [|done..].
  apply forwards_stage in H3 as [[U3i U3l U3r U3o U3m] R3]; [|done..].
  apply place_cards_ok in H as [Hpl Hm].
  assert (card_ids p = card_ids o3) as Hids.
  { unfold card_ids. clear -Hpl. induction Hpl as [|a b l k Hab _ IH]; [done|].
    rewrite !fmap_cons, IH. f_equal. by rewrite (pl_same _ _ _ Hab). }
  split; [done|by rewrite Hids|by rewrite Hm|].
  exists o3. rewrite Hm. split; [|done].
  eapply Forall2_same_length_lookup_2; [by eapply Forall2_length|].
  intros i a b Ha Hb. unfold prog_rules in R3. rewrite Forall_lookup in U3r, U3o, R3.
  rewrite Forall2_lookup in Hpl. specialize (Hpl i). rewrite Ha, Hb in Hpl.
  inversion Hpl; subst. split; [by eapply U3r|by eapply U3o|by eapply R3|done].
Qed.

(** ** Transfer to the placed program *)

Lemma placed_rows_inv cfg cp0 cp : card_placed cfg cp0 cp -> rows_inv cp0 -> rows_inv cp.
Proof.
  intros [Hs Hm He _ _] [H1 H2 H3 H4 H5].
  pose proof (Forall2_length _ _ _ He) as Hl. rewrite Hs. split; simpl; try done.
  - by rewrite <- Hl.
  - intros e' [j Hj]%list_elem_of_lookup.
    eapply Forall2_lookup_r in He as (e & Hje & [Hk Hlf _]); [|done].
    assert (e ∈ cp_hash_entries cp0) as He0 by (apply list_elem_of_lookup; eauto).
    destruct (H5 e He0) as [? Hlen]. rewrite Hlf. split; [done|].
    rewrite Hk, Hm by (intros E; rewrite E in He0; set_solver).
    unfold masked. by rewrite length_zip_with, Hlen, hash_mask_length.
Qed.

Lemma placed_care cfg cp0 cp care : card_placed cfg cp0 cp -> care_refs cp0 care -> care_refs cp care.
Proof. intros [Hs _ _ _ _] H. by rewrite Hs. Qed.

Lemma placed_id cfg cp0 cp : card_placed cfg cp0 cp -> cp_card_id cp = cp_card_id cp0.
Proof. intros [-> _ _ _ _]. done. Qed.

Lemma placed_slot cfg cp0 cp l r : card_placed cfg cp0 cp -> slot cp0 l r <-> slot cp l r.
Proof. intros [Hs _ _ _ _]. rewrite Hs. done. Qed.

Lemma placed_rx_slot cfg cp0 cp f l :
  card_placed cfg cp0 cp -> rx_slot cfg f l cp0 <-> rx_slot cfg f l cp.
Proof. intros [Hs _ _ _ _]. rewrite Hs. done. Qed.

Lemma placed_on_card cfg p0 p id (P Q : pw_card_program -> Prop) :
  Forall2 (card_stage cfg) (p_per_card p0) (p_per_card p) ->
  (forall a b, card_placed cfg a b -> P a -> Q b) -> on_card p0 id P -> on_card p id Q.
Proof.
  intros H2 HP (i & cp0 & Hi & Hid & H). eapply Forall2_lookup_l in H2 as (cp & Hi' & [_ _ _ Hpl]); [|done].
  exists i, cp. split_and!; [done|by rewrite (placed_id _ _ _ Hpl)|by eapply HP].
Qed.

Lemma compiled_card cfg p cp : compiled cfg p -> cp ∈ p_per_card p ->
  exists cp0, card_stage cfg cp0 cp.
Proof.
  intros [_ _ _ (p0 & H & _)] [i Hi]%list_elem_of_lookup.
  destruct (Forall2_lookup_r _ _ _ _ _ H Hi) as (cp0 & _ & ?). by exists cp0.
Qed.

(** Card ids determine the card program. *)
Lemma compiled_card_inj cfg p i j a b : compiled cfg p ->
  p_per_card p !! i = Some a -> p_per_card p !! j = Some b -> cp_card_id a = cp_card_id b -> a = b.
Proof.
  intros [Hv Hids _ _] Hi Hj Heq. assert (i = j) as ->; [|congruence].
  apply (NoDup_lookup (card_ids p) i j (cp_card_id a)).
  - rewrite Hids. apply Hv.
  - unfold card_ids. by rewrite list_lookup_fmap, Hi.
  - unfold card_ids. rewrite list_lookup_fmap, Hj. simpl. by rewrite Heq.
Qed.

(** A compiled card fits, and its tables have distinct keys. *)
Lemma compiled_card_fits cfg p cp : compiled cfg p -> cp ∈ p_per_card p ->
  card_inv cp /\ NoDup (he_index <$> cp_hash_entries cp) /\
  (forall e, e ∈ cp_hash_entries cp -> 0 <= he_index e < PWFPGA_HASH_DEPTH) /\
  NoDup (me_flow_id <$> cp_map_entries cp) /\
  (forall e, e ∈ cp_map_entries cp -> exists f, f ∈ cfg_flows cfg /\ f_id f = me_flow_id e).
Proof.
  intros Hc Hin.
  destruct (compiled_card _ _ _ Hc Hin) as (cp0 & [Hr Ho [[Hf1 Hf2] Hcap Himpl] Hpl]).
  assert (cp_map_entries cp = cp_map_entries cp0) as Hm by (by rewrite (pl_same _ _ _ Hpl)).
  split_and!; [|apply Hpl| | |].
  - split; [by eapply placed_rows_inv| | | |]; rewrite (pl_same _ _ _ Hpl); simpl; try done.
    intros r [j Hj]%list_elem_of_lookup.
    eapply Forall2_lookup_r in Himpl as (s & _ & [[Hs _] _]); [|done].
    exact Hs.
  - intros e' [j Hj]%list_elem_of_lookup.
    destruct (Forall2_lookup_r _ _ _ _ _ (pl_entries _ _ _ Hpl) Hj) as (e & _ & [_ _ ->]).
    apply hash_index_bound.
  - rewrite Hm. apply Ho.
  - rewrite Hm. intros e He. destruct (co_map _ _ _ _ Ho _ He) as (f & (k & _ & Hk) & _ & Hid & _).
    exists f. split; [apply list_elem_of_lookup; eauto|done].
Qed.

(** ** Theorems *)

(** The slots a metadata entry names. *)
Definition meta_slots (m : pw_flow_meta) : list (Z * Z) :=
  (m_tx_card_id m, m_tx_local_flow_id m) ::
  (if m_rx_slot_valid m then [(m_rx_card_id m, m_rx_local_flow_id m)] else []).

(** The metadata entry of a flow and the rows its slots name. *)
Lemma compiled_meta_slots (cfg : pw_config) (p : pw_program) (j : nat) (f : pw_flow) :
  compiled cfg p -> cfg_flows cfg !! j = Some f ->
  exists m tx rx, p_flow_meta p !! j = Some m /\
    pw_config_resolve_port cfg (f_tx_global_port f) = Ok tx /\
    pw_config_resolve_port cfg (f_rx_global_port f) = Ok rx /\
    m_global_flow_id m = f_id f /\ m_tx_card_id m = pr_card_id tx /\
    m_rx_card_id m = pr_card_id rx /\ m_rx_slot_valid m = negb (f_background f) /\
    m_latency_valid m = (pr_card_id tx =? pr_card_id rx) && negb (f_background f) /\
    on_card p (pr_card_id tx) (fun cp => slot cp (m_tx_local_flow_id m)
      (tx_row f (pr_local_port_id tx) (m_tx_local_flow_id m) (pr_card_id tx =? pr_card_id rx))) /\
    (m_rx_slot_valid m = true ->
       on_card p (pr_card_id rx) (rx_slot cfg f (m_rx_local_flow_id m))).
Proof.
  intros Hc Hj.
  destruct (cm_stage _ _ Hc) as (p0 & Hpl & Hm).
  destruct (Hm j f Hj) as (m & Hmj & tx & rx & tl & rl & Htx & Hrx & -> & Ht & Hr).
  exists (flow_meta_of f tx rx tl rl), tx, rx. split_and!; try done; simpl.
  - eapply placed_on_card; [done| |done]. intros a b Hab Hs. by rewrite <- (placed_slot _ _ _ _ _ Hab).
  - intros Hb%negb_true_iff. eapply placed_on_card; [done| |by apply Hr].
    intros a b Hab [Hs _]. by rewrite <- (placed_rx_slot _ _ _ _ _ Hab).
Qed.

(** Every flow of the configuration has a metadata entry at its index that
    names its id, its TX and RX cards and, in the compiled program, its
    transmitting row; when the entry says the RX slot is valid (the flow is not
    background) that slot is a row of the RX card checking this flow, and
    latency is valid exactly for measured flows within one card. *)
Theorem compile_meta (cfg : pw_config) (p : pw_program) (j : nat) (f : pw_flow) :
  pw_flow_compile cfg = Ok p -> cfg_flows cfg !! j = Some f ->
  length (p_flow_meta p) = length (cfg_flows cfg) /\
  exists m tx rx, p_flow_meta p !! j = Some m /\
    pw_config_resolve_port cfg (f_tx_global_port f) = Ok tx /\
    pw_config_resolve_port cfg (f_rx_global_port f) = Ok rx /\
    m_global_flow_id m = f_id f /\ m_tx_card_id m = pr_card_id tx /\
    m_rx_card_id m = pr_card_id rx /\ m_rx_slot_valid m = negb (f_background f) /\
    m_latency_valid m = (pr_card_id tx =? pr_card_id rx) && negb (f_background f) /\
    on_card p (pr_card_id tx) (fun cp => slot cp (m_tx_local_flow_id m)
      (tx_row f (pr_local_port_id tx) (m_tx_local_flow_id m) (pr_card_id tx =? pr_card_id rx))) /\
    (m_rx_slot_valid m = true ->
       on_card p (pr_card_id rx) (rx_slot cfg f (m_rx_local_flow_id m))).
Proof.
  intros Hc%pw_flow_compile_compiled Hj. split; [apply Hc|by apply compiled_meta_slots].
Qed.

Lemma compile_meta_witness :
  exists m, p_flow_meta s_prog !! 1%nat = Some m /\ m_rx_slot_valid m = true /\
    on_card s_prog 11 (rx_slot s_cfg s_flow_hdr (m_rx_local_flow_id m)).
Proof.
  destruct (compile_meta s_cfg s_prog 1 s_flow_hdr s_cfg_compiles eq_refl)
    as (_ & m & tx & rx & Hm & Htx & Hrx & _ & _ & _ & Hv & _ & _ & Hs).
  exists m. split; [exact Hm|]. split; [exact Hv|].
  assert (pr_card_id rx = 11) as <- by (vm_compute in Hrx; injection Hrx as <-; reflexivity).
  apply Hs. exact Hv.
Defined.

(** A slot named by a flow's metadata holds a row of that flow. *)
Lemma meta_slot_row cfg p j f m s : compiled cfg p ->
  cfg_flows cfg !! j = Some f -> p_flow_meta p !! j = Some m -> s ∈ meta_slots m ->
  exists r, on_card p s.1 (fun cp => slot cp s.2 r) /\ fc_global_flow_id r = f_id f.
Proof.
  intros Hc Hj Hm Hs. destruct (cm_stage _ _ Hc) as (p0 & Hpl & Hms).
  destruct (Hms j f Hj) as (m' & Hmj & tx & rx & tl & rl & Htx & Hrx & -> & Ht & Hr).
  rewrite Hm in Hmj. injection Hmj as ->.
  unfold meta_slots in Hs. simpl in Hs. apply elem_of_cons in Hs as [->|Hs]; simpl.
  - eexists. split; [|apply tx_row_fields]. eapply placed_on_card; [done| |exact Ht].
    simpl. intros a b Hab Hsl. by rewrite <- (placed_slot _ _ _ _ _ Hab).
  - destruct (f_background f) eqn:Hb; simpl in Hs; [set_solver|].
    apply list_elem_of_singleton in Hs as ->. simpl.
    destruct (Hr eq_refl) as (i & cp & Hi & Hid & (_ & rx' & r & _ & _ & Hsl & Hg & _) & _).
    exists r. split; [|done]. eapply (placed_on_card _ _ _ _ (fun c => slot c rl r)); [done| |].
    + simpl. intros a b Hab Hs. by rewrite <- (placed_slot _ _ _ _ _ Hab).
    + by exists i, cp.
Qed.

(** The row in a slot of a card. *)
Lemma on_card_slot_inj cfg p id l r r' : compiled cfg p ->
  on_card p id (fun cp => slot cp l r) -> on_card p id (fun cp => slot cp l r') -> r = r'.
Proof.
  intros Hc (i & a & Hi & Ha & [_ Hr]) (j & b & Hj & Hb & [_ Hr']).
  assert (a = b) as -> by (eapply compiled_card_inj; [done..|congruence]). congruence.
Qed.

(** C8: no two flows share a slot: a (card, local flow id) pair named by the
    metadata of one flow, as TX or as RX slot, is never named by another's, so
    counters and run state of distinct flows never alias. *)
Theorem compile_slots_disjoint (cfg : pw_config) (p : pw_program) (j k : nat)
    (mj mk : pw_flow_meta) (s : Z * Z) :
  pw_flow_compile cfg = Ok p -> j <> k ->
  p_flow_meta p !! j = Some mj -> p_flow_meta p !! k = Some mk ->
  s ∈ meta_slots mj -> s ∉ meta_slots mk.
Proof.
  intros Hc%pw_flow_compile_compiled Hjk Hj Hk Hsj Hsk.
  pose proof (lookup_lt_Some _ _ _ Hj) as Lj. pose proof (lookup_lt_Some _ _ _ Hk) as Lk.
  rewrite (cm_len _ _ Hc) in Lj, Lk.
  apply lookup_lt_is_Some_2 in Lj as [f Hf]. apply lookup_lt_is_Some_2 in Lk as [g Hg].
  destruct (meta_slot_row _ _ _ _ _ _ Hc Hf Hj Hsj) as (r & Hr & Hrf).
  destruct (meta_slot_row _ _ _ _ _ _ Hc Hg Hk Hsk) as (r' & Hr' & Hrg).
  apply Hjk. apply (NoDup_lookup (f_id <$> cfg_flows cfg) j k (f_id f)); [apply Hc| |].
  - by rewrite list_lookup_fmap, Hf.
  - rewrite list_lookup_fmap, Hg. simpl. f_equal.
    rewrite <- Hrf, <- Hrg. by rewrite (on_card_slot_inj _ _ _ _ _ _ Hc Hr Hr').
Qed.

Lemma compile_slots_disjoint_witness :
  exists mj mk, p_flow_meta s_prog !! 1%nat = Some mj /\ p_flow_meta s_prog !! 3%nat = Some mk /\
    (11, 0) ∈ meta_slots mj /\ (11, 0) ∉ meta_slots mk.
Proof.
  eexists _, _. split; [reflexivity|split; [reflexivity|]]. split; [right; left|].
  eapply (compile_slots_disjoint s_cfg s_prog 1 3); [exact s_cfg_compiles|lia|reflexivity..|].
  right; left.
Defined.

(** C9: every card program of a successful compilation fits its FPGA: at most 64
    flow rows, row [i] numbered [i], map and hash entries pointing at existing
    rows, pools within 12 comparators, 2 UDFs and 32 rules, care masks naming
    only programmed comparators, and hash buckets in range and distinct. And every
    row is accounted for: it is the TX row of a flow of the configuration transmitted
    from this card, or the check row of a measured flow received on this card from
    another one. *)
Theorem compile_fits_card (cfg : pw_config) (p : pw_program) (cp : pw_card_program) :
  pw_flow_compile cfg = Ok p -> cp ∈ p_per_card p ->
  card_inv cp /\ NoDup (he_index <$> cp_hash_entries cp) /\
  (forall e, e ∈ cp_hash_entries cp -> 0 <= he_index e < PWFPGA_HASH_DEPTH) /\
  forall i r, cp_flow_rows cp !! i = Some r -> exists f, f ∈ cfg_flows cfg /\ row_of cfg f (cp_card_id cp) (Z.of_nat i) r.
Proof.
  intros Hc%pw_flow_compile_compiled Hin. destruct (compiled_card_fits _ _ _ Hc Hin) as (H1 & H2 & H3 & _). split_and!; [done..|].
  intros i r Hi. destruct (compiled_card _ _ _ Hc Hin) as (cp0 & [_ Ho _ Hpl]).
  rewrite (pl_same _ _ _ Hpl) in Hi |- *. simpl in *.
  destruct (co_rows _ _ _ _ Ho i r Hi) as (f & (k & _ & Hk) & Hr). exists f.
  split; [apply list_elem_of_lookup; eauto|done].
Qed.

Lemma compile_fits_card_witness :
  length (cp_hash_entries (s_cp 1)) = 2%nat /\ card_inv (s_cp 1) /\
  exists r, cp_flow_rows (s_cp 1) !! 0%nat = Some r /\ exists f, f ∈ cfg_flows s_cfg /\ row_of s_cfg f 11 0 r.
Proof.
  destruct (compile_fits_card s_cfg s_prog (s_cp 1) s_cfg_compiles s_cp1_in) as (Hi & _ & _ & Hr).
  split; [reflexivity|]. split; [exact Hi|]. eexists. split; [reflexivity|]. exact (Hr 0%nat _ eq_refl).
Defined.

(** The check slot of a flow on a card has its classification entry. *)
Lemma compiled_classified cfg p cp f l : compiled cfg p -> cp ∈ p_per_card p ->
  f ∈ cfg_flows cfg -> rx_slot cfg f l cp ->
  exists cp0, card_stage cfg cp0 cp /\ classified f l cp0.
Proof.
  intros Hc Hin [j Hj]%list_elem_of_lookup Hrx.
  destruct (cm_stage _ _ Hc) as (p0 & Hst & Hms).
  destruct (Hms j f Hj) as (m & _ & tx & rx & tl & rl & _ & Hrx0 & _ & _ & Hr).
  destruct (Hr (proj1 Hrx)) as (i & cq & Hi & Hidq & Hsq & Hcl).
  destruct (Forall2_lookup_l _ _ _ _ _ Hst Hi) as (cp' & Hi' & Hcq).
  assert (cp' = cp) as ->.
  { apply list_elem_of_lookup in Hin as [i0 Hi0].
    destruct Hrx as (_ & rx' & r & Hrx' & Hidc & _). eapply compiled_card_inj; [done..|].
    rewrite (placed_id _ _ _ (st_placed _ _ _ Hcq)). congruence. }
  exists cq. split; [done|]. rewrite <- (placed_rx_slot _ _ _ _ _ (st_placed _ _ _ Hcq)) in Hrx.
  by rewrite (rx_slot_unique _ _ _ _ _ _ _ (st_orig _ _ _ Hcq) Hrx Hsq).
Qed.

(** The flow-id map after writing the entries in order. *)
Definition flowid_map (cp : pw_card_program) : gmap Z Z :=
  fold_left (fun m e => <[me_flow_id e := me_local_flow_id e]> m) (cp_map_entries cp) ∅.

Lemma flowid_map_lookup cp id l : NoDup (me_flow_id <$> cp_map_entries cp) ->
  flowid_map cp !! id = Some l <->
  {| me_flow_id := id; me_local_flow_id := l |} ∈ cp_map_entries cp.
Proof.
  unfold flowid_map. induction (cp_map_entries cp) as [|e es IH] using rev_ind; intros Hnd.
  - simpl. rewrite lookup_empty. set_solver.
  - rewrite fold_left_app. cbn [fold_left]. rewrite fmap_app in Hnd.
    apply NoDup_app in Hnd as (Hnd & Hd & _). specialize (IH Hnd).
    rewrite elem_of_app, list_elem_of_singleton.
    destruct (decide (me_flow_id e = id)) as [<-|Hne].
    + rewrite lookup_insert_eq. split.
      * intros [= <-]. right. by destruct e.
      * intros [He| <-]; [|done]. exfalso.
        apply (Hd (me_flow_id e)); [|set_solver].
        apply list_elem_of_fmap. by exists {| me_flow_id := me_flow_id e; me_local_flow_id := l |}.
    + rewrite lookup_insert_ne, IH by done. split; [by left|]. intros [?| <-]; done.
Qed.

(** C2: a received test frame carrying flow id [id] is attributed by a card's
    flow-id map to slot [l] exactly when the configuration has a flow with that
    id, not background, classified by map and received on this card, whose check
    row is slot [l]. *)
Theorem compile_flowid_map (cfg : pw_config) (p : pw_program) (cp : pw_card_program) (id l : Z) :
  pw_flow_compile cfg = Ok p -> cp ∈ p_per_card p ->
  flowid_map cp !! id = Some l <->
  exists f, f ∈ cfg_flows cfg /\ f_id f = id /\ f_classify_header f = false /\
    rx_slot cfg f l cp.
Proof.
  intros Hc%pw_flow_compile_compiled Hin.
  assert (forall cp0, card_stage cfg cp0 cp -> cp_map_entries cp = cp_map_entries cp0) as Hm
    by (intros cp0 [_ _ _ Hpl]; by rewrite (pl_same _ _ _ Hpl)).
  destruct (compiled_card _ _ _ Hc Hin) as (cp0 & Hst).
  rewrite flowid_map_lookup by (rewrite (Hm _ Hst); apply Hst). split.
  - rewrite (Hm _ Hst). intros He.
    destruct (co_map _ _ _ _ (st_orig _ _ _ Hst) _ He) as (f & (k & _ & Hk) & Hh & Hid & Hrx).
    exists f. simpl in *. split_and!; [apply list_elem_of_lookup; eauto|done..|].
    by rewrite <- (placed_rx_slot _ _ _ _ _ (st_placed _ _ _ Hst)).
  - intros (f & Hf & <- & Hh & Hrx).
    destruct (compiled_classified _ _ _ _ _ Hc Hin Hf Hrx) as (cq & Hq & Hcl).
    unfold classified in Hcl. rewrite Hh in Hcl. by rewrite (Hm _ Hq).
Qed.

Lemma compile_flowid_map_witness :
  flowid_map (s_cp 0) !! 1 = Some 0 /\
  exists f, f ∈ cfg_flows s_cfg /\ f_id f = 1 /\ f_classify_header f = false /\
    rx_slot s_cfg f 0 (s_cp 0).
Proof.
  assert (flowid_map (s_cp 0) !! 1 = Some 0) as H by (vm_compute; reflexivity).
  split; [exact H|].
  exact (proj1 (compile_flowid_map s_cfg s_prog (s_cp 0) 1 0 s_cfg_compiles s_cp0_in) H).
Defined.

Lemma compiled_hash_lookup cfg p cp k l : compiled cfg p -> cp ∈ p_per_card p ->
  hash_lookup cp k = Some l <->
  exists f, f ∈ cfg_flows cfg /\ f_classify_header f = true /\ rx_slot cfg f l cp /\
    masked (cp_hash_mask cp) (pw_fc_hash_words f) = masked (cp_hash_mask cp) k.
Proof.
  intros Hc Hin.
  destruct (compiled_card _ _ _ Hc Hin) as (cp0 & Hst). split.
  - rewrite (hash_lookup_entry cfg cp0) by apply Hst. intros (e & He & <- & Hk).
    destruct (co_hash _ _ _ _ (st_orig _ _ _ Hst) _ He) as (f & (j & _ & Hj) & Hh & Hw & _ & Hrx).
    exists f. split_and!; [apply list_elem_of_lookup; eauto|done| |by rewrite <- Hw].
    by rewrite <- (placed_rx_slot _ _ _ _ _ (st_placed _ _ _ Hst)).
  - intros (f & Hf & Hh & Hrx & Hk).
    destruct (compiled_classified _ _ _ _ _ Hc Hin Hf Hrx) as (cq & Hq & Hcl).
    unfold classified in Hcl. rewrite Hh in Hcl.
    rewrite (hash_lookup_entry cfg cq) by apply Hq. by eexists.
Qed.

(** C3: the hash classifier of a card attributes a frame whose key words are [k]
    to slot [l] exactly when some header-classified flow checked in slot [l] has
    the same key under the card's mask: no frame is attributed to a flow whose
    key differs, and no two flows compete for one key. *)
Theorem compile_hash_exact (cfg : pw_config) (p : pw_program) (cp : pw_card_program)
    (k : list Z) (l : Z) :
  pw_flow_compile cfg = Ok p -> cp ∈ p_per_card p ->
  hash_lookup cp k = Some l <->
  exists f, f ∈ cfg_flows cfg /\ f_classify_header f = true /\ rx_slot cfg f l cp /\
    masked (cp_hash_mask cp) (pw_fc_hash_words f) = masked (cp_hash_mask cp) k.
Proof. intros Hc%pw_flow_compile_compiled. by apply compiled_hash_lookup. Qed.

Lemma compile_hash_exact_witness :
  hash_lookup (s_cp 1) (pw_fc_hash_words s_flow_hdr) = Some 0 /\
  exists f, f ∈ cfg_flows s_cfg /\ f_classify_header f = true /\ rx_slot s_cfg f 0 (s_cp 1) /\
    masked (cp_hash_mask (s_cp 1)) (pw_fc_hash_words f) =
    masked (cp_hash_mask (s_cp 1)) (pw_fc_hash_words s_flow_hdr).
Proof.
  assert (hash_lookup (s_cp 1) (pw_fc_hash_words s_flow_hdr) = Some 0) as H
    by (vm_compute; reflexivity).
  split; [exact H|].
  exact (proj1 (compile_hash_exact s_cfg s_prog (s_cp 1) _ 0 s_cfg_compiles s_cp1_in) H).
Defined.

(** ** Punt and forward rules *)

(** Related rule lists pick related rules. *)
Lemma pick_related {A B} (R : A -> B -> Prop) hit hit' prio prio' l l' :
  (forall a b, R a b -> hit a = hit' b /\ prio a = prio' b) -> Forall2 R l l' ->
  option_Forall2 R (pick hit prio l) (pick hit' prio' l').
Proof.
  intros HR Hl. unfold pick.
  enough (forall x y, option_Forall2 R x y ->
    option_Forall2 R
      (fold_left (fun best a => if hit a then match best with
         | Some y => if prio a <? prio y then Some a else best | None => Some a end else best) l x)
      (fold_left (fun best a => if hit' a then match best with
         | Some y => if prio' a <? prio' y then Some a else best | None => Some a end else best) l' y))
    as H by (apply H; constructor).
  induction Hl as [|a b l l' Hab _ IH]; intros x y Hxy; [done|]. cbn [fold_left]. apply IH.
  destruct (HR _ _ Hab) as [-> ->]. destruct (hit' b); [|done].
  destruct Hxy as [a0 b0 H0|]; [|by constructor]. destruct (HR _ _ H0) as [_ ->].
  destruct (_ <? _); by constructor.
Qed.

(** C4: each card's field classifier, with one comparator pool shared and
    deduplicated across all its rules, gives every frame the verdict (action,
    egress port, logical interface) of the configuration's own rule list, in
    which each punt and forward rule tests its conditions independently. *)
Theorem compile_field_rules (cfg : pw_config) (p : pw_program) (cp : pw_card_program)
    (k : match_key) :
  pw_flow_compile cfg = Ok p -> cp ∈ p_per_card p ->
  field_classify cp k = spec_classify (field_rules cfg (cp_card_id cp)) k.
Proof.
  intros Hc%pw_flow_compile_compiled Hin.
  destruct (compiled_card _ _ _ Hc Hin) as (cp0 & [_ _ [_ _ Himpl] Hpl]).
  rewrite (placed_id _ _ _ Hpl). unfold field_classify, spec_classify.
  rewrite (pl_same _ _ _ Hpl). cbn [cp_fc_rules set_hash].
  change (fun r => care_hit (set_hash cp0 _ _ _) k (rl_care r))
    with (fun r => care_hit cp0 k (rl_care r)).
  pose proof (pick_related (rule_impl cp0)
    (fun s => spec_hit k (rs_cmps s) (rs_udfs s)) (fun r => care_hit cp0 k (rl_care r))
    rs_prio rl_priority (field_rules cfg (cp_card_id cp0)) (cp_fc_rules cp0)) as Hp.
  destruct Hp as [s r [Hs Ha He Hl Hpr]|]; [|done| |done].
  - intros s r [[_ Hh] _ _ _ Hpr]. by rewrite Hh, Hpr.
  - simpl. by rewrite Ha, He, Hl.
Qed.

Definition s_key : match_key :=
  {| k_lane := fun s => match s with
       | FC_SRC_INGRESS => 0 | FC_SRC_FLAGS => 8 | FC_SRC_L3_PROTO => 17
       | FC_SRC_IPV6_DST_3 => 0x20010db8 | _ => 0 end;
     k_udf := fun _ => 0 |}.

Lemma compile_field_rules_witness :
  field_classify (s_cp 1) s_key = Some (PWFPGA_ACT_FORWARD_PORT, 1, 0) /\
  field_classify (s_cp 1) s_key = spec_classify (field_rules s_cfg 11) s_key.
Proof.
  split; [vm_compute; reflexivity|].
  exact (compile_field_rules s_cfg s_prog (s_cp 1) s_key s_cfg_compiles s_cp1_in).
Defined.
