(* ===== verification/CompilerErrors.v ===== *)
(** * Errors of the flow compiler

    Which failures a valid configuration can still meet in [pw_flow_compile]:
    a table or pool of a card is full, a map-classified flow's id does not fit
    the flow-id map, or two header-classified flows cannot be told apart. *)

From S2P Require Import Prelude Types Config Validate Csr FlowCompiler CompilerInv FieldClassifier.
From S2P Require Import CompilerFlows HashPlacement CompilerProps Samples.

(** Two header-classified flows checked on card [id] whose keys agree under the
    card's mask. *)
Definition indistinguishable (cfg : pw_config) (id : Z) (f g : pw_flow) : Prop :=
  f ∈ cfg_flows cfg /\ g ∈ cfg_flows cfg /\ f_id f <> f_id g /\
  header_flow_on cfg id f = true /\ header_flow_on cfg id g = true /\
  masked (hash_mask_of cfg id) (pw_fc_hash_words f) =
  masked (hash_mask_of cfg id) (pw_fc_hash_words g).

(** A flow the flow-id map cannot hold. *)
Definition id_too_large (cfg : pw_config) (f : pw_flow) : Prop :=
  f ∈ cfg_flows cfg /\ f_background f = false /\ f_classify_header f = false /\
  PWFPGA_FLOWID_MAP_DEPTH <= f_id f.

(** All errors of [r] are of this status, with no diagnostic of their own. *)
Definition errs_nores {A} (r : M A) : Prop := forall e, r = Err e -> e = fail_bare PW_E_NO_RESOURCES.

Lemma nores_bind {A B} (m : M A) (k : A -> M B) :
  errs_nores m -> (forall a, errs_nores (k a)) -> errs_nores (m ≫= k).
Proof. intros Hm Hk e [?|(a & _ & ?)]%bind_err; [by apply Hm|by eapply Hk]. Qed.

Lemma nores_cmp cp s m v : errs_nores (append_fc_cmp cp s m v).
Proof. intros e. apply append_fc_cmp_err. Qed.

Lemma nores_udf cp o m v : errs_nores (append_fc_udf cp o m v).
Proof.
  intros e. unfold append_fc_udf. destruct (list_find _ _) as [[i c]|]; [done|].
  destruct (_ <=? _); simpl; congruence.
Qed.

Lemma nores_rule cp r : errs_nores (append_fc_rule cp r).
Proof. intros e. unfold append_fc_rule. destruct (_ <=? _); simpl; congruence. Qed.

Lemma nores_ok {A} (a : A) : errs_nores (Ok a).
Proof. intros e. done. Qed.

Lemma nores_mfold {S A} (f : nat -> S -> A -> M S) l : (forall i s x, errs_nores (f i s x)) ->
  forall i s, errs_nores (mfold f i s l).
Proof.
  intros Hf. induction l as [|x l IH]; intros i s; [apply nores_ok|].
  apply nores_bind; [apply Hf|intros; apply IH].
Qed.

Create HintDb nores.
#[export] Hint Resolve nores_bind nores_cmp nores_udf nores_rule nores_ok nores_mfold : nores.
#[export] Hint Extern 1 (errs_nores (if ?b then _ else _)) => destruct b : nores.
#[export] Hint Extern 1 (errs_nores (match ?x with _ => _ end)) => destruct x : nores.

Lemma nores_opt c s m v st : errs_nores (opt_cmp c s m v st).
Proof. unfold opt_cmp. destruct st. auto 10 with nores. Qed.
#[export] Hint Resolve nores_opt : nores.

Lemma nores_ipv6 cp a m sel care : errs_nores (append_ipv6_cmps cp a m sel care).
Proof. unfold append_ipv6_cmps, append_ipv6_word. auto 10 with nores. Qed.
#[export] Hint Resolve nores_ipv6 : nores.

Lemma nores_punt cp ref l a b c d e f g : errs_nores (add_punt_rule cp ref l a b c d e f g).
Proof. unfold add_punt_rule. auto 20 with nores. Qed.

Lemma nores_forward cp fr ing egr : errs_nores (add_forward_rule cp fr ing egr).
Proof. unfold add_forward_rule. auto 25 with nores. Qed.
#[export] Hint Resolve nores_punt nores_forward : nores.

(** References of a valid configuration resolve, to cards of the program. *)
Lemma known_resolves cfg p gp : card_ids p = card_id <$> cfg_cards cfg -> port_known cfg gp ->
  exists r i, pw_config_resolve_port cfg gp = Ok r /\ card_slot p (pr_card_id r) = Some i.
Proof.
  intros Hids Hk%port_resolves_spec. unfold port_resolves in Hk.
  destruct (pw_config_resolve_port cfg gp) as [r|] eqn:E; [|done]. exists r.
  destruct (card_slot_in p (pr_card_id r)) as [i Hi]; [|by exists i].
  rewrite Hids. by eapply resolve_card_in.
Qed.

(** ** Stage by stage *)

Lemma classify_rx_err cp f l e : classify_rx cp f l = Err e ->
  e = fail_bare PW_E_NO_RESOURCES \/
  e = fail_bare PW_E_INVAL /\ f_classify_header f = false /\ PWFPGA_FLOWID_MAP_DEPTH <= f_id f.
Proof.
  unfold classify_rx, compile_header_classify, append_hash_entry.
  destruct (f_classify_header f); [destruct (_ <=? _); simpl; naive_solver congruence|].
  destruct (Z.leb_spec PWFPGA_FLOWID_MAP_DEPTH (f_id f)); simpl; naive_solver.
Qed.

Lemma compile_one_flow_err cfg out f i e :
  valid_config cfg -> card_ids out = card_id <$> cfg_cards cfg -> f ∈ cfg_flows cfg ->
  compile_one_flow out cfg f i = Err e ->
  e = fail_bare PW_E_NO_RESOURCES \/ e = fail_bare PW_E_INVAL /\ id_too_large cfg f.
Proof.
  intros Hv Hids Hf. pose proof (vc_flows _ Hv f Hf) as Hvf.
  destruct (known_resolves cfg out _ Hids (vf_tx _ _ Hvf)) as (tx & ti & Htx & Hti).
  destruct (known_resolves cfg out _ Hids (vf_rx _ _ Hvf)) as (rx & ri & Hrx & Hri).
  unfold compile_one_flow. rewrite Htx, Hrx. cbn [mbind result_bind].
  rewrite Hti, Hri. cbn [of_option mbind result_bind].
  intros [He|([] & _ & He)]%bind_err; [unfold fail_if in He; destruct (_ <=? _); naive_solver|].
  apply bind_err in He as [He|([] & _ & He)];
    [unfold fail_if in He; destruct (_ && _); naive_solver|].
  destruct (f_background f) eqn:Hb; [done|].
  apply bind_err in He as [He|(cp & _ & He)]; [|done].
  apply classify_rx_err in He as [->|(-> & Hh & Hd)]; [by left|right]. by split_and!.
Qed.

Lemma compile_punt_lif_err cfg out l : valid_config cfg ->
  card_ids out = card_id <$> cfg_cards cfg -> l ∈ cfg_logical_if cfg ->
  errs_nores (compile_punt_lif cfg out l).
Proof.
  intros Hv Hids Hl. unfold compile_punt_lif.
  destruct (known_resolves cfg out _ Hids (vc_lif_ports _ Hv l Hl)) as (r & i & -> & Hi).
  cbn [mbind result_bind]. rewrite Hi. cbn [of_option mbind result_bind].
  apply nores_bind; [|auto with nores]. apply nores_mfold. intros.
  destruct x as [[[[[[??]?]?]?]?]?]. auto with nores.
Qed.

Lemma compile_forward_err cfg out fr : valid_config cfg ->
  card_ids out = card_id <$> cfg_cards cfg -> fr ∈ cfg_forwards cfg ->
  errs_nores (compile_forward cfg out fr).
Proof.
  intros Hv Hids Hf. destruct (vc_forwards _ Hv fr Hf) as (ri & re & Hi & He & Hsame).
  unfold compile_forward. rewrite Hi, He. cbn [mbind result_bind].
  rewrite Hsame, Z.eqb_refl. cbn [negb fail_if mbind result_bind].
  destruct (card_slot_in out (pr_card_id re)) as [i ->].
  { rewrite Hids. by eapply resolve_card_in. }
  cbn [of_option mbind result_bind]. apply nores_bind; auto with nores.
Qed.

Lemma check_dup_keys_err id l e : forall seen, check_dup_keys id seen l = Err e ->
  e_status e = PW_E_INVAL /\ exists i j ei ej, (seen ++ l) !! i = Some ei /\
    (seen ++ l) !! j = Some ej /\ i <> j /\ he_key_word ei = he_key_word ej.
Proof.
  induction l as [|x l IH]; intros seen; cbn [check_dup_keys]; [done|].
  intros [H|([] & _ & H)]%bind_err.
  - apply for_each_err in H as (k & y & Hk & Hb). unfold fail_if in Hb.
    case_bool_decide as Hq; [|done]. injection Hb as <-. split; [done|].
    exists (length seen), k, x, y. split_and!; [by apply list_lookup_middle| | |done].
    + by apply lookup_app_l_Some.
    + apply lookup_lt_Some in Hk. lia.
  - apply IH in H as (Hs & i & j & ei & ej & Hi & Hj & ?). split; [done|].
    rewrite <- app_assoc in Hi, Hj. by exists i, j, ei, ej.
Qed.

(** Placement fails for lack of an injective seed, or for equal masked keys. *)
Lemma place_card_err cfg cp e : place_card cfg cp = Err e ->
  (e = fail_bare PW_E_NO_RESOURCES /\
   forall a, 0 <= a < 4096 -> ~ injective_seed (seed_of a)
     (masked (hash_mask_of cfg (cp_card_id cp)) <$> (he_key_word <$> cp_hash_entries cp))) \/
  e_status e = PW_E_INVAL /\ exists i j ei ej, cp_hash_entries cp !! i = Some ei /\
    cp_hash_entries cp !! j = Some ej /\ i <> j /\
    masked (hash_mask_of cfg (cp_card_id cp)) (he_key_word ei) =
    masked (hash_mask_of cfg (cp_card_id cp)) (he_key_word ej).
Proof.
  unfold place_card. destruct (cp_hash_entries cp) as [|e0 es0] eqn:He; [done|].
  rewrite <- He. clear He e0 es0. set (mask := hash_mask_of cfg (cp_card_id cp)).
  intros [H|([] & _ & H)]%bind_err; [right|left].
  - apply check_dup_keys_err in H as (Hs & i & j & ei & ej & Hi & Hj & Hij & Hk). split; [done|].
    simpl in Hi, Hj. rewrite list_lookup_fmap in Hi, Hj.
    apply fmap_Some in Hi as (fi & Hi & ->). apply fmap_Some in Hj as (fj & Hj & ->).
    by exists i, j, fi, fj.
  - apply bind_err in H as [H|([s ix] & _ & H)]; [|done].
    destruct (seed_search _ _ _) as [?|] eqn:Hs; [done|]. simpl in H. injection H as <-.
    split; [done|]. intros a Ha. rewrite seed_search_none in Hs.
    specialize (Hs a). rewrite Z.add_0_l in Hs.
    assert (masked mask <$> (he_key_word <$> cp_hash_entries cp) =
            he_key_word <$> (apply_mask mask <$> cp_hash_entries cp)) as ->; [|by apply Hs].
    clear. induction (cp_hash_entries cp) as [|x l IH]; [done|]. rewrite !fmap_cons, IH. done.
Qed.

(** Equal masked keys on a card come from two indistinguishable flows. *)
Lemma equal_keys_flows cfg kr k cp i j ei ej :
  card_orig cfg kr k cp ->
  cp_hash_entries cp !! i = Some ei -> cp_hash_entries cp !! j = Some ej -> i <> j ->
  masked (hash_mask_of cfg (cp_card_id cp)) (he_key_word ei) =
    masked (hash_mask_of cfg (cp_card_id cp)) (he_key_word ej) ->
  NoDup (f_id <$> cfg_flows cfg) ->
  exists f g, indistinguishable cfg (cp_card_id cp) f g.
Proof.
  intros Ho Hi Hj Hij Hk Hnd.
  destruct (co_hash _ _ _ _ Ho ei) as (f & (a & _ & Hf) & Hhf & Hwf & _ & Hrf);
    [apply list_elem_of_lookup; eauto|].
  destruct (co_hash _ _ _ _ Ho ej) as (g & (b & _ & Hg) & Hhg & Hwg & _ & Hrg);
    [apply list_elem_of_lookup; eauto|].
  exists f, g. assert (forall f l, f_classify_header f = true -> rx_slot cfg f l cp ->
    header_flow_on cfg (cp_card_id cp) f = true) as Hon.
  { intros h l Hh (_ & rx & r & Hrx & Hid & _). unfold header_flow_on.
    by rewrite Hh, Hrx, Hid, Z.eqb_refl. }
  split_and!; [apply list_elem_of_lookup; eauto..| |by eapply Hon|by eapply Hon|congruence].
  intros Hfg. assert (a = b) as <-.
  { eapply NoDup_lookup; [exact Hnd|..]; rewrite list_lookup_fmap;
      [by rewrite Hf|rewrite Hg; simpl; congruence]. }
  assert (f = g) as <- by congruence.
  apply Hij. apply (NoDup_lookup _ i j (he_local_flow_id ei) (co_hash_slots _ _ _ _ Ho));
    rewrite list_lookup_fmap; [by rewrite Hi|rewrite Hj; simpl; f_equal].
  by eapply rx_slot_unique.
Qed.

Lemma with_capacity_diag_err {A} (r : M A) p m e : with_capacity_diag r p m = Err e ->
  e_status e = PW_E_NO_RESOURCES \/ r = Err e.
Proof.
  unfold with_capacity_diag. destruct r as [|e']; [done|].
  case_bool_decide; intros [= <-]; [by left|by right].
Qed.

(** Errors of a loop over the program of a valid configuration. *)
Lemma flows_errs cfg e : valid_config cfg -> compile_flows cfg (new_program cfg) = Err e ->
  e_status e = PW_E_NO_RESOURCES \/ e_status e = PW_E_INVAL /\ exists f, id_too_large cfg f.
Proof.
  intros Hv H. apply (mfold_err _ (fun k p => flows_inv cfg k p)) in H
    as (k & f & p & Hk & Hi & He); [|apply flows_inv_new|].
  - apply with_capacity_diag_err in He as [?|He]; [by left|].
    apply compile_one_flow_err in He as [->|[-> ?]]; [by left|right; eauto|done|apply Hi|].
    apply list_elem_of_lookup. eauto.
  - simpl. intros k f p1 p2 Hf Hi Hs%with_capacity_diag_ok.
    eapply flows_inv_step; [done..|]. apply compile_one_flow_step; try done; [apply Hv|].
    by apply flows_inv_cards.
Qed.

Lemma rules_errs {A} cfg (f : nat -> pw_program -> A -> M pw_program) rl l p R e :
  (forall k x p1 p2 R1, NoDup (card_ids p1) -> prog_rules R1 p1 -> f k p1 x = Ok p2 ->
     rules_step p1 p2 (fun id => R1 id ++ rl id x)) ->
  (forall k x p1, x ∈ l -> card_ids p1 = card_id <$> cfg_cards cfg -> errs_nores (f k p1 x)) ->
  valid_config cfg -> card_ids p = card_id <$> cfg_cards cfg -> prog_rules R p ->
  mfold f 0 p l = Err e -> e_status e = PW_E_NO_RESOURCES.
Proof.
  intros Hok Herr Hv Hids HR H.
  apply (mfold_err _ (fun _ q => card_ids q = card_id <$> cfg_cards cfg /\ exists R, prog_rules R q))
    in H as (k & x & q & Hx & [Hq _] & He).
  - rewrite (Herr _ _ _ (proj2 (list_elem_of_lookup _ _) (ex_intro _ k Hx)) Hq _ He). done.
  - eauto.
  - intros k x p1 p2 Hx [Hp1 [R1 HR1]] Hs.
    assert (NoDup (card_ids p1)) as Hnd by (rewrite Hp1; apply Hv).
    destruct (Hok _ _ _ _ _ Hnd HR1 Hs) as [L _ _ HR2]. split; [|eauto].
    by rewrite <- (card_ids_le _ _ L).
Qed.

Lemma place_errs cfg p e : NoDup (f_id <$> cfg_flows cfg) -> unplaced cfg p ->
  place_cards cfg p = Err e ->
  e_status e = PW_E_NO_RESOURCES \/
  e_status e = PW_E_INVAL /\ exists id f g, indistinguishable cfg id f g.
Proof.
  intros Hnd U H. unfold place_cards in H. apply bind_err in H as [H|(? & _ & ?)]; [|done].
  apply (mfold_err _ (fun _ _ => True)) in H as (k & cp & s & Hk & _ & He); [|done|done].
  apply bind_err in He as [He|(? & _ & ?)]; [|done].
  apply place_card_err in He as [[-> _]|(Hs & i & j & ei & ej & Hi & Hj & Hij & Hkey)]; [by left|].
  right. split; [done|]. exists (cp_card_id cp).
  pose proof (Forall_lookup_1 _ _ _ _ (up_orig _ _ U) Hk) as Ho.
  exact (equal_keys_flows _ _ _ _ _ _ _ _ Ho Hi Hj Hij Hkey Hnd).
Qed.


