(* ===== verification/FlowRow.v ===== *)
(** * The hardware row of a flow

    Width safety and pacing arithmetic of the row [compile_one_flow] builds:
    every field of the row of a well-typed flow fits its wire width, the token
    rate is the exact 16.16 quotient (saturated at 32 bits, with no overflow of
    the intermediate products), and the token bucket always holds a frame. *)

From S2P Require Import Prelude Types Config Validate Csr FlowCompiler Samples.

(** ** Well-typed flows: every field within its C type. *)

Definition wt_bytes (n : nat) (l : list Z) : Prop := length l = n /\ Forall is_u8 l.

Record wt_ipv4 (a : pw_flow_ipv4) : Prop := {
  wt4_src : is_u32 (v4_src a); wt4_dst : is_u32 (v4_dst a);
  wt4_ttl : is_u8 (v4_ttl a); wt4_dscp : is_u8 (v4_dscp a)
}.

Record wt_ipv6 (a : pw_flow_ipv6) : Prop := {
  wt6_src : wt_bytes 16 (v6_src a); wt6_dst : wt_bytes 16 (v6_dst a);
  wt6_hop : is_u8 (v6_hop_limit a); wt6_dscp : is_u8 (v6_dscp a)
}.

Record wt_traffic (t : pw_flow_traffic) : Prop := {
  wtt_fixed : is_u16 (tr_frame_len_fixed t); wtt_min : is_u16 (tr_frame_len_min t);
  wtt_max : is_u16 (tr_frame_len_max t); wtt_step : is_u16 (tr_frame_len_step t);
  wtt_bps : is_u64 (tr_rate_bps t); wtt_pps : is_u64 (tr_rate_pps t);
  wtt_burst : is_u32 (tr_burst_size t); wtt_gap : is_u32 (tr_burst_gap_ticks t);
  wtt_seed : is_u32 (tr_payload_seed t)
}.

Record wt_flow (f : pw_flow) : Prop := {
  wt_id : is_u32 (f_id f);
  wt_lif : is_u32 (f_logical_if_id f);
  wt_smac : wt_bytes 6 (l2_src_mac (f_l2 f));
  wt_dmac : wt_bytes 6 (l2_dst_mac (f_l2 f));
  wt_vlan : is_u16 (l2_vlan (f_l2 f));
  wt_pcp : is_u8 (l2_pcp (f_l2 f));
  wt_et : is_u16 (l2_ethertype (f_l2 f));
  wt_v4 : wt_ipv4 (f_ipv4 f);
  wt_v6 : wt_ipv6 (f_ipv6 f);
  wt_sp : is_u16 (udp_src_port (f_udp f));
  wt_dp : is_u16 (udp_dst_port (f_udp f));
  wt_l4 : is_u8 (udp_l4_proto (f_udp f));
  wt_tcp : is_u8 (udp_tcp_flags (f_udp f));
  wt_tr : wt_traffic (f_traffic f);
  wt_smask : wt_bytes 16 (mod_src_ipv6_mask (f_mod f));
  wt_dmask : wt_bytes 16 (mod_dst_ipv6_mask (f_mod f));
  wt_o4 : wt_ipv4 (enc_outer_ipv4 (f_encap f));
  wt_o6 : wt_ipv6 (enc_outer_ipv6 (f_encap f));
  wt_ismac : wt_bytes 6 (enc_inner_src_mac (f_encap f));
  wt_idmac : wt_bytes 6 (enc_inner_dst_mac (f_encap f))
}.

(** ** Pacing *)

Lemma min_legal_bounds f : 14 <= pw_flow_min_legal_frame f <= 166.
Proof.
  unfold pw_flow_min_legal_frame.
  destruct (tr_frame_template (f_traffic f)), (l2_vlan_set (f_l2 f)), (v6_present (f_ipv6 f)),
    (enc_present (f_encap f)), (v6_present (enc_outer_ipv6 (f_encap f))),
    (enc_type (f_encap f)), (udp_l4_proto (f_udp f) =? 6); vm_compute; split; discriminate.
Qed.

(** The frame length a packets-per-second rate is charged with. *)
Definition rate_frame_len (f : pw_flow) : Z :=
  Z.max (if tr_frame_len_fixed_set (f_traffic f) then tr_frame_len_fixed (f_traffic f)
         else tr_frame_len_min (f_traffic f)) (pw_flow_min_legal_frame f).

(** The configured rate in bits per second, saturated at 64 bits. *)
Definition rate_spec (f : pw_flow) : Z :=
  if tr_rate_bps (f_traffic f) =? 0
  then Z.min (tr_rate_pps (f_traffic f) * rate_frame_len f * 8) UINT64_MAX
  else tr_rate_bps (f_traffic f).

Lemma rate_frame_len_bounds f : wt_flow f -> 14 <= rate_frame_len f < 2 ^ 16.
Proof.
  intros Hw. pose proof (min_legal_bounds f). destruct (wt_tr f Hw) as [H1 H2 _ _ _ _ _ _ _].
  unfold rate_frame_len, is_w in *. destruct (tr_frame_len_fixed_set _); lia.
Qed.

Lemma eff_rate_spec f : wt_flow f -> eff_rate_bps f = rate_spec f.
Proof.
  intros Hw. pose proof (rate_frame_len_bounds f Hw) as Hl.
  destruct (wt_tr f Hw) as [_ _ _ _ Hb Hp _ _ _]. unfold is_w in Hb, Hp.
  unfold eff_rate_bps, rate_spec, ztrue.
  destruct (Z.eqb_spec (tr_rate_bps (f_traffic f)) 0) as [H0|H0]; simpl andb; [|done].
  destruct (Z.eqb_spec (tr_rate_pps (f_traffic f)) 0) as [H1|H1]; simpl negb; cbv iota.
  { rewrite H0, H1. reflexivity. }
  set (fl := if tr_frame_len_fixed_set (f_traffic f) then _ else _).
  assert ((if fl <? pw_flow_min_legal_frame f then pw_flow_min_legal_frame f else fl)
          = rate_frame_len f) as ->.
  { unfold rate_frame_len. fold fl. destruct (Z.ltb_spec fl (pw_flow_min_legal_frame f)); lia. }
  set (n := rate_frame_len f) in *. set (q := tr_rate_pps (f_traffic f)) in *.
  assert (0 <= q * n < 2 ^ 80) by (split; [nia|]; change (2 ^ 80) with (2 ^ 64 * 2 ^ 16); nia).
  unfold u128. rewrite (Z.mod_small (q * n)) by lia. rewrite (Z.mod_small (q * n * 8)) by lia.
  unfold UINT64_MAX. destruct (Z.ltb_spec (2 ^ 64 - 1) (q * n * 8)).
  - lia.
  - rewrite u64_id by (unfold is_w; lia). lia.
Qed.

(** The row's token rate is the configured bit rate as bytes per clock in
    16.16 fixed point, rounded down and saturated at 32 bits; a packet rate is
    charged with the frame length the generator emits, and no intermediate
    product overflows. *)
Theorem tokens_per_tick_exact (f : pw_flow) :
  wt_flow f ->
  tokens_per_tick f =
    Z.min (rate_spec f * 65536 / (8 * PWFPGA_DATA_PLANE_CLOCK_HZ)) 0xFFFFFFFF.
Proof.
  intros Hw. unfold tokens_per_tick. rewrite (eff_rate_spec f Hw).
  assert (0 <= rate_spec f < 2 ^ 64) as Hr.
  { pose proof (rate_frame_len_bounds f Hw). destruct (wt_tr f Hw) as [_ _ _ _ Hb Hp _ _ _].
    unfold rate_spec, is_w, UINT64_MAX in *. destruct (_ =? 0); lia. }
  change (u128 (PWFPGA_DATA_PLANE_CLOCK_HZ * 8)) with (8 * PWFPGA_DATA_PLANE_CLOCK_HZ).
  unfold u128. rewrite Z.mod_small by lia.
  change (8 * PWFPGA_DATA_PLANE_CLOCK_HZ =? 0) with false. cbv iota.
  set (q := _ / _). assert (0 <= q) by (apply Z.div_pos; [lia|reflexivity]).
  destruct (Z.ltb_spec 0xFFFFFFFF q); [lia|]. rewrite u32_id by (unfold is_w; lia). lia.
Qed.

Lemma burst_spec f flmax : is_u16 flmax -> is_u32 (tr_burst_size (f_traffic f)) ->
  burst_bytes_of f flmax =
    Z.min (Z.max (tr_burst_size (f_traffic f)) 1 *
           Z.max (if flmax =? 0 then 1518 else flmax) (pw_flow_min_legal_frame f)) 0xFFFF.
Proof.
  unfold is_w. intros Hl Hb. pose proof (min_legal_bounds f) as Hm. unfold burst_bytes_of, ztrue.
  set (fl := if negb (flmax =? 0) then flmax else 1518).
  assert ((if flmax =? 0 then 1518 else flmax) = fl) as -> by (unfold fl; by destruct (_ =? 0)).
  assert (0 <= fl < 2 ^ 16) by (unfold fl; destruct (_ =? 0); simpl; lia).
  set (n := if fl <? _ then _ else fl).
  assert (n = Z.max fl (pw_flow_min_legal_frame f)) as -> by (unfold n; case_match; lia).
  set (b := if negb _ then _ else 1).
  assert (b = Z.max (tr_burst_size (f_traffic f)) 1) as ->
    by (unfold b; destruct (Z.eqb_spec (tr_burst_size (f_traffic f)) 0); simpl; lia).
  set (N := Z.max fl _). set (B := Z.max _ 1).
  assert (0 <= B * N < 2 ^ 64) by (unfold N, B; nia).
  rewrite u64_id by (unfold is_w; lia).
  destruct (Z.ltb_spec (B * N) N); [unfold B, N in *; nia|].
  destruct (Z.ltb_spec 0xFFFF (B * N)); [lia|]. rewrite u16_id by (unfold is_w; lia). lia.
Qed.

(** The row's token bucket can always pay for a frame: its cap is
    [burst_size] frames of the longest length the row sends (saturated at 65535),
    never less than that length nor than the flow's minimum legal frame. *)
Theorem burst_holds_a_frame (f : pw_flow) (port lfid : Z) (same : bool) :
  wt_flow f ->
  let r := tx_row f port lfid same in
  pw_flow_min_legal_frame f <= fc_burst_bytes r <= 0xFFFF /\
  fc_frame_len_max r <= fc_burst_bytes r.
Proof.
  intros Hw r. destruct (wt_tr f Hw) as [H1 H2 H3 H4 _ _ H5 _ _].
  pose proof (min_legal_bounds f). unfold r, tx_row, frame_lens.
  destruct (tr_frame_len_fixed_set (f_traffic f)); cbn [fc_burst_bytes fc_frame_len_max];
    rewrite burst_spec by done; unfold is_w in *;
    match goal with |- context [if ?x =? 0 then _ else _] => destruct (Z.eqb_spec x 0) end; nia.
Qed.

Lemma s_flows_wt : wt_flow s_flow_hdr /\ wt_flow s_flow_v6.
Proof. split; repeat split; vm_compute; repeat constructor; discriminate. Qed.

Lemma tokens_per_tick_exact_witness :
  wt_flow s_flow_hdr /\
  tokens_per_tick s_flow_hdr =
    Z.min (rate_spec s_flow_hdr * 65536 / (8 * PWFPGA_DATA_PLANE_CLOCK_HZ)) 0xFFFFFFFF.
Proof. split; [|apply tokens_per_tick_exact]; apply s_flows_wt. Defined.

Lemma burst_holds_a_frame_witness :
  wt_flow s_flow_v6 /\
  pw_flow_min_legal_frame s_flow_v6 <= fc_burst_bytes (tx_row s_flow_v6 0 0 true).
Proof.
  split; [apply s_flows_wt|].
  apply (burst_holds_a_frame s_flow_v6 0 0 true). apply s_flows_wt.
Defined.

(** ** Width safety *)

Lemma wire_int n w z : 256 ^ Z.of_nat n = 2 ^ w -> is_w w z -> wire_ok (WInt n z).
Proof. unfold is_w. simpl. by intros ->. Qed.

Lemma wire_arr n l : wt_bytes n l -> wire_ok (WArr n l).
Proof. done. Qed.

Lemma is_u8_b2z b : is_u8 (b2z b).
Proof. destruct b; vm_compute; by split. Qed.

Lemma wt_bytes_zero n : wt_bytes n (replicate n 0).
Proof. split; [apply length_replicate|]. apply Forall_replicate. vm_compute. by split. Qed.

Lemma wt_mac_mask m : wt_bytes 6 (mac_mask_bytes m).
Proof. split; [done|]. unfold mac_mask_bytes. repeat constructor; apply u8_w. Qed.

Lemma wt_mask_hi m : wt_bytes 16 m -> wt_bytes 12 (mask_hi m).
Proof.
  intros [Hl Hb]. split; [done|]. unfold mask_hi. apply Forall_fmap, Forall_true. intros i. simpl.
  destruct (nth_in_or_default (11 - i) m 0) as [Hin|Hz].
  - rewrite Forall_forall in Hb. apply Hb. by apply list_elem_of_In.
  - rewrite Hz. vm_compute. by split.
Qed.

Lemma field_mod_u8 m : is_u8 (field_mod_code m).
Proof. destruct m; vm_compute; by split. Qed.
Lemma payload_mode_u8 m : is_u8 (payload_mode_code m).
Proof. destruct m; vm_compute; by split. Qed.
Lemma frame_template_u8 m : is_u8 (frame_template_code m).
Proof. destruct m; vm_compute; by split. Qed.
Lemma encap_u8 m : is_u8 (encap_code m).
Proof. destruct m; vm_compute; by split. Qed.
Lemma rx_expect_u8 m : is_u8 (rx_expect_code m).
Proof. destruct m; vm_compute; by split. Qed.

Lemma tokens_u32 f : is_u32 (tokens_per_tick f).
Proof. unfold tokens_per_tick. destruct (_ <? _); [vm_compute; by split|apply u32_w]. Qed.

Lemma burst_u16 f n : is_u16 (burst_bytes_of f n).
Proof. unfold burst_bytes_of. destruct (0xFFFF <? _); [vm_compute; by split|apply u16_w]. Qed.

#[export] Hint Resolve u8_w u16_w u32_w u64_w is_u8_b2z wt_bytes_zero wt_mac_mask wt_mask_hi
  tokens_u32 burst_u16 field_mod_u8 payload_mode_u8 frame_template_u8 encap_u8 rx_expect_u8
  : width.
#[export] Hint Extern 3 (is_w _ (if ?b then _ else _)) => destruct b : width.
#[export] Hint Extern 3 (wt_bytes _ (if ?b then _ else _)) => destruct b : width.
#[export] Hint Extern 2 (is_w _ (Zpos _)) => vm_compute; by split : width.
#[export] Hint Extern 2 (is_w _ 0) => vm_compute; by split : width.

(** The wire fields of a row, its projections evaluated. *)
Ltac wires_of_row :=
  cbv beta iota zeta delta [flow_config_wires tx_row frame_lens
    fc_enable fc_egress_local_port fc_global_flow_id fc_local_flow_id fc_logical_if_id
    fc_dst_mac fc_src_mac fc_vlan_enable fc_vlan_id fc_pcp fc_ip_version fc_src_ipv4
    fc_dst_ipv4 fc_dscp fc_ttl fc_udp_src_port fc_udp_dst_port fc_frame_len_min
    fc_frame_len_max fc_frame_len_step fc_rate_bps fc_rate_pps fc_burst_size
    fc_burst_gap_ticks fc_tokens_per_tick_fp fc_burst_bytes fc_reserved0 fc_payload_mode
    fc_payload_seed fc_insert_sequence fc_insert_timestamp fc_tx_enable
    fc_rx_check_enable fc_src_ipv4_mod fc_src_ipv4_mask fc_dst_ipv4_mod fc_dst_ipv4_mask
    fc_udp_src_mod fc_udp_src_mask fc_udp_dst_mod fc_udp_dst_mask fc_ipv6_src
    fc_ipv6_dst fc_src_mac_mod fc_src_mac_mask fc_dst_mac_mod fc_dst_mac_mask
    fc_vlan_mod fc_vlan_mask fc_encap_type fc_outer_ip_version fc_rx_expect fc_outer_ttl
    fc_outer_dscp fc_outer_src_ipv4 fc_outer_dst_ipv4 fc_outer_ipv6_src
    fc_outer_ipv6_dst fc_inner_dst_mac fc_inner_src_mac fc_src_ipv6_mask_hi
    fc_dst_ipv6_mask_hi fc_l4_proto fc_tcp_flags fc_frame_template fc_reserved_ft
    fc_l2_ethertype].

Ltac row_field :=
  first [apply wire_arr | apply (wire_int 1 8); [reflexivity|]
        | apply (wire_int 2 16); [reflexivity|] | apply (wire_int 4 32); [reflexivity|]
        | apply (wire_int 8 64); [reflexivity|]].

(** Every field of the hardware row built from a well-typed flow fits the
    width the wire format gives it, so packing the row loses nothing. *)
Theorem tx_row_fits (f : pw_flow) (port lfid : Z) (same : bool) :
  wt_flow f -> is_u8 port -> is_u32 lfid -> flow_config_ok (tx_row f port lfid same).
Proof.
  intros [] Hp Hl.
  repeat match goal with
  | H : wt_ipv4 _ |- _ => destruct H
  | H : wt_ipv6 _ |- _ => destruct H
  | H : wt_traffic _ |- _ => destruct H
  end.
  unfold flow_config_ok, tx_row, frame_lens.
  destruct (tr_frame_len_fixed_set (f_traffic f)); wires_of_row;
    repeat (apply Forall_cons_2; [row_field; auto 6 with width|]); apply Forall_nil_2.
Qed.

Lemma tx_row_fits_witness :
  flow_config_ok (tx_row s_flow_hdr 0 0 false) /\ flow_config_ok (tx_row s_flow_v6 0 1 true).
Proof.
  split; apply tx_row_fits; first [apply s_flows_wt|vm_compute; by split].
Defined.
