(* ===== verification/Scalar.v ===== *)
(** * Scalar parsers

    Models [sw/libpacketwyrm/src/scalar.c] over C strings ([string], without a
    NUL). A parser that returns [false] gives [None], one that stores a value
    and returns [true] gives [Some]. The C library calls are modelled as the C
    standard describes them: [strtoull]/[strtoul] with 64-bit [unsigned long],
    and [sscanf]'s [%x] conversion, whose value is stored as a 32-bit
    [unsigned] (the low bits of what [strtoul] returns). [inet_pton] is an
    interface, [InetPton]. *)

From Stdlib Require Import Ascii.
From S2P Require Import Prelude Types Config FlowRow.

Local Open Scope string_scope.
Local Open Scope Z_scope.

(** ** Characters *)

Definition ch (c : ascii) : Z := Z.of_N (N_of_ascii c).

Definition isspace (c : ascii) : bool := (ch c =? 32) || ((9 <=? ch c) && (ch c <=? 13)).

Definition tolower (c : ascii) : ascii :=
  if (65 <=? ch c) && (ch c <=? 90) then ascii_of_N (Z.to_N (ch c + 32)) else c.

Fixpoint lower (s : string) : string :=
  match s with
  | EmptyString => EmptyString
  | String c s' => String (tolower c) (lower s')
  end.

Definition strcasecmp_eq (a b : string) : bool := bool_decide (lower a = lower b).
Definition str_eq (a b : string) : bool := bool_decide (a = b).

(** ** [strtoull] *)

(** The value of a digit character in [base]. *)
Definition digit (base : Z) (c : ascii) : option Z :=
  let z := ch c in
  let d := if (48 <=? z) && (z <=? 57) then z - 48
           else if (97 <=? z) && (z <=? 122) then z - 87
           else if (65 <=? z) && (z <=? 90) then z - 55 else 99 in
  if d <? base then Some d else None.

(** The leading digits and what follows them. *)
Fixpoint span_digits (base : Z) (s : string) : list Z * string :=
  match s with
  | EmptyString => ([], s)
  | String c s' =>
      match digit base c with
      | Some d => let '(ds, r) := span_digits base s' in (d :: ds, r)
      | None => ([], s)
      end
  end.

Fixpoint skip_space (s : string) : string :=
  match s with
  | String c s' => if isspace c then skip_space s' else s
  | EmptyString => s
  end.

Definition split_sign (s : string) : bool * string :=
  match s with
  | String "-" s' => (true, s')
  | String "+" s' => (false, s')
  | _ => (false, s)
  end.

Definition is_x (c : ascii) : bool := (ch c =? 120) || (ch c =? 88).

(** The optional [0x] before a hexadecimal digit. *)
Definition skip_0x (base : Z) (s : string) : string :=
  match s with
  | String "0" (String x (String d r)) =>
      if (base =? 16) && is_x x && bool_decide (is_Some (digit 16 d)) then String d r else s
  | _ => s
  end.

Definition digits_val (base : Z) (ds : list Z) : Z := fold_left (fun a d => a * base + d) ds 0.

(** The value, whether [errno] is [ERANGE], and the text at [*end]; [None] when
    no conversion is made ([end] is the start). *)
Definition strtoull (base : Z) (s : string) : option (Z * bool * string) :=
  let '(neg, s1) := split_sign (skip_space s) in
  let '(ds, r) := span_digits base (skip_0x base s1) in
  match ds with
  | [] => None
  | _ =>
      let v := digits_val base ds in
      Some (if v <? 2 ^ 64 then u64 (if neg then - v else v) else 2 ^ 64 - 1,
            negb (v <? 2 ^ 64), r)
  end.

(** ** The parsers *)

Definition pw_parse_bool (s : string) : option bool :=
  if strcasecmp_eq s "true" || strcasecmp_eq s "yes" || str_eq s "1" || strcasecmp_eq s "on"
  then Some true
  else if strcasecmp_eq s "false" || strcasecmp_eq s "no" || str_eq s "0" || strcasecmp_eq s "off"
  then Some false
  else None.

Fixpoint strip_underscores (s : string) : string :=
  match s with
  | EmptyString => EmptyString
  | String c s' => if ch c =? 95 then strip_underscores s' else String c (strip_underscores s')
  end.

(** [while ( *q == ' ' || *q == '\t') q++] *)
Fixpoint skip_blank (s : string) : string :=
  match s with
  | String c s' => if (ch c =? 32) || (ch c =? 9) then skip_blank s' else s
  | EmptyString => s
  end.

Definition is_signed (q : string) : bool :=
  match q with String "-" _ | String "+" _ => true | _ => false end.

Definition base_of (q : string) : Z :=
  match q with
  | String "0" (String x _) => if is_x x then 16 else 10
  | _ => 10
  end.

Definition pw_parse_u64 (s : string) : option Z :=
  let buf := strip_underscores s in
  if (63 <? Z.of_nat (String.length buf)) || str_eq buf "" then None else
  let q := skip_blank buf in
  if is_signed q then None else
  match strtoull (base_of q) buf with
  | Some (v, erange, rest) => if negb (str_eq rest "") || erange then None else Some v
  | None => None
  end.

Definition parse_below (lim : Z) (s : string) : option Z :=
  v ← pw_parse_u64 s; if lim <? v then None else Some v.

Definition pw_parse_u32 : string -> option Z := parse_below 0xFFFFFFFF.
Definition pw_parse_u16 : string -> option Z := parse_below 0xFFFF.
Definition pw_parse_u8 : string -> option Z := parse_below 0xFF.

(** [0x] with no hexadecimal digit after it: a prefix of a number, but none. *)
Definition bare_0x (s : string) : bool :=
  match s with
  | String "0" (String x r) =>
      is_x x && match r with String d _ => bool_decide (digit 16 d = None) | EmptyString => true end
  | _ => false
  end.

(** One [%x] of [sscanf]: white space, a sign, [0x], hexadecimal digits; the
    stored [unsigned] and the text that follows. *)
Definition scan_x (s : string) : option (Z * string) :=
  if bare_0x (split_sign (skip_space s)).2 then None else
  '(v, _, r) ← strtoull 16 s; Some (u32 v, r).

(** [%x] and then [":%x"] for each remaining octet, to the end of the string. *)
Fixpoint scan_octets (n : nat) (s : string) : option (list Z) :=
  '(v, r) ← scan_x s;
  match n with
  | O => if str_eq r "" then Some [v] else None
  | S n => match r with
           | String ":" r' => vs ← scan_octets n r'; Some (v :: vs)
           | _ => None
           end
  end.

Definition pw_parse_mac (s : string) : option (list Z) :=
  o ← scan_octets 5 s;
  if forallb (fun v => v <=? 0xFF) o then Some o else None.

(** [inet_pton] of the C library: the address a text denotes, IPv4 in host
    order ([ntohl] applied) and IPv6 as its 16 bytes. *)
Class InetPton := {
  inet_pton4 : string -> option Z;
  inet_pton6 : string -> option (list Z);
  inet_pton4_u32 s a : inet_pton4 s = Some a -> is_u32 a;
  inet_pton6_bytes s a : inet_pton6 s = Some a -> wt_bytes 16 a
}.

Definition pw_parse_ipv4 `{InetPton} (s : string) : option Z := inet_pton4 s.
Definition pw_parse_ipv6 `{InetPton} (s : string) : option (list Z) := inet_pton6 s.

(** ** Values *)

Example parse_examples :
  pw_parse_u64 "1_000_000" = Some 1000000 /\ pw_parse_u64 "0x1F" = Some 31 /\
  pw_parse_u64 "010" = Some 10 /\ pw_parse_u64 "-1" = None /\ pw_parse_u64 "0x" = None /\
  pw_parse_u64 "18446744073709551616" = None /\ pw_parse_bool "Yes" = Some true /\
  pw_parse_mac "02:a5:02:00:00:01" = Some [2; 165; 2; 0; 0; 1] /\
  pw_parse_mac "02:a5:02:00:00:01x" = None /\ pw_parse_mac "02:a5:02:00:00:0x" = None /\
  pw_parse_mac "02:a5:02:00:00:100" = None.
Proof. vm_compute. repeat split. Qed.

(** ** Widths *)

Lemma strtoull_w base s v e r : strtoull base s = Some (v, e, r) -> is_u64 v.
Proof.
  unfold strtoull. destruct (split_sign _) as [neg s1]. destruct (span_digits _ _) as [[|d ds] r'];
    [done|]. intros H. simplify_eq. case_match; [apply u64_w|]. unfold is_w. lia.
Qed.

Lemma parse_u64_w s v : pw_parse_u64 s = Some v -> is_u64 v.
Proof.
  unfold pw_parse_u64. intros H. repeat case_match; try done. simplify_eq.
  by eapply strtoull_w.
Qed.

Lemma parse_below_w w s v : parse_below (2 ^ w - 1) s = Some v -> is_w w v.
Proof.
  intros (x & Hx%parse_u64_w & H)%bind_Some. destruct (Z.ltb_spec (2 ^ w - 1) x); simplify_eq/=.
  destruct Hx. unfold is_w. lia.
Qed.

Lemma parse_u32_w s v : pw_parse_u32 s = Some v -> is_u32 v.
Proof. apply (parse_below_w 32). Qed.
Lemma parse_u16_w s v : pw_parse_u16 s = Some v -> is_u16 v.
Proof. apply (parse_below_w 16). Qed.
Lemma parse_u8_w s v : pw_parse_u8 s = Some v -> is_u8 v.
Proof. apply (parse_below_w 8). Qed.

Lemma scan_x_u32 s v r : scan_x s = Some (v, r) -> is_u32 v.
Proof.
  unfold scan_x. destruct (bare_0x _); [done|].
  intros ([[v' ?] ?] & _ & [= <- _])%bind_Some. apply u32_w.
Qed.

Lemma scan_octets_spec n : forall s vs, scan_octets n s = Some vs ->
  length vs = S n /\ Forall (fun v => 0 <= v) vs.
Proof.
  induction n as [|n IH]; simpl; intros s vs ([v r] & Hx & H)%bind_Some; simpl in H;
    pose proof (scan_x_u32 _ _ _ Hx) as [Hv _].
  - case_match; simplify_eq. by repeat constructor.
  - repeat case_match; try done. apply bind_Some in H as (vs' & Hr & [= <-]).
    destruct (IH _ _ Hr). simpl. split; [congruence|]. by constructor.
Qed.

Lemma parse_mac_wt s m : pw_parse_mac s = Some m -> wt_bytes 6 m.
Proof.
  intros (o & Ho%scan_octets_spec & H)%bind_Some. case_match eqn:Hf; simplify_eq.
  destruct Ho as [Hl Hn]. split; [done|]. apply Forall_forall. intros v Hv.
  rewrite Forall_forall in Hn. specialize (Hn v Hv).
  rewrite forallb_forall in Hf. specialize (Hf v (proj1 (list_elem_of_In _ _) Hv)).
  unfold is_w. lia.
Qed.

(** [atoi]: [strtol] in base 10 clamps to [long]; the cast takes the low 32 bits. *)
Definition atoi (s : string) : Z :=
  let '(neg, s) := split_sign (skip_space s) in
  let v := digits_val 10 (span_digits 10 s).1 in
  i32 (Z.max (- 2 ^ 63) (Z.min (2 ^ 63 - 1) (if neg then - v else v))).

(** ** Decimal numbers *)

Definition dec_char (c : ascii) : bool := (48 <=? ch c) && (ch c <=? 57).

(** A decimal literal, underscores allowed, and the digits it denotes. *)
Fixpoint dec_text (s : string) : bool :=
  match s with
  | EmptyString => true
  | String c s' => (dec_char c || (ch c =? 95)) && dec_text s'
  end.

Fixpoint dec_digits (s : string) : list Z :=
  match s with
  | EmptyString => []
  | String c s' => if ch c =? 95 then dec_digits s' else (ch c - 48) :: dec_digits s'
  end.

Ltac ascii_cases c := destruct c as [[] [] [] [] [] [] [] []]; vm_compute; intuition congruence.

Lemma dec_char_facts c : dec_char c = true ->
  digit 10 c = Some (ch c - 48) /\ isspace c = false /\ is_x c = false /\
  c <> "-"%char /\ c <> "+"%char /\ (ch c =? 95) = false /\ (ch c =? 32) = false /\
  (ch c =? 9) = false.
Proof. ascii_cases c. Qed.

Lemma strip_dec s : dec_text s = true ->
  dec_digits (strip_underscores s) = dec_digits s /\
  length (dec_digits s) = String.length (strip_underscores s) /\
  span_digits 10 (strip_underscores s) = (dec_digits s, "").
Proof.
  induction s as [|c s IH]; simpl; [done|]. intros [Hc Hs]%andb_prop.
  destruct (IH Hs) as (H1 & H2 & H3). destruct (ch c =? 95) eqn:E; [done|].
  rewrite orb_false_r in Hc. destruct (dec_char_facts c Hc) as (Hd & _). simpl.
  rewrite E, Hd, H3, H1. simpl. by rewrite H2.
Qed.

Lemma strip_head s c r : dec_text s = true -> strip_underscores s = String c r ->
  dec_char c = true /\ (forall c' r', r = String c' r' -> dec_char c' = true).
Proof.
  revert c r. induction s as [|a s IH]; simpl; [done|]. intros c r [Hc Hs]%andb_prop.
  destruct (ch a =? 95) eqn:E; [exact (IH c r Hs)|]. rewrite orb_false_r in Hc.
  intros [= -> <-]. split; [done|]. intros c' r' Hr. apply (IH c' r' Hs Hr).
Qed.

Lemma dec_digits_nonneg s : dec_text s = true -> Forall (fun z => 0 <= z) (dec_digits s).
Proof.
  induction s as [|a s IH]; simpl; [constructor|]. intros [Ha Ht]%andb_prop.
  destruct (ch a =? 95) eqn:E; [auto|]. rewrite orb_false_r in Ha. unfold dec_char in Ha.
  constructor; [lia|auto].
Qed.

Lemma digits_val_nonneg base ds :
  0 <= base -> Forall (fun z => 0 <= z) ds -> 0 <= digits_val base ds.
Proof.
  intros Hb Hds. unfold digits_val.
  enough (forall a, 0 <= a -> 0 <= fold_left (fun a d => a * base + d) ds a) as H by (apply H; lia).
  induction Hds as [|z l Hz Hl IH]; simpl; [auto|]. intros a Ha. apply IH. nia.
Qed.

(** A decimal literal of at most 63 digits, underscores ignored and leading zeros
    decimal, parses to its value when it fits 64 bits and is refused otherwise. *)
Lemma parse_u64_decimal s :
  dec_text s = true -> (0 < length (dec_digits s) <= 63)%nat ->
  pw_parse_u64 s =
    (if digits_val 10 (dec_digits s) <? 2 ^ 64 then Some (digits_val 10 (dec_digits s)) else None).
Proof.
  intros Ht Hn. destruct (strip_dec s Ht) as (H1 & H2 & H3).
  unfold pw_parse_u64. destruct (strip_underscores s) as [|c r] eqn:Hb; [simpl in H2; lia|].
  destruct (strip_head s c r Ht Hb) as [Hc Hr]. set (buf := String c r) in *.
  destruct (dec_char_facts c Hc) as (_ & Hsp & _ & Hm & Hp & _ & H32 & H9).
  assert (split_sign buf = (false, buf)) as Hsg.
  { unfold split_sign, buf. destruct c as [[] [] [] [] [] [] [] []]; done. }
  assert (base_of buf = 10) as Hbase.
  { unfold base_of, buf. destruct c as [[] [] [] [] [] [] [] []]; try done.
    destruct r as [|c' r']; [done|]. by destruct (dec_char_facts c' (Hr c' r' eq_refl)) as (_&_&->&_). }
  assert (skip_0x 10 buf = buf) as H0x.
  { unfold skip_0x, buf. destruct c as [[] [] [] [] [] [] [] []]; try done.
    destruct r as [|? [|? ?]]; done. }
  replace (skip_blank buf) with buf by (unfold buf; simpl; by rewrite H32, H9).
  rewrite Hbase. unfold strtoull.
  replace (skip_space buf) with buf by (unfold buf; simpl; by rewrite Hsp).
  rewrite Hsg, H0x, H3.
  assert (is_signed buf = false) as -> by
    (unfold is_signed, buf; destruct c as [[] [] [] [] [] [] [] []]; done).
  rewrite (proj2 (Z.ltb_ge _ _)) by lia. simpl.
  destruct (dec_digits s) as [|d ds] eqn:Hd; [simpl in Hn; lia|]. rewrite <- Hd in *.
  destruct (Z.ltb_spec (digits_val 10 (dec_digits s)) (2 ^ 64)) as [Hlt|]; simpl; [|done].
  f_equal. rewrite u64_id; [done|]. split; [|done].
  apply digits_val_nonneg; [lia|]. by apply dec_digits_nonneg.
Qed.

(** ** Printing and parsing back *)

Lemma pretty_char_digit d s : (d < 10)%N ->
  dec_text (String (pretty_N_char d) s) = dec_text s /\
  dec_digits (String (pretty_N_char d) s) = Z.of_N d :: dec_digits s.
Proof.
  intros Hd. assert (d = 0 \/ d = 1 \/ d = 2 \/ d = 3 \/ d = 4 \/ d = 5 \/ d = 6 \/ d = 7 \/
    d = 8 \/ d = 9)%N by lia. naive_solver.
Qed.

Lemma pretty_go_spec x : forall s,
  dec_text (pretty_N_go x s) = dec_text s /\
  digits_val 10 (dec_digits (pretty_N_go x s)) =
    fold_left (fun a d => a * 10 + d) (dec_digits s) (Z.of_N x) /\
  (length (dec_digits s) <= length (dec_digits (pretty_N_go x s)))%nat /\
  forall k, Z.of_N x < 10 ^ Z.of_nat k ->
    (length (dec_digits (pretty_N_go x s)) <= k + length (dec_digits s))%nat.
Proof.
  induction (N.lt_wf_0 x) as [x _ IH]. intros s.
  assert (x = 0 \/ 0 < x)%N as [->|Hx] by lia.
  { rewrite pretty_N_go_0. split_and!; try done. intros. lia. }
  rewrite pretty_N_go_step by done.
  destruct (IH (x `div` 10)%N ltac:(by apply N.div_lt) (String (pretty_N_char (x `mod` 10)) s))
    as (H1 & H2 & H3 & H4).
  destruct (pretty_char_digit (x `mod` 10)%N s) as [Ht Hd]; [by apply N.mod_lt|].
  rewrite Ht in H1. rewrite Hd in H2, H3, H4. simpl in H2, H3, H4.
  split_and!; [done| |lia|].
  - rewrite H2. f_equal. pose proof (N.div_mod x 10). lia.
  - intros [|k] Hk; [simpl in Hk; lia|].
    rewrite Nat2Z.inj_succ, Z.pow_succ_r in Hk by lia.
    specialize (H4 k). rewrite N2Z.inj_div in H4.
    specialize (H4 ltac:(apply Z.div_lt_upper_bound; lia)). lia.
Qed.

Lemma str_Z_nonneg v : 0 <= v ->
  str_Z v = (if v =? 0 then "0" else pretty_N_go (Z.to_N v) "").
Proof. by destruct v. Qed.

(** What [%u]/[%llu] prints, the number parser reads back. *)
Lemma parse_u64_print v : is_u64 v -> pw_parse_u64 (str_Z v) = Some v.
Proof.
  intros Hv. rewrite str_Z_nonneg by apply Hv.
  destruct (Z.eqb_spec v 0) as [->|Hne]; [by vm_compute|].
  destruct (pretty_go_spec (Z.to_N v) "") as (H1 & H2 & H3 & H4).
  simpl in H2. rewrite Z2N.id in H2, H4 by apply Hv.
  rewrite parse_u64_decimal, H2.
  - rewrite (proj2 (Z.ltb_lt _ _)) by apply Hv. done.
  - done.
  - specialize (H4 20%nat). simpl in H4. unfold is_w in Hv.
    destruct (dec_digits (pretty_N_go (Z.to_N v) "")) as [|d ds]; [by cbn in H2|].
    simpl in *. lia.
Qed.

Definition hex_char (d : Z) : ascii :=
  ascii_of_N (Z.to_N (if d <? 10 then d + 48 else d + 87)).

Lemma hex_char_facts d : 0 <= d < 16 ->
  digit 16 (hex_char d) = Some d /\ (ch (hex_char d) =? 95) = false.
Proof.
  intros Hd. assert (forallb (fun d => bool_decide (digit 16 (hex_char d) = Some d) &&
    negb (ch (hex_char d) =? 95)) (seqZ 0 16) = true) as H by by vm_compute.
  rewrite forallb_forall in H. specialize (H d). rewrite <- list_elem_of_In, elem_of_seqZ in H.
  specialize (H ltac:(lia)). apply andb_prop in H as [H1 H2]. apply bool_decide_eq_true in H1.
  split; [done|]. by apply negb_true_iff.
Qed.

(** [%02x:%02x:...] *)
Definition mac_octet (b : Z) : string := String (hex_char (b / 16)) (String (hex_char (b mod 16)) "").
Fixpoint mac_text (m : list Z) : string :=
  match m with
  | [] => ""
  | [b] => mac_octet b
  | b :: m' => mac_octet b +:+ ":" +:+ mac_text m'
  end.

(** Two hexadecimal digits are one [%x] conversion when no digit follows. *)
Lemma scan_octet_ok b : is_u8 b ->
  scan_x (mac_octet b) = Some (b, "") /\
  forall r, scan_x (mac_octet b +:+ String ":" r) = Some (b, String ":" r).
Proof.
  intros Hb. revert b Hb.
  enough (Forall (fun b => scan_x (mac_octet b) = Some (b, "") /\
    forall r, scan_x (mac_octet b +:+ String ":" r) = Some (b, String ":" r)) (seqZ 0 256)) as H.
  { intros b Hb. rewrite Forall_forall in H. apply H, elem_of_seqZ. unfold is_w in Hb. lia. }
  let l := eval vm_compute in (seqZ 0 256) in change (seqZ 0 256) with l.
  repeat (constructor; [split; [vm_compute; reflexivity | intros r; vm_compute; reflexivity]|]).
  constructor.
Qed.

Lemma scan_octets_text b m : is_u8 b -> Forall is_u8 m ->
  scan_octets (length m) (mac_text (b :: m)) = Some (b :: m).
Proof.
  intros Hb Hm. revert b Hb. induction Hm as [|b' m Hb' Hm IH]; intros b Hb.
  - simpl. by rewrite (proj1 (scan_octet_ok b Hb)).
  - change (mac_text (b :: b' :: m)) with (mac_octet b +:+ String ":" (mac_text (b' :: m))).
    cbn [scan_octets length]. rewrite (proj2 (scan_octet_ok b Hb)). cbn [mbind option_bind].
    by rewrite IH.
Qed.

(** A MAC address printed as [aa:bb:cc:dd:ee:ff] parses back. *)
Lemma parse_mac_print m : wt_bytes 6 m -> pw_parse_mac (mac_text m) = Some m.
Proof.
  intros [Hl Hm]. destruct m as [|b m]; [done|]. inversion Hm; subst. simpl in Hl.
  unfold pw_parse_mac. replace 5%nat with (length m) by lia. rewrite scan_octets_text by done.
  cbn [mbind option_bind]. rewrite (proj2 (forallb_forall _ _)); [done|].
  intros v Hv%list_elem_of_In. rewrite Forall_forall in Hm. specialize (Hm v Hv).
  unfold is_w in Hm. lia.
Qed.

(** The parsers of numbers and MAC addresses read back what the printers
    write: [%llu] of a 64-bit number (and of a narrower one at its width), and
    [%02x:...] of six bytes. *)
Theorem scalar_roundtrip :
  (forall v, is_u64 v -> pw_parse_u64 (str_Z v) = Some v) /\
  (forall v, is_u32 v -> pw_parse_u32 (str_Z v) = Some v) /\
  (forall v, is_u16 v -> pw_parse_u16 (str_Z v) = Some v) /\
  (forall v, is_u8 v -> pw_parse_u8 (str_Z v) = Some v) /\
  (forall m, wt_bytes 6 m -> pw_parse_mac (mac_text m) = Some m).
Proof.
  assert (forall w v, 0 <= w <= 64 -> is_w w v -> parse_below (2 ^ w - 1) (str_Z v) = Some v) as H.
  { intros w v Hw Hv. unfold parse_below. rewrite parse_u64_print by (eapply is_w_le; [|done]; lia).
    simpl. unfold is_w in Hv. by rewrite (proj2 (Z.ltb_ge _ _)) by lia. }
  split_and!; [apply parse_u64_print|intros v; apply (H 32); lia|intros v; apply (H 16); lia
              |intros v; apply (H 8); lia|apply parse_mac_print].
Qed.

(** [pw_parse_u64] skips only blanks and tabs before it looks for a sign, while
    [strtoull] skips every white-space character: a negative number after a
    newline is accepted and wraps to a huge value. *)
Theorem signed_after_newline :
  pw_parse_u64 "-1" = None /\ pw_parse_u64 (String "010" "-1") = Some (2 ^ 64 - 1).
Proof. split; vm_compute; reflexivity. Qed.
