(* ===== verification/Yaml.v ===== *)
(** * The YAML tree builder

    Models [sw/libpacketwyrm/src/yaml.c] and [yaml.h]: the recursive descent
    over libyaml's event stream that builds the [pw_yaml_node] tree, and the two
    accessors. libyaml itself is a parameter: a [yaml_parser] is the list of
    events it delivers, after which it reports a problem. Memory exhaustion is
    not modelled. The recursion carries fuel; [pw_yaml_parse] gives it enough
    for every stream, which [yaml_parse_stream] shows. *)

From Stdlib Require Import Ascii.
From S2P Require Import Prelude Types.

Local Open Scope string_scope.
Local Open Scope Z_scope.
Local Open Scope list_scope.

Inductive pw_yaml_node : Type :=
| PW_YAML_SCALAR (line : Z) (value : string)
| PW_YAML_MAP (line : Z) (items : list (string * pw_yaml_node))
| PW_YAML_SEQ (line : Z) (items : list pw_yaml_node).

Definition pw_yaml_map_get (m : pw_yaml_node) (key : string) : option pw_yaml_node :=
  match m with
  | PW_YAML_MAP _ items => snd <$> (snd <$> list_find (fun kv => fst kv = key) items)
  | _ => None
  end.

Definition pw_yaml_scalar (n : pw_yaml_node) : option string :=
  match n with PW_YAML_SCALAR _ v => Some v | _ => None end.

(** ** libyaml's events *)

Inductive yaml_event_type : Type :=
| YAML_STREAM_START_EVENT | YAML_STREAM_END_EVENT
| YAML_DOCUMENT_START_EVENT | YAML_DOCUMENT_END_EVENT
| YAML_ALIAS_EVENT | YAML_SCALAR_EVENT (value : string)
| YAML_SEQUENCE_START_EVENT | YAML_SEQUENCE_END_EVENT
| YAML_MAPPING_START_EVENT | YAML_MAPPING_END_EVENT.

(** An event and its [start_mark.line]. *)
Record yaml_event := { ev_type : yaml_event_type; ev_line : Z }.

Record yaml_parser := {
  yp_events : list yaml_event;
  yp_problem : option string;
  yp_line : Z
}.

(** ** The walk *)

(** [ctx_t] with the parser's remaining events; [c_err] is [*err] (message and
    line). *)
Record ctx := {
  c_events : list yaml_event;
  c_err : string * Z;
  c_failed : bool
}.

Section Walk.
Context (p : yaml_parser).

(** The first message sticks. *)
Definition set_err (c : ctx) (line : Z) (msg : string) : ctx :=
  if bool_decide ((c_err c).1 = "") then
    {| c_events := c_events c; c_err := (cstr 256 msg, line); c_failed := c_failed c |}
  else c.

Definition set_failed (c : ctx) : ctx :=
  {| c_events := c_events c; c_err := c_err c; c_failed := true |}.

Definition next_event (c : ctx) : ctx * option yaml_event :=
  match c_events c with
  | ev :: evs => ({| c_events := evs; c_err := c_err c; c_failed := c_failed c |}, Some ev)
  | [] => (set_failed (set_err c (yp_line p + 1) (default "yaml parse error" (yp_problem p))), None)
  end.

(** [pw_xstrdup_n] copies [length] bytes; readers stop at the first NUL. *)
Fixpoint pw_xstrdup_n (s : string) : string :=
  match s with
  | EmptyString => EmptyString
  | String c s' => if bool_decide (c = Ascii.zero) then EmptyString else String c (pw_xstrdup_n s')
  end.

Definition build_scalar (ev : yaml_event) (v : string) : pw_yaml_node :=
  PW_YAML_SCALAR (ev_line ev + 1) (pw_xstrdup_n v).

Fixpoint build_node (fuel : nat) (c : ctx) (ev : yaml_event) : ctx * option pw_yaml_node :=
  match fuel with
  | O => (c, None)
  | S fuel =>
      match ev_type ev with
      | YAML_SCALAR_EVENT v => (c, Some (build_scalar ev v))
      | YAML_SEQUENCE_START_EVENT => build_sequence fuel c (ev_line ev + 1) []
      | YAML_MAPPING_START_EVENT => build_mapping fuel c (ev_line ev + 1) []
      | YAML_ALIAS_EVENT =>
          (set_failed (set_err c (ev_line ev + 1) "YAML anchors/aliases are not supported"), None)
      | _ => (set_failed (set_err c (ev_line ev + 1) "unexpected YAML event"), None)
      end
  end
(** The [while (1)] of [build_sequence]; [items] are the children appended so
    far. *)
with build_sequence (fuel : nat) (c : ctx) (line : Z) (items : list pw_yaml_node)
    : ctx * option pw_yaml_node :=
  match fuel with
  | O => (c, None)
  | S fuel =>
      let '(c, o) := next_event c in
      match o with
      | None => (c, None)
      | Some ev =>
          match ev_type ev with
          | YAML_SEQUENCE_END_EVENT => (c, Some (PW_YAML_SEQ line items))
          | _ =>
              let '(c, child) := build_node fuel c ev in
              match child with
              | None => (c, None)
              | Some n => build_sequence fuel c line (items ++ [n])
              end
          end
      end
  end
(** The [while (1)] of [build_mapping]. *)
with build_mapping (fuel : nat) (c : ctx) (line : Z) (items : list (string * pw_yaml_node))
    : ctx * option pw_yaml_node :=
  match fuel with
  | O => (c, None)
  | S fuel =>
      let '(c, o) := next_event c in
      match o with
      | None => (c, None)
      | Some kev =>
          match ev_type kev with
          | YAML_MAPPING_END_EVENT => (c, Some (PW_YAML_MAP line items))
          | YAML_SCALAR_EVENT kv =>
              let key := pw_xstrdup_n kv in
              if bool_decide (key ∈ items.*1) then
                (set_failed (set_err c (ev_line kev + 1)
                   ("duplicate mapping key '" +:+ key +:+ "'")), None)
              else
                let '(c, o) := next_event c in
                match o with
                | None => (c, None)
                | Some vev =>
                    let '(c, vn) := build_node fuel c vev in
                    match vn with
                    | None => (c, None)
                    | Some n => build_mapping fuel c line (items ++ [(key, n)])
                    end
                end
          | _ => (set_err c (ev_line kev + 1) "non-scalar mapping key not supported", None)
          end
      end
  end.

(** The locals of the top-level loop. *)
Record top := {
  t_ctx : ctx;
  t_root : option pw_yaml_node;
  t_seen_stream : bool;
  t_seen_doc : bool;
  t_n_docs : Z
}.

Definition set_tctx (t : top) (c : ctx) : top :=
  {| t_ctx := c; t_root := t_root t; t_seen_stream := t_seen_stream t;
     t_seen_doc := t_seen_doc t; t_n_docs := t_n_docs t |}.

(** One event at the top level; [true] is [goto done]. *)
Definition top_event (t : top) (ev : yaml_event) : top * bool :=
  let c := t_ctx t in
  match ev_type ev with
  | YAML_STREAM_START_EVENT =>
      ({| t_ctx := c; t_root := t_root t; t_seen_stream := true; t_seen_doc := t_seen_doc t;
          t_n_docs := t_n_docs t |}, false)
  | YAML_DOCUMENT_START_EVENT =>
      let n := t_n_docs t + 1 in
      ({| t_ctx := if 1 <? n then set_failed (set_err c (ev_line ev + 1)
                     "multiple top-level YAML documents not supported") else c;
          t_root := t_root t; t_seen_stream := t_seen_stream t; t_seen_doc := true;
          t_n_docs := n |}, false)
  | YAML_DOCUMENT_END_EVENT => (t, false)
  | YAML_STREAM_END_EVENT => (t, true)
  | _ =>
      if negb (t_seen_stream t) || negb (t_seen_doc t) then
        (set_tctx t (set_failed (set_err c (ev_line ev + 1)
           "unexpected YAML event before document")), false)
      else match t_root t with
      | Some _ =>
          (set_tctx t (set_failed (set_err c (ev_line ev + 1)
             "multiple top-level YAML documents not supported")), false)
      | None =>
          let '(c, r) := build_node (2 * length (c_events c) + 1) c ev in
          ({| t_ctx := match r with Some _ => c | None => set_failed c end;
              t_root := r; t_seen_stream := t_seen_stream t; t_seen_doc := t_seen_doc t;
              t_n_docs := t_n_docs t |}, false)
      end
  end.

(** [while (!c.failed)] *)
Fixpoint top_loop (fuel : nat) (t : top) : top :=
  match fuel with
  | O => t
  | S fuel =>
      if c_failed (t_ctx t) then t else
      let '(c, o) := next_event (t_ctx t) in
      match o with
      | None => set_tctx t c
      | Some ev =>
          let '(t, stop) := top_event (set_tctx t c) ev in
          if stop then t else top_loop fuel t
      end
  end.

Definition pw_yaml_parse : result (string * Z) pw_yaml_node :=
  let c := {| c_events := yp_events p; c_err := ("", 0); c_failed := false |} in
  let t := top_loop (length (yp_events p) + 1)
    {| t_ctx := c; t_root := None; t_seen_stream := false; t_seen_doc := false; t_n_docs := 0 |} in
  if c_failed (t_ctx t) then Err (c_err (t_ctx t)) else
  Ok (default (PW_YAML_MAP 1 []) (t_root t)).
End Walk.

(** ** What libyaml delivers

    The grammar of libyaml's event stream: a stream of documents, each a node,
    a node being a scalar, an alias, a sequence of nodes or a mapping of node
    pairs; every construct with the lines of its events. *)
Inductive ydoc : Type :=
| DScalar (line : Z) (v : string)
| DAlias (line : Z)
| DSeq (line endl : Z) (items : list ydoc)
| DMap (line endl : Z) (items : list (ydoc * ydoc)).

Section YdocInd.
Context (P : ydoc -> Prop).
Context (Hscalar : forall l v, P (DScalar l v)) (Halias : forall l, P (DAlias l)).
Context (Hseq : forall l e items, Forall P items -> P (DSeq l e items)).
Context (Hmap : forall l e items, Forall (fun kv => P kv.1 /\ P kv.2) items -> P (DMap l e items)).

Fixpoint ydoc_ind' (d : ydoc) : P d :=
  match d with
  | DScalar l v => Hscalar l v
  | DAlias l => Halias l
  | DSeq l e items => Hseq l e items
      ((fix go items : Forall P items :=
          match items with
          | [] => Forall_nil_2 P
          | x :: items => Forall_cons_2 P x items (ydoc_ind' x) (go items)
          end) items)
  | DMap l e items => Hmap l e items
      ((fix go items : Forall (fun kv => P kv.1 /\ P kv.2) items :=
          match items with
          | [] => Forall_nil_2 _
          | kv :: items =>
              Forall_cons_2 _ kv items (conj (ydoc_ind' kv.1) (ydoc_ind' kv.2)) (go items)
          end) items)
  end.
End YdocInd.

Definition mk_ev (t : yaml_event_type) (line : Z) : yaml_event := {| ev_type := t; ev_line := line |}.

(** The first event of a node and the events after it. *)
Definition doc_head (d : ydoc) : yaml_event :=
  match d with
  | DScalar l v => mk_ev (YAML_SCALAR_EVENT v) l
  | DAlias l => mk_ev YAML_ALIAS_EVENT l
  | DSeq l _ _ => mk_ev YAML_SEQUENCE_START_EVENT l
  | DMap l _ _ => mk_ev YAML_MAPPING_START_EVENT l
  end.

Fixpoint doc_tail (d : ydoc) : list yaml_event :=
  match d with
  | DScalar _ _ | DAlias _ => []
  | DSeq _ e items =>
      (fix go items :=
         match items with
         | [] => [mk_ev YAML_SEQUENCE_END_EVENT e]
         | x :: items => (doc_head x :: doc_tail x) ++ go items
         end) items
  | DMap _ e items =>
      (fix go items :=
         match items with
         | [] => [mk_ev YAML_MAPPING_END_EVENT e]
         | (k, v) :: items =>
             (doc_head k :: doc_tail k) ++ (doc_head v :: doc_tail v) ++ go items
         end) items
  end.

Definition doc_events (d : ydoc) : list yaml_event := doc_head d :: doc_tail d.

Definition seq_tail (e : Z) (items : list ydoc) : list yaml_event :=
  (items ≫= doc_events) ++ [mk_ev YAML_SEQUENCE_END_EVENT e].
Definition map_tail (e : Z) (items : list (ydoc * ydoc)) : list yaml_event :=
  (items ≫= fun kv => doc_events kv.1 ++ doc_events kv.2) ++ [mk_ev YAML_MAPPING_END_EVENT e].

Lemma doc_tail_seq l e items : doc_tail (DSeq l e items) = seq_tail e items.
Proof.
  simpl. induction items as [|x items IH]; [done|]. unfold seq_tail. rewrite IH.
  cbn [mbind list_bind]. by rewrite <- app_assoc.
Qed.

Lemma doc_tail_map l e items : doc_tail (DMap l e items) = map_tail e items.
Proof.
  simpl. induction items as [|[k v] items IH]; [done|]. unfold map_tail. rewrite IH.
  cbn [mbind list_bind fst snd]. unfold doc_events. by rewrite <- !app_assoc.
Qed.

(** A document of the stream, and a whole stream; [lines] give the lines of the
    delimiting events. *)
Definition stream_events (docs : list (Z * ydoc * Z)) (l e : Z) : list yaml_event :=
  mk_ev YAML_STREAM_START_EVENT l ::
  (docs ≫= fun '(ds, d, de) =>
     mk_ev YAML_DOCUMENT_START_EVENT ds :: doc_events d ++ [mk_ev YAML_DOCUMENT_END_EVENT de]) ++
  [mk_ev YAML_STREAM_END_EVENT e].

(** ** What the tree should be *)

(** The tree of a node: keys must be scalars and distinct within their mapping,
    and there are no aliases. *)
Fixpoint doc_node (d : ydoc) : option pw_yaml_node :=
  match d with
  | DScalar l v => Some (PW_YAML_SCALAR (l + 1) (pw_xstrdup_n v))
  | DAlias _ => None
  | DSeq l _ items =>
      ns ← (fix go items : option (list pw_yaml_node) :=
              match items with
              | [] => Some []
              | x :: items => n ← doc_node x; ns ← go items; Some (n :: ns)
              end) items;
      Some (PW_YAML_SEQ (l + 1) ns)
  | DMap l _ items =>
      kvs ← (fix go items : option (list (string * pw_yaml_node)) :=
               match items with
               | [] => Some []
               | (DScalar _ k, v) :: items =>
                   n ← doc_node v; kvs ← go items; Some ((pw_xstrdup_n k, n) :: kvs)
               | _ => None
               end) items;
      if bool_decide (NoDup (fst <$> kvs)) then Some (PW_YAML_MAP (l + 1) kvs) else None
  end.

(** The children of a sequence and the entries of a mapping, as [doc_node] sees
    them. *)
Fixpoint seq_nodes (items : list ydoc) : option (list pw_yaml_node) :=
  match items with
  | [] => Some []
  | x :: items => n ← doc_node x; ns ← seq_nodes items; Some (n :: ns)
  end.

Fixpoint map_nodes (items : list (ydoc * ydoc)) : option (list (string * pw_yaml_node)) :=
  match items with
  | [] => Some []
  | (DScalar _ k, v) :: items =>
      n ← doc_node v; kvs ← map_nodes items; Some ((pw_xstrdup_n k, n) :: kvs)
  | _ => None
  end.

Lemma doc_node_seq l e items :
  doc_node (DSeq l e items) = ns ← seq_nodes items; Some (PW_YAML_SEQ (l + 1) ns).
Proof. done. Qed.

Lemma doc_node_map l e items :
  doc_node (DMap l e items) =
    kvs ← map_nodes items;
    if bool_decide (NoDup (fst <$> kvs)) then Some (PW_YAML_MAP (l + 1) kvs) else None.
Proof. done. Qed.

(** ** The walk builds that tree *)

Section Builds.
Context (p : yaml_parser).

Definition mkc (evs : list yaml_event) (err : string * Z) (fl : bool) : ctx :=
  {| c_events := evs; c_err := err; c_failed := fl |}.

(** The walk ended in context [c] with the tree, or without one. *)
Definition built (r : ctx * option pw_yaml_node) (c : ctx) (o : option pw_yaml_node) : Prop :=
  match o with Some n => r = (c, Some n) | None => r.2 = None end.

Definition builds (d : ydoc) : Prop := forall fuel rest err fl,
  (2 * length (doc_tail d) + 1 <= fuel)%nat ->
  built (build_node p fuel (mkc (doc_tail d ++ rest) err fl) (doc_head d))
    (mkc rest err fl) (doc_node d).

Lemma seq_tail_cons e x items : seq_tail e (x :: items) = doc_head x :: doc_tail x ++ seq_tail e items.
Proof. unfold seq_tail. cbn [mbind list_bind]. by rewrite <- app_assoc. Qed.

Lemma build_sequence_ok e items (Hitems : Forall builds items) :
  forall fuel rest err fl line acc,
  (2 * length (seq_tail e items) <= fuel)%nat ->
  built (build_sequence p fuel (mkc (seq_tail e items ++ rest) err fl) line acc)
    (mkc rest err fl) (ns ← seq_nodes items; Some (PW_YAML_SEQ line (acc ++ ns))).
Proof.
  induction Hitems as [|x items Hx Hitems IH]; intros fuel rest err fl line acc Hf.
  - destruct fuel as [|fuel]; [simpl in Hf; lia|]. simpl. by rewrite app_nil_r.
  - rewrite seq_tail_cons in *. cbn [length] in Hf. rewrite length_app in Hf.
    assert (1 <= length (seq_tail e items))%nat by (unfold seq_tail; rewrite length_app; simpl; lia).
    destruct fuel as [|fuel]; [lia|]. cbn [build_sequence seq_nodes]. rewrite <- app_comm_cons.
    cbn [next_event mkc c_events c_err c_failed]. rewrite <- app_assoc.
    specialize (Hx fuel (seq_tail e items ++ rest) err fl ltac:(lia)).
    fold (mkc (doc_tail x ++ seq_tail e items ++ rest) err fl).
    assert (forall A (a b : A), (match ev_type (doc_head x) with
      YAML_SEQUENCE_END_EVENT => a | _ => b end) = b) as -> by (by destruct x).
    destruct (build_node _ _ _ _) as [c' o]. destruct (doc_node x) as [n|]; simpl in Hx.
    + injection Hx as -> ->. specialize (IH fuel rest err fl line (acc ++ [n]) ltac:(lia)).
      cbn [mbind option_bind]. destruct (seq_nodes items) as [ns|]; simpl in *;
        by rewrite <- ?app_assoc in IH.
    + by subst o.
Qed.

Lemma map_tail_cons e k v items :
  map_tail e ((k, v) :: items) =
  doc_head k :: doc_tail k ++ doc_head v :: doc_tail v ++ map_tail e items.
Proof.
  unfold map_tail, doc_events. cbn [mbind list_bind fst snd]. by rewrite <- !app_assoc, <- !app_comm_cons.
Qed.

Lemma build_mapping_ok e items (Hitems : Forall (fun kv => builds kv.1 /\ builds kv.2) items) :
  forall fuel rest err fl line acc,
  (2 * length (map_tail e items) <= fuel)%nat -> NoDup (fst <$> acc) ->
  built (build_mapping p fuel (mkc (map_tail e items ++ rest) err fl) line acc)
    (mkc rest err fl)
    (kvs ← map_nodes items;
     if bool_decide (NoDup (fst <$> acc ++ kvs)) then Some (PW_YAML_MAP line (acc ++ kvs)) else None).
Proof.
  induction Hitems as [|[k v] items [_ Hv] Hitems IH]; intros fuel rest err fl line acc Hf Hacc.
  - destruct fuel as [|fuel]; [simpl in Hf; lia|]. simpl. rewrite app_nil_r.
    by rewrite bool_decide_true.
  - rewrite map_tail_cons in *. cbn [length] in Hf. rewrite length_app in Hf. cbn [length] in Hf.
    rewrite length_app in Hf. simpl in Hv.
    destruct fuel as [|fuel]; [lia|]. cbn [build_mapping map_nodes]. rewrite <- app_comm_cons.
    cbn [next_event mkc c_events c_err c_failed].
    destruct k as [kl kv|kl|kl ke ks|kl ke ks]; try done.
    cbn [doc_head mk_ev ev_type ev_line doc_tail app].
    case_bool_decide as Hin.
    { destruct (doc_node v); [|done]. destruct (map_nodes items) as [kvs|]; [|done]. simpl.
      rewrite bool_decide_false; [done|]. rewrite fmap_app. intros (_ & Hd & _)%NoDup_app.
      apply (Hd _ Hin). simpl. by apply list_elem_of_here. }
    cbn [next_event c_events c_err c_failed]. rewrite <- app_assoc.
    specialize (Hv fuel (map_tail e items ++ rest) err fl ltac:(lia)).
    fold (mkc (doc_tail v ++ map_tail e items ++ rest) err fl).
    destruct (build_node _ _ _ _) as [c' o]. destruct (doc_node v) as [n|]; simpl in Hv.
    + injection Hv as -> ->.
      specialize (IH fuel rest err fl line (acc ++ [(pw_xstrdup_n kv, n)]) ltac:(lia)).
      cbn [mbind option_bind]. destruct (map_nodes items) as [kvs|]; simpl in *; [|apply IH];
        rewrite <- ?app_assoc in IH; try apply IH; rewrite fmap_app; apply NoDup_app;
        split_and!; try done; try apply NoDup_singleton; set_solver.
    + by subst o.
Qed.

Lemma build_node_ok d : builds d.
Proof.
  induction d as [l v|l|l e items IH|l e items IH] using ydoc_ind'; intros fuel rest err fl Hf;
    (destruct fuel as [|fuel]; [lia|]); try done.
  - rewrite doc_node_seq. rewrite doc_tail_seq in *. apply (build_sequence_ok e items IH). lia.
  - rewrite doc_node_map. rewrite doc_tail_map in *.
    pose proof (build_mapping_ok e items IH fuel rest err fl (l + 1) []) as H.
    apply H; [lia|constructor].
Qed.
End Builds.

(** ** Whole streams *)

Section Stream.
Context (p : yaml_parser).

Lemma top_loop_failed fuel t : c_failed (t_ctx t) = true -> top_loop p fuel t = t.
Proof. destruct fuel; simpl; [done|]. by intros ->. Qed.

Definition is_err {E A} (r : result E A) : Prop := match r with Err _ => True | Ok _ => False end.

(** What the parser returns for a document stream. *)
Definition stream_result (docs : list (Z * ydoc * Z)) (r : result (string * Z) pw_yaml_node) : Prop :=
  match docs with
  | [] => r = Ok (PW_YAML_MAP 1 [])
  | [(_, d, _)] => match doc_node d with Some n => r = Ok n | None => is_err r end
  | _ => is_err r
  end.

(** The loop from the first document's node on. *)
Lemma top_loop_doc fuel d de rest :
  (4 <= fuel)%nat -> rest <> [] ->
  let t0 := {| t_ctx := mkc (doc_events d ++ mk_ev YAML_DOCUMENT_END_EVENT de :: rest) ("", 0) false;
               t_root := None; t_seen_stream := true; t_seen_doc := true; t_n_docs := 1 |} in
  match doc_node d with
  | Some n =>
      top_loop p fuel t0 =
      top_loop p (fuel - 2)
        {| t_ctx := mkc rest ("", 0) false; t_root := Some n; t_seen_stream := true;
           t_seen_doc := true; t_n_docs := 1 |}
  | None => c_failed (t_ctx (top_loop p fuel t0)) = true
  end.
Proof.
  intros Hf Hr t0. destruct fuel as [|[|fuel]]; [lia..|].
  set (rest' := mk_ev YAML_DOCUMENT_END_EVENT de :: rest) in *.
  assert (top_loop p (S (S fuel)) t0 =
    let '(c, r) := build_node p (2 * length (doc_tail d ++ rest') + 1)%nat
                     (mkc (doc_tail d ++ rest') ("", 0) false) (doc_head d) in
    top_loop p (S fuel)
      {| t_ctx := match r with Some _ => c | None => set_failed c end;
         t_root := r; t_seen_stream := true; t_seen_doc := true; t_n_docs := 1 |}) as ->.
  { unfold t0. cbn [top_loop t_ctx mkc c_failed next_event c_events doc_events app].
    destruct d as [l v|l|l e items|l e items]; cbn [doc_head]; unfold top_event;
      cbn [mk_ev ev_type set_tctx t_ctx t_root t_seen_stream t_seen_doc t_n_docs negb orb c_err
           c_failed c_events]; by destruct (build_node _ _ _ _). }
  pose proof (build_node_ok p d (2 * length (doc_tail d ++ rest') + 1)%nat rest' ("", 0) false
    ltac:(rewrite length_app; lia)) as Hb.
  destruct (build_node _ _ _ _) as [c r]. destruct (doc_node d) as [n|]; simpl in Hb.
  - injection Hb as -> ->. unfold rest'. cbn [top_loop t_ctx mkc c_failed next_event c_events].
    cbn [top_event mk_ev ev_type set_tctx t_ctx]. by replace (S (S fuel) - 2)%nat with fuel by lia.
  - subst r. by rewrite top_loop_failed.
Qed.

Lemma parse_stream docs l e : yp_events p = stream_events docs l e ->
  stream_result docs (pw_yaml_parse p).
Proof.
  intros Hev. unfold pw_yaml_parse. rewrite Hev.
  set (fuel := (length (stream_events docs l e) + 1)%nat).
  destruct docs as [|[[ds d] de] docs]; [done|].
  set (rest := (docs ≫= fun '(ds, d, de) => mk_ev YAML_DOCUMENT_START_EVENT ds :: doc_events d ++
    [mk_ev YAML_DOCUMENT_END_EVENT de]) ++ [mk_ev YAML_STREAM_END_EVENT e]).
  assert (stream_events ((ds, d, de) :: docs) l e =
    mk_ev YAML_STREAM_START_EVENT l :: mk_ev YAML_DOCUMENT_START_EVENT ds ::
    doc_events d ++ mk_ev YAML_DOCUMENT_END_EVENT de :: rest) as Heq.
  { unfold stream_events, rest. cbn [mbind list_bind app]. by rewrite <- !app_assoc. }
  assert (rest <> []) as Hne by (unfold rest; intros [_ [=]]%app_nil).
  assert (8 <= fuel + 2)%nat as Hfuel.
  { unfold fuel. rewrite Heq. unfold doc_events. simpl. rewrite length_app. simpl.
    destruct rest; [done|simpl; lia]. }
  rewrite Heq. destruct fuel as [|[|fuel]]; [lia..|].
  cbn [top_loop t_ctx c_failed next_event c_events top_event mk_ev ev_type set_tctx t_root
       t_seen_stream t_seen_doc t_n_docs c_err].
  change (0 + 1) with 1. change (1 <? 1) with false. cbv iota.
  pose proof (top_loop_doc fuel d de rest ltac:(lia) Hne) as Ht. cbv zeta in Ht.
  unfold mkc, doc_events in Ht. unfold doc_events.
  destruct (doc_node d) as [n|] eqn:Hd.
  - rewrite Ht. destruct (fuel - 2)%nat as [|f'] eqn:Hf'; [lia|].
    destruct docs as [|[[ds2 d2] de2] docs].
    + simpl. by rewrite Hd.
    + unfold rest. cbn [mbind list_bind app top_loop t_ctx c_failed next_event c_events top_event
        mk_ev ev_type set_tctx t_root t_seen_stream t_seen_doc t_n_docs].
      by rewrite top_loop_failed.
  - rewrite Ht. simpl. rewrite Hd. by destruct docs.
Qed.
End Stream.

(** ** Lookups in the tree are unambiguous *)

Inductive uniq_keys : pw_yaml_node -> Prop :=
| uniq_scalar l v : uniq_keys (PW_YAML_SCALAR l v)
| uniq_map l items : NoDup (fst <$> items) -> (forall kv, kv ∈ items -> uniq_keys kv.2) ->
    uniq_keys (PW_YAML_MAP l items)
| uniq_seq l items : (forall n, n ∈ items -> uniq_keys n) -> uniq_keys (PW_YAML_SEQ l items).

Lemma seq_nodes_forall (P : pw_yaml_node -> Prop) items ns :
  Forall (fun d => forall n, doc_node d = Some n -> P n) items ->
  seq_nodes items = Some ns -> forall n, n ∈ ns -> P n.
Proof.
  intros Hi. revert ns. induction Hi as [|d items Hd Hi IH]; simpl; intros ns H.
  - simplify_eq. intros n []%elem_of_nil.
  - apply bind_Some in H as (n & Hn & (ns' & Hns & [= <-])%bind_Some).
    intros m [->|Hm]%elem_of_cons; [by apply Hd|by eapply IH].
Qed.

Lemma map_nodes_forall (P : pw_yaml_node -> Prop) items kvs :
  Forall (fun kv => forall n, doc_node kv.2 = Some n -> P n) items ->
  map_nodes items = Some kvs -> forall kv, kv ∈ kvs -> P kv.2.
Proof.
  intros Hi. revert kvs. induction Hi as [|[k v] items Hd Hi IH]; simpl; intros kvs H.
  - simplify_eq. intros n []%elem_of_nil.
  - destruct k; try done. apply bind_Some in H as (n & Hn & (ns' & Hns & [= <-])%bind_Some).
    intros m [->|Hm]%elem_of_cons; [by apply Hd|by eapply IH].
Qed.

Lemma doc_node_uniq d : forall n, doc_node d = Some n -> uniq_keys n.
Proof.
  induction d as [l v|l|l e items IH|l e items IH] using ydoc_ind'; intros n H.
  - simpl in H. simplify_eq. constructor.
  - done.
  - rewrite doc_node_seq in H. apply bind_Some in H as (ns & Hns & [= <-]). constructor.
    by eapply seq_nodes_forall.
  - rewrite doc_node_map in H. apply bind_Some in H as (kvs & Hns & H).
    case_bool_decide; simplify_eq. constructor; [done|]. eapply map_nodes_forall; [|done].
    eapply Forall_impl; [exact IH|]. by intros kv [_ Hv].
Qed.

(** C15: for every stream of documents libyaml can deliver, the walk returns an
    empty mapping for none, the tree of the single document when it has no
    alias, non-scalar key or repeated key, and an error in every other case; in
    a returned tree keys are distinct within each mapping. *)
Theorem yaml_parse_stream (p : yaml_parser) (docs : list (Z * ydoc * Z)) (l e : Z) :
  yp_events p = stream_events docs l e ->
  stream_result docs (pw_yaml_parse p) /\
  forall n, pw_yaml_parse p = Ok n -> uniq_keys n.
Proof.
  intros Hev. pose proof (parse_stream p docs l e Hev) as H. split; [done|].
  intros n Hn. rewrite Hn in H. destruct docs as [|[[ds d] de] [|? ?]]; simpl in H; [| |done].
  - simplify_eq. constructor; [constructor|]. by intros kv Hkv%elem_of_nil.
  - destruct (doc_node d) as [m|] eqn:Hd; simplify_eq/=; [by eapply doc_node_uniq|done].
Qed.

(** [flows: [{id: 1}]] and the same mapping with [flows] twice. *)
Definition s_doc (twice : bool) : ydoc :=
  let kv := (DScalar 0 "flows", DSeq 0 0 [DMap 0 0 [(DScalar 0 "id", DScalar 0 "1")]]) in
  DMap 0 1 (if twice then [kv; kv] else [kv]).
Definition s_parser (twice : bool) : yaml_parser :=
  {| yp_events := stream_events [(0, s_doc twice, 2)] 0 2; yp_problem := None; yp_line := 0 |}.

Lemma yaml_parse_stream_witness :
  (stream_result [(0, s_doc false, 2)] (pw_yaml_parse (s_parser false)) /\
   forall n, pw_yaml_parse (s_parser false) = Ok n -> uniq_keys n) /\
  pw_yaml_parse (s_parser false) =
    Ok (PW_YAML_MAP 1 [("flows", PW_YAML_SEQ 1 [PW_YAML_MAP 1 [("id", PW_YAML_SCALAR 1 "1")]])]) /\
  pw_yaml_parse (s_parser true) = Err ("duplicate mapping key 'flows'", 1).
Proof.
  split; [apply (yaml_parse_stream (s_parser false) _ 0 2); reflexivity|].
  split; vm_compute; reflexivity.
Defined.
