(* ===== verification/ConfigParse.v ===== *)
(** * The configuration reader

    Models the schema walker of [sw/libpacketwyrm/src/config.c]: from the YAML
    tree to [struct pw_config], with the diagnostics. A C function that fills a
    struct and returns a status is a function that returns the struct or the
    error; the structs start [calloc]ed, and what is written before a failure is
    discarded with the configuration, as its callers do. Allocation failure is
    not modelled. Reading the file and the string entry points are at the end. *)

From Stdlib Require Import Ascii.
From S2P Require Import Prelude Types Config Validate FlowRow Scalar Yaml.

Local Open Scope string_scope.
Local Open Scope Z_scope.
Local Open Scope list_scope.

(** ** Helpers *)

Definition dquoted (s : string) : string := String "034" (s +:+ String "034" "").

Definition REQ_MAP (node : option pw_yaml_node) (path : string) : M pw_yaml_node :=
  match node with
  | Some (PW_YAML_MAP l items) => Ok (PW_YAML_MAP l items)
  | _ => Err (fail_diag PW_E_PARSE path "expected mapping")
  end.

Definition REQ_SEQ (node : option pw_yaml_node) (path : string) : M (list pw_yaml_node) :=
  match node with
  | Some (PW_YAML_SEQ _ items) => Ok items
  | _ => Err (fail_diag PW_E_PARSE path "expected sequence")
  end.

(** [*out] is [None] for NULL. *)
Definition get_scalar (m : pw_yaml_node) (key path_prefix : string) (required : bool)
    : M (option string) :=
  let buf := cstr 256 (path_prefix +:+ "." +:+ key) in
  match pw_yaml_map_get m key with
  | None => if required then Err (fail_diag PW_E_MISSING_FIELD buf "missing required field") else Ok None
  | Some (PW_YAML_SCALAR _ v) => Ok (Some v)
  | Some _ => Err (fail_diag PW_E_PARSE buf "expected scalar")
  end.

(** A required scalar, which is never NULL, and an optional one. *)
Definition get_req (m : pw_yaml_node) (key path : string) : M string :=
  s ← get_scalar m key path true; Ok (default "" s).
Definition get_opt (m : pw_yaml_node) (key path : string) : M (option string) :=
  get_scalar m key path false.

(** [if (s && !parse(s, &field)) return error;] with the field's value before. *)
Definition opt_val {A} (parse : string -> option A) (dflt : A) (e : err) (s : option string) : M A :=
  match s with None => Ok dflt | Some s => of_option (parse s) e end.

(** A parser with a further check on the value ([!parse(s, &v) || v >= lim]). *)
Definition checked (parse : string -> option Z) (ok : Z -> bool) (s : string) : option Z :=
  v ← parse s; if ok v then Some v else None.

(** The read of an optional key into a field. *)
Definition field {A} (m : pw_yaml_node) (key path : string) (parse : string -> option A) (dflt : A)
    (e : err) : M A :=
  s ← get_opt m key path; opt_val parse dflt e s.

(** The read of a required key into a field. *)
Definition field_req {A} (m : pw_yaml_node) (key path : string) (parse : string -> option A)
    (e : err) : M A :=
  s ← get_req m key path; of_option (parse s) e.

Definition vlan_ok : string -> option Z := checked pw_parse_u16 (fun v => v <? 4095).

(** One of the words of an enumeration. *)
Fixpoint keyword {A} (kws : list (string * A)) (s : string) : option A :=
  match kws with
  | [] => None
  | (k, a) :: kws => if str_eq s k then Some a else keyword kws s
  end.

(** [strtoul(s, &end, 10); *end != '\0' || p > 128]: text without digits leaves
    [end] at its start. *)
Definition strtoul_prefix (s : string) : option Z :=
  match strtoull 10 s with
  | Some (v, _, rest) => if str_eq rest "" && (v <=? 128) then Some v else None
  | None => if str_eq s "" then Some 0 else None
  end.

(** ** [system] and [cards] *)

Definition parse_system (node : option pw_yaml_node) : M pw_system :=
  m ← REQ_MAP node "system";
  name ← get_req m "name" "system";
  mode ← get_req m "mode" "system";
  let mode := cstr PW_NAME_MAX mode in
  fail_if (negb (str_eq mode "multi-card"))
    (fail_diag PW_E_INVAL "system.mode" ("must be " +:+ dquoted "multi-card")) ;;
  speed ← get_req m "default_speed" "system";
  let speed := cstr 8 speed in
  fail_if (negb (str_eq speed "10g"))
    (fail_diag PW_E_INVAL "system.default_speed" ("only " +:+ dquoted "10g" +:+ " is supported")) ;;
  poll ← field m "stats_poll_interval_ms" "system" pw_parse_u32 100
    (fail_diag PW_E_PARSE "system.stats_poll_interval_ms" "expected unsigned integer");
  sock ← get_opt m "control_socket" "system";
  secret ← get_opt m "secret" "system";
  Ok {| sys_name := cstr PW_NAME_MAX name; sys_mode := mode; sys_default_speed := speed;
        sys_stats_poll_interval_ms := poll;
        sys_control_socket := cstr 128 (default "/run/packetwyrm/packetwyrmd.sock" sock);
        sys_secret := cstr PW_SECRET_MAX (default "" secret) |}.

Definition parse_card_port (path : string) (node : pw_yaml_node) : M pw_card_port :=
  m ← REQ_MAP (Some node) path;
  lp ← field_req m "local_port" path
    (checked pw_parse_u8 (fun v => v <? Z.of_nat PW_PORTS_PER_CARD))
    (fail_diag PW_E_OUT_OF_RANGE path "local_port must be 0 or 1");
  gp ← field_req m "global_port" path pw_parse_u16
    (fail_diag PW_E_PARSE path "global_port must be unsigned integer");
  name ← get_opt m "name" path;
  Ok {| cp_local_port := lp; cp_global_port := gp;
        cp_name := cstr PW_NAME_MAX (default ("p" +:+ str_Z gp) name) |}.

(** The array loops: each element with its index, to the first error. *)
Fixpoint map_idx {A B} (f : nat -> A -> M B) (i : nat) (l : list A) : M (list B) :=
  match l with
  | [] => Ok []
  | x :: l => y ← f i x; ys ← map_idx f (S i) l; Ok (y :: ys)
  end.

Definition parse_card (idx : nat) (node : pw_yaml_node) : M pw_card :=
  let path := cstr 64 (at_idx "cards" idx "") in
  m ← REQ_MAP (Some node) path;
  id ← field_req m "id" path pw_parse_u16
    (fail_diag PW_E_PARSE path "id must be unsigned integer");
  name ← get_opt m "name" path;
  pci ← get_req m "pci" path;
  let ppath := cstr 80 (path +:+ ".ports") in
  ports ← REQ_SEQ (pw_yaml_map_get m "ports") ppath;
  fail_if ((length ports =? 0)%nat || (PW_PORTS_PER_CARD <? length ports)%nat)
    (fail_diag PW_E_OUT_OF_RANGE ppath "must have 1 or 2 entries") ;;
  ps ← map_idx (fun i => parse_card_port (cstr 96 (at_idx ppath i ""))) 0 ports;
  Ok {| card_id := id; card_name := cstr PW_NAME_MAX (default ("card" +:+ str_Z id) name);
        card_pci := cstr PW_PCI_BDF_MAX pci; card_ports := ps |}.

(** ** [logical_interfaces] *)

Definition parse_punt (ppath : string) (node : option pw_yaml_node) : M pw_punt_flags :=
  match node with
  | None => Ok zero_punt
  | Some punt =>
      m ← REQ_MAP (Some punt) ppath;
      let flag := fun f => field m f ppath pw_parse_bool false
        (fail_diag PW_E_PARSE ppath ("punt." +:+ f +:+ " must be boolean")) in
      arp ← flag "arp"; nd ← flag "ipv6_nd"; lldp ← flag "lldp"; icmp ← flag "icmp";
      bgp ← flag "bgp"; ospf ← flag "ospf"; isis ← flag "is_is";
      Ok {| punt_arp := arp; punt_ipv6_nd := nd; punt_lldp := lldp; punt_icmp := icmp;
            punt_bgp := bgp; punt_ospf := ospf; punt_is_is := isis |}
  end.

Definition parse_logical_if (idx : nat) (node : pw_yaml_node) : M pw_logical_if :=
  let path := cstr 80 (at_idx "logical_interfaces" idx "") in
  m ← REQ_MAP (Some node) path;
  id ← field_req m "id" path pw_parse_u32
    (fail_diag PW_E_PARSE path "id must be unsigned integer");
  gp ← field_req m "global_port" path pw_parse_u16
    (fail_diag PW_E_PARSE path "global_port must be unsigned integer");
  vlan ← field m "vlan" path vlan_ok 0 (fail_diag PW_E_OUT_OF_RANGE path "vlan must be 0..4094");
  name ← get_opt m "name" path;
  mac ← field_req m "mac" path pw_parse_mac
    (fail_diag PW_E_PARSE path "mac must be aa:bb:cc:dd:ee:ff");
  mtu ← field m "mtu" path pw_parse_u16 1500
    (fail_diag PW_E_PARSE path "mtu must be unsigned integer");
  netns ← get_opt m "netns" path;
  punt ← parse_punt (cstr 112 (path +:+ ".punt")) (pw_yaml_map_get m "punt");
  Ok {| lif_id := id;
        lif_name := match name with
                    | Some s => cstr PW_NAME_MAX s
                    | None => (pw_tap_name PW_NAME_MAX gp vlan).1
                    end;
        lif_global_port := gp; lif_vlan := vlan; lif_mac := mac; lif_mtu := mtu;
        lif_netns := cstr PW_NAME_MAX (default "" netns); lif_punt := punt |}.

(** ** Addresses, prefixes and modifiers *)

(** [mask[i]] for a prefix length: the bits of byte [i] the prefix covers. *)
Definition prefix_byte (prefix i : Z) : Z :=
  let lo := i * 8 in
  let bits := if lo + 8 <=? prefix then 8 else if lo <? prefix then prefix - lo else 0 in
  if bits =? 0 then 0 else u8 (0xFF <<< (8 - bits)).

Definition pw_v6_prefix_mask (prefix : Z) : list Z := prefix_byte prefix <$> seqZ 0 16.

(** The text before and after the first [/] ([strchr]). *)
Fixpoint split_slash (s : string) : string * option string :=
  match s with
  | EmptyString => (EmptyString, None)
  | String c s' =>
      if ch c =? 47 then (EmptyString, Some s')
      else let '(a, b) := split_slash s' in (String c a, b)
  end.

Fixpoint has_colon (s : string) : bool :=
  match s with EmptyString => false | String c s' => (ch c =? 58) || has_colon s' end.

Section Reader.
Context `{InetPton}.

Definition pw_parse_ipv6_cidr (s : string) : option (list Z * list Z) :=
  let '(addr, suffix) := split_slash s in
  prefix ← match suffix with
           | None => Some 128
           | Some sfx =>
               if (String.length addr =? 0)%nat || (64 <=? String.length addr)%nat then None
               else strtoul_prefix sfx
           end;
  a ← pw_parse_ipv6 addr;
  Some (a, pw_v6_prefix_mask prefix).

Definition mod_modes : list (string * pwfpga_field_mod) :=
  [("static", PWFPGA_FIELD_STATIC); ("increment", PWFPGA_FIELD_INCREMENT);
   ("random", PWFPGA_FIELD_RANDOM)].

Definition parse_field_mod (parent : pw_yaml_node) (key path : string) : M pw_field_mod :=
  match pw_yaml_map_get parent key with
  | None => Ok zero_field_mod
  | Some n =>
      let p := cstr 112 (path +:+ "." +:+ key) in
      m ← REQ_MAP (Some n) p;
      mode ← field m "mode" p (keyword mod_modes) PWFPGA_FIELD_STATIC
        (fail_diag PW_E_PARSE p "mode must be static|increment|random");
      mask ← field m "mask" p (checked pw_parse_u64 (fun v => v <=? 0xFFFFFFFFFFFF)) 0
        (fail_diag PW_E_PARSE p "mask must be an unsigned (hex/dec) value <= 48 bits");
      Ok {| fm_mode := mode; fm_mask := mask |}
  end.

(** The low 32 bits of a mask as its last four bytes, and a mask from them. *)
Definition mask16_of (v : Z) : list Z :=
  replicate 12 0 ++ [u8 (v >>> 24); u8 (v >>> 16); u8 (v >>> 8); u8 v].

Definition parse_ipv6_mask (p : string) (s : option string) : M (list Z) :=
  match s with
  | None => Ok zero_v6
  | Some s =>
      if has_colon s then
        of_option (pw_parse_ipv6 s)
          (fail_diag PW_E_PARSE p "ipv6 modifier mask must be an IPv6 mask literal")
      else
        v ← of_option (checked pw_parse_u64 (fun v => v <=? 0xFFFFFFFF) s)
          (fail_diag PW_E_PARSE p
             "ipv6 hex mask must be <=32 bits; use a v6-literal mask for the full address");
        Ok (mask16_of v)
  end.

Definition parse_ipv6_field_mod (parent : pw_yaml_node) (key path : string)
    : M (pw_field_mod * list Z) :=
  match pw_yaml_map_get parent key with
  | None => Ok (zero_field_mod, zero_v6)
  | Some n =>
      let p := cstr 112 (path +:+ "." +:+ key) in
      m ← REQ_MAP (Some n) p;
      mode ← field m "mode" p (keyword mod_modes) PWFPGA_FIELD_STATIC
        (fail_diag PW_E_PARSE p "mode must be static|increment|random");
      s ← get_opt m "mask" p;
      mask16 ← parse_ipv6_mask p s;
      Ok ({| fm_mode := mode; fm_mask := be32_at mask16 12 |}, mask16)
  end.

Definition dscp_ok : string -> option Z := checked pw_parse_u8 (fun v => v <=? 63).

Definition parse_ip_endpoint (parent : pw_yaml_node) (path : string)
    : M (pw_flow_ipv4 * pw_flow_ipv6) :=
  match pw_yaml_map_get parent "ipv4", pw_yaml_map_get parent "ipv6" with
  | Some _, Some _ => Err (fail_diag PW_E_INVAL path "set exactly one of ipv4 / ipv6")
  | None, None => Err (fail_diag PW_E_MISSING_FIELD path "requires an ipv4 or ipv6 block")
  | None, Some v6 =>
      let p := cstr 112 (path +:+ ".ipv6") in
      m ← REQ_MAP (Some v6) p;
      src ← field_req m "src" p pw_parse_ipv6 (fail_diag PW_E_PARSE p "src must be an IPv6 address");
      dst ← field_req m "dst" p pw_parse_ipv6 (fail_diag PW_E_PARSE p "dst must be an IPv6 address");
      hop ← field m "hop_limit" p pw_parse_u8 64 (fail_diag PW_E_PARSE p "hop_limit");
      dscp ← field m "dscp" p dscp_ok 0 (fail_diag PW_E_OUT_OF_RANGE p "dscp 0..63");
      Ok (zero_ipv4, {| v6_present := true; v6_src := src; v6_dst := dst; v6_hop_limit := hop;
                        v6_dscp := dscp |})
  | Some v4, None =>
      let p := cstr 112 (path +:+ ".ipv4") in
      m ← REQ_MAP (Some v4) p;
      src ← field_req m "src" p pw_parse_ipv4 (fail_diag PW_E_PARSE p "src must be an IPv4 address");
      dst ← field_req m "dst" p pw_parse_ipv4 (fail_diag PW_E_PARSE p "dst must be an IPv4 address");
      ttl ← field m "ttl" p pw_parse_u8 64 (fail_diag PW_E_PARSE p "ttl");
      dscp ← field m "dscp" p dscp_ok 0 (fail_diag PW_E_OUT_OF_RANGE p "dscp 0..63");
      Ok ({| v4_present := true; v4_src := src; v4_dst := dst; v4_ttl := ttl; v4_dscp := dscp |},
          zero_ipv6)
  end.

(** ** [flows] *)

Definition parse_flow_l2 (path : string) (node : option pw_yaml_node) : M pw_flow_l2 :=
  match node with
  | None => Ok zero_l2
  | Some l2 =>
      let p := cstr 96 (path +:+ ".l2") in
      m ← REQ_MAP (Some l2) p;
      src ← field_req m "src_mac" p pw_parse_mac (fail_diag PW_E_PARSE p "src_mac");
      dst ← field_req m "dst_mac" p pw_parse_mac (fail_diag PW_E_PARSE p "dst_mac");
      vs ← get_opt m "vlan" p;
      vlan ← opt_val vlan_ok 0 (fail_diag PW_E_OUT_OF_RANGE p "vlan must be 0..4094") vs;
      pcp ← field m "pcp" p pw_parse_u8 0 (fail_diag PW_E_PARSE p "pcp");
      fail_if (7 <? pcp) (fail_diag PW_E_OUT_OF_RANGE p "pcp must be 0..7") ;;
      et ← field m "ethertype" p pw_parse_u16 0
        (fail_diag PW_E_PARSE p "ethertype must be 16-bit");
      Ok {| l2_src_mac := src; l2_dst_mac := dst; l2_vlan_set := bool_decide (is_Some vs);
            l2_vlan := vlan; l2_pcp := pcp; l2_ethertype := et |}
  end.

Definition encap_types : list (string * pw_encap_kind) :=
  [("ipip", PW_ENCAP_IPIP); ("gre", PW_ENCAP_GRE); ("etherip", PW_ENCAP_ETHERIP)].

(** The optional inner Ethernet addresses: whether set, source, destination. *)
Definition parse_inner_l2 (ep : string) (node : option pw_yaml_node) : M (bool * list Z * list Z) :=
  match node with
  | None => Ok (false, zero_mac, zero_mac)
  | Some il2 =>
      let ip := cstr 112 (ep +:+ ".inner_l2") in
      m ← REQ_MAP (Some il2) ip;
      src ← field_req m "src_mac" ip pw_parse_mac (fail_diag PW_E_PARSE ip "src_mac");
      dst ← field_req m "dst_mac" ip pw_parse_mac (fail_diag PW_E_PARSE ip "dst_mac");
      Ok (true, src, dst)
  end.

Definition parse_encap (path : string) (node : option pw_yaml_node) : M pw_flow_encap :=
  match node with
  | None => Ok zero_encap
  | Some enc =>
      let ep := cstr 96 (path +:+ ".encap") in
      m ← REQ_MAP (Some enc) ep;
      type ← field_req m "type" ep (keyword encap_types)
        (fail_diag PW_E_PARSE ep "type must be ipip|gre|etherip");
      outer ← of_option (pw_yaml_map_get m "outer")
        (fail_diag PW_E_MISSING_FIELD ep "encap requires an outer block");
      let op := cstr 112 (ep +:+ ".outer") in
      outer ← REQ_MAP (Some outer) op;
      '(v4, v6) ← parse_ip_endpoint outer op;
      '(set, src, dst) ← parse_inner_l2 ep (pw_yaml_map_get m "inner_l2");
      Ok {| enc_present := true; enc_type := type; enc_outer_ipv4 := v4; enc_outer_ipv6 := v6;
            enc_inner_mac_set := set; enc_inner_src_mac := src; enc_inner_dst_mac := dst |}
  end.

Definition parse_l4 (path : string) (m : pw_yaml_node) : M pw_flow_udp :=
  let go := fun (tcp : bool) (l4 : pw_yaml_node) =>
    let up := cstr 96 (path +:+ "." +:+ (if tcp then "tcp" else "udp")) in
    l4 ← REQ_MAP (Some l4) up;
    sp ← field_req l4 "src_port" up pw_parse_u16 (fail_diag PW_E_PARSE up "src_port");
    dp ← field_req l4 "dst_port" up pw_parse_u16 (fail_diag PW_E_PARSE up "dst_port");
    flags ← (if tcp then field l4 "flags" up pw_parse_u8 0x02
                           (fail_diag PW_E_PARSE up "tcp flags must be 0..255")
             else Ok 0x02);
    Ok {| udp_src_port := sp; udp_dst_port := dp; udp_l4_proto := if tcp then 6 else 17;
          udp_tcp_flags := flags |} in
  match pw_yaml_map_get m "udp", pw_yaml_map_get m "tcp" with
  | Some _, Some _ => Err (fail_diag PW_E_INVAL path "set exactly one of udp / tcp")
  | None, None => Err (fail_diag PW_E_MISSING_FIELD path "flow requires a udp or tcp block")
  | Some udp, None => go false udp
  | None, Some tcp => go true tcp
  end.

(** The four frame-length fields: whether fixed, fixed, then min, max, step. *)
Definition parse_frame_len (tp : string) (tr : pw_yaml_node) : M (bool * Z * (Z * Z * Z)) :=
  fl ← get_opt tr "frame_len" tp;
  match fl with
  | Some s =>
      v ← of_option (pw_parse_u16 s) (fail_diag PW_E_PARSE tp "frame_len");
      Ok (true, v, (0, 0, 0))
  | None =>
      mn ← field_req tr "frame_len_min" tp pw_parse_u16 (fail_diag PW_E_PARSE tp "frame_len_min");
      mx ← field_req tr "frame_len_max" tp pw_parse_u16 (fail_diag PW_E_PARSE tp "frame_len_max");
      st ← field tr "frame_len_step" tp pw_parse_u16 1 (fail_diag PW_E_PARSE tp "frame_len_step");
      Ok (false, 0, (mn, mx, st))
  end.

Definition payload_kinds : list (string * pwfpga_payload_mode) :=
  [("zero", PWFPGA_PAYLOAD_ZERO); ("increment", PWFPGA_PAYLOAD_INCREMENT);
   ("prbs", PWFPGA_PAYLOAD_PRBS); ("random", PWFPGA_PAYLOAD_RANDOM)].

Definition templates : list (string * pw_frame_template) :=
  [("test", PW_FRAME_TEMPLATE_TEST); ("raw", PW_FRAME_TEMPLATE_L4RAW);
   ("ip", PW_FRAME_TEMPLATE_L3RAW); ("eth", PW_FRAME_TEMPLATE_L2RAW)].

Definition has_key (m : pw_yaml_node) (key : string) : bool :=
  bool_decide (is_Some (pw_yaml_map_get m key)).

(** The length and rate checks. *)
Definition check_traffic (tp : string) (tr : pw_yaml_node) (fixed_set : bool)
    (fixed mn mx st bps pps : Z) : M unit :=
  fail_if (fixed_set && (has_key tr "frame_len_min" || has_key tr "frame_len_max" ||
                         has_key tr "frame_len_step"))
    (fail_diag PW_E_INVAL tp "frame_len and frame_len_min/max/step are mutually exclusive") ;;
  let flo : Z := if fixed_set then fixed else mn in
  let fhi : Z := if fixed_set then fixed else mx in
  fail_if ((flo <? 60) || (1518 <? fhi))
    (fail_diag PW_E_INVAL tp "frame length out of range [60,1518]") ;;
  fail_if (fhi <? flo) (fail_diag PW_E_INVAL tp "frame_len_min exceeds frame_len_max") ;;
  fail_if (negb fixed_set && (st =? 0))
    (fail_diag PW_E_INVAL tp "frame_len_step must be >= 1") ;;
  fail_if (Bool.eqb (bps =? 0) (pps =? 0))
    (fail_diag PW_E_INVAL tp "exactly one of rate_bps / rate_pps required").

Definition parse_traffic (path : string) (node : option pw_yaml_node) : M pw_flow_traffic :=
  tr ← of_option node (fail_diag PW_E_MISSING_FIELD path "flow requires traffic block");
  let tp := cstr 96 (path +:+ ".traffic") in
  tr ← REQ_MAP (Some tr) tp;
  '(fixed_set, fixed, (mn, mx, st)) ← parse_frame_len tp tr;
  bps ← field tr "rate_bps" tp pw_parse_u64 0 (fail_diag PW_E_PARSE tp "rate_bps");
  pps ← field tr "rate_pps" tp pw_parse_u64 0 (fail_diag PW_E_PARSE tp "rate_pps");
  check_traffic tp tr fixed_set fixed mn mx st bps pps ;;
  burst ← field tr "burst_size" tp pw_parse_u32 1 (fail_diag PW_E_PARSE tp "burst_size");
  gap ← field tr "burst_gap_ticks" tp pw_parse_u32 0 (fail_diag PW_E_PARSE tp "burst_gap_ticks");
  pm ← field tr "payload" tp (keyword payload_kinds) PWFPGA_PAYLOAD_INCREMENT
    (fail_diag PW_E_INVAL tp "payload must be zero|increment|prbs|random");
  seed ← field tr "payload_seed" tp pw_parse_u32 0 (fail_diag PW_E_PARSE tp "payload_seed");
  iseq ← field tr "insert_sequence" tp pw_parse_bool true
    (fail_diag PW_E_PARSE tp "insert_sequence");
  its ← field tr "insert_timestamp" tp pw_parse_bool true
    (fail_diag PW_E_PARSE tp "insert_timestamp");
  ft ← field tr "frame_template" tp (keyword templates) PW_FRAME_TEMPLATE_TEST
    (fail_diag PW_E_INVAL tp "frame_template must be test|raw|ip|eth");
  Ok {| tr_frame_template := ft; tr_frame_len_fixed_set := fixed_set; tr_frame_len_fixed := fixed;
        tr_frame_len_min := mn; tr_frame_len_max := mx; tr_frame_len_step := st;
        tr_rate_bps := bps; tr_rate_pps := pps; tr_burst_size := burst; tr_burst_gap_ticks := gap;
        tr_payload_mode := pm; tr_payload_seed := seed; tr_insert_sequence := iseq;
        tr_insert_timestamp := its |}.

Definition parse_meas (path : string) (node : option pw_yaml_node) : M pw_flow_meas :=
  match node with
  | None => Ok zero_meas
  | Some meas =>
      let mp := cstr 96 (path +:+ ".measurements") in
      m ← REQ_MAP (Some meas) mp;
      let flag := fun f => field m f mp pw_parse_bool false (fail_diag PW_E_PARSE mp f) in
      loss ← flag "loss"; latency ← flag "latency"; jitter ← flag "jitter";
      Ok {| meas_loss := loss; meas_latency := latency; meas_jitter := jitter |}
  end.

(** The address modifiers of the flow's family: source, destination, and the two
    128-bit masks. *)
Definition parse_addr_mods (v6 : bool) (m : pw_yaml_node) (xp : string)
    : M (pw_field_mod * pw_field_mod * (list Z * list Z)) :=
  if v6 then
    '(src, smask) ← parse_ipv6_field_mod m "src_ipv6" xp;
    '(dst, dmask) ← parse_ipv6_field_mod m "dst_ipv6" xp;
    Ok (src, dst, (smask, dmask))
  else
    src ← parse_field_mod m "src_ipv4" xp;
    dst ← parse_field_mod m "dst_ipv4" xp;
    Ok (src, dst, (zero_v6, zero_v6)).

Definition parse_modifiers (path : string) (v6 : bool) (node : option pw_yaml_node)
    : M pw_flow_modifiers :=
  match node with
  | None => Ok zero_modifiers
  | Some mods =>
      let xp := cstr 96 (path +:+ ".modifiers") in
      m ← REQ_MAP (Some mods) xp;
      '(src, dst, (smask, dmask)) ← parse_addr_mods v6 m xp;
      usrc ← parse_field_mod m "udp_src" xp;
      udst ← parse_field_mod m "udp_dst" xp;
      smac ← parse_field_mod m "src_mac" xp;
      dmac ← parse_field_mod m "dst_mac" xp;
      vlan ← parse_field_mod m "vlan" xp;
      Ok {| mod_src_ipv4 := src; mod_dst_ipv4 := dst; mod_udp_src := usrc; mod_udp_dst := udst;
            mod_src_mac := smac; mod_dst_mac := dmac; mod_vlan := vlan;
            mod_src_ipv6_mask := smask; mod_dst_ipv6_mask := dmask |}
  end.

(** A match prefix: absent, or the mask of its length on an IPv6 flow. *)
Definition parse_match_prefix (mm : pw_yaml_node) (key mp : string) (v6 : bool)
    : M (option (list Z)) :=
  s ← get_opt mm key mp;
  match s with
  | None => Ok None
  | Some s =>
      fail_if (negb v6) (fail_diag PW_E_INVAL mp (key +:+ " requires an ipv6 flow")) ;;
      pfx ← of_option (strtoul_prefix s) (fail_diag PW_E_PARSE mp (key +:+ " must be 0..128"));
      Ok (Some (pw_v6_prefix_mask pfx))
  end.

(** The match masks: UDP destination, IPv4 destination, IPv6 destination and
    source. *)
Definition parse_match (path : string) (v6 : bool) (node : option pw_yaml_node)
    : M (Z * Z * (option (list Z) * option (list Z))) :=
  match node with
  | None => Ok (0xFFFF, 0xFFFFFFFF, (None, None))
  | Some mm =>
      let mp := cstr 96 (path +:+ ".match") in
      m ← REQ_MAP (Some mm) mp;
      ud ← field m "udp_dst" mp pw_parse_u16 0xFFFF
        (fail_diag PW_E_PARSE mp "udp_dst mask must be 16-bit");
      v4 ← field m "ipv4_dst" mp pw_parse_u32 0xFFFFFFFF
        (fail_diag PW_E_PARSE mp "ipv4_dst mask must be 32-bit");
      d6 ← parse_match_prefix m "ipv6_dst_prefix" mp v6;
      s6 ← parse_match_prefix m "ipv6_src_prefix" mp v6;
      Ok (ud, v4, (d6, s6))
  end.

Definition parse_flow (idx : nat) (node : pw_yaml_node) : M pw_flow :=
  let path := cstr 64 (at_idx "flows" idx "") in
  m ← REQ_MAP (Some node) path;
  id ← field_req m "id" path pw_parse_u32 (fail_diag PW_E_PARSE path "id must be unsigned integer");
  name ← get_opt m "name" path;
  txp ← field_req m "tx_global_port" path pw_parse_u16
    (fail_diag PW_E_PARSE path "tx_global_port must be unsigned integer");
  rxp ← field_req m "rx_global_port" path pw_parse_u16
    (fail_diag PW_E_PARSE path "rx_global_port must be unsigned integer");
  lif ← field m "logical_if_id" path pw_parse_u32 0
    (fail_diag PW_E_PARSE path "logical_if_id must be unsigned integer");
  l2 ← parse_flow_l2 path (pw_yaml_map_get m "l2");
  '(v4, v6) ← parse_ip_endpoint m path;
  enc ← parse_encap path (pw_yaml_map_get m "encap");
  rxe ← field m "rx_expect" path
    (keyword [("inner", PW_RX_INNER); ("tunneled", PW_RX_TUNNELED)]) PW_RX_INNER
    (fail_diag PW_E_PARSE path "rx_expect must be inner|tunneled");
  udp ← parse_l4 path m;
  tr ← parse_traffic path (pw_yaml_map_get m "traffic");
  meas ← parse_meas path (pw_yaml_map_get m "measurements");
  mods ← parse_modifiers path (v6_present v6) (pw_yaml_map_get m "modifiers");
  bg ← field m "background" path pw_parse_bool false
    (fail_diag PW_E_PARSE path "background must be true/false");
  '(mud, mv4, (md6, ms6)) ← parse_match path (v6_present v6) (pw_yaml_map_get m "match");
  cls ← field m "classify" path (keyword [("header", true); ("map", false)]) false
    (fail_diag PW_E_INVAL path "classify must be map|header");
  Ok {| f_id := id; f_name := cstr PW_NAME_MAX (default "" name); f_tx_global_port := txp;
        f_rx_global_port := rxp; f_logical_if_id := lif; f_l2 := l2; f_ipv4 := v4; f_ipv6 := v6;
        f_udp := udp; f_traffic := tr; f_meas := meas; f_mod := mods; f_background := bg;
        f_encap := enc; f_rx_expect := rxe; f_match_udp_dst_mask := mud;
        f_match_ipv4_dst_mask := mv4; f_match_ipv6_dst_set := bool_decide (is_Some md6);
        f_match_ipv6_dst_mask := default zero_v6 md6;
        f_match_ipv6_src_set := bool_decide (is_Some ms6);
        f_match_ipv6_src_mask := default zero_v6 ms6; f_classify_header := cls |}.

(** ** [forwards] *)

(** An optional address with its mask. *)
Definition parse_cidr (m : pw_yaml_node) (key path : string) : M (option (list Z * list Z)) :=
  s ← get_opt m key path;
  match s with
  | None => Ok None
  | Some s =>
      am ← of_option (pw_parse_ipv6_cidr s)
        (fail_diag PW_E_PARSE path (key +:+ " must be an IPv6 address or addr/prefix"));
      Ok (Some am)
  end.

Definition parse_forward (idx : nat) (node : pw_yaml_node) : M pw_forward_rule :=
  let path := cstr 64 (at_idx "forwards" idx "") in
  m ← REQ_MAP (Some node) path;
  ing ← field_req m "ingress_port" path pw_parse_u16
    (fail_diag PW_E_PARSE path "ingress_port must be unsigned integer");
  egr ← field_req m "egress_port" path pw_parse_u16
    (fail_diag PW_E_PARSE path "egress_port must be unsigned integer");
  name ← get_opt m "name" path;
  prio ← field m "priority" path pw_parse_u8 40
    (fail_diag PW_E_OUT_OF_RANGE path "priority must be 0..255");
  et ← field m "ethertype" path pw_parse_u16 0
    (fail_diag PW_E_PARSE path "ethertype must be a 16-bit value");
  proto ← field m "ip_proto" path pw_parse_u8 0
    (fail_diag PW_E_PARSE path "ip_proto must be 0..255");
  ud ← field m "udp_dst" path pw_parse_u16 0
    (fail_diag PW_E_PARSE path "udp_dst must be a 16-bit value");
  vlan ← field m "vlan" path vlan_ok 0 (fail_diag PW_E_OUT_OF_RANGE path "vlan must be 0..4094");
  dst ← parse_cidr m "ipv6_dst" path;
  src ← parse_cidr m "ipv6_src" path;
  Ok {| fr_name := cstr PW_NAME_MAX (default "" name); fr_ingress_port := ing;
        fr_egress_port := egr; fr_priority := prio; fr_ethertype := et; fr_ip_proto := proto;
        fr_udp_dst := ud; fr_vlan := vlan;
        fr_ipv6_dst_set := bool_decide (is_Some dst);
        fr_ipv6_dst := (default (zero_v6, zero_v6) dst).1;
        fr_ipv6_dst_mask := (default (zero_v6, zero_v6) dst).2;
        fr_ipv6_src_set := bool_decide (is_Some src);
        fr_ipv6_src := (default (zero_v6, zero_v6) src).1;
        fr_ipv6_src_mask := (default (zero_v6, zero_v6) src).2 |}.

(** ** The root *)

Definition reject_unknown_keys (m : pw_yaml_node) (path : string) (allowed : list string) : M unit :=
  match m with
  | PW_YAML_MAP _ items =>
      for_each 0 items (fun _ kv _ =>
        fail_if (bool_decide (kv.1 ∉ allowed))
          (fail_diag PW_E_PARSE path ("unknown key '" +:+ kv.1 +:+ "'")))
  | _ => Ok tt
  end.

Definition root_keys : list string := ["system"; "cards"; "logical_interfaces"; "flows"; "forwards"].

(** An optional top-level sequence. *)
Definition parse_list {A} (root : pw_yaml_node) (key : string) (f : nat -> pw_yaml_node -> M A)
    (dflt : list A) : M (list A) :=
  match pw_yaml_map_get root key with
  | None => Ok dflt
  | Some n => items ← REQ_SEQ (Some n) key; map_idx f 0 items
  end.

Definition PW_CFG_TEST_ONLY : Z := 1.

(** [cards] is required unless [test_only]; at most [PW_MAX_CARDS]. *)
Definition parse_cards (root : pw_yaml_node) (test_only : bool) (dflt : list pw_card) : M (list pw_card) :=
  match pw_yaml_map_get root "cards", test_only with
  | None, true => Ok dflt
  | node, _ =>
      items ← REQ_SEQ node "cards";
      fail_if (PW_MAX_CARDS <? length items)%nat
        (fail_diag PW_E_OUT_OF_RANGE "cards" "too many cards (max 16)") ;;
      map_idx parse_card 0 items
  end.

Definition parse_root (root : pw_yaml_node) (flags : Z) (cfg : pw_config) : M pw_config :=
  root ← REQ_MAP (Some root) "";
  let test_only := ztrue (flags &&& PW_CFG_TEST_ONLY) in
  reject_unknown_keys root "" root_keys ;;
  sys ← (match pw_yaml_map_get root "system", test_only with
         | None, true => Ok (cfg_system cfg)
         | node, _ => parse_system node
         end);
  cards ← parse_cards root test_only (cfg_cards cfg);
  lifs ← parse_list root "logical_interfaces" parse_logical_if (cfg_logical_if cfg);
  flows ← parse_list root "flows" parse_flow (cfg_flows cfg);
  fwds ← parse_list root "forwards" parse_forward (cfg_forwards cfg);
  Ok {| cfg_system := sys; cfg_cards := cards; cfg_logical_if := lifs; cfg_flows := flows;
        cfg_forwards := fwds |}.

(** ** Entry points *)

(** The events libyaml delivers for the text are [p]. *)
Definition pw_config_parse_string_ex (p : yaml_parser) (flags : Z) (cfg : pw_config) : M pw_config :=
  match pw_yaml_parse p with
  | Err (msg, line) =>
      Err (fail_diag PW_E_PARSE ("line " +:+ str_Z line)
             (if str_eq msg "" then "YAML parse error" else msg))
  | Ok root => parse_root root flags cfg
  end.

Definition pw_config_parse_string (p : yaml_parser) (cfg : pw_config) : M pw_config :=
  pw_config_parse_string_ex p 0 cfg.

(** How [fopen] of a path answers: [strerror] of its failure, or the size [ftell]
    reports, whether [malloc] succeeds, and the bytes the file delivers. *)
Inductive file_answer := NoFile (why : string) | File (size : Z) (alloc : bool) (bytes : string).

Definition file_text (path : string) (a : file_answer) : M string :=
  match a with
  | NoFile why => Err (fail_diag PW_E_IO path ("open: " +:+ why))
  | File size alloc bytes =>
      if size <? 0 then Err (fail_bare PW_E_IO) else
      if negb alloc then Err (fail_bare PW_E_NO_RESOURCES) else
      Ok (String.substring 0 (Z.to_nat size) bytes)
  end.

(** [libyaml] is the parser as a function of the text. *)
Definition pw_config_parse_file_ex (libyaml : string -> yaml_parser) (path : string) (a : file_answer)
    (flags : Z) (cfg : pw_config) : M pw_config :=
  t ← file_text path a; pw_config_parse_string_ex (libyaml t) flags cfg.

Definition pw_config_parse_file (libyaml : string -> yaml_parser) (path : string) (a : file_answer)
    (cfg : pw_config) : M pw_config :=
  pw_config_parse_file_ex libyaml path a 0 cfg.
End Reader.
