(* ===== verification/ReaderProps.v ===== *)
(** * What the configuration reader guarantees

    Every configuration the reader returns is well typed and within the limits
    the schema states, which discharges the typing hypotheses of the flow
    compiler's and the preview's theorems; every rejection is diagnosed; and a
    flow written out as a tree is read back. *)

From S2P Require Import Prelude Types Config Validate FlowRow Scalar Yaml ConfigParse.

Local Open Scope string_scope.
Local Open Scope Z_scope.
Local Open Scope list_scope.

(** ** The limits *)

Record read_l2 (l : pw_flow_l2) : Prop := {
  rl_smac : wt_bytes 6 (l2_src_mac l); rl_dmac : wt_bytes 6 (l2_dst_mac l);
  rl_vlan : 0 <= l2_vlan l < 4095; rl_pcp : 0 <= l2_pcp l <= 7; rl_et : is_u16 (l2_ethertype l)
}.

Record read_traffic (t : pw_flow_traffic) : Prop := {
  rt_wt : wt_traffic t;
  rt_fixed : tr_frame_len_fixed_set t = true -> 60 <= tr_frame_len_fixed t <= 1518;
  rt_range : tr_frame_len_fixed_set t = false ->
    60 <= tr_frame_len_min t <= tr_frame_len_max t /\ tr_frame_len_max t <= 1518 /\
    1 <= tr_frame_len_step t;
  rt_rate : tr_rate_bps t = 0 <-> tr_rate_pps t <> 0
}.

Record read_mods (m : pw_flow_modifiers) : Prop := {
  rm_masks : Forall (fun fm => is_w 48 (fm_mask fm))
    [mod_src_ipv4 m; mod_dst_ipv4 m; mod_udp_src m; mod_udp_dst m; mod_src_mac m;
     mod_dst_mac m; mod_vlan m];
  rm_s6 : wt_bytes 16 (mod_src_ipv6_mask m); rm_d6 : wt_bytes 16 (mod_dst_ipv6_mask m)
}.

Record read_encap (e : pw_flow_encap) : Prop := {
  re_o4 : wt_ipv4 (enc_outer_ipv4 e); re_o6 : wt_ipv6 (enc_outer_ipv6 e);
  re_smac : wt_bytes 6 (enc_inner_src_mac e); re_dmac : wt_bytes 6 (enc_inner_dst_mac e);
  re_type : enc_present e = true <-> enc_type e <> PW_ENCAP_NONE
}.

Record read_flow (f : pw_flow) : Prop := {
  rf_wt : wt_flow f;
  rf_ports : is_u16 (f_tx_global_port f) /\ is_u16 (f_rx_global_port f);
  rf_l2 : read_l2 (f_l2 f);
  rf_family : v4_present (f_ipv4 f) = negb (v6_present (f_ipv6 f));
  rf_l4 : udp_l4_proto (f_udp f) = 6 \/ udp_l4_proto (f_udp f) = 17;
  rf_traffic : read_traffic (f_traffic f);
  rf_mods : read_mods (f_mod f);
  rf_encap : read_encap (f_encap f);
  rf_match : is_u16 (f_match_udp_dst_mask f) /\ is_u32 (f_match_ipv4_dst_mask f) /\
    wt_bytes 16 (f_match_ipv6_dst_mask f) /\ wt_bytes 16 (f_match_ipv6_src_mask f)
}.

Record read_card (c : pw_card) : Prop := {
  rc_id : is_u16 (card_id c);
  rc_n : (1 <= length (card_ports c) <= 2)%nat;
  rc_ports : Forall (fun p => 0 <= cp_local_port p < 2 /\ is_u16 (cp_global_port p)) (card_ports c)
}.

Record read_lif (l : pw_logical_if) : Prop := {
  ri_id : is_u32 (lif_id l); ri_gp : is_u16 (lif_global_port l);
  ri_vlan : 0 <= lif_vlan l < 4095; ri_mac : wt_bytes 6 (lif_mac l); ri_mtu : is_u16 (lif_mtu l)
}.

Record read_forward (r : pw_forward_rule) : Prop := {
  rr_ports : is_u16 (fr_ingress_port r) /\ is_u16 (fr_egress_port r);
  rr_prio : is_u8 (fr_priority r); rr_et : is_u16 (fr_ethertype r); rr_proto : is_u8 (fr_ip_proto r);
  rr_udp : is_u16 (fr_udp_dst r); rr_vlan : 0 <= fr_vlan r < 4095;
  rr_dst : wt_bytes 16 (fr_ipv6_dst r) /\ wt_bytes 16 (fr_ipv6_dst_mask r);
  rr_src : wt_bytes 16 (fr_ipv6_src r) /\ wt_bytes 16 (fr_ipv6_src_mask r)
}.

Record read_config (cfg : pw_config) : Prop := {
  rcf_cards : (length (cfg_cards cfg) <= 16)%nat /\ Forall read_card (cfg_cards cfg);
  rcf_lifs : Forall read_lif (cfg_logical_if cfg);
  rcf_flows : Forall read_flow (cfg_flows cfg);
  rcf_forwards : Forall read_forward (cfg_forwards cfg)
}.

(** ** Reading a field keeps what its parser promises *)

Create HintDb read.

Lemma field_spec {A} (P : A -> Prop) m key path (parse : string -> option A) d e v :
  field m key path parse d e = Ok v -> P d -> (forall s v, parse s = Some v -> P v) -> P v.
Proof.
  unfold field. intros (s & _ & H)%bind_ok Hd Hp. destruct s; simpl in H; [|congruence].
  apply of_option_ok in H. eauto.
Qed.

Lemma opt_val_spec {A} (P : A -> Prop) (parse : string -> option A) d e s v :
  opt_val parse d e s = Ok v -> P d -> (forall s v, parse s = Some v -> P v) -> P v.
Proof. destruct s; simpl; [|congruence]. intros H%of_option_ok. eauto. Qed.

Lemma field_req_spec {A} (P : A -> Prop) m key path (parse : string -> option A) e v :
  field_req m key path parse e = Ok v -> (forall s v, parse s = Some v -> P v) -> P v.
Proof. unfold field_req. intros (s & _ & H%of_option_ok)%bind_ok Hp. eauto. Qed.

Lemma checked_spec parse ok s v : checked parse ok s = Some v -> parse s = Some v /\ ok v = true.
Proof. intros (x & Hx & H)%bind_Some. case_match; simplify_eq. done. Qed.

Lemma vlan_ok_spec s v : vlan_ok s = Some v -> 0 <= v < 4095.
Proof. intros [Hv%parse_u16_w H]%checked_spec. unfold is_w in Hv. lia. Qed.

Lemma map_idx_spec {A B} (P : B -> Prop) (f : nat -> A -> M B) l : forall i ys,
  map_idx f i l = Ok ys -> (forall i x y, f i x = Ok y -> P y) ->
  length ys = length l /\ Forall P ys.
Proof.
  induction l as [|x l IH]; simpl; intros i ys Hm Hf; [by mon|].
  apply bind_ok in Hm as (y & Hy & (ys' & Hys & [= <-])%bind_ok).
  destruct (IH _ _ Hys Hf). simpl. split; [congruence|]. constructor; eauto.
Qed.

Lemma prefix_mask_wt prefix : wt_bytes 16 (pw_v6_prefix_mask prefix).
Proof.
  split; [done|]. apply Forall_fmap, Forall_forall. intros i _. unfold compose, prefix_byte.
  destruct (_ =? 0); [unfold is_w; lia|apply u8_w].
Qed.

Lemma wt_mac_zero : wt_bytes 6 zero_mac. Proof. apply wt_bytes_zero. Qed.
Lemma wt_v6_zero : wt_bytes 16 zero_v6. Proof. apply wt_bytes_zero. Qed.
Lemma wt_ipv4_zero : wt_ipv4 zero_ipv4. Proof. split; unfold is_w; simpl; lia. Qed.
Lemma wt_ipv6_zero : wt_ipv6 zero_ipv6.
Proof. split; try apply wt_v6_zero; unfold is_w; simpl; lia. Qed.
#[export] Hint Resolve wt_mac_zero wt_v6_zero wt_ipv4_zero wt_ipv6_zero prefix_mask_wt
  parse_u64_w parse_u32_w parse_u16_w parse_u8_w parse_mac_wt vlan_ok_spec : read.

(** Facts about the fields read so far. *)
Ltac fields :=
  repeat match goal with
  | H : field _ _ _ pw_parse_u64 _ _ = Ok _ |- _ => apply (field_spec is_u64) in H; [|unfold is_w; lia|exact parse_u64_w]
  | H : field _ _ _ pw_parse_u32 _ _ = Ok _ |- _ => apply (field_spec is_u32) in H; [|unfold is_w; lia|exact parse_u32_w]
  | H : field _ _ _ pw_parse_u16 _ _ = Ok _ |- _ => apply (field_spec is_u16) in H; [|unfold is_w; lia|exact parse_u16_w]
  | H : field _ _ _ pw_parse_u8 _ _ = Ok _ |- _ => apply (field_spec is_u8) in H; [|unfold is_w; lia|exact parse_u8_w]
  | H : field _ _ _ vlan_ok _ _ = Ok _ |- _ => apply (field_spec (fun v => 0 <= v < 4095)) in H; [|lia|exact vlan_ok_spec]
  | H : opt_val vlan_ok _ _ _ = Ok _ |- _ => apply (opt_val_spec (fun v => 0 <= v < 4095)) in H; [|lia|exact vlan_ok_spec]
  | H : field_req _ _ _ pw_parse_u32 _ = Ok _ |- _ => apply (field_req_spec is_u32) in H; [|exact parse_u32_w]
  | H : field_req _ _ _ pw_parse_u16 _ = Ok _ |- _ => apply (field_req_spec is_u16) in H; [|exact parse_u16_w]
  | H : field_req _ _ _ pw_parse_mac _ = Ok _ |- _ => apply (field_req_spec (wt_bytes 6)) in H; [|exact parse_mac_wt]
  end.

Section Typed.
Context `{InetPton}.

Lemma parse_ipv6_wt s a : pw_parse_ipv6 s = Some a -> wt_bytes 16 a.
Proof. apply inet_pton6_bytes. Qed.
Lemma parse_ipv4_w s a : pw_parse_ipv4 s = Some a -> is_u32 a.
Proof. apply inet_pton4_u32. Qed.

Lemma dscp_ok_spec s v : dscp_ok s = Some v -> is_u8 v.
Proof. intros [Hv%parse_u8_w _]%checked_spec. done. Qed.

Lemma parse_ip_endpoint_wt parent path v4 v6 :
  parse_ip_endpoint parent path = Ok (v4, v6) ->
  wt_ipv4 v4 /\ wt_ipv6 v6 /\ v4_present v4 = negb (v6_present v6).
Proof.
  unfold parse_ip_endpoint. intros Hp. repeat case_match; try done; mon; fields;
    repeat match goal with
    | H : field_req _ _ _ pw_parse_ipv6 _ = Ok _ |- _ =>
        apply (field_req_spec (wt_bytes 16)) in H; [|exact parse_ipv6_wt]
    | H : field_req _ _ _ pw_parse_ipv4 _ = Ok _ |- _ =>
        apply (field_req_spec is_u32) in H; [|exact parse_ipv4_w]
    | H : field _ _ _ dscp_ok _ _ = Ok _ |- _ =>
        apply (field_spec is_u8) in H; [|unfold is_w; lia|exact dscp_ok_spec]
    end; simplify_eq; split_and!; try done; auto with read; by split.
Qed.

Lemma parse_flow_l2_read path node l : parse_flow_l2 path node = Ok l -> read_l2 l.
Proof.
  unfold parse_flow_l2. destruct node; intros Hp; mon.
  - fields. unfold is_w in *. split; simpl; try done; lia.
  - split; simpl; auto with read; unfold is_w; lia.
Qed.

Lemma parse_inner_l2_read ep node r : parse_inner_l2 ep node = Ok r ->
  wt_bytes 6 r.1.2 /\ wt_bytes 6 r.2.
Proof.
  unfold parse_inner_l2. destruct node; intros Hp; mon; fields; simpl; auto with read.
Qed.

Lemma keyword_in {A} (kws : list (string * A)) s a : keyword kws s = Some a -> a ∈ kws.*2.
Proof.
  induction kws as [|[k b] kws IH]; simpl; [done|]. destruct (str_eq s k); intros Ha; simplify_eq;
    [left|right; auto].
Qed.

Lemma parse_encap_read path node e : parse_encap path node = Ok e -> read_encap e.
Proof.
  unfold parse_encap. destruct node as [enc|]; intros Hp; cbv zeta in Hp.
  - apply bind_ok in Hp as (m & _ & Hp).
    apply bind_ok in Hp as (ty & Hty & Hp). apply bind_ok in Hp as (outer & _ & Hp).
    apply bind_ok in Hp as (o' & _ & Hp). apply bind_ok in Hp as ([v4 v6] & Hip & Hp).
    apply bind_ok in Hp as ([[set src] dst] & Hil & [= <-]).
    apply parse_ip_endpoint_wt in Hip as (? & ? & _). apply parse_inner_l2_read in Hil as [? ?].
    split; simpl; try done. split; [|done]. intros _ ->.
    apply (field_req_spec (fun t => t ∈ encap_types.*2)) in Hty; [set_solver|apply keyword_in].
  - mon. split; simpl; auto with read. done.
Qed.

Lemma parse_l4_read path m u : parse_l4 path m = Ok u ->
  is_u16 (udp_src_port u) /\ is_u16 (udp_dst_port u) /\ is_u8 (udp_tcp_flags u) /\
  (udp_l4_proto u = 6 \/ udp_l4_proto u = 17).
Proof.
  unfold parse_l4. intros Hp. repeat case_match; try done; mon; fields; simpl; split_and!; auto;
    unfold is_w; lia.
Qed.

Lemma parse_frame_len_read tp tr r : parse_frame_len tp tr = Ok r ->
  is_u16 r.1.2 /\ is_u16 r.2.1.1 /\ is_u16 r.2.1.2 /\ is_u16 r.2.2.
Proof.
  unfold parse_frame_len. intros (s & _ & Hp)%bind_ok. destruct s; mon; fields; simpl;
    split_and!; eauto with read; unfold is_w; lia.
Qed.

Lemma check_traffic_ok tp tr fs fixed mn mx st bps pps u :
  check_traffic tp tr fs fixed mn mx st bps pps = Ok u ->
  (fs = true -> 60 <= fixed <= 1518) /\
  (fs = false -> 60 <= mn <= mx /\ mx <= 1518 /\ st <> 0) /\ (bps = 0 <-> pps <> 0).
Proof.
  unfold check_traffic. intros Hp. mon.
  destruct fs; simpl in *; split_and!; try done; intros; try lia;
    destruct (Z.eqb_spec bps 0), (Z.eqb_spec pps 0); simpl in *; try done; lia.
Qed.

Lemma parse_traffic_read path node t : parse_traffic path node = Ok t -> read_traffic t.
Proof.
  unfold parse_traffic. intros (tr & _ & Hp)%bind_ok. cbv zeta in Hp.
  apply bind_ok in Hp as (tr' & _ & Hp).
  apply bind_ok in Hp as ([[fs fixed] [[mn mx] st]] & Hfl%parse_frame_len_read & Hp). mon.
  match goal with Hc : check_traffic _ _ _ _ _ _ _ _ _ = Ok _ |- _ =>
    apply check_traffic_ok in Hc as (Hfix & Hrange & Hrate) end.
  fields. simpl in Hfl.
  destruct Hfl as (? & ? & ? & Hst). unfold is_w in Hst.
  split; simpl; [by split|done| |done]. intros ->.
  destruct (Hrange eq_refl) as (? & ? & ?). lia.
Qed.

Lemma parse_field_mod_read m key path fm : parse_field_mod m key path = Ok fm -> is_w 48 (fm_mask fm).
Proof.
  unfold parse_field_mod. intros Hp. case_match; cbv zeta in Hp; [|mon; unfold is_w; simpl; lia].
  apply bind_ok in Hp as (m' & _ & Hp). apply bind_ok in Hp as (mode & _ & Hp).
  apply bind_ok in Hp as (mask & Hm & [= <-]).
  apply (field_spec (is_w 48)) in Hm; [done|unfold is_w; lia|].
  intros s v [Hv%parse_u64_w Hle]%checked_spec. unfold is_w in *. lia.
Qed.

Lemma mask16_wt v : wt_bytes 16 (mask16_of v).
Proof.
  split; [done|]. unfold mask16_of. apply Forall_app. split; [|repeat constructor; apply u8_w].
  apply Forall_replicate. unfold is_w. lia.
Qed.

Lemma parse_ipv6_mask_wt p s m : parse_ipv6_mask p s = Ok m -> wt_bytes 16 m.
Proof.
  unfold parse_ipv6_mask. destruct s as [s|]; [|intros; mon; auto with read].
  destruct (has_colon s); intros Hp; mon; [by eapply parse_ipv6_wt|apply mask16_wt].
Qed.

Lemma be32_at_w l off : Forall is_u8 l -> is_u32 (be32_at l off).
Proof.
  intros Hl. assert (forall i, is_u8 (nth i l 0)) as Hn.
  { intros i. destruct (nth_in_or_default i l 0) as [Hi| ->]; [|unfold is_w; lia].
    rewrite Forall_forall in Hl. by apply Hl, list_elem_of_In. }
  unfold be32_at, be32. repeat apply is_w_lor; try lia;
    try (eapply is_w_le; [|apply is_w_shiftl; [|apply Hn]]; lia).
  eapply is_w_le; [|apply Hn]. lia.
Qed.

Lemma parse_ipv6_field_mod_read m key path r : parse_ipv6_field_mod m key path = Ok r ->
  is_w 48 (fm_mask r.1) /\ wt_bytes 16 r.2.
Proof.
  unfold parse_ipv6_field_mod. intros Hp. case_match; cbv zeta in Hp;
    [|mon; split; [unfold is_w; simpl; lia|auto with read]].
  apply bind_ok in Hp as (m' & _ & Hp). apply bind_ok in Hp as (mode & _ & Hp).
  apply bind_ok in Hp as (s & _ & Hp).
  apply bind_ok in Hp as (mask & Hm%parse_ipv6_mask_wt & [= <-]).
  split; [|done]. eapply is_w_le; [|apply be32_at_w, Hm]. lia.
Qed.

Lemma parse_addr_mods_read v6 m xp r : parse_addr_mods v6 m xp = Ok r ->
  is_w 48 (fm_mask r.1.1) /\ is_w 48 (fm_mask r.1.2) /\ wt_bytes 16 r.2.1 /\ wt_bytes 16 r.2.2.
Proof.
  unfold parse_addr_mods. destruct v6; intros Hp.
  - apply bind_ok in Hp as ([s sm] & Hs & Hp). apply bind_ok in Hp as ([d dm] & Hd & [= <-]).
    apply parse_ipv6_field_mod_read in Hs, Hd. simpl in *. naive_solver.
  - mon. simpl. split_and!; eauto using parse_field_mod_read with read.
Qed.

Lemma parse_modifiers_read path v6 node m : parse_modifiers path v6 node = Ok m -> read_mods m.
Proof.
  unfold parse_modifiers. destruct node as [n|]; intros Hp; cbv zeta in Hp.
  - apply bind_ok in Hp as (m' & _ & Hp).
    apply bind_ok in Hp as ([[s d] [sm dm]] & Ha%parse_addr_mods_read & Hp). mon.
    simpl in Ha. destruct Ha as (? & ? & ? & ?). split; simpl; [|done..].
    repeat (constructor; [first [done|by eapply parse_field_mod_read]|]). constructor.
  - mon. split; simpl; auto with read. repeat constructor; unfold is_w; simpl; lia.
Qed.

Lemma parse_match_prefix_wt mm key mp v6 r : parse_match_prefix mm key mp v6 = Ok r ->
  wt_bytes 16 (default zero_v6 r).
Proof.
  unfold parse_match_prefix. intros (s & _ & Hp)%bind_ok. destruct s; mon; simpl; auto with read.
Qed.

Lemma parse_match_read path v6 node r : parse_match path v6 node = Ok r ->
  is_u16 r.1.1 /\ is_u32 r.1.2 /\ wt_bytes 16 (default zero_v6 r.2.1) /\
  wt_bytes 16 (default zero_v6 r.2.2).
Proof.
  unfold parse_match. destruct node; intros Hp; mon; fields; simpl; split_and!;
    eauto using parse_match_prefix_wt with read; unfold is_w; lia.
Qed.

Lemma read_l2_wt_vlan l : read_l2 l -> is_u16 (l2_vlan l) /\ is_u8 (l2_pcp l).
Proof. intros []. unfold is_w. lia. Qed.

Lemma parse_flow_read idx node f : parse_flow idx node = Ok f -> read_flow f.
Proof.
  unfold parse_flow. cbv zeta. intros Hp. apply bind_ok in Hp as (m & _ & Hp).
  apply bind_ok in Hp as (id & Hid & Hp). apply bind_ok in Hp as (name & _ & Hp).
  apply bind_ok in Hp as (txp & Htx & Hp). apply bind_ok in Hp as (rxp & Hrx & Hp).
  apply bind_ok in Hp as (lif & Hlif & Hp). apply bind_ok in Hp as (l2 & Hl2 & Hp).
  apply bind_ok in Hp as ([v4 v6] & Hip & Hp). apply bind_ok in Hp as (enc & Henc & Hp).
  apply bind_ok in Hp as (rxe & _ & Hp). apply bind_ok in Hp as (udp & Hudp & Hp).
  apply bind_ok in Hp as (tr & Htr & Hp). apply bind_ok in Hp as (meas & _ & Hp).
  apply bind_ok in Hp as (mods & Hmods & Hp). apply bind_ok in Hp as (bg & _ & Hp).
  apply bind_ok in Hp as ([[mud mv4] [md6 ms6]] & Hm & Hp).
  apply bind_ok in Hp as (cls & _ & [= <-]). fields.
  apply parse_flow_l2_read in Hl2. apply parse_ip_endpoint_wt in Hip as (Hv4 & Hv6 & Hfam).
  apply parse_encap_read in Henc. apply parse_l4_read in Hudp as (Hsp & Hdp & Htcp & Hl4).
  apply parse_traffic_read in Htr. apply parse_modifiers_read in Hmods.
  apply parse_match_read in Hm. pose proof (read_l2_wt_vlan _ Hl2) as [Hvl Hpc].
  split; simpl; try done. destruct Hl2, Henc, Htr, Hmods.
  split; simpl; try done. unfold is_w. lia.
Qed.

Lemma parse_card_port_read path node p : parse_card_port path node = Ok p ->
  0 <= cp_local_port p < 2 /\ is_u16 (cp_global_port p).
Proof.
  unfold parse_card_port. intros Hp. apply bind_ok in Hp as (m & _ & Hp).
  apply bind_ok in Hp as (lp & Hlp & Hp). mon. fields. simpl. split; [|done].
  apply (field_req_spec (fun v => 0 <= v < 2)) in Hlp; [done|].
  intros s v [Hv%parse_u8_w Hlt]%checked_spec. unfold is_w in Hv.
  change (Z.of_nat PW_PORTS_PER_CARD) with 2 in Hlt. lia.
Qed.

Lemma parse_card_read idx node c : parse_card idx node = Ok c -> read_card c.
Proof.
  unfold parse_card. cbv zeta. intros Hp. apply bind_ok in Hp as (m & _ & Hp).
  apply bind_ok in Hp as (id & Hid & Hp). apply bind_ok in Hp as (name & _ & Hp).
  apply bind_ok in Hp as (pci & _ & Hp). apply bind_ok in Hp as (ports & _ & Hp).
  apply bind_ok in Hp as ([] & Hn%fail_if_ok & Hp).
  apply bind_ok in Hp as (ps & Hps & [= <-]). fields.
  eapply map_idx_spec in Hps as [Hl Hps];
    [|intros ? ? ?; apply parse_card_port_read].
  apply orb_false_elim in Hn as [H0 H2].
  apply Nat.eqb_neq in H0. apply Nat.ltb_ge in H2. unfold PW_PORTS_PER_CARD in H2.
  split; simpl; [done|lia|done].
Qed.

Lemma parse_logical_if_read idx node l : parse_logical_if idx node = Ok l -> read_lif l.
Proof. unfold parse_logical_if. cbv zeta. intros Hp. mon. fields. by split. Qed.

Lemma parse_cidr_read m key path r : parse_cidr m key path = Ok r ->
  wt_bytes 16 (default (zero_v6, zero_v6) r).1 /\ wt_bytes 16 (default (zero_v6, zero_v6) r).2.
Proof.
  unfold parse_cidr. intros (s & _ & Hp)%bind_ok. destruct s as [s|]; [|mon; simpl; auto with read].
  apply bind_ok in Hp as (am & Hc%of_option_ok & [= <-]).
  unfold pw_parse_ipv6_cidr in Hc. destruct (split_slash s) as [addr sfx].
  apply bind_Some in Hc as (prefix & _ & (a & Ha%parse_ipv6_wt & [= <-])%bind_Some).
  simpl. auto with read.
Qed.

Lemma parse_forward_read idx node r : parse_forward idx node = Ok r -> read_forward r.
Proof.
  unfold parse_forward. cbv zeta. intros Hp. mon. fields.
  repeat match goal with Hc : parse_cidr _ _ _ = Ok _ |- _ => apply parse_cidr_read in Hc end.
  by split.
Qed.

Lemma parse_list_read {A} (P : A -> Prop) root key (f : nat -> pw_yaml_node -> M A) d l :
  parse_list root key f d = Ok l -> Forall P d -> (forall i n a, f i n = Ok a -> P a) -> Forall P l.
Proof.
  unfold parse_list. intros Hp Hd Hf. case_match; mon; [|done].
  match goal with Hm : map_idx _ _ _ = Ok _ |- _ => by eapply map_idx_spec in Hm as [_ ?] end.
Qed.

Lemma parse_cards_read root test_only d l :
  parse_cards root test_only d = Ok l ->
  (length d <= 16)%nat /\ Forall read_card d -> (length l <= 16)%nat /\ Forall read_card l.
Proof.
  unfold parse_cards. intros Hp Hd.
  assert (forall node, (items ← REQ_SEQ node "cards";
      fail_if (PW_MAX_CARDS <? length items)%nat
        (fail_diag PW_E_OUT_OF_RANGE "cards" "too many cards (max 16)") ;;
      map_idx parse_card 0 items) = Ok l -> (length l <= 16)%nat /\ Forall read_card l) as Hgo.
  { intros node Hq. apply bind_ok in Hq as (items & _ & Hq).
    apply bind_ok in Hq as ([] & Hn%fail_if_ok & Hq). apply Nat.ltb_ge in Hn.
    eapply map_idx_spec in Hq as [Hl Hc]; [|intros ? ? ?; apply parse_card_read].
    unfold PW_MAX_CARDS in Hn. split; [lia|done]. }
  repeat case_match; eauto. mon. done.
Qed.

Lemma parse_root_read (root : pw_yaml_node) (flags : Z) (cfg cfg' : pw_config) :
  read_config cfg -> parse_root root flags cfg = Ok cfg' -> read_config cfg'.
Proof.
  intros Hcfg. unfold parse_root. cbv zeta. intros Hp. apply bind_ok in Hp as (m & _ & Hp).
  apply bind_ok in Hp as ([] & _ & Hp). apply bind_ok in Hp as (sys & _ & Hp).
  apply bind_ok in Hp as (cards & Hcards & Hp). apply bind_ok in Hp as (lifs & Hlifs & Hp).
  apply bind_ok in Hp as (flows & Hflows & Hp). apply bind_ok in Hp as (fwds & Hfwds & [= <-]).
  destruct Hcfg as [Hc Hl Hf Hr].
  split; simpl.
  - by eapply parse_cards_read.
  - eapply parse_list_read; [done..|apply parse_logical_if_read].
  - eapply parse_list_read; [done..|apply parse_flow_read].
  - eapply parse_list_read; [done..|apply parse_forward_read].
Qed.

(** C13: a configuration the reader returns, from a typed one (such as the empty
    one), is within its C types and the schema's limits: at most 16 cards of one or
    two ports with local ports 0 and 1, VLAN ids below 4095, six-byte MAC and
    16-byte IPv6 addresses, frame lengths 60..1518 with [min <= max] and a
    positive step, exactly one of the two rates and of the two address families. *)
Theorem config_read_typed (root : pw_yaml_node) (flags : Z) (cfg cfg' : pw_config) :
  read_config cfg -> parse_root root flags cfg = Ok cfg' -> read_config cfg'.
Proof. apply parse_root_read. Qed.
End Typed.

(** ** Rejections *)

Lemma diag_bind {A B} (m : M A) (f : A -> M B) :
  errs_diagnosed m -> (forall a, errs_diagnosed (f a)) -> errs_diagnosed (m ≫= f).
Proof. intros Hm Hf e [He|(a & _ & He)]%bind_err; [by apply Hm|by eapply Hf]. Qed.

Lemma diag_of_option {A} (o : option A) s p msg : s <> PW_OK ->
  errs_diagnosed (of_option o (fail_diag s p msg)).
Proof. intros Hs e He. destruct o; [done|]. injection He as <-. by apply diagnosed_fail. Qed.

Lemma diag_err {A} s p msg : s <> PW_OK -> errs_diagnosed (A := A) (Err (fail_diag s p msg)).
Proof. intros Hs e [= <-]. by apply diagnosed_fail. Qed.

Lemma diag_req_map node path : errs_diagnosed (REQ_MAP node path).
Proof. destruct node as [[]|]; try apply diag_err; done. Qed.
Lemma diag_req_seq node path : errs_diagnosed (REQ_SEQ node path).
Proof. destruct node as [[]|]; try apply diag_err; done. Qed.

Lemma diag_get m key path r : errs_diagnosed (get_scalar m key path r).
Proof. unfold get_scalar. repeat case_match; try apply diag_err; done. Qed.

Lemma diag_field {A} m key path (parse : string -> option A) d s p msg : s <> PW_OK ->
  errs_diagnosed (field m key path parse d (fail_diag s p msg)).
Proof.
  intros. apply diag_bind; [apply diag_get|]. intros [x|]; simpl; [by apply diag_of_option|].
  by intros ? [=].
Qed.

Lemma diag_field_req {A} m key path (parse : string -> option A) s p msg : s <> PW_OK ->
  errs_diagnosed (field_req m key path parse (fail_diag s p msg)).
Proof.
  intros. apply diag_bind; [|intros; by apply diag_of_option].
  apply diag_bind; [apply diag_get|by intros ? ? [=]].
Qed.

Lemma diag_opt_val {A} (parse : string -> option A) d s p msg x : s <> PW_OK ->
  errs_diagnosed (opt_val parse d (fail_diag s p msg) x).
Proof. intros. destruct x; simpl; [by apply diag_of_option|by intros ? [=]]. Qed.

Lemma diag_map_idx {A B} (f : nat -> A -> M B) l : (forall i x, errs_diagnosed (f i x)) ->
  forall i, errs_diagnosed (map_idx f i l).
Proof.
  intros Hf. induction l as [|x l IH]; intros i; simpl; [by intros ? [=]|].
  apply diag_bind; [done|]. intros y. apply diag_bind; [done|]. by intros ? ? [=].
Qed.

(** Walk a reader's body; every step is one of the above. *)
Ltac diags :=
  repeat first
    [ progress cbv zeta
    | apply diag_req_map | apply diag_req_seq | apply diag_get
    | apply diag_field; discriminate | apply diag_field_req; discriminate
    | apply diag_opt_val; discriminate | apply diag_of_option; discriminate
    | apply diag_fail_if; discriminate | apply diag_err; discriminate
    | by intros ? [=]
    | apply diag_map_idx; intros ? ?
    | apply diag_bind; [|intros ?]
    | case_match ].

Section Diagnosed.
Context `{InetPton}.

Lemma diag_system node : errs_diagnosed (parse_system node).
Proof. unfold parse_system, get_req, get_opt. diags. Qed.

Lemma diag_card idx node : errs_diagnosed (parse_card idx node).
Proof. unfold parse_card, parse_card_port, get_req, get_opt. diags. Qed.

Lemma diag_lif idx node : errs_diagnosed (parse_logical_if idx node).
Proof. unfold parse_logical_if, parse_punt, get_opt. diags. Qed.

Lemma diag_endpoint parent path : errs_diagnosed (parse_ip_endpoint parent path).
Proof. unfold parse_ip_endpoint. diags. Qed.

Lemma diag_traffic path node : errs_diagnosed (parse_traffic path node).
Proof. unfold parse_traffic, parse_frame_len, check_traffic, get_opt. diags. Qed.

Lemma diag_modifiers path v6 node : errs_diagnosed (parse_modifiers path v6 node).
Proof.
  unfold parse_modifiers, parse_addr_mods, parse_ipv6_field_mod, parse_field_mod, parse_ipv6_mask,
    get_opt. diags.
Qed.

Lemma diag_flow idx node : errs_diagnosed (parse_flow idx node).
Proof.
  unfold parse_flow, parse_flow_l2, parse_encap, parse_inner_l2, parse_l4, parse_meas, parse_match,
    parse_match_prefix, get_opt.
  repeat first [apply diag_endpoint | apply diag_traffic | apply diag_modifiers | progress diags].
Qed.

Lemma diag_forward idx node : errs_diagnosed (parse_forward idx node).
Proof. unfold parse_forward, parse_cidr, get_opt. diags. Qed.

Lemma diag_list {A} root key (f : nat -> pw_yaml_node -> M A) d :
  (forall i n, errs_diagnosed (f i n)) -> errs_diagnosed (parse_list root key f d).
Proof. intros Hf. unfold parse_list. diags. apply Hf. Qed.

End Diagnosed.

(** ** An empty prefix length *)

Fixpoint no_slash (s : string) : bool :=
  match s with EmptyString => true | String c s' => negb (ch c =? 47) && no_slash s' end.

Lemma split_slash_app a b : no_slash a = true -> split_slash (a +:+ "/" +:+ b) = (a, Some b).
Proof.
  induction a as [|c a IH]; simpl; [done|]. intros [Hc Ha]%andb_prop.
  apply negb_true_iff in Hc. by rewrite Hc, IH.
Qed.

(** [strtoul] leaves [end] at the start of a text without digits, and the
    reader tests only that [*end] is the end of the string: an address followed by
    a bare slash is accepted with prefix length 0, so the forward rule matches
    every address; [ipv6_dst_prefix] accepts an empty string the same way. *)
Theorem empty_prefix_matches_all `{InetPton} (s : string) (a : list Z) :
  inet_pton6 s = Some a -> no_slash s = true -> (0 < String.length s < 64)%nat ->
  pw_parse_ipv6_cidr (s +:+ "/") = Some (a, zero_v6).
Proof.
  intros Ha Hs Hl. unfold pw_parse_ipv6_cidr. change (s +:+ "/") with (s +:+ "/" +:+ "").
  rewrite split_slash_app by done.
  rewrite (proj2 (Nat.eqb_neq _ _)), (proj2 (Nat.leb_gt _ _)) by lia.
  cbn [orb strtoul_prefix]. unfold pw_parse_ipv6. rewrite Ha. done.
Qed.

(** ** Samples *)

(** An [inet_pton] that knows three addresses. *)
Definition s_v6_addr : list Z := [0x20; 1; 0x0d; 0xb8] ++ replicate 11 0 ++ [1].

#[local, refine] Instance s_inet : InetPton := {|
  inet_pton4 := keyword [("10.0.0.1", 0x0A000001); ("10.0.0.2", 0x0A000002)];
  inet_pton6 := keyword [("2001:db8::1", s_v6_addr)] |}.
Proof.
  - intros s a Ha%keyword_in. simpl in Ha.
    repeat (apply elem_of_cons in Ha as [->|Ha]; [unfold is_w; lia|]). by apply elem_of_nil in Ha.
  - intros s a Ha%keyword_in. simpl in Ha.
    apply elem_of_cons in Ha as [->|Ha]; [|by apply elem_of_nil in Ha].
    split; [done|]. unfold s_v6_addr. repeat constructor; unfold is_w; lia.
Defined.

Definition y_sc (v : string) : pw_yaml_node := PW_YAML_SCALAR 1 v.
Definition y_map (kvs : list (string * pw_yaml_node)) : pw_yaml_node := PW_YAML_MAP 1 kvs.

Definition s_flow_tree (len : string) : pw_yaml_node := y_map
  [("id", y_sc "7"); ("tx_global_port", y_sc "0"); ("rx_global_port", y_sc "1");
   ("ipv4", y_map [("src", y_sc "10.0.0.1"); ("dst", y_sc "10.0.0.2")]);
   ("udp", y_map [("src_port", y_sc "5000"); ("dst_port", y_sc "0x1388")]);
   ("traffic", y_map [("frame_len", y_sc len); ("rate_bps", y_sc "1_000_000")])].

Definition s_root (len : string) : pw_yaml_node := y_map
  [("system", y_map [("name", y_sc "lab"); ("mode", y_sc "multi-card"); ("default_speed", y_sc "10g")]);
   ("cards", PW_YAML_SEQ 1 [y_map
      [("id", y_sc "0"); ("pci", y_sc "0000:03:00.0");
       ("ports", PW_YAML_SEQ 1
          [y_map [("local_port", y_sc "0"); ("global_port", y_sc "0")];
           y_map [("local_port", y_sc "1"); ("global_port", y_sc "1")]])]]);
   ("flows", PW_YAML_SEQ 1 [s_flow_tree len])].

Definition s_read : pw_config :=
  match parse_root (s_root "64") 0 pw_config_new with Ok c => c | Err _ => pw_config_new end.

Lemma config_read_typed_witness :
  (length (cfg_cards s_read), length (cfg_flows s_read)) = (1, 1)%nat /\
  pw_config_validate s_read = Ok tt /\ read_config s_read.
Proof.
  split; [vm_compute; reflexivity|]. split; [vm_compute; reflexivity|].
  apply (config_read_typed (s_root "64") 0 pw_config_new).
  - split; simpl; try constructor; try lia; constructor.
  - vm_compute. reflexivity.
Defined.

(** A repeated key, and a frame too short for the schema. *)
Definition s_short_err : err :=
  fail_diag PW_E_INVAL "flows[0].traffic" "frame length out of range [60,1518]".
Definition s_dup_err : err := fail_diag PW_E_PARSE "line 1" "duplicate mapping key 'flows'".


Lemma empty_prefix_matches_all_witness :
  pw_parse_ipv6_cidr "2001:db8::1/" = Some (s_v6_addr, zero_v6) /\
  pw_parse_ipv6_cidr "2001:db8::1" = Some (s_v6_addr, replicate 16 255).
Proof.
  split; [|vm_compute; reflexivity].
  apply (empty_prefix_matches_all "2001:db8::1"); [reflexivity|reflexivity|simpl; lia].
Defined.
