(* ===== verification/FramePreview.v ===== *)
(** * The generated-frame builder

    Models [sw/libpacketwyrm/src/frame_preview.c]: the frame a flow emits for a
    given sequence number, with its per-packet field modifiers and checksums.
    [buf] is the list of bytes emitted so far ([o] is its length); the bytes after
    it up to [cap] are the zeroes of the initial [memset]. [PUT] past [cap] is the
    source's [return -1]; a store that the source does without a check and that
    would fall outside the buffer is the separate outcome [OutOfBounds]. *)

From S2P Require Import Prelude Types Config Validate Csr FlowCompiler Samples FlowRow.

(** ** Checksum *)

(** [sum += word] over the 16-bit big-endian words of [l], an odd last byte
    padded. *)
Fixpoint csum_words (l : list Z) (sum : Z) : Z :=
  match l with
  | a :: b :: l' => csum_words l' (u32 (sum + ((a <<< 8) ||| b)))
  | [a] => u32 (sum + (a <<< 8))
  | [] => sum
  end.

(** [while (sum >> 16) sum = (sum & 0xFFFF) + (sum >> 16);] *)
Fixpoint csum_fold (fuel : nat) (sum : Z) : Z :=
  match fuel with
  | O => sum
  | S k => if ztrue (sum >>> 16) then csum_fold k (u32 ((sum &&& 0xFFFF) + (sum >>> 16))) else sum
  end.

Definition ones_csum (l : list Z) (sum : Z) : Z :=
  not16 (csum_fold 3 (csum_words l sum)).

(** [wbe16] at offset [off] of the emitted bytes. *)
Definition wbe16 (l : list Z) (off : nat) (v : Z) : list Z :=
  <[S off := v &&& 0xFF]> (<[off := u8 (v >>> 8)]> l).

(** ** Per-packet modifiers *)

Definition pv_scramble (x : Z) : Z :=
  let x := x ^^^ u32 (x <<< 13) in
  let x := x ^^^ (x >>> 17) in
  x ^^^ u32 (x <<< 5).

Definition pv_mod32 (mode : pwfpga_field_mod) (base mask seq : Z) : Z :=
  match mode with
  | PWFPGA_FIELD_STATIC => base
  | PWFPGA_FIELD_INCREMENT => (base &&& not32 mask) ||| (seq &&& mask)
  | PWFPGA_FIELD_RANDOM => (base &&& not32 mask) ||| (pv_scramble seq &&& mask)
  end.

Definition pv_mod16 (mode : pwfpga_field_mod) (base mask seq : Z) : Z :=
  match mode with
  | PWFPGA_FIELD_STATIC => base
  | PWFPGA_FIELD_INCREMENT => u16 ((base &&& Z.lnot mask) ||| (u16 seq &&& mask))
  | PWFPGA_FIELD_RANDOM =>
      u16 ((base &&& Z.lnot mask) ||| (u16 (pv_scramble seq >>> 3) &&& mask))
  end.

Definition pv_mod48 (mode : pwfpga_field_mod) (base mask seq : Z) : Z :=
  let rnd := u64 (pv_scramble (u32 (seq >>> 32)) <<< 32) ||| pv_scramble (u32 seq) in
  match mode with
  | PWFPGA_FIELD_STATIC => base
  | PWFPGA_FIELD_INCREMENT =>
      (base &&& u64 (Z.lnot mask)) ||| ((seq &&& 0xFFFFFFFFFFFF) &&& mask)
  | PWFPGA_FIELD_RANDOM =>
      (base &&& u64 (Z.lnot mask)) ||| ((rnd &&& 0xFFFFFFFFFFFF) &&& mask)
  end.

Definition pv_lsalt (l : nat) : Z := nth l [0; 0x9E3779B1; 0x85EBCA77; 0xC2B2AE3D] 0.
Definition pv_loff (l : nat) : Z := nth l [0; 0x10000000; 0x20000000; 0x30000000] 0.

(** Lane [l] (0 = low 32 bits) of a modified IPv6 address. *)
Definition pv_lane (mode : pwfpga_field_mod) (base mask : list Z) (seq salt : Z) (l : nat) : Z :=
  let p := ((3 - l) * 4)%nat in
  let b := be32_at base p in
  let m := be32_at mask p in
  match mode with
  | PWFPGA_FIELD_STATIC => b
  | PWFPGA_FIELD_INCREMENT => (b &&& not32 m) ||| (u32 (seq + pv_loff l) &&& m)
  | PWFPGA_FIELD_RANDOM =>
      (b &&& not32 m) ||| (pv_scramble (seq ^^^ salt ^^^ pv_lsalt l) &&& m)
  end.

Definition be_bytes4 (v : Z) : list Z := [u8 (v >>> 24); u8 (v >>> 16); u8 (v >>> 8); u8 v].
Definition be_bytes2 (v : Z) : list Z := [u8 (v >>> 8); u8 (v &&& 0xFF)].

Definition pv_mod128 (mode : pwfpga_field_mod) (base mask : list Z) (seq salt : Z) : list Z :=
  [3; 2; 1; 0]%nat ≫= fun l => be_bytes4 (pv_lane mode base mask seq salt l).

Definition mac_to_u48 (m : list Z) : Z :=
  (nth 0 m 0 <<< 40) ||| (nth 1 m 0 <<< 32) ||| (nth 2 m 0 <<< 24) |||
  (nth 3 m 0 <<< 16) ||| (nth 4 m 0 <<< 8) ||| nth 5 m 0.
Definition u48_to_mac (v : Z) : list Z :=
  [u8 (v >>> 40); u8 (v >>> 32); u8 (v >>> 24); u8 (v >>> 16); u8 (v >>> 8); u8 v].

(** The header fields in effect for sequence number [seq]. *)
Record pv_eff := {
  ef_dmac : list Z;
  ef_smac : list Z;
  ef_vlan : Z;
  ef_sp : Z;
  ef_dp : Z;
  ef_sip : Z;
  ef_dip : Z;
  ef_v6src : list Z;
  ef_v6dst : list Z
}.

Definition pv_effective (f : pw_flow) (seq : Z) : pv_eff :=
  let md := f_mod f in
  {| ef_dmac := u48_to_mac (pv_mod48 (fm_mode (mod_dst_mac md)) (mac_to_u48 (l2_dst_mac (f_l2 f)))
                  (fm_mask (mod_dst_mac md)) seq);
     ef_smac := u48_to_mac (pv_mod48 (fm_mode (mod_src_mac md)) (mac_to_u48 (l2_src_mac (f_l2 f)))
                  (fm_mask (mod_src_mac md)) seq);
     ef_vlan := pv_mod16 (fm_mode (mod_vlan md)) (l2_vlan (f_l2 f) &&& 0x0FFF)
                  (u16 (fm_mask (mod_vlan md) &&& 0x0FFF)) seq &&& 0x0FFF;
     ef_sp := pv_mod16 (fm_mode (mod_udp_src md)) (udp_src_port (f_udp f))
                (u16 (fm_mask (mod_udp_src md))) seq;
     ef_dp := pv_mod16 (fm_mode (mod_udp_dst md)) (udp_dst_port (f_udp f))
                (u16 (fm_mask (mod_udp_dst md))) seq;
     ef_sip := pv_mod32 (fm_mode (mod_src_ipv4 md)) (v4_src (f_ipv4 f))
                 (u32 (fm_mask (mod_src_ipv4 md))) seq;
     ef_dip := pv_mod32 (fm_mode (mod_dst_ipv4 md)) (v4_dst (f_ipv4 f))
                 (u32 (fm_mask (mod_dst_ipv4 md))) seq;
     ef_v6src := pv_mod128 (fm_mode (mod_src_ipv4 md)) (v6_src (f_ipv6 f))
                   (mod_src_ipv6_mask md) seq 0;
     ef_v6dst := pv_mod128 (fm_mode (mod_dst_ipv4 md)) (v6_dst (f_ipv6 f))
                   (mod_dst_ipv6_mask md) seq 0x5A5A5A5A |}.

(** ** The builder *)

Inductive pv_err : Set := Unsupported | OutOfBounds.

Record pv_frame := {
  pv_len : Z;          (* the return value *)
  pv_built : Z;        (* [*built] *)
  pv_buf : list Z      (* [buf[0..cap)] *)
}.

Section Build.
Context (cap : Z).

Abbreviation PV := (result pv_err).

Definition put (bs out : list Z) : PV (list Z) :=
  if Z.of_nat (length out + length bs) <=? cap then Ok (out ++ (u8 <$> bs)) else Err Unsupported.

(** The unchecked [buf[t+0..31] = ...] stores. *)
Definition store (bs out : list Z) : PV (list Z) :=
  if Z.of_nat (length out + length bs) <=? cap then Ok (out ++ (u8 <$> bs)) else Err OutOfBounds.

(** The emitted bytes followed by the zeroes of the [memset]. *)
Definition padded (out : list Z) : list Z := out ++ replicate (Z.to_nat cap - length out) 0.

Definition ipv4_header (dscp tot ttl proto src dst : Z) : list Z :=
  [0x45; dscp <<< 2; u16 tot >>> 8; u16 tot &&& 0xFF; 0; 0; 0x40; 0;
   (if ztrue ttl then ttl else 64); proto; 0; 0;
   src >>> 24; src >>> 16; src >>> 8; src; dst >>> 24; dst >>> 16; dst >>> 8; dst].

(** An IPv4 header, its checksum filled in place. *)
Definition put_ipv4 (h out : list Z) : PV (list Z) :=
  let hdr := length out in
  out ← put h out;
  Ok (wbe16 out (hdr + 10) (ones_csum (take 20 (drop hdr out)) 0)).

Definition ipv6_header (dscp pl proto hop : Z) (src dst : list Z) : list Z :=
  [Z.lor 0x60 (dscp >>> 2); (dscp &&& 3) <<< 6; 0; 0; pl >>> 8; pl &&& 0xFF; proto;
   (if ztrue hop then hop else 64)] ++ take 16 src ++ take 16 dst.

(** Ethernet and optional 802.1Q. *)
Definition put_eth (f : pw_flow) (ef : pv_eff) : PV (list Z) :=
  out ← put (ef_dmac ef ++ ef_smac ef) [];
  if l2_vlan_set (f_l2 f)
  then let tci := u16 ((l2_pcp (f_l2 f) &&& 7) <<< 13) ||| (ef_vlan ef &&& 0x0FFF) in
       put [0x81; 0x00; tci >>> 8; tci &&& 0xFF] out
  else Ok out.

Definition encap_lens (f : pw_flow) : Z * Z * Z :=
  (if v6_present (enc_outer_ipv6 (f_encap f)) then 40 else 20,
   match enc_type (f_encap f) with PW_ENCAP_GRE => 4 | PW_ENCAP_ETHERIP => 2 | _ => 0 end,
   match enc_type (f_encap f) with PW_ENCAP_ETHERIP => 14 | _ => 0 end).

(** Outer IP and tunnel header ([o_pl] is the outer payload length). *)
Definition put_outer (f : pw_flow) (inner_v6 : bool) (inner_et o_pl : Z) (out : list Z)
    : PV (list Z) :=
  let e := f_encap f in
  let oproto := match enc_type e with
                | PW_ENCAP_IPIP => if inner_v6 then 41 else 4
                | PW_ENCAP_GRE => 47 | _ => 97 end in
  out ← (if v6_present (enc_outer_ipv6 e) then
           let x := enc_outer_ipv6 e in
           out ← put [0x86; 0xDD] out;
           put (ipv6_header (v6_dscp x) o_pl oproto (v6_hop_limit x) (v6_src x) (v6_dst x)) out
         else
           let x := enc_outer_ipv4 e in
           out ← put [0x08; 0x00] out;
           put_ipv4 (ipv4_header (v4_dscp x) (20 + o_pl) (v4_ttl x) oproto (v4_src x) (v4_dst x)) out);
  match enc_type e with
  | PW_ENCAP_GRE => put [0; 0; inner_et >>> 8; inner_et &&& 0xFF] out
  | PW_ENCAP_ETHERIP =>
      let idm := if enc_inner_mac_set e then enc_inner_dst_mac e else l2_dst_mac (f_l2 f) in
      let ism := if enc_inner_mac_set e then enc_inner_src_mac e else l2_src_mac (f_l2 f) in
      put ([0x30; 0x00] ++ take 6 idm ++ take 6 ism ++ [inner_et >>> 8; inner_et &&& 0xFF]) out
  | _ => Ok out
  end.

Definition put_inner_ip (f : pw_flow) (ef : pv_eff) (ip_pl proto : Z) (out : list Z)
    : PV (list Z) :=
  if v6_present (f_ipv6 f) then
    put (ipv6_header (v6_dscp (f_ipv6 f)) ip_pl proto (v6_hop_limit (f_ipv6 f))
           (ef_v6src ef) (ef_v6dst ef)) out
  else
    put_ipv4 (ipv4_header (v4_dscp (f_ipv4 f)) (20 + ip_pl) (v4_ttl (f_ipv4 f)) proto
                (ef_sip ef) (ef_dip ef)) out.

Definition l4_header (f : pw_flow) (ef : pv_eff) (seq l4_len : Z) (is_tcp : bool) : list Z :=
  [ef_sp ef >>> 8; ef_sp ef &&& 0xFF; ef_dp ef >>> 8; ef_dp ef &&& 0xFF] ++
  if is_tcp
  then [seq >>> 24; seq >>> 16; seq >>> 8; seq; 0; 0; 0; 0; 0x50;
        (if ztrue (udp_tcp_flags (f_udp f)) then udp_tcp_flags (f_udp f) else 0x02);
        0xFF; 0xFF; 0; 0; 0; 0]
  else [l4_len >>> 8; l4_len &&& 0xFF; 0; 0].

(** Magic, version 1, flow id, 64-bit sequence, timestamp left 0. *)
Definition test_header (f : pw_flow) (seq : Z) : list Z :=
  [0xA5; 0x02; 0x7E; 0x57; 0x00; 0x01; 0; 0;
   f_id f >>> 24; f_id f >>> 16; f_id f >>> 8; f_id f; 0; 0; 0; 0;
   seq >>> 24; seq >>> 16; seq >>> 8; seq] ++ replicate 12 0.

(** [sum += (uint32_t)b << ((i&1) ? 0 : 8)] over the address bytes. *)
Fixpoint sum_addr (l : list Z) (odd : bool) (sum : Z) : Z :=
  match l with
  | [] => sum
  | b :: l' => sum_addr l' (negb odd) (u32 (sum + (if odd then b else b <<< 8)))
  end.

Definition pseudo_sum (f : pw_flow) (ef : pv_eff) (is_tcp : bool) (l4_len : Z) : Z :=
  let sum := u32 ((if is_tcp then 6 else 17) + u32 l4_len) in
  if v6_present (f_ipv6 f)
  then sum_addr (ef_v6dst ef) false (sum_addr (ef_v6src ef) false sum)
  else let sum := u32 (sum + ((ef_sip ef >>> 16) &&& 0xFFFF)) in
       let sum := u32 (sum + (ef_sip ef &&& 0xFFFF)) in
       let sum := u32 (sum + ((ef_dip ef >>> 16) &&& 0xFFFF)) in
       u32 (sum + (ef_dip ef &&& 0xFFFF)).

(** L4 header, test header and checksum of a TEST or L4RAW frame. *)
Definition put_l4 (f : pw_flow) (ef : pv_eff) (seq frame_len l4_len : Z) (out : list Z)
    : PV pv_frame :=
  let is_tcp := udp_l4_proto (f_udp f) =? 6 in
  let l4 := length out in
  out ← put (l4_header f ef seq l4_len is_tcp) out;
  out ← (if bool_decide (tr_frame_template (f_traffic f) = PW_FRAME_TEMPLATE_TEST)
         then store (test_header f seq) out else Ok out);
  let buf := padded out in
  let c := ones_csum (take (Z.to_nat frame_len - l4) (drop l4 buf))
             (pseudo_sum f ef is_tcp l4_len) in
  Ok {| pv_len := frame_len; pv_built := Z.of_nat (length out);
        pv_buf := wbe16 buf (l4 + (if is_tcp then 16 else 6)) c |}.

Definition pw_flow_build_preview (f : pw_flow) (seq : Z) : PV pv_frame :=
  let tmpl := tr_frame_template (f_traffic f) in
  let l3raw := bool_decide (tmpl = PW_FRAME_TEMPLATE_L3RAW) in
  let inner_v6 := v6_present (f_ipv6 f) in
  let is_tcp := udp_l4_proto (f_udp f) =? 6 in
  let encap := enc_present (f_encap f) && bool_decide (tmpl <> PW_FRAME_TEMPLATE_L2RAW) in
  let len0 := if tr_frame_len_fixed_set (f_traffic f)
              then tr_frame_len_fixed (f_traffic f) else tr_frame_len_min (f_traffic f) in
  fail_if ((len0 <? 14) || (9100 <? len0) || (cap <? len0)) Unsupported ;;
  let ef := pv_effective f seq in
  out ← put_eth f ef;
  let inner_et := if inner_v6 then 0x86DD else 0x0800 in
  if bool_decide (tmpl = PW_FRAME_TEMPLATE_L2RAW) then
    let et := if ztrue (l2_ethertype (f_l2 f)) then l2_ethertype (f_l2 f) else inner_et in
    out ← put [et >>> 8; et &&& 0xFF] out;
    Ok {| pv_len := len0; pv_built := Z.of_nat (length out); pv_buf := padded out |}
  else
    let l4hl := if l3raw then 0 else if is_tcp then 20 else 8 in
    let '(outer_len, tun_len, inner_eth) := if encap then encap_lens f else (0, 0, 0) in
    let prefix := Z.of_nat (length out) + 2 + outer_len + tun_len + inner_eth in
    let inner_iphl := if inner_v6 then 40 else 20 in
    let min_pl := if bool_decide (tmpl = PW_FRAME_TEMPLATE_TEST) then 32 else 0 in
    let min_frame := prefix + inner_iphl + l4hl + min_pl in
    let frame_len := if len0 <? min_frame then min_frame else len0 in
    fail_if (cap <? frame_len) Unsupported ;;
    let inner_payload := u64 (frame_len - prefix - inner_iphl - l4hl) in
    let l4_len := u64 (l4hl + inner_payload) in
    let ip_pl := if l3raw then inner_payload else l4_len in
    out ← (if encap
           then put_outer f inner_v6 inner_et
                  (u64 (tun_len + inner_eth + inner_iphl + l4hl + inner_payload)) out
           else put [inner_et >>> 8; inner_et &&& 0xFF] out);
    out ← put_inner_ip f ef ip_pl (if l3raw then 0xFD else if is_tcp then 6 else 17) out;
    if l3raw then
      Ok {| pv_len := frame_len; pv_built := Z.of_nat (length out); pv_buf := padded out |}
    else put_l4 f ef seq frame_len l4_len out.
End Build.

Example s_preview_map : exists fr, pw_flow_build_preview 2048 s_flow_map 7 = Ok fr /\
  pv_len fr = 128 /\ pv_built fr = 78 /\
  take 22 (drop 12 (pv_buf fr)) =
    [0x81; 0; 0x60; 100; 8; 0; 0x45; 0; 0; 110; 0; 0; 0x40; 0; 64; 17; 0x26; 0x7D; 10; 0; 0; 1].
Proof. eexists. split; [vm_compute; reflexivity|]. split_and!; vm_compute; reflexivity. Qed.

(** ** Checksum arithmetic *)

Fixpoint word_sum (l : list Z) : Z :=
  match l with
  | a :: b :: l' => a * 256 + b + word_sum l'
  | [a] => a * 256
  | [] => 0
  end.

Lemma byte_word a b : is_u8 b -> (a <<< 8) ||| b = a * 256 + b.
Proof. intros Hb. by apply (lor_disjoint a b 8). Qed.

(** Induction two bytes at a time. *)
Lemma list_ind2 {A} (P : list A -> Prop) :
  P [] -> (forall a, P [a]) -> (forall a b l, P l -> P (a :: b :: l)) -> forall l, P l.
Proof.
  intros H0 H1 H2. fix IH 1. intros [|a [|b l]]; [done|apply H1|]. apply H2, IH.
Qed.

Lemma word_sum_nonneg l : Forall is_u8 l -> 0 <= word_sum l.
Proof.
  induction l as [|a|a b l IH] using list_ind2; intros Hl; simpl; [lia|..];
    repeat (apply Forall_cons in Hl as [? Hl]); unfold is_w in *; [lia|].
  specialize (IH Hl). lia.
Qed.

Lemma word_sum_bound l : Forall is_u8 l -> word_sum l <= 65535 * Z.of_nat (length l).
Proof.
  induction l as [|a|a b l IH] using list_ind2; intros Hl; simpl; [lia|..];
    repeat (apply Forall_cons in Hl as [? Hl]); unfold is_w in *; [lia|].
  specialize (IH Hl). lia.
Qed.

(** Without overflow the accumulator is the plain sum. *)
Lemma csum_words_sum l : forall sum, Forall is_u8 l -> 0 <= sum -> sum + word_sum l < 2 ^ 32 ->
  csum_words l sum = sum + word_sum l.
Proof.
  induction l as [|a|a b l IH] using list_ind2; intros sum Hl Hs Hb; simpl in *; [lia|..];
    repeat (apply Forall_cons in Hl as [? Hl]).
  - rewrite Z.shiftl_mul_pow2 by lia. change (2 ^ 8) with 256. unfold is_w in *.
    rewrite u32_id by (unfold is_w; lia). lia.
  - pose proof (word_sum_nonneg l Hl). rewrite byte_word by done. unfold is_w in *.
    rewrite u32_id by (unfold is_w; lia). rewrite IH by (done || lia). lia.
Qed.

(** The folded value: 0 for 0, otherwise the representative in [1..65535]. *)
Definition csum_norm (s : Z) : Z := if s =? 0 then 0 else 1 + (s - 1) mod 65535.

Lemma csum_norm_small s : 0 <= s < 65536 -> csum_norm s = s.
Proof.
  intros. unfold csum_norm. destruct (Z.eqb_spec s 0); [lia|]. rewrite Z.mod_small; lia.
Qed.

Lemma csum_norm_step s : 65536 <= s -> csum_norm (s mod 65536 + s / 65536) = csum_norm s.
Proof.
  intros Hs. unfold csum_norm. pose proof (Z.div_mod s 65536). pose proof (Z.mod_pos_bound s 65536).
  assert (1 <= s / 65536) by (apply Z.div_le_lower_bound; lia).
  destruct (Z.eqb_spec (s mod 65536 + s / 65536) 0), (Z.eqb_spec s 0); try lia.
  f_equal. replace (s - 1) with (s mod 65536 + s / 65536 - 1 + (s / 65536) * 65535) by lia.
  by rewrite Z.mod_add.
Qed.

(** The fold loop ends within its fuel on every 32-bit sum. *)
Lemma csum_fold_norm s : 0 <= s < 2 ^ 32 -> csum_fold 3 s = csum_norm s.
Proof.
  assert (Hstep : forall k s, 65536 <= s < 2 ^ 32 ->
    csum_fold (S k) s = csum_fold k (s mod 65536 + s / 65536)).
  { intros k x Hx. cbn [csum_fold]. unfold ztrue.
    change 0xFFFF with (Z.ones 16). rewrite Z.land_ones, Z.shiftr_div_pow2 by lia.
    change (2 ^ 16) with 65536. assert (1 <= x / 65536) by (apply Z.div_le_lower_bound; lia).
    assert (x / 65536 < 65536) by (apply Z.div_lt_upper_bound; lia).
    pose proof (Z.mod_pos_bound x 65536).
    destruct (Z.eqb_spec (x / 65536) 0); [lia|]. simpl negb. cbv iota.
    rewrite u32_id by (unfold is_w; lia). done. }
  assert (Hdone : forall k s, 0 <= s < 65536 -> csum_fold k s = s).
  { intros [|k] x Hx; [done|]. cbn [csum_fold]. rewrite Z.shiftr_div_pow2 by lia.
    change (2 ^ 16) with 65536. by rewrite Z.div_small. }
  intros Hs. destruct (Z.lt_ge_cases s 65536); [by rewrite Hdone, csum_norm_small by lia|].
  rewrite Hstep, <- csum_norm_step by lia.
  pose proof (Z.mod_pos_bound s 65536). pose proof (Z.div_mod s 65536).
  assert (1 <= s / 65536 < 65536)
    by (split; [apply Z.div_le_lower_bound|apply Z.div_lt_upper_bound]; lia).
  set (t := s mod 65536 + s / 65536) in *.
  destruct (Z.lt_ge_cases t 65536); [by rewrite Hdone, csum_norm_small by (unfold t in *; lia)|].
  rewrite Hstep, <- csum_norm_step by (unfold t in *; lia).
  assert (t / 65536 = 1) as Hq by (symmetry; apply (Z.div_unique t 65536 1 (t - 65536)); unfold t in *; lia).
  pose proof (Z.mod_pos_bound t 65536). pose proof (Z.div_mod t 65536).
  rewrite Hdone, csum_norm_small by (unfold t in *; lia). done.
Qed.

Lemma not16_sub x : 0 <= x < 65536 -> not16 x = 65535 - x.
Proof.
  intros. unfold not16, u16, Z.lnot. change (2 ^ 16) with 65536.
  replace (Z.pred (- x)) with (65535 - x + (-1) * 65536) by lia.
  rewrite Z.mod_add by lia. apply Z.mod_small. lia.
Qed.

Lemma csum_norm_range s : 0 <= s -> 0 <= csum_norm s < 65536.
Proof.
  intros. unfold csum_norm. destruct (s =? 0); [lia|].
  pose proof (Z.mod_pos_bound (s - 1) 65535). lia.
Qed.

(** Adding the complement makes the sum fold to all ones. *)
Lemma csum_norm_complement s : 0 <= s -> csum_norm (s + (65535 - csum_norm s)) = 65535.
Proof.
  intros Hs. unfold csum_norm. destruct (Z.eqb_spec s 0) as [->|Hn]; [reflexivity|].
  pose proof (Z.mod_pos_bound (s - 1) 65535). pose proof (Z.div_mod (s - 1) 65535).
  destruct (Z.eqb_spec (s + (65535 - (1 + (s - 1) mod 65535))) 0); [lia|].
  replace (s + (65535 - (1 + (s - 1) mod 65535)) - 1)
    with (65534 + ((s - 1) / 65535) * 65535) by lia.
  rewrite Z.mod_add by lia. reflexivity.
Qed.

Lemma ones_csum_spec l sum : Forall is_u8 l -> 0 <= sum -> sum + word_sum l < 2 ^ 32 ->
  ones_csum l sum = 65535 - csum_norm (sum + word_sum l).
Proof.
  intros Hl Hs Hb. pose proof (word_sum_nonneg l Hl). unfold ones_csum.
  rewrite csum_words_sum, csum_fold_norm by (done || lia).
  apply not16_sub, csum_norm_range. lia.
Qed.

Lemma hi_lo v : is_u16 v -> u8 (v >>> 8) * 256 + (v &&& 0xFF) = v.
Proof.
  unfold is_w. intros Hv. change 0xFF with (Z.ones 8). rewrite Z.land_ones by lia.
  rewrite Z.shiftr_div_pow2 by lia. change (2 ^ 8) with 256. change (2 ^ 16) with 65536 in Hv.
  assert (0 <= v / 256 < 256) by (split; [apply Z.div_pos|apply Z.div_lt_upper_bound]; lia).
  rewrite u8_id by (unfold is_w; lia). pose proof (Z.div_mod v 256). lia.
Qed.

Lemma word_sum_wbe16 k : forall l v, l !! (2 * k)%nat = Some 0 -> l !! S (2 * k) = Some 0 ->
  is_u16 v -> word_sum (wbe16 l (2 * k) v) = word_sum l + v.
Proof.
  induction k as [|k IH]; intros l v H1 H2 Hv.
  - destruct l as [|a [|b l]]; simplify_eq/=. pose proof (hi_lo v Hv). lia.
  - destruct l as [|a [|b l]]; [done..|].
    replace (2 * S k)%nat with (S (S (2 * k)))%nat in * by lia. simpl lookup in H1, H2.
    unfold wbe16 in *. simpl. specialize (IH l v H1 H2 Hv). simpl in IH. lia.
Qed.

Lemma wbe16_u8 l off v : Forall is_u8 l -> Forall is_u8 (wbe16 l off v).
Proof.
  intros Hl. unfold wbe16. apply Forall_insert; [apply Forall_insert; [done|apply u8_w]|].
  apply is_w_land_r; [lia|]. vm_compute. by split.
Qed.

(** Filling the zeroed checksum field makes the data verify. *)
Lemma csum_verifies l k sum : Forall is_u8 l -> 0 <= sum -> sum + word_sum l + 65535 < 2 ^ 32 ->
  l !! (2 * k)%nat = Some 0 -> l !! S (2 * k) = Some 0 ->
  ones_csum (wbe16 l (2 * k) (ones_csum l sum)) sum = 0.
Proof.
  intros Hl Hs Hb H1 H2. pose proof (word_sum_nonneg l Hl).
  pose proof (csum_norm_range (sum + word_sum l)).
  rewrite (ones_csum_spec l) by (done || lia).
  assert (is_u16 (65535 - csum_norm (sum + word_sum l))) by (unfold is_w; lia).
  rewrite ones_csum_spec; rewrite ?word_sum_wbe16 by done; [|by apply wbe16_u8|done|lia].
  rewrite Z.add_assoc, csum_norm_complement by lia. lia.
Qed.

(** ** Emission *)

Lemma put_ok cap bs out out' : put cap bs out = Ok out' ->
  out' = out ++ (u8 <$> bs) /\ Z.of_nat (length out + length bs) <= cap.
Proof.
  unfold put. destruct (Z.leb_spec (Z.of_nat (length out + length bs)) cap); [|done].
  by intros [= <-].
Qed.

Lemma put_err cap bs out e : put cap bs out = Err e -> e = Unsupported.
Proof. unfold put. destruct (_ <=? _); [done|]. by intros [= <-]. Qed.

Lemma u8s_bytes l : Forall is_u8 (u8 <$> l).
Proof. apply Forall_fmap, Forall_true. intros. apply u8_w. Qed.

(** What a successful emission appends to [out]: bytes only, a header whose
    length is known. *)
Lemma put_ipv4_ok cap dscp tot ttl proto src dst out out' :
  put_ipv4 cap (ipv4_header dscp tot ttl proto src dst) out = Ok out' ->
  exists h, out' = out ++ h /\ length h = 20%nat /\ Forall is_u8 h /\ ones_csum h 0 = 0 /\
    h !! 9%nat = Some (u8 proto) /\
    drop 12 h = be_bytes4 src ++ be_bytes4 dst.
Proof.
  unfold put_ipv4. intros H. apply bind_ok in H as (o & [-> _]%put_ok & H). injection H as <-.
  set (h := u8 <$> ipv4_header dscp tot ttl proto src dst).
  rewrite drop_app_length, take_ge by done. unfold wbe16.
  replace (S (length out + 10)) with (length out + 11)%nat by lia.
  rewrite !insert_app_r. exists (wbe16 h 10 (ones_csum h 0)).
  split_and!; [done| | | | |].
  - unfold wbe16. by rewrite !length_insert.
  - apply wbe16_u8, u8s_bytes.
  - apply (csum_verifies h 5 0); [apply u8s_bytes|lia| |done..].
    pose proof (word_sum_bound h (u8s_bytes _)) as Hb. change (length h) with 20%nat in Hb. lia.
  - done.
  - done.
Qed.

(** [g] appends exactly [n] bytes whenever they fit. *)
Definition emits (cap : Z) (g : list Z -> result pv_err (list Z)) (n : nat) : Prop :=
  forall out, Z.of_nat (length out + n) <= cap ->
    exists h, g out = Ok (out ++ h) /\ length h = n /\ Forall is_u8 h.

Lemma emits_put cap bs n : length bs = n -> emits cap (put cap bs) n.
Proof.
  intros <- out Hf. unfold put. rewrite (proj2 (Z.leb_le _ _) Hf). exists (u8 <$> bs).
  split_and!; [done|apply length_fmap|apply u8s_bytes].
Qed.

Lemma emits_store cap bs n : length bs = n -> emits cap (store cap bs) n.
Proof.
  intros <- out Hf. unfold store. rewrite (proj2 (Z.leb_le _ _) Hf). exists (u8 <$> bs).
  split_and!; [done|apply length_fmap|apply u8s_bytes].
Qed.

Lemma emits_nil cap : emits cap Ok 0.
Proof. intros out _. exists []. rewrite app_nil_r. split_and!; [done..|constructor]. Qed.

Lemma emits_bind cap g g' n n' : emits cap g n -> emits cap g' n' ->
  emits cap (fun out => out' ← g out; g' out') (n + n').
Proof.
  intros Hg Hg' out Hf. destruct (Hg out) as (h & -> & Hl & Hb); [lia|].
  destruct (Hg' (out ++ h)) as (h' & Hr & Hl' & Hb'); [rewrite length_app; lia|].
  exists (h ++ h'). simpl. rewrite Hr, app_assoc, length_app. split_and!; [done|lia|].
  by apply Forall_app.
Qed.

Lemma emits_ipv4 cap dscp tot ttl proto src dst :
  emits cap (put_ipv4 cap (ipv4_header dscp tot ttl proto src dst)) 20.
Proof.
  intros out Hf.
  destruct (put_ipv4 cap (ipv4_header dscp tot ttl proto src dst) out) as [o|e] eqn:H.
  - destruct (put_ipv4_ok _ _ _ _ _ _ _ _ _ H) as (h & -> & ? & ? & _). by exists h.
  - unfold put_ipv4, put in H. change (length (ipv4_header _ _ _ _ _ _)) with 20%nat in H.
    by rewrite (proj2 (Z.leb_le _ _) Hf) in H.
Qed.

Lemma ipv6_header_length dscp pl proto hop src dst : length src = 16%nat -> length dst = 16%nat ->
  length (ipv6_header dscp pl proto hop src dst) = 40%nat.
Proof.
  intros H1 H2. unfold ipv6_header. rewrite !length_app, !length_take, H1, H2. done.
Qed.

Lemma emits_eq cap g g' n n' : (forall out, g out = g' out) -> n = n' ->
  emits cap g' n' -> emits cap g n.
Proof. intros He -> H out Hf. rewrite He. by apply H. Qed.

Definition eth_len (f : pw_flow) : nat := if l2_vlan_set (f_l2 f) then 16 else 12.

Lemma emits_eth cap f ef : length (ef_dmac ef) = 6%nat -> length (ef_smac ef) = 6%nat ->
  Z.of_nat (eth_len f) <= cap ->
  exists h, put_eth cap f ef = Ok h /\ length h = eth_len f /\ Forall is_u8 h.
Proof.
  intros Hd Hs Hc. unfold put_eth, eth_len in *.
  assert (emits cap (fun out => out ← put cap (ef_dmac ef ++ ef_smac ef) out;
    if l2_vlan_set (f_l2 f) then
      put cap [0x81; 0x00; (u16 ((l2_pcp (f_l2 f) &&& 7) <<< 13) ||| (ef_vlan ef &&& 0x0FFF)) >>> 8;
        (u16 ((l2_pcp (f_l2 f) &&& 7) <<< 13) ||| (ef_vlan ef &&& 0x0FFF)) &&& 0xFF] out
    else Ok out) (eth_len f)) as He.
  { unfold eth_len. destruct (l2_vlan_set (f_l2 f)).
    - apply (emits_bind _ _ _ 12 4); apply emits_put; [|done]. rewrite length_app. lia.
    - apply (emits_bind _ _ _ 12 0); [apply emits_put; rewrite length_app; lia|apply emits_nil]. }
  destruct (He []) as (h & Hr & ? & ?); [unfold eth_len; simpl; lia|]. by exists h.
Qed.

(** Outer Ethernet type, IP and tunnel headers. *)
Definition outer_len (f : pw_flow) : nat :=
  2 + (if v6_present (enc_outer_ipv6 (f_encap f)) then 40 else 20) +
  match enc_type (f_encap f) with PW_ENCAP_GRE => 4 | PW_ENCAP_ETHERIP => 16 | _ => 0 end.

Lemma emits_outer cap f v6 et pl : wt_flow f -> emits cap (put_outer cap f v6 et pl) (outer_len f).
Proof.
  intros Hw. destruct (wt_o6 f Hw) as [[Hs _] [Hd _] _ _].
  destruct (wt_ismac f Hw) as [Hism _], (wt_idmac f Hw) as [Hidm _].
  destruct (wt_smac f Hw) as [Hsm _], (wt_dmac f Hw) as [Hdm _].
  unfold put_outer, outer_len. apply emits_bind.
  - destruct (v6_present (enc_outer_ipv6 (f_encap f))).
    + apply (emits_bind _ _ _ 2 40); apply emits_put; [done|]. by apply ipv6_header_length.
    + apply (emits_bind _ _ _ 2 20); [by apply emits_put|apply emits_ipv4].
  - destruct (enc_type (f_encap f)); [apply emits_nil|apply emits_nil|by apply emits_put|].
    apply emits_put. rewrite !length_app, !length_take.
    destruct (enc_inner_mac_set (f_encap f)); rewrite ?Hism, ?Hidm, ?Hsm, ?Hdm; done.
Qed.

Lemma pv_mod128_length m b k s t : length (pv_mod128 m b k s t) = 16%nat.
Proof. reflexivity. Qed.

Definition ip_len (f : pw_flow) : nat := if v6_present (f_ipv6 f) then 40 else 20.

Lemma emits_inner_ip cap f seq pl proto :
  emits cap (put_inner_ip cap f (pv_effective f seq) pl proto) (ip_len f).
Proof.
  unfold put_inner_ip, ip_len. destruct (v6_present (f_ipv6 f)); [|apply emits_ipv4].
  apply emits_put, ipv6_header_length; apply pv_mod128_length.
Qed.

(** ** The L4 part *)

Lemma sum_addr_bound l : forall odd sum, Forall is_u8 l -> 0 <= sum ->
  sum + 65536 * Z.of_nat (length l) < 2 ^ 32 ->
  0 <= sum_addr l odd sum <= sum + 65536 * Z.of_nat (length l).
Proof.
  induction l as [|b l IH]; intros odd sum Hl Hs Hb; simpl in *; [lia|].
  apply Forall_cons in Hl as [Hbb Hl]. unfold is_w in Hbb. change (2 ^ 8) with 256 in Hbb.
  set (x := if odd then b else b <<< 8).
  assert (0 <= x <= 65535) by (unfold x; destruct odd; rewrite ?Z.shiftl_mul_pow2 by lia; lia).
  rewrite u32_id by (unfold is_w; lia). destruct (IH (negb odd) (sum + x)); lia || done.
Qed.

Lemma pv_mod128_u8 m b k s t : Forall is_u8 (pv_mod128 m b k s t).
Proof. unfold pv_mod128, be_bytes4. cbn. repeat constructor; apply u8_w. Qed.

Lemma land_ffff x : 0 <= x &&& 0xFFFF <= 65535.
Proof.
  assert (x &&& 0xFFFF = x mod 2 ^ 16) as -> by (apply (Z.land_ones x 16); lia).
  pose proof (Z.mod_pos_bound x (2 ^ 16)). lia.
Qed.

Lemma pseudo_sum_bound f seq tcp n : 0 <= n <= 9100 ->
  0 <= pseudo_sum f (pv_effective f seq) tcp n <= 2 ^ 23.
Proof.
  intros Hn. unfold pseudo_sum. set (p := if tcp then 6 else 17).
  assert (0 <= p <= 17) by (unfold p; destruct tcp; lia).
  rewrite (u32_id n) by (unfold is_w; lia). rewrite u32_id by (unfold is_w; lia).
  destruct (v6_present (f_ipv6 f)).
  - pose proof (sum_addr_bound (ef_v6src (pv_effective f seq)) false (p + n)
      (pv_mod128_u8 _ _ _ _ _)) as H1.
    change (length (ef_v6src (pv_effective f seq))) with 16%nat in H1.
    set (s1 := sum_addr (ef_v6src _) _ _) in *.
    pose proof (sum_addr_bound (ef_v6dst (pv_effective f seq)) false s1
      (pv_mod128_u8 _ _ _ _ _)) as H2.
    change (length (ef_v6dst (pv_effective f seq))) with 16%nat in H2. lia.
  - set (ef := pv_effective f seq).
    pose proof (land_ffff (ef_sip ef >>> 16)). pose proof (land_ffff (ef_sip ef)).
    pose proof (land_ffff (ef_dip ef >>> 16)). pose proof (land_ffff (ef_dip ef)).
    rewrite !u32_id by (unfold is_w; rewrite ?u32_id by (unfold is_w; rewrite ?u32_id
      by (unfold is_w; rewrite ?u32_id by (unfold is_w; lia); lia); lia); lia). lia.
Qed.

Definition l4_len_of (f : pw_flow) : nat := if udp_l4_proto (f_udp f) =? 6 then 20 else 8.
Definition test_len (f : pw_flow) : nat :=
  if bool_decide (tr_frame_template (f_traffic f) = PW_FRAME_TEMPLATE_TEST) then 32 else 0.
Definition csum_off (f : pw_flow) : nat := if udp_l4_proto (f_udp f) =? 6 then 16 else 6.

(** What a finished frame looks like, the L3 part being [out]. *)
Record l4_frame (cap : Z) (f : pw_flow) (seq frame_len l4_len : Z) (out : list Z)
    (fr : pv_frame) : Prop := {
  lf_len : pv_len fr = frame_len;
  lf_built : pv_built fr = Z.of_nat (length out + l4_len_of f + test_len f);
  lf_cap : length (pv_buf fr) = Z.to_nat cap;
  lf_out : take (length out) (pv_buf fr) = out;
  lf_pad : Forall (eq 0) (drop (Z.to_nat (pv_built fr)) (pv_buf fr));
  lf_csum : ones_csum (take (Z.to_nat frame_len - length out) (drop (length out) (pv_buf fr)))
              (pseudo_sum f (pv_effective f seq) (udp_l4_proto (f_udp f) =? 6) l4_len) = 0
}.

Lemma wbe16_app_r l k off v : wbe16 (l ++ k) (length l + off) v = l ++ wbe16 k off v.
Proof.
  unfold wbe16. rewrite <- Nat.add_succ_r, !insert_app_r. done.
Qed.

Lemma wbe16_app_l l k off v : (S off < length l)%nat -> wbe16 (l ++ k) off v = wbe16 l off v ++ k.
Proof.
  intros. unfold wbe16. rewrite insert_app_l by lia. rewrite insert_app_l; [done|].
  rewrite length_insert. lia.
Qed.

Lemma length_wbe16 l off v : length (wbe16 l off v) = length l.
Proof. unfold wbe16. by rewrite !length_insert. Qed.

(** The checksum field of the emitted L4 header is zero. *)
Lemma l4_header_csum f ef seq n tcp : tcp = (udp_l4_proto (f_udp f) =? 6) ->
  length (u8 <$> l4_header f ef seq n tcp) = l4_len_of f /\
  (u8 <$> l4_header f ef seq n tcp) !! csum_off f = Some 0 /\
  (u8 <$> l4_header f ef seq n tcp) !! S (csum_off f) = Some 0.
Proof.
  intros ->. unfold l4_len_of, csum_off, l4_header. destruct (udp_l4_proto (f_udp f) =? 6); done.
Qed.

(** Patching the checksum of the first [n] bytes into a header [h] inside them. *)
Lemma csum_patched h rest k n sum :
  Forall is_u8 (h ++ rest) -> 0 <= sum <= 2 ^ 23 -> Z.of_nat n <= 9100 ->
  (S (2 * k) < length h)%nat -> (S (2 * k) < n)%nat ->
  h !! (2 * k)%nat = Some 0 -> h !! S (2 * k) = Some 0 ->
  ones_csum (take n (wbe16 h (2 * k) (ones_csum (take n (h ++ rest)) sum) ++ rest)) sum = 0.
Proof.
  intros Hb Hs Hn Hk Hkn H1 H2. set (c := ones_csum (take n (h ++ rest)) sum).
  rewrite <- wbe16_app_l by done.
  assert (take n (wbe16 (h ++ rest) (2 * k) c) = wbe16 (take n (h ++ rest)) (2 * k) c) as ->
    by (unfold wbe16; by rewrite !take_insert_lt by lia).
  apply csum_verifies.
  - by apply Forall_take.
  - lia.
  - pose proof (word_sum_bound (take n (h ++ rest)) (Forall_take _ _ _ Hb)) as Hw.
    rewrite length_take in Hw. lia.
  - rewrite lookup_take_lt by lia. by rewrite lookup_app_l by lia.
  - rewrite lookup_take_lt by lia. by rewrite lookup_app_l by lia.
Qed.

(** The bytes [put_l4] adds after [out]: L4 header, test header. *)
Definition l4_bytes (f : pw_flow) (seq l4_len : Z) : list Z * list Z :=
  (u8 <$> l4_header f (pv_effective f seq) seq l4_len (udp_l4_proto (f_udp f) =? 6),
   if bool_decide (tr_frame_template (f_traffic f) = PW_FRAME_TEMPLATE_TEST)
   then u8 <$> test_header f seq else []).

Lemma put_l4_eq cap f seq frame_len l4_len out :
  Z.of_nat (length out + l4_len_of f + test_len f) <= cap ->
  let '(h, t) := l4_bytes f seq l4_len in
  let z := replicate (Z.to_nat cap - length (out ++ h ++ t)) 0 in
  put_l4 cap f (pv_effective f seq) seq frame_len l4_len out =
  Ok {| pv_len := frame_len; pv_built := Z.of_nat (length (out ++ h ++ t));
        pv_buf := out ++ wbe16 h (csum_off f)
          (ones_csum (take (Z.to_nat frame_len - length out) (h ++ t ++ z))
             (pseudo_sum f (pv_effective f seq) (udp_l4_proto (f_udp f) =? 6) l4_len)) ++ t ++ z |}.
Proof.
  intros Hcap. unfold l4_bytes. set (ef := pv_effective f seq).
  set (tcp := udp_l4_proto (f_udp f) =? 6).
  destruct (l4_header_csum f ef seq l4_len tcp eq_refl) as (Hhl & _ & _).
  set (h := u8 <$> l4_header f ef seq l4_len tcp) in *. set (t := if bool_decide _ then _ else _).
  set (z := replicate _ 0). unfold put_l4, put. fold tcp.
  assert (length (l4_header f ef seq l4_len tcp) = l4_len_of f) as ->
    by (by rewrite <- Hhl; unfold h; rewrite length_fmap).
  rewrite (proj2 (Z.leb_le _ _)) by lia. cbn [mbind result_bind]. fold h.
  assert ((if bool_decide (tr_frame_template (f_traffic f) = PW_FRAME_TEMPLATE_TEST)
    then store cap (test_header f seq) (out ++ h) else Ok (out ++ h)) = Ok (out ++ h ++ t)) as ->.
  { unfold store, t, test_len in *. case_bool_decide; [|by rewrite app_nil_r].
    rewrite (proj2 (Z.leb_le _ _)); [by rewrite app_assoc|].
    rewrite length_app. change (length (test_header f seq)) with 32%nat. lia. }
  cbn [mbind result_bind].
  assert (padded cap (out ++ h ++ t) = out ++ (h ++ t ++ z)) as ->
    by (unfold padded; fold z; by rewrite <- !app_assoc).
  change (if tcp then 16%nat else 6%nat) with (csum_off f).
  rewrite drop_app_length, wbe16_app_r, wbe16_app_l; [done|].
  rewrite Hhl. unfold csum_off, l4_len_of. destruct (_ =? 6); lia.
Qed.

Lemma put_l4_ok cap f seq frame_len l4_len out :
  0 <= l4_len <= 9100 -> Forall is_u8 out ->
  Z.of_nat (length out + l4_len_of f + test_len f) <= frame_len -> frame_len <= 9100 ->
  frame_len <= cap ->
  exists fr, put_l4 cap f (pv_effective f seq) seq frame_len l4_len out = Ok fr /\
    l4_frame cap f seq frame_len l4_len out fr.
Proof.
  intros Hl4 Hout Hmin Hmax Hcap. eexists. split.
  { pose proof (put_l4_eq cap f seq frame_len l4_len out) as He.
    unfold l4_bytes in He. cbv beta iota zeta in He. apply He. lia. }
  set (tcp := udp_l4_proto (f_udp f) =? 6). set (ef := pv_effective f seq).
  destruct (l4_header_csum f ef seq l4_len tcp eq_refl) as (Hhl & Hz1 & Hz2).
  set (h := u8 <$> l4_header f ef seq l4_len tcp) in *. set (t := if bool_decide _ then _ else _).
  assert (length t = test_len f) as Htl by (unfold t, test_len; by case_bool_decide).
  assert (S (csum_off f) < l4_len_of f)%nat as Hoff
    by (unfold csum_off, l4_len_of; destruct (_ =? 6); lia).
  set (z := replicate _ 0). set (c := ones_csum _ _).
  split; cbn [pv_len pv_built pv_buf].
  - done.
  - rewrite !length_app. lia.
  - unfold z. rewrite !length_app, length_wbe16, length_replicate, ?length_app. lia.
  - apply take_app_length.
  - rewrite Nat2Z.id, !app_assoc. rewrite drop_app_length'.
    + by apply Forall_replicate.
    + rewrite !length_app, length_wbe16. lia.
  - fold tcp ef. rewrite drop_app_length. unfold c.
    assert (csum_off f = 2 * (if tcp then 8 else 3))%nat as Ho
      by (unfold csum_off; fold tcp; by destruct tcp).
    rewrite Ho in *. apply csum_patched; try done; try lia; [|by apply pseudo_sum_bound].
    rewrite !Forall_app. split_and!; [apply u8s_bytes| |by apply Forall_replicate].
    unfold t. case_bool_decide; [apply u8s_bytes|constructor].
Qed.

(** ** The whole frame *)

Definition cfg_len (f : pw_flow) : Z :=
  if tr_frame_len_fixed_set (f_traffic f)
  then tr_frame_len_fixed (f_traffic f) else tr_frame_len_min (f_traffic f).

(** Encapsulation only with the test template, as validation requires. *)
Definition encap_ok (f : pw_flow) : Prop :=
  tr_frame_template (f_traffic f) <> PW_FRAME_TEMPLATE_TEST -> enc_present (f_encap f) = false.

Definition is_l3raw (f : pw_flow) : bool :=
  bool_decide (tr_frame_template (f_traffic f) = PW_FRAME_TEMPLATE_L3RAW).

(** Bytes between the Ethernet addresses and the inner IP header. *)
Definition mid_len (f : pw_flow) : nat := if enc_present (f_encap f) then outer_len f else 2.
Definition tail_len (f : pw_flow) : nat := if is_l3raw f then 0 else l4_len_of f + test_len f.
Definition ip_off (f : pw_flow) : nat := eth_len f + mid_len f.
Definition l4_off (f : pw_flow) : nat := ip_off f + ip_len f.

(** The compiler's minimum legal frame is the sum of the headers emitted. *)
Lemma min_legal_layout f : encap_ok f ->
  tr_frame_template (f_traffic f) <> PW_FRAME_TEMPLATE_L2RAW ->
  pw_flow_min_legal_frame f = Z.of_nat (l4_off f + tail_len f).
Proof.
  unfold encap_ok, pw_flow_min_legal_frame, l4_off, ip_off, tail_len, is_l3raw, mid_len, outer_len,
    eth_len, ip_len, l4_len_of, test_len.
  intros He Ht. destruct (tr_frame_template (f_traffic f)) eqn:E; try done;
    try rewrite (He ltac:(done)); cbn -[Z.of_nat];
    destruct (l2_vlan_set (f_l2 f)), (v6_present (f_ipv6 f)), (udp_l4_proto (f_udp f) =? 6);
    try done; destruct (enc_present (f_encap f)); try done;
    destruct (v6_present (enc_outer_ipv6 (f_encap f))), (enc_type (f_encap f)); done.
Qed.

(** The emitted headers up to and including the inner IP header. *)
Lemma emits_mid cap f v6 et pl : wt_flow f -> emits cap (fun out =>
    if enc_present (f_encap f) then put_outer cap f v6 et pl out
    else put cap [et >>> 8; et &&& 0xFF] out) (mid_len f).
Proof.
  intros Hw. unfold mid_len. destruct (enc_present (f_encap f)).
  - by apply emits_outer.
  - by apply emits_put.
Qed.

Definition frame_ok (cap : Z) (f : pw_flow) (seq : Z) (fr : pv_frame) : Prop :=
  pv_len fr = Z.max (cfg_len f) (pw_flow_min_legal_frame f) /\
  pv_built fr = pw_flow_min_legal_frame f /\
  length (pv_buf fr) = Z.to_nat cap /\
  Forall (eq 0) (drop (Z.to_nat (pv_built fr)) (pv_buf fr)) /\
  (v6_present (f_ipv6 f) = false ->
     ones_csum (take 20 (drop (ip_off f) (pv_buf fr))) 0 = 0) /\
  (is_l3raw f = false ->
     ones_csum (take (Z.to_nat (pv_len fr) - l4_off f) (drop (l4_off f) (pv_buf fr)))
       (pseudo_sum f (pv_effective f seq) (udp_l4_proto (f_udp f) =? 6)
          (pv_len fr - Z.of_nat (l4_off f))) = 0).

Lemma inner_ip_ok cap f seq pl proto out : Z.of_nat (length out + ip_len f) <= cap ->
  exists h, put_inner_ip cap f (pv_effective f seq) pl proto out = Ok (out ++ h) /\
    length h = ip_len f /\ Forall is_u8 h /\
    (v6_present (f_ipv6 f) = false -> ones_csum h 0 = 0).
Proof.
  intros Hf. destruct (emits_inner_ip cap f seq pl proto out Hf) as (h & Hr & Hl & Hb).
  exists h. split_and!; try done. intros H6. unfold put_inner_ip in Hr. rewrite H6 in Hr.
  apply put_ipv4_ok in Hr as (h' & Heq & _ & _ & Hc & _). apply app_inv_head in Heq. by subst h'.
Qed.

(** The IPv4 header found inside the finished buffer. *)
Lemma take_inner {A} (buf a h : list A) n : take (length (a ++ h)) buf = a ++ h -> length h = n ->
  take n (drop (length a) buf) = h.
Proof.
  intros Ht Hn. rewrite <- (take_drop (length (a ++ h)) buf), Ht, <- app_assoc.
  rewrite drop_app_length, take_app_length'; done.
Qed.

Lemma l3_frame_ok cap f seq a h : is_l3raw f = true -> encap_ok f ->
  length a = ip_off f -> length h = ip_len f ->
  Z.max (cfg_len f) (pw_flow_min_legal_frame f) <= cap ->
  (v6_present (f_ipv6 f) = false -> ones_csum h 0 = 0) ->
  frame_ok cap f seq {| pv_len := Z.max (cfg_len f) (pw_flow_min_legal_frame f);
    pv_built := Z.of_nat (length (a ++ h)); pv_buf := padded cap (a ++ h) |}.
Proof.
  intros H3 He Ha Hh Hc Hcs.
  assert (pw_flow_min_legal_frame f = Z.of_nat (length (a ++ h))) as Hm.
  { rewrite min_legal_layout by (done || (intros E; unfold is_l3raw in H3;
      rewrite E in H3; done)). unfold tail_len, l4_off. rewrite H3, length_app. lia. }
  assert (length (a ++ h) <= Z.to_nat cap)%nat by lia.
  unfold frame_ok. cbn [pv_len pv_built pv_buf]. split_and!; [done|done|..|by rewrite H3].
  - unfold padded. rewrite (length_app (a ++ h)), length_replicate. lia.
  - unfold padded. rewrite Nat2Z.id, drop_app_length. by apply Forall_replicate.
  - intros H6. rewrite <- Ha. rewrite (take_inner _ a h); [by apply Hcs| |].
    + apply take_app_length.
    + rewrite Hh. unfold ip_len. by rewrite H6.
Qed.

Lemma l4_frame_ok cap f seq a h fr : is_l3raw f = false -> encap_ok f ->
  tr_frame_template (f_traffic f) <> PW_FRAME_TEMPLATE_L2RAW ->
  length a = ip_off f -> length h = ip_len f ->
  (v6_present (f_ipv6 f) = false -> ones_csum h 0 = 0) ->
  l4_frame cap f seq (Z.max (cfg_len f) (pw_flow_min_legal_frame f))
    (Z.max (cfg_len f) (pw_flow_min_legal_frame f) - Z.of_nat (l4_off f)) (a ++ h) fr ->
  frame_ok cap f seq fr.
Proof.
  intros H3 He H2 Ha Hh Hcs [Flen Fb Fc Fo Fp Fcs].
  assert (length (a ++ h) = l4_off f) as Hl by (unfold l4_off; rewrite length_app; lia).
  rewrite Hl in *. unfold frame_ok. split_and!; [done| |done|done| |].
  - rewrite Fb, min_legal_layout by done. unfold tail_len. rewrite H3. f_equal. lia.
  - intros H6. rewrite <- Ha. rewrite (take_inner _ a h); [by apply Hcs|by rewrite Hl|].
    rewrite Hh. unfold ip_len. by rewrite H6.
  - intros _. by rewrite Flen.
Qed.

Definition l4hl_of (f : pw_flow) : Z :=
  if is_l3raw f then 0 else if udp_l4_proto (f_udp f) =? 6 then 20 else 8.
Definition iphl_of (f : pw_flow) : Z := if v6_present (f_ipv6 f) then 40 else 20.

(** The builder's own minimum is the compiler's. *)
Lemma min_frame_eq f : encap_ok f ->
  tr_frame_template (f_traffic f) <> PW_FRAME_TEMPLATE_L2RAW ->
  Z.of_nat (ip_off f) + iphl_of f + l4hl_of f +
    (if bool_decide (tr_frame_template (f_traffic f) = PW_FRAME_TEMPLATE_TEST) then 32 else 0)
  = pw_flow_min_legal_frame f.
Proof.
  intros He H2. rewrite min_legal_layout by done.
  unfold l4_off, tail_len, iphl_of, ip_len, l4hl_of, l4_len_of, test_len, is_l3raw.
  destruct (tr_frame_template (f_traffic f)) eqn:E, (v6_present (f_ipv6 f)),
    (udp_l4_proto (f_udp f) =? 6); try done;
    repeat case_bool_decide; try done; lia.
Qed.

Lemma prefix_eq f n ol tl il :
  (if enc_present (f_encap f) then encap_lens f else (0, 0, 0)) = (ol, tl, il) -> n = eth_len f ->
  Z.of_nat n + 2 + ol + tl + il = Z.of_nat (ip_off f).
Proof.
  intros Hel ->. unfold ip_off, mid_len, outer_len, encap_lens in *.
  destruct (enc_present (f_encap f)); simplify_eq; [|lia].
  destruct (v6_present (enc_outer_ipv6 (f_encap f))), (enc_type (f_encap f)); lia.
Qed.

Lemma preview_builds cap f seq :
  wt_flow f -> encap_ok f -> tr_frame_template (f_traffic f) <> PW_FRAME_TEMPLATE_L2RAW ->
  14 <= cfg_len f <= 9100 -> Z.max (cfg_len f) (pw_flow_min_legal_frame f) <= cap ->
  exists fr, pw_flow_build_preview cap f seq = Ok fr /\ frame_ok cap f seq fr.
Proof.
  intros Hw He H2 Hlen Hcap. pose proof (min_legal_layout f He H2) as Hml.
  pose proof (min_legal_bounds f) as Hmb. pose proof (min_frame_eq f He H2) as Hmf.
  unfold pw_flow_build_preview. fold (cfg_len f) (is_l3raw f) (l4hl_of f) (iphl_of f).
  rewrite (proj2 (Z.ltb_ge _ _)), (proj2 (Z.ltb_ge 9100 _)), (proj2 (Z.ltb_ge cap _)) by lia.
  cbn [orb fail_if mbind result_bind].
  destruct (emits_eth cap f (pv_effective f seq)) as (a & -> & Ha & Hab);
    [done|done|unfold l4_off, ip_off in Hml; lia|].
  cbn [mbind result_bind].
  rewrite (bool_decide_eq_false_2 (_ = PW_FRAME_TEMPLATE_L2RAW)) by done.
  rewrite (bool_decide_eq_true_2 (_ <> PW_FRAME_TEMPLATE_L2RAW)), andb_true_r by done.
  destruct (if enc_present (f_encap f) then _ else _) as [[ol tl] il] eqn:Hel.
  rewrite (prefix_eq _ _ _ _ _ Hel Ha), Hmf.
  set (N := if cfg_len f <? _ then _ else _).
  assert (N = Z.max (cfg_len f) (pw_flow_min_legal_frame f)) as HN
    by (unfold N; destruct (Z.ltb_spec (cfg_len f) (pw_flow_min_legal_frame f)); lia).
  rewrite HN in *. clear N HN. set (N := Z.max _ _) in *.
  rewrite (proj2 (Z.ltb_ge cap _)) by lia. cbn [fail_if mbind result_bind].
  assert (iphl_of f = Z.of_nat (ip_len f)) as Hip
    by (unfold iphl_of, ip_len; by destruct (v6_present _)).
  assert (0 <= l4hl_of f <= 20) by (unfold l4hl_of; repeat case_match; lia).
  assert (pw_flow_min_legal_frame f <= N <= 9100) as HNb by (unfold N; lia).
  assert (0 <= (if bool_decide (tr_frame_template (f_traffic f) = PW_FRAME_TEMPLATE_TEST)
    then 32 else 0)) by (destruct (bool_decide _); lia).
  assert (0 <= N - Z.of_nat (ip_off f) - iphl_of f - l4hl_of f <= 9100) by lia.
  rewrite (u64_id (N - _ - _ - _)) by (unfold is_w; lia).
  rewrite (u64_id (l4hl_of f + _)) by (unfold is_w; lia).
  destruct (emits_mid cap f (v6_present (f_ipv6 f))
    (if v6_present (f_ipv6 f) then 0x86DD else 0x0800)
    (u64 (tl + il + iphl_of f + l4hl_of f + (N - Z.of_nat (ip_off f) - iphl_of f - l4hl_of f)))
    Hw a) as (m & -> & Hm & Hmb'); [unfold l4_off, ip_off in Hml; lia|].
  cbn [mbind result_bind].
  assert (length (a ++ m) = ip_off f) as Ham by (rewrite length_app; unfold ip_off; lia).
  set (pl := if is_l3raw f then _ else _). set (proto := if is_l3raw f then _ else _).
  destruct (inner_ip_ok cap f seq pl proto (a ++ m)) as (h & -> & Hh & Hhb & Hcs);
    [unfold l4_off in Hml; lia|].
  cbn [mbind result_bind]. destruct (is_l3raw f) eqn:H3.
  - eexists. split; [reflexivity|]. by apply l3_frame_ok.
  - assert (l4hl_of f + (N - Z.of_nat (ip_off f) - iphl_of f - l4hl_of f)
      = N - Z.of_nat (l4_off f)) as -> by (unfold l4_off; lia).
    destruct (put_l4_ok cap f seq N (N - Z.of_nat (l4_off f)) ((a ++ m) ++ h)) as (fr & Hr & Hfr).
    + unfold l4_off. lia.
    + by rewrite !Forall_app.
    + rewrite length_app, Ham, Hh. unfold tail_len, l4_off in *. rewrite H3 in Hml. lia.
    + lia.
    + lia.
    + exists fr. split; [done|]. by eapply l4_frame_ok.
Qed.

Lemma put_eth_err cap f ef e : put_eth cap f ef = Err e -> e = Unsupported.
Proof.
  unfold put_eth. intros [H|(o & _ & H)]%bind_err; [by apply put_err in H|].
  destruct (l2_vlan_set (f_l2 f)); [by apply put_err in H|done].
Qed.

Lemma put_eth_length cap f seq out : put_eth cap f (pv_effective f seq) = Ok out ->
  length out = eth_len f.
Proof.
  unfold put_eth, eth_len. intros H. mon. apply put_ok in H as [-> _].
  destruct (l2_vlan_set (f_l2 f)); [apply put_ok in H0 as [-> _]|injection H0 as <-]; done.
Qed.



(** Building a preview never stores outside the caller's buffer: for a
    well-typed flow every failure is the source's own [-1], and none is a store
    that a missing check would have let through. *)
Theorem preview_in_bounds (cap : Z) (f : pw_flow) (seq : Z) (e : pv_err) :
  wt_flow f -> encap_ok f -> pw_flow_build_preview cap f seq = Err e -> e = Unsupported.
Proof.
  intros Hw He H.
  destruct (decide (tr_frame_template (f_traffic f) = PW_FRAME_TEMPLATE_L2RAW)) as [H2|H2].
  - unfold pw_flow_build_preview in H. rewrite (bool_decide_eq_true_2 (_ = PW_FRAME_TEMPLATE_L2RAW)) in H by done.
    apply bind_err in H as [H|([] & _ & H)]; [by apply fail_if_err in H|].
    apply bind_err in H as [H|(o & _ & H)]; [by apply put_eth_err in H|].
    apply bind_err in H as [H|(o' & _ & H)]; [by apply put_err in H|done].
  - destruct (decide (14 <= cfg_len f <= 9100 /\
      Z.max (cfg_len f) (pw_flow_min_legal_frame f) <= cap)) as [[Hl Hc]|Hn].
    { destruct (preview_builds cap f seq Hw He H2 Hl Hc) as (fr & Hr & _). congruence. }
    pose proof (min_frame_eq f He H2) as Hmf. unfold pw_flow_build_preview in H.
    fold (cfg_len f) (is_l3raw f) (l4hl_of f) (iphl_of f) in H.
    rewrite (bool_decide_eq_false_2 (_ = PW_FRAME_TEMPLATE_L2RAW)) in H by done.
    apply bind_err in H as [H|([] & Hg & H)]; [by apply fail_if_err in H|].
    apply fail_if_ok in Hg. rewrite !orb_false_iff, !Z.ltb_ge in Hg.
    apply bind_err in H as [H|(o & Ho & H)]; [by apply put_eth_err in H|].
    rewrite (bool_decide_eq_true_2 (_ <> PW_FRAME_TEMPLATE_L2RAW)), andb_true_r in H by done.
    destruct (if enc_present (f_encap f) then _ else _) as [[ol tl] il] eqn:Hel.
    rewrite (prefix_eq _ _ _ _ _ Hel (put_eth_length _ _ _ _ Ho)), Hmf in H.
    apply bind_err in H as [H|([] & Hg' & H)]; [by apply fail_if_err in H|].
    exfalso. apply Hn. apply fail_if_ok, Z.ltb_ge in Hg'.
    destruct (Z.ltb_spec (cfg_len f) (pw_flow_min_legal_frame f)); lia.
Qed.

Lemma preview_in_bounds_witness :
  pw_flow_build_preview 64 s_flow_v6 9 = Err Unsupported /\ Unsupported <> OutOfBounds.
Proof.
  split; [|discriminate].
  destruct (pw_flow_build_preview 64 s_flow_v6 9) as [fr|e] eqn:E;
    [vm_compute in E; discriminate E|].
  f_equal. apply (preview_in_bounds 64 s_flow_v6 9 e);
    [apply s_flows_wt|intros H; exfalso; by apply H|exact E].
Defined.

(** A raw Ethernet flow with a VLAN tag and the shortest accepted length. *)
Definition s_flow_l2raw : pw_flow :=
  {| f_id := 8; f_name := "l2"; f_tx_global_port := 0; f_rx_global_port := 1; f_logical_if_id := 0;
     f_l2 := f_l2 s_flow_map; f_ipv4 := zero_ipv4; f_ipv6 := zero_ipv6; f_udp := f_udp s_flow_map;
     f_traffic := {| tr_frame_template := PW_FRAME_TEMPLATE_L2RAW; tr_frame_len_fixed_set := true;
       tr_frame_len_fixed := 14; tr_frame_len_min := 0; tr_frame_len_max := 0;
       tr_frame_len_step := 0; tr_rate_bps := 1000; tr_rate_pps := 0; tr_burst_size := 1;
       tr_burst_gap_ticks := 0; tr_payload_mode := PWFPGA_PAYLOAD_ZERO; tr_payload_seed := 0;
       tr_insert_sequence := false; tr_insert_timestamp := false |};
     f_meas := zero_meas; f_mod := zero_modifiers; f_background := false; f_encap := zero_encap;
     f_rx_expect := PW_RX_INNER; f_match_udp_dst_mask := 0xFFFF;
     f_match_ipv4_dst_mask := 0xFFFFFFFF; f_match_ipv6_dst_set := false;
     f_match_ipv6_dst_mask := zero_v6; f_match_ipv6_src_set := false;
     f_match_ipv6_src_mask := zero_v6; f_classify_header := true |}.

(** The preview of a raw Ethernet flow is not clamped to the minimum legal
    frame: with a VLAN tag and a 14-byte length it reports more header bytes
    built (18) than the frame length it returns (14), while the generator's
    floor for the same flow is 18. *)
Theorem l2raw_preview_not_clamped :
  pw_flow_min_legal_frame s_flow_l2raw = 18 /\
  exists fr, pw_flow_build_preview 2048 s_flow_l2raw 0 = Ok fr /\
    pv_len fr = 14 /\ pv_built fr = 18.
Proof.
  split; [reflexivity|]. eexists. split; [vm_compute; reflexivity|]. split; reflexivity.
Qed.
