(* ===== verification/HeaderClassify.v ===== *)
(** * Header classification of modified frames

    A header-classified flow may randomize fields of its own key
    ([modifiers]); the compiler clears those bits in the card's key mask
    ([pw_fc_relax_mask]). This file shows that the mask it arrives at makes every
    frame of the flow, for every sequence number, fall on the flow's slot. The
    modifier functions are those of the frame builder. *)

From S2P Require Import Prelude Types Config Validate Csr FlowCompiler CompilerInv FieldClassifier.
From S2P Require Import CompilerFlows HashPlacement Samples CompilerProps FlowRow FramePreview.

(** ** The key of an emitted frame *)

(** Word [w] (0 = low 32 bits) of an emitted address. *)
Definition addr_words (v6 : bool) (mode : pwfpga_field_mod) (v4 mask4 : Z) (a6 mask6 : list Z)
    (seq salt : Z) : list Z :=
  if v6 then pv_lane mode a6 mask6 seq salt <$> [0; 1; 2; 3]%nat
  else [pv_mod32 mode v4 mask4 seq; 0; 0; 0].

(** The key words the classifier assembles from the frame flow [f] emits for
    [seq]: the fields in effect, the row's protocol. *)
Definition frame_key (f : pw_flow) (seq : Z) : list Z :=
  let ef := pv_effective f seq in
  let md := f_mod f in
  let v6 := v6_present (f_ipv6 f) in
  let tmpl := tr_frame_template (f_traffic f) in
  let vlan16 := if l2_vlan_set (f_l2 f) then ef_vlan ef else 0 in
  let eth := if v6 then 0x86DD else 0x0800 in
  if bool_decide (tmpl = PW_FRAME_TEMPLATE_L2RAW) then
    let et := if ztrue (l2_ethertype (f_l2 f)) then l2_ethertype (f_l2 f) else eth in
    replicate 8 0 ++ [0; (vlan16 <<< 16) ||| et; 0]
  else
    addr_words v6 (fm_mode (mod_dst_ipv4 md)) (v4_dst (f_ipv4 f)) (u32 (fm_mask (mod_dst_ipv4 md)))
      (v6_dst (f_ipv6 f)) (mod_dst_ipv6_mask md) seq 0x5A5A5A5A ++
    addr_words v6 (fm_mode (mod_src_ipv4 md)) (v4_src (f_ipv4 f)) (u32 (fm_mask (mod_src_ipv4 md)))
      (v6_src (f_ipv6 f)) (mod_src_ipv6_mask md) seq 0 ++
    [if bool_decide (tmpl = PW_FRAME_TEMPLATE_L3RAW) then 0 else (ef_sp ef <<< 16) ||| ef_dp ef;
     (vlan16 <<< 16) ||| eth;
     fc_l4_proto (tx_row f 0 0 false)].

(** The low word of an IPv6 modifier mask is also its 32-bit mask, as the
    configuration parser leaves it. *)
Definition v6_mods_ok (f : pw_flow) : Prop :=
  v6_present (f_ipv6 f) = true ->
  u32 (fm_mask (mod_dst_ipv4 (f_mod f))) = be32_at (mod_dst_ipv6_mask (f_mod f)) 12 /\
  u32 (fm_mask (mod_src_ipv4 (f_mod f))) = be32_at (mod_src_ipv6_mask (f_mod f)) 12.

(** ** What the mask clears *)

(** Every bit set in word [w] of [m] is set in [v]. *)
Definition clears (w : nat) (v : Z) (m : list Z) : Prop :=
  forall y i, m !! w = Some y -> Z.testbit y i = true -> Z.testbit v i = true.

Lemma clears_new w v m : clears w v (mask_and true w v m).
Proof.
  intros y i. unfold mask_and. rewrite list_lookup_alter_eq. intros (x & _ & ->)%fmap_Some.
  rewrite Z.land_spec, andb_true_iff. naive_solver.
Qed.

Lemma clears_keep c w w' v v' m : clears w v m -> clears w v (mask_and c w' v' m).
Proof.
  intros H y i. unfold mask_and. destruct c; [|apply H].
  destruct (decide (w' = w)) as [->|Hne].
  - rewrite list_lookup_alter_eq. intros (x & Hx & ->)%fmap_Some.
    rewrite Z.land_spec, andb_true_iff. intros [Hb _]. by eapply H.
  - rewrite list_lookup_alter_ne by done. apply H.
Qed.

Ltac relax_peel := repeat first [apply clears_new | apply clears_keep].

Lemma relax_keep w v m f : clears w v m -> clears w v (pw_fc_relax_mask m f).
Proof. intros H. unfold pw_fc_relax_mask. cbn [fold_left]. repeat apply clears_keep. done. Qed.

Section Relax.
Context (f : pw_flow).
Let md := f_mod f.

Lemma relax_dst4 m : modified (mod_dst_ipv4 md) = true ->
  clears 0 (not32 (u32 (fm_mask (mod_dst_ipv4 md)))) (pw_fc_relax_mask m f).
Proof. intros H. unfold pw_fc_relax_mask. fold md. rewrite H. cbn [fold_left]. relax_peel. Qed.

Lemma relax_src4 m : modified (mod_src_ipv4 md) = true ->
  clears 4 (not32 (u32 (fm_mask (mod_src_ipv4 md)))) (pw_fc_relax_mask m f).
Proof. intros H. unfold pw_fc_relax_mask. fold md. rewrite H. cbn [fold_left]. relax_peel. Qed.

Lemma relax_dst6 m w : modified (mod_dst_ipv4 md) = true -> v6_present (f_ipv6 f) = true ->
  (1 <= w <= 3)%nat ->
  clears w (not32 (be32_at (mod_dst_ipv6_mask md) ((3 - w) * 4))) (pw_fc_relax_mask m f).
Proof.
  intros H H6 Hw. unfold pw_fc_relax_mask. fold md. rewrite H, H6.
  destruct w as [|[|[|[|]]]]; try lia; cbn [fold_left andb]; relax_peel.
Qed.

Lemma relax_src6 m w : modified (mod_src_ipv4 md) = true -> v6_present (f_ipv6 f) = true ->
  (1 <= w <= 3)%nat ->
  clears (4 + w) (not32 (be32_at (mod_src_ipv6_mask md) ((3 - w) * 4))) (pw_fc_relax_mask m f).
Proof.
  intros H H6 Hw. unfold pw_fc_relax_mask. fold md. rewrite H, H6.
  destruct w as [|[|[|[|]]]]; try lia; cbn [fold_left andb]; relax_peel.
Qed.

Lemma relax_dp m : modified (mod_udp_dst md) = true ->
  clears 8 (not32 (u32 (fm_mask (mod_udp_dst md)) &&& 0xFFFF)) (pw_fc_relax_mask m f).
Proof. intros H. unfold pw_fc_relax_mask. fold md. rewrite H. cbn [fold_left]. relax_peel. Qed.

Lemma relax_sp m : modified (mod_udp_src md) = true ->
  clears 8 (not32 (u32 ((u32 (fm_mask (mod_udp_src md)) &&& 0xFFFF) <<< 16))) (pw_fc_relax_mask m f).
Proof. intros H. unfold pw_fc_relax_mask. fold md. rewrite H. cbn [fold_left]. relax_peel. Qed.

Lemma relax_vlan m : modified (mod_vlan md) = true ->
  clears 9 (not32 (u32 ((u32 (fm_mask (mod_vlan md)) &&& 0x0FFF) <<< 16))) (pw_fc_relax_mask m f).
Proof. intros H. unfold pw_fc_relax_mask. fold md. rewrite H. cbn [fold_left]. relax_peel. Qed.
End Relax.

Definition relax_on (cfg : pw_config) (id : Z) (m : list Z) (g : pw_flow) : list Z :=
  if header_flow_on cfg id g then pw_fc_relax_mask m g else m.

Lemma relax_on_keep cfg id w v fs : forall m, clears w v m ->
  clears w v (fold_left (relax_on cfg id) fs m).
Proof.
  induction fs as [|g fs IH]; intros m H; [done|]. cbn [fold_left]. apply IH.
  unfold relax_on. destruct (header_flow_on cfg id g); [by apply relax_keep|done].
Qed.

(** The card's mask clears what each of its header flows needs cleared. *)
Lemma hash_mask_clears cfg id f w v : f ∈ cfg_flows cfg -> header_flow_on cfg id f = true ->
  (forall m, clears w v (pw_fc_relax_mask m f)) -> clears w v (hash_mask_of cfg id).
Proof.
  intros Hf Hh Hr. unfold hash_mask_of. fold (relax_on cfg id).
  apply list_elem_of_split in Hf as (l1 & l2 & ->). rewrite fold_left_app. cbn [fold_left].
  apply relax_on_keep. unfold relax_on at 1. by rewrite Hh.
Qed.

(** Its bits are within 32. *)
Lemma hash_mask_32 cfg id w : clears w 0xFFFFFFFF (hash_mask_of cfg id).
Proof.
  apply relax_on_keep. intros y i [-> _]%lookup_replicate_1. done.
Qed.

(** ** Bits a modifier leaves alone *)

Lemma not32_bit m i : 0 <= i -> Z.testbit (not32 m) i = (i <? 32) && negb (Z.testbit m i).
Proof.
  intros Hi. unfold not32, u32. rewrite testbit_mod by lia. by rewrite Z.lnot_spec by done.
Qed.

(** Replacing masked bits leaves an unmasked bit of the base. *)
Lemma splice_bit n b m r i : 0 <= i < n -> 0 <= n -> Z.testbit m i = false ->
  Z.testbit ((b &&& (Z.lnot m mod 2 ^ n)) ||| (r &&& m)) i = Z.testbit b i.
Proof.
  intros Hi Hn Hm. rewrite Z.lor_spec, !Z.land_spec, Hm, testbit_mod by lia.
  rewrite Z.lnot_spec by lia. rewrite Hm, (proj2 (Z.ltb_lt i n)) by lia.
  simpl. by rewrite andb_true_r, andb_false_r, orb_false_r.
Qed.

Definition static_or_clear (mode : pwfpga_field_mod) (mask i : Z) : Prop :=
  mode = PWFPGA_FIELD_STATIC \/ Z.testbit mask i = false.

Lemma pv_mod32_bit mode b m s i : 0 <= i < 32 -> static_or_clear mode m i ->
  Z.testbit (pv_mod32 mode b m s) i = Z.testbit b i.
Proof.
  intros Hi [->|Hm]; [done|]. destruct mode; [done|..]; apply (splice_bit 32); done || lia.
Qed.

Lemma pv_lane_bit mode b m s salt l i : 0 <= i < 32 ->
  static_or_clear mode (be32_at m ((3 - l) * 4)) i ->
  Z.testbit (pv_lane mode b m s salt l) i = Z.testbit (be32_at b ((3 - l) * 4)) i.
Proof.
  intros Hi [->|Hm]; [done|]. unfold pv_lane.
  destruct mode; [done|..]; apply (splice_bit 32); done || lia.
Qed.

Lemma pv_mod16_bit mode b m s i : 0 <= i < 16 -> static_or_clear mode m i ->
  Z.testbit (pv_mod16 mode b m s) i = Z.testbit b i.
Proof.
  intros Hi [->|Hm]; [done|]. unfold pv_mod16, u16.
  destruct mode; [done|..]; rewrite testbit_mod by lia; rewrite (proj2 (Z.ltb_lt i 16)) by lia;
    rewrite Z.lor_spec, !Z.land_spec, Hm, Z.lnot_spec, Hm by lia; simpl;
    by rewrite andb_true_r, andb_false_r, orb_false_r.
Qed.

(** Two words agree under a mask when they agree on its bits. *)
Lemma land_agree a b x : (forall i, 0 <= i -> Z.testbit x i = true ->
  Z.testbit a i = Z.testbit b i) -> a &&& x = b &&& x.
Proof.
  intros H. apply Z.bits_inj'. intros i Hi. rewrite !Z.land_spec.
  destruct (Z.testbit x i) eqn:E; [by rewrite H|by rewrite !andb_false_r].
Qed.

(** ** Address words *)

Definition horner (l : list Z) : Z := fold_left (fun a b => a * 256 + b) l 0.

Lemma horner_bound l : Forall is_u8 l -> 0 <= horner l < 256 ^ Z.of_nat (length l).
Proof.
  unfold horner. induction l as [|b l IH] using rev_ind; intros Hl; [simpl; lia|].
  apply Forall_app in Hl as [Hl Hb]. apply Forall_cons in Hb as [Hb _]. specialize (IH Hl).
  rewrite fold_left_app, length_app. cbn [fold_left length]. unfold is_w in Hb.
  change (2 ^ 8) with 256 in Hb.
  rewrite Nat2Z.inj_add, Z.pow_add_r by lia. change (256 ^ Z.of_nat 1) with 256. nia.
Qed.

Lemma be128_horner l : Forall is_u8 l -> (length l <= 16)%nat -> be128 l = horner l.
Proof.
  unfold be128, horner. induction l as [|b l IH] using rev_ind; intros Hl Hn; [done|].
  apply Forall_app in Hl as [Hl Hb]. apply Forall_cons in Hb as [Hb _].
  rewrite length_app in Hn. simpl in Hn. rewrite !fold_left_app. cbn [fold_left].
  rewrite IH by (done || lia). pose proof (horner_bound l Hl) as Hh. unfold horner in Hh.
  set (v := fold_left _ l 0) in *.
  assert (256 ^ Z.of_nat (length l) <= 2 ^ 120) by
    (change (2 ^ 120) with (256 ^ 15); apply Z.pow_le_mono_r; lia).
  rewrite Z.shiftl_mul_pow2 by lia. unfold u128. rewrite Z.mod_small by lia.
  change 256 with (2 ^ 8). by apply lor_add.
Qed.

Lemma low_word v : (v &&& 0xFFFFFFFF) = v mod 2 ^ 32.
Proof. by apply (Z.land_ones v 32). Qed.

Lemma l3_words_v4 a : is_u32 a -> pw_fc_l3_words a = [a; 0; 0; 0].
Proof.
  unfold is_w, pw_fc_l3_words. intros Ha. rewrite !low_word, !Z.shiftr_div_pow2 by lia.
  rewrite (Z.mod_small a) by lia.
  rewrite !(Z.div_small a) by lia. done.
Qed.

(** The 32-bit word of [v] at bit [m]. *)
Lemma word_at v a w r m : v = (a * 2 ^ 32 + w) * 2 ^ m + r -> 0 <= m -> 0 <= r < 2 ^ m ->
  0 <= w < 2 ^ 32 -> v / 2 ^ m mod 2 ^ 32 = w.
Proof.
  intros -> Hm Hr Hw. rewrite Z.div_add_l by (apply Z.pow_nonzero; lia).
  rewrite (Z.div_small r) by done. rewrite Z.add_0_r, Z.add_comm, Z.mod_add by lia.
  by apply Z.mod_small.
Qed.

Lemma horner_app l k : horner (l ++ k) = horner l * 256 ^ Z.of_nat (length k) + horner k.
Proof.
  induction k as [|b k IH] using rev_ind.
  - rewrite app_nil_r. simpl. unfold horner at 3. simpl. lia.
  - unfold horner in *. rewrite app_assoc, (fold_left_app _ (l ++ k)), (fold_left_app _ k).
    rewrite length_app. cbn [fold_left length].
    rewrite IH, Nat2Z.inj_add, Z.pow_add_r by lia. change (256 ^ Z.of_nat 1) with 256. lia.
Qed.

Lemma horner4 a off : Forall is_u8 a -> (off + 4 <= length a)%nat ->
  be32_at a off = horner (take 4 (drop off a)).
Proof.
  intros Hb Hl. unfold be32_at.
  assert (forall i, (i < 4)%nat -> nth (off + i) a 0 = nth i (take 4 (drop off a)) 0) as Hn.
  { intros i Hi. rewrite !nth_lookup, lookup_take_lt, lookup_drop by lia. done. }
  rewrite <- (Nat.add_0_r off) at 1. rewrite !Hn by lia.
  assert (length (take 4 (drop off a)) = 4%nat) as Hlen
    by (rewrite length_take, length_drop; lia).
  assert (Forall is_u8 (take 4 (drop off a))) as Hb' by (by apply Forall_take, Forall_drop).
  destruct (take 4 (drop off a)) as [|b0 [|b1 [|b2 [|b3 [|]]]]]; simplify_eq/=.
  repeat (apply Forall_cons in Hb' as [? Hb']). rewrite be32_sum by done.
  unfold horner. cbn [fold_left]. lia.
Qed.

Lemma l3_words_v6 a : wt_bytes 16 a ->
  pw_fc_l3_words (be128 a) = (fun l => be32_at a ((3 - l) * 4)) <$> [0; 1; 2; 3]%nat.
Proof.
  intros [Hlen Hb]. rewrite be128_horner by (done || lia).
  assert (Hw : forall l, (l <= 3)%nat ->
    horner a / 2 ^ (32 * Z.of_nat l) mod 2 ^ 32 = be32_at a ((3 - l) * 4)).
  { intros l Hl. rewrite horner4 by (done || lia).
    set (off := ((3 - l) * 4)%nat).
    rewrite <- (take_drop off a) at 1. rewrite <- (take_drop 4 (drop off a)) at 1.
    rewrite !horner_app, drop_drop.
    assert (Forall is_u8 (drop (off + 4) a)) as Hr by (by apply Forall_drop).
    pose proof (horner_bound _ Hr) as Hrb.
    assert (Forall is_u8 (take 4 (drop off a))) as H4 by (by apply Forall_take, Forall_drop).
    pose proof (horner_bound _ H4) as H4b.
    rewrite ?length_app, ?length_take, ?length_drop, Hlen in *.
    replace (4 `min` (16 - off))%nat with 4%nat in * by (unfold off; lia).
    replace (16 - (off + 4))%nat with (4 * l)%nat in * by (unfold off; lia).
    replace (256 ^ Z.of_nat (4 * l)) with (2 ^ (32 * Z.of_nat l)) in *
      by (change 256 with (2 ^ 8); rewrite <- Z.pow_mul_r by lia; f_equal; lia).
    change (256 ^ Z.of_nat 4) with (2 ^ 32) in *.
    eapply (word_at _ (horner (take off a)) _ (horner (drop (off + 4) a))); [|lia|done|done].
    replace (16 - off)%nat with (4 + 4 * l)%nat by (unfold off; lia).
    rewrite Nat2Z.inj_add, Z.pow_add_r by lia. change (256 ^ Z.of_nat 4) with (2 ^ 32).
    replace (256 ^ Z.of_nat (4 * l)) with (2 ^ (32 * Z.of_nat l))
      by (change 256 with (2 ^ 8); rewrite <- Z.pow_mul_r by lia; f_equal; lia). lia. }
  unfold pw_fc_l3_words. rewrite !low_word, !Z.shiftr_div_pow2 by lia. cbn [fmap list_fmap].
  rewrite <- (Hw 0%nat), <- (Hw 1%nat), <- (Hw 2%nat), <- (Hw 3%nat) by lia.
  change (2 ^ (32 * Z.of_nat 0)) with 1. by rewrite Z.div_1_r.
Qed.

(** ** Agreement under the mask *)

Section Agree.
Context (mask : list Z) (H32 : forall w, clears w 0xFFFFFFFF mask).

Definition agree_at (w : nat) (a b : Z) : Prop := forall x, mask !! w = Some x -> a &&& x = b &&& x.

Lemma mask_bit w x i : mask !! w = Some x -> 0 <= i -> Z.testbit x i = true -> i < 32.
Proof.
  intros Hx Hi Hb. specialize (H32 w x i Hx Hb).
  destruct (Z.lt_ge_cases i 32); [done|]. change 0xFFFFFFFF with (Z.ones 32) in H32.
  by rewrite Z.ones_spec_high in H32 by lia.
Qed.

Lemma agree_bits w a b :
  (forall x i, mask !! w = Some x -> 0 <= i < 32 -> Z.testbit x i = true ->
     Z.testbit a i = Z.testbit b i) -> agree_at w a b.
Proof.
  intros H x Hx. apply land_agree. intros i Hi Hb. eapply H; try done. split; [done|].
  by eapply mask_bit.
Qed.

(** A bit the mask keeps is not a modified bit. *)
Lemma kept_bit w mode m x i : (mode <> PWFPGA_FIELD_STATIC -> clears w (not32 m) mask) ->
  mask !! w = Some x -> 0 <= i -> Z.testbit x i = true -> static_or_clear mode m i.
Proof.
  intros Hc Hx Hi Hb. destruct (decide (mode = PWFPGA_FIELD_STATIC)) as [->|Hm]; [by left|].
  right. specialize (Hc Hm x i Hx Hb). rewrite not32_bit in Hc by done.
  apply andb_true_iff in Hc as [_ Hc]. by destruct (Z.testbit m i).
Qed.

(** The four address words starting at word [w0]. *)
Lemma addr_agree (w0 : nat) v6 mode v4 mask4 a6 mask6 seq salt :
  is_u32 v4 -> wt_bytes 16 a6 ->
  (v6 = true -> mask4 = be32_at mask6 12) ->
  (mode <> PWFPGA_FIELD_STATIC -> clears w0 (not32 mask4) mask) ->
  (mode <> PWFPGA_FIELD_STATIC -> v6 = true -> forall j, (1 <= j <= 3)%nat ->
     clears (w0 + j) (not32 (be32_at mask6 ((3 - j) * 4))) mask) ->
  forall j a b, pw_fc_l3_words (if v6 then be128 a6 else v4) !! j = Some a ->
    addr_words v6 mode v4 mask4 a6 mask6 seq salt !! j = Some b -> agree_at (w0 + j) a b.
Proof.
  intros H4 H6 Hm Hc Hc6 j a b Ha Hb. unfold addr_words in Hb. destruct v6.
  - rewrite l3_words_v6 in Ha by done. rewrite list_lookup_fmap in Ha, Hb.
    assert (j < 4)%nat as Hj.
    { destruct ([0; 1; 2; 3]%nat !! j) eqn:E; [|done]. by apply lookup_lt_Some in E. }
    assert ([0; 1; 2; 3]%nat !! j = Some j) as E by (by destruct j as [|[|[|[|]]]]; try lia).
    rewrite E in Ha, Hb. injection Ha as <-. injection Hb as <-.
    apply agree_bits. intros x i Hx Hi Hbit. symmetry. apply pv_lane_bit; [done|].
    apply (kept_bit (w0 + j) _ _ x); [|done|lia|done]. intros Hmod.
    destruct (decide (j = 0%nat)) as [->|Hn].
    + rewrite Nat.add_0_r. change ((3 - 0) * 4)%nat with 12%nat. rewrite <- Hm by done. by apply Hc.
    + apply Hc6; [done..|lia].
  - rewrite l3_words_v4 in Ha by done.
    destruct j as [|[|[|[|]]]]; simplify_eq/=; try done.
    apply agree_bits. intros x i Hx Hi Hbit. symmetry. apply pv_mod32_bit; [done|].
    rewrite Nat.add_0_r in Hx. by apply (kept_bit w0 _ _ x); [|done|lia|].
Qed.

(** Two 16-bit fields packed in one word. *)
Lemma pack_agree w hi lo hi' lo' : is_u16 lo -> is_u16 lo' ->
  (forall x i, mask !! w = Some x -> 0 <= i < 16 -> Z.testbit x i = true ->
     Z.testbit lo i = Z.testbit lo' i) ->
  (forall x i, mask !! w = Some x -> 0 <= i < 16 -> Z.testbit x (i + 16) = true ->
     Z.testbit hi i = Z.testbit hi' i) ->
  agree_at w (u32 (hi <<< 16) ||| lo) ((hi' <<< 16) ||| lo').
Proof.
  intros Hlo Hlo' Hl Hh. apply agree_bits. intros x i Hx Hi Hb.
  rewrite !Z.lor_spec. unfold u32. rewrite testbit_mod by lia.
  rewrite (proj2 (Z.ltb_lt i 32)) by lia. simpl andb.
  destruct (Z.lt_ge_cases i 16).
  - rewrite !Z.shiftl_spec_low by lia. simpl. apply (Hl x); [done|lia|done].
  - rewrite !Z.shiftl_spec by lia.
    assert (Z.testbit lo i = false) as -> by (apply (is_w_bits 16); done || lia).
    assert (Z.testbit lo' i = false) as -> by (apply (is_w_bits 16); done || lia).
    rewrite !orb_false_r. apply (Hh x); [done|lia|]. by rewrite Z.sub_add.
Qed.

Lemma pv_mod16_u16 mode b m s : is_u16 b -> is_u16 (pv_mod16 mode b m s).
Proof. intros. destruct mode; [done|apply u16_w..]. Qed.

(** A kept bit of the low field. *)
Lemma kept_lo w mode fm x i : 0 <= i < 16 ->
  (mode <> PWFPGA_FIELD_STATIC -> clears w (not32 (u32 fm &&& 0xFFFF)) mask) ->
  mask !! w = Some x -> Z.testbit x i = true -> static_or_clear mode (u16 fm) i.
Proof.
  intros Hi Hc Hx Hb. destruct (kept_bit w mode _ x i Hc Hx (proj1 Hi) Hb) as [?|Hm]; [by left|].
  right. rewrite Z.land_spec in Hm. unfold u32, u16 in *. rewrite !testbit_mod in * by lia.
  change 0xFFFF with (Z.ones 16) in Hm. rewrite Z.ones_spec_low, andb_true_r in Hm by lia.
  rewrite (proj2 (Z.ltb_lt i 32)) in Hm by lia. by rewrite (proj2 (Z.ltb_lt i 16)) by lia.
Qed.

(** A kept bit of the high field, whose modifier mask is limited to [lim]. *)
Lemma kept_hi w mode fm lim x i : 0 <= i < 16 ->
  (mode <> PWFPGA_FIELD_STATIC -> clears w (not32 (u32 ((u32 fm &&& lim) <<< 16))) mask) ->
  mask !! w = Some x -> Z.testbit x (i + 16) = true -> static_or_clear mode (u16 (fm &&& lim)) i.
Proof.
  intros Hi Hc Hx Hb.
  destruct (kept_bit w mode _ x (i + 16) Hc Hx ltac:(lia) Hb) as [?|Hm]; [by left|]. right.
  unfold u32, u16 in *. rewrite testbit_mod, Z.shiftl_spec, Z.land_spec, testbit_mod in Hm by lia.
  rewrite testbit_mod, Z.land_spec by lia. replace (i + 16 - 16) with i in Hm by lia.
  rewrite (proj2 (Z.ltb_lt (i + 16) 32)), (proj2 (Z.ltb_lt i 32)) in Hm by lia.
  by rewrite (proj2 (Z.ltb_lt i 16)) by lia.
Qed.

Lemma u16_land_ffff z : u16 (z &&& 0xFFFF) = u16 z.
Proof.
  unfold u16. assert (z &&& 0xFFFF = z mod 2 ^ 16) as -> by (apply (Z.land_ones z 16); lia).
  by rewrite Z.mod_mod.
Qed.

(** Word 8: the ports. *)
Lemma ports_agree f seq : wt_flow f ->
  (forall w v, (forall m, clears w v (pw_fc_relax_mask m f)) -> clears w v mask) ->
  agree_at 8 (u32 (udp_src_port (f_udp f) <<< 16) ||| udp_dst_port (f_udp f))
    ((ef_sp (pv_effective f seq) <<< 16) ||| ef_dp (pv_effective f seq)).
Proof.
  intros Hw Hclr. simpl. apply pack_agree.
  - apply Hw.
  - apply pv_mod16_u16, Hw.
  - intros x i Hx Hi Hb. symmetry. apply pv_mod16_bit; [done|].
    apply (kept_lo 8 _ _ x); try done. intros Hm. apply Hclr. intros m. apply relax_dp.
    by apply bool_decide_eq_true.
  - intros x i Hx Hi Hb. symmetry. apply pv_mod16_bit; [done|].
    rewrite <- u16_land_ffff. apply (kept_hi 8 _ _ _ x); try done. intros Hm. apply Hclr.
    intros m. apply relax_sp. by apply bool_decide_eq_true.
Qed.

(** Word 9: VLAN and Ethernet type. *)
Lemma vlan_agree f seq et : is_u16 et ->
  (forall w v, (forall m, clears w v (pw_fc_relax_mask m f)) -> clears w v mask) ->
  agree_at 9
    (u32 ((if l2_vlan_set (f_l2 f) then l2_vlan (f_l2 f) &&& 0x0FFF else 0) <<< 16) ||| et)
    (((if l2_vlan_set (f_l2 f) then ef_vlan (pv_effective f seq) else 0) <<< 16) ||| et).
Proof.
  intros Het Hclr. apply pack_agree; [done..|]. intros x i Hx Hi Hb.
  destruct (l2_vlan_set (f_l2 f)); [|done]. cbn [ef_vlan pv_effective].
  rewrite (Z.land_spec (pv_mod16 _ _ _ _)), pv_mod16_bit; [|done|].
  - rewrite Z.land_spec. by destruct (Z.testbit (l2_vlan _) i), (Z.testbit 0x0FFF i).
  - apply (kept_hi 9 _ _ _ x); try done. intros Hm. apply Hclr. intros m. apply relax_vlan.
    by apply bool_decide_eq_true.
Qed.

Lemma masked_agree k k' : length k = length k' ->
  (forall w a b, k !! w = Some a -> k' !! w = Some b -> agree_at w a b) ->
  masked mask k = masked mask k'.
Proof.
  intros Hl H. apply list_eq. intros w. unfold masked. rewrite !lookup_zip_with.
  destruct (k !! w) as [a|] eqn:Ha, (k' !! w) as [b|] eqn:Hb; simpl; try done.
  - specialize (H w a b Ha Hb). destruct (mask !! w) as [x|] eqn:Hx; simpl; [|done].
    by rewrite (H x Hx).
  - apply lookup_lt_Some in Ha. apply lookup_ge_None in Hb. lia.
  - apply lookup_lt_Some in Hb. apply lookup_ge_None in Ha. lia.
Qed.

(** Two key fragments that start at word [w0]. *)
Definition agree_from (w0 : nat) (k k' : list Z) : Prop :=
  length k = length k' /\
  forall j a b, k !! j = Some a -> k' !! j = Some b -> agree_at (w0 + j) a b.

Lemma agree_from_cons w0 a b k k' :
  agree_at w0 a b -> agree_from (S w0) k k' -> agree_from w0 (a :: k) (b :: k').
Proof.
  intros Ha [Hl Hk]. split; [simpl; lia|]. intros [|j] a' b'; simpl.
  - intros [= <-] [= <-]. by rewrite Nat.add_0_r.
  - intros. rewrite Nat.add_succ_r. by apply Hk.
Qed.

Lemma agree_from_app w0 n k1 k1' k2 k2' : length k1 = n ->
  agree_from w0 k1 k1' -> agree_from (w0 + n) k2 k2' -> agree_from w0 (k1 ++ k2) (k1' ++ k2').
Proof.
  intros <- [Hl H1] [Hl2 H2]. split; [rewrite !length_app; lia|]. intros j a b Ha Hb.
  destruct (decide (j < length k1)%nat).
  - rewrite lookup_app_l in Ha, Hb by lia. by apply H1.
  - rewrite lookup_app_r in Ha, Hb by lia. rewrite <- Hl in Hb.
    replace (w0 + j)%nat with (w0 + length k1 + (j - length k1))%nat by lia. by apply H2.
Qed.

Lemma agree_from_nil w0 : agree_from w0 [] [].
Proof. split; [done|]. intros ? ? ? [=]. Qed.

Lemma agree_from_refl w0 k : agree_from w0 k k.
Proof. split; [done|]. intros j a b ??. by assert (a = b) as -> by congruence. Qed.

Lemma hash_words_eq f : tr_frame_template (f_traffic f) <> PW_FRAME_TEMPLATE_L2RAW ->
  pw_fc_hash_words f =
  pw_fc_l3_words (if v6_present (f_ipv6 f) then be128 (v6_dst (f_ipv6 f)) else v4_dst (f_ipv4 f)) ++
  pw_fc_l3_words (if v6_present (f_ipv6 f) then be128 (v6_src (f_ipv6 f)) else v4_src (f_ipv4 f)) ++
  [if bool_decide (tr_frame_template (f_traffic f) = PW_FRAME_TEMPLATE_L3RAW) then 0
   else u32 (udp_src_port (f_udp f) <<< 16) ||| udp_dst_port (f_udp f);
   u32 ((if l2_vlan_set (f_l2 f) then l2_vlan (f_l2 f) &&& 0x0FFF else 0) <<< 16) |||
     (if v6_present (f_ipv6 f) then 0x86DD else 0x0800);
   fc_l4_proto (tx_row f 0 0 false)].
Proof.
  intros H. unfold pw_fc_hash_words. rewrite bool_decide_eq_false_2 by done.
  assert (fc_l4_proto (tx_row f 0 0 false) =
    if ztrue (udp_l4_proto (f_udp f)) then udp_l4_proto (f_udp f) else 17) as ->
    by (unfold tx_row; by destruct (frame_lens (f_traffic f)) as [[??]?]).
  by destruct (v6_present (f_ipv6 f)).
Qed.

(** Whatever the modifiers do, the key agrees with the flow's own under the mask. *)
Lemma frame_key_agrees f seq : wt_flow f -> v6_mods_ok f ->
  (forall w v, (forall m, clears w v (pw_fc_relax_mask m f)) -> clears w v mask) ->
  masked mask (pw_fc_hash_words f) = masked mask (frame_key f seq).
Proof.
  intros Hw Hm Hclr.
  assert (agree_from 0 (pw_fc_hash_words f) (frame_key f seq)) as [Hl Ha];
    [|by apply masked_agree].
  assert (forall md, modified md = true <-> fm_mode md <> PWFPGA_FIELD_STATIC) as Hmod
    by (intros; apply bool_decide_eq_true).
  destruct (decide (tr_frame_template (f_traffic f) = PW_FRAME_TEMPLATE_L2RAW)) as [H2|H2].
  - unfold pw_fc_hash_words, frame_key. rewrite !bool_decide_eq_true_2 by done.
    apply (agree_from_app _ 8); [done|apply agree_from_refl|].
    apply agree_from_cons; [done|]. apply agree_from_cons; [|apply agree_from_refl].
    set (et := if ztrue _ then _ else _).
    assert (is_u16 et) as Het.
    { unfold et. destruct (ztrue _); [apply Hw|]. destruct (v6_present _); vm_compute; by split. }
    assert (et &&& 0xFFFF = et) as ->
      by (transitivity (et mod 2 ^ 16); [apply (Z.land_ones et 16); lia|by apply Z.mod_small]).
    by apply vlan_agree.
  - rewrite (hash_words_eq f H2). unfold frame_key. rewrite (bool_decide_eq_false_2 (_ = PW_FRAME_TEMPLATE_L2RAW)) by done.
    apply (agree_from_app _ 4); [done| |apply (agree_from_app _ 4); [done| |]].
    + split; [by destruct (v6_present (f_ipv6 f))|]. apply addr_agree; try apply Hw.
      * intros H6. by apply Hm.
      * intros Hs%Hmod. apply Hclr. intros m. by apply relax_dst4.
      * intros Hs%Hmod H6 j Hj. apply Hclr. intros m. by apply relax_dst6.
    + split; [by destruct (v6_present (f_ipv6 f))|]. apply addr_agree; try apply Hw.
      * intros H6. by apply Hm.
      * intros Hs%Hmod. apply Hclr. intros m. by apply relax_src4.
      * intros Hs%Hmod H6 j Hj. apply Hclr. intros m. by apply relax_src6.
    + apply agree_from_cons; [destruct (bool_decide _); [done|by apply ports_agree]|].
      apply agree_from_cons; [|apply agree_from_refl]. apply vlan_agree; [|done].
      destruct (v6_present _); vm_compute; by split.
Qed.
End Agree.


