(* ===== verification/Ipc.v ===== *)
(** * Control-socket framing

    Models [sw/libpacketwyrm/src/ipc.c]. The kernel's answers to [send] and
    [read] are a parameter: a script of partial transfers, interruptions and
    failures, one per system call; a call that finds the script empty blocks. The
    socket file's life is modelled as the sequence of system calls [pw_ipc_listen]
    makes. [SIGPIPE] suppression and descriptor numbers are left out. *)

From Stdlib Require Import Ascii.
From S2P Require Import Prelude Types.

Local Open Scope string_scope.
Local Open Scope Z_scope.
Local Open Scope list_scope.

Definition PW_IPC_FRAME_MAX : Z := 65536.
Definition PW_IPC_DEFAULT_PATH : string := "/run/packetwyrm/packetwyrmd.sock".
Definition SUN_PATH : nat := 108.

(** ** Transfers *)

Inductive io_answer :=
| Xfer (k : nat)   (* the kernel is ready to move up to [k] bytes *)
| Intr             (* EINTR *)
| Fail.            (* any other error *)

Inductive outcome (A : Type) :=
| Done (a : A)
| Failed            (* the function returned -1 *)
| Blocked.          (* the script ended inside the call *)
Arguments Done {A} a.
Arguments Failed {A}.
Arguments Blocked {A}.

Definition omap_out {A B} (f : A -> B) (o : outcome A) : outcome B :=
  match o with Done a => Done (f a) | Failed => Failed | Blocked => Blocked end.

(** The bytes handed to the socket, the answers left, and the outcome. *)
Fixpoint write_all (ks : list io_answer) (buf : list Z) : list Z * list io_answer * outcome unit :=
  match buf, ks with
  | [], _ => ([], ks, Done tt)
  | _, [] => ([], [], Blocked)
  | _, Intr :: ks => write_all ks buf
  | _, Fail :: ks => ([], ks, Failed)
  | _, Xfer k :: ks =>
      let '(out, ks, o) := write_all ks (drop k buf) in (take k buf ++ out, ks, o)
  end.

(** [s] is what the peer has sent and will send; reading past it is end of file. *)
Fixpoint read_all (ks : list io_answer) (s : list Z) (left : nat) :
    list Z * list io_answer * outcome (list Z) :=
  match left, ks with
  | O, _ => (s, ks, Done [])
  | _, [] => (s, [], Blocked)
  | _, Intr :: ks => read_all ks s left
  | _, Fail :: ks => (s, ks, Failed)
  | _, Xfer k :: ks =>
      let n := Nat.min (Nat.min (Nat.max 1 k) left) (length s) in
      if (n =? 0)%nat then (s, ks, Failed) else
      let '(s', ks, o) := read_all ks (drop n s) (left - n) in (s', ks, omap_out (app (take n s)) o)
  end.

Definition frame_hdr (len : Z) : list Z := [u8 (len >>> 24); u8 (len >>> 16); u8 (len >>> 8); u8 len].
Definition hdr_len (hdr : list Z) : Z := be32_at hdr 0.

Definition pw_ipc_read_frame (ks : list io_answer) (s : list Z) (buflen : Z) :
    list Z * list io_answer * outcome (result pw_status (list Z)) :=
  match read_all ks s 4 with
  | (s, ks, Failed) => (s, ks, Done (Err PW_E_IO))
  | (s, ks, Blocked) => (s, ks, Blocked)
  | (s, ks, Done hdr) =>
      let n := hdr_len hdr in
      if (n =? 0) || (buflen <? n) || (PW_IPC_FRAME_MAX <? n) then (s, ks, Done (Err PW_E_OUT_OF_RANGE)) else
      match read_all ks s (Z.to_nat n) with
      | (s, ks, Failed) => (s, ks, Done (Err PW_E_IO))
      | (s, ks, Blocked) => (s, ks, Blocked)
      | (s, ks, Done body) => (s, ks, Done (Ok body))
      end
  end.

Definition pw_ipc_write_frame (ks : list io_answer) (buf : list Z) :
    list Z * list io_answer * outcome (result pw_status unit) :=
  let len := Z.of_nat (length buf) in
  if (len =? 0) || (PW_IPC_FRAME_MAX <? len) then ([], ks, Done (Err PW_E_OUT_OF_RANGE)) else
  match write_all ks (frame_hdr len) with
  | (out, ks, Failed) => (out, ks, Done (Err PW_E_IO))
  | (out, ks, Blocked) => (out, ks, Blocked)
  | (out, ks, Done _) =>
      match write_all ks buf with
      | (out', ks, Failed) => (out ++ out', ks, Done (Err PW_E_IO))
      | (out', ks, Blocked) => (out ++ out', ks, Blocked)
      | (out', ks, Done _) => (out ++ out', ks, Done (Ok tt))
      end
  end.

(** ** Socket paths *)

(** The path as stored in [sun_path]; one that does not fit is refused. *)
Definition fill_sockaddr_un (path : string) : result pw_status string :=
  if (SUN_PATH <=? String.length path)%nat then Err PW_E_OUT_OF_RANGE else Ok path.

Inductive errno := ECONNREFUSED | ENOENT | EACCES | EPERM | ENOTSOCK | ETIMEDOUT | EOTHER.

Definition pw_ipc_connect_hint (e : errno) : string :=
  match e with
  | ECONNREFUSED => "daemon not running or wrong --socket path"
  | ENOENT => "socket path does not exist -- is packetwyrmd running?"
  | EACCES | EPERM => "permission denied -- run as root or join the 'packetwyrm' group (socket is 0660 root:packetwyrm)"
  | ENOTSOCK => "path exists but is not a socket -- check the --socket path"
  | ETIMEDOUT => "connect timed out -- daemon may be hung or unreachable"
  | EOTHER => "unable to connect to the control socket"
  end.

(** [socket] and [connect] succeed or not; on failure the errno stays for the caller. *)
Definition pw_ipc_connect (sock_ok : bool) (conn : option errno) (path : string) : result pw_status string :=
  sa ← fill_sockaddr_un path;
  fail_if (negb sock_ok) PW_E_IO ;;
  fail_if (bool_decide (is_Some conn)) PW_E_IO ;;
  mret sa.

(** ** Creating the listening socket *)

Inductive syscall :=
| Mkdir (dir : string) (mode : Z)
| Lstat (path : string)
| Unlink (path : string)
| Socket
| Umask (mask : Z)
| Bind (path : string)
| RestoreUmask
| Listen (backlog : Z)
| Chmod (path : string) (mode : Z)
| Close.

Definition slash : ascii := "/".

(** [strrchr(buf, '/')]: what precedes the last slash. *)
Fixpoint dirname (s : string) : option string :=
  match s with
  | EmptyString => None
  | String c s =>
      match dirname s with
      | Some d => Some (String c d)
      | None => if bool_decide (c = slash) then Some EmptyString else None
      end
  end.

(** Directories are created 0755 ([0x1ED]). [for (p = buf + 1; *p; p++) if ( *p == '/') mkdir(prefix)]: [pre] is the part
    before the cursor. *)
Fixpoint mkdir_prefixes (pre rest : string) : list syscall :=
  match rest with
  | EmptyString => []
  | String c rest =>
      (if bool_decide (c = slash) then [Mkdir pre 0x1ED] else []) ++
      mkdir_prefixes (pre +:+ String c EmptyString) rest
  end.

Definition ensure_parent_dir (path : string) : list syscall :=
  let n := String.length path in
  if (n =? 0)%nat || (SUN_PATH <=? n)%nat then [] else
  match dirname path with
  | None | Some EmptyString => []
  | Some (String c rest as dir) => mkdir_prefixes (String c EmptyString) rest ++ [Mkdir dir 0x1ED]
  end.

(** What the kernel answers: the file at the path ([Some true] is a socket), and
    whether each call succeeds. *)
Record listen_env := {
  le_lstat : option bool; le_socket : bool; le_bind : bool; le_listen : bool; le_chmod : bool
}.

Definition pw_ipc_listen (env : listen_env) (path : string) (mode : Z) :
    list syscall * result pw_status unit :=
  match fill_sockaddr_un path with
  | Err e => ([], Err e)
  | Ok sa =>
      let pre := ensure_parent_dir path ++ [Lstat path] in
      if bool_decide (le_lstat env = Some false) then (pre, Err PW_E_IO) else
      let pre := pre ++ (if bool_decide (le_lstat env = Some true) then [Unlink path] else []) ++ [Socket] in
      if negb (le_socket env) then (pre, Err PW_E_IO) else
      let pre := pre ++ [Umask 0x3F; Bind sa; RestoreUmask] in
      if negb (le_bind env) then (pre ++ [Close], Err PW_E_IO) else
      let pre := pre ++ [Listen 4] in
      if negb (le_listen env) then (pre ++ [Close], Err PW_E_IO) else
      let pre := pre ++ [Chmod path mode] in
      if negb (le_chmod env) then (pre ++ [Close; Unlink path], Err PW_E_IO) else
      (pre, Ok tt)
  end.

(** ** Frames cross the socket whole *)

Definition moves (a : io_answer) : bool := match a with Xfer (S _) => true | _ => false end.

(** A script that never fails and makes progress at least [n] times. *)
Definition serves (n : nat) (ks : list io_answer) : Prop :=
  (Fail ∉ ks) /\ (n <= length (filter moves ks))%nat.

Lemma serves_le n m ks : (m <= n)%nat -> serves n ks -> serves m ks.
Proof. intros ? [? ?]. split; [done|lia]. Qed.

Lemma serves_cons n a ks : serves n (a :: ks) -> serves (n - (if moves a then 1 else 0)) ks /\ a <> Fail.
Proof.
  intros [Hf Hn]. apply not_elem_of_cons in Hf as [Ha Hf]. rewrite filter_cons in Hn.
  split; [|done]. split; [done|].
  destruct (decide (moves a)) as [Hm|Hm]; destruct (moves a); simpl in *; done || lia.
Qed.

Lemma write_all_serves ks : forall m buf, serves (m + length buf) ks ->
  exists ks', write_all ks buf = (buf, ks', Done tt) /\ serves m ks'.
Proof.
  induction ks as [|a ks IH]; intros m buf Hs.
  - destruct buf; simpl in *; [|destruct Hs as [_ Hs]; simpl in Hs; lia].
    eexists. split; [done|]. eapply serves_le; [|exact Hs]. lia.
  - destruct buf as [|b buf]; simpl.
    { eexists. split; [done|]. eapply serves_le; [|exact Hs]. simpl. lia. }
    apply serves_cons in Hs as [Hs Ha]. destruct a as [k| |]; [| |done].
    + destruct (IH m (drop k (b :: buf))) as (ks' & Hw & Hs').
      * eapply serves_le; [|exact Hs]. rewrite length_drop. destruct k; simpl; lia.
      * rewrite Hw. exists ks'. by rewrite take_drop.
    + destruct (IH m (b :: buf)) as (ks' & Hw & Hs'); [|by exists ks'].
      eapply serves_le; [|exact Hs]. simpl. lia.
Qed.

Lemma read_all_serves ks : forall m buf rest, serves (m + length buf) ks ->
  exists ks', read_all ks (buf ++ rest) (length buf) = (rest, ks', Done buf) /\ serves m ks'.
Proof.
  induction ks as [|a ks IH]; intros m buf rest Hs.
  - destruct buf; simpl in *; [|destruct Hs as [_ Hs]; simpl in Hs; lia].
    eexists. split; [done|]. eapply serves_le; [|exact Hs]. lia.
  - destruct buf as [|b buf]; [simpl|].
    { eexists. split; [done|]. eapply serves_le; [|exact Hs]. simpl. lia. }
    apply serves_cons in Hs as [Hs Ha]. destruct a as [k| |]; [| |done].
    + cbn [read_all length]. set (n := Nat.min _ (length _)).
      assert (Hn : (1 <= n <= length (b :: buf))%nat) by (unfold n; rewrite length_app; simpl; lia).
      destruct (Nat.eqb_spec n 0) as [|_]; [lia|].
      rewrite drop_app_le, take_app_le by lia.
      destruct (IH m (drop n (b :: buf)) rest) as (ks' & Hr & Hs').
      * eapply serves_le; [|exact Hs]. rewrite length_drop. destruct k; simpl in *; lia.
      * rewrite length_drop in Hr. change (S (length buf)) with (length (b :: buf)).
        rewrite Hr. exists ks'. split; [|done]. cbn [omap_out]. by rewrite take_drop.
    + destruct (IH m (b :: buf) rest) as (ks' & Hr & Hs'); [|by exists ks'].
      eapply serves_le; [|exact Hs]. simpl. lia.
Qed.

Lemma hdr_len_frame n : is_u32 n -> hdr_len (frame_hdr n) = n.
Proof.
  intros Hn. unfold hdr_len, be32_at, frame_hdr. simpl.
  rewrite be32_sum by apply u8_w. unfold u8, is_w in *. rewrite !Z.shiftr_div_pow2 by lia.
  Z.div_mod_to_equations. lia.
Qed.

Lemma frame_hdr_len hdr : length hdr = 4%nat -> Forall is_u8 hdr ->
  frame_hdr (hdr_len hdr) = hdr /\ is_u32 (hdr_len hdr).
Proof.
  destruct hdr as [|a [|b [|c [|d []]]]]; try done. rewrite !Forall_cons. intros _ (Ha & Hb & Hc & Hd & _).
  unfold hdr_len, be32_at. cbn [nth Nat.add]. rewrite be32_sum by done. unfold is_w in *.
  split; [|lia]. unfold frame_hdr, u8. rewrite !Z.shiftr_div_pow2 by lia.
  repeat f_equal; Z.div_mod_to_equations; lia.
Qed.

(** A frame goes out whole, and comes in whole, with progress left over. *)
Lemma frame_sent ws m msg : 1 <= Z.of_nat (length msg) <= PW_IPC_FRAME_MAX -> serves (m + (4 + length msg)) ws ->
  exists ws', pw_ipc_write_frame ws msg = (frame_hdr (Z.of_nat (length msg)) ++ msg, ws', Done (Ok tt)) /\ serves m ws'.
Proof.
  intros Hlen Hw. set (n := Z.of_nat (length msg)) in *.
  destruct (write_all_serves ws (m + length msg) (frame_hdr n)) as (ws1 & Hw1 & Hs1).
  { eapply serves_le; [|exact Hw]. simpl. lia. }
  destruct (write_all_serves ws1 m msg) as (ws2 & Hw2 & Hs2); [done|].
  exists ws2. split; [|done]. unfold pw_ipc_write_frame. fold n.
  replace ((n =? 0) || (PW_IPC_FRAME_MAX <? n)) with false by (symmetry; apply orb_false_iff; split; lia).
  by rewrite Hw1, Hw2.
Qed.

Lemma frame_got rs m msg rest buflen : 1 <= Z.of_nat (length msg) <= PW_IPC_FRAME_MAX ->
  Z.of_nat (length msg) <= buflen -> serves (m + (4 + length msg)) rs ->
  exists rs', pw_ipc_read_frame rs ((frame_hdr (Z.of_nat (length msg)) ++ msg) ++ rest) buflen =
    (rest, rs', Done (Ok msg)) /\ serves m rs'.
Proof.
  intros Hlen Hbuf Hr. set (n := Z.of_nat (length msg)) in *.
  destruct (read_all_serves rs (m + length msg) (frame_hdr n) (msg ++ rest)) as (rs1 & Hr1 & Hs1).
  { eapply serves_le; [|exact Hr]. simpl. lia. }
  destruct (read_all_serves rs1 m msg rest) as (rs2 & Hr2 & Hs2); [done|].
  exists rs2. split; [|done]. unfold pw_ipc_read_frame.
  rewrite <- app_assoc. change 4%nat with (length (frame_hdr n)).
  rewrite Hr1, hdr_len_frame by (unfold is_w, PW_IPC_FRAME_MAX in *; lia).
  replace (n =? 0) with false by lia. replace (buflen <? n) with false by lia.
  replace (PW_IPC_FRAME_MAX <? n) with false by lia. cbn [orb]. unfold n at 1.
  by rewrite Nat2Z.id, Hr2.
Qed.

(** A message of 1 to 65536 bytes written as a frame and read back from the
    socket arrives intact whatever the fragmentation and the interruptions on
    either side, as long as both sides keep moving bytes and neither fails; both
    calls succeed, and the reader leaves what follows the frame in the stream. *)
Theorem ipc_frame_roundtrip (ws rs : list io_answer) (msg rest : list Z) (buflen : Z)
    (Hlen : 1 <= Z.of_nat (length msg) <= PW_IPC_FRAME_MAX) (Hbuf : Z.of_nat (length msg) <= buflen)
    (Hw : serves (4 + length msg) ws) (Hr : serves (4 + length msg) rs) :
  exists ws' rs' frame,
    pw_ipc_write_frame ws msg = (frame, ws', Done (Ok tt)) /\
    pw_ipc_read_frame rs (frame ++ rest) buflen = (rest, rs', Done (Ok msg)).
Proof.
  destruct (frame_sent ws 0 msg Hlen Hw) as (ws' & Hs & _).
  destruct (frame_got rs 0 msg rest buflen Hlen Hbuf Hr) as (rs' & Hg & _).
  by exists ws', rs', (frame_hdr (Z.of_nat (length msg)) ++ msg).
Qed.

Lemma ipc_frame_roundtrip_witness : exists ws' rs' frame,
  pw_ipc_write_frame [Xfer 3; Intr; Xfer 1; Xfer 5; Xfer 1; Xfer 1; Xfer 1; Xfer 2] [7; 8; 9] = (frame, ws', Done (Ok tt)) /\
  pw_ipc_read_frame [Xfer 1; Xfer 9; Intr; Xfer 1; Xfer 1; Xfer 1; Xfer 1; Xfer 1] (frame ++ [1]) 64
    = ([1], rs', Done (Ok [7; 8; 9])).
Proof.
  apply ipc_frame_roundtrip; [by vm_compute|by vm_compute| |];
    (split; [rewrite !elem_of_cons, elem_of_nil; intuition discriminate|apply (bool_decide_unpack _); vm_compute; exact I]).
Defined.

(** ** What a peer can make the reader do *)

Lemma read_all_inv ks : forall s left s' ks' bs,
  read_all ks s left = (s', ks', Done bs) -> s = bs ++ s' /\ length bs = left.
Proof.
  induction ks as [|a ks IH]; intros s [|left] s' ks' bs; cbn [read_all]; try (by intros [= <- <- <-]); try done.
  destruct a as [k| |]; [|by apply IH|done].
  set (n := Nat.min _ (length s)). destruct (Nat.eqb_spec n 0); [done|].
  destruct (read_all ks (drop n s) (S left - n)) as [[s1 ks1] o] eqn:Hr. intros [= -> -> Ho].
  destruct o as [bs1| |]; simplify_eq/=. apply IH in Hr as [Hd Hl]. rewrite length_app, length_take.
  split; [|lia]. by rewrite <- app_assoc, <- Hd, take_drop.
Qed.

(** Whatever the peer sends, a frame the reader accepts is the stream's own
    prefix: a length in range followed by that many bytes, never more than the
    caller's buffer holds; the rest of the stream is untouched. *)
Lemma ipc_read_sound ks s buflen s' ks' body : Forall is_u8 s ->
  pw_ipc_read_frame ks s buflen = (s', ks', Done (Ok body)) ->
  s = frame_hdr (Z.of_nat (length body)) ++ body ++ s' /\
  1 <= Z.of_nat (length body) <= Z.min buflen PW_IPC_FRAME_MAX.
Proof.
  intros Hs. unfold pw_ipc_read_frame.
  destruct (read_all ks s 4) as [[s1 ks1] [hdr| |]] eqn:H1; try done.
  apply read_all_inv in H1 as [-> H4]. destruct (_ || _) eqn:Hc; [done|].
  destruct (read_all ks1 s1 _) as [[s2 ks2] [bs| |]] eqn:H2; try done. intros [= <- <- <-].
  apply read_all_inv in H2 as [-> Hb]. apply orb_false_iff in Hc as [[H0 Hl]%orb_false_iff Hm].
  apply Forall_app in Hs as [Hhdr _]. destruct (frame_hdr_len hdr H4 Hhdr) as [Hf Hw]. unfold is_w in Hw.
  rewrite Hb, Z2Nat.id by lia. rewrite Hf. split; [done|]. unfold PW_IPC_FRAME_MAX in *. lia.
Qed.

(** ** The socket file *)

Lemma mkdir_prefixes_only rest : forall pre c, c ∈ mkdir_prefixes pre rest -> exists d, c = Mkdir d 0x1ED.
Proof.
  induction rest as [|a rest IH]; simpl; intros pre c; [by rewrite elem_of_nil|].
  rewrite elem_of_app. intros [H|H]; [|by eapply IH]. case_bool_decide; [|by apply elem_of_nil in H].
  apply list_elem_of_singleton in H. eauto.
Qed.

Lemma parent_dirs_only path c : c ∈ ensure_parent_dir path -> exists d, c = Mkdir d 0x1ED.
Proof.
  unfold ensure_parent_dir. destruct (_ || _); [by rewrite elem_of_nil|].
  destruct (dirname path) as [[|a rest]|]; try by rewrite elem_of_nil.
  rewrite elem_of_app, list_elem_of_singleton. intros [H|H]; [by eapply mkdir_prefixes_only|eauto].
Qed.

(** Nothing happens for a path that does not fit; a file that is not a socket is
    neither removed nor bound over; the only file ever removed is at the path
    itself, and only a stale socket or the one just bound; the caller gets a
    socket exactly when every step succeeded. *)
Lemma ipc_listen_safe env path mode trace r : pw_ipc_listen env path mode = (trace, r) ->
  ((SUN_PATH <= String.length path)%nat -> trace = [] /\ r = Err PW_E_OUT_OF_RANGE) /\
  (le_lstat env = Some false -> forall p, (Unlink p ∉ trace) /\ (Bind p ∉ trace)) /\
  (forall p, Unlink p ∈ trace -> p = path /\ (le_lstat env = Some true \/ le_bind env = true)) /\
  (r = Ok tt <-> (String.length path < SUN_PATH)%nat /\ le_lstat env <> Some false /\
     le_socket env = true /\ le_bind env = true /\ le_listen env = true /\ le_chmod env = true).
Proof.
  assert (Hp : forall c, c ∈ ensure_parent_dir path -> forall p, c <> Unlink p /\ c <> Bind p).
  { intros c [d ->]%parent_dirs_only p. done. }
  unfold pw_ipc_listen, fill_sockaddr_un. destruct (Nat.leb_spec SUN_PATH (String.length path)).
  { intros [= <- <-]. split; [done|]. split; [intros _ p; split; apply not_elem_of_nil|].
    split; [by intros p ?%not_elem_of_nil|]. split; [done|lia]. }
  assert (Hu : forall p, Unlink p ∉ ensure_parent_dir path) by (intros p Hc; by destruct (Hp _ Hc p)).
  assert (Hb : forall p, Bind p ∉ ensure_parent_dir path) by (intros p Hc; by destruct (Hp _ Hc p)).
  destruct (le_lstat env) as [[]|] eqn:Hl, (le_socket env) eqn:?, (le_bind env) eqn:?, (le_listen env) eqn:?,
    (le_chmod env) eqn:?; cbn [negb bool_decide decide]; repeat case_bool_decide; try done;
    intros [= <- <-]; (split; [lia|]); (split; [intros Hn p; try done|]);
    try (split; intros [Hq|Hq]%elem_of_app; [by eapply Hu| |by eapply Hb|]; revert Hq;
         rewrite !elem_of_cons, elem_of_nil; naive_solver);
    (split; [intros p; rewrite !elem_of_app, !elem_of_cons, !elem_of_nil; naive_solver|naive_solver]).
Qed.
