(* ===== verification/Backend.v ===== *)
(** * The card-backend interface

    Models [sw/libpacketwyrm/include/packetwyrm/backend.h]: the statistics and
    identity structs, and [struct pw_card_backend_ops] as a record of optional
    operations ([None] is a NULL pointer) over a context type. Each operation
    maps a context to the new context and its result. Two type classes state
    what callers rely on: a backend that keeps 32-bit registers ([CsrFile]) and
    one that stages and commits flow rows ([FlowStore]). *)

From S2P Require Import Prelude Types Csr.

Record pw_card_info := {
  ci_device_id : Z;
  ci_version : Z;
  ci_build_id : Z;
  ci_git_hash : Z;
  ci_capabilities : Z;
  ci_num_local_ports : Z;
  ci_num_local_flows : Z;
  ci_num_logical_interfaces : Z;
  ci_num_classifier_entries : Z
}.

Record pw_port_stats := {
  ps_rx_frames : Z;
  ps_rx_bytes : Z;
  ps_rx_fcs_error : Z;
  ps_rx_bad_frame : Z;
  ps_rx_oversize : Z;
  ps_rx_undersize : Z;
  ps_tx_frames : Z;
  ps_tx_bytes : Z;
  ps_link_up_count : Z;
  ps_link_down_count : Z;
  ps_block_lock_loss : Z;
  ps_rx_unmatched : Z;
  ps_last_unmatched_ctx : Z;
  ps_last_unmatched_flowid : Z
}.

Record pw_flow_stats := {
  fs_tx_frames : Z;
  fs_tx_bytes : Z;
  fs_rx_frames : Z;
  fs_rx_bytes : Z;
  fs_last_sequence : Z;
  fs_sequence_gap_count : Z;
  fs_lost_packets_estimated : Z;
  fs_duplicate_count : Z;
  fs_out_of_order_count : Z;
  fs_late_packet_count : Z;
  fs_min_latency : Z;
  fs_max_latency : Z;
  fs_sum_latency : Z;
  fs_sample_count : Z;
  fs_jitter_min : Z;
  fs_jitter_max : Z;
  fs_jitter_sum : Z
}.

Definition zero_card_info : pw_card_info :=
  {| ci_device_id := 0; ci_version := 0; ci_build_id := 0; ci_git_hash := 0;
     ci_capabilities := 0; ci_num_local_ports := 0; ci_num_local_flows := 0;
     ci_num_logical_interfaces := 0; ci_num_classifier_entries := 0 |}.

Definition zero_port_stats : pw_port_stats :=
  {| ps_rx_frames := 0; ps_rx_bytes := 0; ps_rx_fcs_error := 0; ps_rx_bad_frame := 0;
     ps_rx_oversize := 0; ps_rx_undersize := 0; ps_tx_frames := 0; ps_tx_bytes := 0;
     ps_link_up_count := 0; ps_link_down_count := 0; ps_block_lock_loss := 0;
     ps_rx_unmatched := 0; ps_last_unmatched_ctx := 0; ps_last_unmatched_flowid := 0 |}.

Definition zero_flow_stats : pw_flow_stats :=
  {| fs_tx_frames := 0; fs_tx_bytes := 0; fs_rx_frames := 0; fs_rx_bytes := 0;
     fs_last_sequence := 0; fs_sequence_gap_count := 0; fs_lost_packets_estimated := 0;
     fs_duplicate_count := 0; fs_out_of_order_count := 0; fs_late_packet_count := 0;
     fs_min_latency := 0; fs_max_latency := 0; fs_sum_latency := 0; fs_sample_count := 0;
     fs_jitter_min := 0; fs_jitter_max := 0; fs_jitter_sum := 0 |}.

(** What [slow_path_rx] hands back for a frame. *)
Record rx_frame := {
  rxf_bytes : list Z;
  rxf_lif : Z;
  rxf_ts : Z
}.

Record pw_card_backend_ops (C : Type) := {
  op_read32 : option (Z -> C -> C * (pw_status * Z));
  op_write32 : option (Z -> Z -> C -> C * pw_status);
  op_card_info : option (C -> C * (pw_status * pw_card_info));
  op_flow_write : option (Z -> pwfpga_flow_config -> C -> C * pw_status);
  op_flow_commit : option (C -> C * pw_status);
  op_stats_snapshot : option (C -> C * pw_status);
  op_port_stats_read : option (Z -> C -> C * M pw_port_stats);
  op_flow_stats_read : option (Z -> C -> C * M pw_flow_stats);
  op_flow_hist_read : option (Z -> nat -> C -> C * M (list Z));
  op_slow_path_rx : option (nat -> C -> C * M (option rx_frame));
  op_slow_path_tx : option (list Z -> Z -> Z -> C -> C * pw_status)
}.
Arguments op_read32 {C}.
Arguments op_write32 {C}.
Arguments op_card_info {C}.
Arguments op_flow_write {C}.
Arguments op_flow_commit {C}.
Arguments op_stats_snapshot {C}.
Arguments op_port_stats_read {C}.
Arguments op_flow_stats_read {C}.
Arguments op_flow_hist_read {C}.
Arguments op_slow_path_rx {C}.
Arguments op_slow_path_tx {C}.

(** ** What callers rely on *)

(** A word of the table windows: the flow-id map, or between the field
    classifier and the flow table. *)
Definition csr_off_ok (off : Z) : Prop :=
  (PWFPGA_WIN_FLOWID_MAP <= off < PWFPGA_WIN_FLOWID_MAP + 4 * PWFPGA_FLOWID_MAP_DEPTH \/
   PWFPGA_WIN_FC_CMP <= off < PWFPGA_WIN_FLOW_TABLE) /\ off mod 4 = 0.

(** [write32] stores table words: [csr_reg] is the word the card holds, and
    [csr_ok] says the card is in order. *)
Class CsrFile {C : Type} (ops : pw_card_backend_ops C) := {
  csr_ok : C -> Prop;
  csr_reg : C -> Z -> Z;
  csr_write : Z -> Z -> C -> C * pw_status;
  csr_write_op : op_write32 ops = Some csr_write;
  csr_write_law : forall off v c, csr_ok c -> csr_off_ok off ->
    (csr_write off v c).2 = PW_OK /\ csr_ok (csr_write off v c).1 /\
    forall o, csr_off_ok o -> csr_reg (csr_write off v c).1 o = if o =? off then v else csr_reg c o
}.

(** [flow_write] stages the bytes of a row, [flow_commit] promotes the staged
    rows. *)
Class FlowStore {C : Type} (ops : pw_card_backend_ops C) := {
  fl_ok : C -> Prop;
  fl_staged : C -> Z -> list Z;
  fl_live : C -> Z -> list Z;
  fl_write : Z -> pwfpga_flow_config -> C -> C * pw_status;
  fl_commit : C -> C * pw_status;
  fl_write_op : op_flow_write ops = Some fl_write;
  fl_commit_op : op_flow_commit ops = Some fl_commit;
  fl_write_law : forall r f c, fl_ok c -> 0 <= r < PWFPGA_FLOW_TABLE_ROWS ->
    (fl_write r f c).2 = PW_OK /\ fl_ok (fl_write r f c).1 /\
    forall i, 0 <= i < PWFPGA_FLOW_TABLE_ROWS ->
      fl_staged (fl_write r f c).1 i = if i =? r then flow_config_bytes f else fl_staged c i;
  fl_commit_law : forall c, fl_ok c ->
    (fl_commit c).2 = PW_OK /\ fl_ok (fl_commit c).1 /\
    forall i, 0 <= i < PWFPGA_FLOW_TABLE_ROWS -> fl_live (fl_commit c).1 i = fl_staged c i
}.

(** Both, on disjoint parts of the card. *)
Class CardTables {C : Type} (ops : pw_card_backend_ops C) := {
  ct_csr :: CsrFile ops;
  ct_flow :: FlowStore ops;
  ct_info : forall ci c, op_card_info ops = Some ci -> csr_ok c -> fl_ok c -> (ci c).1 = c;
  ct_write_frame : forall off v c, csr_ok c -> fl_ok c -> csr_off_ok off ->
    fl_ok (csr_write off v c).1 /\
    forall i, 0 <= i < PWFPGA_FLOW_TABLE_ROWS -> fl_live (csr_write off v c).1 i = fl_live c i;
  ct_flow_frame : forall r f c, csr_ok c -> fl_ok c -> 0 <= r < PWFPGA_FLOW_TABLE_ROWS ->
    csr_ok (fl_write r f c).1;
  ct_commit_frame : forall c, csr_ok c -> fl_ok c -> csr_ok (fl_commit c).1
}.
