(* ===== verification/Programming.v ===== *)
(** * Programming a card

    Models [sw/libpacketwyrm/src/programming.c]: a compiled card program is
    checked against the CSR-window capacities, then its rows, flow-id map,
    classifier and hash tables are written through the backend's operations, and
    every slot the program does not use is invalidated. The theorems are proved
    against the backend interface of [Backend]. *)

From S2P Require Import Prelude Types Config Csr FlowCompiler Backend.

Section Program.
Context {C : Type} (ops : pw_card_backend_ops C).

(** [CHK]: run an operation, keep the first hard failure; a missing window
    ([PW_E_NOT_IMPLEMENTED]) is soft. *)
Definition chk (call : C -> C * pw_status) (s : C * pw_status) : C * pw_status :=
  let '(c, worst) := s in
  let '(c', r) := call c in
  (c', if bool_decide (r <> PW_OK) && bool_decide (r <> PW_E_NOT_IMPLEMENTED) &&
          bool_decide (worst = PW_OK)
       then r else worst).

Definition chk_all (calls : list (C -> C * pw_status)) (s : C * pw_status) : C * pw_status :=
  fold_left (fun s call => chk call s) calls s.

(** The capacity checks made before any write. *)
Definition program_fits (cp : pw_card_program) : bool :=
  (n_rows cp <=? PWFPGA_FLOW_TABLE_ROWS) &&
  (Z.of_nat (length (cp_fc_cmps cp)) <=? PWFPGA_NUM_CMP) &&
  (Z.of_nat (length (cp_fc_udfs cp)) <=? PWFPGA_NUM_UDF) &&
  (Z.of_nat (length (cp_fc_rules cp)) <=? PWFPGA_NUM_RULE) &&
  (Z.of_nat (length (cp_hash_entries cp)) <=? PWFPGA_HASH_DEPTH) &&
  forallb (fun e => me_flow_id e <? PWFPGA_FLOWID_MAP_DEPTH) (cp_map_entries cp) &&
  forallb (fun e => he_index e <? PWFPGA_HASH_DEPTH) (cp_hash_entries cp).

(** Flow rows up to the card's capacity: configured ones, then zeroed ones. *)
Definition flow_row_count (cp : pw_card_program) (info : option pw_card_info) : Z :=
  let nflows := n_rows cp in
  let nflows := match info with
                | Some i => if nflows <? ci_num_local_flows i then ci_num_local_flows i else nflows
                | None => nflows
                end in
  if PWFPGA_FLOW_TABLE_ROWS <? nflows then PWFPGA_FLOW_TABLE_ROWS else nflows.

Definition row_image (cp : pw_card_program) (r : Z) : pwfpga_flow_config :=
  if r <? n_rows cp then default zero_flow_config (cp_flow_rows cp !! Z.to_nat r)
  else zero_flow_config.

(** ** The register writes, in order *)

Definition map_writes (cp : pw_card_program) : list (Z * Z) :=
  ((fun i => (PWFPGA_WIN_FLOWID_MAP + i * 4, 0)) <$> seqZ 0 PWFPGA_FLOWID_MAP_DEPTH) ++
  ((fun e => (PWFPGA_WIN_FLOWID_MAP + me_flow_id e * 4,
              PWFPGA_FLOWID_MAP_VALID ||| me_local_flow_id e)) <$> cp_map_entries cp).

Definition cmp_writes (cp : pw_card_program) : list (Z * Z) :=
  seqZ 0 (Z.of_nat (length (cp_fc_cmps cp))) ≫= fun i =>
    match cp_fc_cmps cp !! Z.to_nat i with
    | Some c =>
        [(PWFPGA_FC_CMP_SRC PWFPGA_WIN_FC_CMP i, fc_src_code (cmp_src c));
         (PWFPGA_FC_CMP_MASK PWFPGA_WIN_FC_CMP i, cmp_mask c);
         (PWFPGA_FC_CMP_VALUE PWFPGA_WIN_FC_CMP i, cmp_value c)]
    | None => []
    end.

Definition udf_writes (cp : pw_card_program) : list (Z * Z) :=
  seqZ 0 (Z.of_nat (length (cp_fc_udfs cp))) ≫= fun i =>
    match cp_fc_udfs cp !! Z.to_nat i with
    | Some u =>
        [(PWFPGA_FC_UDF_OFFSET PWFPGA_WIN_FC_UDF i, udf_offset u);
         (PWFPGA_FC_UDF_MASK PWFPGA_WIN_FC_UDF i, udf_mask u);
         (PWFPGA_FC_UDF_VALUE PWFPGA_WIN_FC_UDF i, udf_value u)]
    | None => []
    end.

Definition rule_writes (cp : pw_card_program) : list (Z * Z) :=
  seqZ 0 PWFPGA_NUM_RULE ≫= fun i =>
    match cp_fc_rules cp !! Z.to_nat i with
    | Some rl =>
        [(PWFPGA_FC_RULE_WORD0 PWFPGA_WIN_FC_RULE i,
          PWFPGA_FC_RULE_W0 (rl_care rl) (action_code (rl_action rl)) (rl_egress rl)
            (rl_priority rl) true);
         (PWFPGA_FC_RULE_LFID PWFPGA_WIN_FC_RULE i, rl_local_flow_id rl);
         (PWFPGA_FC_RULE_LIF PWFPGA_WIN_FC_RULE i, rl_logical_if_id rl)]
    | None => [(PWFPGA_FC_RULE_WORD0 PWFPGA_WIN_FC_RULE i, PWFPGA_FC_RULE_W0 0 0 0 0 false)]
    end.

Definition hash_entry_writes (e : pw_fc_hash_entry) : list (Z * Z) :=
  ((fun w => (PWFPGA_HASH_KEY_WORD PWFPGA_WIN_FC_HASH (he_index e) (Z.of_nat w),
              nth w (he_key_word e) 0)) <$> seq 0 PWFPGA_HASH_KEY_WORDS) ++
  [(PWFPGA_HASH_CTRL PWFPGA_WIN_FC_HASH (he_index e),
    PWFPGA_HASH_CTRL_VALID ||| he_local_flow_id e)].

Definition hash_param_writes (cp : pw_card_program) : list (Z * Z) :=
  ((fun w => (PWFPGA_HASH_MASK_WORD PWFPGA_WIN_HASH_MASK (Z.of_nat w),
              nth w (cp_hash_mask cp) 0)) <$> seq 0 PWFPGA_HASH_KEY_WORDS) ++
  [(PWFPGA_REG_HASH_SEED, cp_hash_seed cp)].

Definition hash_writes (cp : pw_card_program) : list (Z * Z) :=
  ((fun b => (PWFPGA_HASH_CTRL PWFPGA_WIN_FC_HASH b, 0)) <$> seqZ 0 PWFPGA_HASH_DEPTH) ++
  match cp_hash_entries cp with
  | [] => []
  | es => hash_param_writes cp ++ (es ≫= hash_entry_writes)
  end.

Definition table_writes (cp : pw_card_program) : list (Z * Z) :=
  map_writes cp ++ cmp_writes cp ++ udf_writes cp ++ rule_writes cp ++ hash_writes cp.

(** ** The handler *)

Definition capacity_err (cp : pw_card_program) (info : pw_card_info) : err :=
  fail_diag PW_E_NO_RESOURCES ("card" +:+ str_Z (cp_card_id cp))%string
    (str_Z (n_rows cp) +:+ " flow rows requested but device supports " +:+
     str_Z (ci_num_local_flows info) +:+
     " (num_local_flows); reduce measured flows or mark some background")%string.

Definition needs_write32 (cp : pw_card_program) : bool :=
  negb (bool_decide (cp_map_entries cp = [] /\ cp_fc_cmps cp = [] /\ cp_fc_udfs cp = [] /\
                     length (cp_fc_rules cp) = 0%nat /\ length (cp_hash_entries cp) = 0%nat)).

(** [have_info]: the card's identity, when the backend can tell it. *)
Definition probe_info (c : C) : C * option pw_card_info :=
  match op_card_info ops with
  | Some ci => let '(c', (s, i)) := ci c in (c', if decide (s = PW_OK) then Some i else None)
  | None => (c, None)
  end.

Definition over_capacity (cp : pw_card_program) (i : pw_card_info) : bool :=
  negb (ci_num_local_flows i =? 0) && (ci_num_local_flows i <? n_rows cp).

(** The status before the first write: an operation the program needs is missing. *)
Definition missing_ops (cp : pw_card_program) : pw_status :=
  if (0 <? n_rows cp) &&
     (bool_decide (op_flow_write ops = None) || bool_decide (op_flow_commit ops = None))
  then PW_E_NOT_IMPLEMENTED
  else if bool_decide (op_write32 ops = None) && needs_write32 cp then PW_E_NOT_IMPLEMENTED
  else PW_OK.

Definition row_calls (cp : pw_card_program) (info : option pw_card_info)
    : list (C -> C * pw_status) :=
  match op_flow_write ops with
  | Some fw => (fun r => fw r (row_image cp r)) <$> seqZ 0 (flow_row_count cp info)
  | None => []
  end.

Definition commit_calls : list (C -> C * pw_status) :=
  match op_flow_commit ops with Some fc => [fc] | None => [] end.

Definition table_calls (cp : pw_card_program) : list (C -> C * pw_status) :=
  match op_write32 ops with
  | Some w => (fun ov => w ov.1 ov.2) <$> table_writes cp
  | None => []
  end.

(** The writing part: rows, commit, then the register tables. *)
Definition run_calls (cp : pw_card_program) (info : option pw_card_info) (c : C) : C * M unit :=
  let s := chk_all (row_calls cp info) (c, missing_ops cp) in
  let s := chk_all commit_calls s in
  let '(c, worst) := chk_all (table_calls cp) s in
  (c, if decide (worst = PW_OK) then Ok tt else Err (fail_bare worst)).

Definition pw_program_card_tables_diag (cp : pw_card_program) (c : C) : C * M unit :=
  if negb (program_fits cp) then (c, Err (fail_bare PW_E_INVAL)) else
  let '(c, info) := probe_info c in
  match info with
  | Some i =>
      if over_capacity cp i then (c, Err (capacity_err cp i)) else run_calls cp info c
  | None => run_calls cp info c
  end.

(** The back-compatible entry point drops the diagnostic. *)
Definition pw_program_card_tables (cp : pw_card_program) (c : C) : C * pw_status :=
  let '(c, r) := pw_program_card_tables_diag cp c in (c, status_of r).
End Program.
