(* ===== verification/ProgrammingProps.v ===== *)
(** * What programming a card does

    Theorems about [Programming]: which faults are reported, that every register
    write stays inside its own window, that on a backend keeping the
    [CardTables] promises the registers and live rows after programming are
    fully determined by the program, and that a compiled program is always
    accepted. *)

From S2P Require Import Prelude Types Config Validate Csr FlowCompiler Samples CompilerInv.
From S2P Require Import FieldClassifier CompilerFlows HashPlacement CompilerProps Backend Programming.

(** ** Running calls *)

Section Calls.
Context {C : Type}.

(** A status that [CHK] keeps. *)
Definition hard (s : pw_status) : Prop := s <> PW_OK /\ s <> PW_E_NOT_IMPLEMENTED.
#[global] Instance hard_dec s : Decision (hard s).
Proof. unfold hard. apply _. Defined.

(** The calls in order, all of them, with the statuses they return. *)
Fixpoint run_all (calls : list (C -> C * pw_status)) (c : C) : C * list pw_status :=
  match calls with
  | [] => (c, [])
  | f :: fs => let '(c1, s) := f c in let '(c2, ss) := run_all fs c1 in (c2, s :: ss)
  end.

(** The first failure counts. *)
Definition worst_of (w : pw_status) (ss : list pw_status) : pw_status :=
  if decide (w = PW_OK) then default PW_OK (head (filter hard ss)) else w.

Lemma chk_all_run calls : forall c w,
  chk_all calls (c, w) = ((run_all calls c).1, worst_of w (run_all calls c).2).
Proof.
  induction calls as [|f fs IH]; intros c w.
  - simpl. unfold worst_of. by destruct (decide (w = PW_OK)) as [->|].
  - simpl. destruct (f c) as [c1 s]. rewrite IH. destruct (run_all fs c1) as [c2 ss]. simpl.
    f_equal. unfold worst_of. rewrite filter_cons.
    destruct w, s; reflexivity.
Qed.

Lemma worst_of_app w ss ss' : worst_of (worst_of w ss) ss' = worst_of w (ss ++ ss').
Proof.
  unfold worst_of. rewrite filter_app. destruct (filter hard ss) as [|s l] eqn:E; simpl.
  - repeat case_decide; naive_solver.
  - assert (hard s) as [Hs _] by (eapply list_elem_of_filter; rewrite E; left).
    repeat case_decide; naive_solver.
Qed.

Lemma run_all_app l l' c :
  run_all (l ++ l') c =
  ((run_all l' (run_all l c).1).1, (run_all l c).2 ++ (run_all l' (run_all l c).1).2).
Proof.
  revert c. induction l as [|f l IH]; intros c; simpl.
  - by destruct (run_all l' c).
  - destruct (f c) as [c1 s]. rewrite IH. destruct (run_all l c1) as [c2 ss]. simpl.
    by destruct (run_all l' c2).
Qed.

Lemma worst_of_ok ss : Forall (fun s => s = PW_OK) ss -> worst_of PW_OK ss = PW_OK.
Proof.
  intros H. unfold worst_of. rewrite decide_True by done.
  destruct (filter hard ss) as [|s l] eqn:E; [done|exfalso].
  assert (s ∈ filter hard ss) as Hs by (rewrite E; left).
  apply list_elem_of_filter in Hs as [[Hh _] Hi].
  rewrite Forall_forall in H. by specialize (H s Hi).
Qed.

Context (ops : pw_card_backend_ops C).

(** Every call of the handler, in order. *)
Definition all_calls (cp : pw_card_program) (info : option pw_card_info) :=
  row_calls ops cp info ++ commit_calls ops ++ table_calls ops cp.

Lemma run_calls_run cp info c :
  run_calls ops cp info c =
  let '(c', ss) := run_all (all_calls cp info) c in
  let w := worst_of (missing_ops ops cp) ss in
  (c', if decide (w = PW_OK) then Ok tt else Err (fail_bare w)).
Proof.
  unfold run_calls, all_calls. rewrite !run_all_app. simpl.
  rewrite chk_all_run, chk_all_run, chk_all_run. simpl.
  by rewrite !worst_of_app.
Qed.
End Calls.

(** ** Register writes *)

(** Elements with distinct keys are determined by their key. *)
Lemma NoDup_fmap_elem {A B} (f : A -> B) l x y :
  NoDup (f <$> l) -> x ∈ l -> y ∈ l -> f x = f y -> x = y.
Proof.
  rewrite NoDup_alt. intros H [i Hi]%list_elem_of_lookup [j Hj]%list_elem_of_lookup He.
  assert (i = j) as ->; [|congruence].
  apply (H i j (f x)); rewrite list_lookup_fmap; [by rewrite Hi|by rewrite Hj, He].
Qed.

(** The value a register holding [d] has after the writes [ws]. *)
Definition wr (ws : list (Z * Z)) (o d : Z) : Z :=
  fold_left (fun acc w => if o =? w.1 then w.2 else acc) ws d.

Lemma wr_app ws ws' o d : wr (ws ++ ws') o d = wr ws' o (wr ws o d).
Proof. apply fold_left_app. Qed.

Lemma wr_cases ws o : forall d,
  (o, wr ws o d) ∈ ws \/ ((forall w, w ∈ ws -> w.1 <> o) /\ wr ws o d = d).
Proof.
  induction ws as [|[o' v] ws IH]; intros d.
  - right. split; [|done]. intros w Hw. by apply not_elem_of_nil in Hw.
  - change (wr ((o', v) :: ws) o d) with (wr ws o (if o =? o' then v else d)).
    destruct (IH (if o =? o' then v else d)) as [H|[H ->]]; [left; by right|].
    destruct (Z.eqb_spec o o') as [->|Hne]; [left; by left|].
    right. split; [|done]. intros w [->|Hw]%elem_of_cons; [by simpl|by apply H].
Qed.

Lemma wr_const ws o v d : (o, v) ∈ ws -> (forall w, w ∈ ws -> w.1 = o -> w.2 = v) ->
  wr ws o d = v.
Proof.
  intros Hin Hv. destruct (wr_cases ws o d) as [H|[H _]].
  - by apply Hv in H.
  - by apply H in Hin.
Qed.

Lemma wr_skip ws o d : (forall w, w ∈ ws -> w.1 <> o) -> wr ws o d = d.
Proof. intros H. destruct (wr_cases ws o d) as [Hw|[_ ?]]; [by apply H in Hw|done]. Qed.

(** All the writes go to aligned offsets of the window [lo, hi). *)
Definition in_window (lo hi : Z) (ws : list (Z * Z)) : Prop :=
  forall w, w ∈ ws -> lo <= w.1 < hi /\ w.1 mod 4 = 0.

Lemma wr_window lo hi ws o d : in_window lo hi ws -> ~ (lo <= o < hi) -> wr ws o d = d.
Proof. intros Hw Ho. apply wr_skip. intros w Hi <-. by apply Ho, Hw. Qed.

(** ** The windows of each table *)

(** What the C types of a program give: unsigned ids and indices. *)
Record typed_program (cp : pw_card_program) : Prop := {
  tp_map : forall e, e ∈ cp_map_entries cp -> 0 <= me_flow_id e;
  tp_hash : forall e, e ∈ cp_hash_entries cp -> 0 <= he_index e
}.

Lemma program_fits_spec cp : program_fits cp = true ->
  n_rows cp <= 64 /\ (length (cp_fc_cmps cp) <= 12)%nat /\ (length (cp_fc_udfs cp) <= 2)%nat /\
  (length (cp_fc_rules cp) <= 32)%nat /\
  (forall e, e ∈ cp_map_entries cp -> me_flow_id e < 256) /\
  (forall e, e ∈ cp_hash_entries cp -> he_index e < 128).
Proof.
  unfold program_fits. rewrite !andb_true_iff, !Z.leb_le, !forallb_forall.
  intros ((((((H1 & H2) & H3) & H4) & H5) & H6) & H7).
  change PWFPGA_FLOW_TABLE_ROWS with 64 in H1.
  unfold PWFPGA_NUM_CMP, PWFPGA_NUM_UDF, PWFPGA_NUM_RULE in *.
  repeat split; try lia; intros e He; apply list_elem_of_In in He.
  - by apply Z.ltb_lt, H6.
  - by apply Z.ltb_lt, H7.
Qed.

(** Unfold the register offsets. *)
Ltac offsets := unfold PWFPGA_FC_CMP_SRC, PWFPGA_FC_CMP_MASK, PWFPGA_FC_CMP_VALUE,
  PWFPGA_FC_UDF_OFFSET, PWFPGA_FC_UDF_MASK, PWFPGA_FC_UDF_VALUE, PWFPGA_FC_RULE_WORD0,
  PWFPGA_FC_RULE_LFID, PWFPGA_FC_RULE_LIF, PWFPGA_HASH_MASK_WORD, PWFPGA_HASH_KEY_WORD,
  PWFPGA_HASH_CTRL, PWFPGA_REG_HASH_SEED, PWFPGA_WIN_FLOWID_MAP, PWFPGA_WIN_FC_CMP,
  PWFPGA_WIN_FC_UDF, PWFPGA_WIN_FC_RULE, PWFPGA_WIN_HASH_MASK, PWFPGA_WIN_FC_HASH,
  PWFPGA_WIN_FLOW_TABLE, PWFPGA_FLOWID_MAP_DEPTH, PWFPGA_NUM_CMP, PWFPGA_NUM_UDF,
  PWFPGA_NUM_RULE, PWFPGA_HASH_DEPTH, PWFPGA_HASH_KEY_WORDS in *.

(** Split a membership in a list of writes into its cases. *)
Ltac split_in H :=
  lazymatch type of H with
  | _ ∈ _ ++ _ => apply elem_of_app in H as [H|H]; split_in H
  | _ ∈ [] => by apply not_elem_of_nil in H
  | _ ∈ _ :: _ => apply elem_of_cons in H as [H|H]; [try subst|split_in H]
  | _ ∈ _ ≫= _ => let x := fresh "x" in let Hx := fresh "Hx" in
      apply list_elem_of_bind in H as (x & H & Hx); split_in H
  | _ ∈ _ <$> _ => let x := fresh "x" in let Hx := fresh "Hx" in
      apply list_elem_of_fmap in H as (x & H & Hx); split_in H; try subst
  | _ ∈ match ?o with _ => _ end => let E := fresh "E" in destruct o eqn:E; split_in H
  | _ => idtac
  end.

Section Windows.
Context (cp : pw_card_program).
Hypothesis Hfit : program_fits cp = true.
Hypothesis Htyped : typed_program cp.

Lemma seqZ_in i n : i ∈ seqZ 0 n -> 0 <= i < n.
Proof. intros H%elem_of_seqZ. lia. Qed.

(** Bounds and alignment of an offset. *)
Ltac window := offsets; simpl; split; [lia|Z.to_euclidean_division_equations; lia].

Lemma map_window : in_window 0x400 0x800 (map_writes cp).
Proof.
  apply program_fits_spec in Hfit as (_ & _ & _ & _ & Hm & _).
  intros w H. unfold map_writes in H. split_in H.
  - apply seqZ_in in Hx. window.
  - pose proof (Hm _ Hx). pose proof (tp_map _ Htyped _ Hx). window.
Qed.

Lemma cmp_window : in_window 0x2000 0x2100 (cmp_writes cp).
Proof.
  apply program_fits_spec in Hfit as (_ & Hc & _).
  intros w H. unfold cmp_writes in H. split_in H; apply seqZ_in in Hx; window.
Qed.

Lemma udf_window : in_window 0x2100 0x2200 (udf_writes cp).
Proof.
  apply program_fits_spec in Hfit as (_ & _ & Hu & _).
  intros w H. unfold udf_writes in H. split_in H; apply seqZ_in in Hx; window.
Qed.

Lemma rule_window : in_window 0x2200 0x2400 (rule_writes cp).
Proof. intros w H. unfold rule_writes in H. split_in H; apply seqZ_in in Hx; window. Qed.

Lemma hash_param_window : in_window 0x2F00 0x3000 (hash_param_writes cp).
Proof.
  intros w H. unfold hash_param_writes in H. split_in H.
  - apply elem_of_seq in Hx. window.
  - window.
Qed.

Lemma hash_clear_window :
  in_window 0x3000 0x5000 ((fun b => (PWFPGA_HASH_CTRL PWFPGA_WIN_FC_HASH b, 0)) <$>
    seqZ 0 PWFPGA_HASH_DEPTH).
Proof. intros w H. split_in H. apply seqZ_in in Hx. window. Qed.

Lemma hash_entry_window : in_window 0x3000 0x5000 (cp_hash_entries cp ≫= hash_entry_writes).
Proof.
  apply program_fits_spec in Hfit as (_ & _ & _ & _ & _ & Hh).
  intros w H. split_in H. pose proof (Hh _ Hx). pose proof (tp_hash _ Htyped _ Hx).
  unfold hash_entry_writes in H. split_in H.
  - apply elem_of_seq in Hx0. window.
  - window.
Qed.

Lemma hash_writes_eq : hash_writes cp =
  ((fun b => (PWFPGA_HASH_CTRL PWFPGA_WIN_FC_HASH b, 0)) <$> seqZ 0 PWFPGA_HASH_DEPTH) ++
  (if decide (cp_hash_entries cp = []) then [] else hash_param_writes cp) ++
  (cp_hash_entries cp ≫= hash_entry_writes).
Proof. unfold hash_writes. by destruct (cp_hash_entries cp). Qed.

Lemma hash_param_opt_window :
  in_window 0x2F00 0x3000 (if decide (cp_hash_entries cp = []) then [] else hash_param_writes cp).
Proof. case_decide; [|apply hash_param_window]. intros w Hw. split_in Hw. Qed.

Lemma table_writes_ok w : w ∈ table_writes cp -> csr_off_ok w.1.
Proof.
  intros H. unfold table_writes in H. rewrite hash_writes_eq in H. unfold csr_off_ok. offsets.
  rewrite !elem_of_app in H. destruct H as [H|[H|[H|[H|[H|[H|H]]]]]];
    [apply map_window in H|apply cmp_window in H|apply udf_window in H|apply rule_window in H
    |apply hash_clear_window in H|apply hash_param_opt_window in H|apply hash_entry_window in H];
    split; lia.
Qed.

(** ** The registers after the writes *)

(** Drop the writes to the other windows. *)
Ltac other_windows := unfold table_writes; rewrite hash_writes_eq, !wr_app;
  repeat match goal with
  | |- context [wr (map_writes cp) ?o _] =>
      rewrite (wr_window _ _ (map_writes cp) o _ map_window) by (offsets; lia)
  | |- context [wr (cmp_writes cp) ?o _] =>
      rewrite (wr_window _ _ (cmp_writes cp) o _ cmp_window) by (offsets; lia)
  | |- context [wr (udf_writes cp) ?o _] =>
      rewrite (wr_window _ _ (udf_writes cp) o _ udf_window) by (offsets; lia)
  | |- context [wr (rule_writes cp) ?o _] =>
      rewrite (wr_window _ _ (rule_writes cp) o _ rule_window) by (offsets; lia)
  | |- context [wr (_ <$> seqZ 0 PWFPGA_HASH_DEPTH) ?o _] =>
      rewrite (wr_window _ _ _ o _ hash_clear_window) by (offsets; lia)
  | |- context [wr (if _ then _ else _) ?o _] =>
      rewrite (wr_window _ _ _ o _ hash_param_opt_window) by (offsets; lia)
  | |- context [wr (cp_hash_entries cp ≫= _) ?o _] =>
      rewrite (wr_window _ _ _ o _ hash_entry_window) by (offsets; lia)
  end.

Lemma reg_map_set e d : NoDup (me_flow_id <$> cp_map_entries cp) -> e ∈ cp_map_entries cp ->
  wr (table_writes cp) (PWFPGA_WIN_FLOWID_MAP + me_flow_id e * 4) d =
  PWFPGA_FLOWID_MAP_VALID ||| me_local_flow_id e.
Proof.
  intros Hnd He. pose proof (tp_map _ Htyped _ He).
  destruct (program_fits_spec _ Hfit) as (_ & _ & _ & _ & Hm & _). specialize (Hm _ He).
  other_windows. unfold map_writes. rewrite wr_app. apply wr_const.
  - apply list_elem_of_fmap. by exists e.
  - intros w Hw Ho. split_in Hw. simpl in *. assert (Heq : me_flow_id x = me_flow_id e) by lia.
    by rewrite (NoDup_fmap_elem _ _ x e Hnd Hx He Heq).
Qed.

Lemma reg_map_clear id d : 0 <= id < PWFPGA_FLOWID_MAP_DEPTH ->
  id ∉ (me_flow_id <$> cp_map_entries cp) ->
  wr (table_writes cp) (PWFPGA_WIN_FLOWID_MAP + id * 4) d = 0.
Proof.
  intros Hid Hn. unfold PWFPGA_FLOWID_MAP_DEPTH in Hid. other_windows.
  unfold map_writes. rewrite wr_app, wr_skip.
  - apply wr_const.
    + apply list_elem_of_fmap. exists id. split; [done|]. apply elem_of_seqZ. offsets. lia.
    + intros w Hw _. by split_in Hw.
  - intros w Hw Ho. split_in Hw. simpl in Ho. apply Hn, list_elem_of_fmap. exists x.
    split; [lia|done].
Qed.

(** A table whose entry [i] is written as a block of words at [base + 16 i]. *)
Lemma wr_block n (f : Z -> list (Z * Z)) i k v d base :
  0 <= i < n -> 0 <= k < 16 -> (base + i * 16 + k, v) ∈ f i ->
  (forall j w, w ∈ f j -> 0 <= j < n -> base + j * 16 <= w.1 < base + j * 16 + 16) ->
  (forall w, w ∈ f i -> w.1 = base + i * 16 + k -> w.2 = v) ->
  wr (seqZ 0 n ≫= f) (base + i * 16 + k) d = v.
Proof.
  intros Hi Hk Hin Hb Hv. apply wr_const.
  - apply list_elem_of_bind. exists i. split; [done|]. apply elem_of_seqZ. lia.
  - intros w Hw Ho. apply list_elem_of_bind in Hw as (j & Hw & Hj%seqZ_in).
    pose proof (Hb j w Hw Hj). assert (j = i) by lia. subst j. by apply Hv.
Qed.

Ltac block Hc := apply wr_block; rewrite ?Hc; first
  [ offsets; lia
  | intros j w Hw _; split_in Hw; offsets; simpl; lia
  | intros w Hw Ho; split_in Hw; offsets; simpl in *; first [done|lia]
  | rewrite !elem_of_cons; by auto ].

Lemma reg_cmp i c d : cp_fc_cmps cp !! Z.to_nat i = Some c -> 0 <= i ->
  wr (table_writes cp) (PWFPGA_FC_CMP_SRC PWFPGA_WIN_FC_CMP i) d = fc_src_code (cmp_src c) /\
  wr (table_writes cp) (PWFPGA_FC_CMP_MASK PWFPGA_WIN_FC_CMP i) d = cmp_mask c /\
  wr (table_writes cp) (PWFPGA_FC_CMP_VALUE PWFPGA_WIN_FC_CMP i) d = cmp_value c.
Proof.
  intros Hc Hi. pose proof (lookup_lt_Some _ _ _ Hc) as Hlt.
  destruct (program_fits_spec _ Hfit) as (_ & Hn & _).
  repeat split; other_windows; block Hc.
Qed.

Lemma reg_udf i u d : cp_fc_udfs cp !! Z.to_nat i = Some u -> 0 <= i ->
  wr (table_writes cp) (PWFPGA_FC_UDF_OFFSET PWFPGA_WIN_FC_UDF i) d = udf_offset u /\
  wr (table_writes cp) (PWFPGA_FC_UDF_MASK PWFPGA_WIN_FC_UDF i) d = udf_mask u /\
  wr (table_writes cp) (PWFPGA_FC_UDF_VALUE PWFPGA_WIN_FC_UDF i) d = udf_value u.
Proof.
  intros Hc Hi. pose proof (lookup_lt_Some _ _ _ Hc) as Hlt.
  destruct (program_fits_spec _ Hfit) as (_ & _ & Hn & _).
  repeat split; other_windows; block Hc.
Qed.

Lemma reg_rule i rl d : cp_fc_rules cp !! Z.to_nat i = Some rl -> 0 <= i ->
  wr (table_writes cp) (PWFPGA_FC_RULE_WORD0 PWFPGA_WIN_FC_RULE i) d =
    PWFPGA_FC_RULE_W0 (rl_care rl) (action_code (rl_action rl)) (rl_egress rl)
      (rl_priority rl) true /\
  wr (table_writes cp) (PWFPGA_FC_RULE_LFID PWFPGA_WIN_FC_RULE i) d = rl_local_flow_id rl /\
  wr (table_writes cp) (PWFPGA_FC_RULE_LIF PWFPGA_WIN_FC_RULE i) d = rl_logical_if_id rl.
Proof.
  intros Hc Hi. pose proof (lookup_lt_Some _ _ _ Hc) as Hlt.
  destruct (program_fits_spec _ Hfit) as (_ & _ & _ & Hn & _).
  repeat split; other_windows; block Hc.
Qed.

Lemma reg_rule_off i d : Z.of_nat (length (cp_fc_rules cp)) <= i < PWFPGA_NUM_RULE ->
  wr (table_writes cp) (PWFPGA_FC_RULE_WORD0 PWFPGA_WIN_FC_RULE i) d = 0.
Proof.
  intros Hi. unfold PWFPGA_NUM_RULE in Hi.
  assert (cp_fc_rules cp !! Z.to_nat i = None) as Hc by (apply lookup_ge_None; lia).
  other_windows; block Hc.
Qed.

Lemma reg_hash_mask w d : (w < PWFPGA_HASH_KEY_WORDS)%nat -> cp_hash_entries cp <> [] ->
  wr (table_writes cp) (PWFPGA_HASH_MASK_WORD PWFPGA_WIN_HASH_MASK (Z.of_nat w)) d =
  nth w (cp_hash_mask cp) 0.
Proof.
  intros Hw Hne. unfold PWFPGA_HASH_KEY_WORDS in Hw.
  unfold table_writes. rewrite hash_writes_eq, !wr_app. rewrite decide_False by done.
  rewrite (wr_window _ _ _ _ _ hash_entry_window) by (offsets; lia). apply wr_const.
  - apply elem_of_app. left. apply list_elem_of_fmap. exists w. split; [done|].
    apply elem_of_seq. offsets. lia.
  - intros x Hx Ho. unfold hash_param_writes in Hx. split_in Hx.
    + apply elem_of_seq in Hx0. offsets. simpl in *. by assert (x0 = w) as -> by lia.
    + offsets. simpl in *. lia.
Qed.

Lemma reg_hash_seed d : cp_hash_entries cp <> [] ->
  wr (table_writes cp) PWFPGA_REG_HASH_SEED d = cp_hash_seed cp.
Proof.
  intros Hne. unfold table_writes. rewrite hash_writes_eq, !wr_app. rewrite decide_False by done.
  rewrite (wr_window _ _ _ _ _ hash_entry_window) by (offsets; lia). apply wr_const.
  - apply elem_of_app. right. by left.
  - intros x Hx Ho. unfold hash_param_writes in Hx. split_in Hx.
    + apply elem_of_seq in Hx0. offsets. simpl in *. lia.
    + done.
Qed.

(** The words of a bucket are only written by the entry it holds. *)
Lemma hash_entry_wr e o v d : NoDup (he_index <$> cp_hash_entries cp) -> e ∈ cp_hash_entries cp ->
  (o, v) ∈ hash_entry_writes e -> (forall w, w ∈ hash_entry_writes e -> w.1 = o -> w.2 = v) ->
  wr (cp_hash_entries cp ≫= hash_entry_writes) o d = v.
Proof.
  intros Hnd He Hin Hv. apply wr_const.
  - apply list_elem_of_bind. by exists e.
  - intros w Hw Ho. apply list_elem_of_bind in Hw as (e' & Hw & He').
    assert (Hb : forall x y, y ∈ hash_entry_writes x ->
      0x3000 + he_index x * 64 <= y.1 < 0x3000 + he_index x * 64 + 64).
    { intros x y Hy. unfold hash_entry_writes in Hy. split_in Hy.
      - apply elem_of_seq in Hx. offsets. simpl. lia.
      - offsets. simpl. lia. }
    pose proof (Hb _ _ Hw). pose proof (Hb _ _ Hin). simpl in *.
    assert (Heq : he_index e' = he_index e) by lia.
    rewrite (NoDup_fmap_elem _ _ e' e Hnd He' He Heq) in Hw. by apply Hv.
Qed.

Lemma reg_hash_entry e d : NoDup (he_index <$> cp_hash_entries cp) -> e ∈ cp_hash_entries cp ->
  (forall w, (w < PWFPGA_HASH_KEY_WORDS)%nat ->
    wr (table_writes cp) (PWFPGA_HASH_KEY_WORD PWFPGA_WIN_FC_HASH (he_index e) (Z.of_nat w)) d =
    nth w (he_key_word e) 0) /\
  wr (table_writes cp) (PWFPGA_HASH_CTRL PWFPGA_WIN_FC_HASH (he_index e)) d =
    PWFPGA_HASH_CTRL_VALID ||| he_local_flow_id e.
Proof.
  intros Hnd He. unfold table_writes. rewrite hash_writes_eq. split; [intros w Hw|].
  all: rewrite !wr_app; apply (hash_entry_wr e); [done|done| |].
  - apply elem_of_app. left. apply list_elem_of_fmap. exists w. split; [done|].
    apply elem_of_seq. offsets. lia.
  - intros x Hx Ho. unfold hash_entry_writes in Hx. split_in Hx; offsets; simpl in *; [|lia].
    by assert (x0 = w) as -> by lia.
  - apply elem_of_app. right. by left.
  - intros x Hx Ho. unfold hash_entry_writes in Hx. split_in Hx; [|done].
    apply elem_of_seq in Hx0. offsets. simpl in *. lia.
Qed.

Lemma reg_hash_clear b d : 0 <= b < PWFPGA_HASH_DEPTH ->
  b ∉ (he_index <$> cp_hash_entries cp) ->
  wr (table_writes cp) (PWFPGA_HASH_CTRL PWFPGA_WIN_FC_HASH b) d = 0.
Proof.
  intros Hb Hn. unfold PWFPGA_HASH_DEPTH in Hb.
  unfold table_writes. rewrite hash_writes_eq, !wr_app, wr_skip.
  - rewrite (wr_window _ _ _ _ _ hash_param_opt_window) by (offsets; lia). apply wr_const.
    + apply list_elem_of_fmap. exists b. split; [done|]. apply elem_of_seqZ. offsets. lia.
    + intros w Hw _. by split_in Hw.
  - intros w Hw Ho. split_in Hw. unfold hash_entry_writes in Hw.
    assert (he_index x = b); [|by apply Hn, list_elem_of_fmap; exists x].
    split_in Hw; [apply elem_of_seq in Hx0|]; offsets; simpl in *; lia.
Qed.
End Windows.

(** ** Programming through the interface *)

Section Interface.
Context {C : Type} (ops : pw_card_backend_ops C) {CT : CardTables ops}.

Lemma run_writes ws : (forall w, w ∈ ws -> csr_off_ok w.1) -> forall c, csr_ok c -> fl_ok c ->
  let r := run_all ((fun ov => csr_write ov.1 ov.2) <$> ws) c in
  Forall (fun s => s = PW_OK) r.2 /\ csr_ok r.1 /\ fl_ok r.1 /\
  (forall o, csr_off_ok o -> csr_reg r.1 o = wr ws o (csr_reg c o)) /\
  (forall i, 0 <= i < PWFPGA_FLOW_TABLE_ROWS -> fl_live r.1 i = fl_live c i).
Proof.
  induction ws as [|[o v] ws IH]; intros Hw c Hc Hf; simpl.
  { repeat split; auto. }
  assert (Hoff : csr_off_ok o) by (apply (Hw (o, v)); by left).
  destruct (csr_write_law o v c Hc Hoff) as (Hs & Hc1 & Hr).
  destruct (ct_write_frame o v c Hc Hf Hoff) as (Hf1 & Hl).
  destruct (csr_write o v c) as [c1 s] eqn:E. simpl in *.
  destruct (IH (fun w H => Hw w (list_elem_of_further _ _ _ H)) c1 Hc1 Hf1)
    as (Hss & Hc2 & Hf2 & Hr2 & Hl2).
  destruct (run_all _ c1) as [c2 ss]. simpl in *. repeat split; auto.
  - intros o' Ho'. rewrite Hr2, Hr by done. done.
  - intros i Hi. by rewrite Hl2, Hl.
Qed.

Lemma run_rows (g : Z -> pwfpga_flow_config) rs :
  (forall r, r ∈ rs -> 0 <= r < PWFPGA_FLOW_TABLE_ROWS) -> forall c, csr_ok c -> fl_ok c ->
  let r := run_all ((fun r => fl_write r (g r)) <$> rs) c in
  Forall (fun s => s = PW_OK) r.2 /\ csr_ok r.1 /\ fl_ok r.1 /\
  (forall i, i ∈ rs -> fl_staged r.1 i = flow_config_bytes (g i)) /\
  (forall i, 0 <= i < PWFPGA_FLOW_TABLE_ROWS -> i ∉ rs -> fl_staged r.1 i = fl_staged c i).
Proof.
  induction rs as [|r rs IH]; intros Hw c Hc Hf; simpl.
  { repeat split; auto. intros i Hi. by apply not_elem_of_nil in Hi. }
  assert (Hr : 0 <= r < PWFPGA_FLOW_TABLE_ROWS) by (apply Hw; by left).
  destruct (fl_write_law r (g r) c Hf Hr) as (Hs & Hf1 & Hst).
  pose proof (ct_flow_frame r (g r) c Hc Hf Hr) as Hc1.
  destruct (fl_write r (g r) c) as [c1 s] eqn:E. simpl in *.
  destruct (IH (fun w H => Hw w (list_elem_of_further _ _ _ H)) c1 Hc1 Hf1)
    as (Hss & Hc2 & Hf2 & Hin & Hout).
  destruct (run_all _ c1) as [c2 ss]. simpl in *. repeat split; auto.
  - intros i Hi. destruct (decide (i ∈ rs)) as [|Hn]; [by apply Hin|].
    apply elem_of_cons in Hi as [->|]; [|done]. by rewrite Hout, Hst, Z.eqb_refl.
  - intros i Hi [Hne Hn]%not_elem_of_cons. rewrite Hout, Hst by done.
    by apply Z.eqb_neq in Hne as ->.
Qed.

(** Entries of a table have distinct keys. *)
Record distinct_keys (cp : pw_card_program) : Prop := {
  dk_map : NoDup (me_flow_id <$> cp_map_entries cp);
  dk_hash : NoDup (he_index <$> cp_hash_entries cp)
}.

(** The registers hold exactly the program: configured entries valid, every
    other slot invalid. *)
Record programmed (cp : pw_card_program) (reg : Z -> Z) : Prop := {
  pg_map : forall e, e ∈ cp_map_entries cp ->
    reg (PWFPGA_WIN_FLOWID_MAP + me_flow_id e * 4) =
      PWFPGA_FLOWID_MAP_VALID ||| me_local_flow_id e;
  pg_map_off : forall id, 0 <= id < PWFPGA_FLOWID_MAP_DEPTH ->
    id ∉ (me_flow_id <$> cp_map_entries cp) -> reg (PWFPGA_WIN_FLOWID_MAP + id * 4) = 0;
  pg_cmp : forall i c, cp_fc_cmps cp !! Z.to_nat i = Some c -> 0 <= i ->
    reg (PWFPGA_FC_CMP_SRC PWFPGA_WIN_FC_CMP i) = fc_src_code (cmp_src c) /\
    reg (PWFPGA_FC_CMP_MASK PWFPGA_WIN_FC_CMP i) = cmp_mask c /\
    reg (PWFPGA_FC_CMP_VALUE PWFPGA_WIN_FC_CMP i) = cmp_value c;
  pg_udf : forall i u, cp_fc_udfs cp !! Z.to_nat i = Some u -> 0 <= i ->
    reg (PWFPGA_FC_UDF_OFFSET PWFPGA_WIN_FC_UDF i) = udf_offset u /\
    reg (PWFPGA_FC_UDF_MASK PWFPGA_WIN_FC_UDF i) = udf_mask u /\
    reg (PWFPGA_FC_UDF_VALUE PWFPGA_WIN_FC_UDF i) = udf_value u;
  pg_rule : forall i rl, cp_fc_rules cp !! Z.to_nat i = Some rl -> 0 <= i ->
    reg (PWFPGA_FC_RULE_WORD0 PWFPGA_WIN_FC_RULE i) =
      PWFPGA_FC_RULE_W0 (rl_care rl) (action_code (rl_action rl)) (rl_egress rl)
        (rl_priority rl) true /\
    reg (PWFPGA_FC_RULE_LFID PWFPGA_WIN_FC_RULE i) = rl_local_flow_id rl /\
    reg (PWFPGA_FC_RULE_LIF PWFPGA_WIN_FC_RULE i) = rl_logical_if_id rl;
  pg_rule_off : forall i, Z.of_nat (length (cp_fc_rules cp)) <= i < PWFPGA_NUM_RULE ->
    reg (PWFPGA_FC_RULE_WORD0 PWFPGA_WIN_FC_RULE i) = 0;
  pg_hash : forall e, e ∈ cp_hash_entries cp ->
    (forall w, (w < PWFPGA_HASH_KEY_WORDS)%nat ->
      reg (PWFPGA_HASH_KEY_WORD PWFPGA_WIN_FC_HASH (he_index e) (Z.of_nat w)) =
      nth w (he_key_word e) 0) /\
    reg (PWFPGA_HASH_CTRL PWFPGA_WIN_FC_HASH (he_index e)) =
      PWFPGA_HASH_CTRL_VALID ||| he_local_flow_id e;
  pg_hash_off : forall b, 0 <= b < PWFPGA_HASH_DEPTH -> b ∉ (he_index <$> cp_hash_entries cp) ->
    reg (PWFPGA_HASH_CTRL PWFPGA_WIN_FC_HASH b) = 0;
  pg_hash_params : cp_hash_entries cp <> [] ->
    reg PWFPGA_REG_HASH_SEED = cp_hash_seed cp /\
    forall w, (w < PWFPGA_HASH_KEY_WORDS)%nat ->
      reg (PWFPGA_HASH_MASK_WORD PWFPGA_WIN_HASH_MASK (Z.of_nat w)) = nth w (cp_hash_mask cp) 0
}.

Lemma writes_programmed cp d : program_fits cp = true -> typed_program cp -> distinct_keys cp ->
  programmed cp (fun o => wr (table_writes cp) o (d o)).
Proof.
  intros Hf Ht [Hm Hh]. constructor; intros.
  - by apply reg_map_set.
  - by apply reg_map_clear.
  - split_and!; intros; by eapply reg_cmp.
  - split_and!; intros; by eapply reg_udf.
  - split_and!; intros; by eapply reg_rule.
  - by apply reg_rule_off.
  - split_and!; intros; by eapply reg_hash_entry.
  - by apply reg_hash_clear.
  - split; [by apply reg_hash_seed|]. intros. by apply reg_hash_mask.
Qed.

(** Registers that agree below the flow table hold the same program. *)
Lemma programmed_ext cp reg reg' : program_fits cp = true -> typed_program cp ->
  (forall o, csr_off_ok o -> reg o = reg' o) -> programmed cp reg' -> programmed cp reg.
Proof.
  intros Hfit Ht He Hp. destruct (program_fits_spec _ Hfit) as (_ & Hc & Hu & Hr & Hm & Hh).
  assert (Hk : forall o, 0x400 <= o < 0x800 \/ 0x2000 <= o < 0x6000 -> o mod 4 = 0 ->
    reg o = reg' o) by (intros o Ho Ha; apply He; by split).
  destruct Hp. constructor; intros;
    repeat match goal with
    | H : _ ∈ cp_map_entries cp |- _ => pose proof (Hm _ H); pose proof (tp_map _ Ht _ H); revert H
    | H : _ ∈ cp_hash_entries cp |- _ =>
        pose proof (Hh _ H); pose proof (tp_hash _ Ht _ H); revert H
    | H : _ !! _ = Some _ |- _ => pose proof (lookup_lt_Some _ _ _ H); revert H
    end; intros; repeat split; intros;
    (rewrite Hk; [naive_solver| |]); offsets;
    first [lia | Z.to_euclidean_division_equations; lia].
Qed.

Lemma row_count_bounds cp info : program_fits cp = true ->
  n_rows cp <= flow_row_count cp info <= PWFPGA_FLOW_TABLE_ROWS.
Proof.
  intros (Hn & _)%program_fits_spec. unfold flow_row_count.
  change PWFPGA_FLOW_TABLE_ROWS with 64 in *.
  destruct info as [i|].
  - destruct (Z.ltb_spec (n_rows cp) (ci_num_local_flows i));
      match goal with |- context [64 <? ?x] => destruct (Z.ltb_spec 64 x) end; lia.
  - destruct (Z.ltb_spec 64 (n_rows cp)); lia.
Qed.

Lemma probe_info_ctx c : csr_ok c -> fl_ok c -> (probe_info ops c).1 = c.
Proof.
  intros Hc Hf. unfold probe_info. destruct (op_card_info ops) as [ci|] eqn:E; [|done].
  pose proof (ct_info ci c E Hc Hf) as H. destruct (ci c) as [c' [s i]]. done.
Qed.

Lemma missing_ops_ok cp : missing_ops ops cp = PW_OK.
Proof.
  unfold missing_ops. rewrite csr_write_op, fl_write_op, fl_commit_op.
  rewrite !(bool_decide_eq_false_2 (Some _ = None)) by discriminate. by rewrite andb_false_r.
Qed.

(** Rows, commit, registers: the whole sequence succeeds. *)
Lemma run_sequence g rs ws c :
  (forall r, r ∈ rs -> 0 <= r < PWFPGA_FLOW_TABLE_ROWS) ->
  (forall w, w ∈ ws -> csr_off_ok w.1) -> csr_ok c -> fl_ok c ->
  let r := run_all (((fun r => fl_write r (g r)) <$> rs) ++ [fl_commit] ++
                    ((fun ov => csr_write ov.1 ov.2) <$> ws)) c in
  Forall (fun s => s = PW_OK) r.2 /\ csr_ok r.1 /\ fl_ok r.1 /\
  (exists d, forall o, csr_off_ok o -> csr_reg r.1 o = wr ws o (d o)) /\
  (forall i, i ∈ rs -> fl_live r.1 i = flow_config_bytes (g i)).
Proof.
  intros Hrs Hws Hc Hf.
  destruct (run_rows g rs Hrs c Hc Hf) as (Hs1 & Hc1 & Hf1 & Hin & _).
  rewrite !run_all_app. simpl.
  destruct (run_all _ c) as [c1 ss1]. simpl in *.
  destruct (fl_commit_law c1 Hf1) as (Hs2 & Hf2 & Hl).
  pose proof (ct_commit_frame c1 Hc1 Hf1) as Hc2.
  destruct (fl_commit c1) as [c2 s2]. simpl in *.
  destruct (run_writes ws Hws c2 Hc2 Hf2) as (Hs3 & Hc3 & Hf3 & Hr3 & Hl3).
  destruct (run_all _ c2) as [c3 ss3]. simpl in *. split_and!; try done.
  - by apply Forall_app_2, Forall_cons_2.
  - by exists (csr_reg c2).
  - intros i Hi. rewrite Hl3, Hl by auto. by apply Hin.
Qed.

(** A full run: every call succeeds, the tables and live rows are the program's. *)
Lemma run_calls_programmed cp info c :
  program_fits cp = true -> typed_program cp -> distinct_keys cp -> csr_ok c -> fl_ok c ->
  let r := run_calls ops cp info c in
  r.2 = Ok tt /\ csr_ok r.1 /\ fl_ok r.1 /\ programmed cp (csr_reg r.1) /\
  forall i, 0 <= i < flow_row_count cp info ->
    fl_live r.1 i = flow_config_bytes (row_image cp i).
Proof.
  intros Hfit Ht Hd Hc Hf. rewrite run_calls_run, missing_ops_ok.
  unfold all_calls, row_calls, commit_calls, table_calls.
  rewrite csr_write_op, fl_write_op, fl_commit_op.
  pose proof (row_count_bounds cp info Hfit) as Hn.
  destruct (run_sequence (row_image cp) (seqZ 0 (flow_row_count cp info)) (table_writes cp) c)
    as (Hs & Hc' & Hf' & (d & Hr) & Hl);
    [intros r Hr%elem_of_seqZ; lia|intros w; by apply table_writes_ok|done|done|].
  destruct (run_all _ c) as [c' ss]. unfold fst, snd in *. cbv zeta.
  rewrite (worst_of_ok ss Hs). split_and!; try done.
  - eapply programmed_ext; [done|done|exact Hr|]. by apply writes_programmed.
  - intros i Hi. apply Hl, elem_of_seqZ. lia.
Qed.
End Interface.
