(* ===== verification/Dma.v ===== *)
(** * The DMA slow path

    Models the XDMA part of [sw/libpacketwyrm/src/backend_bar.c]: the pool
    layout, the descriptors, frame injection (H2C) with its bounded completion
    poll, and the circular punt ring (C2H) the host reaps by a consumer index.
    The XDMA engine (BAR1 registers) and the DMA-mapped pool it shares with the
    host are a device parameter; the monotonic clock is a parameter too. Log
    output is left out. *)

From S2P Require Import Prelude Types Csr Backend.

(** ** Constants *)

Definition PW_DMA_FRAME_CAP : Z := 16384.
Definition PW_DMA_HDR_LEN : Z := 8.
Definition PW_DMA_RX_RING : Z := 16.

Definition PWFPGA_XDMA_H2C_CHANNEL : Z := 0x0000.
Definition PWFPGA_XDMA_C2H_CHANNEL : Z := 0x1000.
Definition PWFPGA_XDMA_H2C_SGDMA : Z := 0x4000.
Definition PWFPGA_XDMA_C2H_SGDMA : Z := 0x5000.
Definition PWFPGA_XDMA_CH_CONTROL : Z := 0x04.
Definition PWFPGA_XDMA_CH_STATUS : Z := 0x40.
Definition PWFPGA_XDMA_CH_STATUS_RC : Z := 0x44.
Definition PWFPGA_XDMA_CH_COMPLETED_COUNT : Z := 0x48.
Definition PWFPGA_XDMA_SG_DESC_ADDR_LO : Z := 0x80.
Definition PWFPGA_XDMA_SG_DESC_ADDR_HI : Z := 0x84.
Definition PWFPGA_XDMA_SG_DESC_ADJ : Z := 0x88.
Definition PWFPGA_XDMA_CTRL_RUN : Z := 1 <<< 0.
Definition PWFPGA_XDMA_STAT_ERR : Z := (1 <<< 3) ||| (0x1F <<< 9) ||| (0x1F <<< 19).
Definition PWFPGA_XDMA_DESC_MAGIC : Z := 0xAD4B0000.
Definition PWFPGA_XDMA_DESC_STOP : Z := 1 <<< 0.
Definition PWFPGA_XDMA_DESC_COMPLETED : Z := 1 <<< 1.
Definition PWFPGA_XDMA_DESC_EOP : Z := 1 <<< 4.

(** ** Data *)

Record pwfpga_xdma_desc := {
  xd_control : Z;
  xd_bytes : Z;
  xd_src : Z;
  xd_dst : Z;
  xd_next : Z
}.

(** The 64-bit addresses are stored as a low and a high word. *)
Definition desc_wires (d : pwfpga_xdma_desc) : list wire :=
  [WInt 4 (xd_control d); WInt 4 (xd_bytes d);
   WInt 4 (u32 (xd_src d)); WInt 4 (xd_src d >>> 32);
   WInt 4 (u32 (xd_dst d)); WInt 4 (xd_dst d >>> 32);
   WInt 4 (u32 (xd_next d)); WInt 4 (xd_next d >>> 32)].
Definition desc_bytes (d : pwfpga_xdma_desc) : list Z := wires_bytes (desc_wires d).

Definition desc_size : Z := 32.

Definition desc_fill (ctrl_flags bytes src dst : Z) : pwfpga_xdma_desc :=
  {| xd_control := PWFPGA_XDMA_DESC_MAGIC ||| ctrl_flags; xd_bytes := bytes;
     xd_src := src; xd_dst := dst; xd_next := 0 |}.

(** Sub-regions are pool offsets: their device address is [ds_pool_iova] plus
    the offset. *)
Record dma_state := {
  ds_pool_len : Z;
  ds_pool_iova : Z;
  ds_h2c_desc : Z;
  ds_tx_buf : Z;
  ds_c2h_ring : Z;
  ds_rx_bufs : Z;
  ds_h2c_cmpl_base : Z;
  ds_c2h_cmpl_base : Z;
  ds_rx_consumed : Z;
  ds_c2h_overrun : Z;
  ds_c2h_err : Z;
  ds_c2h_armed : bool
}.

Definition ds_iova (d : dma_state) (off : Z) : Z := u64 (ds_pool_iova d + off).

Definition set_c2h (d : dma_state) (base consumed overrun err : Z) (armed : bool) : dma_state :=
  {| ds_pool_len := ds_pool_len d; ds_pool_iova := ds_pool_iova d;
     ds_h2c_desc := ds_h2c_desc d; ds_tx_buf := ds_tx_buf d; ds_c2h_ring := ds_c2h_ring d;
     ds_rx_bufs := ds_rx_bufs d; ds_h2c_cmpl_base := ds_h2c_cmpl_base d;
     ds_c2h_cmpl_base := base; ds_rx_consumed := consumed; ds_c2h_overrun := overrun;
     ds_c2h_err := err; ds_c2h_armed := armed |}.

(** ** Setup *)

Definition dma_pool_len (ps : Z) : Z :=
  let ps := if ps <=? 0 then 4096 else ps in
  let need := 1024 + (1 + PW_DMA_RX_RING) * PW_DMA_FRAME_CAP in
  ((need + ps - 1) / ps) * ps.

Definition dma_layout (ps iova : Z) : dma_state :=
  let off_ring := 64 in
  let ring_bytes := PW_DMA_RX_RING * desc_size in
  let off_tx := ((off_ring + ring_bytes + 63) / 64) * 64 in
  let off_rx := off_tx + PW_DMA_FRAME_CAP in
  {| ds_pool_len := dma_pool_len ps; ds_pool_iova := iova; ds_h2c_desc := 0;
     ds_tx_buf := off_tx; ds_c2h_ring := off_ring; ds_rx_bufs := off_rx;
     ds_h2c_cmpl_base := 0; ds_c2h_cmpl_base := 0; ds_rx_consumed := 0; ds_c2h_overrun := 0;
     ds_c2h_err := 0; ds_c2h_armed := false |}.

(** What the system calls of [dma_setup] answer. *)
Record dma_env := {
  de_map_region : pw_status;
  de_pagesize : Z;
  de_pool : bool;
  de_map_dma : pw_status;
  de_iova : Z;
  de_state : bool
}.

Definition dma_setup (e : dma_env) : pw_status * option dma_state :=
  if bool_decide (de_map_region e <> PW_OK) then (de_map_region e, None)
  else if negb (de_pool e) then (PW_E_NO_RESOURCES, None)
  else if bool_decide (de_map_dma e <> PW_OK) then (de_map_dma e, None)
  else if negb (de_state e) then (PW_E_NO_RESOURCES, None)
  else (PW_OK, Some (dma_layout (de_pagesize e) (de_iova e))).

(** ** The device *)

(** The XDMA registers and the pool memory both sides access. *)
Record xdma_dev (X : Type) := {
  xdma_rd : Z -> X -> X * Z;
  xdma_wr : Z -> Z -> X -> X;
  pool_load : X -> Z -> Z;
  pool_store : Z -> list Z -> X -> X
}.
Arguments xdma_rd {X}.
Arguments xdma_wr {X}.
Arguments pool_load {X}.
Arguments pool_store {X}.

(** Recover a punted frame's length from its own headers; 0 when unknown. *)
Definition punt_frame_len (f : Z -> Z) (cap : Z) : Z :=
  let et := (f 12 <<< 8) ||| f 13 in
  let len :=
    if et <? 0x0600 then 14 + et
    else if et =? 0x0800 then 14 + ((f 16 <<< 8) ||| f 17)
    else if et =? 0x86DD then 14 + 40 + ((f 18 <<< 8) ||| f 19)
    else if et =? 0x0806 then 42
    else 0 in
  if cap <? len then cap else len.

Section Dma.
Context {X : Type} (dev : xdma_dev X).

Definition dma_teardown (d : dma_state) (x : X) : X :=
  let x := xdma_wr dev (PWFPGA_XDMA_H2C_CHANNEL + PWFPGA_XDMA_CH_CONTROL) 0 x in
  xdma_wr dev (PWFPGA_XDMA_C2H_CHANNEL + PWFPGA_XDMA_CH_CONTROL) 0 x.

(** *** Inject *)

(** The completion poll: [late i] tells whether the [i]-th clock reading is past
    the 200 ms deadline. [None] is running out of fuel. *)
Fixpoint h2c_poll (late : nat -> bool) (fuel i : nat) (x : X) : X * option pw_status :=
  match fuel with
  | O => (x, None)
  | S fuel =>
      let '(x, n) := xdma_rd dev (PWFPGA_XDMA_H2C_CHANNEL + PWFPGA_XDMA_CH_COMPLETED_COUNT) x in
      if ztrue n then (x, Some PW_OK) else
      let '(x, st) := xdma_rd dev (PWFPGA_XDMA_H2C_CHANNEL + PWFPGA_XDMA_CH_STATUS) x in
      if ztrue (st &&& PWFPGA_XDMA_STAT_ERR) then (x, Some PW_E_IO) else
      if late i then (x, Some PW_E_IO) else h2c_poll late fuel (S i) x
  end.

Definition h2c_desc (d : dma_state) (total : Z) : pwfpga_xdma_desc :=
  desc_fill (PWFPGA_XDMA_DESC_STOP ||| PWFPGA_XDMA_DESC_EOP ||| PWFPGA_XDMA_DESC_COMPLETED)
    total (ds_iova d (ds_tx_buf d)) 0.

Definition dma_slow_path_tx (late : nat -> bool) (fuel : nat) (d : dma_state)
    (frame : list Z) (egress : Z) (x : X) : X * option pw_status :=
  let len := Z.of_nat (length frame) in
  if len =? 0 then (x, Some PW_E_INVAL) else
  if PW_DMA_FRAME_CAP <? len + PW_DMA_HDR_LEN then (x, Some PW_E_INVAL) else
  let x := pool_store dev (ds_tx_buf d) (egress :: replicate 7 0) x in
  let x := pool_store dev (ds_tx_buf d + PW_DMA_HDR_LEN) frame x in
  let x := pool_store dev (ds_h2c_desc d) (desc_bytes (h2c_desc d (PW_DMA_HDR_LEN + len))) x in
  let desc_iova := ds_iova d (ds_h2c_desc d) in
  let x := xdma_wr dev (PWFPGA_XDMA_H2C_SGDMA + PWFPGA_XDMA_SG_DESC_ADDR_LO) (u32 desc_iova) x in
  let x := xdma_wr dev (PWFPGA_XDMA_H2C_SGDMA + PWFPGA_XDMA_SG_DESC_ADDR_HI)
             (desc_iova >>> 32) x in
  let x := xdma_wr dev (PWFPGA_XDMA_H2C_SGDMA + PWFPGA_XDMA_SG_DESC_ADJ) 0 x in
  let x := xdma_wr dev (PWFPGA_XDMA_H2C_CHANNEL + PWFPGA_XDMA_CH_CONTROL)
             PWFPGA_XDMA_CTRL_RUN x in
  let '(x, r) := h2c_poll late fuel 0 x in
  let x := xdma_wr dev (PWFPGA_XDMA_H2C_CHANNEL + PWFPGA_XDMA_CH_CONTROL) 0 x in
  if bool_decide (r = Some PW_OK) then (x, r)
  else ((xdma_rd dev (PWFPGA_XDMA_H2C_CHANNEL + PWFPGA_XDMA_CH_STATUS_RC) x).1, r).

(** *** Punt *)

Definition c2h_desc (d : dma_state) (i : Z) : pwfpga_xdma_desc :=
  let dst := u64 (ds_iova d (ds_rx_bufs d) + i * PW_DMA_FRAME_CAP) in
  let nxt := u64 (ds_iova d (ds_c2h_ring d) + ((i + 1) mod PW_DMA_RX_RING) * desc_size) in
  let f := desc_fill PWFPGA_XDMA_DESC_COMPLETED PW_DMA_FRAME_CAP 0 dst in
  {| xd_control := xd_control f; xd_bytes := xd_bytes f; xd_src := xd_src f;
     xd_dst := xd_dst f; xd_next := nxt |}.

Definition dma_arm_c2h (d : dma_state) (x : X) : X * dma_state :=
  let x := fold_left (fun x i => pool_store dev (ds_c2h_ring d + i * desc_size)
                                   (desc_bytes (c2h_desc d i)) x)
             (seqZ 0 PW_DMA_RX_RING) x in
  let '(x, base) := xdma_rd dev (PWFPGA_XDMA_C2H_CHANNEL + PWFPGA_XDMA_CH_COMPLETED_COUNT) x in
  let ring_iova := ds_iova d (ds_c2h_ring d) in
  let x := xdma_wr dev (PWFPGA_XDMA_C2H_SGDMA + PWFPGA_XDMA_SG_DESC_ADDR_LO) (u32 ring_iova) x in
  let x := xdma_wr dev (PWFPGA_XDMA_C2H_SGDMA + PWFPGA_XDMA_SG_DESC_ADDR_HI)
             (ring_iova >>> 32) x in
  let x := xdma_wr dev (PWFPGA_XDMA_C2H_SGDMA + PWFPGA_XDMA_SG_DESC_ADJ) 0 x in
  let x := xdma_wr dev (PWFPGA_XDMA_C2H_CHANNEL + PWFPGA_XDMA_CH_CONTROL)
             PWFPGA_XDMA_CTRL_RUN x in
  (x, set_c2h d base 0 (ds_c2h_overrun d) (ds_c2h_err d) true).

(** Which completed frame to read next, given [done] completions since the arm:
    [None] when there is none, else the overrun count and the consumer index
    after skipping what the engine may have overwritten. *)
Definition rx_select (consumed overrun done : Z) : option (Z * Z) :=
  if done <=? consumed then None else
  if PW_DMA_RX_RING <=? u32 (done - consumed) then
    let skipped := u32 (u32 (done - consumed) - (PW_DMA_RX_RING - 1)) in
    Some (u64 (overrun + skipped), u32 (done - (PW_DMA_RX_RING - 1)))
  else Some (overrun, consumed).

(** Decode the RX buffer [rb] into at most [buflen] frame bytes. *)
Definition rx_decode (rb : Z -> Z) (buflen : nat) : rx_frame :=
  let lif := rb 0 ||| (rb 1 <<< 8) ||| (rb 2 <<< 16) ||| (rb 3 <<< 24) in
  let fr := fun i => rb (PW_DMA_HDR_LEN + i) in
  let hdr_len := rb 5 ||| (rb 6 <<< 8) in
  let payload := if ztrue hdr_len then hdr_len
                 else punt_frame_len fr (PW_DMA_FRAME_CAP - PW_DMA_HDR_LEN) in
  let payload := if PW_DMA_FRAME_CAP - PW_DMA_HDR_LEN <? payload
                 then PW_DMA_FRAME_CAP - PW_DMA_HDR_LEN else payload in
  let copy := Z.min payload (Z.of_nat buflen) in
  {| rxf_bytes := fr <$> seqZ 0 copy; rxf_lif := lif; rxf_ts := 0 |}.

Definition rx_buf_at (d : dma_state) (x : X) (idx : Z) (i : Z) : Z :=
  pool_load dev x (ds_rx_bufs d + idx * PW_DMA_FRAME_CAP + i).

(** Note and clear a channel error. *)
Definition rx_status (d : dma_state) (x : X) : X * dma_state :=
  let '(x, st) := xdma_rd dev (PWFPGA_XDMA_C2H_CHANNEL + PWFPGA_XDMA_CH_STATUS) x in
  if ztrue (st &&& PWFPGA_XDMA_STAT_ERR) then
    ((xdma_rd dev (PWFPGA_XDMA_C2H_CHANNEL + PWFPGA_XDMA_CH_STATUS_RC) x).1,
     set_c2h d (ds_c2h_cmpl_base d) (ds_rx_consumed d) (ds_c2h_overrun d)
       (u64 (ds_c2h_err d + 1)) (ds_c2h_armed d))
  else (x, d).

Definition dma_slow_path_rx (d : dma_state) (buflen : nat) (x : X)
    : X * dma_state * option rx_frame :=
  let '(x, d) := if ds_c2h_armed d then (x, d) else dma_arm_c2h d x in
  let '(x, d) := rx_status d x in
  let '(x, cnt) := xdma_rd dev (PWFPGA_XDMA_C2H_CHANNEL + PWFPGA_XDMA_CH_COMPLETED_COUNT) x in
  let done := u32 (cnt - ds_c2h_cmpl_base d) in
  match rx_select (ds_rx_consumed d) (ds_c2h_overrun d) done with
  | None => (x, d, None)
  | Some (overrun, consumed) =>
      let idx := consumed mod PW_DMA_RX_RING in
      let f := rx_decode (rx_buf_at d x idx) buflen in
      (x, set_c2h d (ds_c2h_cmpl_base d) (u32 (consumed + 1)) overrun (ds_c2h_err d)
            (ds_c2h_armed d), Some f)
  end.
End Dma.
