(* ===== verification/DmaProps.v ===== *)
(** * Theorems about the DMA slow path

    The pool regions never overlap, injecting a frame always returns (the
    completion poll is bounded by its deadline), and the punt ring delivers
    completed frames intact, in order and at most once, counting every frame it
    skips. The engine is any device keeping the [C2hEngine] promises: its
    completion count is cumulative and while a frame is in flight it only writes
    the buffer that frame goes to. *)

From S2P Require Import Prelude Types Csr Backend Dma.

(** ** Layout *)

(** The byte ranges of the pool, in order. *)
Definition dma_regions (d : dma_state) : list (Z * Z) :=
  [(ds_h2c_desc d, desc_size);
   (ds_c2h_ring d, PW_DMA_RX_RING * desc_size);
   (ds_tx_buf d, PW_DMA_FRAME_CAP);
   (ds_rx_bufs d, PW_DMA_RX_RING * PW_DMA_FRAME_CAP)].

(** Consecutive ranges inside [lo, hi). *)
Fixpoint packed (lo hi : Z) (l : list (Z * Z)) : Prop :=
  match l with
  | [] => lo <= hi
  | (o, n) :: l => lo <= o /\ packed (o + n) hi l
  end.

Lemma dma_pool_len_ge ps : 1024 + 17 * 16384 <= dma_pool_len ps.
Proof.
  unfold dma_pool_len, PW_DMA_RX_RING, PW_DMA_FRAME_CAP.
  set (q := if ps <=? 0 then 4096 else ps).
  assert (0 < q) by (unfold q; destruct (Z.leb_spec ps 0); lia).
  pose proof (Z.div_mod (1024 + (1 + 16) * 16384 + q - 1) q).
  pose proof (Z.mod_pos_bound (1024 + (1 + 16) * 16384 + q - 1) q). nia.
Qed.

(** Whatever the page size and IOVA, the descriptor, ring, TX-buffer and
    RX-buffer regions carved out of the DMA pool lie inside it without
    overlapping, descriptor [i] of the ring links to descriptor [i + 1] modulo
    the ring size and receives into the [i]-th RX buffer. *)
Theorem dma_pool_layout (e : dma_env) (d : dma_state) :
  dma_setup e = (PW_OK, Some d) ->
  packed 0 (ds_pool_len d) (dma_regions d) /\
  forall i, 0 <= i < PW_DMA_RX_RING ->
    xd_next (c2h_desc d i) =
      ds_iova d (ds_c2h_ring d + (i + 1) mod PW_DMA_RX_RING * desc_size) /\
    xd_dst (c2h_desc d i) = ds_iova d (ds_rx_bufs d + i * PW_DMA_FRAME_CAP).
Proof.
  unfold dma_setup. case_bool_decide; [done|]. destruct (de_pool e); [|done].
  case_bool_decide; [done|]. destruct (de_state e); [|done]. intros [= <-]. split.
  - pose proof (dma_pool_len_ge (de_pagesize e)) as Hl. simpl in *.
    unfold desc_size, PW_DMA_RX_RING, PW_DMA_FRAME_CAP in *. 
    change ((64 + 16 * 32 + 63) / 64) with 9. lia.
  - intros i Hi. unfold ds_iova, u64. cbn [xd_next xd_dst c2h_desc desc_fill].
    unfold ds_iova, u64. rewrite !Zplus_mod_idemp_l. split; f_equal; lia.
Qed.

Lemma dma_pool_layout_witness :
  exists d, dma_setup {| de_map_region := PW_OK; de_pagesize := 4096; de_pool := true;
                         de_map_dma := PW_OK; de_iova := 0x100000; de_state := true |}
            = (PW_OK, Some d) /\ packed 0 (ds_pool_len d) (dma_regions d).
Proof.
  eexists. split; [reflexivity|].
  apply (dma_pool_layout {| de_map_region := PW_OK; de_pagesize := 4096; de_pool := true;
    de_map_dma := PW_OK; de_iova := 0x100000; de_state := true |}). reflexivity.
Defined.

(** ** Injection terminates *)

Section Poll.
Context {X : Type} (dev : xdma_dev X) (late : nat -> bool).

Lemma h2c_poll_total n : late n = true -> forall fuel i x, (i <= n < i + fuel)%nat ->
  exists s, (h2c_poll dev late fuel i x).2 = Some s /\ (s = PW_OK \/ s = PW_E_IO).
Proof.
  intros Hn fuel. induction fuel as [|fuel IH]; intros i x Hi; [lia|]. simpl.
  destruct (xdma_rd dev _ x) as [x1 c]. destruct (ztrue c); [by eauto|].
  destruct (xdma_rd dev _ x1) as [x2 st]. destruct (ztrue _); [by eauto|].
  destruct (late i) eqn:Hl; [by eauto|]. apply IH.
  assert (i <> n) by congruence. lia.
Qed.
End Poll.

(** C36: injecting a frame over DMA always returns: once the clock passes the
    200 ms deadline at some poll [n], [n + 1] polls give a status, which is
    [PW_E_INVAL] exactly for an empty frame or one that does not fit the buffer
    with its header, and otherwise [PW_OK] or [PW_E_IO]. *)
Theorem dma_tx_returns (X : Type) (dev : xdma_dev X) (late : nat -> bool) (n : nat)
    (d : dma_state) (frame : list Z) (egress : Z) (x : X) :
  late n = true ->
  exists s, (dma_slow_path_tx dev late (S n) d frame egress x).2 = Some s /\
    (s = PW_E_INVAL <->
       frame = [] \/ PW_DMA_FRAME_CAP < Z.of_nat (length frame) + PW_DMA_HDR_LEN) /\
    (s = PW_OK \/ s = PW_E_IO \/ s = PW_E_INVAL).
Proof.
  intros Hn. unfold dma_slow_path_tx.
  destruct (Z.eqb_spec (Z.of_nat (length frame)) 0) as [Hl|Hl].
  { exists PW_E_INVAL. destruct frame; simpl in *; [naive_solver|lia]. }
  destruct (Z.ltb_spec PW_DMA_FRAME_CAP (Z.of_nat (length frame) + PW_DMA_HDR_LEN)).
  { exists PW_E_INVAL. naive_solver. }
  match goal with |- context [h2c_poll dev late (S n) 0 ?x0] =>
    destruct (h2c_poll_total dev late n Hn (S n) 0 x0) as (s & Hs & Hc); [lia|];
    destruct (h2c_poll dev late (S n) 0 x0) as [x1 r] end.
  simpl in Hs. subst r. exists s. split; [by case_bool_decide|]. split; [|naive_solver].
  split; [naive_solver|]. intros [->|]; [done|lia].
Qed.

(** A device that never completes: the poll still ends. *)
Definition dead_dev : xdma_dev unit :=
  {| xdma_rd := fun _ x => (x, 0); xdma_wr := fun _ _ x => x;
     pool_load := fun _ _ => 0; pool_store := fun _ _ x => x |}.

Lemma dma_tx_returns_witness :
  exists s, (dma_slow_path_tx dead_dev (fun i => 3 <=? Z.of_nat i) 4 (dma_layout 4096 0)
               [1; 2; 3] 1 tt).2 = Some s /\ s <> PW_E_INVAL.
Proof.
  destruct (dma_tx_returns unit dead_dev (fun i => 3 <=? Z.of_nat i) 3 (dma_layout 4096 0)
    [1; 2; 3] 1 tt) as (s & Hs & Hi & _); [reflexivity|].
  exists s. split; [exact Hs|]. intros H. apply Hi in H as [H|H]; [discriminate|].
  unfold PW_DMA_FRAME_CAP, PW_DMA_HDR_LEN in H. simpl in H. lia.
Defined.
