(* ===== verification/C2hRing.v ===== *)
(** * The punt ring

    The host side of the circular C2H ring ([Dma.dma_slow_path_rx]) run against
    an engine that keeps filling it. The engine is a parameter: [C2hEngine]
    states what the host code relies on (PG195 and the comments of
    [backend_bar.c]). The system interleaves engine activity and host polls in
    any order. *)

From stdpp Require Import sorting.
From S2P Require Import Prelude Types Csr Backend Dma.

(** The address of byte [i] of RX buffer [idx]. *)
Definition rx_addr (rxb idx i : Z) : Z := rxb + idx * PW_DMA_FRAME_CAP + i.

(** An engine armed at completion count [base] with RX buffers at [rxb]:
    [en_log] is the contents of the buffers completed since the arm, oldest
    first, and [en_step] is anything the engine does on its own. *)
Class C2hEngine {X : Type} (dev : xdma_dev X) (base rxb : Z) := {
  en_log : X -> list (Z -> Z);
  en_step : X -> X -> Prop;
  (** the completed-descriptor count is cumulative *)
  en_count : forall x,
    (xdma_rd dev (PWFPGA_XDMA_C2H_CHANNEL + PWFPGA_XDMA_CH_COMPLETED_COUNT) x).2 =
    u32 (base + Z.of_nat (length (en_log x)));
  (** register reads complete no descriptor and move no data *)
  en_read : forall off x, en_log (xdma_rd dev off x).1 = en_log x /\
    forall a, pool_load dev (xdma_rd dev off x).1 a = pool_load dev x a;
  (** a step completes at most one frame, into the buffer in flight *)
  en_step_log : forall x x', en_step x x' -> en_log x' = en_log x \/
    exists f, en_log x' = en_log x ++ [f] /\
      forall i, 0 <= i < PW_DMA_FRAME_CAP ->
        pool_load dev x' (rx_addr rxb (Z.of_nat (length (en_log x)) mod PW_DMA_RX_RING) i) = f i;
  (** a step writes no other RX buffer *)
  en_step_mem : forall x x' idx i, en_step x x' -> 0 <= idx < PW_DMA_RX_RING ->
    idx <> Z.of_nat (length (en_log x)) mod PW_DMA_RX_RING -> 0 <= i < PW_DMA_FRAME_CAP ->
    pool_load dev x' (rx_addr rxb idx i) = pool_load dev x (rx_addr rxb idx i)
}.

Section Ring.
Context {X : Type} (dev : xdma_dev X) (base rxb : Z) {EN : C2hEngine dev base rxb}.
Context (buflen : nat).

Abbreviation total x := (Z.of_nat (length (en_log x))).

(** The host's ring state just after [dma_arm_c2h]. *)
Definition just_armed (d : dma_state) : Prop :=
  ds_c2h_armed d = true /\ ds_c2h_cmpl_base d = base /\ ds_rx_bufs d = rxb /\
  ds_rx_consumed d = 0 /\ ds_c2h_overrun d = 0.

(** Engine steps and host polls in any order; the third component collects the
    frames the host was handed. *)
Inductive reach : X -> dma_state -> list rx_frame -> Prop :=
| reach_arm x d : en_log x = [] -> just_armed d -> reach x d []
| reach_engine x x' d out : reach x d out -> en_step x x' -> reach x' d out
| reach_rx x d out x' d' r : reach x d out -> dma_slow_path_rx dev d buflen x = (x', d', r) ->
    reach x' d' (out ++ option_list r).

(** The [k]-th completed buffer. *)
Definition completed (x : X) (k : Z) (f : Z -> Z) : Prop :=
  0 <= k /\ en_log x !! Z.to_nat k = Some f.

(** Decoding only looks at the buffer's own bytes. *)
Lemma rx_decode_ext (f g : Z -> Z) :
  (forall i, 0 <= i < PW_DMA_FRAME_CAP -> f i = g i) -> rx_decode f buflen = rx_decode g buflen.
Proof.
  intros H. unfold PW_DMA_FRAME_CAP in H. unfold rx_decode, PW_DMA_HDR_LEN, punt_frame_len.
  rewrite (H 0), (H 1), (H 2), (H 3), (H 5), (H 6) by lia. simpl (8 + _).
  rewrite !(H (_ : Z)) by lia. f_equal. apply list_fmap_ext. intros j z Hz.
  apply lookup_seqZ in Hz as [-> Hz]. apply H.
  unfold PW_DMA_FRAME_CAP in Hz. repeat case_match; lia.
Qed.

Lemma rx_select_spec c ov T : 0 <= c <= T -> T < 2 ^ 32 -> 0 <= ov <= c ->
  match rx_select c ov T with
  | None => c = T
  | Some (ov', c') => c <= c' < T /\ T < c' + PW_DMA_RX_RING /\ ov' = ov + (c' - c)
  end.
Proof.
  intros Hc HT Ho. unfold rx_select, PW_DMA_RX_RING. destruct (Z.leb_spec T c); [lia|].
  rewrite (u32_id (T - c)) by (unfold is_w; lia).
  destruct (Z.leb_spec 16 (T - c)); [|lia].
  rewrite !u32_id, u64_id by (unfold is_w; lia). lia.
Qed.

(** The bookkeeping the ring code reads. *)
Definition same_ring (d d' : dma_state) : Prop :=
  ds_c2h_armed d' = ds_c2h_armed d /\ ds_c2h_cmpl_base d' = ds_c2h_cmpl_base d /\
  ds_rx_bufs d' = ds_rx_bufs d.

Lemma rx_status_frame d x x' d' : rx_status dev d x = (x', d') ->
  en_log x' = en_log x /\ (forall a, pool_load dev x' a = pool_load dev x a) /\
  same_ring d d' /\ ds_rx_consumed d' = ds_rx_consumed d /\
  ds_c2h_overrun d' = ds_c2h_overrun d.
Proof.
  unfold rx_status.
  destruct (en_read (PWFPGA_XDMA_C2H_CHANNEL + PWFPGA_XDMA_CH_STATUS) x) as [H1 H2].
  destruct (xdma_rd dev _ x) as [x1 st]. simpl in *. destruct (ztrue _).
  - destruct (en_read (PWFPGA_XDMA_C2H_CHANNEL + PWFPGA_XDMA_CH_STATUS_RC) x1) as [H3 H4].
    intros [= <- <-]. rewrite H3. split_and!; [done| |done..]. intros a. by rewrite H4.
  - intros [= <- <-]. by split_and!.
Qed.

Record ring_inv (x : X) (d : dma_state) (out : list rx_frame) : Prop := {
  ri_armed : ds_c2h_armed d = true;
  ri_base : ds_c2h_cmpl_base d = base;
  ri_bufs : ds_rx_bufs d = rxb;
  ri_mem : forall k f, completed x k f -> total x < k + PW_DMA_RX_RING ->
    forall i, 0 <= i < PW_DMA_FRAME_CAP -> pool_load dev x (rx_addr rxb (k mod PW_DMA_RX_RING) i) = f i;
  ri_consumed : total x < 2 ^ 32 -> 0 <= ds_rx_consumed d <= total x;
  ri_out : total x < 2 ^ 32 -> exists ks, StronglySorted Z.lt ks /\
    Forall (fun k => 0 <= k < ds_rx_consumed d) ks /\
    Forall2 (fun k r => exists f, completed x k f /\ r = rx_decode f buflen) ks out /\
    Z.of_nat (length ks) + ds_c2h_overrun d = ds_rx_consumed d /\ 0 <= ds_c2h_overrun d
}.

Lemma completed_mono x x' l k f : en_log x' = en_log x ++ l -> completed x k f -> completed x' k f.
Proof. intros He [H0 Hk]. split; [done|]. rewrite He. by apply lookup_app_l_Some. Qed.

Lemma inv_engine x x' d out : ring_inv x d out -> en_step x x' -> ring_inv x' d out.
Proof.
  intros [Ha Hb Hr Hm Hc Ho] Hs.
  assert (exists l, en_log x' = en_log x ++ l) as [l Hl].
  { destruct (en_step_log x x' Hs) as [->|(f & -> & _)]; [exists []; by rewrite app_nil_r|by eexists]. }
  assert (Hle : total x <= total x') by (rewrite Hl, length_app; lia).
  split; try done.
  - intros k f [Hk0 Hk] Ht i Hi.
    assert (Hkt : k < total x') by (apply lookup_lt_Some in Hk; lia).
    destruct (decide (k < total x)) as [Hlt|Hge].
    + rewrite (en_step_mem x x') by (first [done | apply Z.mod_pos_bound; lia |
        unfold PW_DMA_RX_RING in *; Z.to_euclidean_division_equations; lia]).
      apply Hm; [|lia|done]. split; [done|]. rewrite Hl, lookup_app_l in Hk by lia. done.
    + destruct (en_step_log x x' Hs) as [He|(g & He & Hg)].
      * rewrite He in Hkt. lia.
      * rewrite He, length_app in Hkt. simpl in Hkt. assert (k = total x) as -> by lia.
        rewrite Hg by done. rewrite He, Nat2Z.id, list_lookup_middle in Hk by done. congruence.
  - intros Ht. specialize (Hc ltac:(lia)). lia.
  - intros Ht. destruct (Ho ltac:(lia)) as (ks & ? & ? & Hf & ? & ?). exists ks.
    split_and!; try done. eapply Forall2_impl; [exact Hf|]. intros k r (f & Hf' & ->).
    exists f. split; [by eapply completed_mono|done].
Qed.

Lemma done_total T : 0 <= T < 2 ^ 32 -> u32 (u32 (base + T) - base) = T.
Proof.
  intros HT. unfold u32. rewrite Zminus_mod_idemp_l.
  replace (base + T - base) with T by lia. by apply Z.mod_small.
Qed.

(** One poll: what it returns and how the counters move. *)
Lemma rx_poll x d out x' d' r : ring_inv x d out -> total x < 2 ^ 32 ->
  dma_slow_path_rx dev d buflen x = (x', d', r) ->
  en_log x' = en_log x /\ (forall a, pool_load dev x' a = pool_load dev x a) /\ same_ring d d' /\
  match r with
  | None => ds_rx_consumed d = total x /\ ds_rx_consumed d' = ds_rx_consumed d /\
            ds_c2h_overrun d' = ds_c2h_overrun d
  | Some f => exists k g, completed x k g /\ f = rx_decode g buflen /\
      ds_rx_consumed d <= k /\ ds_rx_consumed d' = k + 1 /\
      ds_c2h_overrun d' = ds_c2h_overrun d + (k - ds_rx_consumed d)
  end.
Proof.
  intros [Ha Hb Hr Hm Hc Ho] HT. specialize (Hc HT).
  destruct (Ho HT) as (ks & _ & _ & _ & Hlen & Hov). unfold dma_slow_path_rx. rewrite Ha.
  destruct (rx_status dev d x) as [x1 d1] eqn:Es.
  destruct (rx_status_frame _ _ _ _ Es) as (L1 & M1 & (A1 & B1 & R1) & C1 & O1).
  destruct (en_read (PWFPGA_XDMA_C2H_CHANNEL + PWFPGA_XDMA_CH_COMPLETED_COUNT) x1) as [L2 M2].
  pose proof (en_count x1) as Hn. destruct (xdma_rd dev _ x1) as [x2 cnt]. simpl in L2, M2, Hn.
  rewrite Hn, L1, B1, Hb, done_total, C1, O1 by lia.
  pose proof (rx_select_spec (ds_rx_consumed d) (ds_c2h_overrun d) (total x)) as Hsel.
  specialize (Hsel Hc HT ltac:(lia)).
  destruct (rx_select _ _ _) as [[ov c]|]; intros [= <- <- <-].
  - destruct Hsel as (Hc1 & Hc2 & ->). rewrite L2, L1. split_and!; try done.
    { intros a. by rewrite M2, M1. }
    destruct (en_log x !! Z.to_nat c) as [g|] eqn:Eg; [|apply lookup_ge_None in Eg; lia].
    assert (completed x c g) as Hg by (split; [lia|done]).
    exists c, g. split; [done|]. split; [|split; [lia|split; [|done]]].
    + apply rx_decode_ext. intros i Hi. unfold rx_buf_at. rewrite R1, Hr, M2, M1.
      by apply (Hm c g).
    + simpl. apply u32_id. unfold is_w. lia.
  - rewrite L2, L1. split_and!; try done. intros a. by rewrite M2, M1.
Qed.

(** Which frame a poll takes. *)
Lemma rx_poll_index x d out x' d' r : ring_inv x d out -> total x < 2 ^ 32 ->
  dma_slow_path_rx dev d buflen x = (x', d', r) -> forall f, r = Some f ->
  ds_rx_consumed d' = 1 + if PW_DMA_RX_RING <=? total x - ds_rx_consumed d
                          then total x - (PW_DMA_RX_RING - 1) else ds_rx_consumed d.
Proof.
  intros [Ha Hb Hr Hm Hc Ho] HT. specialize (Hc HT). unfold dma_slow_path_rx. rewrite Ha.
  destruct (rx_status dev d x) as [x1 d1] eqn:Es.
  destruct (rx_status_frame _ _ _ _ Es) as (L1 & M1 & (A1 & B1 & R1) & C1 & O1).
  pose proof (en_count x1) as Hn. destruct (xdma_rd dev _ x1) as [x2 cnt]. simpl in Hn.
  rewrite Hn, L1, B1, Hb, done_total, C1, O1 by lia. unfold rx_select, PW_DMA_RX_RING.
  destruct (Z.leb_spec (total x) (ds_rx_consumed d)); [by intros [= <- <- <-]|].
  rewrite (u32_id (total x - _)) by (unfold is_w; lia).
  destruct (Z.leb_spec 16 (total x - ds_rx_consumed d)); intros [= <- <- <-] f _; simpl.
  - rewrite (u32_id (total x - 15)), u32_id by (unfold is_w; lia). lia.
  - rewrite u32_id by (unfold is_w; lia). lia.
Qed.

Lemma inv_rx x d out x' d' r : ring_inv x d out -> total x < 2 ^ 32 ->
  dma_slow_path_rx dev d buflen x = (x', d', r) -> ring_inv x' d' (out ++ option_list r).
Proof.
  intros Hi HT Hrx.
  destruct (rx_poll _ _ _ _ _ _ Hi HT Hrx) as (L & M & (A & B & R) & Hp).
  destruct Hi as [Ha Hb Hr Hm Hc Ho]. specialize (Hc HT).
  destruct (Ho HT) as (ks & Hs & Hk & Hf & Hlen & Hov).
  assert (forall k f, completed x' k f <-> completed x k f) as Hcp
    by (intros; unfold completed; by rewrite L).
  assert (Hf' : Forall2 (fun k r => exists f, completed x' k f /\ r = rx_decode f buflen) ks out).
  { eapply Forall2_impl; [exact Hf|]. intros k y (f & ? & ->). exists f. by rewrite Hcp. }
  split; [congruence..| | |].
  - intros k f Hkf Ht i Hi. rewrite M. apply Hm; [by rewrite <- Hcp|by rewrite <- L|done].
  - intros _. rewrite L. destruct r as [f|]; [|destruct Hp as (? & -> & _); lia].
    destruct Hp as (k & g & [Hg0 Hg] & _ & ? & -> & _). apply lookup_lt_Some in Hg. lia.
  - intros _. destruct r as [f|]; simpl.
    + destruct Hp as (k & g & Hg & -> & Hle & -> & ->). exists (ks ++ [k]).
      split_and!; [|apply Forall_app_2; [|by repeat constructor; lia]| | |lia].
      * apply StronglySorted_app_2; [| |repeat constructor]; [|done].
        intros a b Hin Hb'%list_elem_of_singleton. subst b. rewrite Forall_forall in Hk. specialize (Hk _ Hin). lia.
      * eapply Forall_impl; [exact Hk|]. simpl. lia.
      * apply Forall2_app; [done|]. constructor; [|constructor]. exists g. by rewrite Hcp.
      * rewrite length_app. simpl. lia.
    + destruct Hp as (? & -> & ->). rewrite app_nil_r. by exists ks.
Qed.

Lemma rx_keeps x d x' d' r : ds_c2h_armed d = true ->
  dma_slow_path_rx dev d buflen x = (x', d', r) ->
  ds_c2h_armed d' = true /\ en_log x' = en_log x.
Proof.
  intros Ha. unfold dma_slow_path_rx. rewrite Ha.
  destruct (rx_status dev d x) as [x1 d1] eqn:Es.
  destruct (rx_status_frame _ _ _ _ Es) as (L1 & _ & (A1 & _) & _).
  destruct (en_read (PWFPGA_XDMA_C2H_CHANNEL + PWFPGA_XDMA_CH_COMPLETED_COUNT) x1) as [L2 _].
  destruct (xdma_rd dev _ x1) as [x2 cnt]. simpl in L2.
  destruct (rx_select _ _ _) as [[ov c]|]; intros [= <- <- _]; simpl; split; congruence.
Qed.

Lemma reach_armed x d out : reach x d out -> ds_c2h_armed d = true.
Proof.
  induction 1 as [x d _ [Ha _]| |x d out x' d' r _ IH Hrx]; [done|done|].
  by apply (rx_keeps _ _ _ _ _ IH Hrx).
Qed.

Lemma reach_inv x d out : reach x d out -> total x < 2 ^ 32 -> ring_inv x d out.
Proof.
  intros H. induction H as [x d He (Ha & Hb & Hr & Hc & Ho)|x x' d out H IH Hs
    |x d out x' d' r H IH Hrx]; intros HT.
  - split; try done.
    + intros k f [_ Hk]. by rewrite He in Hk.
    + rewrite Hc, He. simpl. lia.
    + intros _. exists []. rewrite Ho, Hc. split_and!; try constructor; done.
  - eapply inv_engine; [apply IH|done].
    destruct (en_step_log x x' Hs) as [He|(f & He & _)]; rewrite He in HT; [done|].
    rewrite length_app in HT. simpl in HT. lia.
  - destruct (rx_keeps _ _ _ _ _ (reach_armed _ _ _ H) Hrx) as [_ Hl]. rewrite Hl in HT.
    eapply inv_rx; eauto.
Qed.


(** A poll hands over a frame exactly when a completed frame is waiting, and
    then drops frames only when the backlog had reached the ring size: the frame
    is the oldest one waiting, or one at most 15 completions behind the engine. *)
Theorem punt_ring_poll (x : X) (d : dma_state) (out : list rx_frame)
    (x' : X) (d' : dma_state) (r : option rx_frame) :
  reach x d out -> total x < 2 ^ 32 -> dma_slow_path_rx dev d buflen x = (x', d', r) ->
  (r = None <-> ds_rx_consumed d = total x) /\
  forall f, r = Some f -> exists k g, completed x k g /\ f = rx_decode g buflen /\
    ds_rx_consumed d' = k + 1 /\
    (total x - ds_rx_consumed d < PW_DMA_RX_RING -> k = ds_rx_consumed d) /\
    (PW_DMA_RX_RING <= total x - ds_rx_consumed d -> k = total x - (PW_DMA_RX_RING - 1)).
Proof.
  intros H HT Hrx. pose proof (reach_inv _ _ _ H HT) as Hi.
  destruct (rx_poll _ _ _ _ _ _ Hi HT Hrx) as (_ & _ & _ & Hp).
  pose proof (rx_poll_index _ _ _ _ _ _ Hi HT Hrx) as Hx. split.
  - destruct r as [f|]; [|by destruct Hp as [? _]]. split; [done|]. intros E.
    destruct Hp as (k & g & [_ Hg] & _ & Hle & _). apply lookup_lt_Some in Hg. lia.
  - intros f ->. destruct Hp as (k & g & Hg & -> & _ & Hk & _). exists k, g.
    specialize (Hx _ eq_refl). revert Hx.
    destruct (Z.leb_spec PW_DMA_RX_RING (total x - ds_rx_consumed d)); intros Hx;
      split_and!; try done; lia.
Qed.
End Ring.

(** ** A concrete engine *)

(** Registers count completions, and [complete] writes a frame into the buffer
    in flight. *)
Definition toy_dev : xdma_dev (list (Z -> Z) * (Z -> Z)) :=
  {| xdma_rd := fun off x =>
       (x, if off =? PWFPGA_XDMA_C2H_CHANNEL + PWFPGA_XDMA_CH_COMPLETED_COUNT
           then u32 (7 + Z.of_nat (length x.1)) else 0);
     xdma_wr := fun _ _ x => x;
     pool_load := fun x a => x.2 a;
     pool_store := fun o l x => (x.1, fun a =>
       if (o <=? a) && (a <? o + Z.of_nat (length l)) then nth (Z.to_nat (a - o)) l 0 else x.2 a) |}.

Definition complete (f : Z -> Z) (x : list (Z -> Z) * (Z -> Z)) : list (Z -> Z) * (Z -> Z) :=
  let b := Z.of_nat (length x.1) mod PW_DMA_RX_RING * PW_DMA_FRAME_CAP in
  (x.1 ++ [f], fun a => if (b <=? a) && (a <? b + PW_DMA_FRAME_CAP) then f (a - b) else x.2 a).

#[export, refine] Instance toy_engine : C2hEngine toy_dev 7 0 :=
  {| en_log := fst; en_step := fun x x' => exists f, x' = complete f x |}.
Proof.
  - intros x. reflexivity.
  - intros off x. done.
  - intros x x' [f ->]. right. exists f. split; [done|]. intros i Hi. simpl. unfold rx_addr.
    replace (0 + _ + i) with (Z.of_nat (length x.1) mod PW_DMA_RX_RING * PW_DMA_FRAME_CAP + i) by lia.
    rewrite (proj2 (Z.leb_le _ _)), (proj2 (Z.ltb_lt _ _)) by lia. simpl. f_equal. lia.
  - intros x x' idx i [f ->] Hidx Hne Hi. simpl. unfold rx_addr in *.
    destruct (Z.leb_spec (Z.of_nat (length x.1) mod PW_DMA_RX_RING * PW_DMA_FRAME_CAP)
      (0 + idx * PW_DMA_FRAME_CAP + i)); [|done].
    destruct (Z.ltb_spec (0 + idx * PW_DMA_FRAME_CAP + i)
      (Z.of_nat (length x.1) mod PW_DMA_RX_RING * PW_DMA_FRAME_CAP + PW_DMA_FRAME_CAP)); [|done].
    exfalso. unfold PW_DMA_FRAME_CAP in *. lia.
Defined.

(** A punted ARP frame of 42 bytes on logical interface 5. *)
Definition toy_frame (i : Z) : Z :=
  if i =? 0 then 5 else if i =? 5 then 42 else if i <? 8 then 0 else i mod 256.
Definition toy_armed : dma_state :=
  {| ds_pool_len := 0; ds_pool_iova := 0; ds_h2c_desc := 0; ds_tx_buf := 0; ds_c2h_ring := 0;
     ds_rx_bufs := 0; ds_h2c_cmpl_base := 0; ds_c2h_cmpl_base := 7; ds_rx_consumed := 0;
     ds_c2h_overrun := 0; ds_c2h_err := 0; ds_c2h_armed := true |}.

Definition toy_x1 : list (Z -> Z) * (Z -> Z) := complete toy_frame ([], fun _ => 0).
Definition toy_run : (list (Z -> Z) * (Z -> Z)) * dma_state * option rx_frame :=
  dma_slow_path_rx toy_dev toy_armed 2048 toy_x1.

Lemma toy_reach1 : reach toy_dev 7 0 2048 toy_x1 toy_armed [].
Proof.
  eapply (reach_engine _ _ _ _ ([], fun _ => 0)); [|by exists toy_frame].
  by constructor.
Qed.

Lemma toy_reach2 : reach toy_dev 7 0 2048 toy_run.1.1 toy_run.1.2 (option_list toy_run.2).
Proof.
  apply (reach_rx _ _ _ _ _ _ _ _ _ _ toy_reach1). unfold toy_run.
  by destruct (dma_slow_path_rx _ _ _ _) as [[? ?] ?].
Qed.


Lemma punt_ring_poll_witness :
  exists f, toy_run.2 = Some f /\ ds_rx_consumed toy_run.1.2 = 1 /\
    (toy_run.2 = None <-> 0 = 1).
Proof.
  eexists. split; [reflexivity|]. split; [reflexivity|].
  apply (punt_ring_poll toy_dev 7 0 2048 toy_x1 toy_armed [] toy_run.1.1 toy_run.1.2 toy_run.2
    toy_reach1); reflexivity.
Defined.

(** ** After the counter wraps *)

(** The polls the driver makes one after the other, with the frames they hand over;
    [n] polls, the engine free to act between them ([act]). *)
Fixpoint poll_n {X : Type} (dev : xdma_dev X) (act : X -> X) (buflen n : nat)
    (d : dma_state) (x : X) : X * dma_state * list rx_frame :=
  match n with
  | O => (x, d, [])
  | S n =>
      let '(x, d, r) := dma_slow_path_rx dev d buflen (act x) in
      let '(x, d, rs) := poll_n dev act buflen n d x in
      (x, d, option_list r ++ rs)
  end.

Lemma poll_at_wrap (X : Type) (dev : xdma_dev X) (d : dma_state) (buflen : nat) (x : X) :
  ds_c2h_armed d = true -> ds_rx_consumed d = 2 ^ 32 - 1 ->
  (dma_slow_path_rx dev d buflen x).2 = None /\
  ds_c2h_armed (dma_slow_path_rx dev d buflen x).1.2 = true /\
  ds_rx_consumed (dma_slow_path_rx dev d buflen x).1.2 = 2 ^ 32 - 1.
Proof.
  intros Ha Hc. unfold dma_slow_path_rx. rewrite Ha.
  assert (ds_rx_consumed (rx_status dev d x).2 = 2 ^ 32 - 1 /\
          ds_c2h_armed (rx_status dev d x).2 = true) as [H1 H2].
  { unfold rx_status. destruct (xdma_rd dev _ x) as [? ?]. by destruct (ztrue _). }
  destruct (rx_status dev d x) as [x1 d1]. simpl in H1, H2.
  destruct (xdma_rd dev _ x1) as [x2 cnt]. rewrite H1. unfold rx_select.
  pose proof (u32_w (cnt - ds_c2h_cmpl_base d1)) as Hw. unfold is_w in Hw.
  rewrite (proj2 (Z.leb_le _ _)) by lia. done.
Qed.

(** The consumer index is compared with the completion count as 32-bit
    numbers, so once the index is [2^32 - 1] no later poll hands over a frame
    again, however many are made and whatever the engine does between them. *)
Theorem punt_stalls_at_wrap (X : Type) (dev : xdma_dev X) (act : X -> X) (buflen n : nat)
    (d : dma_state) (x : X) :
  ds_c2h_armed d = true -> ds_rx_consumed d = 2 ^ 32 - 1 ->
  (poll_n dev act buflen n d x).2 = [] /\
  ds_rx_consumed (poll_n dev act buflen n d x).1.2 = 2 ^ 32 - 1.
Proof.
  revert d x. induction n as [|n IH]; intros d x Ha Hc; [done|]. simpl.
  destruct (poll_at_wrap X dev d buflen (act x) Ha Hc) as (Hr & Ha' & Hc').
  destruct (dma_slow_path_rx dev d buflen (act x)) as [[x1 d1] r]. simpl in *. subst r.
  destruct (IH d1 x1 Ha' Hc') as [H1 H2].
  by destruct (poll_n dev act buflen n d1 x1) as [[x2 d2] rs].
Qed.

(** The toy engine's driver state with its consumer index at the last value,
    three more frames completing one before each poll. *)
Definition toy_wrapped : dma_state :=
  set_c2h toy_armed 0 (2 ^ 32 - 1) 0 0 true.

Lemma punt_stalls_at_wrap_witness :
  (poll_n toy_dev (complete toy_frame) 2048 3 toy_wrapped ([], fun _ => 0)).2 = [] /\
  ds_rx_consumed (poll_n toy_dev (complete toy_frame) 2048 3 toy_wrapped ([], fun _ => 0)).1.2
    = 2 ^ 32 - 1.
Proof. apply punt_stalls_at_wrap; reflexivity. Defined.

(** A frame of unknown type from a bitstream without in-band lengths is taken off
    the ring with no bytes: there is no fallback length. *)
Theorem unknown_punt_lost (rb : Z -> Z) (buflen : nat) :
  rb 5 = 0 -> rb 6 = 0 -> rb 20 = 0x88 -> rb 21 = 0xCC -> rxf_bytes (rx_decode rb buflen) = [].
Proof.
  intros H5 H6 H20 H21. unfold rx_decode, punt_frame_len, PW_DMA_HDR_LEN, PW_DMA_FRAME_CAP.
  cbv beta zeta. change (8 + 12) with 20. change (8 + 13) with 21.
  rewrite H5, H6, H20, H21. simpl. by rewrite Z.min_l by lia.
Qed.
