(* ===== verification/BackendBar.v ===== *)
(** * The BAR backend

    Models [sw/libpacketwyrm/src/backend_bar.c] outside the DMA engine (see
    [Dma]): CSR access through the mapped BAR with its range check, the flow
    table, statistics and histogram windows, the register-window slow path, and
    attaching to a mapping. The FPGA behind the mapping is a parameter: a 32-bit
    load and store at a byte offset of the mapping. A load or store outside the
    mapping is undefined in C; the context records it in [bc_fault]. *)

From S2P Require Import Prelude Types Csr Backend Dma.

(** ** Slow-path windows of the legacy bitstream *)

Definition PWFPGA_CSR_DMA_OFFSET : Z := 0x10000.
Definition PWFPGA_WIN_PUNT_RX : Z := 0x1000.
Definition PWFPGA_REG_PUNT_STATUS : Z := PWFPGA_WIN_PUNT_RX + 0x000.
Definition PWFPGA_REG_PUNT_INFO : Z := PWFPGA_WIN_PUNT_RX + 0x004.
Definition PWFPGA_REG_PUNT_LIF : Z := PWFPGA_WIN_PUNT_RX + 0x008.
Definition PWFPGA_REG_PUNT_POP : Z := PWFPGA_WIN_PUNT_RX + 0x00C.
Definition PWFPGA_REG_PUNT_RX_TS_LOW : Z := PWFPGA_WIN_PUNT_RX + 0x010.
Definition PWFPGA_REG_PUNT_RX_TS_HIGH : Z := PWFPGA_WIN_PUNT_RX + 0x014.
Definition PWFPGA_PUNT_DATA : Z := PWFPGA_WIN_PUNT_RX + 0x020.
Definition PWFPGA_PUNT_MAX_FRAME : Z := 2048.
Definition PWFPGA_PUNT_STATUS_VALID : Z := 1 <<< 0.
Definition PWFPGA_PUNT_INFO_LEN_MASK : Z := 0x3FFF.
Definition PWFPGA_WIN_INJECT_TX : Z := 0x0D00.
Definition PWFPGA_REG_INJECT_CTRL : Z := PWFPGA_WIN_INJECT_TX + 0x000.
Definition PWFPGA_REG_INJECT_INFO : Z := PWFPGA_WIN_INJECT_TX + 0x004.
Definition PWFPGA_INJECT_DATA : Z := PWFPGA_WIN_INJECT_TX + 0x040.
Definition PWFPGA_INJECT_MAX_FRAME : Z := 512.
Definition PWFPGA_INJECT_CTRL_GO : Z := 1 <<< 0.
Definition PWFPGA_INJECT_STATUS_BUSY : Z := 1 <<< 0.
Definition PWFPGA_INJECT_INFO_EGRESS_SHIFT : Z := 16.
Definition INJECT_SPINS : nat := Z.to_nat 100000.

(** ** Packed statistics *)

(** Field sizes in declaration order (no padding on a 64-bit ABI). *)
Definition port_stats_sizes : list nat := replicate 8 8%nat ++ replicate 6 4%nat.
Definition flow_stats_sizes : list nat :=
  replicate 10 8%nat ++ [4; 4; 8; 8; 4; 4; 8]%nat.

(** Little-endian integers of the given sizes. *)
Fixpoint read_ints (sizes : list nat) (bs : list Z) : list Z :=
  match sizes with
  | [] => []
  | n :: rest => le_val (take n bs) :: read_ints rest (drop n bs)
  end.

Definition port_stats_of_ints (l : list Z) : pw_port_stats :=
  let g := fun i => nth i l 0 in
  {| ps_rx_frames := g 0%nat; ps_rx_bytes := g 1%nat; ps_rx_fcs_error := g 2%nat;
     ps_rx_bad_frame := g 3%nat; ps_rx_oversize := g 4%nat; ps_rx_undersize := g 5%nat;
     ps_tx_frames := g 6%nat; ps_tx_bytes := g 7%nat; ps_link_up_count := g 8%nat;
     ps_link_down_count := g 9%nat; ps_block_lock_loss := g 10%nat; ps_rx_unmatched := g 11%nat;
     ps_last_unmatched_ctx := g 12%nat; ps_last_unmatched_flowid := g 13%nat |}.

Definition flow_stats_of_ints (l : list Z) : pw_flow_stats :=
  let g := fun i => nth i l 0 in
  {| fs_tx_frames := g 0%nat; fs_tx_bytes := g 1%nat; fs_rx_frames := g 2%nat;
     fs_rx_bytes := g 3%nat; fs_last_sequence := g 4%nat; fs_sequence_gap_count := g 5%nat;
     fs_lost_packets_estimated := g 6%nat; fs_duplicate_count := g 7%nat;
     fs_out_of_order_count := g 8%nat; fs_late_packet_count := g 9%nat;
     fs_min_latency := g 10%nat; fs_max_latency := g 11%nat; fs_sum_latency := g 12%nat;
     fs_sample_count := g 13%nat; fs_jitter_min := g 14%nat; fs_jitter_max := g 15%nat;
     fs_jitter_sum := g 16%nat |}.

Definition sizeof_port_stats : Z := 88.
Definition sizeof_flow_stats : Z := 120.
Definition sizeof_flow_config : Z := 244.

(** ** The context *)

(** A 32-bit load and store at a byte offset of the mapping. *)
Record bar_dev (D : Type) := {
  bd_rd : Z -> D -> D * Z;
  bd_wr : Z -> Z -> D -> D
}.
Arguments bd_rd {D}.
Arguments bd_wr {D}.

Record bar_ctx (D X : Type) := {
  bc_size : Z;
  bc_csr_off : Z;
  bc_dma : option dma_state;
  bc_dev : D;
  bc_xdma : X;
  bc_fault : bool
}.
Arguments bc_size {D X}.
Arguments bc_csr_off {D X}.
Arguments bc_dma {D X}.
Arguments bc_dev {D X}.
Arguments bc_xdma {D X}.
Arguments bc_fault {D X}.

Section Bar.
Context {D X : Type} (dev : bar_dev D) (xdev : xdma_dev X).
(** The clock of the H2C completion poll, and a poll at which the deadline has
    passed. *)
Context (late : nat -> bool) (deadline : nat).

Abbreviation ctx := (bar_ctx D X).

Definition set_dev (c : ctx) (d : D) (fault : bool) : ctx :=
  {| bc_size := bc_size c; bc_csr_off := bc_csr_off c; bc_dma := bc_dma c; bc_dev := d;
     bc_xdma := bc_xdma c; bc_fault := fault |}.
Definition set_dma (c : ctx) (s : option dma_state) (x : X) : ctx :=
  {| bc_size := bc_size c; bc_csr_off := bc_csr_off c; bc_dma := s; bc_dev := bc_dev c;
     bc_xdma := x; bc_fault := bc_fault c |}.

(** The word at [addr] lies inside the mapping. *)
Definition mapped (c : ctx) (addr : Z) : bool := (0 <=? addr) && (addr + 4 <=? bc_size c).

(** [*reg_at(c, off)], read and written. *)
Definition reg_rd (off : Z) (c : ctx) : ctx * Z :=
  let addr := bc_csr_off c + off in
  let '(d, v) := bd_rd dev addr (bc_dev c) in
  (set_dev c d (bc_fault c || negb (mapped c addr)), v).
Definition reg_wr (off v : Z) (c : ctx) : ctx :=
  let addr := bc_csr_off c + off in
  set_dev c (bd_wr dev addr v (bc_dev c)) (bc_fault c || negb (mapped c addr)).

Definition csr_range_ok (c : ctx) (off len : Z) : bool :=
  let end_ := u64 (bc_csr_off c + off + len) in
  (off <=? end_) && (end_ <=? bc_size c).

Definition bar_read32 (off : Z) (c : ctx) : ctx * (pw_status * Z) :=
  if negb (csr_range_ok c off 4) then (c, (PW_E_OUT_OF_RANGE, 0)) else
  let '(c, v) := reg_rd off c in (c, (PW_OK, v)).

Definition bar_write32 (off v : Z) (c : ctx) : ctx * pw_status :=
  if negb (csr_range_ok c off 4) then (c, PW_E_OUT_OF_RANGE) else (reg_wr off v c, PW_OK).

Definition bar_card_info (c : ctx) : ctx * (pw_status * pw_card_info) :=
  let '(c, device_id) := reg_rd PWFPGA_REG_DEVICE_ID c in
  let '(c, version) := reg_rd PWFPGA_REG_VERSION c in
  let '(c, build_id) := reg_rd PWFPGA_REG_BUILD_ID c in
  let '(c, git_hash) := reg_rd PWFPGA_REG_GIT_HASH c in
  let '(c, capabilities) := reg_rd PWFPGA_REG_CAPABILITIES c in
  let '(c, ports) := reg_rd PWFPGA_REG_NUM_LOCAL_PORTS c in
  let '(c, flows) := reg_rd PWFPGA_REG_NUM_LOCAL_FLOWS c in
  let '(c, lifs) := reg_rd PWFPGA_REG_NUM_LOGICAL_IFS c in
  let '(c, entries) := reg_rd PWFPGA_REG_NUM_CLASSIFIER c in
  (c, (PW_OK, {| ci_device_id := device_id; ci_version := version; ci_build_id := build_id;
                 ci_git_hash := git_hash; ci_capabilities := capabilities;
                 ci_num_local_ports := u16 ports; ci_num_local_flows := u16 flows;
                 ci_num_logical_interfaces := u16 lifs;
                 ci_num_classifier_entries := u16 entries |})).

(** ** Word copies *)

(** Whole words, then the tail zero-padded to a word. *)
Fixpoint bar_copy_words (off : Z) (bs : list Z) (c : ctx) : ctx :=
  match bs with
  | [] => c
  | b0 :: b1 :: b2 :: b3 :: rest =>
      bar_copy_words (off + 4) rest (reg_wr off (le_val [b0; b1; b2; b3]) c)
  | tail => reg_wr off (le_val tail) c
  end.

Fixpoint bar_copy_words_out (off : Z) (nbytes : nat) (c : ctx) : ctx * list Z :=
  match nbytes with
  | O => (c, [])
  | S (S (S (S n))) =>
      let '(c, v) := reg_rd off c in
      let '(c, bs) := bar_copy_words_out (off + 4) n c in
      (c, le_bytes 4 v ++ bs)
  | n => let '(c, v) := reg_rd off c in (c, take n (le_bytes 4 v))
  end.

(** ** Table windows *)

Definition bar_flow_write (row : Z) (f : pwfpga_flow_config) (c : ctx) : ctx * pw_status :=
  let base := PWFPGA_WIN_FLOW_TABLE + row * PWFPGA_FLOW_STRIDE in
  if PWFPGA_REG_FLOW_COMMIT <? base + sizeof_flow_config then (c, PW_E_OUT_OF_RANGE) else
  if negb (csr_range_ok c base sizeof_flow_config) then (c, PW_E_OUT_OF_RANGE) else
  (bar_copy_words (u32 base) (flow_config_bytes f) c, PW_OK).

Definition bar_flow_commit (c : ctx) : ctx * pw_status :=
  if negb (csr_range_ok c PWFPGA_REG_FLOW_COMMIT 4) then (c, PW_E_OUT_OF_RANGE) else
  let c := reg_wr PWFPGA_REG_FLOW_COMMIT 1 c in
  let '(c, _) := reg_rd PWFPGA_REG_FLOW_COMMIT c in (c, PW_OK).

Definition bar_stats_snapshot (c : ctx) : ctx * pw_status :=
  if negb (csr_range_ok c PWFPGA_REG_STATS_SNAPSHOT_TRIGGER 4) then (c, PW_E_OUT_OF_RANGE) else
  (reg_wr PWFPGA_REG_STATS_SNAPSHOT_TRIGGER 1 c, PW_OK).

Definition bar_port_stats_read (local_port : Z) (c : ctx) : ctx * M pw_port_stats :=
  if Z.of_nat PW_PORTS_PER_CARD <=? local_port then (c, Err (fail_bare PW_E_INVAL)) else
  let base := PWFPGA_WIN_STATS_SNAPSHOT + local_port * PWFPGA_PORT_STATS_STRIDE in
  if negb (csr_range_ok c base sizeof_port_stats) then (c, Err (fail_bare PW_E_OUT_OF_RANGE)) else
  let '(c, bs) := bar_copy_words_out (u32 base) (Z.to_nat sizeof_port_stats) c in
  (c, Ok (port_stats_of_ints (read_ints port_stats_sizes bs))).

Definition bar_flow_stats_read (lfid : Z) (c : ctx) : ctx * M pw_flow_stats :=
  if PWFPGA_FLOW_STATS_SLOTS <=? lfid then (c, Err (fail_bare PW_E_OUT_OF_RANGE)) else
  let base := PWFPGA_WIN_STATS_SNAPSHOT + PWFPGA_FLOW_STATS_BASE +
              lfid * PWFPGA_FLOW_STATS_STRIDE in
  if negb (csr_range_ok c base sizeof_flow_stats) then (c, Err (fail_bare PW_E_OUT_OF_RANGE)) else
  let '(c, bs) := bar_copy_words_out (u32 base) (Z.to_nat sizeof_flow_stats) c in
  (c, Ok (flow_stats_of_ints (read_ints flow_stats_sizes bs))).

(** The buckets read; their number is [*n_buckets_out]. *)
Definition bar_flow_hist_read (lfid : Z) (n_buckets : nat) (c : ctx) : ctx * M (list Z) :=
  if PWFPGA_FLOW_HIST_SLOTS <=? lfid then (c, Err (fail_bare PW_E_OUT_OF_RANGE)) else
  let base := PWFPGA_WIN_HISTOGRAM + lfid * PWFPGA_FLOW_HIST_STRIDE in
  let cap := Z.to_nat (PWFPGA_FLOW_HIST_STRIDE / 8) in
  let n := if (cap <? n_buckets)%nat then cap else n_buckets in
  if negb (csr_range_ok c base (Z.of_nat n * 8)) then (c, Err (fail_bare PW_E_OUT_OF_RANGE)) else
  let '(c, bs) := bar_copy_words_out (u32 base) (n * 8) c in
  (c, Ok (read_ints (replicate n 8%nat) bs)).

(** ** Slow path *)

Definition bar_slow_path_rx (buflen : nat) (c : ctx) : ctx * M (option rx_frame) :=
  match bc_dma c with
  | Some s =>
      let '(x, s, r) := dma_slow_path_rx xdev s buflen (bc_xdma c) in
      (set_dma c (Some s) x, Ok r)
  | None =>
      if negb (csr_range_ok c PWFPGA_WIN_PUNT_RX
                 ((PWFPGA_PUNT_DATA - PWFPGA_WIN_PUNT_RX) + PWFPGA_PUNT_MAX_FRAME))
      then (c, Err (fail_bare PW_E_OUT_OF_RANGE)) else
      let '(c, st) := reg_rd PWFPGA_REG_PUNT_STATUS c in
      if negb (ztrue (st &&& PWFPGA_PUNT_STATUS_VALID)) then (c, Ok None) else
      let '(c, info) := reg_rd PWFPGA_REG_PUNT_INFO c in
      let len := info &&& PWFPGA_PUNT_INFO_LEN_MASK in
      let '(c, lif) := reg_rd PWFPGA_REG_PUNT_LIF c in
      let '(c, lo) := reg_rd PWFPGA_REG_PUNT_RX_TS_LOW c in
      let '(c, hi) := reg_rd PWFPGA_REG_PUNT_RX_TS_HIGH c in
      let len := if PWFPGA_PUNT_MAX_FRAME <? len then PWFPGA_PUNT_MAX_FRAME else len in
      let copy := if (buflen <? Z.to_nat len)%nat then buflen else Z.to_nat len in
      let '(c, bs) := bar_copy_words_out PWFPGA_PUNT_DATA copy c in
      let c := reg_wr PWFPGA_REG_PUNT_POP 1 c in
      (c, Ok (Some {| rxf_bytes := bs; rxf_lif := lif; rxf_ts := lo ||| (hi <<< 32) |}))
  end.

(** Poll [INJECT_CTRL] at most [n] times; [true] when it was seen idle. *)
Fixpoint inject_wait (n : nat) (c : ctx) : ctx * bool :=
  match n with
  | O => (c, false)
  | S n =>
      let '(c, v) := reg_rd PWFPGA_REG_INJECT_CTRL c in
      if negb (ztrue (v &&& PWFPGA_INJECT_STATUS_BUSY)) then (c, true) else inject_wait n c
  end.

Definition bar_slow_path_tx (frame : list Z) (logical_if_id egress_local_port : Z) (c : ctx)
    : ctx * pw_status :=
  match bc_dma c with
  | Some s =>
      let '(x, r) := dma_slow_path_tx xdev late (S deadline) s frame egress_local_port
                       (bc_xdma c) in
      (set_dma c (Some s) x, default PW_E_IO r)
  | None =>
      let len := Z.of_nat (length frame) in
      if len =? 0 then (c, PW_E_INVAL) else
      if PWFPGA_INJECT_MAX_FRAME <? len then (c, PW_E_INVAL) else
      if bc_size c <? PWFPGA_INJECT_DATA + (len + 3) / 4 * 4 then (c, PW_E_OUT_OF_RANGE) else
      let '(c, _) := inject_wait INJECT_SPINS c in
      let '(c, v) := reg_rd PWFPGA_REG_INJECT_CTRL c in
      if ztrue (v &&& PWFPGA_INJECT_STATUS_BUSY) then (c, PW_E_IO) else
      let c := bar_copy_words PWFPGA_INJECT_DATA frame c in
      let c := reg_wr PWFPGA_REG_INJECT_INFO
                 ((egress_local_port <<< PWFPGA_INJECT_INFO_EGRESS_SHIFT) ||| (len &&& 0x3FFF)) c in
      let c := reg_wr PWFPGA_REG_INJECT_CTRL PWFPGA_INJECT_CTRL_GO c in
      let '(c, idle) := inject_wait INJECT_SPINS c in
      (c, if idle then PW_OK else PW_E_IO)
  end.

Definition bar_ops : pw_card_backend_ops ctx :=
  {| op_read32 := Some bar_read32;
     op_write32 := Some bar_write32;
     op_card_info := Some bar_card_info;
     op_flow_write := Some bar_flow_write;
     op_flow_commit := Some bar_flow_commit;
     op_stats_snapshot := Some bar_stats_snapshot;
     op_port_stats_read := Some bar_port_stats_read;
     op_flow_stats_read := Some bar_flow_stats_read;
     op_flow_hist_read := Some bar_flow_hist_read;
     op_slow_path_rx := Some bar_slow_path_rx;
     op_slow_path_tx := Some bar_slow_path_tx |}.

(** ** Attach *)

(** Find the CSR window: at 0, or higher in a BAR that covers the split layout
    and whose device id is found there only. *)
Definition bar_probe (c : ctx) : ctx :=
  if PWFPGA_CSR_DMA_OFFSET + 0x1000 <=? bc_size c then
    let '(c, at0) := reg_rd PWFPGA_REG_DEVICE_ID c in
    let '(c, athi) := reg_rd (PWFPGA_CSR_DMA_OFFSET + PWFPGA_REG_DEVICE_ID) c in
    {| bc_size := bc_size c;
       bc_csr_off := if (athi >>> 16 =? 0xA502) && negb (at0 >>> 16 =? 0xA502)
                     then PWFPGA_CSR_DMA_OFFSET else bc_csr_off c;
       bc_dma := bc_dma c; bc_dev := bc_dev c; bc_xdma := bc_xdma c; bc_fault := bc_fault c |}
  else c.

(** Attach to a mapping of [sz] bytes; [vfio] carries the answers of the DMA
    system calls when the mapping is owned by VFIO. The device keeps the effects
    of the probing reads also when the attach fails. *)
Definition bar_backend_attach (sz : Z) (vfio : option dma_env) (d : D) (x : X)
    : ctx * pw_status :=
  let c := bar_probe {| bc_size := sz; bc_csr_off := 0; bc_dma := None; bc_dev := d;
                        bc_xdma := x; bc_fault := false |} in
  if negb (csr_range_ok c 0 (PWFPGA_REG_NUM_HIST_BINS + 4)) then (c, PW_E_OUT_OF_RANGE) else
  let '(c, caps) := reg_rd PWFPGA_REG_CAPABILITIES c in
  if ztrue (caps &&& PWFPGA_CAP_HAS_DMA) then
    let s := vfio ≫= fun e => (dma_setup e).2 in
    (set_dma c s x, if bool_decide (s = None) then PW_E_BACKEND else PW_OK)
  else (c, PW_OK).
End Bar.
