(* ===== verification/BarSafety.v ===== *)
(** * Memory safety of the BAR backend

    Whatever the FPGA answers, the operations of [BackendBar] never load or
    store outside the mapped BAR, from the attach on; and the word copies are
    exact. *)

From S2P Require Import Prelude Types Csr Backend Dma BackendBar.

Section Safety.
Context {D X : Type} (dev : bar_dev D) (xdev : xdma_dev X).
Context (late : nat -> bool) (deadline : nat).

Abbreviation ctx := (bar_ctx D X).

(** What a successful attach establishes and every operation keeps: the CSR
    window starts at 0 or, in a BAR that covers it, at [PWFPGA_CSR_DMA_OFFSET];
    the identity block is mapped; nothing was accessed outside the mapping. *)
Record bar_ok (sz co : Z) (c : ctx) : Prop := {
  bk_size : bc_size c = sz;
  bk_off : bc_csr_off c = co;
  bk_window : co = 0 /\ PWFPGA_REG_NUM_HIST_BINS + 4 <= sz \/
              co = PWFPGA_CSR_DMA_OFFSET /\ PWFPGA_CSR_DMA_OFFSET + 0x1000 <= sz;
  bk_fault : bc_fault c = false
}.

Section Steps.
Context (sz co : Z).
Abbreviation ok := (bar_ok sz co).

(** [len] bytes at CSR offset [off] are mapped. *)
Definition in_map (off len : Z) : Prop := 0 <= off /\ co + off + len <= sz.

Lemma window_nonneg c : ok c -> 0 <= co <= 0x10000.
Proof. intros [_ _ [[-> _]|[-> _]] _]; unfold PWFPGA_CSR_DMA_OFFSET; lia. Qed.

Lemma mapped_true c off : ok c -> in_map off 4 -> mapped c (bc_csr_off c + off) = true.
Proof.
  intros Hk [H0 Hi]. pose proof (window_nonneg c Hk). destruct Hk as [Hs Hc _ _].
  unfold mapped. rewrite Hc, Hs. apply andb_true_intro. rewrite !Z.leb_le. lia.
Qed.

Lemma set_dev_ok c d off : ok c -> in_map off 4 ->
  ok (set_dev c d (bc_fault c || negb (mapped c (bc_csr_off c + off)))).
Proof.
  intros Hk Hi. rewrite mapped_true by done. destruct Hk as [Hs Hc Hw Hf].
  split; simpl; try done. by rewrite Hf.
Qed.

Lemma reg_rd_ok off c c' v : ok c -> in_map off 4 -> reg_rd dev off c = (c', v) -> ok c'.
Proof.
  unfold reg_rd. intros Hk Hi. destruct (bd_rd dev _ _) as [d w]. intros [= <- _].
  by apply set_dev_ok.
Qed.

Lemma reg_wr_ok off v c : ok c -> in_map off 4 -> ok (reg_wr dev off v c).
Proof. apply set_dev_ok. Qed.

(** [csr_range_ok] is exact for the offsets the driver computes: no wrap-around. *)
Lemma range_ok c off len : ok c -> 0 <= off < 2 ^ 40 -> 0 <= len < 2 ^ 40 ->
  csr_range_ok c off len = true <-> in_map off len.
Proof.
  intros Hk Ho Hl. pose proof (window_nonneg c Hk). destruct Hk as [Hs Hc _ _].
  unfold csr_range_ok, in_map. rewrite Hc, Hs, u64_id by (unfold is_w; lia).
  rewrite andb_true_iff, !Z.leb_le. lia.
Qed.

Lemma in_map_sub off len off' len' : in_map off len -> off <= off' -> off' + len' <= off + len ->
  in_map off' len'.
Proof. unfold in_map. lia. Qed.

Lemma copy_words_ok bs : forall off c, ok c ->
  in_map off ((Z.of_nat (length bs) + 3) / 4 * 4) -> ok (bar_copy_words dev off bs c).
Proof.
  induction bs as [bs IH] using (well_founded_induction (well_founded_ltof _ (@length Z))).
  destruct bs as [|b0 [|b1 [|b2 [|b3 bs]]]].
  all: intros off c Hk Hi; cbn [bar_copy_words].
  { done. }
  1-3: apply reg_wr_ok; [done|]; eapply in_map_sub; [exact Hi|lia|];
       simpl length; Z.to_euclidean_division_equations; lia.
  simpl length in Hi. apply (IH bs); [unfold ltof; simpl; lia| |].
  - apply reg_wr_ok; [done|]. eapply in_map_sub; [exact Hi|lia|].
    Z.to_euclidean_division_equations; lia.
  - eapply in_map_sub; [exact Hi|lia|]. Z.to_euclidean_division_equations; lia.
Qed.

Lemma copy_out_ok n : forall off c c' bs, ok c ->
  in_map off ((Z.of_nat n + 3) / 4 * 4) -> bar_copy_words_out dev off n c = (c', bs) -> ok c'.
Proof.
  induction n as [n IH] using lt_wf_ind. destruct n as [|[|[|[|n]]]]; intros off c c' bs Hk Hi;
    cbn [bar_copy_words_out]; [by intros [= <- _]| | | |].
  1-3: destruct (reg_rd dev off c) as [c1 v] eqn:E; intros [= <- _];
       eapply reg_rd_ok; [exact Hk| |exact E]; eapply in_map_sub; [exact Hi|lia|];
       Z.to_euclidean_division_equations; lia.
  destruct (reg_rd dev off c) as [c1 v] eqn:E1.
  destruct (bar_copy_words_out dev (off + 4) n c1) as [c2 bs2] eqn:E2. intros [= <- _].
  eapply (IH n); [lia| | |exact E2].
  - eapply reg_rd_ok; [exact Hk| |exact E1]. eapply in_map_sub; [exact Hi|lia|].
    Z.to_euclidean_division_equations; lia.
  - eapply in_map_sub; [exact Hi|lia|]. Z.to_euclidean_division_equations; lia.
Qed.

Lemma identity_map c off : ok c -> 0 <= off <= PWFPGA_REG_NUM_HIST_BINS -> in_map off 4.
Proof.
  intros [_ _ Hw _] Ho. unfold in_map, PWFPGA_REG_NUM_HIST_BINS, PWFPGA_CSR_DMA_OFFSET in *. lia.
Qed.

(** Take the next register read of the goal. *)
Ltac step_rd H := match goal with
  | |- context [reg_rd dev ?off ?c] =>
      let c' := fresh "c" in let v := fresh "v" in let E := fresh "E" in
      destruct (reg_rd dev off c) as [c' v] eqn:E;
      assert (ok c') by (eapply reg_rd_ok; [| |exact E]; [assumption|H])
  end; cbv beta iota zeta.

Lemma card_info_ok c : ok c -> ok (bar_card_info dev c).1.
Proof.
  intros Hk. assert (Hm : forall off, 0 <= off <= PWFPGA_REG_NUM_HIST_BINS -> in_map off 4)
    by (intros; by eapply identity_map).
  unfold bar_card_info.
  do 9 (step_rd ltac:(apply Hm; split; vm_compute; congruence)). done.
Qed.

Lemma read32_ok off c : is_u32 off -> ok c -> ok (bar_read32 dev off c).1.
Proof.
  intros Ho Hk. unfold is_w in Ho. unfold bar_read32.
  destruct (csr_range_ok c off 4) eqn:E; [|done].
  apply range_ok in E; [|done|lia..]. simpl. by step_rd assumption.
Qed.

Lemma write32_ok off v c : is_u32 off -> ok c -> ok (bar_write32 dev off v c).1.
Proof.
  intros Ho Hk. unfold is_w in Ho. unfold bar_write32.
  destruct (csr_range_ok c off 4) eqn:E; [|done].
  apply range_ok in E; [|done|lia..]. by apply reg_wr_ok.
Qed.

Lemma flow_write_ok row f c : is_u32 row -> ok c -> ok (bar_flow_write dev row f c).1.
Proof.
  intros Hr Hk. unfold is_w in Hr. unfold bar_flow_write.
  change PWFPGA_WIN_FLOW_TABLE with 0x6000. change PWFPGA_FLOW_STRIDE with 256.
  change PWFPGA_REG_FLOW_COMMIT with 0x9FFC. unfold sizeof_flow_config.
  destruct (Z.ltb_spec 0x9FFC (0x6000 + row * 256 + 244)); [done|].
  destruct (csr_range_ok c _ _) eqn:E; [|done].
  apply range_ok in E; [|done|lia..]. cbn [negb fst]. rewrite u32_id by (unfold is_w; lia).
  apply copy_words_ok; [done|].
  unfold flow_config_bytes. rewrite wires_bytes_size. exact E.
Qed.

Lemma flow_commit_ok c : ok c -> ok (bar_flow_commit dev c).1.
Proof.
  intros Hk. unfold bar_flow_commit. change PWFPGA_REG_FLOW_COMMIT with 0x9FFC.
  destruct (csr_range_ok c _ _) eqn:E; [|done].
  apply range_ok in E; [|done|lia..]. simpl.
  pose proof (reg_wr_ok 0x9FFC 1 c Hk E). by step_rd assumption.
Qed.

Lemma stats_snapshot_ok c : ok c -> ok (bar_stats_snapshot dev c).1.
Proof.
  intros Hk. unfold bar_stats_snapshot. change PWFPGA_REG_STATS_SNAPSHOT_TRIGGER with 0xFFFC.
  destruct (csr_range_ok c _ _) eqn:E; [|done].
  apply range_ok in E; [|done|lia..]. by apply reg_wr_ok.
Qed.

(** A window read of [n] bytes ([n] a multiple of 4) behind a range check. *)
Lemma window_read_ok {A} base n (g : list Z -> A) e c : ok c -> 0 <= base < 2 ^ 32 ->
  Z.of_nat n < 2 ^ 32 -> Z.of_nat n mod 4 = 0 ->
  ok (if negb (csr_range_ok c base (Z.of_nat n)) then (c, Err e)
      else let '(c, bs) := bar_copy_words_out dev (u32 base) n c in (c, @Ok err A (g bs))).1.
Proof.
  intros Hk Hb Hn Hm. destruct (csr_range_ok c base _) eqn:E; [|done].
  apply range_ok in E; [|done|lia..]. simpl. rewrite u32_id by done.
  destruct (bar_copy_words_out dev base n c) as [c' bs] eqn:Ec. simpl.
  eapply copy_out_ok; [exact Hk| |exact Ec].
  eapply in_map_sub; [exact E|lia|]. Z.to_euclidean_division_equations; lia.
Qed.

Lemma port_stats_ok p c : is_u8 p -> ok c -> ok (bar_port_stats_read dev p c).1.
Proof.
  intros Hp Hk. unfold is_w in Hp. unfold bar_port_stats_read.
  destruct (Z.leb_spec (Z.of_nat PW_PORTS_PER_CARD) p); [done|].
  apply (window_read_ok _ 88); [done| |vm_compute; done..].
  change PWFPGA_WIN_STATS_SNAPSHOT with 0xC000. change PWFPGA_PORT_STATS_STRIDE with 128. lia.
Qed.

Lemma flow_stats_ok l c : is_u32 l -> ok c -> ok (bar_flow_stats_read dev l c).1.
Proof.
  intros Hl Hk. unfold is_w in Hl. unfold bar_flow_stats_read.
  change PWFPGA_FLOW_STATS_SLOTS with 125. destruct (Z.leb_spec 125 l); [done|].
  apply (window_read_ok _ 120); [done| |vm_compute; done..].
  change PWFPGA_WIN_STATS_SNAPSHOT with 0xC000. change PWFPGA_FLOW_STATS_STRIDE with 128.
  change PWFPGA_FLOW_STATS_BASE with 0x100. lia.
Qed.

Lemma flow_hist_ok l n c : is_u32 l -> ok c -> ok (bar_flow_hist_read dev l n c).1.
Proof.
  intros Hl Hk. unfold is_w in Hl. unfold bar_flow_hist_read.
  change PWFPGA_FLOW_HIST_SLOTS with 64. destruct (Z.leb_spec 64 l); [done|].
  change (Z.to_nat (PWFPGA_FLOW_HIST_STRIDE / 8)) with 16%nat.
  set (k := if (16 <? n)%nat then 16%nat else n).
  assert (k <= 16)%nat by (unfold k; destruct (Nat.ltb_spec 16 n); lia).
  cbv zeta. replace (Z.of_nat k * 8) with (Z.of_nat (k * 8)) by lia.
  apply (window_read_ok _ (k * 8)); [done| |lia|].
  - change PWFPGA_WIN_HISTOGRAM with 0xA000. change PWFPGA_FLOW_HIST_STRIDE with 128. lia.
  - rewrite Nat2Z.inj_mul. Z.to_euclidean_division_equations; lia.
Qed.

Lemma set_dma_ok c s x : ok c -> ok (set_dma c s x).
Proof. intros []. by split. Qed.

Lemma slow_path_rx_ok n c : ok c -> ok (bar_slow_path_rx dev xdev n c).1.
Proof.
  intros Hk. unfold bar_slow_path_rx. destruct (bc_dma c) as [s|].
  { destruct (dma_slow_path_rx xdev s n (bc_xdma c)) as [[x s'] r]. by apply set_dma_ok. }
  change (PWFPGA_PUNT_DATA - PWFPGA_WIN_PUNT_RX + PWFPGA_PUNT_MAX_FRAME) with 2080.
  change PWFPGA_WIN_PUNT_RX with 0x1000. destruct (csr_range_ok c _ _) eqn:E; [|done].
  apply range_ok in E; [|done|lia..]. cbn [negb].
  assert (Hm : forall off, 0x1000 <= off <= 0x1000 + 2076 -> in_map off 4)
    by (intros; eapply in_map_sub; [exact E|lia..]).
  step_rd ltac:(apply Hm; split; vm_compute; congruence).
  destruct (negb _); [done|].
  do 4 (step_rd ltac:(apply Hm; split; vm_compute; congruence)).
  match goal with |- context [bar_copy_words_out dev _ ?k ?c0] => set (m := k) end.
  assert (Hle : Z.of_nat m <= 2048).
  { unfold m, PWFPGA_PUNT_MAX_FRAME.
    destruct (Z.ltb_spec 2048 (v0 &&& PWFPGA_PUNT_INFO_LEN_MASK));
      match goal with |- context [(?a <? ?b)%nat] => destruct (Nat.ltb_spec a b) end; lia. }
  destruct (bar_copy_words_out dev PWFPGA_PUNT_DATA m _) as [c6 bs] eqn:Ec. simpl.
  apply reg_wr_ok; [|apply Hm; split; vm_compute; congruence].
  eapply copy_out_ok; [eassumption| |exact Ec]. change PWFPGA_PUNT_DATA with 0x1020.
  eapply in_map_sub; [exact E|lia|]. Z.to_euclidean_division_equations; lia.
Qed.

Lemma inject_wait_ok n : in_map PWFPGA_REG_INJECT_CTRL 4 -> forall c c' b, ok c ->
  inject_wait dev n c = (c', b) -> ok c'.
Proof.
  intros Hi. induction n as [|n IH]; intros c c' b Hk; simpl; [by intros [= <- _]|].
  step_rd assumption. destruct (negb _); [by intros [= <- _]|]. by apply IH.
Qed.

Lemma slow_path_tx_ok frame lif p c : ok c ->
  ok (bar_slow_path_tx dev xdev late deadline frame lif p c).1.
Proof.
  intros Hk. unfold bar_slow_path_tx. destruct (bc_dma c) as [s|].
  { destruct (dma_slow_path_tx _ _ _ _ _ _ _) as [x r]. by apply set_dma_ok. }
  unfold PWFPGA_INJECT_MAX_FRAME. change PWFPGA_INJECT_DATA with 0xD40.
  destruct (Z.eqb_spec (Z.of_nat (length frame)) 0); [done|].
  destruct (Z.ltb_spec 512 (Z.of_nat (length frame))); [done|].
  set (n4 := (Z.of_nat (length frame) + 3) / 4 * 4).
  assert (Hn4 : 0 <= n4 <= 512) by (unfold n4; Z.to_euclidean_division_equations; lia).
  destruct (Z.ltb_spec (bc_size c) (0xD40 + n4)) as [|Hsz]; [done|].
  assert (Hd : in_map 0xD00 (64 + n4)).
  { destruct Hk as [Hs _ Hw _]. rewrite Hs in Hsz. unfold in_map.
    unfold PWFPGA_CSR_DMA_OFFSET in Hw. lia. }
  assert (Hm : forall off, 0xD00 <= off <= 0xD3C -> in_map off 4)
    by (intros; eapply in_map_sub; [exact Hd|lia..]).
  assert (Hc : in_map PWFPGA_REG_INJECT_CTRL 4) by (apply Hm; split; vm_compute; congruence).
  destruct (inject_wait dev INJECT_SPINS c) as [c1 b] eqn:E1.
  pose proof (inject_wait_ok _ Hc _ _ _ Hk E1).
  step_rd assumption. destruct (ztrue _); [done|].
  match goal with |- context [inject_wait dev INJECT_SPINS ?cc] =>
    destruct (inject_wait dev INJECT_SPINS cc) as [c3 b3] eqn:E3 end.
  refine (inject_wait_ok _ Hc _ _ _ _ E3).
  apply reg_wr_ok; [|done]. apply reg_wr_ok; [|apply Hm; split; vm_compute; congruence].
  apply copy_words_ok; [done|]. eapply in_map_sub; [exact Hd|lia|fold n4; lia].
Qed.
End Steps.

Lemma bar_probe_ok sz d (x : X) : 0 <= sz ->
  let c := bar_probe dev {| bc_size := sz; bc_csr_off := 0; bc_dma := None; bc_dev := d;
                            bc_xdma := x; bc_fault := false |} in
  bc_size c = sz /\ bc_fault c = false /\
  (bc_csr_off c = 0 \/
   bc_csr_off c = PWFPGA_CSR_DMA_OFFSET /\ PWFPGA_CSR_DMA_OFFSET + 0x1000 <= sz).
Proof.
  intros Hsz. unfold bar_probe. cbn [bc_size]. unfold PWFPGA_CSR_DMA_OFFSET.
  destruct (Z.leb_spec (0x10000 + 0x1000) sz); [|simpl; auto].
  unfold reg_rd. cbn [bc_csr_off bc_dev bc_fault bc_size set_dev].
  destruct (bd_rd dev _ d) as [d1 v1]. cbn [bc_csr_off bc_dev bc_fault bc_size set_dev].
  destruct (bd_rd dev _ d1) as [d2 v2]. cbn [bc_csr_off bc_dev bc_fault bc_size set_dev].
  split_and!; [done| |destruct (_ && _); auto].
  unfold mapped. cbn [bc_size set_dev]. unfold PWFPGA_REG_DEVICE_ID.
  rewrite !(proj2 (Z.leb_le _ _)) by lia. done.
Qed.

(** Attaching probes only mapped words. *)
Lemma attach_ok sz vfio d (x : X) : 0 <= sz ->
  bc_fault (bar_backend_attach dev sz vfio d x).1 = false /\
  ((bar_backend_attach dev sz vfio d x).2 = PW_OK ->
   exists co, bar_ok sz co (bar_backend_attach dev sz vfio d x).1).
Proof.
  intros Hsz. unfold bar_backend_attach. set (c0 := {| bc_size := sz |}).
  destruct (bar_probe_ok sz d x Hsz) as (Hs & Hf & Hw). fold c0 in Hs, Hf, Hw.
  set (c1 := bar_probe dev c0) in *.
  assert (Hnn : 0 <= bc_csr_off c1 <= 0x10000)
    by (destruct Hw as [-> | [-> _]]; unfold PWFPGA_CSR_DMA_OFFSET; lia).
  destruct (csr_range_ok c1 _ _) eqn:E; [|done]. cbn [negb].
  assert (Hk : bar_ok sz (bc_csr_off c1) c1).
  { split; try done. unfold csr_range_ok, PWFPGA_REG_NUM_HIST_BINS in E.
    rewrite u64_id in E by (unfold is_w; lia). apply andb_true_iff in E as [_ E%Z.leb_le].
    unfold PWFPGA_REG_NUM_HIST_BINS. destruct Hw as [H0|Hw]; [left; lia|by right]. }
  destruct (reg_rd dev PWFPGA_REG_CAPABILITIES c1) as [c2 v] eqn:E2.
  apply (reg_rd_ok sz (bc_csr_off c1)) in E2; [|done|eapply identity_map; [done|by vm_compute]].
  destruct (ztrue _); simpl.
  - split; [apply E2|]. intros _. exists (bc_csr_off c1). by apply set_dma_ok.
  - split; [apply E2|]. intros _. by exists (bc_csr_off c1).
Qed.

(** C17: from a successful attach on, no sequence of backend operations loads or
    stores outside the mapped BAR, whatever the FPGA answers: the attach probes
    only mapped words, and every operation keeps the invariant, for arguments of
    their C types. *)
Theorem bar_access_in_map (sz : Z) (vfio : option dma_env) (d : D) (x : X) :
  0 <= sz ->
  bc_fault (bar_backend_attach dev sz vfio d x).1 = false /\
  ((bar_backend_attach dev sz vfio d x).2 = PW_OK ->
   exists co, bar_ok sz co (bar_backend_attach dev sz vfio d x).1) /\
  forall co c, bar_ok sz co c ->
    (forall off, is_u32 off -> bar_ok sz co (bar_read32 dev off c).1) /\
    (forall off v, is_u32 off -> bar_ok sz co (bar_write32 dev off v c).1) /\
    bar_ok sz co (bar_card_info dev c).1 /\
    (forall row f, is_u32 row -> bar_ok sz co (bar_flow_write dev row f c).1) /\
    bar_ok sz co (bar_flow_commit dev c).1 /\
    bar_ok sz co (bar_stats_snapshot dev c).1 /\
    (forall p, is_u8 p -> bar_ok sz co (bar_port_stats_read dev p c).1) /\
    (forall l, is_u32 l -> bar_ok sz co (bar_flow_stats_read dev l c).1) /\
    (forall l n, is_u32 l -> bar_ok sz co (bar_flow_hist_read dev l n c).1) /\
    (forall n, bar_ok sz co (bar_slow_path_rx dev xdev n c).1) /\
    (forall frame lif p, bar_ok sz co (bar_slow_path_tx dev xdev late deadline frame lif p c).1).
Proof.
  intros Hsz. split; [|split].
  - destruct (attach_ok sz vfio d x Hsz) as [H _]. exact H.
  - apply (attach_ok sz vfio d x Hsz).
  - intros co c Hk. split_and!; intros.
    + by apply read32_ok.
    + by apply write32_ok.
    + by apply card_info_ok.
    + by apply flow_write_ok.
    + by apply flow_commit_ok.
    + by apply stats_snapshot_ok.
    + by apply port_stats_ok.
    + by apply flow_stats_ok.
    + by apply flow_hist_ok.
    + by apply slow_path_rx_ok.
    + by apply slow_path_tx_ok.
Qed.
End Safety.
