(* ===== verification/BarTables.v ===== *)
(** * The BAR backend keeps the table interface

    Over an FPGA that latches the words written to its table windows and, on a
    commit, copies the staged rows to the live ones ([CardDevice]), the
    operations of [BackendBar] are an instance of [Backend.CardTables]. *)

From S2P Require Import Prelude Types Csr Backend Dma BackendBar BarSafety.

(** A word the host programs: a table word or a word of a flow row. *)
Definition host_word (off : Z) : Prop :=
  csr_off_ok off \/ PWFPGA_WIN_FLOW_TABLE <= off < PWFPGA_REG_FLOW_COMMIT /\ off mod 4 = 0.

(** The bytes of [n] consecutive words. *)
Fixpoint words_bytes (w : Z -> Z) (off : Z) (n : nat) : list Z :=
  match n with
  | O => []
  | S n => le_bytes 4 (w off) ++ words_bytes w (off + 4) n
  end.

Definition row_words : nat := 61.
Definition row_off (r : Z) : Z := PWFPGA_WIN_FLOW_TABLE + r * PWFPGA_FLOW_STRIDE.

(** The documented behaviour of the FPGA the driver relies on; [co] is where
    the CSR window sits in the BAR. *)
Class CardDevice {D : Type} (dev : bar_dev D) (co : Z) := {
  cd_word : D -> Z -> Z;
  cd_live : D -> Z -> list Z;
  (** identity registers and the commit register have no read side effect *)
  cd_read : forall off d, 0 <= off <= PWFPGA_REG_NUM_HIST_BINS \/ off = PWFPGA_REG_FLOW_COMMIT ->
    (bd_rd dev (co + off) d).1 = d;
  (** a host word latches what is written, and touches nothing else *)
  cd_write : forall off v d, host_word off ->
    (forall o, host_word o ->
       cd_word (bd_wr dev (co + off) v d) o = if o =? off then v else cd_word d o) /\
    (forall r, 0 <= r < PWFPGA_FLOW_TABLE_ROWS -> cd_live (bd_wr dev (co + off) v d) r = cd_live d r);
  (** a commit makes the staged rows live *)
  cd_commit : forall d,
    (forall o, host_word o -> cd_word (bd_wr dev (co + PWFPGA_REG_FLOW_COMMIT) 1 d) o = cd_word d o) /\
    (forall r, 0 <= r < PWFPGA_FLOW_TABLE_ROWS ->
       cd_live (bd_wr dev (co + PWFPGA_REG_FLOW_COMMIT) 1 d) r =
       words_bytes (cd_word d) (row_off r) row_words)
}.

Lemma words_bytes_ext w w' n : forall off,
  (forall o, off <= o < off + 4 * Z.of_nat n -> (o - off) mod 4 = 0 -> w o = w' o) ->
  words_bytes w off n = words_bytes w' off n.
Proof.
  induction n as [|n IH]; intros off H; [done|]. cbn [words_bytes]. f_equal.
  - rewrite H; [done|lia|]. by rewrite Z.sub_diag.
  - apply IH. intros o Ho Hm. apply H; [lia|]. Z.to_euclidean_division_equations; lia.
Qed.

Section Tables.
Context {D X : Type} (dev : bar_dev D) (xdev : xdma_dev X).
Context (late : nat -> bool) (deadline : nat) (sz co : Z) {CD : CardDevice dev co}.

Abbreviation ctx := (bar_ctx D X).
Abbreviation ops := (bar_ops dev xdev late deadline).

(** A card in order whose whole CSR window is mapped. *)
Definition whole_card (c : ctx) : Prop := bar_ok sz co c /\ co + 0x10000 <= sz.

Lemma whole_in_map c off len : whole_card c -> 0 <= off -> off + len <= 0x10000 ->
  in_map sz co off len.
Proof. intros [_ H] Ho Hl. unfold in_map. lia. Qed.

Lemma whole_range c off len : whole_card c -> 0 <= off -> 0 <= len -> off + len <= 0x10000 ->
  csr_range_ok c off len = true.
Proof.
  intros Hw H0 Hl Hs. apply (range_ok sz co); [apply Hw|lia|lia|]. by eapply whole_in_map.
Qed.

Lemma host_word_bound off : host_word off -> 0 <= off /\ off + 4 <= 0x10000.
Proof.
  unfold host_word, csr_off_ok. csr. unfold PWFPGA_FLOWID_MAP_DEPTH, PWFPGA_WIN_FC_CMP. lia.
Qed.

Lemma reg_wr_word off v c : whole_card c -> host_word off ->
  whole_card (reg_wr dev off v c) /\
  (forall o, host_word o ->
     cd_word (bc_dev (reg_wr dev off v c)) o = if o =? off then v else cd_word (bc_dev c) o) /\
  (forall r, 0 <= r < PWFPGA_FLOW_TABLE_ROWS ->
     cd_live (bc_dev (reg_wr dev off v c)) r = cd_live (bc_dev c) r).
Proof.
  intros Hw Ho. split.
  - split; [|apply Hw]. apply reg_wr_ok; [apply Hw|].
    destruct (host_word_bound _ Ho). by eapply whole_in_map.
  - destruct Hw as [[_ Hco _ _] _]. simpl. rewrite Hco. by apply cd_write.
Qed.

(** Copying [n] words of row bytes stages exactly those bytes. *)
Lemma copy_words_row n : forall off bs c, whole_card c -> length bs = (4 * n)%nat ->
  Forall is_u8 bs -> PWFPGA_WIN_FLOW_TABLE <= off -> off mod 4 = 0 ->
  off + 4 * Z.of_nat n <= PWFPGA_REG_FLOW_COMMIT ->
  let c' := bar_copy_words dev off bs c in
  whole_card c' /\
  (forall o, host_word o -> ~ (off <= o < off + 4 * Z.of_nat n) ->
     cd_word (bc_dev c') o = cd_word (bc_dev c) o) /\
  words_bytes (cd_word (bc_dev c')) off n = bs /\
  (forall r, 0 <= r < PWFPGA_FLOW_TABLE_ROWS -> cd_live (bc_dev c') r = cd_live (bc_dev c) r).
Proof.
  induction n as [|n IH]; intros off bs c Hw Hlen Hb Hoff Hal Hend.
  { destruct bs; [|done]. simpl. auto. }
  destruct bs as [|b0 [|b1 [|b2 [|b3 bs]]]]; try (simpl in Hlen; lia).
  assert (host_word off) as Ho by (right; split; [lia|done]).
  cbn [bar_copy_words]. set (v := le_val [b0; b1; b2; b3]).
  destruct (reg_wr_word off v c Hw Ho) as (Hw1 & Hr1 & Hl1).
  assert (Forall is_u8 [b0; b1; b2; b3] /\ Forall is_u8 bs) as [Hb4 Hbs]
    by (by apply (Forall_app is_u8 [b0; b1; b2; b3] bs)).
  destruct (IH (off + 4) bs (reg_wr dev off v c)) as (Hw2 & Hr2 & Hb2 & Hl2);
    [done|simpl in Hlen; lia|done|lia|Z.to_euclidean_division_equations; lia|lia|].
  set (c2 := bar_copy_words dev (off + 4) bs _) in *. split_and!; [done| | |].
  - intros o Hho Hne. rewrite Hr2, Hr1 by (done || lia). by rewrite (proj2 (Z.eqb_neq o off)) by lia.
  - cbn [words_bytes]. rewrite Hb2, Hr2, Hr1, Z.eqb_refl by (done || lia).
    unfold v. pose proof (le_bytes_val _ Hb4) as Hv. cbn [length] in Hv. by rewrite Hv.
  - intros r Hr. by rewrite Hl2, Hl1.
Qed.

Lemma flow_write_staged r f c : whole_card c -> 0 <= r < PWFPGA_FLOW_TABLE_ROWS ->
  (bar_flow_write dev r f c).2 = PW_OK /\ whole_card (bar_flow_write dev r f c).1 /\
  forall i, 0 <= i < PWFPGA_FLOW_TABLE_ROWS ->
    words_bytes (cd_word (bc_dev (bar_flow_write dev r f c).1)) (row_off i) row_words =
    if i =? r then flow_config_bytes f
    else words_bytes (cd_word (bc_dev c)) (row_off i) row_words.
Proof.
  intros Hw Hr. rewrite flow_table_rows_64 in *. unfold bar_flow_write, sizeof_flow_config, row_off.
  change PWFPGA_WIN_FLOW_TABLE with 0x6000. change PWFPGA_FLOW_STRIDE with 256.
  change PWFPGA_REG_FLOW_COMMIT with 0x9FFC.
  destruct (Z.ltb_spec 0x9FFC (0x6000 + r * 256 + 244)); [lia|].
  rewrite whole_range by (done || lia). cbn [negb fst snd]. rewrite u32_id by (unfold is_w; lia).
  destruct (copy_words_row 61 (0x6000 + r * 256) (flow_config_bytes f) c)
    as (Hw' & Hr' & Hb' & _);
    [done|apply wires_bytes_size|apply wires_bytes_u8|csr; lia
    |Z.to_euclidean_division_equations; lia|csr; lia|].
  set (c' := bar_copy_words dev _ _ c) in *. split_and!; [done|done|].
  intros i Hi. destruct (Z.eqb_spec i r) as [->|Hne]; [exact Hb'|].
  apply words_bytes_ext. unfold row_words. intros o Ho Hm. apply Hr'; [|lia].
  right. csr. split; [lia|]. Z.to_euclidean_division_equations; lia.
Qed.

Lemma flow_commit_live c : whole_card c ->
  (bar_flow_commit dev c).2 = PW_OK /\ whole_card (bar_flow_commit dev c).1 /\
  (forall i, 0 <= i < PWFPGA_FLOW_TABLE_ROWS -> cd_live (bc_dev (bar_flow_commit dev c).1) i =
     words_bytes (cd_word (bc_dev c)) (row_off i) row_words) /\
  (forall o, host_word o -> cd_word (bc_dev (bar_flow_commit dev c).1) o = cd_word (bc_dev c) o).
Proof.
  intros Hw. pose proof (flow_commit_ok dev sz co c (proj1 Hw)) as Hk. revert Hk.
  unfold bar_flow_commit.
  rewrite whole_range by (done || (vm_compute; congruence)). cbn [negb].
  unfold reg_rd. pose proof (cd_read PWFPGA_REG_FLOW_COMMIT) as Hrd.
  destruct Hw as [[Hs Hco Hwin Hf] Hsz]. cbn [bc_csr_off bc_dev reg_wr set_dev]. rewrite Hco.
  specialize (Hrd (bd_wr dev (co + PWFPGA_REG_FLOW_COMMIT) 1 (bc_dev c)) (or_intror eq_refl)).
  destruct (bd_rd dev _ _) as [d v]. simpl in Hrd. subst d. cbn [fst snd bc_dev set_dev].
  intros Hk. split_and!; [done|by split| |]; apply cd_commit.
Qed.

(** ** The instances *)

Lemma write32_word off v c : whole_card c -> csr_off_ok off ->
  bar_write32 dev off v c = (reg_wr dev off v c, PW_OK) /\ host_word off.
Proof.
  intros Hw Ho. assert (Hh : host_word off) by (by left).
  destruct (host_word_bound _ Hh). unfold bar_write32.
  by rewrite whole_range by (done || lia).
Qed.

#[export, refine] Instance bar_csr_file : CsrFile ops := {|
  csr_ok := whole_card;
  csr_reg := fun c => cd_word (bc_dev c);
  csr_write := bar_write32 dev
|}.
Proof.
  - reflexivity.
  - intros off v c Hw Ho. destruct (write32_word off v c Hw Ho) as [-> Hh].
    destruct (reg_wr_word off v c Hw Hh) as (Hw1 & Hr1 & _). split_and!; [done|done|].
    intros o Hoo. apply Hr1. by left.
Defined.

#[export, refine] Instance bar_flow_store : FlowStore ops := {|
  fl_ok := whole_card;
  fl_staged := fun c i => words_bytes (cd_word (bc_dev c)) (row_off i) row_words;
  fl_live := fun c => cd_live (bc_dev c);
  fl_write := bar_flow_write dev;
  fl_commit := bar_flow_commit dev
|}.
Proof.
  - reflexivity.
  - reflexivity.
  - intros r f c Hw Hr. by apply flow_write_staged.
  - intros c Hw. destruct (flow_commit_live c Hw) as (H1 & H2 & H3 & _). by split_and!.
Defined.

Lemma card_info_ctx c : whole_card c -> (bar_card_info dev c).1 = c.
Proof.
  intros Hw. pose proof Hw as [[Hs Hco Hwin Hf] Hsz].
  assert (Hrd : forall off, 0 <= off <= PWFPGA_REG_NUM_HIST_BINS ->
    (reg_rd dev off c).1 = c).
  { intros off Ho. unfold reg_rd.
    rewrite (mapped_true sz co) by (apply Hw || by (eapply identity_map; [apply Hw|])).
    pose proof (cd_read off (bc_dev c) (or_introl Ho)) as Hd. rewrite <- Hco in Hd.
    destruct (bd_rd dev _ _) as [d v]. simpl in Hd. subst d. simpl.
    rewrite orb_false_r. by destruct c. }
  unfold bar_card_info.
  repeat match goal with |- context [reg_rd dev ?off c] =>
    let H := fresh in
    assert (H : (reg_rd dev off c).1 = c) by (apply Hrd; split; vm_compute; congruence);
    destruct (reg_rd dev off c) as [? ?]; simpl in H; subst; cbv beta iota zeta
  end. done.
Qed.

#[export, refine] Instance bar_card_tables : CardTables ops := {|
  ct_csr := bar_csr_file;
  ct_flow := bar_flow_store
|}.
Proof.
  - intros ci c [= <-] Hw _. by apply card_info_ctx.
  - intros off v c Hw _ Ho. destruct (write32_word off v c Hw Ho) as [E Hh]. simpl. rewrite E.
    destruct (reg_wr_word off v c Hw Hh) as (Hw1 & _ & Hl1). by split.
  - intros r f c Hw _ Hr. by apply flow_write_staged.
  - intros c Hw _. by apply flow_commit_live.
Defined.
End Tables.

(** ** A concrete device *)

(** Latched words and live rows, the CSR window at 0. *)
Record toy_card := { tc_word : Z -> Z; tc_live : Z -> list Z }.

Definition toy_bar : bar_dev toy_card := {|
  bd_rd := fun off d => (d, tc_word d off);
  bd_wr := fun off v d =>
    if off =? PWFPGA_REG_FLOW_COMMIT then
      {| tc_word := tc_word d; tc_live := fun r => words_bytes (tc_word d) (row_off r) row_words |}
    else {| tc_word := fun o => if o =? off then v else tc_word d o; tc_live := tc_live d |}
|}.

#[export, refine] Instance toy_card_device : CardDevice toy_bar 0 :=
  {| cd_word := tc_word; cd_live := tc_live |}.
Proof.
  - intros off d _. done.
  - intros off v d Ho. change (0 + off) with off. cbn [bd_wr toy_bar].
    assert (off <> PWFPGA_REG_FLOW_COMMIT) as Hne.
    { unfold host_word, csr_off_ok in Ho. csr.
      unfold PWFPGA_FLOWID_MAP_DEPTH, PWFPGA_WIN_FC_CMP in Ho. lia. }
    rewrite (proj2 (Z.eqb_neq _ _) Hne). done.
  - intros d. done.
Defined.
