(* ===== verification/Deploy.v ===== *)
(** * Deploying a program on a card

    The claims about [Programming], proved against the [CardTables] interface:
    refusals write nothing, faults are reported, writes stay in their windows,
    the card's state after programming is a function of the program, and the
    lookups the card then performs on its registers are the compiled ones. The
    witnesses run on the BAR backend over a concrete device. *)

From S2P Require Import Prelude Types Config Validate Csr FlowCompiler Samples CompilerInv.
From S2P Require Import FieldClassifier CompilerFlows HashPlacement CompilerProps Backend Programming ProgrammingProps Dma.
From S2P Require Import DmaProps BackendBar BarSafety BarTables.

(** ** Refusals and faults *)

Section AnyBackend.
Context {C : Type} (ops : pw_card_backend_ops C).

(** A program that exceeds a CSR window, or the flow rows the card reports,
    is refused with nothing written: the context is untouched in the first case
    and only [card_info] ran in the second, whose diagnostic is set. *)
Theorem program_refused (cp : pw_card_program) (c : C) :
  (program_fits cp = false ->
     pw_program_card_tables_diag ops cp c = (c, Err (fail_bare PW_E_INVAL))) /\
  (forall i, program_fits cp = true -> (probe_info ops c).2 = Some i -> over_capacity cp i = true ->
     pw_program_card_tables_diag ops cp c = ((probe_info ops c).1, Err (capacity_err cp i))).
Proof.
  unfold pw_program_card_tables_diag. split.
  - by intros ->.
  - intros i -> Hi Ho. simpl. destruct (probe_info ops c) as [c' info]. simpl in *. subst info.
    by rewrite Ho.
Qed.

(** The card has room for the program's rows, or does not say. *)
Definition has_room (cp : pw_card_program) (c : C) : Prop :=
  forall i, (probe_info ops c).2 = Some i -> over_capacity cp i = false.

Lemma diag_run cp c : program_fits cp = true -> has_room cp c ->
  pw_program_card_tables_diag ops cp c =
  run_calls ops cp (probe_info ops c).2 (probe_info ops c).1.
Proof.
  intros Hf Hr. unfold pw_program_card_tables_diag. rewrite Hf. simpl. unfold has_room in Hr.
  destruct (probe_info ops c) as [c' [i|]]; [|done]. by rewrite (Hr i eq_refl).
Qed.

(** An accepted program makes every write in order (rows, commit, tables),
    whatever the earlier ones returned, and the status is the first hard failure
    among them; a missing operation the program needs is [PW_E_NOT_IMPLEMENTED],
    and a write that answers [PW_E_NOT_IMPLEMENTED] is not an error. *)
Theorem program_reports (cp : pw_card_program) (c : C) :
  program_fits cp = true -> has_room cp c ->
  let run := run_all (all_calls ops cp (probe_info ops c).2) (probe_info ops c).1 in
  pw_program_card_tables ops cp c = (run.1, worst_of (missing_ops ops cp) run.2).
Proof.
  intros Hf Hr. unfold pw_program_card_tables. rewrite diag_run, run_calls_run by done.
  simpl. destruct (run_all _ _) as [c' ss]. simpl. by case_decide as Hw; [rewrite Hw|].
Qed.
End AnyBackend.

(** Every register write of an accepted program goes to an aligned word of
    the window of its own table, so no id or index can reach another table. *)
Theorem program_in_windows (cp : pw_card_program) :
  program_fits cp = true -> typed_program cp ->
  in_window PWFPGA_WIN_FLOWID_MAP (PWFPGA_WIN_FLOWID_MAP + 0x400) (map_writes cp) /\
  in_window PWFPGA_WIN_FC_CMP PWFPGA_WIN_FC_UDF (cmp_writes cp) /\
  in_window PWFPGA_WIN_FC_UDF PWFPGA_WIN_FC_RULE (udf_writes cp) /\
  in_window PWFPGA_WIN_FC_RULE (PWFPGA_WIN_FC_RULE + 0x200) (rule_writes cp) /\
  in_window PWFPGA_WIN_HASH_MASK PWFPGA_WIN_FLOW_TABLE (hash_writes cp).
Proof.
  intros Hf Ht. split_and!.
  - by apply map_window.
  - by apply cmp_window.
  - by apply udf_window.
  - by apply rule_window.
  - intros w Hw. rewrite hash_writes_eq, !elem_of_app in Hw. unfold PWFPGA_WIN_HASH_MASK,
      PWFPGA_WIN_FLOW_TABLE.
    destruct Hw as [Hw|[Hw|Hw]]; [apply hash_clear_window in Hw|apply hash_param_opt_window in Hw
      |apply hash_entry_window in Hw; [|done..]]; split; lia.
Qed.

(** ** The state after programming *)

Section OnCard.
Context {C : Type} (ops : pw_card_backend_ops C) {CT : CardTables ops}.

Lemma program_run cp c : program_fits cp = true -> typed_program cp -> distinct_keys cp ->
  has_room ops cp c -> csr_ok c -> fl_ok c ->
  let r := pw_program_card_tables_diag ops cp c in
  r.2 = Ok tt /\ csr_ok r.1 /\ fl_ok r.1 /\ programmed cp (csr_reg r.1) /\
  forall i, 0 <= i < flow_row_count cp (probe_info ops c).2 ->
    fl_live r.1 i = flow_config_bytes (row_image cp i).
Proof.
  intros Hf Ht Hd Hr Hc Hl. rewrite diag_run by done.
  rewrite (probe_info_ctx ops c Hc Hl). by apply run_calls_programmed.
Qed.

(** On a card in order, programming succeeds and the resulting tables are
    fully determined by the program, whatever the card held before: configured
    entries are valid, every other map entry, rule and hash bucket is invalid,
    and every live row up to the card's capacity is the configured row or zero. *)
Theorem program_determined (cp : pw_card_program) (c : C) :
  program_fits cp = true -> typed_program cp -> distinct_keys cp ->
  has_room ops cp c -> csr_ok c -> fl_ok c ->
  let r := pw_program_card_tables_diag ops cp c in
  r.2 = Ok tt /\ csr_ok r.1 /\ fl_ok r.1 /\ programmed cp (csr_reg r.1) /\
  forall i, 0 <= i < flow_row_count cp (probe_info ops c).2 ->
    fl_live r.1 i = flow_config_bytes (row_image cp i).
Proof. apply program_run. Qed.

(** The lookups the card performs on its registers: bit 31 marks a valid entry,
    the bits below it are the local flow id. *)
Definition entry_flow (w : Z) : option Z :=
  if Z.testbit w 31 then Some (w &&& 0x7FFFFFFF) else None.

Definition reg_map_lookup (reg : Z -> Z) (id : Z) : option Z :=
  entry_flow (reg (PWFPGA_WIN_FLOWID_MAP + id * 4)).

Definition reg_hash_lookup (reg : Z -> Z) (k : list Z) : option Z :=
  let mask := (fun w => reg (PWFPGA_HASH_MASK_WORD PWFPGA_WIN_HASH_MASK (Z.of_nat w)))
              <$> seq 0 PWFPGA_HASH_KEY_WORDS in
  let mk := masked mask k in
  let b := pw_fc_hash_index mk (reg PWFPGA_REG_HASH_SEED) in
  let key := (fun w => reg (PWFPGA_HASH_KEY_WORD PWFPGA_WIN_FC_HASH b (Z.of_nat w)))
             <$> seq 0 PWFPGA_HASH_KEY_WORDS in
  if bool_decide (key = mk) then entry_flow (reg (PWFPGA_HASH_CTRL PWFPGA_WIN_FC_HASH b)) else None.

Lemma entry_flow_valid l : 0 <= l < 2 ^ 31 -> entry_flow ((1 <<< 31) ||| l) = Some l.
Proof.
  intros Hl. unfold entry_flow.
  assert (Hb : forall i, 31 <= i -> Z.testbit l i = false) by (apply is_w_bits; [lia|done]).
  change 0x7FFFFFFF with (Z.ones 31).
  rewrite Z.lor_spec, Z.shiftl_spec, (Hb 31) by lia. simpl. f_equal.
  rewrite Z.land_ones by lia. apply Z.bits_inj'. intros i Hi.
  rewrite testbit_mod, Z.lor_spec, Z.shiftl_spec by lia.
  destruct (Z.ltb_spec i 31); simpl; [|by rewrite Hb].
  by rewrite (Z.testbit_neg_r 1) by lia.
Qed.

Lemma nth_seq_fmap (l : list Z) n : length l = n -> (fun w => nth w l 0) <$> seq 0 n = l.
Proof.
  intros <-. apply list_eq. intros i. rewrite list_lookup_fmap.
  destruct (decide (i < length l)%nat) as [Hi|Hi].
  - rewrite lookup_seq_lt by done. simpl.
    destruct (lookup_lt_is_Some_2 l i Hi) as [x Hx]. rewrite Hx.
    by rewrite (nth_lookup_Some _ _ _ _ Hx).
  - rewrite lookup_seq_ge, lookup_ge_None_2 by lia. done.
Qed.

(** What the register lookups need of a card program. *)
Record lookup_ready (cp : pw_card_program) : Prop := {
  lr_keys : distinct_keys cp;
  lr_map : forall e, e ∈ cp_map_entries cp -> 0 <= me_local_flow_id e < 64;
  lr_hash : forall e, e ∈ cp_hash_entries cp ->
    0 <= he_local_flow_id e < 64 /\ length (he_key_word e) = 11%nat;
  lr_mask : cp_hash_entries cp <> [] -> length (cp_hash_mask cp) = 11%nat
}.

Lemma reg_map_spec cp reg id : lookup_ready cp -> programmed cp reg ->
  0 <= id < PWFPGA_FLOWID_MAP_DEPTH -> reg_map_lookup reg id = flowid_map cp !! id.
Proof.
  intros Hl Hp Hid. unfold reg_map_lookup. apply option_eq. intros l.
  rewrite flowid_map_lookup by apply Hl.
  destruct (decide (id ∈ (me_flow_id <$> cp_map_entries cp))) as [Hin|Hn].
  - apply list_elem_of_fmap in Hin as (e & -> & He). rewrite (pg_map _ _ Hp _ He).
    rewrite entry_flow_valid by (pose proof (lr_map _ Hl _ He); lia). split.
    + intros [= <-]. by destruct e.
    + intros He'. pose proof (NoDup_fmap_elem _ _ _ _ (dk_map _ (lr_keys _ Hl)) He' He eq_refl) as E.
      by rewrite <- E.
  - rewrite (pg_map_off _ _ Hp) by done. change (entry_flow 0) with (@None Z).
    split; [done|]. intros He. exfalso.
    apply Hn, list_elem_of_fmap.
    by exists {| me_flow_id := id; me_local_flow_id := l |}.
Qed.

Lemma reg_hash_spec cp reg k : lookup_ready cp -> programmed cp reg -> length k = 11%nat ->
  reg_hash_lookup reg k = hash_lookup cp k.
Proof.
  intros Hl Hp Hk. unfold reg_hash_lookup, hash_lookup, PWFPGA_HASH_KEY_WORDS in *.
  destruct (decide (cp_hash_entries cp = [])) as [He|He].
  { rewrite (pg_hash_off _ _ Hp) by (apply hash_index_bound || (rewrite He; apply not_elem_of_nil)).
    rewrite He. change (entry_flow 0) with (@None Z).
    unfold hash_table. cbn [fold_left]. rewrite lookup_empty. by destruct (bool_decide _). }
  destruct (pg_hash_params _ _ Hp He) as [Hs Hm].
  assert ((fun w => reg (PWFPGA_HASH_MASK_WORD PWFPGA_WIN_HASH_MASK (Z.of_nat w))) <$> seq 0 11
          = cp_hash_mask cp) as ->.
  { rewrite <- (nth_seq_fmap (cp_hash_mask cp) 11 (lr_mask _ Hl He)). apply list_fmap_ext.
    intros i w Hw%lookup_seq. apply Hm. unfold PWFPGA_HASH_KEY_WORDS. lia. }
  rewrite Hs. set (mk := masked (cp_hash_mask cp) k). set (b := pw_fc_hash_index mk _).
  destruct (decide (b ∈ (he_index <$> cp_hash_entries cp))) as [Hin|Hn].
  - apply list_elem_of_fmap in Hin as (e & Hb & He').
    destruct (pg_hash _ _ Hp _ He') as [Hkw Hct]. destruct (lr_hash _ Hl _ He') as [Hlf Hlen].
    rewrite Hb in *. rewrite Hct, entry_flow_valid by lia.
    assert (hash_table (cp_hash_entries cp) !! he_index e =
            Some (he_key_word e, he_local_flow_id e)) as ->
      by (apply hash_table_lookup; [apply Hl|by exists e]).
    assert ((fun w => reg (PWFPGA_HASH_KEY_WORD PWFPGA_WIN_FC_HASH (he_index e) (Z.of_nat w)))
            <$> seq 0 11 = he_key_word e) as ->; [|done].
    rewrite <- (nth_seq_fmap (he_key_word e) 11 Hlen). apply list_fmap_ext.
    intros i w Hw%lookup_seq. apply Hkw. unfold PWFPGA_HASH_KEY_WORDS. lia.
  - rewrite (pg_hash_off _ _ Hp) by (apply hash_index_bound || done).
    change (entry_flow 0) with (@None Z).
    destruct (hash_table _ !! b) as [[k' l']|] eqn:E; [|by destruct (bool_decide _)].
    exfalso. apply hash_table_lookup in E as (e & He' & Hb & _); [|apply Hl].
    apply Hn, list_elem_of_fmap. by exists e.
Qed.

(** A compiled card program is acceptable to the programming step. *)
Lemma compiled_deployable cfg p cp : compiled cfg p -> cp ∈ p_per_card p ->
  (forall f, f ∈ cfg_flows cfg -> 0 <= f_id f) ->
  program_fits cp = true /\ typed_program cp /\ lookup_ready cp.
Proof.
  intros Hc Hin Hids.
  destruct (compiled_card_fits _ _ _ Hc Hin) as ([Hr Hcm Hud Hru _] & Hni & Hix & Hnm & Hfl).
  destruct Hr as [R1 _ R3 R4 R5]. rewrite flow_table_rows_64 in R1. split_and!.
  - unfold program_fits. rewrite !andb_true_iff, !Z.leb_le, !forallb_forall.
    split_and!; try done; intros e He%list_elem_of_In; apply Z.ltb_lt.
    + apply R3, He.
    + apply Hix, He.
  - split; [|intros e He; by apply Hix]. intros e He. destruct (Hfl e He) as (f & Hf & <-). auto.
  - split; [by split| | |].
    + intros e He. destruct (R3 e He). lia.
    + intros e He. destruct (R5 e He). split; [lia|done].
    + intros Hne. destruct (compiled_card _ _ _ Hc Hin) as (cp0 & [_ _ _ Hpl]).
      rewrite (pl_mask _ _ _ Hpl); [apply hash_mask_length|]. intros E.
      pose proof (Forall2_length _ _ _ (pl_entries _ _ _ Hpl)) as Hl. rewrite E in Hl.
      by destruct (cp_hash_entries cp).
Qed.

End OnCard.

(** ** Witnesses: the sample configuration on the BAR backend *)

Definition toy_ctx : bar_ctx toy_card unit :=
  {| bc_size := 0x10000; bc_csr_off := 0; bc_dma := None;
     bc_dev := {| tc_word := fun o => if o =? PWFPGA_REG_NUM_LOCAL_FLOWS then 32 else 0xFFFFFFFF;
                  tc_live := fun _ => [] |};
     bc_xdma := tt; bc_fault := false |}.

Definition toy_ops : pw_card_backend_ops (bar_ctx toy_card unit) :=
  bar_ops toy_bar dead_dev (fun _ => true) 0.

#[export] Instance toy_tables : CardTables toy_ops :=
  bar_card_tables toy_bar dead_dev (fun _ => true) 0 0x10000 0.

Lemma toy_whole : whole_card 0x10000 0 toy_ctx.
Proof. split; [|vm_compute; discriminate]. split; try done. left. by vm_compute. Qed.

Lemma toy_room cp : n_rows cp <= 32 -> has_room toy_ops cp toy_ctx.
Proof.
  intros H i Hi. vm_compute in Hi. injection Hi as <-. unfold over_capacity. simpl.
  apply Z.ltb_ge. exact H.
Qed.

Lemma s_ids_nonneg : forall f, f ∈ cfg_flows s_cfg -> 0 <= f_id f.
Proof. apply Forall_forall. by repeat constructor. Qed.

Lemma s_cp1_deployable : program_fits (s_cp 1) = true /\ typed_program (s_cp 1) /\
  lookup_ready (s_cp 1).
Proof.
  apply (compiled_deployable s_cfg s_prog); [|exact s_cp1_in|exact s_ids_nonneg].
  apply pw_flow_compile_compiled, s_cfg_compiles.
Qed.


Lemma program_determined_witness :
  let r := pw_program_card_tables_diag toy_ops (s_cp 1) toy_ctx in
  r.2 = Ok tt /\ programmed (s_cp 1) (csr_reg r.1).
Proof.
  destruct s_cp1_deployable as (Hf & Ht & Hr).
  destruct (program_determined toy_ops (s_cp 1) toy_ctx Hf Ht (lr_keys _ Hr)) as (H1 & _ & _ & H4 & _).
  - apply toy_room. vm_compute. discriminate.
  - exact toy_whole.
  - exact toy_whole.
  - split; [exact H1|exact H4].
Defined.

(** A hand-built program whose map entry is out of range. *)
Definition s_bad_cp : pw_card_program :=
  append_map (new_card_program 7) PWFPGA_FLOWID_MAP_DEPTH 0.

Lemma program_refused_witness :
  program_fits s_bad_cp = false /\
  pw_program_card_tables_diag toy_ops s_bad_cp toy_ctx = (toy_ctx, Err (fail_bare PW_E_INVAL)).
Proof.
  split; [reflexivity|]. apply (program_refused toy_ops s_bad_cp toy_ctx). reflexivity.
Defined.

Lemma program_reports_witness :
  pw_program_card_tables toy_ops (new_card_program 7) toy_ctx =
  let run := run_all (all_calls toy_ops (new_card_program 7) (probe_info toy_ops toy_ctx).2)
               (probe_info toy_ops toy_ctx).1 in
  (run.1, worst_of (missing_ops toy_ops (new_card_program 7)) run.2).
Proof.
  apply (program_reports toy_ops (new_card_program 7) toy_ctx); [reflexivity|].
  apply toy_room. vm_compute. discriminate.
Defined.

Lemma program_in_windows_witness :
  program_fits (s_cp 1) = true /\
  in_window PWFPGA_WIN_HASH_MASK PWFPGA_WIN_FLOW_TABLE (hash_writes (s_cp 1)).
Proof.
  split; [reflexivity|].
  apply (program_in_windows (s_cp 1)); [reflexivity|apply s_cp1_deployable].
Defined.

(** The access-safety theorem at an attach to a plain 64 KB BAR. *)
Lemma bar_access_in_map_witness :
  (bar_backend_attach toy_bar 0x10000 None
     {| tc_word := fun _ => 0; tc_live := fun _ => [] |} tt).2 = PW_OK /\
  exists co, bar_ok 0x10000 co (bar_backend_attach toy_bar 0x10000 None
     {| tc_word := fun _ => 0; tc_live := fun _ => [] |} tt).1.
Proof.
  split; [reflexivity|].
  apply (bar_access_in_map toy_bar dead_dev (fun _ => true) 0 0x10000 None
    {| tc_word := fun _ => 0; tc_live := fun _ => [] |} tt); [discriminate|reflexivity].
Defined.
