(* ===== verification/BackendFake.v ===== *)
(** * The fake backend

    Models [sw/libpacketwyrm/src/backend_fake.c]: the software card used by the
    tests and on machines without hardware. Its slow-path FIFOs are rings of 64
    entries; the unused [cls] arrays are left out. Each FIFO operation runs under
    the FIFO's mutex, so it is one step. The presence of the two test-hook flag
    files is a parameter of a register write. *)

From S2P Require Import Prelude Types Csr Backend.

Definition FAKE_NUM_FLOWS : Z := 256.
Definition FAKE_NUM_CLASSIFIER : Z := 256.
Definition FAKE_NUM_HIST_BINS : nat := 64.
Definition FAKE_SLOW_PATH_DEPTH : nat := 64.
Definition FAKE_SLOW_FRAME_MAX : nat := 2048.
Definition FAKE_FRAMES_PER_SNAPSHOT : Z := 1000.

(** ** Slow-path FIFOs *)

(** [se_data] is the valid prefix of the entry's buffer, [len] its length. *)
Record fake_slow_entry := {
  se_data : list Z;
  se_lif : Z;
  se_egress : Z
}.

Definition zero_entry : fake_slow_entry := {| se_data := []; se_lif := 0; se_egress := 0 |}.

Record fake_slow_fifo := {
  sf_q : list fake_slow_entry;
  sf_head : nat;
  sf_tail : nat;
  sf_count : nat
}.

Definition zero_fifo : fake_slow_fifo :=
  {| sf_q := replicate FAKE_SLOW_PATH_DEPTH zero_entry; sf_head := 0; sf_tail := 0;
     sf_count := 0 |}.

(** The new FIFO, and whether the frame was queued ([rc = 0]). *)
Definition slow_push (f : fake_slow_fifo) (data : list Z) (lif egress : Z)
    : fake_slow_fifo * bool :=
  if (sf_count f <? FAKE_SLOW_PATH_DEPTH)%nat && (length data <=? FAKE_SLOW_FRAME_MAX)%nat then
    let e := {| se_data := data; se_lif := lif; se_egress := egress |} in
    ({| sf_q := <[sf_head f := e]> (sf_q f);
        sf_head := ((sf_head f + 1) mod FAKE_SLOW_PATH_DEPTH)%nat;
        sf_tail := sf_tail f; sf_count := sf_count f + 1 |}, true)
  else (f, false).

(** The entry popped, its data cut to [buflen]; the return value is its length. *)
Definition slow_pop (f : fake_slow_fifo) (buflen : nat) : fake_slow_fifo * option fake_slow_entry :=
  if (0 <? sf_count f)%nat then
    let e := default zero_entry (sf_q f !! sf_tail f) in
    let copy := if (length (se_data e) <? buflen)%nat then length (se_data e) else buflen in
    ({| sf_q := sf_q f; sf_head := sf_head f;
        sf_tail := ((sf_tail f + 1) mod FAKE_SLOW_PATH_DEPTH)%nat; sf_count := sf_count f - 1 |},
     Some {| se_data := take copy (se_data e); se_lif := se_lif e; se_egress := se_egress e |})
  else (f, None).

(** ** The context *)

Record pw_fake_wr_counts := {
  wc_flowid_map : Z;
  wc_fc_cmp : Z;
  wc_fc_udf : Z;
  wc_fc_rule : Z;
  wc_hash : Z
}.

Record fake_ctx := {
  fk_pci : string;
  fk_global_ctl : Z;
  fk_global_status : Z;
  fk_timestamp : Z;
  fk_port : list pw_port_stats;
  fk_flow : list pwfpga_flow_config;
  fk_flow_staged : list pwfpga_flow_config;
  fk_flow_stats : list pw_flow_stats;
  fk_flow_stats_snapshot : list pw_flow_stats;
  fk_punt_rx : fake_slow_fifo;
  fk_tx_inject : fake_slow_fifo;
  fk_wr : pw_fake_wr_counts;
  fk_fail_armed : bool;
  fk_flag_was_present : bool
}.

(** Whether [PW_FAKE_FAIL_FLAG] and [PW_FAKE_FAIL_FLAG_STICKY] name files that
    exist. *)
Record fake_env := { fe_oneshot : bool; fe_sticky : bool }.

Definition nflows : nat := Z.to_nat FAKE_NUM_FLOWS.

Definition pw_fake_backend_open (pci_bdf : option string) : fake_ctx :=
  {| fk_pci := match pci_bdf with Some s => cstr PW_PCI_BDF_MAX s | None => ""%string end;
     fk_global_ctl := 0; fk_global_status := 0; fk_timestamp := 0;
     fk_port := replicate PW_PORTS_PER_CARD zero_port_stats;
     fk_flow := replicate nflows zero_flow_config;
     fk_flow_staged := replicate nflows zero_flow_config;
     fk_flow_stats := replicate nflows zero_flow_stats;
     fk_flow_stats_snapshot := replicate nflows zero_flow_stats;
     fk_punt_rx := zero_fifo; fk_tx_inject := zero_fifo;
     fk_wr := {| wc_flowid_map := 0; wc_fc_cmp := 0; wc_fc_udf := 0; wc_fc_rule := 0;
                 wc_hash := 0 |};
     fk_fail_armed := false; fk_flag_was_present := false |}.
(** Field updates. *)
Definition set_hook (c : fake_ctx) (armed present : bool) : fake_ctx :=
  {| fk_pci := fk_pci c; fk_global_ctl := fk_global_ctl c;
     fk_global_status := fk_global_status c; fk_timestamp := fk_timestamp c;
     fk_port := fk_port c; fk_flow := fk_flow c; fk_flow_staged := fk_flow_staged c;
     fk_flow_stats := fk_flow_stats c; fk_flow_stats_snapshot := fk_flow_stats_snapshot c;
     fk_punt_rx := fk_punt_rx c; fk_tx_inject := fk_tx_inject c; fk_wr := fk_wr c;
     fk_fail_armed := armed; fk_flag_was_present := present |}.

Definition set_control (c : fake_ctx) (ctl status : Z) : fake_ctx :=
  {| fk_pci := fk_pci c; fk_global_ctl := ctl; fk_global_status := status;
     fk_timestamp := fk_timestamp c; fk_port := fk_port c; fk_flow := fk_flow c;
     fk_flow_staged := fk_flow_staged c; fk_flow_stats := fk_flow_stats c;
     fk_flow_stats_snapshot := fk_flow_stats_snapshot c; fk_punt_rx := fk_punt_rx c;
     fk_tx_inject := fk_tx_inject c; fk_wr := fk_wr c; fk_fail_armed := fk_fail_armed c;
     fk_flag_was_present := fk_flag_was_present c |}.

Definition set_stats (c : fake_ctx) (port : list pw_port_stats) (live snap : list pw_flow_stats) : fake_ctx :=
  {| fk_pci := fk_pci c; fk_global_ctl := fk_global_ctl c;
     fk_global_status := fk_global_status c; fk_timestamp := fk_timestamp c;
     fk_port := port; fk_flow := fk_flow c; fk_flow_staged := fk_flow_staged c;
     fk_flow_stats := live; fk_flow_stats_snapshot := snap; fk_punt_rx := fk_punt_rx c;
     fk_tx_inject := fk_tx_inject c; fk_wr := fk_wr c; fk_fail_armed := fk_fail_armed c;
     fk_flag_was_present := fk_flag_was_present c |}.

Definition set_timestamp (c : fake_ctx) (ts : Z) : fake_ctx :=
  {| fk_pci := fk_pci c; fk_global_ctl := fk_global_ctl c;
     fk_global_status := fk_global_status c; fk_timestamp := ts; fk_port := fk_port c;
     fk_flow := fk_flow c; fk_flow_staged := fk_flow_staged c;
     fk_flow_stats := fk_flow_stats c; fk_flow_stats_snapshot := fk_flow_stats_snapshot c;
     fk_punt_rx := fk_punt_rx c; fk_tx_inject := fk_tx_inject c; fk_wr := fk_wr c;
     fk_fail_armed := fk_fail_armed c; fk_flag_was_present := fk_flag_was_present c |}.

Definition set_wr (c : fake_ctx) (w : pw_fake_wr_counts) : fake_ctx :=
  {| fk_pci := fk_pci c; fk_global_ctl := fk_global_ctl c;
     fk_global_status := fk_global_status c; fk_timestamp := fk_timestamp c;
     fk_port := fk_port c; fk_flow := fk_flow c; fk_flow_staged := fk_flow_staged c;
     fk_flow_stats := fk_flow_stats c; fk_flow_stats_snapshot := fk_flow_stats_snapshot c;
     fk_punt_rx := fk_punt_rx c; fk_tx_inject := fk_tx_inject c; fk_wr := w;
     fk_fail_armed := fk_fail_armed c; fk_flag_was_present := fk_flag_was_present c |}.

Definition set_flows (c : fake_ctx) (live staged : list pwfpga_flow_config) : fake_ctx :=
  {| fk_pci := fk_pci c; fk_global_ctl := fk_global_ctl c;
     fk_global_status := fk_global_status c; fk_timestamp := fk_timestamp c;
     fk_port := fk_port c; fk_flow := live; fk_flow_staged := staged;
     fk_flow_stats := fk_flow_stats c; fk_flow_stats_snapshot := fk_flow_stats_snapshot c;
     fk_punt_rx := fk_punt_rx c; fk_tx_inject := fk_tx_inject c; fk_wr := fk_wr c;
     fk_fail_armed := fk_fail_armed c; fk_flag_was_present := fk_flag_was_present c |}.

Definition set_fifos (c : fake_ctx) (rx tx : fake_slow_fifo) : fake_ctx :=
  {| fk_pci := fk_pci c; fk_global_ctl := fk_global_ctl c;
     fk_global_status := fk_global_status c; fk_timestamp := fk_timestamp c;
     fk_port := fk_port c; fk_flow := fk_flow c; fk_flow_staged := fk_flow_staged c;
     fk_flow_stats := fk_flow_stats c; fk_flow_stats_snapshot := fk_flow_stats_snapshot c;
     fk_punt_rx := rx; fk_tx_inject := tx; fk_wr := fk_wr c;
     fk_fail_armed := fk_fail_armed c; fk_flag_was_present := fk_flag_was_present c |}.

(** ** Registers *)

Definition fake_read32 (off : Z) (c : fake_ctx) : fake_ctx * (pw_status * Z) :=
  let v :=
    if off =? PWFPGA_REG_DEVICE_ID then 0xA502BEEF
    else if off =? PWFPGA_REG_VERSION then 0x00010000
    else if off =? PWFPGA_REG_BUILD_ID then 0xFACE0000
    else if off =? PWFPGA_REG_GIT_HASH then 0xDEADBEEF
    else if off =? PWFPGA_REG_CAPABILITIES then PWFPGA_CAP_HAS_HISTOGRAM
    else if off =? PWFPGA_REG_NUM_LOCAL_PORTS then Z.of_nat PW_PORTS_PER_CARD
    else if off =? PWFPGA_REG_NUM_LOCAL_FLOWS then FAKE_NUM_FLOWS
    else if off =? PWFPGA_REG_NUM_LOGICAL_IFS then 256
    else if off =? PWFPGA_REG_NUM_CLASSIFIER then FAKE_NUM_CLASSIFIER
    else if off =? PWFPGA_REG_NUM_HIST_BINS then Z.of_nat FAKE_NUM_HIST_BINS
    else if off =? PWFPGA_REG_GLOBAL_CONTROL then fk_global_ctl c
    else if off =? PWFPGA_REG_GLOBAL_STATUS then fk_global_status c
    else if off =? PWFPGA_REG_TIMESTAMP_LOW then u32 (fk_timestamp c)
    else if off =? PWFPGA_REG_TIMESTAMP_HIGH then u32 (fk_timestamp c >>> 32)
    else 0 in
  (c, (PW_OK, v)).

(** The [DP_RESET] test hook: arm the next commit to fail. *)
Definition fake_hook (e : fake_env) (c : fake_ctx) : fake_ctx :=
  let armed := if fe_sticky e then true
               else if fe_oneshot e && negb (fk_flag_was_present c) then true
               else fk_fail_armed c in
  set_hook c armed (fe_oneshot e).

Definition zero_ports : list pw_port_stats := replicate PW_PORTS_PER_CARD zero_port_stats.
Definition zero_flows : list pw_flow_stats := replicate nflows zero_flow_stats.

Definition in_range (off lo hi : Z) : bool := (lo <=? off) && (off <? hi).

(** Count a write by the window it hits. *)
Definition count_write (off : Z) (w : pw_fake_wr_counts) : pw_fake_wr_counts :=
  let inc := fun b z => if b : bool then u32 (z + 1) else z in
  let m := in_range off PWFPGA_WIN_FLOWID_MAP (PWFPGA_WIN_FLOWID_MAP + 0x400) in
  let cm := in_range off PWFPGA_WIN_FC_CMP PWFPGA_WIN_FC_UDF in
  let ud := in_range off PWFPGA_WIN_FC_UDF PWFPGA_WIN_FC_RULE in
  let ru := in_range off PWFPGA_WIN_FC_RULE (PWFPGA_WIN_FC_RULE + PWFPGA_NUM_RULE * 16) in
  let ha := in_range off PWFPGA_WIN_HASH_MASK (PWFPGA_WIN_FC_HASH + 0x2000) in
  {| wc_flowid_map := inc m (wc_flowid_map w);
     wc_fc_cmp := inc (negb m && cm) (wc_fc_cmp w);
     wc_fc_udf := inc (negb m && negb cm && ud) (wc_fc_udf w);
     wc_fc_rule := inc (negb m && negb cm && negb ud && ru) (wc_fc_rule w);
     wc_hash := inc (negb m && negb cm && negb ud && negb ru && ha) (wc_hash w) |}.

Definition fake_write32 (e : fake_env) (off v : Z) (c : fake_ctx) : fake_ctx * pw_status :=
  let c := if off =? PWFPGA_REG_DP_RESET then fake_hook e c else c in
  if off =? PWFPGA_REG_GLOBAL_CONTROL then
    let st := fk_global_status c in
    let st := if ztrue (v &&& PWFPGA_GCTL_ENABLE) then st ||| PWFPGA_GSTAT_READY else st in
    let st := if ztrue (v &&& PWFPGA_GCTL_ARM) then st ||| PWFPGA_GSTAT_ARMED else st in
    let c := set_control c v st in
    (if ztrue (v &&& PWFPGA_GCTL_RESET_COUNTERS)
     then set_stats c zero_ports zero_flows (fk_flow_stats_snapshot c) else c, PW_OK)
  else if (off =? PWFPGA_REG_ERROR_STATUS) || (off =? PWFPGA_REG_IRQ_STATUS) then (c, PW_OK)
  else if off =? PWFPGA_REG_STATS_CLEAR then (set_stats c zero_ports zero_flows zero_flows, PW_OK)
  else (set_wr c (count_write off (fk_wr c)), PW_OK).

Definition pw_fake_backend_wr_counts (c : fake_ctx) : pw_fake_wr_counts := fk_wr c.

Definition fake_card_info (c : fake_ctx) : fake_ctx * (pw_status * pw_card_info) :=
  (c, (PW_OK, {| ci_device_id := 0xA502BEEF; ci_version := 0x00010000; ci_build_id := 0xFACE0000;
                 ci_git_hash := 0xDEADBEEF; ci_capabilities := PWFPGA_CAP_HAS_HISTOGRAM;
                 ci_num_local_ports := Z.of_nat PW_PORTS_PER_CARD;
                 ci_num_local_flows := FAKE_NUM_FLOWS; ci_num_logical_interfaces := 256;
                 ci_num_classifier_entries := FAKE_NUM_CLASSIFIER |})).

(** ** Flow table and statistics *)

Definition fake_flow_write (row : Z) (f : pwfpga_flow_config) (c : fake_ctx)
    : fake_ctx * pw_status :=
  if FAKE_NUM_FLOWS <=? row then (c, PW_E_OUT_OF_RANGE)
  else (set_flows c (fk_flow c) (<[Z.to_nat row := f]> (fk_flow_staged c)), PW_OK).

Definition fake_flow_commit (c : fake_ctx) : fake_ctx * pw_status :=
  if fk_fail_armed c then (set_hook c false (fk_flag_was_present c), PW_E_IO)
  else (set_flows c (fk_flow_staged c) (fk_flow_staged c), PW_OK).

(** One row's counters advance when its generator gate is on. *)
Definition fake_advance (f : pwfpga_flow_config) (s : pw_flow_stats) : pw_flow_stats :=
  if negb (ztrue (fc_enable f)) || negb (ztrue (fc_tx_enable f)) then s else
  let flen := if ztrue (fc_frame_len_min f) then fc_frame_len_min f else 64 in
  let rx := ztrue (fc_rx_check_enable f) in
  let rxf := if rx then u64 (fs_rx_frames s + FAKE_FRAMES_PER_SNAPSHOT) else fs_rx_frames s in
  {| fs_tx_frames := u64 (fs_tx_frames s + FAKE_FRAMES_PER_SNAPSHOT);
     fs_tx_bytes := u64 (fs_tx_bytes s + FAKE_FRAMES_PER_SNAPSHOT * flen);
     fs_rx_frames := rxf;
     fs_rx_bytes := if rx then u64 (fs_rx_bytes s + FAKE_FRAMES_PER_SNAPSHOT * flen)
                    else fs_rx_bytes s;
     fs_last_sequence := if rx then rxf else fs_last_sequence s;
     fs_sequence_gap_count := fs_sequence_gap_count s;
     fs_lost_packets_estimated := fs_lost_packets_estimated s;
     fs_duplicate_count := fs_duplicate_count s;
     fs_out_of_order_count := fs_out_of_order_count s;
     fs_late_packet_count := fs_late_packet_count s;
     fs_min_latency := fs_min_latency s; fs_max_latency := fs_max_latency s;
     fs_sum_latency := fs_sum_latency s; fs_sample_count := fs_sample_count s;
     fs_jitter_min := fs_jitter_min s; fs_jitter_max := fs_jitter_max s;
     fs_jitter_sum := fs_jitter_sum s |}.

Definition fake_stats_snapshot (c : fake_ctx) : fake_ctx * pw_status :=
  let live := zip_with fake_advance (fk_flow c) (fk_flow_stats c) in
  let c := set_timestamp c (u64 (fk_timestamp c + PWFPGA_DATA_PLANE_CLOCK_HZ / 10)) in
  (set_stats c (fk_port c) live live, PW_OK).

Definition fake_port_stats_read (local_port : Z) (c : fake_ctx) : fake_ctx * M pw_port_stats :=
  if Z.of_nat PW_PORTS_PER_CARD <=? local_port then (c, Err (fail_bare PW_E_INVAL))
  else (c, Ok (default zero_port_stats (fk_port c !! Z.to_nat local_port))).

Definition fake_flow_stats_read (lfid : Z) (c : fake_ctx) : fake_ctx * M pw_flow_stats :=
  if FAKE_NUM_FLOWS <=? lfid then (c, Err (fail_bare PW_E_INVAL))
  else (c, Ok (default zero_flow_stats (fk_flow_stats_snapshot c !! Z.to_nat lfid))).

Definition fake_flow_hist_read (lfid : Z) (n_buckets : nat) (c : fake_ctx)
    : fake_ctx * M (list Z) :=
  let n := if (n_buckets <? FAKE_NUM_HIST_BINS)%nat then n_buckets else FAKE_NUM_HIST_BINS in
  (c, Ok (replicate n 0)).

(** ** Slow path *)

Definition fake_slow_path_rx (buflen : nat) (c : fake_ctx) : fake_ctx * M (option rx_frame) :=
  let '(f, r) := slow_pop (fk_punt_rx c) buflen in
  (set_fifos c f (fk_tx_inject c),
   Ok ((fun e => {| rxf_bytes := se_data e; rxf_lif := se_lif e; rxf_ts := 0 |}) <$> r)).

Definition fake_slow_path_tx (frame : list Z) (logical_if_id egress_local_port : Z) (c : fake_ctx)
    : fake_ctx * pw_status :=
  let '(f, queued) := slow_push (fk_tx_inject c) frame logical_if_id egress_local_port in
  (set_fifos c (fk_punt_rx c) f, if queued then PW_OK else PW_E_NO_RESOURCES).

Definition fake_ops (e : fake_env) : pw_card_backend_ops fake_ctx :=
  {| op_read32 := Some fake_read32;
     op_write32 := Some (fake_write32 e);
     op_card_info := Some fake_card_info;
     op_flow_write := Some fake_flow_write;
     op_flow_commit := Some fake_flow_commit;
     op_stats_snapshot := Some fake_stats_snapshot;
     op_port_stats_read := Some fake_port_stats_read;
     op_flow_stats_read := Some fake_flow_stats_read;
     op_flow_hist_read := Some fake_flow_hist_read;
     op_slow_path_rx := Some fake_slow_path_rx;
     op_slow_path_tx := Some fake_slow_path_tx |}.

(** ** Test helpers *)

Definition pw_fake_backend_inject_punt (logical_if_id : Z) (frame : list Z) (c : fake_ctx)
    : fake_ctx * pw_status :=
  let '(f, queued) := slow_push (fk_punt_rx c) frame logical_if_id 0 in
  (set_fifos c f (fk_tx_inject c), if queued then PW_OK else PW_E_NO_RESOURCES).

Definition pw_fake_backend_drain_tx (buflen : nat) (c : fake_ctx)
    : fake_ctx * option fake_slow_entry :=
  let '(f, r) := slow_pop (fk_tx_inject c) buflen in (set_fifos c (fk_punt_rx c) f, r).
