(* ===== verification/FakeProps.v ===== *)
(** * Theorems about the fake backend

    Its ring FIFOs refine bounded queues, its counters advance exactly for the
    committed rows whose generator gate is on, its fault hook fails one commit,
    and programming it commits the program's rows and leaves in the write
    counters the number of register writes of each table. *)

From S2P Require Import Prelude Types Csr FlowCompiler Samples Backend Programming ProgrammingProps.
From S2P Require Import BackendFake.

(** ** The FIFO is a bounded queue *)

Inductive fifo_op :=
| OpPush (data : list Z) (lif egress : Z)
| OpPop (buflen : nat).

(** The specification: a list of at most 64 entries. *)
Definition spec_step (op : fifo_op) (q : list fake_slow_entry)
    : list fake_slow_entry * (bool + option fake_slow_entry) :=
  match op with
  | OpPush data lif egress =>
      if (length q <? 64)%nat && (length data <=? 2048)%nat
      then (q ++ [{| se_data := data; se_lif := lif; se_egress := egress |}], inl true)
      else (q, inl false)
  | OpPop buflen =>
      match q with
      | [] => ([], inr None)
      | e :: q => (q, inr (Some {| se_data := take buflen (se_data e); se_lif := se_lif e;
                                   se_egress := se_egress e |}))
      end
  end.

Definition impl_step (op : fifo_op) (f : fake_slow_fifo)
    : fake_slow_fifo * (bool + option fake_slow_entry) :=
  match op with
  | OpPush data lif egress => let '(f, b) := slow_push f data lif egress in (f, inl b)
  | OpPop buflen => let '(f, r) := slow_pop f buflen in (f, inr r)
  end.

(** The answers to a sequence of operations. *)
Fixpoint answers {S A} (step : fifo_op -> S -> S * A) (ops : list fifo_op) (s : S) : list A :=
  match ops with
  | [] => []
  | op :: ops => let '(s, a) := step op s in a :: answers step ops s
  end.

(** The ring [f] holds the queue [q]. *)
Record holds (f : fake_slow_fifo) (q : list fake_slow_entry) : Prop := {
  hd_size : length (sf_q f) = 64%nat;
  hd_tail : (sf_tail f < 64)%nat;
  hd_count : sf_count f = length q;
  hd_bound : (length q <= 64)%nat;
  hd_head : sf_head f = ((sf_tail f + length q) mod 64)%nat;
  hd_at : forall i e, q !! i = Some e -> sf_q f !! ((sf_tail f + i) mod 64)%nat = Some e
}.

Lemma push_holds f q data lif egress : holds f q ->
  holds (impl_step (OpPush data lif egress) f).1 (spec_step (OpPush data lif egress) q).1 /\
  (impl_step (OpPush data lif egress) f).2 = (spec_step (OpPush data lif egress) q).2.
Proof.
  intros H. pose proof H as [Hs Ht Hc Hb Hh Ha].
  unfold impl_step, spec_step, slow_push, FAKE_SLOW_PATH_DEPTH, FAKE_SLOW_FRAME_MAX. rewrite Hc.
  destruct (Nat.ltb_spec (length q) 64) as [Hlt|]; [|by split].
  destruct (Nat.leb_spec (length data) 2048); [|by split]. cbn [andb]. split; [|done].
  split; cbn [fst sf_q sf_head sf_tail sf_count]; rewrite ?length_insert, ?length_app;
    cbn [length]; try done; try lia.
  - by rewrite Hh, Nat.Div0.add_mod_idemp_l, Nat.add_assoc.
  - intros i e [[Hlt' Hi]|[-> <-]]%lookup_snoc_Some.
    + rewrite list_lookup_insert_ne; [by apply Ha|]. rewrite Hh. intros E.
      pose proof (Nat.div_mod_eq (sf_tail f + length q) 64).
      pose proof (Nat.div_mod_eq (sf_tail f + i) 64). lia.
    + rewrite Hh. apply list_lookup_insert_eq. rewrite Hs. by apply Nat.mod_upper_bound.
Qed.

Lemma pop_holds f q n : holds f q ->
  holds (impl_step (OpPop n) f).1 (spec_step (OpPop n) q).1 /\
  (impl_step (OpPop n) f).2 = (spec_step (OpPop n) q).2.
Proof.
  intros H. pose proof H as [Hs Ht Hc Hb Hh Ha].
  unfold impl_step, spec_step, slow_pop, FAKE_SLOW_PATH_DEPTH. rewrite Hc.
  destruct q as [|e q]; [by split|]. change (0 <? length (e :: q))%nat with true.
  assert (sf_q f !! sf_tail f = Some e) as ->.
  { pose proof (Ha 0%nat e eq_refl) as H0. by rewrite Nat.add_0_r, Nat.mod_small in H0. }
  cbn [default from_option id]. split.
  - cbn [length] in Hb, Hh. split; cbn [fst sf_q sf_head sf_tail sf_count]; try done; try lia.
    + by apply Nat.mod_upper_bound.
    + simpl. lia.
    + rewrite Hh, Nat.Div0.add_mod_idemp_l.
      by replace (sf_tail f + 1 + length q)%nat with (sf_tail f + S (length q))%nat by lia.
    + intros i x Hi. rewrite Nat.Div0.add_mod_idemp_l.
      replace (sf_tail f + 1 + i)%nat with (sf_tail f + S i)%nat by lia. by apply Ha.
  - cbn [snd]. destruct (Nat.ltb_spec (length (se_data e)) n); [|done].
    by rewrite (take_ge _ n), firstn_all by lia.
Qed.

Lemma answers_refine ops : forall f q, holds f q ->
  answers impl_step ops f = answers spec_step ops q.
Proof.
  induction ops as [|op ops IH]; intros f q H; [done|].
  assert (holds (impl_step op f).1 (spec_step op q).1 /\
          (impl_step op f).2 = (spec_step op q).2) as [H1 H2]
    by (destruct op; [by apply push_holds|by apply pop_holds]).
  cbn [answers]. destruct (impl_step op f) as [f' a], (spec_step op q) as [q' b]. simpl in *.
  subst b. f_equal. by apply IH.
Qed.

(** Over any sequence of pushes and pops, the ring FIFO answers exactly as a
    queue of at most 64 frames of at most 2048 bytes: first in, first out, with
    the data cut to the caller's buffer, refusing when full or too long. *)
Theorem slow_fifo_refines (ops : list fifo_op) :
  answers impl_step ops zero_fifo = answers spec_step ops [].
Proof.
  apply answers_refine. split; simpl; try done; try lia.
Qed.

(** ** The traffic model *)

(** A context with its tables at full size. *)
Definition sized (c : fake_ctx) : Prop :=
  length (fk_flow c) = nflows /\ length (fk_flow_staged c) = nflows /\
  length (fk_flow_stats c) = nflows.

Fixpoint snapshots (n : nat) (c : fake_ctx) : fake_ctx :=
  match n with O => c | S n => snapshots n (fake_stats_snapshot c).1 end.

(** The generator gate of row [i] ([pw_flow_window.sv]): enable and tx_enable. *)
Definition gate_on (f : pwfpga_flow_config) : bool := ztrue (fc_enable f) && ztrue (fc_tx_enable f).

Lemma advance_tx f s : fs_tx_frames (fake_advance f s) =
  if gate_on f then u64 (fs_tx_frames s + 1000) else fs_tx_frames s.
Proof. unfold fake_advance, gate_on. by destruct (ztrue _), (ztrue _). Qed.

Lemma snapshots_row n : forall c i f s, sized c -> fk_flow c !! i = Some f ->
  fk_flow_stats c !! i = Some s -> is_u64 (fs_tx_frames s) ->
  exists s', fk_flow_stats (snapshots (S n) c) !! i = Some s' /\
    fk_flow_stats_snapshot (snapshots (S n) c) !! i = Some s' /\
    fs_tx_frames s' = if gate_on f then u64 (fs_tx_frames s + 1000 * Z.of_nat (S n))
                      else fs_tx_frames s.
Proof.
  induction n as [|n IH]; intros c i f s Hz Hf Hs Hw.
  - exists (fake_advance f s). simpl. rewrite !lookup_zip_with, Hf, Hs. split_and!; [done..|].
    apply advance_tx.
  - destruct Hz as (Z1 & Z2 & Z3).
    destruct (IH (fake_stats_snapshot c).1 i f (fake_advance f s)) as (s' & H1 & H2 & H3).
    + split_and!; simpl; [done|done|]. rewrite length_zip_with. lia.
    + done.
    + simpl. by rewrite lookup_zip_with, Hf, Hs.
    + rewrite advance_tx. destruct (gate_on f); [apply u64_w|done].
    + exists s'. split_and!; [exact H1|exact H2|]. rewrite H3, advance_tx.
      destruct (gate_on f); [|done]. unfold u64. rewrite Zplus_mod_idemp_l. f_equal. lia.
Qed.

(** After [n] snapshots ([n > 0]), the transmit counter read back for a row is
    [1000 n] frames further (modulo 2^64) when the committed row's generator gate
    is on, and unchanged when it is off. *)
Theorem fake_gate_counts (c : fake_ctx) (n : nat) (i : Z) (f : pwfpga_flow_config)
    (s : pw_flow_stats) :
  sized c -> 0 <= i < FAKE_NUM_FLOWS -> fk_flow c !! Z.to_nat i = Some f ->
  fk_flow_stats c !! Z.to_nat i = Some s -> is_u64 (fs_tx_frames s) ->
  exists s', (fake_flow_stats_read i (snapshots (S n) c)).2 = Ok s' /\
    fs_tx_frames s' = if gate_on f then u64 (fs_tx_frames s + 1000 * Z.of_nat (S n))
                      else fs_tx_frames s.
Proof.
  intros Hz Hi Hf Hs Hw. destruct (snapshots_row n c _ f s Hz Hf Hs Hw) as (s' & _ & H2 & H3).
  exists s'. split; [|done]. unfold fake_flow_stats_read.
  rewrite (proj2 (Z.leb_gt _ _)) by lia. cbn [snd]. by rewrite H2.
Qed.

(** A context running the first row of the sample program. *)
Definition s_row : pwfpga_flow_config := default zero_flow_config (cp_flow_rows (s_cp 0) !! 0%nat).
Definition s_started : fake_ctx :=
  (fake_flow_commit (fake_flow_write 3 s_row (pw_fake_backend_open None)).1).1.

Lemma fake_gate_counts_witness :
  gate_on s_row = true /\
  exists s', (fake_flow_stats_read 3 (snapshots 2 s_started)).2 = Ok s' /\ fs_tx_frames s' = 2000.
Proof.
  split; [reflexivity|].
  destruct (fake_gate_counts s_started 1 3 s_row zero_flow_stats) as (s' & H1 & H2);
    [by split_and!|done|reflexivity|reflexivity|done|].
  exists s'. split; [exact H1|]. rewrite H2. reflexivity.
Defined.

(** ** The fault hook *)

(** With the one-shot flag appearing, the [DP_RESET] write arms exactly one
    failure: the next commit returns [PW_E_IO] and promotes nothing, the commit
    after it succeeds and promotes the staged rows, also across another
    [DP_RESET] with the flag still there. With the sticky flag every [DP_RESET]
    arms a failure again. *)
Theorem fake_fail_once (c : fake_ctx) (v : Z) (sticky : bool) :
  fk_flag_was_present c = false -> fk_fail_armed c = false ->
  let e := {| fe_oneshot := true; fe_sticky := sticky |} in
  let c1 := (fake_write32 e PWFPGA_REG_DP_RESET v c).1 in
  let c2 := (fake_flow_commit c1).1 in
  let c3 := (fake_write32 e PWFPGA_REG_DP_RESET v c2).1 in
  (fake_flow_commit c1).2 = PW_E_IO /\ fk_flow c2 = fk_flow c /\
  fk_flow_staged c2 = fk_flow_staged c /\
  ((fake_flow_commit c2).2 = PW_OK /\ fk_flow (fake_flow_commit c2).1 = fk_flow_staged c) /\
  (fake_flow_commit c3).2 = if sticky then PW_E_IO else PW_OK.
Proof.
  intros Hp Ha. unfold fake_write32, fake_hook.
  change (PWFPGA_REG_DP_RESET =? PWFPGA_REG_DP_RESET) with true. cbv zeta.
  destruct sticky; cbn; rewrite ?Hp; cbn; rewrite ?Ha; done.
Qed.

Lemma fake_fail_once_witness :
  (fake_flow_commit (fake_write32 {| fe_oneshot := true; fe_sticky := false |}
     PWFPGA_REG_DP_RESET 1 (pw_fake_backend_open None)).1).2 = PW_E_IO.
Proof.
  apply (fake_fail_once (pw_fake_backend_open None) 1 false); reflexivity.
Defined.

(** ** Programming the fake *)

(** The five counted windows, their bounds, and adding to a counter. *)
Inductive win := WMap | WCmp | WUdf | WRule | WHash.

Definition win_bounds (k : win) : Z * Z :=
  match k with
  | WMap => (0x400, 0x800) | WCmp => (0x2000, 0x2100) | WUdf => (0x2100, 0x2200)
  | WRule => (0x2200, 0x2400) | WHash => (0x2F00, 0x5000)
  end.

Definition bump (k : win) (n : Z) (w : pw_fake_wr_counts) : pw_fake_wr_counts :=
  {| wc_flowid_map := match k with WMap => u32 (wc_flowid_map w + n) | _ => wc_flowid_map w end;
     wc_fc_cmp := match k with WCmp => u32 (wc_fc_cmp w + n) | _ => wc_fc_cmp w end;
     wc_fc_udf := match k with WUdf => u32 (wc_fc_udf w + n) | _ => wc_fc_udf w end;
     wc_fc_rule := match k with WRule => u32 (wc_fc_rule w + n) | _ => wc_fc_rule w end;
     wc_hash := match k with WHash => u32 (wc_hash w + n) | _ => wc_hash w end |}.

Definition tally (ws : list (Z * Z)) (w : pw_fake_wr_counts) : pw_fake_wr_counts :=
  fold_left (fun w ov => count_write ov.1 w) ws w.

Lemma in_range_spec off lo hi : in_range off lo hi = bool_decide (lo <= off < hi).
Proof.
  unfold in_range. case_bool_decide as H.
  - by rewrite (proj2 (Z.leb_le _ _)), (proj2 (Z.ltb_lt _ _)) by lia.
  - destruct (Z.leb_spec lo off); [|done]. destruct (Z.ltb_spec off hi); [lia|done].
Qed.

Lemma count_write_win k off w : (win_bounds k).1 <= off < (win_bounds k).2 ->
  count_write off w = bump k 1 w.
Proof.
  intros H. unfold count_write, bump. rewrite !in_range_spec.
  unfold PWFPGA_WIN_FLOWID_MAP, PWFPGA_WIN_FC_CMP, PWFPGA_WIN_FC_UDF, PWFPGA_WIN_FC_RULE,
    PWFPGA_NUM_RULE, PWFPGA_WIN_HASH_MASK, PWFPGA_WIN_FC_HASH.
  destruct k; simpl in H; repeat (case_bool_decide; [try lia|try lia]); reflexivity.
Qed.

Definition counts_ok (w : pw_fake_wr_counts) : Prop :=
  is_u32 (wc_flowid_map w) /\ is_u32 (wc_fc_cmp w) /\ is_u32 (wc_fc_udf w) /\
  is_u32 (wc_fc_rule w) /\ is_u32 (wc_hash w).

Lemma bump_ok k n w : counts_ok w -> counts_ok (bump k n w).
Proof. intros (? & ? & ? & ? & ?). destruct k; split_and!; simpl; try done; apply u32_w. Qed.

Lemma bump_0 k w : counts_ok w -> bump k 0 w = w.
Proof.
  intros (? & ? & ? & ? & ?). destruct w, k; unfold bump; simpl in *;
    by rewrite Z.add_0_r, u32_id.
Qed.

Lemma bump_bump k a b w : bump k b (bump k a w) = bump k (a + b) w.
Proof.
  destruct k; unfold bump; simpl; f_equal; unfold u32; rewrite Zplus_mod_idemp_l; f_equal; lia.
Qed.

Lemma tally_win k ws : in_window (win_bounds k).1 (win_bounds k).2 ws -> forall w, counts_ok w ->
  tally ws w = bump k (Z.of_nat (length ws)) w.
Proof.
  induction ws as [|x ws IH]; intros Hw w Hk; [by rewrite bump_0|].
  change (tally (x :: ws) w) with (tally ws (count_write x.1 w)).
  rewrite (count_write_win k) by (apply Hw; left). rewrite IH.
  - rewrite bump_bump. f_equal. simpl length. lia.
  - intros y Hy. apply Hw. by right.
  - by apply bump_ok.
Qed.

Lemma tally_app ws ws' w : tally (ws ++ ws') w = tally ws' (tally ws w).
Proof. apply fold_left_app. Qed.

Lemma set_wr_wr c w w' : set_wr (set_wr c w) w' = set_wr c w'.
Proof. done. Qed.

(** Table words reach the window counters and nothing else. *)
Lemma fake_write_table e off v c : csr_off_ok off ->
  fake_write32 e off v c = (set_wr c (count_write off (fk_wr c)), PW_OK).
Proof.
  intros [H _]. unfold fake_write32.
  assert (off <> PWFPGA_REG_DP_RESET /\ off <> PWFPGA_REG_GLOBAL_CONTROL /\
          off <> PWFPGA_REG_ERROR_STATUS /\ off <> PWFPGA_REG_IRQ_STATUS /\
          off <> PWFPGA_REG_STATS_CLEAR) as (H1 & H2 & H3 & H4 & H5).
  { csr. unfold PWFPGA_WIN_FC_CMP, PWFPGA_FLOWID_MAP_DEPTH, PWFPGA_REG_GLOBAL_CONTROL,
      PWFPGA_REG_ERROR_STATUS, PWFPGA_REG_IRQ_STATUS in *. lia. }
  apply Z.eqb_neq in H1, H2, H3, H4, H5. by rewrite H1, H2, H3, H4, H5.
Qed.

Lemma fake_run_writes e ws : (forall w, w ∈ ws -> csr_off_ok w.1) -> forall c,
  run_all ((fun ov => fake_write32 e ov.1 ov.2) <$> ws) c =
  (set_wr c (tally ws (fk_wr c)), replicate (length ws) PW_OK).
Proof.
  induction ws as [|x ws IH]; intros Hw c; [by destruct c|].
  rewrite fmap_cons. cbn [run_all]. rewrite fake_write_table by (apply Hw; left).
  rewrite IH by (intros y Hy; apply Hw; by right). by rewrite set_wr_wr.
Qed.

Definition stage (g : Z -> pwfpga_flow_config) (rs : list Z) (l : list pwfpga_flow_config) :=
  fold_left (fun l r => <[Z.to_nat r := g r]> l) rs l.

Lemma fake_run_rows g rs : (forall r, r ∈ rs -> r < FAKE_NUM_FLOWS) -> forall c,
  run_all ((fun r => fake_flow_write r (g r)) <$> rs) c =
  (set_flows c (fk_flow c) (stage g rs (fk_flow_staged c)), replicate (length rs) PW_OK).
Proof.
  induction rs as [|r rs IH]; intros Hr c; [by destruct c|].
  rewrite fmap_cons. cbn [run_all]. unfold fake_flow_write at 1.
  rewrite (proj2 (Z.leb_gt _ _)) by (apply Hr; left).
  rewrite IH by (intros y Hy; apply Hr; by right). done.
Qed.

Lemma stage_lookup g rs : (forall r, r ∈ rs -> 0 <= r) -> forall l i, (i < length l)%nat ->
  stage g rs l !! i = if decide (Z.of_nat i ∈ rs) then Some (g (Z.of_nat i)) else l !! i.
Proof.
  induction rs as [|r rs IH]; intros Hr l i Hi.
  { rewrite decide_False by apply not_elem_of_nil. done. }
  change (stage g (r :: rs) l) with (stage g rs (<[Z.to_nat r := g r]> l)).
  rewrite IH by (first [intros y Hy; apply Hr; by right | by rewrite length_insert]).
  assert (0 <= r) by (apply Hr; left). case_decide as H1.
  - by rewrite decide_True by (by right).
  - destruct (decide (Z.of_nat i = r)) as [<-|Hne].
    + rewrite decide_True by left. rewrite Nat2Z.id. by apply list_lookup_insert_eq.
    + rewrite decide_False by (by intros [?|?]%elem_of_cons). apply list_lookup_insert_ne. lia.
Qed.

(** Lengths of the write lists. *)
Lemma length_bind_const {A B} (f : A -> list B) n l :
  (forall x, x ∈ l -> length (f x) = n) -> length (l ≫= f) = (n * length l)%nat.
Proof.
  induction l as [|x l IH]; intros H; [simpl; lia|]. rewrite bind_cons, length_app, H, IH.
  - simpl. lia.
  - intros y Hy. apply H. by right.
  - left.
Qed.

Lemma length_indexed {A B} (xs : list A) (f : Z -> A -> list B) n :
  (forall i x, length (f i x) = n) ->
  length (seqZ 0 (Z.of_nat (length xs)) ≫= fun i =>
    match xs !! Z.to_nat i with Some x => f i x | None => [] end) = (n * length xs)%nat.
Proof.
  intros H. rewrite (length_bind_const _ n), length_seqZ, Nat2Z.id; [done|].
  intros i Hi%elem_of_seqZ. destruct (xs !! Z.to_nat i) eqn:E; [done|].
  apply lookup_ge_None in E. lia.
Qed.

Lemma rule_writes_split cp : (length (cp_fc_rules cp) <= 32)%nat ->
  length (rule_writes cp) = (32 + 2 * length (cp_fc_rules cp))%nat.
Proof.
  intros Hl. unfold rule_writes. change PWFPGA_NUM_RULE with 32.
  set (k := length (cp_fc_rules cp)) in *.
  replace 32 with (Z.of_nat k + (32 - Z.of_nat k)) at 1 by lia.
  rewrite seqZ_app by lia. rewrite bind_app, length_app.
  rewrite (length_bind_const _ 3), (length_bind_const _ 1), !length_seqZ; [lia| |].
  - intros i Hi%elem_of_seqZ. rewrite lookup_ge_None_2 by lia. done.
  - intros i Hi%elem_of_seqZ. destruct (cp_fc_rules cp !! Z.to_nat i) eqn:E; [done|].
    apply lookup_ge_None in E. lia.
Qed.

Lemma hash_writes_length cp : length (hash_writes cp) =
  (128 + if decide (cp_hash_entries cp = []) then 0 else 12 + 12 * length (cp_hash_entries cp))%nat.
Proof.
  rewrite hash_writes_eq, !length_app, length_fmap, length_seqZ.
  rewrite (length_bind_const _ 12) by done. case_decide as H; [by rewrite H|]. done.
Qed.

Lemma hash_window cp : program_fits cp = true -> typed_program cp ->
  in_window 0x2F00 0x5000 (hash_writes cp).
Proof.
  intros Hf Ht w Hw. rewrite hash_writes_eq, !elem_of_app in Hw.
  destruct Hw as [Hw|[Hw|Hw]]; [apply hash_clear_window in Hw|apply hash_param_opt_window in Hw
    |apply hash_entry_window in Hw; [|done..]]; split; lia.
Qed.

Definition zero_counts : pw_fake_wr_counts :=
  {| wc_flowid_map := 0; wc_fc_cmp := 0; wc_fc_udf := 0; wc_fc_rule := 0; wc_hash := 0 |}.

(** The writes of each table, counted. *)
Lemma tally_table cp : program_fits cp = true -> typed_program cp ->
  tally (table_writes cp) zero_counts =
    {| wc_flowid_map := u32 (256 + Z.of_nat (length (cp_map_entries cp)));
       wc_fc_cmp := 3 * Z.of_nat (length (cp_fc_cmps cp));
       wc_fc_udf := 3 * Z.of_nat (length (cp_fc_udfs cp));
       wc_fc_rule := 32 + 2 * Z.of_nat (length (cp_fc_rules cp));
       wc_hash := u32 (128 + if Z.of_nat (length (cp_hash_entries cp)) =? 0 then 0
                             else 12 + 12 * Z.of_nat (length (cp_hash_entries cp))) |}.
Proof.
  intros Hf Ht. pose proof (program_fits_spec _ Hf) as (_ & Hc & Hu & Hr & _).
  assert (counts_ok zero_counts) as Hk by (by split_and!).
  unfold table_writes. rewrite !tally_app.
  rewrite (tally_win WMap (map_writes cp) (map_window cp Hf Ht)) by (by repeat apply bump_ok).
  rewrite (tally_win WCmp (cmp_writes cp) (cmp_window cp Hf)) by (by repeat apply bump_ok).
  rewrite (tally_win WUdf (udf_writes cp) (udf_window cp Hf)) by (by repeat apply bump_ok).
  rewrite (tally_win WRule (rule_writes cp) (rule_window cp)) by (by repeat apply bump_ok).
  rewrite (tally_win WHash (hash_writes cp) (hash_window cp Hf Ht)) by (by repeat apply bump_ok).
  unfold bump. cbn [wc_flowid_map wc_fc_cmp wc_fc_udf wc_fc_rule wc_hash zero_counts].
  rewrite rule_writes_split, hash_writes_length by lia.
  unfold map_writes, cmp_writes, udf_writes.
  rewrite length_app, !length_fmap, length_seqZ, (length_indexed _ _ 3), (length_indexed _ _ 3)
    by done. change (Z.to_nat PWFPGA_FLOWID_MAP_DEPTH) with 256%nat.
  f_equal.
  - f_equal. lia.
  - rewrite u32_id by (unfold is_w; lia). lia.
  - rewrite u32_id by (unfold is_w; lia). lia.
  - rewrite u32_id by (unfold is_w; lia). lia.
  - f_equal. destruct (cp_hash_entries cp) as [|x es]; [done|]. rewrite decide_False by done.
    destruct (Z.eqb_spec (Z.of_nat (length (x :: es))) 0) as [H|]; [simpl in H; lia|]. lia.
Qed.

(** Rows, commit, registers on a fake card. *)
Lemma fake_sequence e g rs ws c : fk_fail_armed c = false ->
  (forall r, r ∈ rs -> r < FAKE_NUM_FLOWS) -> (forall w, w ∈ ws -> csr_off_ok w.1) ->
  run_all (((fun r => fake_flow_write r (g r)) <$> rs) ++ [fake_flow_commit] ++
           ((fun ov => fake_write32 e ov.1 ov.2) <$> ws)) c =
  let st := stage g rs (fk_flow_staged c) in
  (set_wr (set_flows c st st) (tally ws (fk_wr c)),
   replicate (length rs) PW_OK ++ [PW_OK] ++ replicate (length ws) PW_OK).
Proof.
  intros Ha Hr Hw. rewrite run_all_app, run_all_app, fake_run_rows by done.
  cbn [fst snd run_all]. unfold fake_flow_commit. cbn [fk_fail_armed set_flows]. rewrite Ha.
  by rewrite fake_run_writes by done.
Qed.

(** The calls made on a fake card. *)
Lemma fake_calls e cp info : ci_num_local_flows info = 256 -> n_rows cp <= 64 ->
  all_calls (fake_ops e) cp (Some info) =
  ((fun r => fake_flow_write r (row_image cp r)) <$> seqZ 0 64) ++ [fake_flow_commit] ++
  ((fun ov => fake_write32 e ov.1 ov.2) <$> table_writes cp).
Proof.
  intros Hi Hn. unfold all_calls, row_calls, flow_row_count. rewrite Hi.
  by rewrite (proj2 (Z.ltb_lt (n_rows cp) 256)) by lia.
Qed.

Lemma missing_ops_fake e cp : missing_ops (fake_ops e) cp = PW_OK.
Proof.
  unfold missing_ops. cbn [fake_ops op_flow_write op_flow_commit op_write32].
  rewrite !(bool_decide_eq_false_2 (Some _ = None)) by discriminate. by rewrite andb_false_r.
Qed.

(** Programming a fake card with zeroed counters succeeds, makes the
    program's rows live (zero rows beyond them, up to the 64 of the window), and
    leaves in the write counters the number of writes of each table: every map
    entry and configured id, three words per comparator, UDF and configured rule,
    one per disabled rule, every bucket and, when there are hash entries, the
    mask, the seed and twelve words per entry. *)
Theorem fake_program (e : fake_env) (cp : pw_card_program) (bdf : option string) :
  program_fits cp = true -> typed_program cp ->
  let r := pw_program_card_tables (fake_ops e) cp (pw_fake_backend_open bdf) in
  let nh := Z.of_nat (length (cp_hash_entries cp)) in
  r.2 = PW_OK /\
  (forall i, 0 <= i < PWFPGA_FLOW_TABLE_ROWS -> fk_flow r.1 !! Z.to_nat i = Some (row_image cp i)) /\
  pw_fake_backend_wr_counts r.1 =
    {| wc_flowid_map := u32 (256 + Z.of_nat (length (cp_map_entries cp)));
       wc_fc_cmp := 3 * Z.of_nat (length (cp_fc_cmps cp));
       wc_fc_udf := 3 * Z.of_nat (length (cp_fc_udfs cp));
       wc_fc_rule := 32 + 2 * Z.of_nat (length (cp_fc_rules cp));
       wc_hash := u32 (128 + if nh =? 0 then 0 else 12 + 12 * nh) |}.
Proof.
  intros Hf Ht. pose proof (program_fits_spec _ Hf) as (Hn & Hc & Hu & Hr & _).
  set (c0 := pw_fake_backend_open bdf). set (info := (fake_card_info c0).2.2).
  assert (pw_program_card_tables_diag (fake_ops e) cp c0 =
          run_calls (fake_ops e) cp (Some info) c0) as Hd.
  { unfold pw_program_card_tables_diag. rewrite Hf.
    change (probe_info (fake_ops e) c0) with (c0, Some info). cbn [negb]. unfold over_capacity.
    change (ci_num_local_flows info) with 256.
    by rewrite (proj2 (Z.ltb_ge 256 (n_rows cp))), andb_false_r by lia. }
  unfold pw_program_card_tables. rewrite Hd, run_calls_run.
  rewrite fake_calls, fake_sequence;
    [|done|intros r Hr'%elem_of_seqZ; unfold FAKE_NUM_FLOWS; lia
     |intros w; by apply table_writes_ok|done|lia].
  cbv zeta. set (st := stage _ _ _). rewrite missing_ops_fake, worst_of_ok
    by (repeat apply Forall_app_2; first [by apply Forall_replicate | by repeat constructor]).
  cbn [decide status_of fst snd]. split; [done|]. split.
  - intros i Hi. cbn [fk_flow set_wr set_flows]. unfold st. rewrite flow_table_rows_64 in Hi.
    rewrite stage_lookup, decide_True, Z2Nat.id; [done|lia|apply elem_of_seqZ; lia
      |intros r Hr'%elem_of_seqZ; lia|simpl; lia].
  - cbn [pw_fake_backend_wr_counts fk_wr set_wr]. by apply tally_table.
Qed.

Lemma s_cp1_typed : typed_program (s_cp 1).
Proof. split; apply Forall_forall; repeat constructor; by vm_compute. Qed.

Lemma fake_program_witness :
  let r := pw_program_card_tables (fake_ops {| fe_oneshot := false; fe_sticky := false |}) (s_cp 1)
             (pw_fake_backend_open None) in
  r.2 = PW_OK /\ wc_hash (pw_fake_backend_wr_counts r.1) = 164.
Proof.
  destruct (fake_program {| fe_oneshot := false; fe_sticky := false |} (s_cp 1) None)
    as (H1 & _ & H3); [reflexivity|exact s_cp1_typed|].
  split; [exact H1|]. rewrite H3. reflexivity.
Defined.
