(* ===== verification/Stats.v ===== *)
(** * Statistics aggregation

    Models [sw/libpacketwyrm/src/stats.c] and [stats.h]: the per-card counters,
    a (tx, rx) pair per flow in the order of the program's metadata, become the
    global per-flow view. *)

From S2P Require Import Prelude Types Config Validate Csr FlowCompiler Samples CompilerInv.
From S2P Require Import FieldClassifier CompilerFlows HashPlacement CompilerProps Backend.

Record pw_global_flow_stats := {
  gs_global_flow_id : Z;
  gs_tx_frames : Z;
  gs_tx_bytes : Z;
  gs_rx_frames : Z;
  gs_rx_bytes : Z;
  gs_lost_est : Z;
  gs_duplicate : Z;
  gs_out_of_order : Z;
  gs_late : Z;
  gs_sequence_gap_count : Z;
  gs_latency_valid : bool;
  gs_cross_card : bool;
  gs_min_latency_ns : Z;
  gs_max_latency_ns : Z;
  gs_sum_latency_ns : Z;
  gs_sample_count : Z;
  gs_jitter_min_ns : Z;
  gs_jitter_max_ns : Z;
  gs_jitter_sum_ns : Z
}.

(** [SIZE_MAX] and [sizeof(struct pw_global_flow_stats)] on a 64-bit ABI. *)
Definition SIZE_MAX : Z := 2 ^ 64 - 1.
Definition sizeof_global_flow_stats : Z := 128.

(** The loop body: metadata, then the transmit and receive side's counters. *)
Definition aggregate_one (m : pw_flow_meta) (tx_s rx_s : pw_flow_stats) : pw_global_flow_stats :=
  if m_rx_slot_valid m then
    {| gs_global_flow_id := m_global_flow_id m;
       gs_tx_frames := fs_tx_frames tx_s; gs_tx_bytes := fs_tx_bytes tx_s;
       gs_rx_frames := fs_rx_frames rx_s; gs_rx_bytes := fs_rx_bytes rx_s;
       gs_lost_est := fs_lost_packets_estimated rx_s; gs_duplicate := fs_duplicate_count rx_s;
       gs_out_of_order := fs_out_of_order_count rx_s; gs_late := fs_late_packet_count rx_s;
       gs_sequence_gap_count := fs_sequence_gap_count rx_s;
       gs_latency_valid := true; gs_cross_card := negb (m_latency_valid m);
       gs_min_latency_ns := fs_min_latency rx_s; gs_max_latency_ns := fs_max_latency rx_s;
       gs_sum_latency_ns := fs_sum_latency rx_s; gs_sample_count := fs_sample_count rx_s;
       gs_jitter_min_ns := fs_jitter_min rx_s; gs_jitter_max_ns := fs_jitter_max rx_s;
       gs_jitter_sum_ns := fs_jitter_sum rx_s |}
  else
    {| gs_global_flow_id := m_global_flow_id m;
       gs_tx_frames := fs_tx_frames tx_s; gs_tx_bytes := fs_tx_bytes tx_s;
       gs_rx_frames := 0; gs_rx_bytes := 0; gs_lost_est := 0; gs_duplicate := 0;
       gs_out_of_order := 0; gs_late := 0; gs_sequence_gap_count := 0;
       gs_latency_valid := false; gs_cross_card := false;
       gs_min_latency_ns := 0; gs_max_latency_ns := 0; gs_sum_latency_ns := 0;
       gs_sample_count := 0; gs_jitter_min_ns := 0; gs_jitter_max_ns := 0;
       gs_jitter_sum_ns := 0 |}.

(** [out] is the caller's array of [n_out] elements; entries past the flows keep
    their contents. Reading past [per_card] would be undefined: the model reads
    zeros there, and the checks exclude it. *)
Definition pw_stats_aggregate (prog : pw_program) (per_card : list pw_flow_stats)
    (out : list pw_global_flow_stats) : M (list pw_global_flow_stats) :=
  let n := Z.of_nat (length (p_flow_meta prog)) in
  fail_if (SIZE_MAX / 2 <? n) (fail_bare PW_E_INVAL) ;;
  fail_if (SIZE_MAX / sizeof_global_flow_stats <? n) (fail_bare PW_E_INVAL) ;;
  fail_if (Z.of_nat (length out) <? n) (fail_bare PW_E_INVAL) ;;
  fail_if (Z.of_nat (length per_card) <? n * 2) (fail_bare PW_E_INVAL) ;;
  let s := fun k => default zero_flow_stats (per_card !! k) in
  Ok (imap (fun i m => aggregate_one m (s (i * 2)%nat) (s (i * 2 + 1)%nat)) (p_flow_meta prog) ++
      drop (length (p_flow_meta prog)) out).

(** ** Theorems *)

Lemma aggregate_ok prog per_card out :
  Z.of_nat (length (p_flow_meta prog)) < 2 ^ 56 ->
  (length (p_flow_meta prog) <= length out)%nat ->
  (length (p_flow_meta prog) * 2 <= length per_card)%nat ->
  exists res, pw_stats_aggregate prog per_card out = Ok res /\ length res = length out /\
    (forall i m, p_flow_meta prog !! i = Some m -> exists t r,
       per_card !! (i * 2)%nat = Some t /\ per_card !! (i * 2 + 1)%nat = Some r /\
       res !! i = Some (aggregate_one m t r)) /\
    (forall i, (length (p_flow_meta prog) <= i)%nat -> res !! i = out !! i).
Proof.
  intros Hn Ho Hp. unfold pw_stats_aggregate, SIZE_MAX, sizeof_global_flow_stats.
  change ((2 ^ 64 - 1) / 2) with (2 ^ 63 - 1). change ((2 ^ 64 - 1) / 128) with (2 ^ 57 - 1).
  rewrite !(proj2 (Z.ltb_ge _ _)) by lia. simpl. eexists. split; [done|]. split_and!.
  - rewrite length_app, length_imap, length_drop. lia.
  - intros i m Hm. pose proof (lookup_lt_Some _ _ _ Hm).
    destruct (lookup_lt_is_Some_2 per_card (i * 2)) as [t Ht]; [lia|].
    destruct (lookup_lt_is_Some_2 per_card (i * 2 + 1)) as [r Hr]; [lia|].
    exists t, r. split_and!; [done..|].
    rewrite lookup_app_l by (rewrite length_imap; lia). rewrite list_lookup_imap, Hm. simpl.
    by rewrite Ht, Hr.
  - intros i Hi. rewrite lookup_app_r by (rewrite length_imap; lia).
    rewrite length_imap, lookup_drop. f_equal. lia.
Qed.


(** The aggregate refuses exactly the calls whose arrays are too short for
    the program's flows (or whose count would overflow the size arithmetic). *)
Theorem stats_aggregate_error (prog : pw_program) (per_card : list pw_flow_stats)
    (out : list pw_global_flow_stats) :
  (exists e, pw_stats_aggregate prog per_card out = Err e) <->
  (length out < length (p_flow_meta prog) \/ length per_card < 2 * length (p_flow_meta prog))%nat \/
  SIZE_MAX / sizeof_global_flow_stats < Z.of_nat (length (p_flow_meta prog)).
Proof.
  unfold pw_stats_aggregate, SIZE_MAX, sizeof_global_flow_stats.
  change ((2 ^ 64 - 1) / 2) with (2 ^ 63 - 1). change ((2 ^ 64 - 1) / 128) with (2 ^ 57 - 1).
  set (n := Z.of_nat (length (p_flow_meta prog))).
  destruct (Z.ltb_spec (2 ^ 63 - 1) n); simpl; [split; [lia|eauto]|].
  destruct (Z.ltb_spec (2 ^ 57 - 1) n); simpl; [split; [lia|eauto]|].
  destruct (Z.ltb_spec (Z.of_nat (length out)) n); simpl; [split; [lia|eauto]|].
  destruct (Z.ltb_spec (Z.of_nat (length per_card)) (n * 2)); simpl; [split; [lia|eauto]|].
  split; [intros [e He]; done|]. lia.
Qed.

(** Counters that tell the cards and slots apart. *)
Definition s_bank (card lfid : Z) : pw_flow_stats :=
  {| fs_tx_frames := 100 * card + lfid; fs_tx_bytes := 0; fs_rx_frames := 1000 * card + lfid;
     fs_rx_bytes := 0; fs_last_sequence := 0; fs_sequence_gap_count := 0;
     fs_lost_packets_estimated := 0; fs_duplicate_count := 0; fs_out_of_order_count := 0;
     fs_late_packet_count := 0; fs_min_latency := 0; fs_max_latency := 0; fs_sum_latency := 0;
     fs_sample_count := 0; fs_jitter_min := 0; fs_jitter_max := 0; fs_jitter_sum := 0 |}.
Definition s_pairs : list pw_flow_stats :=
  p_flow_meta s_prog ≫= fun m =>
    [s_bank (m_tx_card_id m) (m_tx_local_flow_id m); s_bank (m_rx_card_id m) (m_rx_local_flow_id m)].
Definition s_out : list pw_global_flow_stats :=
  replicate 4 (aggregate_one zero_meta zero_flow_stats zero_flow_stats).

