(* ===== verification/HostPlane.v ===== *)
(** * The host packet plane

    Models [sw/libpacketwyrm/src/host_plane.c] and [host_plane.h]: the bridge
    between a card's slow path and the TAP devices bound to its logical
    interfaces. The kernel's [read] and [write] on a TAP descriptor are
    parameters over a world [W]. The counters are atomic and each update is one
    step. *)

From S2P Require Import Prelude Types Csr Backend BackendFake.

Definition PW_HOST_FRAME_MAX : nat := Z.to_nat 9600.
Definition PW_HOST_PLANE_MAX_BINDINGS : nat := 32.

Record pw_host_binding := {
  hb_logical_if_id : Z;
  hb_fd : Z;
  hb_egress_local_port : Z
}.

Record pw_host_plane := {
  hp_bindings : list pw_host_binding;
  hp_punt_ok : list Z;
  hp_punt_dropped : list Z;
  hp_tap_ok : list Z;
  hp_tap_dropped : list Z;
  hp_unknown_lif : Z
}.

Definition zero_counters : list Z := replicate PW_HOST_PLANE_MAX_BINDINGS 0.

Definition pw_host_plane_init : pw_host_plane :=
  {| hp_bindings := []; hp_punt_ok := zero_counters; hp_punt_dropped := zero_counters;
     hp_tap_ok := zero_counters; hp_tap_dropped := zero_counters; hp_unknown_lif := 0 |}.

(** Index of the first binding of a logical interface. *)
Definition find_binding (hp : pw_host_plane) (lif : Z) : option nat :=
  fst <$> list_find (fun b => hb_logical_if_id b = lif) (hp_bindings hp).

Definition pw_host_plane_bind (hp : pw_host_plane) (logical_if_id fd egress_local_port : Z)
    : M pw_host_plane :=
  fail_if (fd <? 0) (fail_bare PW_E_INVAL) ;;
  fail_if (bool_decide (is_Some (find_binding hp logical_if_id))) (fail_bare PW_E_DUP_LOGICAL_IF) ;;
  fail_if (PW_HOST_PLANE_MAX_BINDINGS <=? length (hp_bindings hp))%nat
    (fail_bare PW_E_NO_RESOURCES) ;;
  Ok {| hp_bindings := hp_bindings hp ++
          [{| hb_logical_if_id := logical_if_id; hb_fd := fd;
              hb_egress_local_port := egress_local_port |}];
        hp_punt_ok := hp_punt_ok hp; hp_punt_dropped := hp_punt_dropped hp;
        hp_tap_ok := hp_tap_ok hp; hp_tap_dropped := hp_tap_dropped hp;
        hp_unknown_lif := hp_unknown_lif hp |}.

(** [counter[b]++] *)
Definition inc_at (b : nat) (l : list Z) : list Z := alter (fun x => u64 (x + 1)) b l.

Definition set_punt (hp : pw_host_plane) (ok dropped : list Z) (unknown : Z) : pw_host_plane :=
  {| hp_bindings := hp_bindings hp; hp_punt_ok := ok; hp_punt_dropped := dropped;
     hp_tap_ok := hp_tap_ok hp; hp_tap_dropped := hp_tap_dropped hp; hp_unknown_lif := unknown |}.
Definition set_tap (hp : pw_host_plane) (ok dropped : list Z) : pw_host_plane :=
  {| hp_bindings := hp_bindings hp; hp_punt_ok := hp_punt_ok hp;
     hp_punt_dropped := hp_punt_dropped hp; hp_tap_ok := ok; hp_tap_dropped := dropped;
     hp_unknown_lif := hp_unknown_lif hp |}.

Section Plane.
Context {C W : Type} (ops : pw_card_backend_ops C).
(** [write(fd, buf, n)] returns a count or -1; [read(fd, buf, size)] returns the
    bytes read, [None] for an error. *)
Context (tap_write : Z -> list Z -> W -> W * Z) (tap_read : Z -> nat -> W -> W * option (list Z)).

(** The plane, the backend context, the TAPs, and [moved]. *)
Record plane_state := {
  st_hp : pw_host_plane;
  st_ctx : C;
  st_world : W;
  st_moved : Z
}.

Definition fd_of (hp : pw_host_plane) (b : nat) : Z :=
  from_option hb_fd 0 (hp_bindings hp !! b).

(** What happens to one punted frame. *)
Definition punt_one (f : rx_frame) (s : plane_state) : plane_state :=
  let hp := st_hp s in
  match find_binding hp (rxf_lif f) with
  | None =>
      {| st_hp := set_punt hp (hp_punt_ok hp) (hp_punt_dropped hp) (u64 (hp_unknown_lif hp + 1));
         st_ctx := st_ctx s; st_world := st_world s; st_moved := st_moved s |}
  | Some b =>
      let '(w, n) := tap_write (fd_of hp b) (rxf_bytes f) (st_world s) in
      if n =? Z.of_nat (length (rxf_bytes f)) then
        {| st_hp := set_punt hp (inc_at b (hp_punt_ok hp)) (hp_punt_dropped hp) (hp_unknown_lif hp);
           st_ctx := st_ctx s; st_world := w; st_moved := st_moved s + 1 |}
      else
        {| st_hp := set_punt hp (hp_punt_ok hp) (inc_at b (hp_punt_dropped hp)) (hp_unknown_lif hp);
           st_ctx := st_ctx s; st_world := w; st_moved := st_moved s |}
  end.

Definition set_ctx (s : plane_state) (c : C) : plane_state :=
  {| st_hp := st_hp s; st_ctx := c; st_world := st_world s; st_moved := st_moved s |}.

(** Punt RX to TAP, at most [n] frames; nothing waiting, an error or an empty
    frame ends it. *)
Fixpoint punt_loop (rx : nat -> C -> C * M (option rx_frame)) (n : nat) (s : plane_state)
    : plane_state :=
  match n with
  | O => s
  | S n =>
      match rx PW_HOST_FRAME_MAX (st_ctx s) with
      | (c, Ok (Some f)) =>
          if (length (rxf_bytes f) =? 0)%nat then set_ctx s c
          else punt_loop rx n (punt_one f (set_ctx s c))
      | (c, _) => set_ctx s c
      end
  end.

(** TAP to FPGA for binding [b], at most [n] frames. *)
Fixpoint tap_loop (tx : list Z -> Z -> Z -> C -> C * pw_status) (b : nat) (hb : pw_host_binding)
    (n : nat) (s : plane_state) : plane_state :=
  match n with
  | O => s
  | S n =>
      match tap_read (hb_fd hb) PW_HOST_FRAME_MAX (st_world s) with
      | (w, Some (x :: bs)) =>
          let '(c, r) := tx (x :: bs) (hb_logical_if_id hb) (hb_egress_local_port hb) (st_ctx s) in
          let hp := st_hp s in
          let hp' := if decide (r = PW_OK)
                     then set_tap hp (inc_at b (hp_tap_ok hp)) (hp_tap_dropped hp)
                     else set_tap hp (hp_tap_ok hp) (inc_at b (hp_tap_dropped hp)) in
          tap_loop tx b hb n
            {| st_hp := hp'; st_ctx := c; st_world := w;
               st_moved := if decide (r = PW_OK) then st_moved s + 1 else st_moved s |}
      | (w, _) => {| st_hp := st_hp s; st_ctx := st_ctx s; st_world := w; st_moved := st_moved s |}
      end
  end.

Definition pw_host_plane_step (max_per_dir : nat) (hp : pw_host_plane) (c : C) (w : W)
    : plane_state :=
  let s := {| st_hp := hp; st_ctx := c; st_world := w; st_moved := 0 |} in
  let s := match op_slow_path_rx ops with Some rx => punt_loop rx max_per_dir s | None => s end in
  match op_slow_path_tx ops with
  | Some tx => fold_left (fun s bh => tap_loop tx bh.1 bh.2 max_per_dir s)
                 (imap pair (hp_bindings hp)) s
  | None => s
  end.
End Plane.
Arguments plane_state : clear implicits.

(** ** Bindings *)

Record plane_ok (hp : pw_host_plane) : Prop := {
  po_distinct : NoDup (hb_logical_if_id <$> hp_bindings hp);
  po_bound : (length (hp_bindings hp) <= PW_HOST_PLANE_MAX_BINDINGS)%nat;
  po_ok : length (hp_punt_ok hp) = PW_HOST_PLANE_MAX_BINDINGS;
  po_dropped : length (hp_punt_dropped hp) = PW_HOST_PLANE_MAX_BINDINGS;
  po_tap_ok : length (hp_tap_ok hp) = PW_HOST_PLANE_MAX_BINDINGS;
  po_tap_dropped : length (hp_tap_dropped hp) = PW_HOST_PLANE_MAX_BINDINGS
}.

Lemma find_binding_some hp lif b : find_binding hp lif = Some b ->
  exists hb, hp_bindings hp !! b = Some hb /\ hb_logical_if_id hb = lif.
Proof.
  unfold find_binding. intros ([i hb] & Hf & ->)%fmap_Some.
  apply list_find_Some in Hf as (Hb & Hl & _). by exists hb.
Qed.

Lemma find_binding_none hp lif : find_binding hp lif = None <->
  lif ∉ (hb_logical_if_id <$> hp_bindings hp).
Proof.
  unfold find_binding. rewrite fmap_None, list_find_None, Forall_forall. split.
  - intros H (hb & -> & Hin)%list_elem_of_fmap. by apply (H hb).
  - intros H hb Hin <-. apply H, list_elem_of_fmap. by exists hb.
Qed.

Lemma find_binding_iff hp b hb : NoDup (hb_logical_if_id <$> hp_bindings hp) ->
  hp_bindings hp !! b = Some hb -> find_binding hp (hb_logical_if_id hb) = Some b.
Proof.
  intros Hnd Hb. destruct (find_binding hp (hb_logical_if_id hb)) as [b'|] eqn:E.
  - apply find_binding_some in E as (hb' & Hb' & He). f_equal.
    eapply (NoDup_lookup _ b' b (hb_logical_if_id hb)); [exact Hnd| |].
    + by rewrite list_lookup_fmap, Hb', <- He.
    + by rewrite list_lookup_fmap, Hb.
  - exfalso. apply find_binding_none in E. apply E, list_elem_of_fmap. exists hb.
    split; [done|]. by apply list_elem_of_lookup_2 in Hb.
Qed.

(** Binding keeps the plane well formed (at most 32 bindings, one per logical
    interface); it succeeds exactly for a valid descriptor, an interface not yet
    bound and a free slot, and then frames of that interface, and only they, get
    the new binding. *)
Theorem host_bind (hp : pw_host_plane) (lif fd egress : Z) :
  plane_ok hp ->
  match pw_host_plane_bind hp lif fd egress with
  | Ok hp' =>
      plane_ok hp' /\ find_binding hp lif = None /\
      find_binding hp' lif = Some (length (hp_bindings hp)) /\
      (forall l, l <> lif -> find_binding hp' l = find_binding hp l)
  | Err e =>
      fd < 0 /\ e_status e = PW_E_INVAL \/
      is_Some (find_binding hp lif) /\ e_status e = PW_E_DUP_LOGICAL_IF \/
      length (hp_bindings hp) = PW_HOST_PLANE_MAX_BINDINGS /\ e_status e = PW_E_NO_RESOURCES
  end.
Proof.
  intros [Hd Hb H1 H2 H3 H4]. unfold pw_host_plane_bind.
  destruct (Z.ltb_spec fd 0); cbn [fail_if mbind result_bind]; [by auto|].
  case_bool_decide as Hf; cbn [fail_if mbind result_bind]; [by auto|].
  destruct (Nat.leb_spec PW_HOST_PLANE_MAX_BINDINGS (length (hp_bindings hp)));
    cbn [fail_if mbind result_bind];
    [right; right; split; [lia|done]|].
  assert (find_binding hp lif = None) as Hn
    by (destruct (find_binding hp lif); [by exfalso; apply Hf|done]).
  set (hp' := {| hp_bindings := hp_bindings hp ++ _ |}).
  assert (Hok : plane_ok hp').
  { split; simpl; try done.
    - rewrite fmap_app. apply NoDup_app. split_and!; [done| |apply NoDup_singleton].
      intros x Hx ->%list_elem_of_singleton. by apply find_binding_none in Hn.
    - rewrite length_app. simpl. lia. }
  split_and!; [done|done| |].
  - eapply (find_binding_iff hp' _ {| hb_logical_if_id := lif |}); [apply Hok|].
    simpl. by apply list_lookup_middle.
  - intros l Hne. unfold find_binding, hp'. simpl.
    destruct (list_find _ (hp_bindings hp)) as [[i y]|] eqn:E.
    + by erewrite list_find_app_l.
    + rewrite list_find_app_r by done. simpl. by rewrite decide_False.
Qed.

Lemma init_plane_ok : plane_ok pw_host_plane_init.
Proof. split; simpl; try done; [constructor|lia]. Qed.

Lemma host_bind_witness :
  exists hp', pw_host_plane_bind pw_host_plane_init 5 3 1 = Ok hp' /\ find_binding hp' 5 = Some 0%nat.
Proof.
  eexists. split; [reflexivity|].
  apply (host_bind pw_host_plane_init 5 3 1 init_plane_ok).
Defined.

(** ** Punted frames are accounted for *)

Section Punt.
Context {C W : Type} (tap_write : Z -> list Z -> W -> W * Z).
Context (rx : nat -> C -> C * M (option rx_frame)).

(** The frames the card hands over in at most [n] calls. *)
Fixpoint drain (n : nat) (c : C) : C * list rx_frame :=
  match n with
  | O => (c, [])
  | S n =>
      match rx PW_HOST_FRAME_MAX c with
      | (c, Ok (Some f)) =>
          if (length (rxf_bytes f) =? 0)%nat then (c, [])
          else let '(c, fs) := drain n c in (c, f :: fs)
      | (c, _) => (c, [])
      end
  end.

(** The TAP writes of a sequence of frames: each to its interface's TAP. *)
Definition write_bound (hp : pw_host_plane) (w : W) (f : rx_frame) : W :=
  match find_binding hp (rxf_lif f) with
  | Some b => (tap_write (fd_of hp b) (rxf_bytes f) w).1
  | None => w
  end.

(** Frames for binding [b], and for no binding. *)
Definition for_binding (hp : pw_host_plane) (o : option nat) (fs : list rx_frame) : Z :=
  Z.of_nat (length (filter (fun f => find_binding hp (rxf_lif f) = o) fs)).

Definition at_ctr (l : list Z) (b : nat) : Z := default 0 (l !! b).

Lemma u64_add_l a a' d : u64 a = u64 a' -> u64 (a + d) = u64 (a' + d).
Proof. unfold u64. intros H. by rewrite <- (Zplus_mod_idemp_l a), H, Zplus_mod_idemp_l. Qed.

Lemma at_inc b b' l : (b < length l)%nat ->
  u64 (at_ctr (inc_at b l) b') = u64 (at_ctr l b' + if decide (b' = b) then 1 else 0).
Proof.
  intros Hb. unfold at_ctr, inc_at. case_decide as H.
  - subst b'. rewrite list_lookup_alter_eq. destruct (lookup_lt_is_Some_2 l b Hb) as [x ->]. change (u64 (u64 (x + 1)) = u64 (x + 1)). by apply Z.mod_mod.
  - rewrite list_lookup_alter_ne by done. by rewrite Z.add_0_r.
Qed.

Lemma length_inc b l : length (inc_at b l) = length l.
Proof. apply length_alter. Qed.

Lemma for_binding_one hp o f :
  for_binding hp o [f] = if decide (find_binding hp (rxf_lif f) = o) then 1 else 0.
Proof. unfold for_binding. rewrite filter_cons, filter_nil. by case_decide. Qed.

Lemma for_binding_cons hp o f fs :
  for_binding hp o (f :: fs) = for_binding hp o [f] + for_binding hp o fs.
Proof.
  rewrite for_binding_one. unfold for_binding. rewrite filter_cons. case_decide; simpl; lia.
Qed.

Lemma for_binding_ext hp hp' o : (forall l, find_binding hp l = find_binding hp' l) ->
  forall fs, for_binding hp o fs = for_binding hp' o fs.
Proof.
  intros H fs. induction fs as [|f fs IH]; [done|].
  rewrite for_binding_cons, (for_binding_cons hp'), IH, !for_binding_one. by rewrite H.
Qed.

Lemma fold_left_ext {A B} (f g : A -> B -> A) l : (forall a b, f a b = g a b) ->
  forall a, fold_left f l a = fold_left g l a.
Proof. intros H. induction l as [|b l IH]; intros a; simpl; [done|]. by rewrite H, IH. Qed.

(** One frame adds one to exactly one counter. *)
Lemma punt_one_count f (s : plane_state C W) : plane_ok (st_hp s) ->
  let s' := punt_one tap_write f s in
  plane_ok (st_hp s') /\ hp_bindings (st_hp s') = hp_bindings (st_hp s) /\
  st_ctx s' = st_ctx s /\ st_world s' = write_bound (st_hp s) (st_world s) f /\
  u64 (hp_unknown_lif (st_hp s')) =
    u64 (hp_unknown_lif (st_hp s) + for_binding (st_hp s) None [f]) /\
  forall b, u64 (at_ctr (hp_punt_ok (st_hp s')) b + at_ctr (hp_punt_dropped (st_hp s')) b) =
    u64 (at_ctr (hp_punt_ok (st_hp s)) b + at_ctr (hp_punt_dropped (st_hp s)) b +
         for_binding (st_hp s) (Some b) [f]).
Proof.
  intros [Hd Hb H1 H2 H3 H4]. unfold punt_one, write_bound.
  destruct (find_binding (st_hp s) (rxf_lif f)) as [b|] eqn:E.
  - destruct (find_binding_some _ _ _ E) as (hb & Hb' & _). apply lookup_lt_Some in Hb'.
    rewrite for_binding_one, E, decide_False by done.
    destruct (tap_write _ _ _) as [w n].
    destruct (n =? _); cbn [st_hp st_ctx st_world set_punt hp_bindings hp_unknown_lif hp_punt_ok
      hp_punt_dropped fst]; (split; [split; simpl; try done; by rewrite length_inc|]);
      (split_and!; [done|done|done|by rewrite Z.add_0_r|]); intros b';
      rewrite for_binding_one, E.
    + rewrite (u64_add_l _ _ _ (at_inc b b' (hp_punt_ok (st_hp s)) ltac:(lia))).
      f_equal. repeat case_decide; simplify_eq; lia.
    + rewrite Z.add_comm, (u64_add_l _ _ _ (at_inc b b' (hp_punt_dropped (st_hp s)) ltac:(lia))).
      f_equal. repeat case_decide; simplify_eq; lia.
  - cbn [st_hp st_ctx st_world set_punt hp_bindings hp_unknown_lif hp_punt_ok hp_punt_dropped].
    rewrite for_binding_one, E, decide_True by done.
    split; [by split|]. split_and!; [done|done|done|by apply Z.mod_mod|].
    intros b'. by rewrite for_binding_one, E, decide_False, Z.add_0_r by done.
Qed.

(** One bridge pass over the punt direction takes exactly the frames the card
    hands over, writes each frame whose interface is bound to that interface's TAP
    and no other, in order, and counts every frame exactly once: as unknown when
    its interface is not bound, else as delivered or dropped for its binding
    (counters are modulo 2^64). *)
Theorem punt_accounted (n : nat) (s : plane_state C W) :
  plane_ok (st_hp s) ->
  let s' := punt_loop tap_write rx n s in
  let fs := (drain n (st_ctx s)).2 in
  plane_ok (st_hp s') /\ st_ctx s' = (drain n (st_ctx s)).1 /\
  st_world s' = fold_left (write_bound (st_hp s)) fs (st_world s) /\
  u64 (hp_unknown_lif (st_hp s')) = u64 (hp_unknown_lif (st_hp s) + for_binding (st_hp s) None fs) /\
  forall b, u64 (at_ctr (hp_punt_ok (st_hp s')) b + at_ctr (hp_punt_dropped (st_hp s')) b) =
    u64 (at_ctr (hp_punt_ok (st_hp s)) b + at_ctr (hp_punt_dropped (st_hp s)) b +
         for_binding (st_hp s) (Some b) fs).
Proof.
  revert s. induction n as [|n IH]; intros s Hok; cbn [punt_loop drain].
  { cbn [fst snd fold_left]. split_and!; try done; intros; by rewrite Z.add_0_r. }
  destruct (rx PW_HOST_FRAME_MAX (st_ctx s)) as [c [[f|]|e]].
  2,3: cbn [fst snd fold_left set_ctx st_hp st_ctx st_world]; split_and!; try done; intros;
       by rewrite Z.add_0_r.
  destruct (length (rxf_bytes f) =? 0)%nat.
  { cbn [fst snd fold_left set_ctx st_hp st_ctx st_world]; split_and!; try done; intros;
      by rewrite Z.add_0_r. }
  destruct (punt_one_count f (set_ctx s c) Hok) as (Ho1 & Hb1 & Hc1 & Hw1 & Hu1 & Hk1).
  set (s1 := punt_one tap_write f (set_ctx s c)) in *.
  destruct (IH s1 Ho1) as (Ho2 & Hc2 & Hw2 & Hu2 & Hk2).
  rewrite Hc1 in *. cbn [set_ctx st_ctx st_hp st_world] in *.
  destruct (drain n c) as [c' fs]. cbn [fst snd fold_left] in *.
  assert (forall l, find_binding (st_hp s1) l = find_binding (st_hp s) l) as Hfb
    by (intros l; unfold find_binding; by rewrite Hb1).
  split_and!; [done|done| | |].
  - rewrite Hw2, Hw1. apply fold_left_ext. intros w g. unfold write_bound, fd_of.
    by rewrite Hfb, Hb1.
  - rewrite Hu2, (u64_add_l _ _ _ Hu1), (for_binding_cons _ _ f fs), (for_binding_ext _ _ _ Hfb).
    apply (f_equal u64). lia.
  - intros b. rewrite Hk2, (u64_add_l _ _ _ (Hk1 b)), (for_binding_cons _ _ f fs),
      (for_binding_ext _ _ _ Hfb). apply (f_equal u64). lia.
Qed.
End Punt.

(** A fake card with one punted frame for interface 5, bound to descriptor 3. *)
Definition s_plane : plane_state fake_ctx (list (Z * list Z)) :=
  {| st_hp := match pw_host_plane_bind pw_host_plane_init 5 3 1 with
              | Ok hp => hp | Err _ => pw_host_plane_init end;
     st_ctx := (pw_fake_backend_inject_punt 5 [1; 2; 3] (pw_fake_backend_open None)).1;
     st_world := []; st_moved := 0 |}.

Definition log_write (fd : Z) (bs : list Z) (w : list (Z * list Z)) : list (Z * list Z) * Z :=
  (w ++ [(fd, bs)], Z.of_nat (length bs)).

Lemma punt_accounted_witness :
  st_world (punt_loop log_write fake_slow_path_rx 8 s_plane) = [(3, [1; 2; 3])] /\
  plane_ok (st_hp (punt_loop log_write fake_slow_path_rx 8 s_plane)).
Proof.
  assert (H : plane_ok (st_hp s_plane)).
  { split; try done; [apply NoDup_singleton|]. unfold PW_HOST_PLANE_MAX_BINDINGS. simpl. lia. }
  destruct (punt_accounted log_write fake_slow_path_rx 8 s_plane H) as (H1 & _ & H3 & _).
  split; [rewrite H3; reflexivity|exact H1].
Defined.
