(* ===== verification/GpioSync.v ===== *)
(** * Cross-card time sync

    Models [sw/libpacketwyrm/src/gpio_sync.c]: the control word of the sync
    block, the two-card offset sample bracketed by edge sequence numbers, and the
    per-slot latency correction. A backend without the needed operation is the
    [None] case of the operation record. *)

From S2P Require Import Prelude Types Csr Backend Programming.

(** [ctrl: \[0\]en \[1\]master \[2\]repeat \[6:4\]in_sel \[10:8\]out_sel \[19:16\]period_log2] *)
Definition mkctrl (en master rep in_sel out_sel per : Z) : Z :=
  (en &&& 1) ||| ((master &&& 1) <<< 1) ||| ((rep &&& 1) <<< 2) |||
  ((in_sel &&& 7) <<< 4) ||| ((out_sel &&& 7) <<< 8) ||| ((per &&& 0xf) <<< 16).

(** [int64_t] from the low 64 bits. *)
Definition s64 (z : Z) : Z := let u := u64 z in if u <? 2 ^ 63 then u else u - 2 ^ 64.

Section Sync.
Context {C : Type} (ops : pw_card_backend_ops C).

Definition wr_reg (off v : Z) (c : C) : C :=
  match op_write32 ops with Some w => (w off v c).1 | None => c end.

Definition pw_gpio_sync_master (out_pin period_log2 : Z) (c : C) : C :=
  wr_reg PWFPGA_REG_GPIO_SYNC_CTRL (mkctrl 1 1 0 0 out_pin period_log2) c.
Definition pw_gpio_sync_slave (in_pin : Z) (c : C) : C :=
  wr_reg PWFPGA_REG_GPIO_SYNC_CTRL (mkctrl 1 0 0 in_pin 1 0) c.
Definition pw_gpio_sync_disable (c : C) : C := wr_reg PWFPGA_REG_GPIO_SYNC_CTRL 0 c.

(** [read32] into a zeroed variable: a failing read leaves it 0. *)
Definition rd_reg (rd : Z -> C -> C * (pw_status * Z)) (off : Z) (c : C) : C * Z :=
  let '(c, (s, v)) := rd off c in (c, if decide (s = PW_OK) then v else 0).

Definition pw_gpio_sync_ts (c : C) : C * Z :=
  match op_read32 ops with
  | None => (c, 0)
  | Some rd =>
      let '(c, lo) := rd_reg rd PWFPGA_REG_GPIO_SYNC_TS_LOW c in
      let '(c, hi) := rd_reg rd PWFPGA_REG_GPIO_SYNC_TS_HIGH c in
      (c, (hi <<< 32) ||| lo)
  end.

Definition pw_gpio_sync_seq (c : C) : C * Z :=
  match op_read32 ops with
  | None => (c, 0)
  | Some rd => rd_reg rd PWFPGA_REG_GPIO_SYNC_SEQ c
  end.

Definition pw_gpio_sync_write_correction (slot corr : Z) (c : C) : C :=
  if PWFPGA_FLOW_TABLE_ROWS <=? slot then c else
  let u := u64 corr in
  let base := PWFPGA_REG_LAT_CORRECTION_BASE + slot * 8 in
  let c := wr_reg (base + 0) (u32 u) c in
  wr_reg (base + 4) (u >>> 32) c.
End Sync.

(** The two-card sample. The cards' contexts form one state [S] that also moves
    between the reads: [tx] and [rx] read a register of one card. *)
Section Offset.
Context {St : Type} (tx rx : Z -> St -> St * Z).

Definition ts_of (rd : Z -> St -> St * Z) (s : St) : St * Z :=
  let '(s, lo) := rd PWFPGA_REG_GPIO_SYNC_TS_LOW s in
  let '(s, hi) := rd PWFPGA_REG_GPIO_SYNC_TS_HIGH s in
  (s, (hi <<< 32) ||| lo).

Definition pw_gpio_sync_offset (s : St) : St * Z :=
  let '(s, a) := ts_of tx s in
  let '(s, b) := ts_of rx s in
  (s, s64 (a - b)).

(** One try. *)
Definition sync_try (s : St) : St * option Z :=
  let '(s, tx_a) := tx PWFPGA_REG_GPIO_SYNC_SEQ s in
  let '(s, rx_a) := rx PWFPGA_REG_GPIO_SYNC_SEQ s in
  let '(s, ts_tx) := ts_of tx s in
  let '(s, ts_rx) := ts_of rx s in
  let '(s, tx_b) := tx PWFPGA_REG_GPIO_SYNC_SEQ s in
  let '(s, rx_b) := rx PWFPGA_REG_GPIO_SYNC_SEQ s in
  (s, if negb (tx_a =? 0) && negb (rx_a =? 0) && (tx_a =? tx_b) && (rx_a =? rx_b)
      then Some (s64 (ts_tx - ts_rx)) else None).

Fixpoint sync_tries (n : nat) (s : St) : St * option Z :=
  match n with
  | O => (s, None)
  | S n =>
      match sync_try s with
      | (s, Some o) => (s, Some o)
      | (s, None) => sync_tries n s
      end
  end.

Definition pw_gpio_sync_offset_coherent (s : St) : St * option Z := sync_tries 8 s.
End Offset.

(** ** The sample is edge-coherent *)

(** What the code relies on of the sync hardware: both cards see the shared
    edges, [edges s] many so far; a sequence register counts them (from its own
    start, modulo 2^32); a low-then-high timestamp read gives the counter latched
    at the latest edge of some instant of the read; edges keep coming while
    reads are made. *)
Class SyncHw {St : Type} (tx rx : Z -> St -> St * Z) (t_tx t_rx : Z -> Z) := {
  edges : St -> Z;
  start_tx : Z;
  start_rx : Z;
  sh_tx_seq : forall s, edges s <= edges (tx PWFPGA_REG_GPIO_SYNC_SEQ s).1 /\
    (tx PWFPGA_REG_GPIO_SYNC_SEQ s).2 =
      u32 (start_tx + edges (tx PWFPGA_REG_GPIO_SYNC_SEQ s).1);
  sh_rx_seq : forall s, edges s <= edges (rx PWFPGA_REG_GPIO_SYNC_SEQ s).1 /\
    (rx PWFPGA_REG_GPIO_SYNC_SEQ s).2 =
      u32 (start_rx + edges (rx PWFPGA_REG_GPIO_SYNC_SEQ s).1);
  sh_tx_ts : forall s, exists e, edges s <= e <= edges (ts_of tx s).1 /\ (ts_of tx s).2 = t_tx e;
  sh_rx_ts : forall s, exists e, edges s <= e <= edges (ts_of rx s).1 /\ (ts_of rx s).2 = t_rx e
}.

Section Coherent.
Context {St : Type} (tx rx : Z -> St -> St * Z) (t_tx t_rx : Z -> Z) {HW : SyncHw tx rx t_tx t_rx}.

Lemma seq_stable start a b : a <= b -> b - a < 2 ^ 32 -> u32 (start + a) = u32 (start + b) -> a = b.
Proof.
  intros Hab Hd H. unfold u32 in H.
  assert ((b - a) mod 2 ^ 32 = 0) as H0.
  { replace (b - a) with (start + b - (start + a)) by lia. rewrite Zminus_mod, H.
    by rewrite Z.sub_diag. }
  rewrite Z.mod_small in H0 by lia. lia.
Qed.

(** One successful try: both timestamps are of one edge of the window. *)
Lemma sync_try_coherent s s' o : sync_try tx rx s = (s', Some o) -> edges s' - edges s < 2 ^ 32 ->
  exists e, edges s <= e <= edges s' /\ o = s64 (t_tx e - t_rx e).
Proof.
  unfold sync_try. destruct (sh_tx_seq s) as [L1 V1].
  destruct (tx PWFPGA_REG_GPIO_SYNC_SEQ s) as [s1 tx_a]. simpl in L1, V1.
  destruct (sh_rx_seq s1) as [L2 V2]. destruct (rx PWFPGA_REG_GPIO_SYNC_SEQ s1) as [s2 rx_a].
  destruct (sh_tx_ts s2) as (e1 & E1 & W1). destruct (ts_of tx s2) as [s3 ts1].
  destruct (sh_rx_ts s3) as (e2 & E2 & W2). destruct (ts_of rx s3) as [s4 ts2].
  destruct (sh_tx_seq s4) as [L3 V3]. destruct (tx PWFPGA_REG_GPIO_SYNC_SEQ s4) as [s5 tx_b].
  destruct (sh_rx_seq s5) as [L4 V4]. destruct (rx PWFPGA_REG_GPIO_SYNC_SEQ s5) as [s6 rx_b].
  simpl in *. destruct (negb (tx_a =? 0) && _ && _ && _) eqn:E; [|done]. intros [= <- <-] Hd.
  rewrite !andb_true_iff, !Z.eqb_eq in E. destruct E as [[[_ _] Htx] Hrx].
  assert (edges s1 = edges s5) as H15 by (apply (seq_stable start_tx); [lia|lia|congruence]).
  assert (e1 = edges s1) as -> by lia. assert (e2 = edges s1) as -> by lia.
  exists (edges s1). split; [lia|]. by rewrite W1, W2.
Qed.

Lemma sync_try_mono s : edges s <= edges (sync_try tx rx s).1.
Proof.
  unfold sync_try. destruct (sh_tx_seq s) as [L1 _].
  destruct (tx PWFPGA_REG_GPIO_SYNC_SEQ s) as [s1 tx_a].
  destruct (sh_rx_seq s1) as [L2 _]. destruct (rx PWFPGA_REG_GPIO_SYNC_SEQ s1) as [s2 rx_a].
  destruct (sh_tx_ts s2) as (e1 & E1 & _). destruct (ts_of tx s2) as [s3 ts1].
  destruct (sh_rx_ts s3) as (e2 & E2 & _). destruct (ts_of rx s3) as [s4 ts2].
  destruct (sh_tx_seq s4) as [L3 _]. destruct (tx PWFPGA_REG_GPIO_SYNC_SEQ s4) as [s5 tx_b].
  destruct (sh_rx_seq s5) as [L4 _]. destruct (rx PWFPGA_REG_GPIO_SYNC_SEQ s5) as [s6 rx_b].
  simpl in *. lia.
Qed.

End Coherent.

(** A world where an edge lands on every sixteenth read; counters latch [7 e + 3] and
    [7 e]. *)
Definition toy_edges (n : Z) : Z := n / 16.
Definition toy_read (t : Z -> Z) (off n : Z) : Z * Z :=
  let n := n + 1 in
  (n, if off =? PWFPGA_REG_GPIO_SYNC_SEQ then u32 (toy_edges n)
      else if off =? PWFPGA_REG_GPIO_SYNC_TS_LOW then t (toy_edges n) else 0).

#[export, refine] Instance toy_sync : SyncHw (toy_read (fun e => 7 * e + 3)) (toy_read (fun e => 7 * e))
    (fun e => 7 * e + 3) (fun e => 7 * e) :=
  {| edges := toy_edges; start_tx := 0; start_rx := 0 |}.
Proof.
  1,2: intros s; split; [|done]; cbn [toy_read fst]; unfold toy_edges; apply Z.div_le_mono; lia.
  all: intros s; exists (toy_edges (s + 1)); unfold ts_of, toy_read;
    change (PWFPGA_REG_GPIO_SYNC_TS_LOW =? PWFPGA_REG_GPIO_SYNC_SEQ) with false;
    change (PWFPGA_REG_GPIO_SYNC_TS_HIGH =? PWFPGA_REG_GPIO_SYNC_SEQ) with false;
    change (PWFPGA_REG_GPIO_SYNC_TS_HIGH =? PWFPGA_REG_GPIO_SYNC_TS_LOW) with false;
    rewrite Z.eqb_refl, Z.shiftl_0_l, Z.lor_0_l; cbn [fst snd].
  all: split; [unfold toy_edges; split; apply Z.div_le_mono; lia|done].
Defined.


(** ** The correction window and the control word *)

(** The latency correction of a slot within the flow table is written low
    word first, to an aligned pair of registers of its own inside the correction
    window (below the flow-id map), and the two words make up the 64-bit value;
    any other slot writes nothing. *)
Theorem gpio_correction_writes (C : Type) (ops : pw_card_backend_ops C)
    (w : Z -> Z -> C -> C * pw_status) (slot corr : Z) (c : C) :
  op_write32 ops = Some w -> 0 <= slot ->
  exists off lo hi,
    pw_gpio_sync_write_correction ops slot corr c =
      (if slot <? PWFPGA_FLOW_TABLE_ROWS then (w (off + 4) hi (w off lo c).1).1 else c) /\
    (slot < PWFPGA_FLOW_TABLE_ROWS ->
       off = PWFPGA_REG_LAT_CORRECTION_BASE + 8 * slot /\ off + 8 <= PWFPGA_WIN_FLOWID_MAP /\
       is_u32 lo /\ is_u32 hi /\ lo + 2 ^ 32 * hi = u64 corr).
Proof.
  intros Hw Hs. exists (PWFPGA_REG_LAT_CORRECTION_BASE + slot * 8), (u32 (u64 corr)), (u64 corr >>> 32).
  unfold pw_gpio_sync_write_correction, wr_reg. rewrite Hw, Z.add_0_r. split.
  - rewrite Z.ltb_antisym. by destruct (PWFPGA_FLOW_TABLE_ROWS <=? slot).
  - rewrite flow_table_rows_64. unfold PWFPGA_REG_LAT_CORRECTION_BASE, PWFPGA_WIN_FLOWID_MAP.
    intros Hlt. pose proof (u64_w corr) as Hu. unfold is_w in Hu.
    rewrite Z.shiftr_div_pow2 by lia.
    pose proof (Z.div_mod (u64 corr) (2 ^ 32)). pose proof (Z.mod_pos_bound (u64 corr) (2 ^ 32)).
    unfold u32, is_w. split_and!; try lia.
Qed.

Lemma gpio_correction_writes_witness :
  exists off lo hi, off = 0x188 /\ lo + 2 ^ 32 * hi = u64 (-5) /\
    exists ops : pw_card_backend_ops (list (Z * Z)),
      pw_gpio_sync_write_correction ops 1 (-5) [] = [(off, lo); (off + 4, hi)].
Proof.
  set (w := fun (o v : Z) (c : list (Z * Z)) => (c ++ [(o, v)], PW_OK)).
  set (ops := {| op_read32 := None; op_write32 := Some w; op_card_info := None;
                 op_flow_write := None; op_flow_commit := None; op_stats_snapshot := None;
                 op_port_stats_read := None; op_flow_stats_read := None;
                 op_flow_hist_read := None; op_slow_path_rx := None; op_slow_path_tx := None |}
    : pw_card_backend_ops (list (Z * Z))).
  destruct (gpio_correction_writes _ ops w 1 (-5) [] eq_refl ltac:(lia)) as (off & lo & hi & H1 & H2).
  destruct H2 as (H2 & _ & _ & _ & H3); [reflexivity|].
  exists off, lo, hi. split; [exact H2|]. split; [exact H3|]. exists ops. exact H1.
Defined.

(** The fields of the control word, packed without overlap. *)
Lemma mkctrl_fields_small :
  forallb (fun en => forallb (fun ma => forallb (fun re => forallb (fun i => forallb (fun o =>
    forallb (fun p => let c := mkctrl en ma re i o p in
      (c &&& 1 =? en) && (c >>> 1 &&& 1 =? ma) && (c >>> 2 &&& 1 =? re) && (c >>> 4 &&& 7 =? i) &&
      (c >>> 8 &&& 7 =? o) && (c >>> 16 &&& 0xf =? p) && (c <? 2 ^ 20))
    (seqZ 0 16)) (seqZ 0 8)) (seqZ 0 8)) (seqZ 0 2)) (seqZ 0 2)) (seqZ 0 2) = true.
Proof. vm_compute. reflexivity. Qed.

Lemma forallb_seqZ (f : Z -> bool) n : forallb f (seqZ 0 n) = true -> forall i, 0 <= i < n -> f i = true.
Proof.
  rewrite forallb_forall. intros H i Hi. apply H, list_elem_of_In, elem_of_seqZ. lia.
Qed.

(** The sync block decodes exactly the role the driver asked for: enable, role,
    repeat, input pin, output pin and period occupy separate fields of the control
    word, each reduced to its width. *)
Theorem mkctrl_fields (en master rep in_sel out_sel per : Z) :
  let c := mkctrl en master rep in_sel out_sel per in
  c &&& 1 = en &&& 1 /\ c >>> 1 &&& 1 = master &&& 1 /\ c >>> 2 &&& 1 = rep &&& 1 /\
  c >>> 4 &&& 7 = in_sel &&& 7 /\ c >>> 8 &&& 7 = out_sel &&& 7 /\ c >>> 16 &&& 0xf = per &&& 0xf /\
  c < 2 ^ 20.
Proof.
  assert (Hm : forall z k, 0 <= k -> 0 <= z &&& Z.ones k < 2 ^ k)
    by (intros z k Hk; rewrite Z.land_ones by lia; apply Z.mod_pos_bound, Z.pow_pos_nonneg; lia).
  pose proof (Hm en 1) as H1. pose proof (Hm master 1) as H2. pose proof (Hm rep 1) as H3.
  pose proof (Hm in_sel 3) as H4. pose proof (Hm out_sel 3) as H5. pose proof (Hm per 4) as H6.
  change (Z.ones 1) with 1 in *. change (Z.ones 3) with 7 in *. change (Z.ones 4) with 0xf in *.
  assert (mkctrl en master rep in_sel out_sel per =
    mkctrl (en &&& 1) (master &&& 1) (rep &&& 1) (in_sel &&& 7) (out_sel &&& 7) (per &&& 0xf)) as ->
    by (unfold mkctrl; by rewrite <- !Z.land_assoc).
  pose proof mkctrl_fields_small as H.
  apply forallb_seqZ with (i := en &&& 1) in H; [|lia].
  apply forallb_seqZ with (i := master &&& 1) in H; [|lia].
  apply forallb_seqZ with (i := rep &&& 1) in H; [|lia].
  apply forallb_seqZ with (i := in_sel &&& 7) in H; [|lia].
  apply forallb_seqZ with (i := out_sel &&& 7) in H; [|lia].
  apply forallb_seqZ with (i := per &&& 0xf) in H; [|lia].
  rewrite !andb_true_iff, !Z.eqb_eq, Z.ltb_lt in H. naive_solver.
Qed.
