(* ===== verification/SpiFlash.v ===== *)
(** * In-system SPI flash programming

    Models [sw/libpacketwyrm/src/spi_flash.c]: the byte-engine transaction over
    the CSR window, the NOR command sequences composed from it, and the
    read-modify-write update of an arbitrary range. [malloc] of the scratch
    sector is taken to succeed. The byte engine and the flash chip are the
    interface class [FlashCard]. *)

From S2P Require Import Prelude StateMonad Types Csr Backend.

Definition SECTOR : Z := 0x10000.
Definition PAGE : Z := 256.
Definition FLASH_SZ : Z := 0x1000000.

(** The bounds of the two polling loops. *)
Definition SPI_SPINS : nat := Z.to_nat 2000000.
Definition WIP_POLLS : nat := Z.to_nat 4000000.

(** [len] bytes from index [p] of a buffer. *)
Definition slice (p len : Z) (l : list Z) : list Z := take (Z.to_nat len) (drop (Z.to_nat p) l).

Definition nbytes (l : list Z) : Z := Z.of_nat (length l).

(** Up to four bytes packed into a CSR word, and byte [k] of one. *)
Definition pack_word (bs : list Z) : Z := foldr (fun b d => b ||| (d <<< 8)) 0 bs.
Definition word_byte (d k : Z) : Z := (d >>> (k * 8)) &&& 0xFF.

Section Driver.
Context {C : Type} (write32 : Z -> Z -> C -> C * pw_status)
  (read32 : Z -> C -> C * (pw_status * Z)).

Definition wr (off v : Z) : stm C pw_status unit := fun c =>
  let '(c, s) := write32 off v c in (c, if decide (s = PW_OK) then Ok tt else Err s).
Definition rd (off : Z) : stm C pw_status Z := fun c =>
  let '(c, (s, v)) := read32 off c in (c, if decide (s = PW_OK) then Ok v else Err s).

(** Busy-poll, then collect the [n] received bytes when the caller wants them. *)
Fixpoint spi_spin (fuel : nat) (n : Z) (want_rx : bool) : stm C pw_status (list Z) :=
  match fuel with
  | O => throw PW_E_IO
  | S fuel =>
      st ← rd PWFPGA_REG_SPI_CTRL;
      if ztrue (st &&& PWFPGA_SPI_STATUS_BUSY) then spi_spin fuel n want_rx else
      if want_rx then
        st_for (fun i acc =>
          d ← rd (PWFPGA_SPI_RXBUF + i);
          mret (acc ++ (word_byte d <$> seqZ 0 (Z.min 4 (n - i))))) (steps 0 n 4) []
      else mret []
  end.

(** One SPI transaction: shift the bytes [tx], capture as many. *)
Definition spi_txn (tx : list Z) (want_rx cs_hold : bool) : stm C pw_status (list Z) :=
  let n := nbytes tx in
  if PWFPGA_SPI_BUF_BYTES <? n then throw PW_E_INVAL else
  st_for (fun i _ => wr (PWFPGA_SPI_TXBUF + i) (pack_word (slice i 4 tx))) (steps 0 n 4) tt ;;
  wr PWFPGA_REG_SPI_LEN n ;;
  wr PWFPGA_REG_SPI_CTRL
    (PWFPGA_SPI_CTRL_GO ||| (if cs_hold then PWFPGA_SPI_CTRL_CS_HOLD else 0)) ;;
  spi_spin SPI_SPINS n want_rx.

Definition warmup : stm C pw_status unit := spi_txn [0x05; 0] false false ;; mret tt.
Definition wren : stm C pw_status unit := spi_txn [0x06] false false ;; mret tt.

(** [-1] on a failed transaction is the [None] result. *)
Definition wip (c : C) : C * option Z :=
  match spi_txn [0x05; 0] true false c with
  | (c, Ok r) => (c, Some (nth 1 r 0 &&& 1))
  | (c, Err _) => (c, None)
  end.

Fixpoint wait_loop (fuel : nat) : stm C pw_status unit := fun c =>
  match fuel with
  | O => (c, Err PW_E_IO)
  | S fuel =>
      match wip c with
      | (c, None) => (c, Err PW_E_IO)
      | (c, Some w) => if w =? 0 then (c, Ok tt) else wait_loop fuel c
      end
  end.
Definition wait_idle : stm C pw_status unit := wait_loop WIP_POLLS.

Definition addr3 (a : Z) : list Z := [(a >>> 16) &&& 0xFF; (a >>> 8) &&& 0xFF; a &&& 0xFF].

Definition sector_erase (a : Z) : stm C pw_status unit :=
  wren ;; spi_txn (0xD8 :: addr3 a) false false ;; wait_idle.

Definition page_program (a : Z) (data : list Z) : stm C pw_status unit :=
  wren ;; spi_txn (0x02 :: addr3 a ++ data) false false ;; wait_idle.

Definition flash_read (a len : Z) : stm C pw_status (list Z) :=
  r ← spi_txn (0x03 :: addr3 a ++ replicate (Z.to_nat len) 0) true false;
  mret (slice 4 len r).

(** The bytes of a chunk that starts at [p] of [len]. *)
Definition chunk_len (len p : Z) : Z := if len - p <? 256 then len - p else 256.

Definition flash_read_range (a len : Z) : stm C pw_status (list Z) :=
  st_for (fun p buf => r ← flash_read (u32 (a + p)) (chunk_len len p); mret (buf ++ r))
    (steps 0 len 256) [].

(** Programming proceeds page by page: [p] bytes of [data] are done. *)
Fixpoint program_loop (fuel : nat) (a : Z) (data : list Z) (p : Z) : stm C pw_status unit :=
  match fuel with
  | O => mret tt
  | S fuel =>
      if p <? nbytes data then
        let addr := u32 (a + p) in
        let page_left := PAGE - (addr &&& (PAGE - 1)) in
        let n := if page_left <? nbytes data - p then page_left else nbytes data - p in
        page_program addr (slice p n data) ;; program_loop fuel a data (p + n)
      else mret tt
  end.
Definition program_range (a : Z) (data : list Z) : stm C pw_status unit :=
  program_loop (length data) a data 0.

Definition count_diff (a b : list Z) : Z :=
  nbytes (filter (fun p => p.1 <> p.2) (zip a b)).*1.

Definition flash_verify_range (a : Z) (expect : list Z) (mism : Z) : stm C pw_status Z :=
  let len := nbytes expect in
  st_for (fun p mism =>
    let n := chunk_len len p in
    rb ← flash_read (u32 (a + p)) n; mret (mism + count_diff rb (slice p n expect)))
    (steps 0 len 256) mism.

(** One sector of the erase loop. *)
Definition erase_sector (offset end_ : Z) (a mism : Z) : stm C pw_status Z :=
  let head := if a <? offset then offset - a else 0 in
  let tail := if end_ <? a + SECTOR then a + SECTOR - end_ else 0 in
  if (head =? 0) && (tail =? 0) then sector_erase a ;; mret mism else
  kh ← flash_read_range a head;
  kt ← (if tail =? 0 then mret [] else flash_read_range end_ tail);
  sector_erase a ;;
  (if head =? 0 then mret tt else program_range a kh) ;;
  (if tail =? 0 then mret tt else program_range end_ kt) ;;
  mism ← (if head =? 0 then mret mism else flash_verify_range a kh mism);
  if tail =? 0 then mret mism else flash_verify_range end_ kt mism.

Definition flash_program (offset : Z) (data : list Z) : stm C pw_status Z :=
  if bool_decide (data = []) then throw PW_E_INVAL else
  if (FLASH_SZ <=? offset) || (FLASH_SZ <? nbytes data) || (FLASH_SZ <? offset + nbytes data)
  then throw PW_E_OUT_OF_RANGE else
  let end_ := offset + nbytes data in
  warmup ;;
  mism ← st_for (erase_sector offset end_) (steps (offset &&& not32 (SECTOR - 1)) end_ SECTOR) 0;
  program_range offset data ;;
  flash_verify_range offset data mism.

Definition flash_read_id : stm C pw_status (list Z) :=
  warmup ;; r ← spi_txn [0x9F; 0; 0; 0] true false; mret (slice 1 3 r).
End Driver.

(** The entry points: a backend without the register operations is refused. *)
Definition pw_flash_program {C} (o : pw_card_backend_ops C) (offset : Z) (data : list Z) :
    stm C pw_status Z :=
  match op_write32 o, op_read32 o with
  | Some w, Some r => flash_program w r offset data
  | _, _ => throw PW_E_INVAL
  end.

Definition pw_flash_read_id {C} (o : pw_card_backend_ops C) : stm C pw_status (list Z) :=
  match op_write32 o, op_read32 o with
  | Some w, Some r => flash_read_id w r
  | _, _ => throw PW_E_INVAL
  end.

(** ** What the driver relies on of the chip *)

Record nor := {
  n_mem : Z -> Z;     (* the array, by byte address *)
  n_wel : bool;       (* write-enable latch *)
  n_wip : nat;        (* status polls that still find an operation in progress *)
  n_cold : bool       (* the clock edges of the next transaction are masked *)
}.

Definition addr24 (a2 a1 a0 : Z) : Z := (a2 <<< 16) ||| (a1 <<< 8) ||| a0.

(** A sector erase sets every byte of the 64 KB sector; a page program clears
    bits, and its address wraps within the 256-byte page. *)
Definition erased (m : Z -> Z) (a x : Z) : Z := if x / SECTOR =? a / SECTOR then 0xFF else m x.
Definition programmed (m : Z -> Z) (a : Z) (data : list Z) (x : Z) : Z :=
  if (x / PAGE =? a / PAGE) && ((x - a) mod PAGE <? nbytes data)
  then m x &&& nth (Z.to_nat ((x - a) mod PAGE)) data 0 else m x.

(** Serial NOR commands, where they are specified: [nor_step n tx rx n'] when the
    bytes [tx] shifted in may answer [rx] and leave the chip in [n']. *)
Inductive nor_step (jedec : list Z) (n : nor) : list Z -> list Z -> nor -> Prop :=
| nor_masked rx n' : n_cold n = true -> n_wip n = O ->
    n_cold n' = false -> n_wip n' = O -> (forall x, n_mem n' x = n_mem n x) ->
    nor_step jedec n [0x05; 0] rx n'
| nor_rdsr r0 st n' : n_cold n = false ->
    (Z.testbit st 0 = negb (n_wip n =? 0)%nat) ->
    n_cold n' = false -> n_wip n' = pred (n_wip n) -> (forall x, n_mem n' x = n_mem n x) ->
    nor_step jedec n [0x05; 0] [r0; st] n'
| nor_wren rx n' : n_cold n = false -> n_wip n = O ->
    n_cold n' = false -> n_wip n' = O -> n_wel n' = true -> (forall x, n_mem n' x = n_mem n x) ->
    nor_step jedec n [0x06] rx n'
| nor_erase a2 a1 a0 rx n' : n_cold n = false -> n_wip n = O -> n_wel n = true ->
    n_cold n' = false -> (n_wip n' < WIP_POLLS)%nat ->
    (forall x, n_mem n' x = erased (n_mem n) (addr24 a2 a1 a0) x) ->
    nor_step jedec n [0xD8; a2; a1; a0] rx n'
| nor_program a2 a1 a0 data rx n' : n_cold n = false -> n_wip n = O -> n_wel n = true ->
    1 <= nbytes data <= PAGE ->
    n_cold n' = false -> (n_wip n' < WIP_POLLS)%nat ->
    (forall x, n_mem n' x = programmed (n_mem n) (addr24 a2 a1 a0) data x) ->
    nor_step jedec n (0x02 :: a2 :: a1 :: a0 :: data) rx n'
| nor_read a2 a1 a0 dummy r0 r1 r2 r3 n' : n_cold n = false -> n_wip n = O ->
    n_cold n' = false -> n_wip n' = O -> (forall x, n_mem n' x = n_mem n x) ->
    nor_step jedec n (0x03 :: a2 :: a1 :: a0 :: dummy)
      (r0 :: r1 :: r2 :: r3 ::
       ((fun i => n_mem n ((addr24 a2 a1 a0 + i) mod FLASH_SZ)) <$> seqZ 0 (nbytes dummy))) n'
| nor_rdid r0 n' : n_cold n = false -> n_wip n = O ->
    n_cold n' = false -> n_wip n' = O -> (forall x, n_mem n' x = n_mem n x) ->
    nor_step jedec n [0x9F; 0; 0; 0] (r0 :: jedec) n'.

(** The byte engine of the card: the TX and RX buffers are little-endian words, a
    [GO] shifts the first [LEN] bytes of the TX buffer through the chip, and the
    status reads busy a bounded number of times. *)
Class FlashCard {C : Type} (w : Z -> Z -> C -> C * pw_status)
    (r : Z -> C -> C * (pw_status * Z)) (jedec : list Z) := {
  fl_nor : C -> nor;
  fl_tx : C -> Z -> Z;
  fl_len : C -> Z;
  fl_rx : C -> Z -> Z;
  fl_busy : C -> nat;
  fl_bytes : forall c x, is_u8 (n_mem (fl_nor c) x);
  fl_write_tx : forall c i d, fl_busy c = O -> 0 <= i < PWFPGA_SPI_BUF_BYTES -> (4 | i) -> is_u32 d ->
    exists c', w (PWFPGA_SPI_TXBUF + i) d c = (c', PW_OK) /\
      fl_nor c' = fl_nor c /\ fl_busy c' = O /\
      forall j, fl_tx c' j = if (i <=? j) && (j <? i + 4) then word_byte d (j - i) else fl_tx c j;
  fl_write_len : forall c n, fl_busy c = O -> 1 <= n <= PWFPGA_SPI_BUF_BYTES ->
    exists c', w PWFPGA_REG_SPI_LEN n c = (c', PW_OK) /\
      fl_nor c' = fl_nor c /\ fl_busy c' = O /\ fl_len c' = n /\ forall j, fl_tx c' j = fl_tx c j;
  fl_write_go : forall c tx, fl_busy c = O -> 1 <= fl_len c <= PWFPGA_SPI_BUF_BYTES ->
    tx = fl_tx c <$> seqZ 0 (fl_len c) ->
    (exists rx n', nor_step jedec (fl_nor c) tx rx n') ->
    exists c', w PWFPGA_REG_SPI_CTRL PWFPGA_SPI_CTRL_GO c = (c', PW_OK) /\
      (fl_busy c' < SPI_SPINS)%nat /\
      nor_step jedec (fl_nor c) tx (fl_rx c' <$> seqZ 0 (fl_len c)) (fl_nor c');
  fl_read_ctrl : forall c, exists c' st, r PWFPGA_REG_SPI_CTRL c = (c', (PW_OK, st)) /\
    ztrue (st &&& PWFPGA_SPI_STATUS_BUSY) = negb (fl_busy c =? 0)%nat /\
    fl_busy c' = pred (fl_busy c) /\ fl_nor c' = fl_nor c /\ forall j, fl_rx c' j = fl_rx c j;
  fl_read_rx : forall c i, fl_busy c = O -> 0 <= i < PWFPGA_SPI_BUF_BYTES -> (4 | i) ->
    exists c' d, r (PWFPGA_SPI_RXBUF + i) c = (c', (PW_OK, d)) /\
      (forall k, 0 <= k < 4 -> word_byte d k = fl_rx c (i + k)) /\
      fl_busy c' = O /\ fl_nor c' = fl_nor c /\ forall j, fl_rx c' j = fl_rx c j
}.

Lemma wip_polls_gt : (2 < WIP_POLLS)%nat.
Proof. unfold WIP_POLLS. lia. Qed.
Lemma wip_polls_pos : (0 < WIP_POLLS)%nat.
Proof. unfold WIP_POLLS. lia. Qed.
Lemma spi_spins_gt : (1 < SPI_SPINS)%nat.
Proof. unfold SPI_SPINS. lia. Qed.

#[global] Opaque SPI_SPINS WIP_POLLS.

(** ** Packing bytes into words *)

Lemma word_byte_pack bs k : Forall is_u8 bs -> 0 <= k -> word_byte (pack_word bs) k = nth (Z.to_nat k) bs 0.
Proof.
  intros Hbs. revert k. unfold word_byte, pack_word.
  induction Hbs as [|b bs Hb _ IH]; simpl; intros k Hk.
  - rewrite Z.shiftr_0_l. simpl. by destruct (Z.to_nat k).
  - destruct (decide (k = 0)) as [->|].
    + simpl. rewrite Z.shiftr_0_r. apply Z.bits_inj'. intros i Hi.
      apply is_w_bits in Hb as [_ Hb]; [|lia].
      rewrite Z.land_spec, Z.lor_spec. change 0xFF with (Z.ones 8).
      rewrite Z.testbit_ones_nonneg by lia. destruct (Z.ltb_spec i 8).
      * rewrite Z.shiftl_spec_low by lia. by rewrite orb_false_r, andb_true_r.
      * rewrite andb_false_r. symmetry. by apply Hb.
    + replace (Z.to_nat k) with (S (Z.to_nat (k - 1))) by lia. simpl.
      rewrite <- IH by lia. f_equal. apply Z.bits_inj'. intros i Hi.
      rewrite !Z.shiftr_spec, Z.lor_spec, Z.shiftl_spec by lia.
      apply is_w_bits in Hb as [_ Hb]; [|lia]. rewrite Hb by lia. simpl. f_equal. lia.
Qed.

Lemma pack_word_w bs : Forall is_u8 bs -> is_w (8 * nbytes bs) (pack_word bs).
Proof.
  unfold pack_word, nbytes. induction 1 as [|b bs Hb _ IH]; simpl; [unfold is_w; lia|].
  apply is_w_lor; [lia| |].
  - eapply is_w_le; [|exact Hb]. lia.
  - replace (8 * Z.of_nat (S (length bs))) with (8 * Z.of_nat (length bs) + 8) by lia.
    by apply is_w_shiftl.
Qed.

Lemma addr24_addr3 a : 0 <= a < FLASH_SZ ->
  addr24 ((a >>> 16) &&& 0xFF) ((a >>> 8) &&& 0xFF) (a &&& 0xFF) = a.
Proof.
  intros Ha. unfold addr24. apply Z.bits_inj'. intros i Hi.
  assert (Hw : is_w 24 a) by (unfold is_w; exact Ha).
  apply is_w_bits in Hw as [_ Hw]; [|lia]. change 0xFF with (Z.ones 8).
  rewrite !Z.lor_spec, !Z.shiftl_spec by lia.
  destruct (Z.ltb_spec i 8) as [|]; [|destruct (Z.ltb_spec i 16); [|destruct (Z.ltb_spec i 24)]].
  - rewrite (Z.testbit_neg_r _ (i - 16)), (Z.testbit_neg_r _ (i - 8)) by lia. simpl.
    rewrite Z.land_spec, Z.testbit_ones_nonneg by lia.
    by replace (i <? 8) with true by lia; rewrite andb_true_r.
  - rewrite (Z.testbit_neg_r _ (i - 16)), !Z.land_spec, Z.shiftr_spec, !Z.testbit_ones_nonneg by lia.
    replace (i - 8 <? 8) with true by lia. replace (i <? 8) with false by lia.
    rewrite andb_true_r, andb_false_r, orb_false_r. simpl. f_equal. lia.
  - rewrite !Z.land_spec, !Z.shiftr_spec, !Z.testbit_ones_nonneg by lia.
    replace (i - 16 <? 8) with true by lia. replace (i - 8 <? 8) with false by lia.
    replace (i <? 8) with false by lia.
    rewrite andb_true_r, !andb_false_r, !orb_false_r. f_equal. lia.
  - rewrite !Z.land_spec, !Z.shiftr_spec, !Z.testbit_ones_nonneg by lia.
    replace (i - 16 <? 8) with false by lia. replace (i - 8 <? 8) with false by lia.
    replace (i <? 8) with false by lia. by rewrite !andb_false_r, Hw.
Qed.

Lemma addr3_u8 a : Forall is_u8 (addr3 a).
Proof.
  repeat constructor; try (apply (is_w_land_r 8); [lia|]; unfold is_w; lia).
Qed.
