(* ===== verification/FlashProps.v ===== *)
(** * The flash update is exact

    Against a card in order ([FlashCard]), every driver routine of [SpiFlash]
    comes back, and a range update leaves exactly the caller's bytes in the range
    and every other byte of the chip as it was, the rest of the partially covered
    sectors included. *)

From S2P Require Import Prelude StateMonad Types Csr Backend SpiFlash.

(** ** Slices *)

Lemma slice_app p n l : 0 <= p -> 0 <= n -> slice 0 p l ++ slice p n l = slice 0 (p + n) l.
Proof.
  intros. unfold slice. rewrite !drop_0, Z2Nat.inj_add by done.
  by rewrite take_take_drop.
Qed.

Lemma slice_all n l : nbytes l <= n -> slice 0 n l = l.
Proof. intros. unfold slice, nbytes in *. rewrite drop_0. apply take_ge. lia. Qed.

Lemma nbytes_slice p n l : 0 <= p -> 0 <= n -> p + n <= nbytes l -> nbytes (slice p n l) = n.
Proof. unfold nbytes, slice. intros. rewrite length_take, length_drop. lia. Qed.

Lemma nth_slice p n l i : 0 <= p -> 0 <= i < n -> nth (Z.to_nat i) (slice p n l) 0 = nth (Z.to_nat (p + i)) l 0.
Proof.
  intros. unfold slice. rewrite !nth_lookup, lookup_take, decide_True by lia.
  rewrite lookup_drop. repeat f_equal. lia.
Qed.

Lemma Forall_slice (P : Z -> Prop) p n l : Forall P l -> Forall P (slice p n l).
Proof. intros. by apply Forall_take, Forall_drop. Qed.

(** A list of bytes as the values of a function on an interval. *)
Lemma list_as_fun l : l = (fun i => nth (Z.to_nat i) l 0) <$> seqZ 0 (nbytes l).
Proof.
  apply list_eq. intros i. rewrite list_lookup_fmap. destruct (seqZ 0 (nbytes l) !! i) as [j|] eqn:Hj.
  - apply lookup_seqZ in Hj as [-> Hi]. simpl. unfold nbytes in Hi.
    destruct (lookup_lt_is_Some_2 l i) as [x Hx]; [lia|].
    rewrite Hx, nth_lookup. replace (Z.to_nat (0 + Z.of_nat i)) with i by lia. by rewrite Hx.
  - simpl. apply lookup_ge_None. apply lookup_ge_None in Hj. rewrite length_seqZ in Hj.
    unfold nbytes in Hj. lia.
Qed.

Lemma fmap_seqZ_ext {A} (f g : Z -> A) n :
  (forall i, 0 <= i < n -> f i = g i) -> f <$> seqZ 0 n = g <$> seqZ 0 n.
Proof.
  intros H. apply list_fmap_ext. intros i x Hx. apply lookup_seqZ in Hx as [-> Hi]. apply H. lia.
Qed.

Lemma seqZ_split {A} (f : Z -> A) p n : 0 <= p -> 0 <= n ->
  f <$> seqZ 0 (p + n) = (f <$> seqZ 0 p) ++ ((fun i => f (p + i)) <$> seqZ 0 n).
Proof.
  intros. rewrite seqZ_app, fmap_app by done. f_equal.
  replace (0 + p) with (p + 0) by lia. by rewrite <- fmap_add_seqZ, <- list_fmap_compose.
Qed.

Section Card.
Context {C : Type} {w : Z -> Z -> C -> C * pw_status} {r : Z -> C -> C * (pw_status * Z)}
  {jedec : list Z} {HC : FlashCard w r jedec}.

Abbreviation mem c := (n_mem (fl_nor c)).

(** ** The transaction *)

Lemma wr_ok off v c c' : w off v c = (c', PW_OK) -> returns (wr w off v) c (fun _ s => s = c').
Proof. intros H. exists tt, c'. unfold wr. by rewrite H. Qed.
Lemma rd_ok off c c' v : r off c = (c', (PW_OK, v)) -> returns (rd r off) c (fun a s => a = v /\ s = c').
Proof. intros H. exists v, c'. unfold rd. by rewrite H. Qed.

Lemma fill_tx tx c : fl_busy c = O -> nbytes tx <= PWFPGA_SPI_BUF_BYTES -> Forall is_u8 tx ->
  returns (st_for (fun i _ => wr w (PWFPGA_SPI_TXBUF + i) (pack_word (slice i 4 tx)))
    (steps 0 (nbytes tx) 4) tt) c
    (fun _ c' => fl_busy c' = O /\ fl_nor c' = fl_nor c /\ tx = fl_tx c' <$> seqZ 0 (nbytes tx)).
Proof.
  intros Hb Hn Htx. eapply returns_mono.
  - apply (returns_steps _ (fun i _ c' => fl_busy c' = O /\ fl_nor c' = fl_nor c /\
      forall j, 0 <= j < i -> j < nbytes tx -> fl_tx c' j = nth (Z.to_nat j) tx 0)); [lia| |].
    + split; [done|]. split; [done|lia].
    + intros i [] c1 Hi Hdiv (Hb1 & Hn1 & Ht1). rewrite Z.sub_0_r in Hdiv.
      assert (Hs : Forall is_u8 (slice i 4 tx)) by by apply Forall_slice.
      destruct (fl_write_tx c1 i (pack_word (slice i 4 tx))) as (c2 & Hw & Hn2 & Hb2 & Ht2);
        [done|lia|done| |].
      { eapply is_w_le; [|by apply pack_word_w]. unfold nbytes, slice. rewrite length_take. lia. }
      eapply returns_mono; [by apply wr_ok|]. intros _ c' ->.
      split; [done|]. split; [congruence|]. intros j Hj Hjn. rewrite Ht2.
      destruct (Z.leb_spec i j), (Z.ltb_spec j (i + 4)); simpl; try lia; [|by apply Ht1; lia].
      rewrite word_byte_pack by (done || lia). rewrite nth_slice by lia. do 2 f_equal. lia.
  - intros _ c' (e & He & _ & _ & Hb' & Hn' & Ht'). split; [done|]. split; [done|].
    rewrite (list_as_fun tx) at 1. apply fmap_seqZ_ext. intros i Hi. symmetry. apply Ht'; lia.
Qed.

Lemma read_rx n c : fl_busy c = O -> 0 <= n <= PWFPGA_SPI_BUF_BYTES ->
  returns (st_for (fun i acc => d ← rd r (PWFPGA_SPI_RXBUF + i);
      mret (acc ++ (word_byte d <$> seqZ 0 (Z.min 4 (n - i))))) (steps 0 n 4) []) c
    (fun rx c' => fl_busy c' = O /\ fl_nor c' = fl_nor c /\ rx = fl_rx c <$> seqZ 0 n).
Proof.
  intros Hb Hn. eapply returns_mono.
  - apply (returns_steps _ (fun i acc c' => fl_busy c' = O /\ fl_nor c' = fl_nor c /\
      (forall j, fl_rx c' j = fl_rx c j) /\ acc = fl_rx c <$> seqZ 0 (Z.min i n))); [lia| |].
    + rewrite Z.min_l by lia. done.
    + intros i acc c1 Hi Hdiv (Hb1 & Hn1 & Hr1 & ->). rewrite Z.sub_0_r in Hdiv.
      destruct (fl_read_rx c1 i) as (c2 & d & Hr & Hd & Hb2 & Hn2 & Hr2); [done|lia|done|].
      eapply returns_bind; [by apply rd_ok|]. intros a c' [-> ->]. apply returns_ret.
      split; [done|]. split; [congruence|]. split; [by intros j; rewrite Hr2|].
      rewrite (Z.min_l i) by lia. replace (Z.min (i + 4) n) with (i + Z.min 4 (n - i)) by lia.
      rewrite seqZ_split by lia. f_equal. apply fmap_seqZ_ext. intros k Hk.
      rewrite Hd by lia. by rewrite Hr1.
  - intros rx c' (e & He & _ & _ & Hb' & Hn' & _ & ->). by rewrite Z.min_r by lia.
Qed.

Lemma spin_ok n want fuel : forall c, (fl_busy c < fuel)%nat -> 0 <= n <= PWFPGA_SPI_BUF_BYTES ->
  returns (spi_spin r fuel n want) c (fun rx c' => fl_busy c' = O /\ fl_nor c' = fl_nor c /\
    rx = if want then fl_rx c <$> seqZ 0 n else []).
Proof.
  induction fuel as [|fuel IH]; intros c Hf Hn; [lia|]. simpl.
  destruct (fl_read_ctrl c) as (c1 & st & Hr & Hst & Hb & Hnor & Hrx).
  eapply returns_bind; [by apply rd_ok|]. intros a c' [-> ->]. rewrite Hst.
  destruct (Nat.eqb_spec (fl_busy c) 0) as [H0|H0]; simpl.
  - rewrite H0 in Hb. destruct want; [|by apply returns_ret].
    eapply returns_mono; [apply read_rx; done|]. intros rx c' (? & ? & ->).
    split; [done|]. split; [congruence|]. apply fmap_seqZ_ext. auto.
  - eapply returns_mono; [apply IH; [lia|done]|]. intros rx c' (? & ? & ->).
    split; [done|]. split; [congruence|]. destruct want; [|done]. apply fmap_seqZ_ext. auto.
Qed.

(** A specified command: the answer and the new chip state are what the chip
    specifies. *)
Lemma txn_ok tx want c : fl_busy c = O -> 1 <= nbytes tx <= PWFPGA_SPI_BUF_BYTES -> Forall is_u8 tx ->
  (exists rx n', nor_step jedec (fl_nor c) tx rx n') ->
  returns (spi_txn w r tx want false) c (fun rx c' => fl_busy c' = O /\
    exists rx', nor_step jedec (fl_nor c) tx rx' (fl_nor c') /\ rx = if want then rx' else []).
Proof.
  intros Hb Hn Htx Hok. unfold spi_txn. rewrite (proj2 (Z.ltb_ge _ _)) by lia.
  eapply returns_bind; [by apply fill_tx; [done|lia|]|]. intros _ c1 (Hb1 & Hn1 & Ht1).
  destruct (fl_write_len c1 (nbytes tx)) as (c2 & Hw2 & Hn2 & Hb2 & Hl2 & Ht2); [done|done|].
  eapply returns_bind; [by apply wr_ok|]. intros _ c' ->.
  assert (Htx2 : tx = fl_tx c2 <$> seqZ 0 (fl_len c2)).
  { rewrite Hl2. rewrite Ht1 at 1. apply fmap_seqZ_ext. auto. }
  destruct (fl_write_go c2 tx) as (c3 & Hw3 & Hb3 & Hstep); [done|lia|done|by rewrite Hn2, Hn1|].
  eapply returns_bind; [by apply wr_ok|]. intros _ c' ->.
  rewrite Hn2, Hn1, Hl2 in Hstep. eapply returns_mono; [apply spin_ok; [done|lia]|].
  intros rx c' (Hb4 & Hn4 & ->). split; [done|]. rewrite Hn4. eauto.
Qed.

(** ** The commands *)

(** The engine and the chip wait for the next command; the array reads as [m]. *)
Definition idle (m : Z -> Z) (c : C) : Prop :=
  fl_busy c = O /\ n_cold (fl_nor c) = false /\ n_wip (fl_nor c) = O /\ forall x, mem c x = m x.

Definition mk_nor (m : Z -> Z) (wel : bool) : nor :=
  {| n_mem := m; n_wel := wel; n_wip := O; n_cold := false |}.

Lemma small_u8 z : 0 <= z <= 255 -> is_u8 z. Proof. unfold is_w. lia. Qed.
#[local] Hint Resolve small_u8 addr3_u8 Forall_cons_2 Forall_nil_2 Forall_app_2 : core.
#[local] Hint Extern 3 (0 <= _ <= 255) => lia : core.

Lemma nbytes_cons (a : Z) (l : list Z) : nbytes (a :: l) = 1 + nbytes l.
Proof. unfold nbytes. simpl. lia. Qed.
Lemma nbytes_nonneg (l : list Z) : 0 <= nbytes l. Proof. unfold nbytes. lia. Qed.

Lemma warmup_ok m c : fl_busy c = O -> n_wip (fl_nor c) = O -> (forall x, mem c x = m x) ->
  returns (warmup w r) c (fun _ => idle m).
Proof.
  intros Hb Hw Hm. unfold warmup. eapply returns_bind.
  - apply txn_ok; [done|by compute|auto 10|]. destruct (n_cold (fl_nor c)) eqn:Hc.
    + exists [], (mk_nor (mem c) false). by apply nor_masked.
    + exists [0; 0], (mk_nor (mem c) false). apply nor_rdsr; simpl; rewrite ?Hw; done.
  - intros rx c' (Hb' & rx' & Hs & _). apply returns_ret.
    inversion Hs; subst; repeat split; try done; intros; try congruence; rewrite Hw in *; done.
Qed.

Lemma wren_ok m c : idle m c ->
  returns (wren w r) c (fun _ c' => idle m c' /\ n_wel (fl_nor c') = true).
Proof.
  intros (Hb & Hc & Hw & Hm). unfold wren. eapply returns_bind.
  - apply txn_ok; [done|by compute|auto 10|]. exists [], (mk_nor (mem c) true). by apply nor_wren.
  - intros rx c' (Hb' & rx' & Hs & _). apply returns_ret. inversion Hs; subst.
    repeat split; try done. intros. congruence.
Qed.

Lemma wip_ok m c : fl_busy c = O -> n_cold (fl_nor c) = false -> (forall x, mem c x = m x) ->
  exists c', wip w r c = (c', Some (b2z (negb (n_wip (fl_nor c) =? 0)%nat))) /\ fl_busy c' = O /\
    n_cold (fl_nor c') = false /\ n_wip (fl_nor c') = pred (n_wip (fl_nor c)) /\ forall x, mem c' x = m x.
Proof.
  intros Hb Hc Hm. destruct (txn_ok [0x05; 0] true c) as (rx & c' & Hx & Hb' & rx' & Hs & ->);
    [done|by compute|auto 10| |].
  - exists [0; b2z (negb (n_wip (fl_nor c) =? 0)%nat)],
      {| n_mem := mem c; n_wel := false; n_wip := pred (n_wip (fl_nor c)); n_cold := false |}.
    apply nor_rdsr; try done. by destruct (_ =? _)%nat.
  - exists c'. unfold wip. rewrite Hx. inversion Hs as [| ? ? ? ? Hbit ? ? | | | | |]; subst; [congruence|].
    split; [|repeat split; try done; intros; congruence]. do 2 f_equal. cbn [nth].
    rewrite <- Hbit. change 1 with (Z.ones 1). rewrite Z.land_ones by lia.
    change (2 ^ 1) with 2. rewrite Zmod_odd, <- Z.bit0_odd. by destruct (Z.testbit _ 0).
Qed.

Lemma wait_ok m fuel : forall c, fl_busy c = O -> n_cold (fl_nor c) = false ->
  (n_wip (fl_nor c) < fuel)%nat -> (forall x, mem c x = m x) ->
  returns (wait_loop w r fuel) c (fun _ => idle m).
Proof.
  induction fuel as [|fuel IH]; intros c Hb Hc Hf Hm; [lia|].
  destruct (wip_ok m c Hb Hc Hm) as (c' & Hx & Hb' & Hc' & Hw' & Hm').
  unfold returns. simpl. rewrite Hx. destruct (Nat.eqb_spec (n_wip (fl_nor c)) 0) as [H0|H0]; simpl.
  - exists tt, c'. rewrite H0 in Hw'. done.
  - apply IH; try done. lia.
Qed.

(** A write command: enabled, sent, and waited for. *)
Lemma write_cmd_ok m m' tx c : idle m c -> 1 <= nbytes tx <= PWFPGA_SPI_BUF_BYTES -> Forall is_u8 tx ->
  (forall n, n_cold n = false -> n_wip n = O -> n_wel n = true -> (forall x, n_mem n x = m x) ->
    (exists rx n', nor_step jedec n tx rx n') /\
    forall rx n', nor_step jedec n tx rx n' -> n_cold n' = false /\ (n_wip n' < WIP_POLLS)%nat /\
      forall x, n_mem n' x = m' x) ->
  returns (wren w r ;; spi_txn w r tx false false ;; wait_idle w r) c (fun _ => idle m').
Proof.
  intros Hi Hn Htx Hspec. eapply returns_bind; [by apply wren_ok|].
  intros _ c1 [(Hb & Hc & Hw & Hm) Hwel].
  destruct (Hspec (fl_nor c1) Hc Hw Hwel Hm) as [Hex Hpost].
  eapply returns_bind; [by apply txn_ok|].
  intros _ c2 (Hb2 & rx & (Hc2 & Hw2 & Hm2)%Hpost & _). by apply wait_ok.
Qed.

Lemma sector_erase_ok m a c : idle m c -> 0 <= a < FLASH_SZ ->
  returns (sector_erase w r a) c (fun _ => idle (erased m a)).
Proof.
  intros Hi Ha. apply write_cmd_ok with m; [done|by compute|auto 10|].
  intros n Hc Hw Hwel Hm. unfold addr3. split.
  - exists [], (mk_nor (erased (n_mem n) a) false). apply nor_erase; try done; simpl.
    + apply wip_polls_pos.
    + intros x. by rewrite addr24_addr3.
  - intros rx n' Hs. inversion Hs; subst. split; [done|]. split; [done|].
    intros x. rewrite addr24_addr3 in * by done. unfold erased in *. rewrite <- Hm. auto.
Qed.

Lemma page_program_ok m a data c : idle m c -> 0 <= a < FLASH_SZ -> 1 <= nbytes data <= PAGE ->
  Forall is_u8 data -> returns (page_program w r a data) c (fun _ => idle (programmed m a data)).
Proof.
  intros Hi Ha Hn Hd. apply write_cmd_ok with m; [done| |auto 10|].
  { simpl. rewrite !nbytes_cons. unfold PAGE, PWFPGA_SPI_BUF_BYTES in *. lia. }
  intros n Hc Hw Hwel Hm. unfold addr3. simpl. split.
  - exists [], (mk_nor (programmed (n_mem n) a data) false). apply nor_program; try done; simpl.
    + apply wip_polls_pos.
    + intros x. by rewrite addr24_addr3.
  - intros rx n' Hs. inversion Hs; subst. split; [done|]. split; [done|].
    intros x. rewrite addr24_addr3 in * by done. unfold programmed in *. rewrite <- Hm. auto.
Qed.

Lemma flash_read_ok m a len c : idle m c -> 0 <= a -> 0 <= len <= 256 -> a + len <= FLASH_SZ -> a < FLASH_SZ ->
  returns (flash_read w r a len) c
    (fun bs c' => idle m c' /\ bs = (fun i => m (a + i)) <$> seqZ 0 len).
Proof.
  intros (Hb & Hc & Hw & Hm) Ha Hl Hal Ha'. unfold flash_read, addr3. simpl.
  assert (Hnr : nbytes (replicate (Z.to_nat len) 0) = len) by (unfold nbytes; rewrite length_replicate; lia).
  eapply returns_bind.
  - apply txn_ok; [done| | |].
    + rewrite !nbytes_cons, Hnr. unfold PWFPGA_SPI_BUF_BYTES. lia.
    + apply Forall_cons; split; [auto|]. pose proof (addr3_u8 a) as H3. unfold addr3 in H3.
      repeat (apply Forall_cons in H3 as [? H3]; apply Forall_cons; split; [done|]).
      apply Forall_replicate. auto.
    + eexists _, (mk_nor (mem c) false). by apply (nor_read _ _ _ _ _ _ 0 0 0 0).
  - intros rx c' (Hb' & rx' & Hs & ->). inversion Hs; subst. apply returns_ret.
    split; [repeat split; try done; intros; congruence|]. unfold slice.
    change (Z.to_nat 4) with 4%nat. cbn [drop]. rewrite Hnr, addr24_addr3 by lia.
    rewrite drop_0, take_ge by (rewrite length_fmap, length_seqZ; lia).
    apply fmap_seqZ_ext. intros i Hi. rewrite Z.mod_small by lia. apply Hm.
Qed.

(** ** Ranges *)

Lemma idle_ext m m' c : idle m c -> (forall x, m x = m' x) -> idle m' c.
Proof. intros (? & ? & ? & Hm) He. repeat split; try done. intros x. by rewrite Hm. Qed.

Lemma chunk_len_min len p : chunk_len len p = Z.min 256 (len - p).
Proof. unfold chunk_len. destruct (Z.ltb_spec (len - p) 256); lia. Qed.

Lemma addr_u32 z : 0 <= z < FLASH_SZ -> u32 z = z.
Proof. intros. apply u32_id. unfold is_w, FLASH_SZ in *. lia. Qed.

Lemma read_range_ok m a len c : idle m c -> 0 <= a -> 0 <= len -> a + len <= FLASH_SZ ->
  returns (flash_read_range w r a len) c
    (fun bs c' => idle m c' /\ bs = (fun i => m (a + i)) <$> seqZ 0 len).
Proof.
  intros Hi Ha Hl Hal. eapply returns_mono.
  - apply (returns_steps _ (fun p buf c' => idle m c' /\ buf = (fun i => m (a + i)) <$> seqZ 0 (Z.min p len)));
      [lia|by rewrite Z.min_l by lia|].
    intros p buf c1 Hp _ [Hi1 ->]. rewrite chunk_len_min, addr_u32 by lia.
    eapply returns_bind; [by apply (flash_read_ok m); [| |lia|lia|lia]; [|lia]|].
    intros bs c2 [Hi2 ->]. apply returns_ret. split; [done|].
    rewrite (Z.min_l p) by lia. replace (Z.min (p + 256) len) with (p + Z.min 256 (len - p)) by lia.
    rewrite seqZ_split by lia. f_equal. apply fmap_seqZ_ext. intros i Hi'. f_equal. lia.
  - intros bs c' (e & He & _ & _ & Hi' & ->). by rewrite Z.min_r by lia.
Qed.

(** [p] bytes of [data] written at [a]. *)
Definition written (m : Z -> Z) (a : Z) (data : list Z) (p x : Z) : Z :=
  if (a <=? x) && (x <? a + p) then nth (Z.to_nat (x - a)) data 0 else m x.

(** A program command that stays within its page writes exactly its range. *)
Lemma programmed_page m a data p n x : (forall x, a <= x < a + nbytes data -> m x = 0xFF) ->
  Forall is_u8 data -> 0 <= p -> 1 <= n -> p + n <= nbytes data -> (a + p) mod PAGE + n <= PAGE ->
  programmed (written m a data p) (a + p) (slice p n data) x = written m a data (p + n) x.
Proof.
  intros Hff Hd Hp Hn Hpn Hpage. unfold programmed. rewrite nbytes_slice by lia.
  unfold PAGE in *. set (addr := a + p) in *.
  assert (Hiff : ((x / 256 =? addr / 256) && ((x - addr) mod 256 <? n)) = (addr <=? x) && (x <? addr + n)).
  { apply eq_bool_prop_intro. rewrite !andb_True, !Is_true_true.
    rewrite !Z.eqb_eq, !Z.ltb_lt, Z.leb_le.
    pose proof (Z.div_mod addr 256). pose proof (Z.div_mod x 256).
    pose proof (Z.mod_pos_bound addr 256). pose proof (Z.mod_pos_bound x 256). split.
    - intros [Hq Hr]. destruct (Z.le_gt_cases addr x).
      + rewrite Z.mod_small in Hr by lia. lia.
      + rewrite <- (Z.mod_add _ 1), Z.mod_small in Hr by lia. lia.
    - intros [Hx1 Hx2]. assert (x / 256 = addr / 256).
      { symmetry. apply Z.div_unique with (addr mod 256 + (x - addr)); lia. }
      rewrite Z.mod_small by lia. lia. }
  pose proof (Z.mod_pos_bound addr 256 eq_refl). rewrite Hiff. unfold written.
  destruct (Z.leb_spec addr x), (Z.ltb_spec x (addr + n)); simpl.
  - rewrite Z.mod_small by lia. rewrite nth_slice by lia.
    replace (a <=? x) with true by lia. replace (x <? a + p) with false by lia.
    replace (x <? a + (p + n)) with true by lia. simpl. rewrite Hff by lia.
    replace (p + (x - addr)) with (x - a) by lia. rewrite Z.land_comm. change 0xFF with (Z.ones 8).
    rewrite Z.land_ones by lia. apply Z.mod_small. rewrite Forall_forall in Hd. apply Hd.
    rewrite list_elem_of_In. apply nth_In. unfold nbytes in *. lia.
  - by replace (x <? a + p) with false by lia; replace (x <? a + (p + n)) with false by lia.
  - destruct (Z.ltb_spec x (a + p)); [|lia]. by replace (x <? a + (p + n)) with true by lia.
  - lia.
Qed.

Lemma program_loop_ok m a data fuel : (forall x, a <= x < a + nbytes data -> m x = 0xFF) ->
  Forall is_u8 data -> 0 <= a -> a + nbytes data <= FLASH_SZ ->
  forall p c, 0 <= p <= nbytes data -> nbytes data - p <= Z.of_nat fuel -> idle (written m a data p) c ->
  returns (program_loop w r fuel a data p) c (fun _ => idle (written m a data (nbytes data))).
Proof.
  intros Hff Hd Ha Hend. induction fuel as [|fuel IH]; intros p c Hp Hf Hi; simpl.
  - apply returns_ret. by replace (nbytes data) with p by lia.
  - destruct (Z.ltb_spec p (nbytes data)); [|apply returns_ret; by replace (nbytes data) with p by lia].
    rewrite addr_u32 by lia. change (PAGE - 1) with (Z.ones 8). rewrite Z.land_ones by lia.
    change (2 ^ 8) with PAGE. pose proof (Z.mod_pos_bound (a + p) PAGE eq_refl) as Hmod.
    set (n := if _ <? _ then _ else _).
    assert (Hn : 1 <= n /\ n <= nbytes data - p /\ (a + p) mod PAGE + n <= PAGE).
    { unfold n. destruct (Z.ltb_spec (PAGE - (a + p) mod PAGE) (nbytes data - p)); lia. }
    eapply returns_bind.
    + apply (page_program_ok (written m a data p)); [done|lia|rewrite nbytes_slice; lia|by apply Forall_slice].
    + intros [] c1 Hi1. apply IH; [lia|lia|]. eapply idle_ext; [exact Hi1|].
      intros x. apply programmed_page; tauto || lia.
Qed.

Lemma program_range_ok m a data c : (forall x, a <= x < a + nbytes data -> m x = 0xFF) ->
  Forall is_u8 data -> 0 <= a -> a + nbytes data <= FLASH_SZ -> idle m c ->
  returns (program_range w r a data) c (fun _ => idle (written m a data (nbytes data))).
Proof.
  intros Hff Hd Ha Hend Hi. pose proof (nbytes_nonneg data).
  apply (program_loop_ok m); try done; [unfold nbytes; lia|].
  eapply idle_ext; [exact Hi|]. intros x. unfold written.
  destruct (Z.leb_spec a x), (Z.ltb_spec x (a + 0)); try done. lia.
Qed.

Lemma count_diff_same l : count_diff l l = 0.
Proof.
  unfold count_diff, nbytes. induction l as [|x l IH]; [done|]. cbn [zip zip_with].
  rewrite filter_cons_False; [done|]. simpl. congruence.
Qed.

Lemma verify_range_ok m a expect mism c : idle m c -> 0 <= a -> a + nbytes expect <= FLASH_SZ ->
  expect = (fun i => m (a + i)) <$> seqZ 0 (nbytes expect) ->
  returns (flash_verify_range w r a expect mism) c (fun mism' c' => idle m c' /\ mism' = mism).
Proof.
  intros Hi Ha Hend Hex. eapply returns_mono.
  - apply (returns_steps _ (fun p mism' c' => idle m c' /\ mism' = mism)); [lia|done|].
    intros p mism' c1 Hp _ [Hi1 ->]. rewrite chunk_len_min, addr_u32 by lia.
    eapply returns_bind; [by apply (flash_read_ok m); [| |lia|lia|lia]; [|lia]|].
    intros bs c2 [Hi2 ->]. apply returns_ret. split; [done|].
    replace (slice p _ expect) with ((fun i => m (a + p + i)) <$> seqZ 0 (Z.min 256 (nbytes expect - p)));
      [rewrite count_diff_same; lia|].
    rewrite (list_as_fun (slice _ _ _)), nbytes_slice by lia. apply fmap_seqZ_ext. intros i Hi'.
    rewrite nth_slice, Hex, nth_lookup, list_lookup_fmap by lia.
    rewrite (proj2 (lookup_seqZ 0 _ _ (p + i))) by (split; lia). simpl. f_equal. lia.
  - intros mism' c' (e & _ & _ & _ & H'). done.
Qed.

(** ** The sectors *)

Lemma nth_fun (f : Z -> Z) n i : 0 <= i < n -> nth (Z.to_nat i) (f <$> seqZ 0 n) 0 = f i.
Proof.
  intros. rewrite nth_lookup, list_lookup_fmap, (proj2 (lookup_seqZ 0 n _ i)) by (split; lia). done.
Qed.

Lemma nbytes_fun (f : Z -> Z) n : 0 <= n -> nbytes (f <$> seqZ 0 n) = n.
Proof. intros. unfold nbytes. rewrite length_fmap, length_seqZ. lia. Qed.

Lemma idle_u8 m c : idle m c -> forall x, is_u8 (m x).
Proof. intros (_ & _ & _ & Hm) x. rewrite <- Hm. apply fl_bytes. Qed.

Lemma Forall_fun (f : Z -> Z) l : (forall x, is_u8 (f x)) -> Forall is_u8 (f <$> l).
Proof. intros. apply Forall_fmap, Forall_forall. intros. by unfold compose. Qed.

(** The bytes of the range below [lim] are erased. *)
Definition wiped (m : Z -> Z) (offset lim x : Z) : Z :=
  if (offset <=? x) && (x <? lim) then 0xFF else m x.

Lemma in_sector a x : (SECTOR | a) -> (x / SECTOR =? a / SECTOR) = (a <=? x) && (x <? a + SECTOR).
Proof.
  intros [q ->]. rewrite Z.div_mul by done. unfold SECTOR.
  pose proof (Z.div_mod x 0x10000). pose proof (Z.mod_pos_bound x 0x10000).
  destruct (Z.eqb_spec (x / 0x10000) q); symmetry.
  - apply andb_true_iff. split; lia.
  - apply andb_false_iff. destruct (Z.lt_ge_cases x (q * 0x10000)); [left|right]; lia.
Qed.

(** Restoring a kept region when there is one. *)
Lemma restore_ok m a n (k : Z -> Z) c : 0 <= n -> (forall x, a <= x < a + n -> m x = 0xFF) ->
  (forall x, is_u8 (k x)) -> 0 <= a -> a + n <= FLASH_SZ -> idle m c ->
  returns (if n =? 0 then mret tt else program_range w r a ((fun i => k (a + i)) <$> seqZ 0 n)) c
    (fun _ => idle (fun x => if (a <=? x) && (x <? a + n) then k x else m x)).
Proof.
  intros Hn Hff Hk Ha Hend Hi. destruct (Z.eqb_spec n 0) as [->|].
  - apply returns_ret. eapply idle_ext; [exact Hi|]. intros x.
    destruct (Z.leb_spec a x), (Z.ltb_spec x (a + 0)); try done. lia.
  - eapply returns_mono; [apply (program_range_ok m); rewrite ?nbytes_fun by done; try done|].
    + by apply Forall_fun.
    + intros [] c' Hi'. eapply idle_ext; [exact Hi'|]. intros x. unfold written.
      rewrite nbytes_fun by done.
      destruct (Z.leb_spec a x), (Z.ltb_spec x (a + n)); simpl; try done.
      rewrite nth_fun by lia. f_equal. lia.
Qed.

(** Checking a kept region, when there is one. *)
Lemma verify_keep_ok m a n (k : Z -> Z) mism c : 0 <= n -> (forall x, a <= x < a + n -> m x = k x) ->
  0 <= a -> a + n <= FLASH_SZ -> idle m c ->
  returns (if n =? 0 then mret mism
           else flash_verify_range w r a ((fun i => k (a + i)) <$> seqZ 0 n) mism) c
    (fun mism' c' => idle m c' /\ mism' = mism).
Proof.
  intros Hn Hk Ha Hend Hi. destruct (Z.eqb_spec n 0); [by apply returns_ret|].
  apply verify_range_ok; rewrite ?nbytes_fun by done; try done.
  apply fmap_seqZ_ext. intros i Hi'. symmetry. apply Hk. lia.
Qed.

Lemma keep_ok m a n c : 0 <= n -> 0 <= a -> a + n <= FLASH_SZ -> idle m c ->
  returns (if n =? 0 then mret [] else flash_read_range w r a n) c
    (fun bs c' => idle m c' /\ bs = (fun i => m (a + i)) <$> seqZ 0 n).
Proof.
  intros Hn Ha Hend Hi. destruct (Z.eqb_spec n 0) as [->|]; [by apply returns_ret|].
  by apply read_range_ok.
Qed.

(** What one sector step must leave. *)
Lemma wiped_sector m offset end_ a x : 0 < SECTOR -> 0 <= a -> a < end_ -> offset < a + SECTOR -> offset < end_ ->
  wiped m offset (Z.min (a + SECTOR) end_) x =
    if (a <=? x) && (x <? a + SECTOR) then
      if (x <? a + Z.max 0 (offset - a)) || (end_ <=? x) then wiped m offset (Z.min a end_) x else 0xFF
    else wiped m offset (Z.min a end_) x.
Proof.
  intros. unfold wiped.
  destruct (Z.leb_spec a x), (Z.ltb_spec x (a + SECTOR)), (Z.ltb_spec x (a + Z.max 0 (offset - a))),
    (Z.leb_spec end_ x), (Z.leb_spec offset x), (Z.ltb_spec x (Z.min a end_)),
    (Z.ltb_spec x (Z.min (a + SECTOR) end_)); simpl; done || lia.
Qed.

Lemma erase_sector_ok m offset end_ a mism c : (SECTOR | a) -> 0 <= a -> a < end_ -> offset < a + SECTOR ->
  offset < end_ -> end_ <= FLASH_SZ ->
  idle (wiped m offset (Z.min a end_)) c -> returns (erase_sector w r offset end_ a mism) c
    (fun mism' c' => idle (wiped m offset (Z.min (a + SECTOR) end_)) c' /\ mism' = mism).
Proof.
  intros Hdiv Ha Hae Hoa Hoe Hend Hi. unfold erase_sector.
  set (m1 := wiped m offset (Z.min a end_)) in *. pose proof (idle_u8 _ _ Hi) as Hu8.
  assert (HS : 0 < SECTOR) by done.
  assert (HaS : a + SECTOR <= FLASH_SZ).
  { destruct Hdiv as [q ->]. unfold SECTOR, FLASH_SZ in *. lia. }
  set (head := if a <? offset then _ else _). set (tail := if end_ <? _ then _ else _).
  assert (Hh : head = Z.max 0 (offset - a)) by (unfold head; destruct (Z.ltb_spec a offset); lia).
  assert (Ht : tail = Z.max 0 (a + SECTOR - end_)) by (unfold tail; destruct (Z.ltb_spec end_ (a + SECTOR)); lia).
  assert (Hres := fun x => wiped_sector m offset end_ a x HS Ha Hae Hoa Hoe). rewrite <- Hh in Hres.
  fold m1 in Hres.
  destruct ((head =? 0) && (tail =? 0)) eqn:H0.
  - apply andb_true_iff in H0 as [H1%Z.eqb_eq H2%Z.eqb_eq].
    eapply returns_bind; [by apply (sector_erase_ok m1); [done|unfold SECTOR, FLASH_SZ in *; lia]|].
    intros [] c1 Hi1. apply returns_ret. split; [|done]. eapply idle_ext; [exact Hi1|].
    intros x. unfold erased. rewrite in_sector, Hres by done.
    destruct (Z.leb_spec a x), (Z.ltb_spec x (a + SECTOR)), (Z.ltb_spec x (a + head)), (Z.leb_spec end_ x);
      simpl; done || lia.
  - clear H0. eapply returns_bind; [by apply (read_range_ok m1); [done|done|lia|lia]|].
    intros kh c1 [Hi1 ->].
    eapply returns_bind; [by apply (keep_ok m1); [lia|lia|lia|]|]. intros kt c2 [Hi2 ->].
    eapply returns_bind; [by apply (sector_erase_ok m1); [done|unfold SECTOR, FLASH_SZ in *; lia]|].
    intros [] c3 Hi3. assert (Her : forall x, a <= x < a + SECTOR -> erased m1 a x = 0xFF).
    { intros x Hx. unfold erased. rewrite in_sector by done.
      by replace (a <=? x) with true by lia; replace (x <? a + SECTOR) with true by lia. }
    eapply returns_bind; [apply (restore_ok (erased m1 a)); try done; [lia| |lia]; intros x Hx; apply Her; lia|].
    intros [] c4 Hi4.
    eapply returns_bind; [eapply restore_ok; [lia| |exact Hu8|lia|lia|exact Hi4]|].
    { intros x Hx. simpl. replace (x <? a + head) with false by lia. rewrite andb_false_r. apply Her. lia. }
    intros [] c5 Hi5.
    eapply idle_ext with (m' := wiped m offset (Z.min (a + SECTOR) end_)) in Hi5.
    2: { intros x. rewrite Hres. unfold erased. rewrite in_sector by done.
         destruct (Z.leb_spec a x), (Z.ltb_spec x (a + SECTOR)), (Z.ltb_spec x (a + head)), (Z.leb_spec end_ x),
           (Z.ltb_spec x (end_ + tail)); simpl; done || lia. }
    eapply returns_bind; [eapply verify_keep_ok; [lia| |lia|lia|exact Hi5]|].
    { intros x Hx. rewrite Hres. replace (a <=? x) with true by lia. replace (x <? a + SECTOR) with true by lia.
      by replace (x <? a + head) with true by lia. }
    intros mism' c6 [Hi6 ->]. eapply verify_keep_ok; [lia| |lia|lia|exact Hi6].
    intros x Hx. rewrite Hres. replace (a <=? x) with true by lia. replace (x <? a + SECTOR) with true by lia.
    replace (end_ <=? x) with true by lia. by rewrite orb_true_r.
Qed.

Lemma sector_base offset : is_u32 offset ->
  offset &&& not32 (SECTOR - 1) = SECTOR * (offset / SECTOR).
Proof.
  intros Hw. change (SECTOR * (offset / SECTOR)) with (2 ^ 16 * (offset / 2 ^ 16)).
  rewrite Z.mul_comm, <- Z.shiftl_mul_pow2, <- Z.shiftr_div_pow2 by lia.
  change (not32 (SECTOR - 1)) with (Z.ones 16 <<< 16).
  apply is_w_bits in Hw as [_ Hw]; [|lia]. apply Z.bits_inj'. intros i Hi.
  rewrite Z.land_spec. destruct (Z.ltb_spec i 16).
  - by rewrite !Z.shiftl_spec_low, andb_false_r by lia.
  - rewrite !Z.shiftl_spec, Z.shiftr_spec, Z.testbit_ones_nonneg by lia.
    replace (i - 16 + 16) with i by lia. destruct (Z.ltb_spec (i - 16) 16).
    + apply andb_true_r.
    + by rewrite Hw by lia.
Qed.

Lemma erase_range_ok m offset end_ c : 0 <= offset -> offset < end_ -> end_ <= FLASH_SZ -> idle m c ->
  returns (st_for (erase_sector w r offset end_) (steps (offset &&& not32 (SECTOR - 1)) end_ SECTOR) 0) c
    (fun mism c' => idle (wiped m offset end_) c' /\ mism = 0).
Proof.
  intros Ho Hoe Hend Hi. rewrite sector_base by (unfold is_w, FLASH_SZ in *; lia).
  assert (HS : 0 < SECTOR) by done. pose proof (Z.div_mod offset SECTOR). pose proof (Z.mod_pos_bound offset SECTOR HS).
  assert (0 <= SECTOR * (offset / SECTOR)) by (pose proof (Z.div_pos offset SECTOR); lia).
  eapply returns_mono.
  - apply (returns_steps _ (fun a mism c' => offset < a + SECTOR /\ mism = 0 /\
      idle (wiped m offset (Z.min a end_)) c')); [done| |].
    + split; [lia|]. split; [done|]. eapply idle_ext; [exact Hi|]. intros x. unfold wiped.
      destruct (Z.leb_spec offset x), (Z.ltb_spec x (Z.min (SECTOR * (offset / SECTOR)) end_)); done || lia.
    + intros a mism c1 Ha Hdiv (Hoa & -> & Hi1).
      eapply returns_mono; [apply (erase_sector_ok m); try done; try lia|].
      * replace a with (a - SECTOR * (offset / SECTOR) + SECTOR * (offset / SECTOR)) by lia.
        apply Z.divide_add_r; [done|]. exists (offset / SECTOR). lia.
      * intros mism c2 [Hi2 ->]. split; [lia|]. done.
  - intros mism c' (e & He & _ & _ & _ & -> & Hi'). by rewrite Z.min_r in Hi' by lia.
Qed.

Lemma flash_program_ok offset data c : data <> [] -> 0 <= offset -> offset + nbytes data <= FLASH_SZ ->
  Forall is_u8 data -> fl_busy c = O -> n_wip (fl_nor c) = O ->
  returns (flash_program w r offset data) c (fun mism c' => mism = 0 /\
    idle (written (mem c) offset data (nbytes data)) c').
Proof.
  intros Hne Ho Hend Hd Hb Hw. unfold flash_program. rewrite bool_decide_eq_false_2 by done.
  assert (0 < nbytes data) by (unfold nbytes; destruct data; [done|simpl; lia]).
  replace (FLASH_SZ <=? offset) with false by lia. replace (FLASH_SZ <? nbytes data) with false by lia.
  replace (FLASH_SZ <? offset + nbytes data) with false by lia. cbn [orb].
  eapply returns_bind; [by apply (warmup_ok (mem c))|]. intros [] c1 Hi1.
  eapply returns_bind; [apply (erase_range_ok (mem c)); done || lia|]. intros mism c2 [Hi2 ->].
  assert (Hff : forall x, offset <= x < offset + nbytes data ->
    wiped (mem c) offset (offset + nbytes data) x = 0xFF).
  { intros x Hx. unfold wiped. by replace (offset <=? x) with true by lia;
      replace (x <? offset + nbytes data) with true by lia. }
  eapply returns_bind; [by eapply program_range_ok|]. intros [] c3 Hi3.
  eapply idle_ext with (m' := written (mem c) offset data (nbytes data)) in Hi3.
  2: { intros x. unfold written, wiped. by destruct (_ && _). }
  eapply returns_mono; [eapply verify_range_ok; [exact Hi3|done|done|]|by intros ? ? [? ->]].
  rewrite (list_as_fun data) at 1. apply fmap_seqZ_ext. intros i Hi. unfold written.
  replace (offset <=? offset + i) with true by lia.
  replace (offset + i <? offset + nbytes data) with true by lia. simpl. do 2 f_equal. lia.
Qed.

Lemma flash_read_id_ok c : length jedec = 3%nat -> fl_busy c = O -> n_wip (fl_nor c) = O ->
  returns (flash_read_id w r) c (fun id c' => id = jedec /\ idle (mem c) c').
Proof.
  intros Hj Hb Hw. unfold flash_read_id.
  eapply returns_bind; [by apply (warmup_ok (mem c))|]. intros [] c1 (Hb1 & Hc1 & Hw1 & Hm1).
  eapply returns_bind; [apply txn_ok; [done|by compute|auto 10|]|].
  - eexists _, (mk_nor (mem c1) false). by apply (nor_rdid _ _ 0).
  - intros rx c2 (Hb2 & rx' & Hs & ->). inversion Hs; subst. apply returns_ret. split.
    + unfold slice. simpl. change (Pos.to_nat 1) with 1%nat. cbn [drop]. rewrite drop_0. apply take_ge.
      change (Pos.to_nat 3) with 3%nat. lia.
    + repeat split; try done. intros. congruence.
Qed.
End Card.

(** C20: updating a flash range on a card in order always succeeds with no
    mismatch, and afterwards the range holds exactly the caller's bytes and every
    other byte of the chip, the rest of partially covered sectors included, is
    unchanged; an empty update or one that leaves the 24-bit address space is
    refused without touching the card. *)
Theorem flash_program_exact {C : Type} {w r jedec} {HC : @FlashCard C w r jedec}
    (o : pw_card_backend_ops C) (offset : Z) (data : list Z) (c : C)
    (Hw : op_write32 o = Some w) (Hr : op_read32 o = Some r) (Ho : 0 <= offset) (Hd : Forall is_u8 data)
    (Hb : fl_busy c = O) (Hi : n_wip (fl_nor c) = O) :
  (data = [] -> pw_flash_program o offset data c = (c, Err PW_E_INVAL)) /\
  (data <> [] -> FLASH_SZ < offset + nbytes data ->
    pw_flash_program o offset data c = (c, Err PW_E_OUT_OF_RANGE)) /\
  (data <> [] -> offset + nbytes data <= FLASH_SZ ->
    exists c', pw_flash_program o offset data c = (c', Ok 0) /\ fl_busy c' = O /\ n_wip (fl_nor c') = O /\
      forall x, n_mem (fl_nor c') x =
        if (offset <=? x) && (x <? offset + nbytes data) then nth (Z.to_nat (x - offset)) data 0
        else n_mem (fl_nor c) x).
Proof.
  unfold pw_flash_program. rewrite Hw, Hr. split; [by intros ->|]. split.
  - intros Hne Hend. unfold flash_program. rewrite bool_decide_eq_false_2 by done.
    replace (FLASH_SZ <? offset + nbytes data) with true by lia. by rewrite orb_true_r.
  - intros Hne Hend. destruct (flash_program_ok (HC := HC) offset data c) as (mism & c' & Hx & -> & Hid); try done.
    destruct Hid as (? & ? & ? & ?). by exists c'.
Qed.

(** ** A card *)

Module ToyFlash.
Record toy := { t_mem : Z -> Z; t_wel : bool; t_wip : nat; t_cold : bool;
                t_tx : Z -> Z; t_len : Z; t_rx : list Z; t_busy : nat }.

Definition jedec : list Z := [0x20; 0xBB; 0x19].

Definition nor_of (c : toy) : nor :=
  {| n_mem := fun x => u8 (t_mem c x); n_wel := t_wel c; n_wip := t_wip c; n_cold := t_cold c |}.

(** The chip runs a command; it stays busy for two status polls after a write. *)
Definition exec (n : nor) (tx : list Z) : nor * list Z :=
  let set m wel wip := {| n_mem := m; n_wel := wel; n_wip := wip; n_cold := false |} in
  match tx with
  | [0x05; _] => (set (n_mem n) (n_wel n) (pred (n_wip n)), [0; b2z (negb (n_wip n =? 0)%nat)])
  | [0x06] => (set (n_mem n) true O, [0])
  | [0xD8; a2; a1; a0] => (set (erased (n_mem n) (addr24 a2 a1 a0)) false 2%nat, [0; 0; 0; 0])
  | 0x02 :: a2 :: a1 :: a0 :: data =>
      (set (programmed (n_mem n) (addr24 a2 a1 a0) data) false 2%nat, replicate (length tx) 0)
  | 0x03 :: a2 :: a1 :: a0 :: dummy =>
      (set (n_mem n) false O, 0 :: 0 :: 0 :: 0 ::
        ((fun i => n_mem n ((addr24 a2 a1 a0 + i) mod FLASH_SZ)) <$> seqZ 0 (nbytes dummy)))
  | _ => (set (n_mem n) false O, 0 :: jedec)
  end.

Definition write32 (off v : Z) (c : toy) : toy * pw_status :=
  ( if off =? PWFPGA_REG_SPI_CTRL then
      let '(n, rx) := exec (nor_of c) (t_tx c <$> seqZ 0 (t_len c)) in
      {| t_mem := n_mem n; t_wel := n_wel n; t_wip := n_wip n; t_cold := n_cold n;
         t_tx := t_tx c; t_len := t_len c; t_rx := rx; t_busy := 1 |}
    else
      {| t_mem := t_mem c; t_wel := t_wel c; t_wip := t_wip c; t_cold := t_cold c;
         t_tx := (fun j => let i := off - PWFPGA_SPI_TXBUF in
                   if (0 <=? i) && (i <=? j) && (j <? i + 4) then word_byte v (j - i) else t_tx c j);
         t_len := if off =? PWFPGA_REG_SPI_LEN then v else t_len c; t_rx := t_rx c; t_busy := t_busy c |},
    PW_OK ).

Definition rx_byte (c : toy) (j : Z) : Z := nth (Z.to_nat j) (t_rx c) 0.

Definition read32 (off : Z) (c : toy) : toy * (pw_status * Z) :=
  if off =? PWFPGA_REG_SPI_CTRL then
    ({| t_mem := t_mem c; t_wel := t_wel c; t_wip := t_wip c; t_cold := t_cold c;
        t_tx := t_tx c; t_len := t_len c; t_rx := t_rx c; t_busy := pred (t_busy c) |},
     (PW_OK, b2z (negb (t_busy c =? 0)%nat)))
  else let i := off - PWFPGA_SPI_RXBUF in
    (c, (PW_OK, pack_word ((fun k => u8 (rx_byte c (i + k))) <$> [0; 1; 2; 3]))).

Lemma exec_step n tx rx n' : (forall x, is_u8 (n_mem n x)) -> nor_step jedec n tx rx n' ->
  length (exec n tx).2 = length tx /\
  nor_step jedec n tx ((fun j => u8 (nth (Z.to_nat j) (exec n tx).2 0)) <$> seqZ 0 (nbytes tx))
    {| n_mem := fun x => u8 (n_mem (exec n tx).1 x); n_wel := n_wel (exec n tx).1;
       n_wip := n_wip (exec n tx).1; n_cold := n_cold (exec n tx).1 |}.
Proof.
  intros Hm Hs. assert (Hu : forall x, u8 (n_mem n x) = n_mem n x) by (intros; by apply u8_id).
  inversion Hs; subst; cbn [exec fst snd n_mem n_wel n_wip n_cold].
  - split; [done|]. apply nor_masked; simpl; auto. lia.
  - split; [done|]. apply (nor_rdsr _ _ 0); simpl; auto. by destruct (n_wip n =? 0)%nat.
  - split; [done|]. apply nor_wren; auto.
  - split; [done|]. apply nor_erase; auto; [apply wip_polls_gt|]. intros x. simpl. unfold erased.
    destruct (_ =? _); auto.
  - split; [by rewrite length_replicate|]. apply nor_program; auto; [apply wip_polls_gt|].
    intros x. simpl. unfold programmed. destruct (_ && _); [|auto].
    apply u8_id, is_w_land_l; [lia|auto].
  - split; [simpl; rewrite length_fmap, length_seqZ; unfold nbytes; lia|].
    rewrite !nbytes_cons. pose proof (nbytes_nonneg dummy).
    replace (1 + (1 + (1 + (1 + nbytes dummy)))) with (4 + nbytes dummy) by lia.
    rewrite seqZ_split by lia. cbn [app]. simpl (_ <$> seqZ 0 4).
    erewrite (fmap_seqZ_ext _ (fun i => n_mem n ((addr24 a2 a1 a0 + i) mod FLASH_SZ)));
      [by apply (nor_read _ _ _ _ _ _ 0 0 0 0)|].
    intros i Hi. replace (Z.to_nat (4 + i)) with (4 + Z.to_nat i)%nat by lia.
    cbn [nth Nat.add]. by rewrite nth_fun.
  - split; [done|]. by apply (nor_rdid _ _ 0).
Qed.

Lemma ctrl_neq_tx i : 0 <= i -> (PWFPGA_SPI_TXBUF + i =? PWFPGA_REG_SPI_CTRL) = false.
Proof. intros. apply Z.eqb_neq. cbv -[Z.add Z.lt Z.le]. lia. Qed.
Lemma len_neq_tx i : 0 <= i -> (PWFPGA_SPI_TXBUF + i =? PWFPGA_REG_SPI_LEN) = false.
Proof. intros. apply Z.eqb_neq. cbv -[Z.add Z.lt Z.le]. lia. Qed.
Lemma ctrl_neq_rx i : 0 <= i -> (PWFPGA_SPI_RXBUF + i =? PWFPGA_REG_SPI_CTRL) = false.
Proof. intros. apply Z.eqb_neq. cbv -[Z.add Z.lt Z.le]. lia. Qed.

#[refine] Instance toy_card : FlashCard write32 read32 jedec := {|
  fl_nor := nor_of; fl_tx := t_tx; fl_len := t_len; fl_rx := fun c j => u8 (rx_byte c j);
  fl_busy := t_busy |}.
Proof.
  - intros. apply u8_w.
  - intros c i d Hb Hi _ _. unfold write32. rewrite ctrl_neq_tx, len_neq_tx by lia.
    eexists. split; [reflexivity|]. simpl. split; [done|]. split; [done|]. intros j.
    replace (PWFPGA_SPI_TXBUF + i - PWFPGA_SPI_TXBUF) with i by lia.
    by replace (0 <=? i) with true by lia.
  - intros c n Hb Hn. unfold write32. change (PWFPGA_REG_SPI_LEN =? PWFPGA_REG_SPI_CTRL) with false.
    rewrite Z.eqb_refl. eexists. by split.
  - intros c tx Hb Hl -> (rx & n' & Hs). apply exec_step in Hs as [Hlen Hs]; [|intros; apply u8_w].
    rewrite nbytes_fun in Hs by lia. unfold write32. rewrite Z.eqb_refl.
    destruct (exec _ _) as [n2 rx2] eqn:He. eexists. split; [reflexivity|]. simpl in *.
    split; [apply spi_spins_gt|]. exact Hs.
  - intros c. eexists _, _. split; [reflexivity|]. split; [by destruct (t_busy c)|]. done.
  - intros c i Hb Hi _. unfold read32. rewrite ctrl_neq_rx by lia.
    eexists _, _. split; [reflexivity|]. split; [|done]. intros k Hk.
    rewrite word_byte_pack; [|repeat constructor; apply u8_w|lia].
    replace (PWFPGA_SPI_RXBUF + i - PWFPGA_SPI_RXBUF) with i by lia.
    assert (k = 0 \/ k = 1 \/ k = 2 \/ k = 3) as [-> | [-> | [-> | ->]]] by lia; done.
Defined.

Definition ops : pw_card_backend_ops toy :=
  {| op_read32 := Some read32; op_write32 := Some write32; op_card_info := None; op_flow_write := None;
     op_flow_commit := None; op_stats_snapshot := None; op_port_stats_read := None;
     op_flow_stats_read := None; op_flow_hist_read := None; op_slow_path_rx := None;
     op_slow_path_tx := None |}.

(** A chip just after configuration, every byte [0x5A]. *)
Definition start : toy :=
  {| t_mem := fun _ => 0x5A; t_wel := false; t_wip := 0; t_cold := true;
     t_tx := fun _ => 0; t_len := 0; t_rx := []; t_busy := 0 |}.
End ToyFlash.

(** Three bytes across a sector boundary. *)
Lemma flash_program_exact_witness : exists c',
  pw_flash_program ToyFlash.ops 0x1FFFE [1; 2; 3] ToyFlash.start = (c', Ok 0) /\
  n_mem (ToyFlash.nor_of c') 0x1FFFD = 0x5A /\ n_mem (ToyFlash.nor_of c') 0x1FFFE = 1 /\
  n_mem (ToyFlash.nor_of c') 0x20000 = 3 /\ n_mem (ToyFlash.nor_of c') 0x20001 = 0x5A.
Proof.
  destruct (flash_program_exact (HC := ToyFlash.toy_card) ToyFlash.ops 0x1FFFE [1; 2; 3] ToyFlash.start
    eq_refl eq_refl) as (_ & _ & H); [lia| |reflexivity|reflexivity|].
  { repeat (apply Forall_cons; split; [unfold is_w; lia|]). by apply Forall_nil. }
  destruct H as (c' & Hx & _ & _ & Hm); [discriminate|unfold FLASH_SZ, nbytes; simpl; lia|].
  exists c'. cbn [fl_nor ToyFlash.toy_card] in Hm. rewrite !Hm. split; [exact Hx|]. repeat split; reflexivity.
Defined.
