(* ===== verification/Daemon.v ===== *)
(** * The daemon's control plane

    Models the core of [sw/packetwyrmd/src/main.c]: programming every card, the
    GPIO sync roles and the latency servo, the staged run-state of the flows, the
    live swap of [config.load] with its rollback, the [test.*], [flow.*] and
    [stats.clear] requests, and the access check. The cards are a list in
    configuration order; one operation record [ops] serves them all (a daemon with
    BAR and fake cards is the sum of the two contexts). Each handler, and each
    pass of the servo thread, is one step: [g_servo_lock] and the single-threaded
    control loop serialise them. [libyaml] is the function from a text to its
    event stream; the JSON replies are reduced to their fields. Allocation
    failures and the log lines are left out. *)

From Stdlib Require Import Ascii.
From S2P Require Import Prelude Types Config Validate Csr FlowCompiler Backend Programming GpioSync Scalar Yaml ConfigParse.

Local Open Scope string_scope.
Local Open Scope Z_scope.
Local Open Scope list_scope.

(** ** Finding a flow's row *)

(** The first row with the flow's local id on a card with the flow's TX id. *)
Fixpoint find_in_cards (m : pw_flow_meta) (ci : nat) (cps : list pw_card_program) : option (nat * nat) :=
  match cps with
  | [] => None
  | cp :: cps =>
      if cp_card_id cp =? m_tx_card_id m then
        match list_find (fun r => fc_local_flow_id r = m_tx_local_flow_id m) (cp_flow_rows cp) with
        | Some (r, _) => Some (ci, r)
        | None => find_in_cards m (S ci) cps
        end
      else find_in_cards m (S ci) cps
  end.

Definition find_tx_row (prog : pw_program) (global_flow_id : Z) : option (nat * nat) :=
  match list_find (fun m => m_global_flow_id m = global_flow_id) (p_flow_meta prog) with
  | Some (_, m) => find_in_cards m 0 (p_per_card prog)
  | None => None
  end.

(** [fc->enable = fc->tx_enable = running]. *)
Definition set_running (f : pwfpga_flow_config) (running : bool) : pwfpga_flow_config :=
  set_run_state f (b2z running).

Definition row_at (prog : pw_program) (ci row : nat) : option pwfpga_flow_config :=
  cp ← p_per_card prog !! ci; cp_flow_rows cp !! row.

Definition set_row (prog : pw_program) (ci row : nat) (f : pwfpga_flow_config) : pw_program :=
  match p_per_card prog !! ci with
  | Some cp => set_card prog ci (set_rows cp (<[row := f]> (cp_flow_rows cp)))
  | None => prog
  end.

(** Stage the run-state of every flow's TX row, in memory only. *)
Definition stage_one (running : bool) (prog : pw_program) (m : pw_flow_meta) : pw_program :=
  match find_tx_row prog (m_global_flow_id m) with
  | Some (ci, row) =>
      match row_at prog ci row with
      | Some f => set_row prog ci row (set_running f running)
      | None => prog
      end
  | None => prog
  end.
Definition stage_flow_run_state (prog : pw_program) (running : bool) : pw_program :=
  fold_left (stage_one running) (p_flow_meta prog) prog.

Definition flow_enabled (prog : pw_program) (global_flow_id : Z) : bool :=
  match find_tx_row prog global_flow_id with
  | Some (ci, row) =>
      match row_at prog ci row with Some f => ztrue (fc_tx_enable f) | None => false end
  | None => false
  end.

(** ** Topology *)

Definition same_port (a b : pw_card_port) : bool :=
  (cp_local_port a =? cp_local_port b) && (cp_global_port a =? cp_global_port b).
Definition same_card (a b : pw_card) : bool :=
  (card_id a =? card_id b) && str_eq (card_pci a) (card_pci b) &&
  (length (card_ports a) =? length (card_ports b))%nat &&
  forallb (fun p => same_port p.1 p.2) (zip (card_ports a) (card_ports b)).
Definition same_lif (a b : pw_logical_if) : bool :=
  (lif_id a =? lif_id b) && (lif_global_port a =? lif_global_port b) && (lif_vlan a =? lif_vlan b) &&
  str_eq (lif_name a) (lif_name b) && bool_decide (lif_mac a = lif_mac b).
Definition same_topology (a b : pw_config) : bool :=
  (length (cfg_cards a) =? length (cfg_cards b))%nat &&
  (length (cfg_logical_if a) =? length (cfg_logical_if b))%nat &&
  forallb (fun p => same_card p.1 p.2) (zip (cfg_cards a) (cfg_cards b)) &&
  forallb (fun p => same_lif p.1 p.2) (zip (cfg_logical_if a) (cfg_logical_if b)).

Definition card_idx_by_id (cfg : pw_config) (id : Z) : option nat :=
  fst <$> list_find (fun c => card_id c = id) (cfg_cards cfg).

Section Daemon.
Context {C : Type} (ops : pw_card_backend_ops C).

Record card_runtime := { cr_open : bool; cr_which : string; cr_ctx : C }.

Definition set_ctx (cr : card_runtime) (c : C) : card_runtime :=
  {| cr_open := cr_open cr; cr_which := cr_which cr; cr_ctx := c |}.

Definition card_open (cards : list card_runtime) (ci : nat) : bool :=
  match cards !! ci with Some cr => cr_open cr | None => false end.

(** Apply an operation to one card's context. *)
Definition on_ctx (ci : nat) (f : C -> C) (cards : list card_runtime) : list card_runtime :=
  alter (fun cr => set_ctx cr (f (cr_ctx cr))) ci cards.

(** [write32] where the backend has it, the status dropped. *)
Definition card_write (ci : nat) (off v : Z) : list card_runtime -> list card_runtime :=
  on_ctx ci (wr_reg ops off v).

(** [read32] into a zeroed variable of card [ci]. *)
Definition card_read (ci : nat) (off : Z) (cards : list card_runtime) : list card_runtime * Z :=
  match cards !! ci, op_read32 ops with
  | Some cr, Some rd =>
      let '(c, v) := rd_reg rd off (cr_ctx cr) in (<[ci := set_ctx cr c]> cards, v)
  | _, _ => (cards, 0)
  end.

(** ** Time sync and the latency servo *)

Definition cross_card (m : pw_flow_meta) : bool := negb (m_tx_card_id m =? m_rx_card_id m).

Definition setup_gpio_sync (cfg : pw_config) (prog : pw_program) (cards : list card_runtime) :
    list card_runtime :=
  let any_cross := existsb cross_card (p_flow_meta prog) in
  match fst <$> list_find (fun cr => cr_open cr = true) cards with
  | None => cards
  | Some master_ci =>
      fold_left (fun cards ci =>
        if negb (card_open cards ci) then cards else
        on_ctx ci (if negb any_cross then pw_gpio_sync_disable ops
                   else if (ci =? master_ci)%nat then pw_gpio_sync_master ops 1 15
                   else pw_gpio_sync_slave ops 0) cards)
        (seq 0 (length (cfg_cards cfg))) cards
  end.

Definition xcard_cal_bias (cal : Z) (m : pw_flow_meta) : Z :=
  if (cal =? 0) || (m_tx_card_id m =? m_rx_card_id m) then 0
  else if m_tx_card_id m <? m_rx_card_id m then cal else - cal.

(** The offset between two cards, sampled coherently. *)
Definition card_offset (tx_ci rx_ci : nat) : list card_runtime -> list card_runtime * option Z :=
  pw_gpio_sync_offset_coherent (card_read tx_ci) (card_read rx_ci).

Definition write_correction (ci : nat) (slot corr : Z) : list card_runtime -> list card_runtime :=
  on_ctx ci (pw_gpio_sync_write_correction ops slot corr).

(** The cards of a flow that the servo corrects: both known and open. *)
Definition servo_cards (cfg : pw_config) (cards : list card_runtime) (m : pw_flow_meta) : option (nat * nat) :=
  if negb (m_rx_slot_valid m) || negb (cross_card m) then None else
  rx_ci ← card_idx_by_id cfg (m_rx_card_id m);
  tx_ci ← card_idx_by_id cfg (m_tx_card_id m);
  if card_open cards rx_ci && card_open cards tx_ci then Some (tx_ci, rx_ci) else None.

Definition servo_one (cal : Z) (cfg : pw_config) (cards : list card_runtime) (m : pw_flow_meta) :
    list card_runtime :=
  match servo_cards cfg cards m with
  | None => cards
  | Some (tx_ci, rx_ci) =>
      match card_offset tx_ci rx_ci cards with
      | (cards, Some corr) =>
          write_correction rx_ci (m_rx_local_flow_id m) (corr + xcard_cal_bias cal m) cards
      | (cards, None) => cards
      end
  end.
Definition servo_lat_correction (cal : Z) (cfg : pw_config) (prog : pw_program) (cards : list card_runtime) :
    list card_runtime := fold_left (servo_one cal cfg) (p_flow_meta prog) cards.

Fixpoint servo_converged (cfg : pw_config) (ms : list pw_flow_meta) (cards : list card_runtime) :
    list card_runtime * bool :=
  match ms with
  | [] => (cards, true)
  | m :: ms =>
      match servo_cards cfg cards m with
      | None => servo_converged cfg ms cards
      | Some (tx_ci, rx_ci) =>
          match card_offset tx_ci rx_ci cards with
          | (cards, Some _) => servo_converged cfg ms cards
          | (cards, None) => (cards, false)
          end
      end
  end.

(** Retries while the sync comes up. *)
Fixpoint prime_try (n : nat) (cal : Z) (tx_ci rx_ci : nat) (m : pw_flow_meta) (cards : list card_runtime) :
    list card_runtime * bool :=
  match n with
  | O => (cards, false)
  | S n =>
      match card_offset tx_ci rx_ci cards with
      | (cards, Some corr) =>
          (write_correction rx_ci (m_rx_local_flow_id m) (corr + xcard_cal_bias cal m) cards, true)
      | (cards, None) => prime_try n cal tx_ci rx_ci m cards
      end
  end.

(** [has_cross], and the complement of [cross_ok]. *)
Record prime_state := { ps_cards : list card_runtime; ps_cross : gset nat; ps_bad : gset nat }.

Definition prime_one (cal : Z) (cfg : pw_config) (s : prime_state) (m : pw_flow_meta) : prime_state :=
  let with_cards cards := {| ps_cards := cards; ps_cross := ps_cross s; ps_bad := ps_bad s |} in
  if negb (m_rx_slot_valid m) then s else
  match card_idx_by_id cfg (m_rx_card_id m) with
  | None => s
  | Some rx_ci =>
      if negb (card_open (ps_cards s) rx_ci) then s else
      if negb (cross_card m) then with_cards (write_correction rx_ci (m_rx_local_flow_id m) 0 (ps_cards s)) else
      match card_idx_by_id cfg (m_tx_card_id m) with
      | None => s
      | Some tx_ci =>
          if negb (card_open (ps_cards s) tx_ci) then s else
          let '(cards, wrote) := prime_try 200 cal tx_ci rx_ci m (ps_cards s) in
          {| ps_cards := cards; ps_cross := {[rx_ci]} ∪ ps_cross s;
             ps_bad := if wrote then ps_bad s else {[rx_ci]} ∪ ps_bad s |}
      end
  end.

Definition prime_lat_correction (cal : Z) (cfg : pw_config) (prog : pw_program) (cards : list card_runtime) :
    list card_runtime :=
  let s := fold_left (prime_one cal cfg) (p_flow_meta prog)
             {| ps_cards := cards; ps_cross := ∅; ps_bad := ∅ |} in
  fold_left (fun cards ci =>
    if card_open cards ci && bool_decide (ci ∈ ps_cross s) && bool_decide (ci ∉ ps_bad s)
    then card_write ci PWFPGA_REG_STATS_CLEAR 1 cards else cards)
    (seq 0 (Nat.min (length (cfg_cards cfg)) PW_MAX_CARDS)) (ps_cards s).

(** ** Programming the cards *)

(** The first failure, with its diagnostic. *)
Definition first_err (worst : option err) (e : err) : option err :=
  match worst with Some w => Some w | None => Some e end.

Definition program_one (s : list card_runtime * option err) (ci : nat) (cp : pw_card_program) :
    list card_runtime * option err :=
  let '(cards, worst) := s in
  match cards !! ci with
  | Some cr =>
      if negb (cr_open cr) then (cards, worst) else
      let '(c, worst) :=
        match op_write32 ops with
        | Some w =>
            let '(c, st) := w PWFPGA_REG_DP_RESET 1 (cr_ctx cr) in
            (c, if bool_decide (st <> PW_OK) && bool_decide (st <> PW_E_NOT_IMPLEMENTED)
                then first_err worst (fail_bare st) else worst)
        | None => (cr_ctx cr, worst)
        end in
      let '(c, r) := pw_program_card_tables_diag ops cp c in
      (<[ci := set_ctx cr c]> cards,
       match r with Ok _ => worst | Err e => first_err worst e end)
  | None => (cards, worst)
  end.

Fixpoint program_all (ci : nat) (cps : list pw_card_program) (s : list card_runtime * option err) :
    list card_runtime * option err :=
  match cps with
  | [] => s
  | cp :: cps => program_all (S ci) cps (program_one s ci cp)
  end.

Definition program_backends_diag (cal : Z) (prog : pw_program) (cfg : pw_config) (cards : list card_runtime) :
    list card_runtime * option err :=
  let '(cards, worst) := program_all 0 (p_per_card prog) (cards, None) in
  let cards := setup_gpio_sync cfg prog cards in
  (prime_lat_correction cal cfg prog cards, worst).

(** Re-write the TX row of a flow with its generator on or off, then commit; the
    staged row follows only when the write succeeded and [persist] is set. *)
Definition set_flow_enable (prog : pw_program) (cards : list card_runtime) (global_flow_id : Z)
    (enable persist : bool) : pw_program * list card_runtime * pw_status :=
  match find_tx_row prog global_flow_id with
  | None => (prog, cards, PW_E_INVAL)
  | Some (ci, row) =>
      match cards !! ci, row_at prog ci row with
      | Some cr, Some fc =>
          if negb (cr_open cr) then (prog, cards, PW_E_NO_CARD) else
          let tmp := set_running fc enable in
          let '(c, s) := match op_flow_write ops with
                         | Some fw => fw (Z.of_nat row) tmp (cr_ctx cr)
                         | None => (cr_ctx cr, PW_E_NOT_IMPLEMENTED)
                         end in
          let '(c, s) := match op_flow_commit ops with
                         | Some fcm => if decide (s = PW_OK) then fcm c else (c, s)
                         | None => (c, s)
                         end in
          (if bool_decide (s = PW_OK) && persist then set_row prog ci row tmp else prog,
           <[ci := set_ctx cr c]> cards, s)
      | _, _ => (prog, cards, PW_E_NO_CARD)
      end
  end.

(** ** The daemon's state and its handlers *)

Record daemon := {
  d_cfg : pw_config;
  d_prog : pw_program;
  d_cards : list card_runtime;
  d_test_yaml : option string;
  d_cal : Z   (* g_xcard_lat_cal_ticks *)
}.

Definition set_cards (d : daemon) (cards : list card_runtime) : daemon :=
  {| d_cfg := d_cfg d; d_prog := d_prog d; d_cards := cards; d_test_yaml := d_test_yaml d; d_cal := d_cal d |}.

(** Enable or disable every flow; counts successes and failures. *)
Definition enable_flows (persist enable : bool) (d : daemon) : daemon * (Z * Z) :=
  fold_left (fun '(d, (changed, failed)) m =>
    let '(prog, cards, s) := set_flow_enable (d_prog d) (d_cards d) (m_global_flow_id m) enable persist in
    ({| d_cfg := d_cfg d; d_prog := prog; d_cards := cards; d_test_yaml := d_test_yaml d; d_cal := d_cal d |},
     if decide (s = PW_OK) then (changed + 1, failed) else (changed, failed + 1)))
    (p_flow_meta (d_prog d)) (d, (0, 0)).

(** Clear the counters of every open card. *)
Definition clear_one (s : list card_runtime * (Z * Z)) (ci : nat) : list card_runtime * (Z * Z) :=
  let '(cards, (changed, failed)) := s in
  match cards !! ci, op_write32 ops with
  | Some cr, Some w =>
      if cr_open cr then
        let '(c, st) := w PWFPGA_REG_STATS_CLEAR 1 (cr_ctx cr) in
        (<[ci := set_ctx cr c]> cards,
         if decide (st = PW_OK) then (changed + 1, failed) else (changed, failed + 1))
      else s
  | _, _ => s
  end.
Definition clear_cards (cfg : pw_config) (cards : list card_runtime) : list card_runtime * (Z * Z) :=
  fold_left clear_one (seq 0 (length (cfg_cards cfg))) (cards, (0, 0)).

Definition rpc_stats_clear (d : daemon) : daemon * (Z * Z) :=
  let '(cards, n) := clear_cards (d_cfg d) (d_cards d) in (set_cards d cards, n).

Inductive test_action := TestStart | TestStop | TestArm.

Record test_reply := {
  tr_changed : Z; tr_failed : Z; tr_programmed : option bool; tr_converged : option bool
}.

Definition rpc_test_body (a : test_action) (d : daemon) : daemon * (Z * Z) * option bool :=
  match a with
  | TestArm =>
      match program_backends_diag (d_cal d) (d_prog d) (d_cfg d) (d_cards d) with
      | (cards, Some _) => (set_cards d cards, (0, 1), Some false)
      | (cards, None) =>
          let '(cards, n) := clear_cards (d_cfg d) cards in (set_cards d cards, n, Some true)
      end
  | TestStop => (enable_flows true false d, None)
  | TestStart =>
      let '(d, (changed, failed)) := enable_flows true true d in
      if failed =? 0 then
        let cards := prime_lat_correction (d_cal d) (d_cfg d) (d_prog d) (d_cards d) in
        (set_cards d (clear_cards (d_cfg d) cards).1, (changed, failed), None)
      else (d, (changed, failed), None)
  end.

Definition rpc_test (a : test_action) (d : daemon) : daemon * test_reply :=
  let '(d, (changed, failed), programmed) := rpc_test_body a d in
  match a with
  | TestStop => (d, {| tr_changed := changed; tr_failed := failed; tr_programmed := programmed;
                       tr_converged := None |})
  | _ =>
      let '(cards, conv) := servo_converged (d_cfg d) (p_flow_meta (d_prog d)) (d_cards d) in
      (set_cards d cards, {| tr_changed := changed; tr_failed := failed; tr_programmed := programmed;
                             tr_converged := Some conv |})
  end.

Definition rpc_flow (id : Z) (enable : bool) (d : daemon) : daemon * pw_status :=
  let '(prog, cards, s) := set_flow_enable (d_prog d) (d_cards d) (u32 id) enable true in
  ({| d_cfg := d_cfg d; d_prog := prog; d_cards := cards; d_test_yaml := d_test_yaml d; d_cal := d_cal d |}, s).

Definition servo_tick (d : daemon) : daemon :=
  set_cards d (servo_lat_correction (d_cal d) (d_cfg d) (d_prog d) (d_cards d)).

(** ** Live configuration swap *)

Context (libyaml : string -> yaml_parser) `{InetPton}.

Definition diag_text (e : err) : string * string :=
  match e_diag e with Some dg => (d_path dg, d_message dg) | None => ("", "") end.

Definition stage_msg (stage : string) (e : err) : string :=
  cstr 600 (stage +:+ ": " +:+ pw_strerror (e_status e) +:+ " at " +:+ (diag_text e).1 +:+ ": " +:+ (diag_text e).2).

(** The new configuration: the running environment with the payload's flows. *)
Definition merged_cfg (cfg payload : pw_config) : pw_config :=
  let c := pw_config_clone_env cfg in
  {| cfg_system := cfg_system c; cfg_cards := cfg_cards c; cfg_logical_if := cfg_logical_if c;
     cfg_flows := cfg_flows payload; cfg_forwards := cfg_forwards payload |}.

(** Everything before the first card is touched. *)
Definition load_prepare (cfg : pw_config) (yaml : string) : result string (pw_config * pw_program) :=
  match pw_config_parse_string_ex (libyaml yaml) PW_CFG_TEST_ONLY pw_config_new with
  | Err e => Err (stage_msg "parse" e)
  | Ok payload =>
      if negb (bool_decide (cfg_cards payload = [])) && negb (same_topology cfg payload)
      then Err "topology change (cards / logical_ifs) requires restart" else
      let new_cfg := merged_cfg cfg payload in
      match pw_config_validate new_cfg with
      | Err e => Err (stage_msg "validate" e)
      | Ok _ =>
          match pw_flow_compile new_cfg with
          | Err e => Err (stage_msg "compile" e)
          | Ok p => Ok (new_cfg, stage_flow_run_state p false)
          end
      end
  end.

Definition detail_of (e : err) : string :=
  if str_eq (diag_text e).2 "" then pw_strerror (e_status e) else (diag_text e).2.

Definition do_config_load (yaml : option string) (d : daemon) : daemon * result string (nat * nat) :=
  match yaml with
  | None => (d, Err "missing yaml")
  | Some yaml =>
      match load_prepare (d_cfg d) yaml with
      | Err msg => (d, Err msg)
      | Ok (new_cfg, new_prog) =>
          let quiesced := (enable_flows false false d).1 in
          match program_backends_diag (d_cal d) new_prog new_cfg (d_cards quiesced) with
          | (cards, Some e) =>
              let '(cards, rb) := program_backends_diag (d_cal d) (d_prog d) (d_cfg d) cards in
              (set_cards d cards,
               Err (cstr 320 match rb with
                    | None => "stage failed (" +:+ detail_of e +:+ "); rolled back, previous config still running"
                    | Some re => "stage failed (" +:+ pw_strerror (e_status e) +:+ ") AND rollback failed (" +:+
                        pw_strerror (e_status re) +:+
                        "); device may be OUT OF SYNC -- re-arm (test.arm) or restart the daemon"
                    end))
          | (cards, None) =>
              ({| d_cfg := new_cfg; d_prog := new_prog; d_cards := cards; d_test_yaml := Some yaml;
                  d_cal := d_cal d |},
               Ok (length (cfg_flows new_cfg),
                   sum_list_with (fun cp => length (cp_fc_rules cp)) (p_per_card new_prog)))
          end
      end
  end.

(** ** Startup *)

(** Open a backend per card: the BAR, or with [allow_fake] the fake one; returns
    the number of cards left closed. A closed card keeps the context it had. *)
Definition open_one (bar_open fake_open : string -> C * pw_status) (allow_fake : bool) (card : pw_card) :
    card_runtime :=
  let '(c, br) := bar_open (card_pci card) in
  let fake := bool_decide (br <> PW_OK) && allow_fake in
  let '(c, br) := if fake then fake_open (card_pci card) else (c, br) in
  {| cr_open := bool_decide (br = PW_OK); cr_which := if fake then "fake" else "bar"; cr_ctx := c |}.
Definition open_all_backends (bar_open fake_open : string -> C * pw_status) (allow_fake : bool)
    (cfg : pw_config) : list card_runtime * nat :=
  let cards := open_one bar_open fake_open allow_fake <$> cfg_cards cfg in
  (cards, length (filter (fun cr => cr_open cr = false) cards)).

(** The environment file, with the flows and forwards of the test file if there is
    one; then validated and compiled. *)
Definition startup_cfg (env : string) (test : option string) : M (pw_config * pw_program) :=
  cfg ← pw_config_parse_string (libyaml env) pw_config_new;
  cfg ← match test with
        | None => Ok cfg
        | Some t =>
            tc ← pw_config_parse_string_ex (libyaml t) PW_CFG_TEST_ONLY pw_config_new;
            Ok {| cfg_system := cfg_system cfg; cfg_cards := cfg_cards cfg;
                  cfg_logical_if := cfg_logical_if cfg;
                  cfg_flows := cfg_flows tc; cfg_forwards := cfg_forwards tc |}
        end;
  _ ← pw_config_validate cfg;
  p ← pw_flow_compile cfg;
  Ok (cfg, p).

(** [None]: the daemon exits. *)
Definition startup (bar_open fake_open : string -> C * pw_status) (autostart allow_fake : bool) (cal : Z)
    (env : string) (test : option string) : option daemon :=
  match startup_cfg env test with
  | Err _ => None
  | Ok (cfg, prog) =>
      let '(cards, n_failed) := open_all_backends bar_open fake_open allow_fake cfg in
      if (0 <? n_failed)%nat && negb allow_fake then None else
      let prog := if autostart then prog else stage_flow_run_state prog false in
      let '(cards, worst) := program_backends_diag cal prog cfg cards in
      if bool_decide (worst <> None) && negb allow_fake then None else
      Some {| d_cfg := cfg; d_prog := prog; d_cards := cards; d_test_yaml := test; d_cal := cal |}
  end.
End Daemon.
