(* ===== verification/RunState.v ===== *)
(** * Flows, their rows and their run-state

    The daemon finds a flow's generator row by the flow's metadata and switches it
    in the staged program ([find_tx_row], [stage_flow_run_state], [flow_enabled] of
    [packetwyrmd/src/main.c]). On a compiled program the search finds exactly the
    generator rows, one per flow, so staging acts on all of them and on nothing
    else; and it keeps doing so however rows were switched before. *)

From S2P Require Import Prelude Types Config Validate Csr FlowCompiler Samples CompilerInv FieldClassifier CompilerFlows HashPlacement CompilerProps Daemon.

(** ** Flows and their rows *)

(** What the row search looks at. *)
Definition find_key (prog : pw_program) : list pw_flow_meta * list (Z * list Z) :=
  (p_flow_meta prog, (fun cp => (cp_card_id cp, fc_local_flow_id <$> cp_flow_rows cp)) <$> p_per_card prog).

Lemma list_find_fmap_eq {A B} (g : A -> B) (P : B -> Prop) `{forall b, Decision (P b)} l :
  fst <$> list_find (fun a => P (g a)) l = fst <$> list_find P (g <$> l).
Proof.
  induction l as [|a l IH]; [done|]. cbn [list_find fmap list_fmap].
  destruct (decide (P (g a))); [done|].
  destruct (list_find (fun a => P (g a)) l) as [[i x]|], (list_find P (g <$> l)) as [[j y]|]; simpl in *; congruence.
Qed.

Lemma find_tx_row_key p q id : find_key p = find_key q -> find_tx_row p id = find_tx_row q id.
Proof.
  intros [= Hm Hc]. unfold find_tx_row. rewrite <- Hm. destruct (list_find _ _) as [[k m]|]; [|done].
  revert Hc. generalize 0%nat as ci. generalize (p_per_card q) as qs. generalize (p_per_card p) as ps.
  induction ps as [|a ps IH]; intros [|b qs] ci Hc; try done. injection Hc as Hid Hrows Hc.
  cbn [find_in_cards]. rewrite Hid, (IH qs (S ci) Hc). destruct (_ =? _); [|done].
  pose proof (list_find_fmap_eq fc_local_flow_id (fun l => l = m_tx_local_flow_id m) (cp_flow_rows a)) as Ha.
  pose proof (list_find_fmap_eq fc_local_flow_id (fun l => l = m_tx_local_flow_id m) (cp_flow_rows b)) as Hb.
  rewrite Hrows in Ha. rewrite <- Hb in Ha.
  destruct (list_find _ (cp_flow_rows a)) as [[i x]|], (list_find _ (cp_flow_rows b)) as [[j y]|];
    simpl in *; congruence.
Qed.

Lemma set_running_key f b : fc_local_flow_id (set_running f b) = fc_local_flow_id f.
Proof. done. Qed.

Lemma set_row_key p ci row f g : row_at p ci row = Some f -> fc_local_flow_id g = fc_local_flow_id f ->
  find_key (set_row p ci row g) = find_key p.
Proof.
  unfold row_at. intros (cp & Hcp & Hf)%bind_Some Hg. unfold set_row. rewrite Hcp.
  unfold find_key. simpl. f_equal. rewrite list_fmap_insert. simpl.
  apply list_insert_id. rewrite list_lookup_fmap, Hcp. simpl. do 2 f_equal.
  symmetry. rewrite list_fmap_insert, Hg. apply list_insert_id. by rewrite list_lookup_fmap, Hf.
Qed.

Lemma find_in_cards_at m cps : forall ci k cp r f,
  NoDup (cp_card_id <$> cps) -> cps !! k = Some cp -> cp_card_id cp = m_tx_card_id m ->
  list_find (fun r => fc_local_flow_id r = m_tx_local_flow_id m) (cp_flow_rows cp) = Some (r, f) ->
  find_in_cards m ci cps = Some ((ci + k)%nat, r).
Proof.
  induction cps as [|a cps IH]; intros ci k cp r f Hnd Hk Hid Hf; [done|].
  apply NoDup_cons in Hnd as [Hni Hnd]. destruct k as [|k]; cbn [find_in_cards].
  - injection Hk as ->. rewrite (proj2 (Z.eqb_eq _ _) Hid), Hf. by rewrite Nat.add_0_r.
  - rewrite (proj2 (Z.eqb_neq (cp_card_id a) (m_tx_card_id m))).
    + rewrite Nat.add_succ_r, <- Nat.add_succ_l. by eapply IH.
    + rewrite <- Hid. intros Heq. apply Hni. rewrite Heq. apply list_elem_of_fmap.
      exists cp. split; [done|]. by eapply list_elem_of_lookup_2.
Qed.

(** A row's local flow id is its index. *)
Lemma compiled_row_index cfg p cp i r : compiled cfg p -> cp ∈ p_per_card p ->
  cp_flow_rows cp !! i = Some r -> fc_local_flow_id r = Z.of_nat i.
Proof.
  intros Hc Hin Hi. destruct (compiled_card _ _ _ Hc Hin) as (cp0 & [_ Ho _ Hpl]).
  rewrite (pl_same _ _ _ Hpl) in Hi. simpl in Hi.
  destruct (co_rows _ _ _ _ Ho i r Hi) as (f & _ & tx & rx & _ & _ & [[_ ->]|(_ & _ & _ & ->)]); [|done].
  apply tx_row_fields.
Qed.

(** A flow's metadata leads to its TX row. *)
Lemma compiled_meta cfg p j f : compiled cfg p -> cfg_flows cfg !! j = Some f ->
  exists m tx rx ci cp, p_flow_meta p !! j = Some m /\ m_global_flow_id m = f_id f /\
    m_tx_card_id m = pr_card_id tx /\ p_per_card p !! ci = Some cp /\ cp_card_id cp = m_tx_card_id m /\
    pw_config_resolve_port cfg (f_tx_global_port f) = Ok tx /\
    pw_config_resolve_port cfg (f_rx_global_port f) = Ok rx /\
    slot cp (m_tx_local_flow_id m)
      (tx_row f (pr_local_port_id tx) (m_tx_local_flow_id m) (pr_card_id tx =? pr_card_id rx)) /\
    (m_rx_slot_valid m = true -> 0 <= m_rx_local_flow_id m).
Proof.
  intros Hc Hj. destruct (cm_stage _ _ Hc) as (p0 & Hpl & Hm).
  destruct (Hm j f Hj) as (m & Hmj & tx & rx & tl & rl & Htx & Hrx & -> & Ht & Hr).
  destruct (placed_on_card _ _ _ _ _ _ Hpl (fun a b Hab => proj1 (placed_slot _ a b tl _ Hab)) Ht)
    as (ci & cp & Hci & Hid & Hs).
  exists (flow_meta_of f tx rx tl rl), tx, rx, ci, cp. split_and!; try done. simpl.
  intros Hb%negb_true_iff. destruct (Hr Hb) as (i & cp' & _ & _ & [Hrs _]). apply rx_slot_bound in Hrs. lia.
Qed.

Lemma compiled_meta_ids cfg p j k m m' : compiled cfg p -> p_flow_meta p !! j = Some m ->
  p_flow_meta p !! k = Some m' -> m_global_flow_id m = m_global_flow_id m' -> j = k.
Proof.
  intros Hc Hj Hk He. pose proof (cm_len _ _ Hc) as Hl.
  destruct (lookup_lt_is_Some_2 (cfg_flows cfg) j) as [f Hf]; [rewrite <- Hl; by eapply lookup_lt_Some|].
  destruct (lookup_lt_is_Some_2 (cfg_flows cfg) k) as [g Hg]; [rewrite <- Hl; by eapply lookup_lt_Some|].
  destruct (compiled_meta cfg p j f Hc Hf) as (m1 & ? & ? & ? & ? & H1 & I1 & _).
  destruct (compiled_meta cfg p k g Hc Hg) as (m2 & ? & ? & ? & ? & H2 & I2 & _).
  simplify_eq. eapply NoDup_lookup; [apply (vc_flow_ids _ (cm_valid _ _ Hc))| |].
  - rewrite list_lookup_fmap, Hf. done.
  - rewrite list_lookup_fmap, Hg. simpl. congruence.
Qed.

(** The row search finds exactly the flow's TX row. *)
Lemma compiled_find cfg p j f m ci cp l r : compiled cfg p -> cfg_flows cfg !! j = Some f ->
  p_flow_meta p !! j = Some m -> m_global_flow_id m = f_id f -> l = m_tx_local_flow_id m ->
  p_per_card p !! ci = Some cp -> cp_card_id cp = m_tx_card_id m -> slot cp l r ->
  find_tx_row p (f_id f) = Some (ci, Z.to_nat l).
Proof.
  intros Hc Hj Hm Hid -> Hci Hcid [Hl0 Hr]. unfold find_tx_row.
  rewrite (proj2 (list_find_Some _ (p_flow_meta p) j m)).
  - eapply (find_in_cards_at m _ 0).
    + change (NoDup (card_ids p)). rewrite (cm_ids _ _ Hc). apply (cm_valid _ _ Hc).
    + exact Hci.
    + done.
    + apply list_find_Some. split; [exact Hr|]. split.
      * erewrite compiled_row_index; [|exact Hc|by eapply list_elem_of_lookup_2|exact Hr]. lia.
      * intros i y Hy Hlt Heq.
        erewrite compiled_row_index in Heq; [|exact Hc|by eapply list_elem_of_lookup_2|exact Hy]. lia.
  - split; [done|]. split; [done|]. intros k m' Hk Hlt He.
    enough (k = j) by lia. eapply compiled_meta_ids; [exact Hc|exact Hk|exact Hm|congruence].
Qed.


(** ** Staging *)

(** The program without its rows. *)
Definition bare (p : pw_program) : list pw_card_program := (fun cp => set_rows cp []) <$> p_per_card p.

Lemma set_running_twice f b b' : set_running (set_running f b') b = set_running f b.
Proof. done. Qed.

Lemma set_row_row p ci row f g cj i : row_at p ci row = Some f ->
  row_at (set_row p ci row g) cj i = if decide ((cj, i) = (ci, row)) then Some g else row_at p cj i.
Proof.
  unfold row_at. intros (cp & Hcp & Hf)%bind_Some. unfold set_row. rewrite Hcp. simpl.
  destruct (decide (cj = ci)) as [->|Hne].
  - rewrite list_lookup_insert_eq by (by eapply lookup_lt_Some). rewrite Hcp. simpl.
    destruct (decide (i = row)) as [->|Hne].
    + rewrite list_lookup_insert_eq by (by eapply lookup_lt_Some). by rewrite decide_True.
    + rewrite list_lookup_insert_ne by done. rewrite decide_False; [done|congruence].
  - rewrite list_lookup_insert_ne by done. rewrite decide_False; [done|congruence].
Qed.

Lemma set_row_bare p ci row g : bare (set_row p ci row g) = bare p.
Proof.
  unfold set_row. destruct (p_per_card p !! ci) as [cp|] eqn:Hcp; [|done].
  unfold bare. simpl. rewrite list_fmap_insert. simpl. apply list_insert_id.
  by rewrite list_lookup_fmap, Hcp.
Qed.

(** The rows the search reaches from a list of flows. *)
Definition targets (p : pw_program) (ms : list pw_flow_meta) : list (nat * nat) :=
  omap (fun m => find_tx_row p (m_global_flow_id m)) ms.

Lemma targets_key p q ms : find_key p = find_key q -> targets p ms = targets q ms.
Proof. intros H. unfold targets. apply list_omap_ext, Forall2_same_length_lookup. split; [done|].
  intros i x y Hx Hy. rewrite (find_tx_row_key p q) by done. congruence. Qed.

(** Programs that differ only in the run-state of some rows. *)
Record restaged (p q : pw_program) : Prop := {
  rs_key : find_key q = find_key p; rs_bare : bare q = bare p
}.

#[global] Instance restaged_preorder : PreOrder restaged.
Proof. split; [done|]. intros a b c [] []. split; congruence. Qed.

Lemma stage_one_rows b q m :
  restaged q (stage_one b q m) /\
  forall ci i, row_at (stage_one b q m) ci i =
    (fun r => if decide (Some (ci, i) = find_tx_row q (m_global_flow_id m)) then set_running r b else r)
      <$> row_at q ci i.
Proof.
  unfold stage_one. destruct (find_tx_row q _) as [[ci row]|].
  2: { split; [done|]. intros. by destruct (row_at q ci i). }
  destruct (row_at q ci row) as [f|] eqn:Hf.
  - split; [split; [by eapply set_row_key|apply set_row_bare]|]. intros cj i.
    rewrite (set_row_row _ _ _ f) by done. repeat case_decide; simplify_eq; try done.
    + by rewrite Hf.
    + by destruct (row_at q cj i).
  - split; [done|]. intros cj i. case_decide; simplify_eq.
    + by rewrite Hf.
    + by destruct (row_at q cj i).
Qed.

Lemma stage_rows b ms : forall q,
  restaged q (fold_left (stage_one b) ms q) /\
  forall ci i, row_at (fold_left (stage_one b) ms q) ci i =
    (fun r => if decide ((ci, i) ∈ targets q ms) then set_running r b else r) <$> row_at q ci i.
Proof.
  induction ms as [|m ms IH]; intros q; cbn [fold_left].
  { split; [done|]. intros. by destruct (row_at q ci i). }
  destruct (stage_one_rows b q m) as [Hrs Hrow]. destruct (IH (stage_one b q m)) as [Hrs' Hrow'].
  split; [by etransitivity|]. intros ci i. rewrite Hrow', Hrow, (targets_key _ q) by apply Hrs.
  destruct (row_at q ci i) as [r|]; [|done]. simpl. f_equal. unfold targets. simpl.
  destruct (find_tx_row q (m_global_flow_id m)) as [x|].
  - destruct (decide (Some (ci, i) = Some x)) as [E|E].
    + injection E as <-. rewrite (decide_True (P := _ ∈ _ :: _)) by left. by case_decide.
    + repeat case_decide; try done; set_solver.
  - by rewrite (decide_False (P := Some (ci, i) = None)).
Qed.

(** ** On a compiled program *)

(** The rows that generate. *)
Definition generator (r : pwfpga_flow_config) : bool := fc_tx_enable r =? 1.

Lemma compiled_row_of cfg p ci cp i r : compiled cfg p -> p_per_card p !! ci = Some cp ->
  cp_flow_rows cp !! i = Some r -> exists j f, cfg_flows cfg !! j = Some f /\
    row_of cfg f (cp_card_id cp) (Z.of_nat i) r.
Proof.
  intros Hc Hcp Hi. destruct (compiled_card _ _ _ Hc (list_elem_of_lookup_2 _ _ _ Hcp)) as (cp0 & [_ Ho _ Hpl]).
  rewrite (pl_same _ _ _ Hpl) in Hi |- *. simpl in *.
  destruct (co_rows _ _ _ _ Ho i r Hi) as (f & (k & _ & Hk) & Hr). eauto.
Qed.

Lemma compiled_row_ids cfg p cp : compiled cfg p -> cp ∈ p_per_card p ->
  NoDup (fc_global_flow_id <$> cp_flow_rows cp).
Proof.
  intros Hc Hin. destruct (compiled_card _ _ _ Hc Hin) as (cp0 & [_ Ho _ Hpl]).
  rewrite (pl_same _ _ _ Hpl). apply Ho.
Qed.

(** A flow's search result, and the row there. *)
Lemma compiled_find_row cfg p j f : compiled cfg p -> cfg_flows cfg !! j = Some f ->
  exists m ci i r, p_flow_meta p !! j = Some m /\ m_global_flow_id m = f_id f /\
    find_tx_row p (f_id f) = Some (ci, i) /\ row_at p ci i = Some r /\
    fc_tx_enable r = 1 /\ fc_global_flow_id r = f_id f.
Proof.
  intros Hc Hj. destruct (compiled_meta cfg p j f Hc Hj)
    as (m & tx & rx & ci & cp & Hm & Hid & Htx & Hci & Hcid & _ & _ & Hs & _).
  exists m, ci, (Z.to_nat (m_tx_local_flow_id m)). eexists. split_and!; try done.
  - by eapply compiled_find.
  - unfold row_at. rewrite Hci. simpl. apply Hs.
  - apply tx_row_fields.
  - apply tx_row_fields.
Qed.

Lemma elem_of_targets p ms x : x ∈ targets p ms <-> exists m, m ∈ ms /\ find_tx_row p (m_global_flow_id m) = Some x.
Proof. apply list_elem_of_omap. Qed.

Lemma compiled_targets cfg p ci i r : compiled cfg p -> row_at p ci i = Some r ->
  (ci, i) ∈ targets p (p_flow_meta p) <-> generator r = true.
Proof.
  intros Hc Hr. rewrite elem_of_targets. unfold generator. rewrite Z.eqb_eq. split.
  - intros (m & [j Hj]%list_elem_of_lookup & Hf).
    destruct (lookup_lt_is_Some_2 (cfg_flows cfg) j) as [f Hfj].
    { rewrite <- (cm_len _ _ Hc). by eapply lookup_lt_Some. }
    destruct (compiled_find_row cfg p j f Hc Hfj) as (m' & ci' & i' & r' & Hm' & Hid & Hf' & Hr' & Hg & _).
    simplify_eq. rewrite Hid in Hf. congruence.
  - intros Hg. unfold row_at in Hr. apply bind_Some in Hr as (cp & Hcp & Hi).
    destruct (compiled_row_of cfg p ci cp i r Hc Hcp Hi) as (j & f & Hj & Hof).
    destruct (compiled_meta cfg p j f Hc Hj)
      as (m & tx & rx & ci' & cp' & Hm & Hid & Htx & Hci & Hcid & Ht & _ & Hs & _).
    exists m. split; [by eapply list_elem_of_lookup_2|]. rewrite Hid.
    erewrite (compiled_find cfg p j f m ci' cp') by done.
    assert (Hrid : fc_global_flow_id r = f_id f) by (by eapply row_of_id).
    destruct Hof as (tx' & rx' & Htx' & _ & [[Hc1 _]|(_ & _ & _ & ->)]); [|done].
    rewrite Ht in Htx'. injection Htx' as <-.
    assert (ci' = ci) as ->.
    { eapply (NoDup_lookup (card_ids p)); [rewrite (cm_ids _ _ Hc); apply (cm_valid _ _ Hc)| |];
        unfold card_ids; rewrite list_lookup_fmap; [by rewrite Hci|rewrite Hcp; simpl; congruence]. }
    simplify_eq. do 2 f_equal. destruct Hs as [_ Hs].
    eapply (NoDup_lookup _ _ _ (f_id f));
      [by eapply (compiled_row_ids cfg p cp), list_elem_of_lookup_2| |]; rewrite list_lookup_fmap.
    + rewrite Hs. simpl. f_equal. apply tx_row_fields.
    + rewrite Hi. simpl. congruence.
Qed.

(** A program is its flows, its tables and its rows. *)
Lemma program_ext p q : restaged p q -> (forall ci i, row_at q ci i = row_at p ci i) -> q = p.
Proof.
  intros [Hk Hb] Hr. destruct p as [ps pm], q as [qs qm]. injection Hk as -> _. f_equal.
  apply list_eq. intros ci. assert (Hci := f_equal (fun l => l !! ci) Hb). unfold bare in Hci.
  simpl in Hci. rewrite !list_lookup_fmap in Hci. specialize (Hr ci). unfold row_at in Hr. simpl in Hr.
  destruct (qs !! ci) as [a|], (ps !! ci) as [b|]; try done. injection Hci as ??????. f_equal.
  assert (cp_flow_rows a = cp_flow_rows b) by (apply list_eq; intros i; apply Hr).
  destruct a, b. simpl in *. congruence.
Qed.

(** Every generator switched, nothing else touched. *)
Definition switch_all (p : pw_program) (b : bool) : pw_program :=
  {| p_per_card := (fun cp => set_rows cp ((fun r => if generator r then set_running r b else r)
                                           <$> cp_flow_rows cp)) <$> p_per_card p;
     p_flow_meta := p_flow_meta p |}.

Lemma switch_all_rows p b ci i :
  row_at (switch_all p b) ci i = (fun r => if generator r then set_running r b else r) <$> row_at p ci i.
Proof.
  unfold row_at. simpl. rewrite list_lookup_fmap. destruct (p_per_card p !! ci) as [cp|]; [|done].
  simpl. by rewrite list_lookup_fmap.
Qed.

Lemma switch_all_restaged p b : restaged p (switch_all p b).
Proof.
  split; unfold find_key, bare; simpl; rewrite <- list_fmap_compose; [|done].
  f_equal. apply list_fmap_ext. intros ? cp _. simpl. f_equal. rewrite <- list_fmap_compose.
  apply list_fmap_ext. intros ? r _. simpl. by destruct (generator r).
Qed.

Lemma stage_switch cfg p b : compiled cfg p -> stage_flow_run_state p b = switch_all p b.
Proof.
  intros Hc. destruct (stage_rows b (p_flow_meta p) p) as [Hrs Hrow]. symmetry. apply program_ext.
  - destruct Hrs as [K B]. destruct (switch_all_restaged p b) as [K' B'].
    split; unfold stage_flow_run_state; congruence.
  - intros ci i. unfold stage_flow_run_state. rewrite switch_all_rows, Hrow.
    destruct (row_at p ci i) as [r|] eqn:Hr; [|done]. simpl. f_equal.
    pose proof (compiled_targets cfg p ci i r Hc Hr) as Ht. destruct (generator r); case_decide; naive_solver.
Qed.

(** Staging the run-state of a compiled configuration switches the generator
    of every flow, on whatever card it is, and touches no receive row, no table and
    no flow metadata: the per-flow search the daemon does equals switching every
    generator row at once. *)
Theorem stage_all_generators (cfg : pw_config) (p : pw_program) (b : bool) :
  pw_flow_compile cfg = Ok p -> stage_flow_run_state p b = switch_all p b.
Proof. intros Hc%pw_flow_compile_compiled. by eapply stage_switch. Qed.

Lemma stage_all_generators_witness :
  pw_flow_compile s_cfg = Ok s_prog /\ stage_flow_run_state s_prog false = switch_all s_prog false.
Proof. split; [exact s_cfg_compiles|]. exact (stage_all_generators s_cfg s_prog false s_cfg_compiles). Defined.

(** ** The run-state of each flow *)

(** No generator is on. *)
Definition idle (q : pw_program) : Prop := forall ci i r, row_at q ci i = Some r -> fc_tx_enable r = 0.

Lemma row_of_gen cfg f id l r : row_of cfg f id l r -> fc_tx_enable r = 1 \/ fc_tx_enable r = 0.
Proof.
  intros (tx & rx & _ & _ & [[_ ->]|(_ & _ & _ & ->)]); [left; apply tx_row_fields|by right].
Qed.

Lemma compiled_gen cfg p ci i r : compiled cfg p -> row_at p ci i = Some r ->
  generator r = false -> fc_tx_enable r = 0.
Proof.
  intros Hc Hr Hg. unfold row_at in Hr. apply bind_Some in Hr as (cp & Hcp & Hi).
  destruct (compiled_row_of cfg p ci cp i r Hc Hcp Hi) as (j & f & _ & Hof).
  unfold generator in Hg. apply Z.eqb_neq in Hg. destruct (row_of_gen _ _ _ _ _ Hof); congruence.
Qed.

Lemma stage_idle cfg p : compiled cfg p -> idle (stage_flow_run_state p false).
Proof.
  intros Hc ci i r. rewrite (stage_switch cfg) by done. rewrite switch_all_rows.
  intros (r0 & Hr0 & ->)%fmap_Some. destruct (generator r0) eqn:Hg; [done|]. by eapply compiled_gen.
Qed.

(** The search only finds rows that are there. *)
Lemma find_in_cards_row m cps : forall c0 ci i, find_in_cards m c0 cps = Some (ci, i) ->
  exists cp r, (c0 <= ci)%nat /\ cps !! (ci - c0)%nat = Some cp /\ cp_flow_rows cp !! i = Some r.
Proof.
  induction cps as [|a cps IH]; intros c0 ci i Hf; [done|]. cbn [find_in_cards] in Hf.
  assert (Hrec : find_in_cards m (S c0) cps = Some (ci, i) ->
    exists cp r, (c0 <= ci)%nat /\ (a :: cps) !! (ci - c0)%nat = Some cp /\ cp_flow_rows cp !! i = Some r).
  { intros H. destruct (IH _ _ _ H) as (cp & r & Hle & Hcp & Hr). exists cp, r.
    split; [lia|]. split; [|done]. by replace (ci - c0)%nat with (S (ci - S c0)) by lia. }
  destruct (_ =? _); [|by apply Hrec].
  destruct (list_find _ (cp_flow_rows a)) as [[k r]|] eqn:Hl; [|by apply Hrec].
  injection Hf as <- <-. apply list_find_Some in Hl as [Hr _]. exists a, r.
  rewrite Nat.sub_diag. split_and!; [lia|done|done].
Qed.

Lemma find_tx_row_row p id ci i : find_tx_row p id = Some (ci, i) ->
  exists cp r, p_per_card p !! ci = Some cp /\ cp_flow_rows cp !! i = Some r /\ row_at p ci i = Some r.
Proof.
  unfold find_tx_row. destruct (list_find _ _) as [[k m]|]; [|done]. intros Hf.
  destruct (find_in_cards_row _ _ _ _ _ Hf) as (cp & r & _ & Hcp & Hr). rewrite Nat.sub_0_r in Hcp.
  exists cp, r. split_and!; try done. unfold row_at. by rewrite Hcp.
Qed.

(** Every flow of a compiled configuration is found in every program it runs. *)
Lemma restaged_find cfg p q m : compiled cfg p -> restaged p q -> m ∈ p_flow_meta q ->
  exists ci i cp r, find_tx_row q (m_global_flow_id m) = Some (ci, i) /\
    p_per_card q !! ci = Some cp /\ cp_flow_rows cp !! i = Some r /\ row_at q ci i = Some r.
Proof.
  intros Hc [Hk _] [j Hj]%list_elem_of_lookup. assert (Hm : p_flow_meta q = p_flow_meta p) by (by injection Hk).
  rewrite Hm in Hj. destruct (lookup_lt_is_Some_2 (cfg_flows cfg) j) as [f Hf].
  { rewrite <- (cm_len _ _ Hc). by eapply lookup_lt_Some. }
  destruct (compiled_find_row cfg p j f Hc Hf) as (m' & ci & i & _ & Hm' & Hid & Hfind & _).
  rewrite Hj in Hm'. injection Hm' as <-.
  exists ci, i. rewrite (find_tx_row_key q p), Hid by done.
  assert (Hq : find_tx_row q (f_id f) = Some (ci, i)) by (by rewrite (find_tx_row_key q p)).
  destruct (find_tx_row_row _ _ _ _ Hq) as (cp & r & ? & ? & ?). eauto 10.
Qed.

Lemma stage_enabled b ms q m ci i : m ∈ ms -> find_tx_row q (m_global_flow_id m) = Some (ci, i) ->
  flow_enabled (fold_left (stage_one b) ms q) (m_global_flow_id m) = b.
Proof.
  intros Hm Hf. destruct (stage_rows b ms q) as [[Hk _] Hrow]. unfold flow_enabled.
  rewrite (find_tx_row_key _ q), Hf by done. rewrite Hrow.
  destruct (find_tx_row_row _ _ _ _ Hf) as (cp & r & _ & _ & ->). simpl.
  rewrite decide_True by (apply elem_of_targets; eauto). by destruct b.
Qed.
