(* ===== verification/DaemonProps.v ===== *)
(** * The daemon's view is the card's

    On cards in order, whatever sequence of requests and servo passes runs, every
    open card holds exactly the daemon's staged program (tables and live rows):
    a refused load is rolled back, an accepted one is installed whole with every
    generator idle, and nothing but flows and forwards ever changes. *)

From S2P Require Import Prelude Types Config Validate Csr FlowCompiler CompilerInv CompilerFlows CompilerProps.
From S2P Require Import Backend Programming ProgrammingProps Deploy GpioSync Daemon RunState.

(** ** What the daemon relies on of a card *)

(** The control registers the daemon writes: counters, sync, latency corrections,
    the SFP wires, the SPI, inject and punt windows; and the registers it reads. *)
Definition ctl_off (off : Z) : Prop :=
  off = PWFPGA_REG_GPIO_SYNC_CTRL \/ off = PWFPGA_REG_STATS_CLEAR \/ off = PWFPGA_REG_DP_RESET \/
  off = PWFPGA_REG_STATS_SNAPSHOT_TRIGGER \/ off = PWFPGA_REG_SFP_I2C \/
  PWFPGA_WIN_SPI_FLASH <= off < PWFPGA_WIN_FC_CMP \/
  exists slot half, 0 <= slot < PWFPGA_FLOW_TABLE_ROWS /\ (half = 0 \/ half = 4) /\
    off = PWFPGA_REG_LAT_CORRECTION_BASE + slot * 8 + half.
Definition read_off (off : Z) : Prop := 0 <= off /\ off + 4 <= 0x10000.

Definition card_ok {C} {ops : pw_card_backend_ops C} {CT : CardTables ops} (c : C) : Prop := csr_ok c /\ fl_ok c.

(** Tables, rows and identity agree. *)
Record same_card_state {C} {ops : pw_card_backend_ops C} {CT : CardTables ops} (c c' : C) : Prop := {
  sc_reg : forall o, csr_off_ok o -> csr_reg c' o = csr_reg c o;
  sc_live : forall i, 0 <= i < PWFPGA_FLOW_TABLE_ROWS -> fl_live c' i = fl_live c i;
  sc_staged : forall i, 0 <= i < PWFPGA_FLOW_TABLE_ROWS -> fl_staged c' i = fl_staged c i;
  sc_info : (probe_info ops c').2 = (probe_info ops c).2
}.

(** Control writes (the data-plane reset included) and sync reads leave the
    configuration alone; table and row writes leave each other's state alone; a
    commit keeps the staged rows; the identity registers are constant. *)
Class DaemonCard {C : Type} (ops : pw_card_backend_ops C) := {
  dc_tables :: CardTables ops;
  dc_write : forall off v c, card_ok c -> csr_off_ok off ->
    (forall i, 0 <= i < PWFPGA_FLOW_TABLE_ROWS -> fl_staged (csr_write off v c).1 i = fl_staged c i) /\
    (probe_info ops (csr_write off v c).1).2 = (probe_info ops c).2;
  dc_row : forall r f c, card_ok c -> 0 <= r < PWFPGA_FLOW_TABLE_ROWS ->
    (forall o, csr_off_ok o -> csr_reg (fl_write r f c).1 o = csr_reg c o) /\
    (probe_info ops (fl_write r f c).1).2 = (probe_info ops c).2;
  dc_commit : forall c, card_ok c ->
    (forall o, csr_off_ok o -> csr_reg (fl_commit c).1 o = csr_reg c o) /\
    (forall i, 0 <= i < PWFPGA_FLOW_TABLE_ROWS -> fl_staged (fl_commit c).1 i = fl_staged c i) /\
    (probe_info ops (fl_commit c).1).2 = (probe_info ops c).2;
  dc_ctl : forall off v c, card_ok c -> ctl_off off ->
    (csr_write off v c).2 = PW_OK /\ card_ok (csr_write off v c).1 /\
    same_card_state c (csr_write off v c).1;
  dc_read : forall rd off c, op_read32 ops = Some rd -> card_ok c -> read_off off ->
    card_ok (rd off c).1 /\ same_card_state c (rd off c).1
}.

(** A card program the programming step accepts on a card with room for it. *)
Record deployable (cp : pw_card_program) : Prop := {
  dp_fits : program_fits cp = true; dp_typed : typed_program cp; dp_keys : distinct_keys cp
}.
Definition room (cp : pw_card_program) (info : option pw_card_info) : Prop :=
  forall i, info = Some i -> over_capacity cp i = false.

Section Sync.
Context {C : Type} {ops : pw_card_backend_ops C} {DC : DaemonCard ops}.

(** The card holds exactly the program: tables, and rows both live and staged. *)
Record holds (cp : pw_card_program) (c : C) : Prop := {
  ho_ok : card_ok c;
  ho_room : room cp (probe_info ops c).2;
  ho_tables : programmed cp (csr_reg c);
  ho_rows : forall i, 0 <= i < flow_row_count cp (probe_info ops c).2 ->
    fl_live c i = flow_config_bytes (row_image cp i) /\ fl_staged c i = fl_live c i
}.

(** A step on one card that keeps its configuration. *)
Definition kept (c c' : C) : Prop := card_ok c -> card_ok c' /\ same_card_state c c'.

Lemma same_card_refl (c : C) : same_card_state c c. Proof. by split. Qed.
Lemma same_card_trans (a b c : C) : same_card_state a b -> same_card_state b c -> same_card_state a c.
Proof.
  intros [R1 L1 S1 I1] [R2 L2 S2 I2]. split; intros; rewrite ?R2, ?L2, ?S2, ?I2 by done; auto.
Qed.

#[global] Instance kept_preorder : PreOrder kept.
Proof.
  split.
  - intros c Hc. split; [done|apply same_card_refl].
  - intros a b c Hab Hbc Ha. destruct (Hab Ha) as [Hb H1]. destruct (Hbc Hb) as [Hc H2].
    split; [done|by eapply same_card_trans].
Qed.

Lemma row_count_fits cp info : program_fits cp = true -> flow_row_count cp info <= PWFPGA_FLOW_TABLE_ROWS.
Proof. intros. by apply row_count_bounds. Qed.

Lemma kept_holds cp c c' : deployable cp -> kept c c' -> holds cp c -> holds cp c'.
Proof.
  intros [Hf Ht _] Hk [Hok Hroom Hp Hr]. destruct (Hk Hok) as [Hok' [R L S I]]. split.
  - done.
  - by rewrite I.
  - eapply programmed_ext; [done|done| |exact Hp]. auto.
  - rewrite I. intros i Hi. pose proof (row_count_fits cp (probe_info ops c).2 Hf).
    rewrite L, S by lia. auto.
Qed.

(** ** Control writes and sync reads *)

Lemma wr_reg_kept off v c : ctl_off off -> kept c (wr_reg ops off v c).
Proof.
  intros Ho Hc. unfold wr_reg. rewrite csr_write_op. destruct (dc_ctl off v c Hc Ho) as (_ & ? & ?). done.
Qed.

Lemma gpio_ctrl_off : ctl_off PWFPGA_REG_GPIO_SYNC_CTRL. Proof. by left. Qed.
Lemma clear_off : ctl_off PWFPGA_REG_STATS_CLEAR. Proof. by right; left. Qed.
Lemma reset_off : ctl_off PWFPGA_REG_DP_RESET. Proof. by right; right; left. Qed.
Lemma trigger_off : ctl_off PWFPGA_REG_STATS_SNAPSHOT_TRIGGER. Proof. by do 3 right; left. Qed.
Lemma sfp_off : ctl_off PWFPGA_REG_SFP_I2C. Proof. by do 4 right; left. Qed.
Lemma window_off off : PWFPGA_WIN_SPI_FLASH <= off < PWFPGA_WIN_FC_CMP -> ctl_off off. Proof. by do 5 right; left. Qed.

Lemma correction_kept slot corr c : 0 <= slot -> kept c (pw_gpio_sync_write_correction ops slot corr c).
Proof.
  intros Hs. unfold pw_gpio_sync_write_correction. destruct (Z.leb_spec PWFPGA_FLOW_TABLE_ROWS slot); [reflexivity|].
  etransitivity; apply wr_reg_kept; do 6 right; exists slot; eexists; (split; [lia|]);
    (split; [|reflexivity]); [by left|by right].
Qed.

Lemma rd_reg_kept rd off c : op_read32 ops = Some rd -> read_off off -> kept c (rd_reg rd off c).1.
Proof.
  intros Hr Ho Hc. unfold rd_reg. pose proof (dc_read rd off c Hr Hc Ho) as H.
  by destruct (rd off c) as [c' [s v]].
Qed.

(** ** The same for the list of cards *)

Abbreviation cards_t := (list (@card_runtime C)).

Definition kept_card (a b : card_runtime) : Prop := cr_open b = cr_open a /\ kept (cr_ctx a) (cr_ctx b).
Definition kept_all : cards_t -> cards_t -> Prop := Forall2 kept_card.

#[global] Instance kept_card_preorder : PreOrder kept_card.
Proof.
  split; [by split|]. intros a b c [H1 H2] [H3 H4]. split; [congruence|by etransitivity].
Qed.
#[global] Instance kept_all_preorder : PreOrder kept_all.
Proof. split; unfold kept_all; apply _. Qed.

Lemma kept_insert (cs : cards_t) ci cr c : cs !! ci = Some cr -> kept (cr_ctx cr) c ->
  kept_all cs (<[ci := set_ctx cr c]> cs).
Proof.
  intros Hci Hk. rewrite <- (list_insert_id cs ci cr) at 1 by done.
  by apply Forall2_insert; [reflexivity|split].
Qed.

Lemma on_ctx_kept ci f (cs : cards_t) : (forall c, kept c (f c)) -> kept_all cs (on_ctx ci f cs).
Proof.
  intros Hf. apply Forall2_same_length_lookup. unfold on_ctx. split; [by rewrite length_alter|].
  intros i a b Ha. rewrite list_lookup_alter. destruct (decide (ci = i)) as [->|_].
  - rewrite Ha. intros [= <-]. split; [done|apply Hf].
  - rewrite Ha. intros [= <-]. reflexivity.
Qed.

Lemma card_read_kept ci off (cs : cards_t) : read_off off -> kept_all cs (card_read ops ci off cs).1.
Proof.
  intros Ho. unfold card_read. destruct (cs !! ci) as [cr|] eqn:Hci; [|reflexivity].
  destruct (op_read32 ops) as [rd|] eqn:Hr; [|reflexivity].
  pose proof (rd_reg_kept rd off (cr_ctx cr) Hr Ho) as Hk. destruct (rd_reg rd off (cr_ctx cr)) as [c v].
  by apply kept_insert.
Qed.

(** A preorder kept by the sync reads is kept by the coherent sampler. *)
Lemma offset_kept tx rx (cs : cards_t) : kept_all cs (card_offset ops tx rx cs).1.
Proof.
  unfold card_offset, pw_gpio_sync_offset_coherent.
  assert (Hts : forall ci cs, kept_all cs (ts_of (card_read ops ci) cs).1).
  { intros ci cs0. unfold ts_of.
    pose proof (card_read_kept ci PWFPGA_REG_GPIO_SYNC_TS_LOW cs0 ltac:(by split)) as H1.
    destruct (card_read ops ci _ cs0) as [cs1 lo].
    pose proof (card_read_kept ci PWFPGA_REG_GPIO_SYNC_TS_HIGH cs1 ltac:(by split)) as H2.
    destruct (card_read ops ci _ cs1) as [cs2 hi]. by etransitivity. }
  assert (Htry : forall cs, kept_all cs (sync_try (card_read ops tx) (card_read ops rx) cs).1).
  { intros cs0. unfold sync_try.
    pose proof (fun ci cs => card_read_kept ci PWFPGA_REG_GPIO_SYNC_SEQ cs ltac:(by split)) as Hseq.
    pose proof (Hseq tx cs0) as K1. destruct (card_read ops tx _ cs0) as [cs1 v1].
    pose proof (Hseq rx cs1) as K2. destruct (card_read ops rx _ cs1) as [cs2 v2].
    pose proof (Hts tx cs2) as K3. destruct (ts_of _ cs2) as [cs3 v3].
    pose proof (Hts rx cs3) as K4. destruct (ts_of _ cs3) as [cs4 v4].
    pose proof (Hseq tx cs4) as K5. destruct (card_read ops tx _ cs4) as [cs5 v5].
    pose proof (Hseq rx cs5) as K6. destruct (card_read ops rx _ cs5) as [cs6 v6].
    simpl in *. by repeat (etransitivity; [eassumption|]). }
  generalize 8%nat as n. intros n. revert cs. induction n as [|n IH]; intros cs; [reflexivity|].
  simpl. pose proof (Htry cs) as H1. destruct (sync_try _ _ cs) as [cs1 [o|]]; [done|].
  etransitivity; [exact H1|apply IH].
Qed.

(** ** Sync set-up, servo and priming *)

Lemma fold_kept {A} (f : cards_t -> A -> cards_t) l : forall cs,
  (forall cs x, x ∈ l -> kept_all cs (f cs x)) -> kept_all cs (fold_left f l cs).
Proof.
  induction l as [|x l IH]; intros cs Hf; simpl; [reflexivity|].
  etransitivity; [apply Hf; left|]. apply IH. intros. apply Hf. by right.
Qed.

Lemma setup_kept cfg prog cs : kept_all cs (setup_gpio_sync ops cfg prog cs).
Proof.
  unfold setup_gpio_sync. destruct (fst <$> _) as [mci|]; [|reflexivity].
  apply fold_kept. intros cs1 ci _. destruct (negb _); [reflexivity|]. apply on_ctx_kept.
  intros c. repeat case_match; apply wr_reg_kept, gpio_ctrl_off.
Qed.

(** The slots the servo may write are slots. *)
Definition slots_ok (prog : pw_program) : Prop :=
  forall m, m ∈ p_flow_meta prog -> m_rx_slot_valid m = true -> 0 <= m_rx_local_flow_id m.

Lemma servo_cards_valid cfg cs m p : servo_cards (C := C) cfg cs m = Some p -> m_rx_slot_valid m = true.
Proof. unfold servo_cards. by destruct (m_rx_slot_valid m). Qed.

Lemma corr_kept ci slot corr (cs : cards_t) : 0 <= slot -> kept_all cs (write_correction ops ci slot corr cs).
Proof. intros. apply on_ctx_kept. intros. by apply correction_kept. Qed.

Lemma servo_kept cal cfg prog cs : slots_ok prog -> kept_all cs (servo_lat_correction ops cal cfg prog cs).
Proof.
  intros Hs. apply fold_kept. intros cs1 m Hm. unfold servo_one.
  destruct (servo_cards cfg cs1 m) as [[tx rx]|] eqn:Hv; [|reflexivity].
  apply servo_cards_valid in Hv. pose proof (offset_kept tx rx cs1) as Ho.
  destruct (card_offset ops tx rx cs1) as [cs2 [corr|]]; [|done].
  etransitivity; [exact Ho|]. apply corr_kept. auto.
Qed.

Lemma converged_kept cfg ms : forall cs, kept_all cs (servo_converged ops cfg ms cs).1.
Proof.
  induction ms as [|m ms IH]; intros cs; simpl; [reflexivity|].
  destruct (servo_cards cfg cs m) as [[tx rx]|]; [|apply IH].
  pose proof (offset_kept tx rx cs) as Ho. destruct (card_offset ops tx rx cs) as [cs2 [corr|]]; [|done].
  etransitivity; [exact Ho|apply IH].
Qed.

Lemma prime_try_kept n cal tx rx m : 0 <= m_rx_local_flow_id m -> forall cs,
  kept_all cs (prime_try ops n cal tx rx m cs).1.
Proof.
  intros Hm. induction n as [|n IH]; intros cs; simpl; [reflexivity|].
  pose proof (offset_kept tx rx cs) as Ho. destruct (card_offset ops tx rx cs) as [cs2 [corr|]].
  - etransitivity; [exact Ho|by apply corr_kept].
  - etransitivity; [exact Ho|apply IH].
Qed.

Lemma prime_one_kept cal cfg s m : (m_rx_slot_valid m = true -> 0 <= m_rx_local_flow_id m) ->
  kept_all (ps_cards s) (ps_cards (prime_one ops cal cfg s m)).
Proof.
  intros Hm. unfold prime_one. destruct (m_rx_slot_valid m); cbn [negb]; [|reflexivity].
  specialize (Hm eq_refl).
  destruct (card_idx_by_id cfg (m_rx_card_id m)) as [rx|]; [|reflexivity].
  destruct (negb _); [reflexivity|]. destruct (negb (cross_card m)); [by apply corr_kept|].
  destruct (card_idx_by_id cfg (m_tx_card_id m)) as [tx|]; [|reflexivity].
  destruct (negb _); [reflexivity|].
  pose proof (prime_try_kept 200 cal tx rx m Hm (ps_cards s)) as Hk.
  destruct (prime_try ops 200 cal tx rx m (ps_cards s)) as [cs wrote]. exact Hk.
Qed.

Lemma prime_kept cal cfg prog cs : slots_ok prog -> kept_all cs (prime_lat_correction ops cal cfg prog cs).
Proof.
  intros Hs. unfold prime_lat_correction.
  assert (forall l s, (forall m, m ∈ l -> m_rx_slot_valid m = true -> 0 <= m_rx_local_flow_id m) ->
    kept_all (ps_cards s) (ps_cards (fold_left (prime_one ops cal cfg) l s))) as Hfold.
  { induction l as [|m l IH]; intros s Hl; simpl; [reflexivity|].
    etransitivity; [apply prime_one_kept, Hl; left|]. apply IH. intros. apply Hl; [by right|done]. }
  etransitivity; [exact (Hfold _ {| ps_cards := cs; ps_cross := ∅; ps_bad := ∅ |} Hs)|].
  apply fold_kept. intros cs1 ci _. destruct (_ && _); [|reflexivity].
  apply on_ctx_kept. intros. apply wr_reg_kept, clear_off.
Qed.

Lemma clear_kept cfg cs : kept_all cs (clear_cards ops cfg cs).1.
Proof.
  unfold clear_cards. generalize (0, 0) as n. revert cs.
  induction (seq 0 (length (cfg_cards cfg))) as [|ci l IH]; intros cs n; cbn [fold_left]; [reflexivity|].
  assert (kept_all cs (clear_one ops (cs, n) ci).1) as H1.
  { destruct n as [ch fa]. unfold clear_one. destruct (cs !! ci) as [cr|] eqn:Hci; [|reflexivity].
    rewrite csr_write_op. destruct (cr_open cr); [|reflexivity].
    pose proof (wr_reg_kept PWFPGA_REG_STATS_CLEAR 1 (cr_ctx cr) clear_off) as Hk. unfold wr_reg in Hk.
    rewrite csr_write_op in Hk. destruct (csr_write _ 1 (cr_ctx cr)) as [c st]. by apply kept_insert. }
  destruct (clear_one ops (cs, n) ci) as [cs1 n1]. etransitivity; [exact H1|apply IH].
Qed.

(** ** Programming a card *)

Lemma run_all_inv (P : C -> Prop) calls : forall c, P c ->
  (forall call c, call ∈ calls -> P c -> P (call c).1) -> P (run_all calls c).1.
Proof.
  induction calls as [|call calls IH]; intros c Hc Hcalls; simpl; [done|].
  assert (P (call c).1) as H1 by (apply Hcalls; [left|done]). destruct (call c) as [c1 s]. simpl in H1.
  assert (P (run_all calls c1).1) as H2 by (apply IH; [done|]; intros; apply Hcalls; [by right|done]).
  by destruct (run_all calls c1).
Qed.

(** In order, with the identity [info]. *)
Definition in_order (info : option pw_card_info) (c : C) : Prop := card_ok c /\ (probe_info ops c).2 = info.
Definition settled (c : C) : Prop :=
  forall i, 0 <= i < PWFPGA_FLOW_TABLE_ROWS -> fl_staged c i = fl_live c i.

Lemma in_order_row info r f c : 0 <= r < PWFPGA_FLOW_TABLE_ROWS -> in_order info c ->
  in_order info (fl_write r f c).1.
Proof.
  intros Hr [[Hc Hf] Hi]. destruct (fl_write_law r f c Hf Hr) as (_ & Hf' & _).
  destruct (dc_row r f c (conj Hc Hf) Hr) as [_ Hi']. split; [split; [by apply ct_flow_frame|done]|congruence].
Qed.
Lemma in_order_commit info c : in_order info c -> in_order info (fl_commit c).1 /\ settled (fl_commit c).1.
Proof.
  intros [[Hc Hf] Hi]. destruct (fl_commit_law c Hf) as (_ & Hf' & Hl).
  destruct (dc_commit c (conj Hc Hf)) as (_ & Hs & Hi'). split.
  - split; [split; [by apply ct_commit_frame|done]|congruence].
  - intros i Hi0. by rewrite Hs, Hl.
Qed.
Lemma in_order_write info off v c : csr_off_ok off -> in_order info c -> in_order info (csr_write off v c).1.
Proof.
  intros Ho [[Hc Hf] Hi]. destruct (csr_write_law off v c Hc Ho) as (_ & Hc' & _).
  destruct (ct_write_frame off v c Hc Hf Ho) as [Hf' _]. destruct (dc_write off v c (conj Hc Hf) Ho) as [_ Hi'].
  split; [by split|congruence].
Qed.
Lemma settled_write off v c : csr_off_ok off -> card_ok c -> settled c -> settled (csr_write off v c).1.
Proof.
  intros Ho Hok Hs i Hi. destruct Hok as [Hc Hf]. destruct (ct_write_frame off v c Hc Hf Ho) as [_ Hl].
  destruct (dc_write off v c (conj Hc Hf) Ho) as [Hst _]. rewrite Hst, Hl by done. auto.
Qed.

Lemma program_settled cp c : deployable cp -> card_ok c -> has_room ops cp c ->
  let c' := (pw_program_card_tables_diag ops cp c).1 in
  in_order (probe_info ops c).2 c' /\ settled c'.
Proof.
  intros [Hf Ht Hk] Hok Hr. destruct Hok as [Hc Hl]. rewrite diag_run by done.
  rewrite (probe_info_ctx ops c Hc Hl), run_calls_run.
  assert (Hall : all_calls ops cp (probe_info ops c).2 =
    ((fun r => fl_write r (row_image cp r)) <$> seqZ 0 (flow_row_count cp (probe_info ops c).2)) ++
    [fl_commit] ++ ((fun ov => csr_write ov.1 ov.2) <$> table_writes cp)).
  { unfold all_calls, row_calls, commit_calls, table_calls.
    by rewrite csr_write_op, fl_write_op, fl_commit_op. }
  rewrite Hall. clear Hall.
  pose proof (row_count_fits cp (probe_info ops c).2 Hf) as Hn.
  set (info := (probe_info ops c).2) in *.
  set (rows := (fun r => fl_write r (row_image cp r)) <$> _).
  set (ws := (fun ov => csr_write ov.1 ov.2) <$> table_writes cp).
  assert (Hws : forall call, call ∈ ws -> exists ov, call = csr_write ov.1 ov.2 /\ ov ∈ table_writes cp)
    by (intros call; apply list_elem_of_fmap). clearbody ws.
  assert (H1 : in_order info (run_all rows c).1).
  { apply run_all_inv; [by split|]. intros call c0 (r & -> & Hr'%elem_of_seqZ)%list_elem_of_fmap Hin.
    apply in_order_row; [lia|done]. }
  rewrite !run_all_app. destruct (run_all rows c) as [c1 ss1]. simpl in *.
  destruct (in_order_commit info c1 H1) as [H2 S2]. destruct (fl_commit c1) as [c2 s2]. simpl in *.
  assert (H3 : in_order info (run_all ws c2).1 /\ settled (run_all ws c2).1).
  { apply (run_all_inv (fun c => in_order info c /\ settled c)); [by split|].
    intros call c0 (ov & -> & Hov)%Hws [Hi0 Hs0].
    assert (csr_off_ok ov.1) by by eapply table_writes_ok.
    split; [by apply in_order_write|]. apply settled_write; [done|apply Hi0|done]. }
  by destruct (run_all ws c2) as [c3 ss3].
Qed.

Lemma room_or cp info : room cp info \/ exists i, info = Some i /\ over_capacity cp i = true.
Proof.
  destruct info as [i|]; [|by left]. destruct (over_capacity cp i) eqn:Ho; [right; eauto|].
  left. intros j [= <-]. done.
Qed.

(** Programming a card: it takes the program exactly when it has room for it. *)
Lemma program_card cp c : deployable cp -> card_ok c ->
  let r := pw_program_card_tables_diag ops cp c in
  in_order (probe_info ops c).2 r.1 /\
  (room cp (probe_info ops c).2 -> r.2 = Ok tt /\ holds cp r.1) /\
  (~ room cp (probe_info ops c).2 -> exists e, r.2 = Err e).
Proof.
  intros Hd Hok. cbv zeta. destruct (room_or cp (probe_info ops c).2) as [Hr|(i & Hi & Ho)].
  - destruct (program_settled cp c Hd Hok Hr) as [[Hin Hinf] Hs].
    destruct (program_run ops cp c) as (H1 & H2 & H3 & H4 & H5); try done; try apply Hd; try apply Hok.
    split; [by split|]. split; [|done]. intros _. split; [done|]. split; rewrite ?Hinf; try done.
    intros k Hk. pose proof (row_count_fits cp (probe_info ops c).2 (dp_fits _ Hd)).
    split; [auto|apply Hs; lia].
  - unfold pw_program_card_tables_diag. rewrite (dp_fits _ Hd). simpl.
    pose proof (probe_info_ctx ops c (proj1 Hok) (proj2 Hok)) as Hp.
    destruct (probe_info ops c) as [c' info] eqn:Hpi. simpl in *. subst. rewrite Ho. simpl.
    split; [split; [done|by rewrite Hpi]|]. split; [|by eauto].
    intros Hr. specialize (Hr i eq_refl). congruence.
Qed.

(** ** Programming all cards *)

Definition all_ok (cs : cards_t) : Prop :=
  forall ci cr, cs !! ci = Some cr -> cr_open cr = true -> card_ok (cr_ctx cr).

(** The cards stay in order and keep their identity, whatever happens to their
    configuration. *)
Definition alike_card (a b : card_runtime) : Prop :=
  cr_open b = cr_open a /\ (card_ok (cr_ctx a) -> in_order (probe_info ops (cr_ctx a)).2 (cr_ctx b)).
Definition alike : cards_t -> cards_t -> Prop := Forall2 alike_card.

#[global] Instance alike_card_preorder : PreOrder alike_card.
Proof.
  split; [by intros a; split|]. intros a b c [O1 K1] [O2 K2]. split; [congruence|].
  intros Ha. destruct (K1 Ha) as [Hb Ib]. destruct (K2 Hb) as [Hc Ic]. split; [done|congruence].
Qed.
#[global] Instance alike_preorder : PreOrder alike.
Proof. split; unfold alike; apply _. Qed.

Lemma kept_alike cs cs' : kept_all cs cs' -> alike cs cs'.
Proof.
  intros H. eapply Forall2_impl; [exact H|]. intros a b [Ho Hk]. split; [done|].
  intros Ha. destruct (Hk Ha) as [Hb []]. by split.
Qed.

Lemma alike_lookup cs cs' ci cr' : alike cs cs' -> cs' !! ci = Some cr' ->
  exists cr, cs !! ci = Some cr /\ alike_card cr cr'.
Proof. intros H Hci. destruct (Forall2_lookup_r _ _ _ _ _ H Hci) as (cr & ? & ?). eauto. Qed.

Lemma all_ok_alike cs cs' : all_ok cs -> alike cs cs' -> all_ok cs'.
Proof.
  intros Hok Ha ci cr' Hci Ho. destruct (alike_lookup _ _ _ _ Ha Hci) as (cr & Hcr & [Ho' Hk]).
  apply Hk, (Hok ci); congruence.
Qed.

Lemma alike_insert (cs : cards_t) ci cr c : cs !! ci = Some cr ->
  (card_ok (cr_ctx cr) -> in_order (probe_info ops (cr_ctx cr)).2 c) -> alike cs (<[ci := set_ctx cr c]> cs).
Proof.
  intros Hci Hk. rewrite <- (list_insert_id cs ci cr) at 1 by done.
  by apply Forall2_insert; [reflexivity|split].
Qed.

Lemma program_one_spec cs worst ci cp : deployable cp -> all_ok cs ->
  let r := program_one ops (cs, worst) ci cp in
  alike cs r.1 /\ (forall j, j <> ci -> r.1 !! j = cs !! j) /\
  (worst <> None -> r.2 <> None) /\
  (worst = None -> (forall cr, cs !! ci = Some cr -> cr_open cr = true ->
     room cp (probe_info ops (cr_ctx cr)).2) -> r.2 = None) /\
  (r.2 = None -> forall cr, r.1 !! ci = Some cr -> cr_open cr = true -> holds cp (cr_ctx cr)).
Proof.
  intros Hd Hok. unfold program_one. destruct (cs !! ci) as [cr|] eqn:Hci.
  2: { cbn [fst snd]. split_and!; try done. intros _ cr Hcr. congruence. }
  destruct (cr_open cr) eqn:Ho; cbn [negb].
  2: { cbn [fst snd]. split_and!; try done. intros _ cr' Hcr' Ho'. congruence. }
  assert (Hc := Hok ci cr Hci Ho). rewrite csr_write_op.
  destruct (dc_ctl PWFPGA_REG_DP_RESET 1 (cr_ctx cr) Hc reset_off) as (Hst & Hc1 & Hsame).
  destruct (csr_write _ 1 (cr_ctx cr)) as [c1 st]. cbn [fst snd] in *. subst st.
  rewrite (bool_decide_eq_false_2 (PW_OK <> PW_OK)) by auto. cbn [andb].
  destruct (program_card cp c1 Hd Hc1) as (Hin & Hroom & Hno). rewrite (sc_info _ _ Hsame) in *.
  destruct (pw_program_card_tables_diag ops cp c1) as [c2 res]. cbn [fst snd] in *. split_and!.
  - by apply alike_insert.
  - intros j Hj. by rewrite list_lookup_insert_ne.
  - intros Hw. destruct res; [done|]. by destruct worst.
  - intros -> Hr. destruct (Hroom (Hr cr eq_refl Ho)) as [-> _]. done.
  - intros Hnone cr' Hcr' Ho'. rewrite list_lookup_insert_eq in Hcr' by (by eapply lookup_lt_Some).
    injection Hcr' as <-. cbn [set_ctx cr_ctx].
    destruct (room_or cp (probe_info ops (cr_ctx cr)).2) as [Hr|(i & Hi & Hov)]; [by apply Hroom|].
    destruct Hno as [e ->]; [intros Hr; specialize (Hr i Hi); congruence|]. by destruct worst.
Qed.

Lemma program_all_spec cps : forall ci cs worst, Forall deployable cps -> all_ok cs ->
  let r := program_all ops ci cps (cs, worst) in
  alike cs r.1 /\ (forall j, (j < ci)%nat -> r.1 !! j = cs !! j) /\
  (worst <> None -> r.2 <> None) /\
  (worst = None -> (forall k cp cr, cps !! k = Some cp -> cs !! (ci + k)%nat = Some cr -> cr_open cr = true ->
     room cp (probe_info ops (cr_ctx cr)).2) -> r.2 = None) /\
  (r.2 = None -> forall k cp cr, cps !! k = Some cp -> r.1 !! (ci + k)%nat = Some cr -> cr_open cr = true ->
     holds cp (cr_ctx cr)).
Proof.
  induction cps as [|cp cps IH]; intros ci cs worst Hd Hok; cbn [program_all].
  { split_and!; done. }
  apply Forall_cons in Hd as [Hcp Hd].
  destruct (program_one_spec cs worst ci cp Hcp Hok) as (A1 & E1 & W1 & N1 & H1).
  destruct (program_one ops (cs, worst) ci cp) as [cs1 w1]. cbn [fst snd] in *.
  destruct (IH (S ci) cs1 w1 Hd) as (A2 & E2 & W2 & N2 & H2); [by eapply all_ok_alike|].
  destruct (program_all ops (S ci) cps (cs1, w1)) as [cs2 w2]. cbn [fst snd] in *. split_and!.
  - by etransitivity.
  - intros j Hj. rewrite E2, E1 by lia. done.
  - auto.
  - intros -> Hr. apply N2.
    + apply N1; [done|]. intros cr Hcr Ho. apply (Hr 0%nat cp cr); [done| |done]. by rewrite Nat.add_0_r.
    + intros k cp' cr Hk Hcr Ho. apply (Hr (S k) cp' cr); [done| |done].
      rewrite <- E1 by lia. by rewrite Nat.add_succ_r, <- Nat.add_succ_l.
  - intros Hn k cp' cr Hk Hcr Ho. destruct k as [|k].
    + injection Hk as <-. rewrite Nat.add_0_r, E2 in Hcr by lia. apply H1; [|done|done].
      destruct w1; [|done]. by destruct (W2 ltac:(done)).
    + apply (H2 Hn k cp'); [done| |done]. by rewrite Nat.add_succ_r, <- Nat.add_succ_l in Hcr.
Qed.

(** ** The invariant *)

Record wf_prog (prog : pw_program) : Prop := {
  wp_dep : Forall deployable (p_per_card prog); wp_slots : slots_ok prog
}.

Definition synced (prog : pw_program) (cs : cards_t) : Prop :=
  forall ci cp cr, p_per_card prog !! ci = Some cp -> cs !! ci = Some cr -> cr_open cr = true ->
    holds cp (cr_ctx cr).

Definition fits_cards (prog : pw_program) (cs : cards_t) : Prop :=
  forall ci cp cr, p_per_card prog !! ci = Some cp -> cs !! ci = Some cr -> cr_open cr = true ->
    room cp (probe_info ops (cr_ctx cr)).2.

Lemma synced_fits prog cs : synced prog cs -> fits_cards prog cs.
Proof. intros H ci cp cr H1 H2 H3. by apply (H ci cp cr). Qed.

Lemma fits_alike prog cs cs' : all_ok cs -> fits_cards prog cs -> alike cs cs' -> fits_cards prog cs'.
Proof.
  intros Hok Hf Ha ci cp cr' Hcp Hcr' Ho. destruct (alike_lookup _ _ _ _ Ha Hcr') as (cr & Hcr & Ho' & Hk).
  rewrite Ho' in Ho. destruct (Hk (Hok ci cr Hcr Ho)) as [_ ->]. by apply (Hf ci).
Qed.

Lemma synced_kept prog cs cs' : wf_prog prog -> synced prog cs -> kept_all cs cs' -> synced prog cs'.
Proof.
  intros [Hd _] Hs Hk ci cp cr' Hcp Hcr' Ho.
  destruct (Forall2_lookup_r _ _ _ _ _ Hk Hcr') as (cr & Hcr & Ho' & Hkc).
  rewrite Forall_lookup in Hd. eapply kept_holds; [by eapply Hd|exact Hkc|]. apply (Hs ci); congruence.
Qed.

(** All cards programmed: they stay in order; they take the program when they
    have room for it; and success means every open card holds it. *)
Lemma backends_spec cal prog cfg cs : wf_prog prog -> all_ok cs ->
  let r := program_backends_diag ops cal prog cfg cs in
  alike cs r.1 /\ (fits_cards prog cs -> r.2 = None) /\ (r.2 = None -> synced prog r.1).
Proof.
  intros Hwf Hok. unfold program_backends_diag.
  destruct (program_all_spec (p_per_card prog) 0 cs None (wp_dep _ Hwf) Hok) as (A & _ & _ & N & H).
  destruct (program_all ops 0 (p_per_card prog) (cs, None)) as [cs1 w1]. cbn [fst snd] in *.
  assert (K : kept_all cs1 (prime_lat_correction ops cal cfg prog (setup_gpio_sync ops cfg prog cs1))).
  { etransitivity; [apply setup_kept|apply prime_kept, Hwf]. }
  split_and!.
  - etransitivity; [exact A|by apply kept_alike].
  - intros Hf. apply N; [done|]. intros k cp cr. apply Hf.
  - intros Hn. eapply synced_kept; [done| |exact K]. intros ci cp cr. by apply (H Hn ci).
Qed.

(** ** Switching a generator *)

Lemma programmed_rows cp rows reg : programmed cp reg -> programmed (set_rows cp rows) reg.
Proof. by intros []; constructor. Qed.

Lemma deployable_rows cp rows : length rows = length (cp_flow_rows cp) -> deployable cp ->
  deployable (set_rows cp rows).
Proof.
  intros Hl [Hf [Ht1 Ht2] [Hk1 Hk2]]. split.
  - revert Hf. unfold program_fits, n_rows. simpl. by rewrite Hl.
  - by split.
  - by split.
Qed.

Lemma n_rows_set cp rows : length rows = length (cp_flow_rows cp) -> n_rows (set_rows cp rows) = n_rows cp.
Proof. intros H. unfold n_rows. simpl. by rewrite H. Qed.

Lemma row_count_set cp rows info : length rows = length (cp_flow_rows cp) ->
  flow_row_count (set_rows cp rows) info = flow_row_count cp info.
Proof. intros H. unfold flow_row_count. by rewrite n_rows_set. Qed.

Lemma row_image_set cp row f i : (row < length (cp_flow_rows cp))%nat -> 0 <= i ->
  row_image (set_rows cp (<[row := f]> (cp_flow_rows cp))) i =
  if i =? Z.of_nat row then f else row_image cp i.
Proof.
  intros Hr Hi. unfold row_image. rewrite n_rows_set by apply length_insert. simpl.
  unfold n_rows. destruct (Z.eqb_spec i (Z.of_nat row)) as [->|Hne].
  - rewrite (proj2 (Z.ltb_lt _ _)) by lia. by rewrite Nat2Z.id, list_lookup_insert_eq.
  - by rewrite list_lookup_insert_ne by lia.
Qed.

(** Writing one row and committing. *)
Lemma row_write_spec cp row f c : deployable cp -> (row < length (cp_flow_rows cp))%nat -> card_ok c ->
  let w := fl_write (Z.of_nat row) f c in
  w.2 = PW_OK /\ (fl_commit w.1).2 = PW_OK /\ in_order (probe_info ops c).2 (fl_commit w.1).1 /\
  (holds cp c -> holds (set_rows cp (<[row := f]> (cp_flow_rows cp))) (fl_commit w.1).1).
Proof.
  intros Hd Hrow [Hc Hf]. destruct (program_fits_spec _ (dp_fits _ Hd)) as (Hn & _). unfold n_rows in Hn.
  assert (Hr : 0 <= Z.of_nat row < PWFPGA_FLOW_TABLE_ROWS) by (rewrite flow_table_rows_64 in *; lia).
  destruct (fl_write_law (Z.of_nat row) f c Hf Hr) as (Hs1 & Hf1 & Hst1).
  destruct (dc_row (Z.of_nat row) f c (conj Hc Hf) Hr) as [Hreg1 _].
  pose proof (in_order_row _ (Z.of_nat row) f c Hr (conj (conj Hc Hf) eq_refl)) as H1.
  cbv zeta. set (c1 := (fl_write (Z.of_nat row) f c).1) in *.
  destruct (fl_commit_law c1 Hf1) as (Hs2 & Hf2 & Hl2).
  destruct (dc_commit c1 (proj1 H1)) as (Hreg2 & Hst2 & _).
  destruct (in_order_commit _ c1 H1) as [H2 Hset]. split_and!; try done.
  intros [_ Hroom Hp Hrows]. destruct H2 as [Hok2 Hi2]. split.
  - done.
  - rewrite Hi2. intros i Hi. unfold over_capacity. rewrite n_rows_set by apply length_insert. by apply Hroom.
  - apply programmed_rows. eapply programmed_ext; [apply Hd|apply Hd| |exact Hp].
    intros o Ho. by rewrite Hreg2, Hreg1.
  - rewrite Hi2, row_count_set by apply length_insert. intros i Hi.
    pose proof (row_count_fits cp (probe_info ops c).2 (dp_fits _ Hd)).
    split; [|apply Hset; lia]. rewrite Hl2, Hst1, row_image_set by lia.
    destruct (i =? Z.of_nat row); [done|]. destruct (Hrows i Hi) as [<- ->]. done.
Qed.

Lemma row_at_some prog ci row f : row_at prog ci row = Some f ->
  exists cp, p_per_card prog !! ci = Some cp /\ cp_flow_rows cp !! row = Some f.
Proof. unfold row_at. intros (cp & ? & ?)%bind_Some. eauto. Qed.

Lemma set_row_cards prog ci row f cp : p_per_card prog !! ci = Some cp ->
  p_per_card (set_row prog ci row f) = <[ci := set_rows cp (<[row := f]> (cp_flow_rows cp))]> (p_per_card prog) /\
  p_flow_meta (set_row prog ci row f) = p_flow_meta prog.
Proof. intros H. unfold set_row. by rewrite H. Qed.

Lemma wf_set_row prog ci row f : wf_prog prog -> wf_prog (set_row prog ci row f).
Proof.
  intros [Hd Hs]. unfold set_row. destruct (p_per_card prog !! ci) as [cp|] eqn:Hcp; [|by split].
  split; [|done]. simpl. apply Forall_insert; [done|].
  apply deployable_rows; [apply length_insert|]. by eapply Forall_lookup_1.
Qed.

Lemma set_flow_enable_spec prog cs id en persist : wf_prog prog -> all_ok cs ->
  let r := set_flow_enable ops prog cs id en persist in
  alike cs r.1.2 /\ wf_prog r.1.1 /\ (persist = false -> r.1.1 = prog) /\
  p_flow_meta r.1.1 = p_flow_meta prog /\
  (persist = true -> synced prog cs -> synced r.1.1 r.1.2).
Proof.
  intros Hwf Hok. unfold set_flow_enable.
  destruct (find_tx_row prog id) as [[ci row]|]; [|cbn [fst snd]; by split_and!].
  destruct (cs !! ci) as [cr|] eqn:Hcr; [|cbn [fst snd]; by split_and!].
  destruct (row_at prog ci row) as [fc|] eqn:Hrow; [|cbn [fst snd]; by split_and!].
  destruct (cr_open cr) eqn:Ho; cbn [negb]; [|cbn [fst snd]; by split_and!].
  apply row_at_some in Hrow as (cp & Hcp & Hfc).
  assert (Hd : deployable cp) by (eapply Forall_lookup_1; [apply Hwf|exact Hcp]).
  assert (Hc := Hok ci cr Hcr Ho). rewrite fl_write_op, fl_commit_op.
  destruct (row_write_spec cp row (set_running fc en) (cr_ctx cr) Hd) as (S1 & S2 & Hin & Hho);
    [by eapply lookup_lt_Some|done|].
  destruct (fl_write _ _ (cr_ctx cr)) as [c1 s1]. cbn [fst snd] in *. subst s1.
  rewrite decide_True by done. destruct (fl_commit c1) as [c2 s2]. cbn [fst snd] in *. subst s2.
  rewrite bool_decide_eq_true_2 by done. cbn [andb].
  destruct (set_row_cards prog ci row (set_running fc en) cp Hcp) as [Hpc Hmeta]. split_and!.
  - by apply alike_insert.
  - destruct persist; [by apply wf_set_row|done].
  - by intros ->.
  - by destruct persist.
  - intros -> Hs k cpk crk. rewrite Hpc. destruct (decide (k = ci)) as [->|Hne].
    + rewrite !list_lookup_insert_eq by (by eapply lookup_lt_Some). intros [= <-] [= <-] _.
      apply Hho. by apply (Hs ci).
    + rewrite !list_lookup_insert_ne by done. apply Hs.
Qed.

(** ** The handlers *)

Abbreviation daemon_t := (@daemon C).

Record in_sync (d : daemon_t) : Prop := {
  is_wf : wf_prog (d_prog d); is_ok : all_ok (d_cards d); is_synced : synced (d_prog d) (d_cards d)
}.

(** What no handler changes but a load. *)
Definition same_view (d d' : daemon_t) : Prop :=
  d_cfg d' = d_cfg d /\ d_test_yaml d' = d_test_yaml d /\ d_cal d' = d_cal d.

Lemma in_sync_kept d cs : in_sync d -> kept_all (d_cards d) cs -> in_sync (set_cards d cs).
Proof.
  intros [Hw Ho Hs] Hk. split; simpl; [done| |by eapply synced_kept].
  eapply all_ok_alike; [done|by apply kept_alike].
Qed.

Lemma enable_flows_spec persist en d : wf_prog (d_prog d) -> all_ok (d_cards d) ->
  let d' := (enable_flows ops persist en d).1 in
  same_view d d' /\ alike (d_cards d) (d_cards d') /\ wf_prog (d_prog d') /\
  (persist = false -> d_prog d' = d_prog d) /\
  (persist = true -> synced (d_prog d) (d_cards d) -> synced (d_prog d') (d_cards d')).
Proof.
  intros Hw Ho. unfold enable_flows. generalize (0, 0) as n. generalize (p_flow_meta (d_prog d)) as ms.
  intros ms. revert d Hw Ho. induction ms as [|m ms IH]; intros d Hw Ho n; cbn [fold_left].
  { cbn [fst]. split_and!; done. }
  destruct (set_flow_enable_spec (d_prog d) (d_cards d) (m_global_flow_id m) en persist Hw Ho)
    as (A & W & P & _ & S).
  destruct n as [ch fa]. destruct (set_flow_enable ops _ _ _ en persist) as [[prog cs] s].
  cbn [fst snd] in *.
  set (d1 := {| d_cfg := d_cfg d; d_prog := prog; d_cards := cs; d_test_yaml := d_test_yaml d; d_cal := d_cal d |}).
  specialize (IH d1 W (all_ok_alike _ _ Ho A)
    (if decide (s = PW_OK) then (ch + 1, fa) else (ch, fa + 1))).
  destruct IH as ((V1 & V2 & V3) & A' & W' & P' & S').
  split_and!; try done.
  - by etransitivity.
  - intros Hp. rewrite P' by done. by apply P.
  - intros Hp Hs. apply S'; [done|]. by apply S.
Qed.

Lemma set_flow_enable_restaged prog (cs : cards_t) id en persist :
  restaged prog (set_flow_enable ops prog cs id en persist).1.1.
Proof.
  unfold set_flow_enable. destruct (find_tx_row prog id) as [[ci row]|]; [|done].
  destruct (cs !! ci) as [cr|]; [|done]. destruct (row_at prog ci row) as [fc|] eqn:Hr; [|done].
  destruct (negb _); [done|]. repeat (destruct (match _ with Some _ => _ | None => _ end) as [? ?]).
  cbn [fst snd]. destruct (_ && _); [|done]. split; [by eapply set_row_key|apply set_row_bare].
Qed.

Lemma enable_flows_restaged persist en (d : daemon_t) :
  restaged (d_prog d) (d_prog (enable_flows ops persist en d).1).
Proof.
  unfold enable_flows. generalize (0, 0) as n. generalize (p_flow_meta (d_prog d)) as ms.
  intros ms. revert d. induction ms as [|m ms IH]; intros d n; cbn [fold_left]; [done|].
  pose proof (set_flow_enable_restaged (d_prog d) (d_cards d) (m_global_flow_id m) en persist) as H1.
  destruct n as [ch fa]. destruct (set_flow_enable ops _ _ _ en persist) as [[prog cs] s].
  cbn [fst snd] in *. etransitivity; [exact H1|].
  apply (IH {| d_cfg := d_cfg d; d_prog := prog; d_cards := cs; d_test_yaml := d_test_yaml d; d_cal := d_cal d |}).
Qed.
(** A request that leaves the configuration alone. *)
Record keeps (d d' : daemon_t) : Prop := {
  kp_sync : in_sync d'; kp_view : same_view d d';
  kp_prog : restaged (d_prog d) (d_prog d'); kp_cards : alike (d_cards d) (d_cards d')
}.

Lemma keeps_kept d d' cs : keeps d d' -> kept_all (d_cards d') cs -> keeps d (set_cards d' cs).
Proof.
  intros [Hs Hv Hp Hl] Hk. split; [by apply in_sync_kept|done|done|].
  simpl. etransitivity; [exact Hl|by apply kept_alike].
Qed.

Lemma keeps_refl d : in_sync d -> keeps d d.
Proof. by split. Qed.

Lemma enable_flows_keeps en d : in_sync d -> keeps d (enable_flows ops true en d).1.
Proof.
  intros [Hw Ho Hs]. destruct (enable_flows_spec true en d Hw Ho) as (V & A & W & _ & S). split.
  - split; [done|by eapply all_ok_alike|by apply S].
  - done.
  - apply enable_flows_restaged.
  - done.
Qed.

Lemma arm_keeps d : in_sync d ->
  let r := program_backends_diag ops (d_cal d) (d_prog d) (d_cfg d) (d_cards d) in
  r.2 = None /\ keeps d (set_cards d r.1).
Proof.
  intros [Hw Ho Hs]. destruct (backends_spec (d_cal d) (d_prog d) (d_cfg d) (d_cards d) Hw Ho) as (A & N & S).
  specialize (N (synced_fits _ _ Hs)). split; [done|]. split; try done.
  split; [done|by eapply all_ok_alike|by apply S].
Qed.

Lemma rpc_test_body_keeps a d : in_sync d -> keeps d (rpc_test_body ops a d).1.1.
Proof.
  intros Hd. destruct a; unfold rpc_test_body.
  - pose proof (enable_flows_keeps true d Hd) as Hk.
    destruct (enable_flows ops true true d) as [d1 [ch fa]]. cbn [fst snd] in *.
    destruct (fa =? 0); cbn [fst snd]; [|done]. apply keeps_kept; [done|].
    etransitivity; [apply prime_kept, Hk|apply clear_kept].
  - pose proof (enable_flows_keeps false d Hd) as Hk.
    by destruct (enable_flows ops true false d) as [d1 [ch fa]].
  - destruct (arm_keeps d Hd) as [N K]. destruct (program_backends_diag ops _ _ _ _) as [cs w].
    cbn [fst snd] in *. subst w. pose proof (clear_kept (d_cfg d) cs) as Hk.
    destruct (clear_cards ops (d_cfg d) cs) as [cs1 n]. cbn [fst snd] in *.
    exact (keeps_kept d (set_cards d cs) cs1 K Hk).
Qed.

Lemma rpc_test_keeps a d : in_sync d -> keeps d (rpc_test ops a d).1.
Proof.
  intros Hd. unfold rpc_test. pose proof (rpc_test_body_keeps a d Hd) as Hb.
  destruct (rpc_test_body ops a d) as [[d1 [ch fa]] pr]. cbn [fst snd] in Hb.
  pose proof (converged_kept (d_cfg d1) (p_flow_meta (d_prog d1)) (d_cards d1)) as Hk.
  destruct a; cbn [fst snd]; try done;
    (destruct (servo_converged ops _ _ _) as [cs conv]; by apply keeps_kept).
Qed.

Lemma rpc_stats_clear_keeps d : in_sync d -> keeps d (rpc_stats_clear ops d).1.
Proof.
  intros Hd. unfold rpc_stats_clear. pose proof (clear_kept (d_cfg d) (d_cards d)) as Hk.
  destruct (clear_cards ops _ _) as [cs n]. apply keeps_kept; [by apply keeps_refl|done].
Qed.

Lemma servo_tick_keeps d : in_sync d -> keeps d (servo_tick ops d).
Proof. intros Hd. apply keeps_kept; [by apply keeps_refl|]. apply servo_kept, Hd. Qed.

Lemma rpc_flow_keeps id en d : in_sync d -> keeps d (rpc_flow ops id en d).1.
Proof.
  intros [Hw Ho Hs]. unfold rpc_flow.
  destruct (set_flow_enable_spec (d_prog d) (d_cards d) (u32 id) en true Hw Ho) as (A & W & _ & _ & S).
  pose proof (set_flow_enable_restaged (d_prog d) (d_cards d) (u32 id) en true) as R.
  destruct (set_flow_enable ops _ _ _ _ _) as [[prog cs] s]. cbn [fst snd] in *. split; try done.
  split; [done|by eapply all_ok_alike|by apply S].
Qed.
End Sync.
