(* ===== verification/DaemonClaims.v ===== *)
(** * The daemon's guarantees

    Startup establishes, and every request and servo pass keeps, the daemon's
    invariant: the running configuration is typed and compiles, the staged program
    is that compilation up to the run-state of its generators, and every open card
    holds exactly the staged program. On top of it: what a load does and does not
    change, and that starting or stopping a test acts on every flow. *)

From S2P Require Import Prelude Types Config Validate Csr FlowCompiler Samples CompilerInv CompilerFlows CompilerProps.
From S2P Require Import Backend Programming ProgrammingProps Deploy GpioSync FlowRow Scalar Yaml ConfigParse ReaderProps Daemon RunState DaemonProps.

(** ** Programs and their run-state *)

Lemma compiled_wf cfg p : compiled cfg p -> (forall f, f ∈ cfg_flows cfg -> 0 <= f_id f) -> wf_prog p.
Proof.
  intros Hc Hids. split.
  - apply Forall_forall. intros cp Hcp. destruct (compiled_deployable _ _ _ Hc Hcp Hids) as (? & ? & Hr).
    split; [done|done|apply Hr].
  - intros m [j Hj]%list_elem_of_lookup Hv.
    destruct (lookup_lt_is_Some_2 (cfg_flows cfg) j) as [f Hf].
    { rewrite <- (cm_len _ _ Hc). by eapply lookup_lt_Some. }
    destruct (compiled_meta cfg p j f Hc Hf) as (m' & ? & ? & ? & ? & Hm' & _ & _ & _ & _ & _ & _ & _ & H).
    simplify_eq. auto.
Qed.

Lemma wf_stage b p : wf_prog p -> wf_prog (stage_flow_run_state p b).
Proof.
  unfold stage_flow_run_state. generalize (p_flow_meta p) as ms. intros ms. revert p.
  induction ms as [|m ms IH]; intros p Hp; cbn [fold_left]; [done|]. apply IH.
  unfold stage_one. repeat case_match; try done. by apply wf_set_row.
Qed.

Lemma read_ids cfg : read_config cfg -> forall f, f ∈ cfg_flows cfg -> 0 <= f_id f.
Proof.
  intros Hr f Hf. pose proof (proj1 (Forall_forall _ _) (rcf_flows _ Hr) f Hf) as Hrf.
  apply (wt_id _ (rf_wt _ Hrf)).
Qed.

Section Claims.
Context {C : Type} {ops : pw_card_backend_ops C} {DC : DaemonCard ops}.
Context (libyaml : string -> yaml_parser) `{InetPton}.

Abbreviation daemon_t := (@daemon C).

(** ** The invariant *)

Record daemon_inv (d : daemon_t) : Prop := {
  di_read : read_config (d_cfg d);
  di_prog : exists p, pw_flow_compile (d_cfg d) = Ok p /\ restaged p (d_prog d);
  di_cards : length (d_cards d) = length (cfg_cards (d_cfg d));
  di_sync : in_sync d
}.

Lemma alike_length (cs cs' : list (@card_runtime C)) : alike (ops := ops) cs cs' -> length cs' = length cs.
Proof. intros Hk. symmetry. by eapply Forall2_length. Qed.

Lemma keeps_inv d d' : daemon_inv d -> keeps d d' -> daemon_inv d'.
Proof.
  intros [Hr (p & Hp & Hrs) Hl Hs] [Ks (Kc & _) Kp Kl]. split; rewrite ?Kc; try done.
  - exists p. split; [done|by etransitivity].
  - by rewrite (alike_length _ _ Kl).
Qed.

Lemma parse_read (y : yaml_parser) flags cfg : pw_config_parse_string_ex y flags pw_config_new = Ok cfg ->
  read_config cfg.
Proof.
  unfold pw_config_parse_string_ex. destruct (pw_yaml_parse y) as [root|[]]; [|done].
  apply parse_root_read. split; simpl; try constructor; try lia; constructor.
Qed.

Lemma merged_read cfg payload : read_config cfg -> read_config payload -> read_config (merged_cfg cfg payload).
Proof. intros [] []. by split. Qed.

(** What the checks before the first card is touched establish. *)
Lemma load_prepare_ok cfg y new_cfg q : read_config cfg -> load_prepare libyaml cfg y = Ok (new_cfg, q) ->
  exists payload p, new_cfg = merged_cfg cfg payload /\ read_config new_cfg /\
    pw_flow_compile new_cfg = Ok p /\ q = stage_flow_run_state p false.
Proof.
  intros Hr. unfold load_prepare.
  destruct (pw_config_parse_string_ex _ _ _) as [payload|e] eqn:Hp; [|done]. apply parse_read in Hp.
  destruct (_ && _); [done|]. destruct (pw_config_validate _); [|done].
  destruct (pw_flow_compile (merged_cfg cfg payload)) as [p|] eqn:Hc; [|done].
  intros [= <- <-]. exists payload, p. split_and!; try done. by apply merged_read.
Qed.

Lemma stage_restaged b p : restaged p (stage_flow_run_state p b).
Proof. apply stage_rows. Qed.

Lemma compile_stage_wf cfg p b : read_config cfg -> pw_flow_compile cfg = Ok p ->
  wf_prog (stage_flow_run_state p b).
Proof.
  intros Hr Hc%pw_flow_compile_compiled. eapply wf_stage, compiled_wf; [done|]. by apply read_ids.
Qed.

(** Quiescing leaves the cards in order and with the room they had. *)
Lemma quiesce_ok d q : in_sync d -> fits_cards (ops := ops) q (d_cards d) ->
  let cs := d_cards (enable_flows ops false false d).1 in
  alike (d_cards d) cs /\ all_ok cs /\ fits_cards (ops := ops) q cs.
Proof.
  intros [Hw Ho Hs] Hf. destruct (enable_flows_spec false false d Hw Ho) as (_ & A & _).
  split_and!; [done|by eapply all_ok_alike|by eapply fits_alike].
Qed.

(** The environment half of the configuration. *)
Definition same_env (a b : pw_config) : Prop :=
  cfg_system a = cfg_system b /\ cfg_cards a = cfg_cards b /\ cfg_logical_if a = cfg_logical_if b.

Lemma load_spec (y : option string) (d : daemon_t) : daemon_inv d ->
  let r := do_config_load ops libyaml y d in
  daemon_inv r.1 /\ alike (ops := ops) (d_cards d) (d_cards r.1) /\ same_env (d_cfg r.1) (d_cfg d) /\
  match r.2 with
  | Err _ => d_cfg r.1 = d_cfg d /\ d_prog r.1 = d_prog d /\ d_test_yaml r.1 = d_test_yaml d
  | Ok (n_flows, _) => d_test_yaml r.1 = y /\ n_flows = length (cfg_flows (d_cfg r.1)) /\
      idle (d_prog r.1) /\
      exists p, pw_flow_compile (d_cfg r.1) = Ok p /\ d_prog r.1 = stage_flow_run_state p false
  end.
Proof.
  intros Hd. unfold do_config_load. destruct y as [y|]; [|by split_and!].
  destruct (load_prepare libyaml (d_cfg d) y) as [[nc q]|] eqn:Hp; [|by split_and!].
  destruct (load_prepare_ok _ _ _ _ (di_read _ Hd) Hp) as (payload & p & -> & Hr & Hc & ->).
  pose proof (compile_stage_wf _ p false Hr Hc) as Hw. pose proof (di_sync _ Hd) as [Hwd Hod Hsd].
  destruct (quiesce_ok d (d_prog d) (di_sync _ Hd) (synced_fits _ _ Hsd)) as (A0 & O0 & F0).
  set (cs0 := d_cards (enable_flows ops false false d).1) in *.
  destruct (backends_spec (d_cal d) (stage_flow_run_state p false) (merged_cfg (d_cfg d) payload) cs0 Hw O0)
    as (A1 & _ & S1).
  destruct (program_backends_diag ops _ _ (merged_cfg _ _) cs0) as [cs1 [e|]]; cbn [fst snd] in *.
  - assert (O1 : all_ok cs1) by (by eapply all_ok_alike).
    destruct (backends_spec (d_cal d) (d_prog d) (d_cfg d) cs1 Hwd O1) as (A2 & N2 & S2).
    specialize (N2 (fits_alike _ _ _ O0 F0 A1)).
    destruct (program_backends_diag ops _ _ _ cs1) as [cs2 rb]. cbn [fst snd] in *. subst rb.
    assert (A : alike (d_cards d) cs2) by (etransitivity; [exact A0|by etransitivity]).
    split_and!; try done. apply (keeps_inv d); [done|]. split; try done.
    split; [done|by eapply all_ok_alike|by apply S2].
  - split_and!; try done.
    2: by etransitivity.
    + split; cbn [d_cfg d_prog d_cards]; [done| | |].
      * exists p. split; [done|apply stage_restaged].
      * rewrite (alike_length _ _ A1), (alike_length _ _ A0). apply Hd.
      * split; [done|by eapply all_ok_alike|by apply S1].
    + eapply stage_idle, pw_flow_compile_compiled. exact Hc.
    + exists p. done.
Qed.


(** C18: [config.load] accepts what it should: a text that parses, matches the
    running topology, validates and compiles is installed whenever the open cards
    have rows for it. *)
Theorem config_load_accepts (y : string) (d : daemon_t) (nc : pw_config) (q : pw_program) :
  daemon_inv d -> load_prepare libyaml (d_cfg d) y = Ok (nc, q) ->
  fits_cards (ops := ops) q (d_cards d) ->
  let r := do_config_load ops libyaml (Some y) d in
  (exists n, r.2 = Ok n) /\ d_cfg r.1 = nc /\ d_prog r.1 = q.
Proof.
  intros Hd Hp Hf. unfold do_config_load. rewrite Hp.
  destruct (load_prepare_ok _ _ _ _ (di_read _ Hd) Hp) as (payload & p & -> & Hr & Hc & ->).
  destruct (quiesce_ok d _ (di_sync _ Hd) Hf) as (A0 & O0 & F0).
  destruct (backends_spec (d_cal d) _ (merged_cfg (d_cfg d) payload) _ (compile_stage_wf _ p false Hr Hc) O0)
    as (_ & N1 & _).
  specialize (N1 F0). destruct (program_backends_diag ops _ _ _ _) as [cs1 w]. cbn [fst snd] in *. subst w.
  split_and!; [eexists|..]; done.
Qed.
(** ** Startup and every later step *)

Definition all_open (cs : list (@card_runtime C)) : Prop := Forall (fun cr => cr_open cr = true) cs.

Lemma open_alike cs cs' : all_open cs -> alike (ops := ops) cs cs' -> all_open cs'.
Proof.
  unfold all_open. rewrite !Forall_lookup. intros Ho Ha i cr' Hi.
  destruct (alike_lookup _ _ _ _ Ha Hi) as (cr & Hcr & E & _). rewrite E. by eapply Ho.
Qed.

Lemma startup_cfg_ok env test cfg p : startup_cfg libyaml env test = Ok (cfg, p) ->
  read_config cfg /\ pw_flow_compile cfg = Ok p.
Proof.
  unfold startup_cfg. intros (cfg0 & H0 & H1)%bind_ok. apply parse_read in H0.
  apply bind_ok in H1 as (cfg1 & H1 & H2). apply bind_ok in H2 as ([] & _ & H2).
  apply bind_ok in H2 as (p1 & Hp & [= <- <-]). split; [|done].
  destruct test as [t|]; [|by injection H1 as <-].
  apply bind_ok in H1 as (tc & Ht & [= <-]). apply parse_read in Ht. destruct H0, Ht. by split.
Qed.

(** The backends a production daemon opens are cards in order. *)
Definition opens_ok (bar_open : string -> C * pw_status) : Prop :=
  forall pci c, bar_open pci = (c, PW_OK) -> card_ok c.

Lemma open_all_ok bar_open fake_open cfg : opens_ok bar_open ->
  (open_all_backends bar_open fake_open false cfg).2 = 0%nat ->
  let cs := (open_all_backends bar_open fake_open false cfg).1 in
  all_ok cs /\ all_open cs /\ length cs = length (cfg_cards cfg).
Proof.
  intros Hop Hn. unfold open_all_backends in *. cbn [fst snd] in *. apply nil_length_inv in Hn.
  assert (Hall : all_open (open_one bar_open fake_open false <$> cfg_cards cfg)).
  { apply Forall_forall. intros cr Hcr. destruct (cr_open cr) eqn:Ho; [done|].
    exfalso. apply (not_elem_of_nil cr). rewrite <- Hn. by apply list_elem_of_filter. }
  split_and!; [|done|by rewrite length_fmap].
  intros ci cr Hci Ho. rewrite list_lookup_fmap in Hci. apply fmap_Some in Hci as (card & _ & ->).
  unfold open_one in *. destruct (bar_open (card_pci card)) as [c br] eqn:Hb.
  rewrite andb_false_r in *. cbn in Ho |- *. apply bool_decide_eq_true in Ho as ->. by eapply Hop.
Qed.

Lemma startup_inv bar_open fake_open autostart cal env test d : opens_ok bar_open ->
  startup ops libyaml bar_open fake_open autostart false cal env test = Some d ->
  daemon_inv d /\ all_open (d_cards d).
Proof.
  intros Hop. unfold startup. destruct (startup_cfg libyaml env test) as [[cfg p]|] eqn:Hc; [|done].
  apply startup_cfg_ok in Hc as [Hr Hp]. pose proof (open_all_ok bar_open fake_open cfg Hop) as Ho.
  destruct (open_all_backends _ _ _ _) as [cs n]. cbn [fst snd negb] in *. rewrite !andb_true_r.
  destruct n as [|n]; [|done]. destruct (Ho eq_refl) as (Hok & Hall & Hl). cbn [Nat.ltb Nat.leb].
  set (q := if autostart then p else stage_flow_run_state p false).
  assert (Hq : restaged p q /\ wf_prog q).
  { unfold q. destruct autostart; [split; [done|]|split; [apply stage_restaged|by eapply compile_stage_wf]].
    eapply compiled_wf; [by apply pw_flow_compile_compiled|by apply read_ids]. }
  destruct Hq as [Hrs Hw]. destruct (backends_spec cal q cfg cs Hw Hok) as (A & _ & S).
  destruct (program_backends_diag ops cal q cfg cs) as [cs1 [e|]]; [done|]. cbn [fst snd] in *.
  intros [= <-]. split; [|by eapply open_alike]. split; cbn [d_cfg d_prog d_cards].
  - done.
  - by exists p.
  - by rewrite (alike_length _ _ A).
  - split; [done|by eapply all_ok_alike|by apply S].
Qed.

(** ** Starting and stopping a test *)

Lemma set_flow_enable_stage prog cs m en ci i cp : wf_prog prog -> all_ok cs -> all_open cs ->
  find_tx_row prog (m_global_flow_id m) = Some (ci, i) -> p_per_card prog !! ci = Some cp ->
  (ci < length cs)%nat ->
  let r := set_flow_enable ops prog cs (m_global_flow_id m) en true in
  r.1.1 = stage_one en prog m /\ r.2 = PW_OK.
Proof.
  intros Hwf Hok Hop Hf Hcp [cr Hcr]%lookup_lt_is_Some_2. unfold set_flow_enable, stage_one. rewrite Hf, Hcr.
  destruct (find_tx_row_row _ _ _ _ Hf) as (cp' & fc & Hcp' & Hfc & ->). simplify_eq.
  assert (Ho : cr_open cr = true) by (by eapply (proj1 (Forall_lookup _ _) Hop)).
  rewrite Ho, fl_write_op, fl_commit_op. cbn [negb].
  assert (Hd : deployable cp) by (eapply Forall_lookup_1; [apply Hwf|exact Hcp]).
  destruct (row_write_spec cp i (set_running fc en) (cr_ctx cr) Hd) as (S1 & S2 & _);
    [by eapply lookup_lt_Some|by eapply Hok|].
  destruct (fl_write _ _ (cr_ctx cr)) as [c1 s1]. cbn [fst snd] in *. subst s1.
  rewrite decide_True by done. destruct (fl_commit c1) as [c2 s2]. cbn [fst snd] in *. by subst s2.
Qed.
Lemma enable_all en ms : forall d n, in_sync d -> all_open (d_cards d) ->
  length (p_per_card (d_prog d)) = length (d_cards d) ->
  (forall m, m ∈ ms -> exists x, find_tx_row (d_prog d) (m_global_flow_id m) = Some x) ->
  let r := fold_left (fun '(d, (changed, failed)) m =>
    let '(prog, cards, s) := set_flow_enable ops (d_prog d) (d_cards d) (m_global_flow_id m) en true in
    ({| d_cfg := d_cfg d; d_prog := prog; d_cards := cards; d_test_yaml := d_test_yaml d; d_cal := d_cal d |},
     if decide (s = PW_OK) then (changed + 1, failed) else (changed, failed + 1))) ms (d, n) in
  d_prog r.1 = fold_left (stage_one en) ms (d_prog d) /\ r.2 = (n.1 + Z.of_nat (length ms), n.2).
Proof.
  induction ms as [|m ms IH]; intros d [ch fa] Hd Ho Hl Hf; cbn [fold_left].
  { cbn. split; [done|]. f_equal. lia. }
  destruct (Hf m) as [[ci i] Hm]; [left|]. destruct (find_tx_row_row _ _ _ _ Hm) as (cp & fc & Hcp & _).
  assert (Hci : (ci < length (d_cards d))%nat) by (rewrite <- Hl; by eapply lookup_lt_Some).
  pose proof Hd as [Hw Hok Hs].
  destruct (set_flow_enable_stage _ _ m en ci i cp Hw Hok Ho Hm Hcp Hci) as [P S].
  destruct (set_flow_enable_spec _ _ (m_global_flow_id m) en true Hw Hok) as (A & W & _ & _ & Sy).
  destruct (set_flow_enable ops _ _ _ en true) as [[prog cs] s]. cbn [fst snd] in *. subst prog s.
  rewrite decide_True by done. destruct (stage_one_rows en (d_prog d) m) as [[Hk Hb] _].
  set (d1 := {| d_cfg := d_cfg d; d_prog := stage_one en (d_prog d) m; d_cards := cs;
                d_test_yaml := d_test_yaml d; d_cal := d_cal d |}).
  destruct (IH d1 (ch + 1, fa)) as [IH1 IH2].
  - split; [done|by eapply all_ok_alike|by apply Sy].
  - by eapply open_alike.
  - simpl. rewrite (alike_length _ _ A), <- Hl. apply (f_equal length) in Hb. unfold bare in Hb.
    by rewrite !length_fmap in Hb.
  - intros m' Hm'. simpl. rewrite (find_tx_row_key _ (d_prog d)) by done. apply Hf. by right.
  - split; [exact IH1|]. rewrite IH2. simpl. f_equal. lia.
Qed.

Lemma inv_found d : daemon_inv d -> forall m, m ∈ p_flow_meta (d_prog d) ->
  exists x, find_tx_row (d_prog d) (m_global_flow_id m) = Some x.
Proof.
  intros [_ (p & Hp%pw_flow_compile_compiled & Hrs) _ _] m Hm.
  destruct (restaged_find _ _ _ _ Hp Hrs Hm) as (ci & i & _ & _ & H1 & _). eauto.
Qed.

Lemma inv_lengths d : daemon_inv d ->
  length (p_per_card (d_prog d)) = length (d_cards d) /\
  length (p_flow_meta (d_prog d)) = length (cfg_flows (d_cfg d)).
Proof.
  intros [_ (p & Hp%pw_flow_compile_compiled & [Hk Hb]) Hl _]. injection Hk as Hm _. rewrite Hm.
  split; [|apply Hp]. rewrite Hl. apply (f_equal length) in Hb. unfold bare in Hb.
  rewrite !length_fmap in Hb. rewrite Hb. pose proof (f_equal length (cm_ids _ _ Hp)) as Hi.
  unfold card_ids in Hi. by rewrite !length_fmap in Hi.
Qed.

Lemma enable_flows_all en d : daemon_inv d -> all_open (d_cards d) ->
  let r := enable_flows ops true en d in
  d_prog r.1 = stage_flow_run_state (d_prog d) en /\ r.2 = (Z.of_nat (length (cfg_flows (d_cfg d))), 0).
Proof.
  intros Hd Ho. destruct (inv_lengths d Hd) as (Hl & <-).
  apply (enable_all en (p_flow_meta (d_prog d)) d (0, 0)); [apply Hd|done|done|by apply inv_found].
Qed.

Lemma prog_of_test a d : d_prog (rpc_test ops a d).1 = d_prog (rpc_test_body ops a d).1.1 /\
  tr_changed (rpc_test ops a d).2 = (rpc_test_body ops a d).1.2.1 /\
  tr_failed (rpc_test ops a d).2 = (rpc_test_body ops a d).1.2.2.
Proof.
  unfold rpc_test. destruct (rpc_test_body ops a d) as [[d1 [ch fa]] pr].
  destruct a; try (destruct (servo_converged ops _ _ _)); done.
Qed.

(** C19: on a daemon with its cards open, [test.start] and [test.stop] act on every
    flow and report so: each flow of the configuration is then running (or not) in
    the staged program, which is the previous one with that run-state staged, and
    the reply counts all of them changed and none failed. *)
Theorem test_switches_every_flow (start : bool) (d : daemon_t) :
  daemon_inv d -> all_open (d_cards d) ->
  let r := rpc_test ops (if start then TestStart else TestStop) d in
  daemon_inv r.1 /\ d_prog r.1 = stage_flow_run_state (d_prog d) start /\
  tr_changed r.2 = Z.of_nat (length (cfg_flows (d_cfg d))) /\ tr_failed r.2 = 0 /\
  forall f, f ∈ cfg_flows (d_cfg d) -> flow_enabled (d_prog r.1) (f_id f) = start.
Proof.
  intros Hd Ho r. destruct (enable_flows_all start d Hd Ho) as [HP HN].
  destruct (prog_of_test (if start then TestStart else TestStop) d) as (Q & R1 & R2).
  assert (HB : d_prog r.1 = stage_flow_run_state (d_prog d) start /\
    tr_changed r.2 = Z.of_nat (length (cfg_flows (d_cfg d))) /\ tr_failed r.2 = 0).
  { unfold r. rewrite Q, R1, R2. destruct start; unfold rpc_test_body;
      destruct (enable_flows ops true _ d) as [d1 [ch fa]]; cbn [fst snd] in *; simplify_eq; done. }
  destruct HB as (P & R3 & R4). split_and!; try done.
  - eapply keeps_inv; [done|]. apply rpc_test_keeps, Hd.
  - intros f [j Hj]%list_elem_of_lookup. rewrite P.
    destruct (di_prog _ Hd) as (p & Hp%pw_flow_compile_compiled & [Hk _]).
    destruct (compiled_find_row _ p j f Hp Hj) as (m & ci & i & _ & Hm & Hid & Hf & _).
    assert (Hmq : p_flow_meta (d_prog d) = p_flow_meta p) by (by injection Hk).
    rewrite <- Hid in *. eapply stage_enabled.
    + rewrite Hmq. by eapply list_elem_of_lookup_2.
    + by rewrite (find_tx_row_key _ p).
Qed.
End Claims.
