(* ===== verification/BarDaemon.v ===== *)
(** * The BAR backend as a daemon's card

    Over an FPGA whose control registers act on counters, sync and latency only
    ([ControlDevice]), the operations of [BackendBar] are a [DaemonProps.DaemonCard],
    and a card that maps its whole CSR window is in order once attached. *)

From S2P Require Import Prelude Types Config Csr Backend Programming Dma BackendBar BarSafety BarTables.
From S2P Require Import ProgrammingProps GpioSync DaemonProps.

(** An identity register, below the end of the identity block. *)
Definition id_off (off : Z) : Prop := 0 <= off <= PWFPGA_REG_NUM_HIST_BINS.

(** The documented behaviour beyond [CardDevice]: identity registers are
    constant, control writes and reads leave words and live rows alone. *)
Class ControlDevice {D : Type} (dev : bar_dev D) (co : Z) {CD : CardDevice dev co} := {
  xd_id : forall off v d o, host_word off \/ off = PWFPGA_REG_FLOW_COMMIT \/ ctl_off off -> id_off o ->
    (bd_rd dev (co + o) (bd_wr dev (co + off) v d)).2 = (bd_rd dev (co + o) d).2;
  xd_ctl : forall off v d, ctl_off off ->
    (forall o, host_word o -> cd_word (bd_wr dev (co + off) v d) o = cd_word d o) /\
    (forall r, 0 <= r < PWFPGA_FLOW_TABLE_ROWS -> cd_live (bd_wr dev (co + off) v d) r = cd_live d r);
  xd_read : forall off d, read_off off ->
    (forall o, host_word o -> cd_word (bd_rd dev (co + off) d).1 o = cd_word d o) /\
    (forall r, 0 <= r < PWFPGA_FLOW_TABLE_ROWS -> cd_live (bd_rd dev (co + off) d).1 r = cd_live d r) /\
    (forall o, id_off o -> (bd_rd dev (co + o) (bd_rd dev (co + off) d).1).2 = (bd_rd dev (co + o) d).2)
}.

(** The control registers as numbers. *)
Ltac ctl_cases H :=
  destruct H as [->|[->|[->|[->|[->|[?|(? & ? & ? & ? & ->)]]]]]];
  rewrite ?flow_table_rows_64 in *; csr;
  unfold PWFPGA_REG_GPIO_SYNC_CTRL, PWFPGA_REG_LAT_CORRECTION_BASE, PWFPGA_REG_SFP_I2C, PWFPGA_WIN_FC_CMP,
    PWFPGA_WIN_SPI_FLASH in *.

Lemma ctl_bound off : ctl_off off -> 0 <= off /\ off + 4 <= 0x10000.
Proof. intros H. ctl_cases H; lia. Qed.
Lemma ctl_not_host off : ctl_off off -> ~ host_word off.
Proof.
  unfold host_word, csr_off_ok, PWFPGA_FLOWID_MAP_DEPTH, PWFPGA_WIN_FC_CMP. intros H. ctl_cases H; lia.
Qed.
Lemma ctl_not_commit off : ctl_off off -> off <> PWFPGA_REG_FLOW_COMMIT.
Proof. intros H. ctl_cases H; lia. Qed.
Lemma ctl_not_id off : ctl_off off -> ~ id_off off.
Proof. unfold id_off, PWFPGA_REG_NUM_HIST_BINS. intros H. ctl_cases H; lia. Qed.

Section BarDaemon.
Context {D X : Type} (dev : bar_dev D) (xdev : xdma_dev X).
Context (late : nat -> bool) (deadline : nat) (sz co : Z) {CD : CardDevice dev co} {XD : ControlDevice dev co}.

Abbreviation ctx := (bar_ctx D X).
Abbreviation ops := (bar_ops dev xdev late deadline).

(** The identity as a function of the identity registers. *)
Definition info_of (rd : Z -> Z) : pw_card_info :=
  {| ci_device_id := rd PWFPGA_REG_DEVICE_ID; ci_version := rd PWFPGA_REG_VERSION;
     ci_build_id := rd PWFPGA_REG_BUILD_ID; ci_git_hash := rd PWFPGA_REG_GIT_HASH;
     ci_capabilities := rd PWFPGA_REG_CAPABILITIES;
     ci_num_local_ports := u16 (rd PWFPGA_REG_NUM_LOCAL_PORTS);
     ci_num_local_flows := u16 (rd PWFPGA_REG_NUM_LOCAL_FLOWS);
     ci_num_logical_interfaces := u16 (rd PWFPGA_REG_NUM_LOGICAL_IFS);
     ci_num_classifier_entries := u16 (rd PWFPGA_REG_NUM_CLASSIFIER) |}.

Definition id_of (d : D) (o : Z) : Z := (bd_rd dev (co + o) d).2.

Lemma info_of_ext f g : (forall o, id_off o -> f o = g o) -> info_of f = info_of g.
Proof.
  intros H. unfold info_of.
  f_equal; rewrite ?H by (unfold id_off; csr; vm_compute; split; congruence); done.
Qed.

Lemma bar_info c : whole_card sz co c -> (probe_info ops c).2 = Some (info_of (id_of (bc_dev c))).
Proof.
  intros Hw. unfold probe_info. cbn [op_card_info bar_ops].
  assert (Hrd : forall off, id_off off -> reg_rd dev off c = (c, id_of (bc_dev c) off)).
  { intros off Ho. unfold reg_rd, id_of. pose proof Hw as [[Hs Hco Hwin Hf] Hsz].
    rewrite (mapped_true sz co) by (apply Hw || by (eapply identity_map; [apply Hw|])).
    pose proof (cd_read off (bc_dev c) (or_introl Ho)) as Hd. rewrite <- Hco in *.
    destruct (bd_rd dev _ _) as [d v]. simpl in *. subst d.
    rewrite orb_false_r. by destruct c. }
  unfold bar_card_info. repeat (rewrite Hrd by (unfold id_off; csr; vm_compute; split; congruence)).
  by rewrite decide_True.
Qed.

(** Devices that agree on words, live rows and identity. *)
Record dev_same (d d' : D) : Prop := {
  ds_word : forall o, host_word o -> cd_word d' o = cd_word d o;
  ds_live : forall r, 0 <= r < PWFPGA_FLOW_TABLE_ROWS -> cd_live d' r = cd_live d r;
  ds_id : forall o, id_off o -> id_of d' o = id_of d o
}.

Lemma row_word r o : 0 <= r < PWFPGA_FLOW_TABLE_ROWS ->
  row_off r <= o < row_off r + 4 * Z.of_nat row_words -> (o - row_off r) mod 4 = 0 -> host_word o.
Proof.
  unfold row_off, row_words. rewrite flow_table_rows_64. csr. intros Hr Ho Hm. right. csr.
  split; [lia|]. Z.to_euclidean_division_equations; lia.
Qed.

Lemma staged_ext w w' r : 0 <= r < PWFPGA_FLOW_TABLE_ROWS ->
  (forall o, host_word o -> PWFPGA_WIN_FLOW_TABLE <= o -> w o = w' o) ->
  words_bytes w (row_off r) row_words = words_bytes w' (row_off r) row_words.
Proof.
  intros Hr H. apply words_bytes_ext. intros o Ho Hm. apply H; [by eapply row_word|].
  unfold row_off in Ho. revert Ho. csr. lia.
Qed.

Lemma same_state c c' : whole_card sz co c -> whole_card sz co c' -> dev_same (bc_dev c) (bc_dev c') ->
  same_card_state (ops := ops) (CT := bar_card_tables dev xdev late deadline sz co) c c'.
Proof.
  intros Hc Hc' [Hw Hl Hi]. split; cbn [csr_reg fl_live fl_staged bar_card_tables ct_csr ct_flow bar_csr_file bar_flow_store].
  - intros o Ho. apply Hw. by left.
  - done.
  - intros r Hr. apply staged_ext; [done|]. intros o Ho _. by apply Hw.
  - rewrite !bar_info by done. f_equal. by apply info_of_ext.
Qed.

(** ** Control writes and sync reads *)

Lemma ctl_write off v (c : ctx) : whole_card sz co c -> ctl_off off ->
  (bar_write32 dev off v c).2 = PW_OK /\ whole_card sz co (bar_write32 dev off v c).1 /\
  dev_same (bc_dev c) (bc_dev (bar_write32 dev off v c).1).
Proof.
  intros Hw Ho. destruct (ctl_bound _ Ho) as [H0 H1]. unfold bar_write32.
  rewrite (whole_range sz co) by (done || lia). cbn [negb fst snd]. split; [done|]. split.
  - split; [|apply Hw]. apply reg_wr_ok; [apply Hw|]. by eapply whole_in_map.
  - destruct Hw as [[_ Hco _ _] _]. simpl. rewrite Hco. destruct (xd_ctl off v (bc_dev c) Ho) as [A B].
    split; [done|done|]. intros o Hid. unfold id_of. apply xd_id; auto.
Qed.

Lemma bar_read_kept off (c : ctx) : whole_card sz co c -> read_off off ->
  whole_card sz co (bar_read32 dev off c).1 /\ dev_same (bc_dev c) (bc_dev (bar_read32 dev off c).1).
Proof.
  intros Hw Ho. pose proof Ho as [H0 H1]. unfold bar_read32.
  rewrite (whole_range sz co) by (done || lia). cbn [negb].
  destruct (reg_rd dev off c) as [c' v] eqn:E. cbn [fst]. split.
  - split; [|apply Hw]. eapply reg_rd_ok; [apply Hw| |exact E]. by eapply whole_in_map.
  - destruct Hw as [[_ Hco _ _] _]. unfold reg_rd in E. rewrite Hco in E.
    destruct (xd_read off (bc_dev c) Ho) as (A & B & I). destruct (bd_rd dev (co + off) (bc_dev c)) as [d w].
    injection E as <- _. split; done.
Qed.

(** ** Host writes *)

Lemma host_write_id off v (c : ctx) : whole_card sz co c -> host_word off \/ off = PWFPGA_REG_FLOW_COMMIT ->
  forall o, id_off o -> id_of (bc_dev (reg_wr dev off v c)) o = id_of (bc_dev c) o.
Proof.
  intros [[_ Hco _ _] _] Ho o Hid. simpl. rewrite Hco. unfold id_of. apply xd_id; tauto.
Qed.

Lemma copy_words_id n : forall off bs (c : ctx), whole_card sz co c -> length bs = (4 * n)%nat -> Forall is_u8 bs ->
  PWFPGA_WIN_FLOW_TABLE <= off -> off mod 4 = 0 -> off + 4 * Z.of_nat n <= PWFPGA_REG_FLOW_COMMIT ->
  forall o, id_off o -> id_of (bc_dev (bar_copy_words dev off bs c)) o = id_of (bc_dev c) o.
Proof.
  induction n as [|n IH]; intros off bs c Hw Hlen Hb Hoff Hal Hend o Hid.
  { by destruct bs. }
  destruct bs as [|b0 [|b1 [|b2 [|b3 bs]]]]; try (simpl in Hlen; lia).
  assert (host_word off) as Ho by (right; split; [lia|done]). cbn [bar_copy_words].
  destruct (reg_wr_word dev sz co off (le_val [b0; b1; b2; b3]) c Hw Ho) as (Hw1 & _).
  rewrite (IH (off + 4) bs); [|done|simpl in Hlen; lia| |lia|Z.to_euclidean_division_equations; lia|lia|done].
  - apply host_write_id; auto.
  - by apply (Forall_app is_u8 [b0; b1; b2; b3] bs) in Hb as [_ ?].
Qed.

Lemma row_write_frame r f (c : ctx) : whole_card sz co c -> 0 <= r < PWFPGA_FLOW_TABLE_ROWS ->
  (forall o, csr_off_ok o -> cd_word (bc_dev (bar_flow_write dev r f c).1) o = cd_word (bc_dev c) o) /\
  forall o, id_off o -> id_of (bc_dev (bar_flow_write dev r f c).1) o = id_of (bc_dev c) o.
Proof.
  intros Hw Hr. rewrite flow_table_rows_64 in *. unfold bar_flow_write, sizeof_flow_config.
  change PWFPGA_WIN_FLOW_TABLE with 0x6000. change PWFPGA_FLOW_STRIDE with 256.
  change PWFPGA_REG_FLOW_COMMIT with 0x9FFC.
  destruct (Z.ltb_spec 0x9FFC (0x6000 + r * 256 + 244)); [lia|].
  rewrite (whole_range sz co) by (done || lia). cbn [negb fst snd]. rewrite u32_id by (unfold is_w; lia).
  assert (Hal : (0x6000 + r * 256) mod 4 = 0) by (Z.to_euclidean_division_equations; lia).
  split.
  - intros o Ho. apply (copy_words_row dev late sz co 61 (0x6000 + r * 256) (flow_config_bytes f) c);
      [done|apply wires_bytes_size|apply wires_bytes_u8|csr; lia|done|csr; lia|by left|].
    destruct Ho as [Ho _]. unfold PWFPGA_FLOWID_MAP_DEPTH, PWFPGA_WIN_FC_CMP in Ho. csr. lia.
  - apply (copy_words_id 61); [done|apply wires_bytes_size|apply wires_bytes_u8|csr; lia|done|csr; lia].
Qed.

Lemma commit_id (c : ctx) : whole_card sz co c ->
  forall o, id_off o -> id_of (bc_dev (bar_flow_commit dev c).1) o = id_of (bc_dev c) o.
Proof.
  intros Hw o Hid. unfold bar_flow_commit.
  rewrite (whole_range sz co) by (done || (vm_compute; congruence)). cbn [negb].
  pose proof (host_write_id PWFPGA_REG_FLOW_COMMIT 1 c Hw (or_intror eq_refl) o Hid) as H1. revert H1.
  unfold reg_rd. pose proof (cd_read PWFPGA_REG_FLOW_COMMIT) as Hrd.
  destruct Hw as [[Hs Hco Hwin Hf] Hsz]. cbn [bc_csr_off bc_dev reg_wr set_dev]. rewrite Hco.
  specialize (Hrd (bd_wr dev (co + PWFPGA_REG_FLOW_COMMIT) 1 (bc_dev c)) (or_intror eq_refl)).
  destruct (bd_rd dev (co + PWFPGA_REG_FLOW_COMMIT) _) as [d v]. simpl in Hrd. by subst d.
Qed.

(** ** The instance *)

Lemma bar_same_info (c c' : ctx) : whole_card sz co c -> whole_card sz co c' ->
  (forall o, id_off o -> id_of (bc_dev c') o = id_of (bc_dev c) o) ->
  (probe_info ops c').2 = (probe_info ops c).2.
Proof. intros Hc Hc' Hi. rewrite !bar_info by done. f_equal. by apply info_of_ext. Qed.

#[export, refine] Instance bar_daemon_card : DaemonCard ops := {|
  dc_tables := bar_card_tables dev xdev late deadline sz co
|}.
Proof.
  - intros off v c [Hw _] Ho. destruct (write32_word dev sz co off v c Hw Ho) as [E Hh].
    destruct (reg_wr_word dev sz co off v c Hw Hh) as (Hw1 & Hr1 & _).
    cbn [csr_write ct_csr bar_card_tables bar_csr_file]. rewrite E. cbn [fst]. split.
    + intros i Hi. apply staged_ext; [done|]. intros o Hho Hge. rewrite Hr1 by done.
      rewrite (proj2 (Z.eqb_neq o off)); [done|]. intros ->. destruct Ho as [Ho _]. revert Ho Hge. csr.
      unfold PWFPGA_FLOWID_MAP_DEPTH, PWFPGA_WIN_FC_CMP. lia.
    + apply bar_same_info; [done|done|]. apply host_write_id; auto.
  - intros r f c [Hw _] Hr. destruct (row_write_frame r f c Hw Hr) as [A I].
    destruct (flow_write_staged dev late deadline sz co r f c Hw Hr) as (_ & Hw1 & _). split; [done|].
    by apply bar_same_info.
  - intros c [Hw _]. destruct (flow_commit_live dev sz co c Hw) as (_ & Hw1 & _ & Hwd). split_and!.
    + intros o Ho. apply Hwd. by left.
    + intros i Hi. apply staged_ext; [done|]. auto.
    + apply bar_same_info; [done|done|]. by apply commit_id.
  - intros off v c [Hw _] Ho. destruct (ctl_write off v c Hw Ho) as (S & Hw1 & Hd).
    split; [exact S|]. split; [by split|]. by apply same_state.
  - intros rd off c [= <-] [Hw _] Ho. destruct (bar_read_kept off c Hw Ho) as (Hw1 & Hd).
    split; [by split|]. by apply same_state.
Defined.
End BarDaemon.

(** ** A concrete device *)

#[export] Instance toy_control : ControlDevice toy_bar 0.
Proof.
  split.
  - intros off v d o Ho Hid. change (0 + off) with off. change (0 + o) with o. cbn [bd_rd bd_wr toy_bar snd].
    destruct (off =? PWFPGA_REG_FLOW_COMMIT); [done|]. cbn [tc_word].
    rewrite (proj2 (Z.eqb_neq o off)); [done|]. intros ->. unfold id_off, PWFPGA_REG_NUM_HIST_BINS in Hid.
    destruct Ho as [Ho|[->|Ho]].
    + unfold host_word, csr_off_ok, PWFPGA_FLOWID_MAP_DEPTH, PWFPGA_WIN_FC_CMP in Ho. csr. lia.
    + csr. lia.
    + by apply (ctl_not_id _ Ho).
  - intros off v d Ho. change (0 + off) with off. cbn [bd_wr toy_bar cd_word cd_live toy_card_device].
    rewrite (proj2 (Z.eqb_neq _ _) (ctl_not_commit _ Ho)). cbn [tc_word tc_live]. split; [|done].
    intros o Hh. rewrite (proj2 (Z.eqb_neq o off)); [done|]. intros ->. by apply (ctl_not_host off).
  - done.
Qed.
