(* ===== verification/DaemonSamples.v ===== *)
(** * The daemon on a concrete card

    A BAR card over the toy device, a [libyaml] that knows two texts, and the
    daemon started on them: the hypotheses of the daemon's theorems hold here. *)

From S2P Require Import Prelude Types Config Validate Csr FlowCompiler Backend Programming Dma BackendBar BarSafety BarTables.
From S2P Require Import DmaProps Deploy GpioSync Scalar Yaml ConfigParse ReaderProps Daemon RunState DaemonProps DaemonClaims BarDaemon.

Local Open Scope string_scope.
Local Open Scope Z_scope.
Local Open Scope list_scope.

#[local] Existing Instance s_inet.

#[export] Instance toy_daemon : DaemonCard toy_ops :=
  bar_daemon_card toy_bar dead_dev (fun _ => true) 0 0x10000 0.

(** The document of a tree. *)
Fixpoint doc_of (n : pw_yaml_node) : ydoc :=
  match n with
  | PW_YAML_SCALAR _ v => DScalar 0 v
  | PW_YAML_SEQ _ ns => DSeq 0 0 (map doc_of ns)
  | PW_YAML_MAP _ kvs => DMap 0 0 (map (fun kv => (DScalar 0 kv.1, doc_of kv.2)) kvs)
  end.

(** [env] describes the lab of [ReaderProps]; [test] is a payload of flows only. *)
Definition s_libyaml (text : string) : yaml_parser :=
  {| yp_events :=
       if str_eq text "env" then stream_events [(0, doc_of (s_root "64"), 0)] 0 0
       else if str_eq text "test" then
         stream_events [(0, doc_of (y_map [("flows", PW_YAML_SEQ 1 [s_flow_tree "128"])]), 0)] 0 0
       else [];
     yp_problem := None; yp_line := 0 |}.

Definition s_bar_open (pci : string) : bar_ctx toy_card unit * pw_status := (toy_ctx, PW_OK).

Abbreviation s_start := (startup toy_ops s_libyaml s_bar_open s_bar_open false false 0 "env" None).
Definition s_d0 : @daemon (bar_ctx toy_card unit) :=
  default {| d_cfg := pw_config_new; d_prog := {| p_per_card := []; p_flow_meta := [] |}; d_cards := [];
             d_test_yaml := None; d_cal := 0 |} s_start.

Definition is_some {A} (o : option A) : bool := match o with Some _ => true | None => false end.
Lemma some_default {A} (o : option A) (x : A) : is_some o = true -> o = Some (default x o).
Proof. by destruct o. Qed.

Lemma s_starts : s_start = Some s_d0.
Proof. unfold s_d0. apply some_default. vm_compute. reflexivity. Qed.

Lemma s_opens : opens_ok (ops := toy_ops) s_bar_open.
Proof. intros pci c [= <-]. split; exact toy_whole. Qed.

Lemma s_d0_inv : daemon_inv s_d0 /\ all_open (d_cards s_d0).
Proof. exact (startup_inv (ops := toy_ops) s_libyaml _ _ _ _ _ _ _ s_opens s_starts). Qed.
#[local] Opaque s_d0.


Definition s_loaded : pw_config * pw_program :=
  match load_prepare s_libyaml (d_cfg s_d0) "test" with
  | Ok x => x
  | Err _ => (pw_config_new, {| p_per_card := []; p_flow_meta := [] |})
  end.

Lemma s_loads : load_prepare s_libyaml (d_cfg s_d0) "test" = Ok (s_loaded.1, s_loaded.2).
Proof.
  unfold s_loaded.
  assert (match load_prepare s_libyaml (d_cfg s_d0) "test" with Ok _ => true | Err _ => false end = true) as H
    by (vm_compute; reflexivity).
  by destruct (load_prepare s_libyaml (d_cfg s_d0) "test") as [[]|].
Qed.

(** Room for a program, evaluated. *)
Definition fits_b (q : pw_program) (cs : list (@card_runtime (bar_ctx toy_card unit))) : bool :=
  forallb (fun x => match (probe_info toy_ops (cr_ctx x.2)).2 with
                    | Some i => negb (over_capacity x.1 i) | None => true end) (zip (p_per_card q) cs).

Lemma fits_b_spec q cs : fits_b q cs = true -> fits_cards (ops := toy_ops) q cs.
Proof.
  unfold fits_b. rewrite forallb_forall. intros H ci cp cr Hcp Hcr _ i Hi.
  assert (zip (p_per_card q) cs !! ci = Some (cp, cr)) as Hz by (apply lookup_zip_with_Some; eauto).
  specialize (H _ (proj1 (list_elem_of_In _ _) (list_elem_of_lookup_2 _ _ _ Hz))). cbn [fst snd] in H.
  rewrite Hi in H. by apply negb_true_iff in H.
Qed.

Lemma config_load_accepts_witness :
  let r := do_config_load toy_ops s_libyaml (Some "test") s_d0 in
  (exists n, r.2 = Ok n) /\ d_cfg r.1 = s_loaded.1 /\ d_prog r.1 = s_loaded.2.
Proof.
  apply (config_load_accepts s_libyaml "test" s_d0 s_loaded.1 s_loaded.2 (proj1 s_d0_inv) s_loads).
  apply fits_b_spec. vm_compute. reflexivity.
Defined.

Lemma test_switches_every_flow_witness :
  let r := rpc_test toy_ops TestStart s_d0 in
  tr_changed r.2 = 1 /\ tr_failed r.2 = 0 /\ flow_enabled (d_prog s_d0) 7 = false /\
  flow_enabled (d_prog r.1) 7 = true.
Proof.
  destruct (test_switches_every_flow true s_d0 (proj1 s_d0_inv) (proj2 s_d0_inv)) as (_ & _ & H1 & H2 & H3).
  split_and!; [etransitivity; [exact H1|vm_compute; reflexivity]|exact H2|vm_compute; reflexivity|].
  assert (exists f, f ∈ cfg_flows (d_cfg s_d0) /\ f_id f = 7) as (f & Hf & <-); [|by apply H3].
  eexists. split; [apply list_elem_of_lookup; exists 0%nat|]; vm_compute; reflexivity.
Defined.
