(* ===== verification/Text.v ===== *)
(** * Texts and C strings

    Character lists as the C code sees them: the control characters it tests, C
    string truncation, blanks, [fgets], and case-insensitive comparison. *)

From Stdlib Require Import Ascii.
From Stdlib Require String.
From S2P Require Import Prelude Scalar.

Local Open Scope string_scope.
Local Open Scope Z_scope.
Local Open Scope list_scope.

Abbreviation text := (list ascii).
Abbreviation chars := String.list_ascii_of_string.

Definition NL : ascii := "010".
Definition DQ : ascii := "034".
Definition BSL : ascii := "092".
Definition NUL : ascii := "000".
Definition SP : ascii := " ".
Definition TAB : ascii := "009".
Definition CR : ascii := "013".
Definition COLON : ascii := ":".

(** The line end of HTTP. *)
Definition CRLF : text := [CR; NL].

(** A byte as a character, and a text as the bytes of a buffer. *)
Definition byte_char (b : Z) : ascii := ascii_of_nat (Z.to_nat b).
Definition text_bytes (t : text) : list Z := (fun c => Z.of_nat (nat_of_ascii c)) <$> t.
Definition bytes_text (l : list Z) : text := byte_char <$> l.

Lemma byte_char_back c : byte_char (Z.of_nat (nat_of_ascii c)) = c.
Proof. unfold byte_char. by rewrite Nat2Z.id, ascii_nat_embedding. Qed.

Lemma text_bytes_back t : bytes_text (text_bytes t) = t.
Proof.
  unfold bytes_text, text_bytes. rewrite <- list_fmap_compose. rewrite (list_fmap_ext _ id); [apply list_fmap_id|].
  intros i c _. apply byte_char_back.
Qed.

(** ** Lines *)

(** [fgets] into a buffer of [n + 1] bytes. *)
Fixpoint fgets (n : nat) (t : text) : text * text :=
  match n, t with
  | S n, c :: t => if bool_decide (c = NL) then ([c], t) else let '(l, r) := fgets n t in (c :: l, r)
  | _, _ => ([], t)
  end.

(** Successive [fgets]; each takes at least a character. *)
Fixpoint chunks (fuel n : nat) (t : text) : list text :=
  match fuel, t with
  | S fuel, _ :: _ => let '(l, r) := fgets n t in l :: chunks fuel n r
  | _, _ => []
  end.

(** What [strlen] sees. *)
Fixpoint cstring (t : text) : text :=
  match t with
  | [] => []
  | c :: t => if bool_decide (c = NUL) then [] else c :: cstring t
  end.

(** Leading blanks and tabs dropped. *)
Fixpoint skip_ws (t : text) : text :=
  match t with
  | c :: t' => if bool_decide (c = SP) || bool_decide (c = TAB) then skip_ws t' else t
  | [] => []
  end.

(** [strcasecmp] of two C strings, and the prefix test [strncasecmp]. *)
Definition same_ci (a b : text) : bool := bool_decide (tolower <$> a = tolower <$> b).
Definition prefix_ci (pre t : text) : bool := same_ci (take (length pre) t) pre.

(** [strchr]: what precedes the first [c], and what follows it. *)
Fixpoint split_at (c : ascii) (t : text) : option (text * text) :=
  match t with
  | [] => None
  | x :: t => if bool_decide (x = c) then Some ([], t) else
              '(a, b) ← split_at c t; Some (x :: a, b)
  end.

(** [strrchr]: what precedes the last [c], and what follows it. *)
Definition split_last (c : ascii) (t : text) : option (text * text) :=
  '(b, a) ← split_at c (reverse t); Some (reverse a, reverse b).

Lemma length_chars s : length (chars s) = String.length s.
Proof. induction s as [|c s IH]; [done|]. cbn. by f_equal. Qed.

Lemma split_at_some c t a b : split_at c t = Some (a, b) -> t = a ++ c :: b /\ c ∉ a.
Proof.
  revert a b. induction t as [|x t IH]; intros a b; simpl; [done|]. case_bool_decide as Hx.
  - intros [= <- <-]. subst x. split; [done|apply not_elem_of_nil].
  - intros ([a' b'] & H & [= <- <-])%bind_Some. destruct (IH _ _ H) as [-> Hn]. split; [done|].
    rewrite not_elem_of_cons. split; [congruence|done].
Qed.

Lemma split_at_none c t : split_at c t = None -> c ∉ t.
Proof.
  induction t as [|x t IH]; simpl; [intros; apply not_elem_of_nil|]. case_bool_decide as Hx; [done|].
  intros H. rewrite not_elem_of_cons. split; [congruence|]. apply IH.
  by destruct (split_at c t) as [[]|].
Qed.
