(* ===== verification/Pci.v ===== *)
(** * PCI addresses and discovery

    Models [sw/libpacketwyrm/src/pci.c]: the canonical form of a bus address, the
    walk over sysfs with its sort, and the mapping of a BAR file. What a sysfs file
    holds, the order of the directory and the answers of [open], [fstat] and [mmap]
    are parameters. [bdf_canonical] and [discover_sorted] say what the results are. *)

From Stdlib Require Import Ascii Sorted.
From Stdlib Require String.
From S2P Require Import Prelude Types Config Scalar Text.

Local Open Scope string_scope.
Local Open Scope Z_scope.
Local Open Scope list_scope.

Definition PW_SYSFS_PCI : string := "/sys/bus/pci/devices".
Definition PW_DEFAULT_PCI_VENDOR : Z := 0x10EE.
Definition PW_DEFAULT_PCI_DEVICE : Z := 0xA502.

(** ** Addresses *)

(** Up to [n] leading hex digits: the value, how many, and what follows. *)
Fixpoint hex_run (n : nat) (t : text) (v : Z) : Z * nat * text :=
  match n, t with
  | S n, c :: t' =>
      match digit 16 c with
      | Some d => let '(v, k, r) := hex_run n t' (v * 16 + d) in (v, S k, r)
      | None => (v, 0%nat, t)
      end
  | _, _ => (v, 0%nat, t)
  end.

Definition parse_hex_field (maxdigits : nat) (max : Z) (t : text) : option (Z * text) :=
  match hex_run maxdigits t 0 with
  | (v, k, r) => if (k =? 0)%nat || (max <? v) then None else Some (v, r)
  end.

(** The character that must come next. *)
Definition expect (c : ascii) (t : text) : option text :=
  match t with x :: t => if bool_decide (x = c) then Some t else None | [] => None end.

(** [%0<n>lx] of a value below [16^n]. *)
Fixpoint hex_digits (n : nat) (v : Z) : text :=
  match n with O => [] | S n => hex_digits n (v / 16) ++ [hex_char (v mod 16)] end.

Definition DOT : ascii := ".".

(** ["%04lx:%02lx:%02lx.%lu"], the function being one digit. *)
Definition bdf_text (domain bus dev func : Z) : text :=
  hex_digits 4 domain ++ COLON :: hex_digits 2 bus ++ COLON :: hex_digits 2 dev ++ DOT :: [hex_char func].

(** [bus:dev.func] to the end of the text. *)
Definition parse_slot (t : text) : option (Z * Z * Z) :=
  '(bus, t) ← parse_hex_field 2 0xFF t;
  t ← expect COLON t;
  '(dev, t) ← parse_hex_field 2 0x1F t;
  t ← expect DOT t;
  '(func, t) ← parse_hex_field 1 0x7 t;
  match t with [] => Some (bus, dev, func) | _ => None end.

Definition pw_pci_normalize_bdf (t : text) : option text :=
  '(_, after) ← split_at COLON t;
  match split_at COLON after with
  | Some _ =>
      '(domain, t) ← parse_hex_field 4 0xFFFF t;
      t ← expect COLON t;
      '(bus, dev, func) ← parse_slot t;
      Some (bdf_text domain bus dev func)
  | None => '(bus, dev, func) ← parse_slot t; Some (bdf_text 0 bus dev func)
  end.

(** ** Discovery *)

Record pw_pci_device := {
  pd_bdf : text; pd_vendor : Z; pd_device : Z; pd_subsystem_vendor : Z; pd_subsystem_device : Z
}.

(** The number [fscanf] reads with [%x] from a file that holds this. *)
Definition read_hex_file (content : option string) : option Z :=
  s ← content;
  let '(neg, s) := split_sign (skip_space s) in
  let s := match s with String "0" (String "x" r) | String "0" (String "X" r) => r | _ => s end in
  match (span_digits 16 s).1 with
  | [] => None
  | ds => let v := Z.min (2 ^ 64 - 1) (digits_val 16 ds) in Some (u32 (if neg then - v else v))
  end.

(** [sysfs dir file] is what the file of a device holds, if it can be read. *)
Definition read_pci_device (sysfs : text -> string -> option string) (name : text) : option pw_pci_device :=
  if (length name =? 0)%nat || (PW_PCI_BDF_MAX <=? length name)%nat then None else
  v ← read_hex_file (sysfs name "vendor");
  d ← read_hex_file (sysfs name "device");
  let sub f := from_option u16 0 (read_hex_file (sysfs name f)) in
  Some {| pd_bdf := name; pd_vendor := u16 v; pd_device := u16 d;
          pd_subsystem_vendor := sub "subsystem_vendor"; pd_subsystem_device := sub "subsystem_device" |}.

Definition pci_matches (vendor device : Z) (d : pw_pci_device) : bool :=
  (negb (ztrue vendor) || (pd_vendor d =? vendor)) && (negb (ztrue device) || (pd_device d =? device)).

Definition hidden (name : text) : bool := match name with c :: _ => bool_decide (c = DOT) | [] => false end.

(** The devices of the directory that match, in its order. *)
Definition pci_scan (sysfs : text -> string -> option string) (vendor device : Z) (names : list text) :
    list pw_pci_device :=
  name ← names;
  if hidden name then [] else
  match read_pci_device sysfs name with
  | Some d => if pci_matches vendor device d then [d] else []
  | None => []
  end.

(** [strcmp(a, b) > 0] *)
Fixpoint strcmp_gt (a b : text) : bool :=
  match a, b with
  | [], _ => false
  | _ :: _, [] => true
  | x :: a, y :: b => if ch x =? ch y then strcmp_gt a b else ch y <? ch x
  end.

(** The inner loop of the sort: [x] at the place being filled, swapped with each
    smaller one. *)
Fixpoint sort_inner (x : pw_pci_device) (l : list pw_pci_device) : pw_pci_device * list pw_pci_device :=
  match l with
  | [] => (x, [])
  | y :: l =>
      if strcmp_gt (pd_bdf x) (pd_bdf y) then let '(m, r) := sort_inner y l in (m, x :: r)
      else let '(m, r) := sort_inner x l in (m, y :: r)
  end.

Fixpoint sort_outer (n : nat) (l : list pw_pci_device) : list pw_pci_device :=
  match n, l with
  | S n, x :: l => let '(m, r) := sort_inner x l in m :: sort_outer n r
  | _, _ => l
  end.

(** The names of the directory; when it cannot be opened, whether it does not exist. *)
Definition pw_pci_discover (sysfs : text -> string -> option string) (dir : result bool (list text))
    (vendor device : Z) (n_out : nat) : result pw_status (nat * list pw_pci_device) :=
  match dir with
  | Err enoent => if enoent then Ok (0%nat, []) else Err PW_E_IO
  | Ok names =>
      let found := pci_scan sysfs vendor device names in
      let out := take n_out found in
      Ok (length found, sort_outer (length out) out)
  end.

(** ** Mapping *)

(** [open] and [mmap] succeed; [fstat] gives the size and whether the file is a
    regular one. *)
Record bar_file := { bf_open : bool; bf_stat : option (Z * bool); bf_mmap : bool }.

(** The size mapped. *)
Definition pw_pci_open_bar0_path (f : bar_file) : result pw_status Z :=
  if negb (bf_open f) then Err PW_E_IO else
  match bf_stat f with
  | None => Err PW_E_IO
  | Some (sz, regular) =>
      if (sz =? 0) && regular then Err PW_E_OUT_OF_RANGE else
      if negb (bf_mmap f) then Err PW_E_IO else Ok (if sz =? 0 then 65536 else sz)
  end.

(** [files] by path. *)
Definition pw_pci_open_bar0 (files : text -> bar_file) (bdf : text) : result pw_status Z :=
  match pw_pci_normalize_bdf bdf with
  | None => Err PW_E_INVAL
  | Some cbdf => pw_pci_open_bar0_path (files (chars PW_SYSFS_PCI ++ "/"%char :: cbdf ++ chars "/resource0"))
  end.

(** ** Addresses are canonical, discovery is sorted *)

(** ** Fields *)

Definition stops (r : text) : Prop := match r with c :: _ => digit 16 c = None | [] => True end.

Lemma hex_run_digits n : forall v acc r, 0 <= v < 16 ^ Z.of_nat n -> forall k,
  hex_run (n + k) (hex_digits n v ++ r) acc =
  (let '(w, j, r') := hex_run k r (acc * 16 ^ Z.of_nat n + v) in (w, (n + j)%nat, r')).
Proof.
  induction n as [|n IH]; intros v acc r Hv k.
  { change (16 ^ Z.of_nat 0) with 1 in *. replace v with 0 by lia. replace (acc * 1 + 0) with acc by lia.
    cbn [hex_digits app Nat.add]. by destruct (hex_run k r acc) as [[? ?] ?]. }
  rewrite Nat2Z.inj_succ, Z.pow_succ_r in * by lia.
  assert (Hq : 0 <= v / 16 < 16 ^ Z.of_nat n) by (split; [apply Z.div_pos; lia|apply Z.div_lt_upper_bound; lia]).
  cbn [hex_digits]. rewrite <- app_assoc. replace (S n + k)%nat with (n + S k)%nat by lia. rewrite (IH (v / 16)) by done.
  cbn [app hex_run]. destruct (hex_char_facts (v mod 16)) as [-> _]; [by apply Z.mod_pos_bound|].
  replace ((acc * 16 ^ Z.of_nat n + v / 16) * 16 + v mod 16) with (acc * (16 * 16 ^ Z.of_nat n) + v)
    by (pose proof (Z.div_mod v 16 ltac:(lia)); lia).
  destruct (hex_run k r _) as [[w j] r']. by rewrite Nat.add_succ_r.
Qed.

Lemma field_digits n max v r : (0 < n)%nat -> 0 <= v < 16 ^ Z.of_nat n -> v <= max -> stops r ->
  parse_hex_field n max (hex_digits n v ++ r) = Some (v, r).
Proof.
  intros Hn Hv Hm Hs. unfold parse_hex_field. pose proof (hex_run_digits n v 0 r Hv 0) as H.
  rewrite Nat.add_0_r in H. rewrite H. cbn [hex_run]. rewrite Z.mul_0_l, Z.add_0_l, Nat.add_0_r.
  destruct n as [|n]; [lia|]. cbn [Nat.eqb orb]. by rewrite (proj2 (Z.ltb_ge _ _)).
Qed.

Lemma hex_run_bound n : forall t acc, 0 <= acc ->
  let '(v, _, _) := hex_run n t acc in acc <= v.
Proof.
  induction n as [|n IH]; intros [|c t] acc Ha; cbn [hex_run]; try lia.
  destruct (digit 16 c) as [d|] eqn:Hd; [|lia].
  assert (0 <= d) by (unfold digit in Hd; repeat case_match; simplify_eq; lia).
  specialize (IH t (acc * 16 + d) ltac:(lia)). destruct (hex_run n t _) as [[v k] r]. lia.
Qed.

Lemma field_range n max t v r : parse_hex_field n max t = Some (v, r) -> 0 <= v <= max.
Proof.
  unfold parse_hex_field. pose proof (hex_run_bound n t 0 ltac:(lia)) as H. destruct (hex_run n t 0) as [[w k] r'].
  destruct (_ || _) eqn:E; [done|]. intros [= <- <-]. apply orb_false_iff in E as [_ E]. lia.
Qed.

(** ** Addresses *)

Definition bdf_ok (domain bus dev func : Z) : Prop :=
  0 <= domain <= 0xFFFF /\ 0 <= bus <= 0xFF /\ 0 <= dev <= 0x1F /\ 0 <= func <= 7.

Definition slot_text (bus dev func : Z) : text :=
  hex_digits 2 bus ++ COLON :: hex_digits 2 dev ++ DOT :: [hex_char func].

Lemma slot_parses bus dev func : bdf_ok 0 bus dev func -> parse_slot (slot_text bus dev func) = Some (bus, dev, func).
Proof.
  intros (_ & Hb & Hd & Hf). unfold parse_slot, slot_text.
  rewrite field_digits by (done || lia). cbn [mbind option_bind expect].
  rewrite bool_decide_eq_true_2 by done. cbn [mbind option_bind].
  rewrite field_digits by (done || lia). cbn [mbind option_bind expect].
  rewrite bool_decide_eq_true_2 by done. cbn [mbind option_bind].
  pose proof (field_digits 1 7 func [] ltac:(lia) ltac:(lia) ltac:(lia) I) as H.
  cbn [hex_digits app] in H. rewrite Z.mod_small in H by lia. by rewrite H.
Qed.

Lemma hex_not_colon d : 0 <= d < 16 -> hex_char d <> COLON.
Proof. intros Hd E. destruct (hex_char_facts d Hd) as [H _]. by rewrite E in H. Qed.

Lemma split_hex n v r : split_at COLON (hex_digits n v ++ COLON :: r) = Some (hex_digits n v, r).
Proof.
  revert v r. assert (H : forall l r, COLON ∉ l -> split_at COLON (l ++ COLON :: r) = Some (l, r)).
  { induction l as [|x l IH]; intros r Hn; cbn [app split_at]; [by rewrite bool_decide_eq_true_2|].
    rewrite not_elem_of_cons in Hn. rewrite bool_decide_eq_false_2 by naive_solver. by rewrite IH by naive_solver. }
  intros v r. apply H. revert v. induction n as [|n IH]; intros v; [apply not_elem_of_nil|].
  cbn [hex_digits]. rewrite elem_of_app, list_elem_of_singleton. intros [?|E]; [by eapply IH|].
  symmetry in E. eapply hex_not_colon; [|exact E]. by apply Z.mod_pos_bound.
Qed.

Lemma split_slot b v f :
  split_at COLON (slot_text b v f) = Some (hex_digits 2 b, hex_digits 2 v ++ DOT :: [hex_char f]).
Proof. apply split_hex. Qed.

Lemma no_colon_in n v c r : c <> COLON -> COLON ∉ r -> split_at COLON (hex_digits n v ++ c :: r) = None.
Proof.
  intros Hc Hr. assert (Hn : COLON ∉ hex_digits n v ++ c :: r).
  { rewrite elem_of_app, elem_of_cons. intros [H|[?|?]]; [|congruence|done]. revert v H.
    induction n as [|n IH]; intros v; [apply not_elem_of_nil|]. cbn [hex_digits].
    rewrite elem_of_app, list_elem_of_singleton. intros [?|E]; [by eapply IH|].
    symmetry in E. eapply hex_not_colon; [|exact E]. by apply Z.mod_pos_bound. }
  destruct (split_at _ _) as [[a b]|] eqn:E; [|done]. apply split_at_some in E as [E _]. rewrite E in Hn.
  exfalso. apply Hn. apply elem_of_app. right. left.
Qed.

(** Every bus address is accepted in its canonical form and unchanged, the
    short form without a domain gives the canonical form in domain 0, and whatever
    is accepted comes out as the canonical form of an address in range; so the
    result never changes again. *)
Theorem bdf_canonical : forall (domain bus dev func : Z) (t out : text),
  bdf_ok domain bus dev func ->
  pw_pci_normalize_bdf (bdf_text domain bus dev func) = Some (bdf_text domain bus dev func) /\
  pw_pci_normalize_bdf (slot_text bus dev func) = Some (bdf_text 0 bus dev func) /\
  (pw_pci_normalize_bdf t = Some out ->
   (exists d b v f, bdf_ok d b v f /\ out = bdf_text d b v f) /\ pw_pci_normalize_bdf out = Some out).
Proof.
  assert (Hcanon : forall d b v f, bdf_ok d b v f -> pw_pci_normalize_bdf (bdf_text d b v f) = Some (bdf_text d b v f)).
  { intros d b v f Hok. pose proof Hok as (Hd & Hb & Hv & Hf).
    change (bdf_text d b v f) with (hex_digits 4 d ++ COLON :: slot_text b v f).
    unfold pw_pci_normalize_bdf. rewrite split_hex. cbn [mbind option_bind]. rewrite split_slot.
    rewrite field_digits by (done || lia). cbn [mbind option_bind expect]. rewrite bool_decide_eq_true_2 by done.
    cbn [mbind option_bind]. rewrite slot_parses; [done|]. repeat split; lia. }
  intros domain bus dev func t out Hok. split; [by apply Hcanon|]. split.
  - pose proof Hok as (_ & Hb & Hv & Hf). unfold pw_pci_normalize_bdf. rewrite split_slot.
    cbn [mbind option_bind]. rewrite no_colon_in; [|done|].
    + rewrite slot_parses; [done|]. repeat split; lia.
    + rewrite list_elem_of_singleton. intros E. symmetry in E. eapply hex_not_colon; [|exact E]. lia.
  - intros H. assert (Hr : exists d b v f, bdf_ok d b v f /\ out = bdf_text d b v f).
    { assert (Hslot : forall t b v f, parse_slot t = Some (b, v, f) -> bdf_ok 0 b v f).
      { unfold parse_slot. intros t' b v f ([b' t1] & H1%field_range & (t2 & _ & ([v' t3] & H2%field_range & (t4 & _ &
          ([f' t5] & H3%field_range & H4)%bind_Some)%bind_Some)%bind_Some)%bind_Some)%bind_Some.
        destruct t5; [|done]. injection H4 as <- <- <-. repeat split; lia. }
      unfold pw_pci_normalize_bdf in H. apply bind_Some in H as ([pre after] & _ & H).
      destruct (split_at COLON after) as [[]|].
      - apply bind_Some in H as ([d t1] & H1%field_range & (t2 & _ & ([[b v] f] & H3%Hslot & [= <-])%bind_Some)%bind_Some).
        exists d, b, v, f. destruct H3 as (? & ? & ? & ?). repeat split; (done || lia).
      - apply bind_Some in H as ([[b v] f] & H3%Hslot & [= <-]). by exists 0, b, v, f. }
    split; [done|]. destruct Hr as (d & b & v & f & Hok' & ->). by apply Hcanon.
Qed.

Lemma bdf_canonical_witness :
  pw_pci_normalize_bdf (String.list_ascii_of_string "7:0.1") = Some (String.list_ascii_of_string "0000:07:00.1") /\
  pw_pci_normalize_bdf (String.list_ascii_of_string "0000:07:00.1") = Some (String.list_ascii_of_string "0000:07:00.1").
Proof.
  split; [vm_compute; reflexivity|].
  assert (H : bdf_ok 0 7 0 1) by (repeat split; lia).
  exact (proj1 (bdf_canonical 0 7 0 1 [] [] H)).
Defined.

(** ** Discovery *)

Lemma gt_irrefl a : strcmp_gt a a = false.
Proof. induction a as [|x a IH]; simpl; [done|]. by rewrite Z.eqb_refl. Qed.

(** [strcmp(a, b) <= 0] *)
Definition bdf_le (a b : pw_pci_device) : Prop := strcmp_gt (pd_bdf a) (pd_bdf b) = false.

Lemma strcmp_trans a : forall b c, strcmp_gt a b = false -> strcmp_gt b c = false -> strcmp_gt a c = false.
Proof.
  induction a as [|x a IH]; intros [|y b] [|z c]; cbn [strcmp_gt]; try done.
  destruct (Z.eqb_spec (ch x) (ch y)) as [E1|E1], (Z.eqb_spec (ch y) (ch z)) as [E2|E2],
    (Z.eqb_spec (ch x) (ch z)) as [E3|E3]; try lia; eauto.
Qed.

Lemma strcmp_total a : forall b, strcmp_gt a b = true -> strcmp_gt b a = false.
Proof.
  induction a as [|x a IH]; intros [|y b]; cbn [strcmp_gt]; try done. rewrite (Z.eqb_sym (ch y)).
  destruct (Z.eqb_spec (ch x) (ch y)); [apply IH|lia].
Qed.

Lemma inner_min l : forall x m r, sort_inner x l = (m, r) ->
  m :: r ≡ₚ x :: l /\ bdf_le m x /\ Forall (bdf_le m) r.
Proof.
  induction l as [|y l IH]; intros x m r; cbn [sort_inner].
  { intros [= <- <-]. split; [done|]. split; [apply gt_irrefl|constructor]. }
  destruct (strcmp_gt (pd_bdf x) (pd_bdf y)) eqn:Hg.
  - destruct (sort_inner y l) as [m' r'] eqn:E. intros [= <- <-]. destruct (IH _ _ _ E) as (Hp & Hm & Hf).
    split; [by rewrite Permutation_swap, Hp|].
    assert (bdf_le m' x) by (eapply strcmp_trans; [exact Hm|by apply strcmp_total]). split; [done|by constructor].
  - destruct (sort_inner x l) as [m' r'] eqn:E. intros [= <- <-]. destruct (IH _ _ _ E) as (Hp & Hm & Hf).
    split; [rewrite Permutation_swap, Hp; apply Permutation_swap|]. split; [done|].
    constructor; [|done]. by eapply strcmp_trans.
Qed.

Lemma sort_sorted n : forall l, (length l <= n)%nat -> sort_outer n l ≡ₚ l /\ StronglySorted bdf_le (sort_outer n l).
Proof.
  induction n as [|n IH]; intros [|x l] Hl; cbn [sort_outer length] in *;
    [split; [done|apply SSorted_nil]|lia|split; [done|apply SSorted_nil]|].
  destruct (sort_inner x l) as [m r] eqn:E. destruct (inner_min _ _ _ _ E) as (Hp & _ & Hf).
  assert (Hlen : length r = length l) by (apply Permutation_length in Hp; simpl in Hp; lia).
  destruct (IH r ltac:(lia)) as [H1 H2]. split; [by rewrite H1|]. apply SSorted_cons; [done|]. by rewrite H1.
Qed.

Lemma strcmp_antisym a : forall b, strcmp_gt a b = false -> strcmp_gt b a = false -> a = b.
Proof.
  induction a as [|c a IH]; intros [|d b]; cbn [strcmp_gt]; try done. rewrite (Z.eqb_sym (ch d)).
  destruct (Z.eqb_spec (ch c) (ch d)) as [E|]; [|lia]. intros H1 H2. f_equal; [|by apply IH].
  apply (f_equal (fun z => ascii_of_N (Z.to_N z))) in E. unfold ch in E. by rewrite !N2Z.id, !ascii_N_embedding in E.
Qed.

Lemma sorted_unique a : forall b, a ≡ₚ b -> StronglySorted bdf_le a -> StronglySorted bdf_le b ->
  NoDup (pd_bdf <$> b) -> a = b.
Proof.
  induction a as [|x a IH]; intros b Hs Ha Hb Hd; [by apply Permutation_nil_l in Hs|].
  destruct b as [|y b]; [by apply Permutation_nil_r in Hs|].
  apply StronglySorted_inv in Ha as [Ha Hxa]. apply StronglySorted_inv in Hb as [Hb Hyb].
  cbn [fmap list_fmap] in Hd. apply NoDup_cons in Hd as [Hy Hd].
  assert (x = y) as ->.
  { assert (Hx : x ∈ y :: b) by (rewrite <- Hs; left). assert (Hy' : y ∈ x :: a) by (rewrite Hs; left).
    apply elem_of_cons in Hx as [?|Hx]; [done|]. apply elem_of_cons in Hy' as [?|Hy']; [done|].
    rewrite Forall_forall in Hxa, Hyb. specialize (Hxa _ Hy'). specialize (Hyb _ Hx).
    exfalso. apply Hy. apply list_elem_of_fmap. exists x. split; [|done]. by apply strcmp_antisym. }
  f_equal. by apply IH; [apply (Permutation_cons_inv (a := y))|..].
Qed.

(** Discovery reports every device of the directory that matches and hands over
    the first of them, as many as there is room for, sorted by address; with room for
    all of them the result does not depend on the order of the directory. *)
Theorem discover_sorted sysfs names names' vendor device n_out : names' ≡ₚ names ->
  let found := pci_scan sysfs vendor device names in
  exists out, pw_pci_discover sysfs (Ok names) vendor device n_out = Ok (length found, out) /\
    out ≡ₚ take n_out found /\ StronglySorted bdf_le out /\
    ((length found <= n_out)%nat -> NoDup (pd_bdf <$> found) ->
     pw_pci_discover sysfs (Ok names') vendor device n_out = Ok (length found, out)).
Proof.
  intros Hp found. destruct (sort_sorted (length (take n_out found)) (take n_out found) ltac:(lia)) as [H1 H2].
  eexists. split; [reflexivity|]. fold found. split; [done|]. split; [done|]. intros Hn Hnd.
  assert (Hf : pci_scan sysfs vendor device names' ≡ₚ found).
  { unfold found, pci_scan. by rewrite Hp. }
  unfold pw_pci_discover. set (found' := pci_scan _ _ _ names') in *.
  rewrite !take_ge in * by (rewrite ?Hf; lia). rewrite Hf at 1. do 2 f_equal.
  destruct (sort_sorted (length found') found' ltac:(lia)) as [H3 H4].
  assert (Hs : sort_outer (length found') found' ≡ₚ sort_outer (length found) found) by by rewrite H3, H1.
  assert (Hd : NoDup (pd_bdf <$> sort_outer (length found) found)) by by rewrite H1.
  by apply sorted_unique.
Qed.

Definition s_names : list text := String.list_ascii_of_string <$> ["."; "0000:08:00.0"; "0000:07:00.0"; "pci"]%string.
Definition s_sysfs (name : text) (file : string) : option string :=
  if String.eqb file "vendor"%string then Some "0x10ee"%string else Some "0xa502"%string.

Lemma discover_sorted_witness :
  pw_pci_discover s_sysfs (Ok (reverse s_names)) PW_DEFAULT_PCI_VENDOR PW_DEFAULT_PCI_DEVICE 8 =
  pw_pci_discover s_sysfs (Ok s_names) PW_DEFAULT_PCI_VENDOR PW_DEFAULT_PCI_DEVICE 8 /\
  (pd_bdf <$> pci_scan s_sysfs PW_DEFAULT_PCI_VENDOR PW_DEFAULT_PCI_DEVICE s_names) =
  String.list_ascii_of_string <$> ["0000:08:00.0"; "0000:07:00.0"; "pci"]%string.
Proof.
  split; [|vm_compute; reflexivity].
  destruct (discover_sorted s_sysfs s_names (reverse s_names) PW_DEFAULT_PCI_VENDOR PW_DEFAULT_PCI_DEVICE 8
    (reverse_Permutation _)) as (out & H1 & _ & _ & H2).
  rewrite H1. apply H2; [apply Nat.leb_le; vm_compute; reflexivity|].
  apply (bool_decide_unpack _). vm_compute. exact I.
Defined.
