(* ===== verification/Vfio.v ===== *)
(** * VFIO groups and DMA mappings

    Models [sw/libpacketwyrm/src/vfio.c]: the registry of IOMMU groups that cards
    share, opening and closing a card's BAR, the per-container allocator of DMA
    addresses, and the driver binding. The kernel is the list of open descriptors
    and the IOMMU mappings it holds; what each call answers is [vfio_env].
    [vfio_registry_exact] is the invariant over every sequence of calls. *)

From Stdlib Require Import Ascii.
From Stdlib Require String.
From S2P Require Import Prelude Types Scalar Text Pci.

Local Open Scope string_scope.
Local Open Scope Z_scope.
Local Open Scope list_scope.

Definition PW_VFIO_MAX_GROUPS : nat := 16.
Definition PW_VFIO_IOVA_BASE : Z := 0x100000000.

Record vfio_group_slot := {
  vs_group_no : Z; vs_group_fd : Z; vs_container_fd : Z; vs_iova_next : Z; vs_refcount : Z
}.

(** A DMA mapping the kernel holds for a container. *)
Record dma_map := { dm_container : Z; dm_iova : Z; dm_len : Z }.

(** [vf_sysfs]: what was written to sysfs files, newest first. *)
Record vfio := {
  vf_groups : list vfio_group_slot; vf_live : list Z; vf_dma : list dma_map; vf_sysfs : list (text * list Z)
}.

Definition free_slot : vfio_group_slot :=
  {| vs_group_no := -1; vs_group_fd := 0; vs_container_fd := 0; vs_iova_next := 0; vs_refcount := 0 |}.
Definition vfio_init (live : list Z) : vfio :=
  {| vf_groups := replicate PW_VFIO_MAX_GROUPS free_slot; vf_live := live; vf_dma := []; vf_sysfs := [] |}.

(** [vh_base] tells whether the BAR is mapped; [vh_slot] is the registry index plus one. *)
Record pw_vfio_handle := {
  vh_container : Z; vh_group : Z; vh_device : Z; vh_base : bool; vh_size : Z; vh_slot : nat
}.

Definition no_handle : pw_vfio_handle :=
  {| vh_container := -1; vh_group := -1; vh_device := -1; vh_base := false; vh_size := 0; vh_slot := 0 |}.

Definition used (g : vfio_group_slot) : bool := 0 <? vs_refcount g.

Definition vfio_group_find (gs : list vfio_group_slot) (grp : Z) : option nat :=
  fst <$> list_find (fun g => used g = true /\ vs_group_no g = grp) gs.
Definition vfio_group_free_slot (gs : list vfio_group_slot) : option nat :=
  fst <$> list_find (fun g => vs_refcount g = 0) gs.

Definition set_groups (s : vfio) (gs : list vfio_group_slot) : vfio :=
  {| vf_groups := gs; vf_live := vf_live s; vf_dma := vf_dma s; vf_sysfs := vf_sysfs s |}.
Definition opened (fd : Z) (s : vfio) : vfio :=
  {| vf_groups := vf_groups s; vf_live := fd :: vf_live s; vf_dma := vf_dma s; vf_sysfs := vf_sysfs s |}.
(** [close]: the mappings of a container end with its descriptor. *)
Definition closed (fd : Z) (s : vfio) : vfio :=
  {| vf_groups := vf_groups s; vf_live := filter (fun x => x <> fd) (vf_live s);
     vf_dma := filter (fun m => dm_container m <> fd) (vf_dma s); vf_sysfs := vf_sysfs s |}.
Definition fd_close (fd : Z) (s : vfio) : vfio := if 0 <=? fd then closed fd s else s.

(** The target of a link after its last slash. *)
Definition link_base (target : text) : text :=
  match split_last "/"%char target with Some (_, b) => b | None => target end.

(** The number that ends the [iommu_group] link: [sscanf] with [%d]. *)
Definition iommu_group_of (link : option text) : Z :=
  match link with
  | None => -1
  | Some target =>
      let '(neg, t) := split_sign (skip_space (String.string_of_list_ascii (link_base target))) in
      match (span_digits 10 t).1 with
      | [] => -1
      | ds => let v := digits_val 10 ds in i32 (Z.max (- 2 ^ 63) (Z.min (2 ^ 63 - 1) (if neg then - v else v)))
      end
  end.

Definition dev_file (bdf : text) (file : string) : text := chars PW_SYSFS_PCI ++ "/"%char :: bdf ++ chars file.

(** The writes that wake a device: ["on"] to its power control, then bus mastering
    and memory decoding in [PCI_COMMAND] when a bit of them is missing. [cmd] is what
    is read at offset 4. *)
Definition prep_writes (power config : bool) (cmd : option Z) (bdf : text) : list (text * list Z) :=
  (if power then [(dev_file bdf "/power/control", [111; 110])] else []) ++
  match config, cmd with
  | true, Some c =>
      let want := c ||| 0x0006 in
      if want =? c then [] else [(dev_file bdf "/config", [want &&& 0xFF; want >>> 8])]
  | _, _ => []
  end.

Definition pw_vfio_prep_device (power config : bool) (cmd : option Z) (bdf : text) (s : vfio) : vfio :=
  {| vf_groups := vf_groups s; vf_live := vf_live s; vf_dma := vf_dma s;
     vf_sysfs := rev (prep_writes power config cmd bdf) ++ vf_sysfs s |}.

(** The answers of the calls of one open: whether the two sysfs files open and the
    command register read, the target of the group link, the descriptors handed
    out, the successes of the [ioctl]s, the region's size and whether it can be
    mapped. *)
Record vfio_env := {
  ve_power : bool; ve_config : bool; ve_cmd : option Z;
  ve_iommu_link : text -> option text;
  ve_container : option Z; ve_api : bool;
  ve_group : option Z; ve_viable : bool; ve_attach : bool;
  ve_device : option Z;
  ve_region : option (Z * bool);
  ve_mmap : bool
}.

(** Open the group and its container into a free slot. *)
Definition open_group (e : vfio_env) (grp : Z) (s : vfio) : vfio * result pw_status nat :=
  match vfio_group_free_slot (vf_groups s) with
  | None => (s, Err PW_E_NO_RESOURCES)
  | Some gi =>
      match ve_container e with
      | None => (s, Err PW_E_IO)
      | Some cfd =>
          let s := opened cfd s in
          if negb (ve_api e) then (closed cfd s, Err PW_E_BACKEND) else
          match ve_group e with
          | None => (closed cfd s, Err PW_E_IO)
          | Some gfd =>
              let s := opened gfd s in
              if negb (ve_viable e) || negb (ve_attach e) then (closed cfd (closed gfd s), Err PW_E_IO) else
              (set_groups s (<[gi := {| vs_group_no := grp; vs_group_fd := gfd; vs_container_fd := cfd;
                                        vs_iova_next := 0; vs_refcount := 0 |}]> (vf_groups s)), Ok gi)
          end
      end
  end.

Definition acquire (e : vfio_env) (grp : Z) (s : vfio) : vfio * result pw_status nat :=
  match vfio_group_find (vf_groups s) grp with
  | Some gi => (s, Ok gi)
  | None => open_group e grp s
  end.

Definition set_ref (g : vfio_group_slot) (n : Z) : vfio_group_slot :=
  {| vs_group_no := vs_group_no g; vs_group_fd := vs_group_fd g; vs_container_fd := vs_container_fd g;
     vs_iova_next := vs_iova_next g; vs_refcount := n |}.

(** Drop one use of slot [gi]; the last one closes the group. *)
Definition release (gi : nat) (s : vfio) : vfio :=
  match vf_groups s !! gi with
  | Some g =>
      if negb (used g) then s else
      if vs_refcount g - 1 =? 0 then
        let s := fd_close (vs_container_fd g) (fd_close (vs_group_fd g) s) in
        set_groups s (<[gi := {| vs_group_no := -1; vs_group_fd := -1; vs_container_fd := -1; vs_iova_next := 0;
                                 vs_refcount := 0 |}]> (vf_groups s))
      else set_groups s (<[gi := set_ref g (vs_refcount g - 1)]> (vf_groups s))
  | None => s
  end.

Definition pw_vfio_close (h : pw_vfio_handle) (s : vfio) : vfio :=
  let s := fd_close (vh_device h) s in
  match vh_slot h with S gi => release gi s | O => s end.

(** A device that is refused leaves a group just opened for it closed again. *)
Definition undo_open (gi : nat) (s : vfio) : vfio :=
  match vf_groups s !! gi with
  | Some g =>
      if vs_refcount g =? 0 then
        let s := closed (vs_container_fd g) (closed (vs_group_fd g) s) in
        set_groups s (<[gi := {| vs_group_no := -1; vs_group_fd := vs_group_fd g;
                                 vs_container_fd := vs_container_fd g; vs_iova_next := vs_iova_next g;
                                 vs_refcount := vs_refcount g |}]> (vf_groups s))
      else s
  | None => s
  end.

(** The handle of a device, its group counted. *)
Definition hand_out (gi : nat) (dfd : Z) (s : vfio) : vfio * pw_vfio_handle :=
  match vf_groups s !! gi with
  | Some g =>
      (set_groups s (<[gi := set_ref g (vs_refcount g + 1)]> (vf_groups s)),
       {| vh_container := vs_container_fd g; vh_group := vs_group_fd g; vh_device := dfd; vh_base := false;
          vh_size := 0; vh_slot := S gi |})
  | None => (s, no_handle)
  end.

Definition map_bar (e : vfio_env) (h : pw_vfio_handle) (s : vfio) : vfio * result pw_status pw_vfio_handle :=
  match ve_region e with
  | None => (pw_vfio_close h s, Err PW_E_IO)
  | Some (size, mappable) =>
      if (size =? 0) || negb mappable then (pw_vfio_close h s, Err PW_E_BACKEND) else
      if negb (ve_mmap e) then (pw_vfio_close h s, Err PW_E_IO) else
      (s, Ok {| vh_container := vh_container h; vh_group := vh_group h; vh_device := vh_device h; vh_base := true;
                vh_size := size; vh_slot := vh_slot h |})
  end.

Definition pw_vfio_open_bar (e : vfio_env) (bdf : text) (bar_index : Z) (s : vfio) :
    vfio * result pw_status pw_vfio_handle :=
  if (bar_index <? 0) || (5 <? bar_index) then (s, Err PW_E_INVAL) else
  match pw_pci_normalize_bdf bdf with
  | None => (s, Err PW_E_INVAL)
  | Some bdf =>
      let s := pw_vfio_prep_device (ve_power e) (ve_config e) (ve_cmd e) bdf s in
      let grp := iommu_group_of (ve_iommu_link e bdf) in
      if grp <? 0 then (s, Err PW_E_IO) else
      match acquire e grp s with
      | (s, Err st) => (s, Err st)
      | (s, Ok gi) =>
          match ve_device e with
          | None => (undo_open gi s, Err PW_E_IO)
          | Some dfd => let '(s, h) := hand_out gi dfd (opened dfd s) in map_bar e h s
          end
      end
  end.

(** ** DMA *)

Definition set_iova (g : vfio_group_slot) (n : Z) : vfio_group_slot :=
  {| vs_group_no := vs_group_no g; vs_group_fd := vs_group_fd g; vs_container_fd := vs_container_fd g;
     vs_iova_next := n; vs_refcount := vs_refcount g |}.

(** [vaddr] and [len] of the buffer, [page] the page size (0 when unknown), [ok] the
    answer of the [ioctl]. *)
Definition pw_vfio_map_dma (page : Z) (ok : bool) (h : pw_vfio_handle) (vaddr len : Z) (s : vfio) :
    vfio * result pw_status Z :=
  if (vh_container h <? 0) || (vaddr =? 0) || (len =? 0) then (s, Err PW_E_INVAL) else
  if (0 <? page) && (ztrue (vaddr mod page) || ztrue (len mod page)) then (s, Err PW_E_INVAL) else
  match vh_slot h with
  | O => (s, Err PW_E_INVAL)
  | S gi =>
      match vf_groups s !! gi with
      | None => (s, Err PW_E_INVAL)
      | Some g =>
          let iova := if vs_iova_next g =? 0 then PW_VFIO_IOVA_BASE else vs_iova_next g in
          let s := set_groups s (<[gi := set_iova g iova]> (vf_groups s)) in
          if 2 ^ 64 - 1 - len <? iova then (s, Err PW_E_INVAL) else
          if negb ok then (s, Err PW_E_IO) else
          ({| vf_groups := <[gi := set_iova g (iova + len)]> (vf_groups s); vf_live := vf_live s;
              vf_dma := {| dm_container := vh_container h; dm_iova := iova; dm_len := len |} :: vf_dma s;
              vf_sysfs := vf_sysfs s |}, Ok iova)
      end
  end.

Definition pw_vfio_unmap_dma (ok : bool) (h : pw_vfio_handle) (iova len : Z) (s : vfio) : vfio * pw_status :=
  if (vh_container h <? 0) || (len =? 0) then (s, PW_E_INVAL) else
  if negb ok then (s, PW_E_IO) else
  ({| vf_groups := vf_groups s; vf_live := vf_live s;
      vf_dma := filter (fun m => ~ (dm_container m = vh_container h /\ dm_iova m = iova /\ dm_len m = len)) (vf_dma s);
      vf_sysfs := vf_sysfs s |}, PW_OK).

(** The size of another BAR of the open device. *)
Definition pw_vfio_map_region (region : option (Z * bool)) (mmap : bool) (h : pw_vfio_handle) (bar_index : Z) :
    result pw_status Z :=
  if (vh_device h <? 0) || (bar_index <? 0) || (5 <? bar_index) then Err PW_E_INVAL else
  match region with
  | None => Err PW_E_IO
  | Some (size, mappable) =>
      if (size =? 0) || negb mappable then Err PW_E_BACKEND else if negb mmap then Err PW_E_IO else Ok size
  end.

(** ** Driver binding *)

(** The sysfs writes made, in order, and whether all succeeded; [answers] are the
    successes. *)
Fixpoint write_all_strs (ws : list (text * text)) (answers : list bool) : list (text * text) * bool :=
  match ws, answers with
  | [], _ => ([], true)
  | w :: ws, true :: answers => let '(done, ok) := write_all_strs ws answers in (w :: done, ok)
  | w :: _, _ => ([w], false)
  end.

(** [driver] is the target of the driver link, if there is one; a write whose answer
    is missing fails. *)
Definition pw_vfio_bind (driver : option text) (answers : list bool) (bdf : text) :
    list (text * text) * pw_status :=
  if bool_decide (link_base <$> driver = Some (chars "vfio-pci")) then ([], PW_OK) else
  let unbind := match driver with Some _ => [(dev_file bdf "/driver/unbind", bdf)] | None => [] end in
  let '(done, ok) := write_all_strs
    (unbind ++ [(dev_file bdf "/driver_override", chars "vfio-pci");
                (chars "/sys/bus/pci/drivers/vfio-pci/bind", bdf)]) answers in
  (done, if ok then PW_OK else PW_E_IO).

(** ** Groups are shared and released exactly, DMA ranges never overlap *)

(** ** The invariant *)

Definition slot_fds (g : vfio_group_slot) : list Z := if used g then [vs_group_fd g; vs_container_fd g] else [].
Definition held (gs : list vfio_group_slot) : list Z := gs ≫= slot_fds.

Definition users (hs : list pw_vfio_handle) (i : nat) : list pw_vfio_handle := filter (fun h => vh_slot h = S i) hs.

Definition covers (g : vfio_group_slot) (m : dma_map) : Prop :=
  dm_container m = vs_container_fd g /\ PW_VFIO_IOVA_BASE <= dm_iova m /\ 0 < dm_len m /\
  dm_iova m + dm_len m <= vs_iova_next g.

Definition apart (m n : dma_map) : Prop :=
  dm_container m = dm_container n -> dm_iova m + dm_len m <= dm_iova n \/ dm_iova n + dm_len n <= dm_iova m.

(** [hs] are the handles in the hands of the cards. *)
Record vfio_inv (live0 : list Z) (hs : list pw_vfio_handle) (s : vfio) : Prop := {
  vi_len : length (vf_groups s) = PW_VFIO_MAX_GROUPS;
  vi_live : vf_live s ≡ₚ (vh_device <$> hs) ++ held (vf_groups s) ++ live0;
  vi_nodup : NoDup (vf_live s);
  vi_fds : Forall (fun fd => 0 <= fd) (vf_live s);
  vi_refs : forall i g, vf_groups s !! i = Some g -> vs_refcount g = Z.of_nat (length (users hs i));
  vi_handles : forall h, h ∈ hs -> exists i g, vh_slot h = S i /\ vf_groups s !! i = Some g /\
    vh_container h = vs_container_fd g /\ vh_group h = vs_group_fd g;
  vi_once : forall i j g k, vf_groups s !! i = Some g -> vf_groups s !! j = Some k ->
    used g = true -> used k = true -> vs_group_no g = vs_group_no k -> i = j;
  vi_next : forall i g, vf_groups s !! i = Some g -> used g = true ->
    vs_iova_next g = 0 \/ PW_VFIO_IOVA_BASE <= vs_iova_next g < 2 ^ 64;
  vi_dma : forall m, m ∈ vf_dma s -> exists i g, vf_groups s !! i = Some g /\ used g = true /\ covers g m;
  vi_apart : ForallOrdPairs apart (vf_dma s)
}.

(** ** Slots *)

Lemma held_split gs i g : gs !! i = Some g -> held gs ≡ₚ slot_fds g ++ held (delete i gs).
Proof. intros H%delete_Permutation. unfold held. by rewrite H at 1. Qed.

Lemma delete_insert {A} (l : list A) : forall i x, delete i (<[i := x]> l) = delete i l.
Proof. induction l as [|y l IH]; intros [|i] x; cbn; [done..|]. f_equal. apply IH. Qed.

Lemma held_insert gs i g g' : gs !! i = Some g -> held (<[i := g']> gs) ≡ₚ slot_fds g' ++ held (delete i gs).
Proof.
  intros H. rewrite (held_split _ i g').
  - by rewrite delete_insert.
  - apply list_lookup_insert_eq. by eapply lookup_lt_Some.
Qed.

Lemma sublist_Forall {A} (P : A -> Prop) l k : sublist l k -> Forall P k -> Forall P l.
Proof. rewrite !Forall_forall. intros Hs H x Hx. by eapply H, elem_of_sublist. Qed.

Lemma ordpairs_sublist {A} (R : A -> A -> Prop) l k : sublist l k -> ForallOrdPairs R k -> ForallOrdPairs R l.
Proof.
  induction 1 as [|x l k Hs IH|x l k Hs IH]; inversion 1; subst; [constructor| |by apply IH].
  constructor; [|by apply IH]. by eapply sublist_Forall.
Qed.

Lemma filter_others (l r : list Z) x : NoDup l -> l ≡ₚ x :: r -> filter (fun y => y <> x) l ≡ₚ r.
Proof.
  intros Hn Hp. rewrite Hp in *. apply NoDup_cons in Hn as [Hx _]. rewrite filter_cons_False by naive_solver.
  rewrite filter_keep; [done|]. by intros y Hy ->.
Qed.

Lemma users_cons h hs i : users (h :: hs) i = if decide (vh_slot h = S i) then h :: users hs i else users hs i.
Proof. done. Qed.

Lemma users_none hs i : length (users hs i) = 0%nat -> forall h, h ∈ hs -> vh_slot h <> S i.
Proof.
  intros Hl h Hh E. apply nil_length_inv in Hl. apply (not_elem_of_nil h). rewrite <- Hl. by apply list_elem_of_filter.
Qed.

(** Which slot a lookup hits after an update. *)
Ltac slot_cases :=
  repeat match goal with
  | H : <[?i := _]> ?gs !! ?j = Some _ |- _ =>
      let E := fresh in destruct (decide (i = j)) as [E|E];
      [subst j; rewrite list_lookup_insert_eq in H by (by eapply lookup_lt_Some); injection H as H; try subst
      |rewrite list_lookup_insert_ne in H by done]
  end.

(** Existing slots after an update of slot [i] that keeps what [P] looks at. *)
Lemma slot_after (P : vfio_group_slot -> Prop) (gs : list vfio_group_slot) (i j : nat) (g g' k : vfio_group_slot) :
  gs !! i = Some g -> (j = i -> P g -> P g') -> gs !! j = Some k -> P k ->
  exists k', <[i := g']> gs !! j = Some k' /\ P k'.
Proof.
  intros Hi Hg Hj Hk. destruct (decide (j = i)) as [->|Hne].
  - simplify_eq. exists g'. split; [|by apply Hg]. apply list_lookup_insert_eq. by eapply lookup_lt_Some.
  - exists k. by rewrite list_lookup_insert_ne.
Qed.

Section Inv.
Context (live0 : list Z).

Lemma inv_perm hs hs' s : hs ≡ₚ hs' -> vfio_inv live0 hs s -> vfio_inv live0 hs' s.
Proof.
  intros Hp [H1 H2 H3 H4 H5 H6 H7 H10 H8 H9]. split; try done.
  - by rewrite <- Hp.
  - intros i g Hg. rewrite (H5 i g Hg). unfold users. by rewrite Hp.
  - intros h Hh. apply H6. by rewrite Hp.
Qed.

(** Containers are open descriptors; a new one is none of them. *)
Lemma held_live hs s i g : vfio_inv live0 hs s -> vf_groups s !! i = Some g -> used g = true ->
  vs_container_fd g ∈ vf_live s /\ vs_group_fd g ∈ vf_live s.
Proof.
  intros Hi Hg Hu. rewrite (vi_live _ _ _ Hi), (held_split _ _ _ Hg). unfold slot_fds. rewrite Hu.
  split; rewrite !elem_of_app; right; left; left; set_solver.
Qed.

Lemma dma_live hs s m : vfio_inv live0 hs s -> m ∈ vf_dma s -> dm_container m ∈ vf_live s.
Proof. intros Hi (i & g & Hg & Hu & -> & _)%(vi_dma _ _ _ Hi). by eapply held_live. Qed.

Lemma closed_opened fd s : (forall m, m ∈ vf_dma s -> dm_container m ∈ vf_live s) -> fd ∉ vf_live s ->
  closed fd (opened fd s) = s.
Proof.
  intros Hd Hf. unfold closed, opened. cbn [vf_groups vf_live vf_dma vf_sysfs].
  rewrite filter_cons_False by naive_solver. rewrite !filter_keep; [by destruct s| |].
  - intros m Hm <-. by apply Hf, Hd.
  - by intros x Hx ->.
Qed.

Lemma closed_opened_two hs s cfd gfd : vfio_inv live0 hs s -> NoDup (cfd :: gfd :: vf_live s) ->
  closed gfd (opened gfd (opened cfd s)) = opened cfd s /\ closed cfd (opened cfd s) = s.
Proof.
  intros Hi Hn. rewrite !NoDup_cons in Hn. split; apply closed_opened; cbn; try set_solver.
  - intros m Hm. right. by eapply dma_live.
  - intros m Hm. by eapply dma_live.
Qed.

(** ** Opening *)

(** What the kernel hands out is new. *)
Definition answers (e : vfio_env) : list Z := option_list (ve_container e) ++ option_list (ve_group e) ++ option_list (ve_device e).
Definition fresh (e : vfio_env) (s : vfio) : Prop := NoDup (answers e ++ vf_live s) /\ Forall (fun fd => 0 <= fd) (answers e).

(** Slot [gi] holds the group: in use already, or just opened by this call. *)
Definition ready (e : vfio_env) (s s1 : vfio) (gi : nat) : Prop := exists g, vf_groups s1 !! gi = Some g /\
  (used g = true /\ s1 = s \/
   vs_refcount g = 0 /\ (forall i k, vf_groups s !! i = Some k -> used k = true -> vs_group_no k <> vs_group_no g) /\
   vs_iova_next g = 0 /\ (exists g0, vf_groups s !! gi = Some g0 /\ vs_refcount g0 = 0) /\
   ve_container e = Some (vs_container_fd g) /\ ve_group e = Some (vs_group_fd g) /\
   s1 = set_groups (opened (vs_group_fd g) (opened (vs_container_fd g) s)) (<[gi := g]> (vf_groups s))).

Lemma acquire_spec hs e grp s : vfio_inv live0 hs s -> fresh e s ->
  match acquire e grp s with (s1, Err _) => s1 = s | (s1, Ok gi) => ready e s s1 gi end.
Proof.
  intros Hi [Hn _]. unfold acquire, vfio_group_find. destruct (list_find _ _) as [[gi g]|] eqn:Hf; cbn [fmap option_fmap option_map fst].
  { apply list_find_Some in Hf as (Hg & [Hu _] & _). exists g. auto. }
  rewrite list_find_None, Forall_forall in Hf. unfold open_group, vfio_group_free_slot.
  destruct (list_find _ _) as [[gi g0]|] eqn:Hz; cbn [fmap option_fmap option_map fst]; [|done].
  apply list_find_Some in Hz as (Hg0 & Hr0 & _). unfold answers in Hn.
  destruct (ve_container e) as [cfd|] eqn:Ec; [|done].
  simpl in Hn.
  assert (Eco : closed cfd (opened cfd s) = s).
  { apply closed_opened; [intros m; by apply (dma_live hs)|]. rewrite NoDup_cons in Hn. set_solver. }
  destruct (ve_api e); cbn [negb]; [|exact Eco]. destruct (ve_group e) as [gfd|] eqn:Eg; [|exact Eco].
  assert (Ego : closed gfd (opened gfd (opened cfd s)) = opened cfd s).
  { eapply (closed_opened_two hs s cfd gfd); [done|]. eapply sublist_NoDup; [exact Hn|].
    cbn. do 2 apply sublist_skip. by apply sublist_inserts_l. }
  destruct (negb _ || negb _); [by rewrite Ego|]. eexists. split; [apply list_lookup_insert_eq; by eapply lookup_lt_Some|].
  right. cbn [vs_refcount vs_group_no vs_container_fd vs_group_fd vs_iova_next]. split_and!; try done; [|eauto].
  intros i k Hk Hu Hgrp. apply (Hf k); [by eapply list_elem_of_lookup_2|]. done.
Qed.

Lemma user_some hs gi x : x ∈ hs -> vh_slot x = S gi -> 0 < Z.of_nat (length (users hs gi)).
Proof.
  intros Hx Hs. enough (x ∈ users hs gi) by (destruct (users hs gi); [set_solver|cbn; lia]). by apply list_elem_of_filter.
Qed.

(** An idle slot may hold anything. *)
Lemma idle_inv hs s gi g0 g' : vfio_inv live0 hs s -> vf_groups s !! gi = Some g0 -> vs_refcount g0 = 0 ->
  vs_refcount g' = 0 -> vfio_inv live0 hs (set_groups s (<[gi := g']> (vf_groups s))).
Proof.
  intros [H1 H2 H3 H4 H5 H6 H7 H10 H8 H9] Hg Hr Hr'.
  assert (Hidle : forall k, vs_refcount k = 0 -> used k = true -> False) by (intros k; unfold used; lia).
  split; cbn [vf_groups vf_live vf_dma set_groups]; try done.
  - by rewrite length_insert.
  - rewrite H2, (held_insert _ _ _ _ Hg), (held_split _ _ _ Hg). unfold slot_fds, used. by rewrite Hr, Hr'.
  - intros i k Hk. slot_cases; [rewrite Hr', <- Hr|]; by apply H5.
  - intros x Hx. destruct (H6 x Hx) as (i & k & Hs & Hk & Hc). exists i, k. split_and!; try apply Hc; [done|].
    rewrite list_lookup_insert_ne; [done|]. intros ->. simplify_eq. rewrite (H5 _ _ Hg) in Hr.
    pose proof (user_some hs i x Hx Hs). lia.
  - intros i j k k' Hk Hk' Hu Hu'. slot_cases; eauto; by exfalso; eauto.
  - intros i k Hk Hu. slot_cases; [by exfalso; eauto|eauto].
  - intros m Hm. destruct (H8 m Hm) as (i & k & Hk & Hu & Hc). exists i, k. split_and!; try done.
    rewrite list_lookup_insert_ne; [done|]. intros ->. simplify_eq. eauto.
Qed.

(** One more user of a slot: what the slot was used for stays. *)
Lemma add_user hs s gi g0 g' h fds : vfio_inv live0 hs s -> vf_groups s !! gi = Some g0 ->
  vs_refcount g' = vs_refcount g0 + 1 -> (used g0 = true -> set_ref g' 0 = set_ref g0 0) ->
  (used g0 = false -> vs_iova_next g' = 0) ->
  (forall i k, vf_groups s !! i = Some k -> used k = true -> vs_group_no k = vs_group_no g' -> i = gi) ->
  vh_slot h = S gi -> vh_container h = vs_container_fd g' -> vh_group h = vs_group_fd g' ->
  vh_device h :: slot_fds g' ≡ₚ fds ++ slot_fds g0 ->
  NoDup (fds ++ vf_live s) -> Forall (fun fd => 0 <= fd) fds ->
  vfio_inv live0 (h :: hs) {| vf_groups := <[gi := g']> (vf_groups s); vf_live := fds ++ vf_live s;
                              vf_dma := vf_dma s; vf_sysfs := vf_sysfs s |}.
Proof.
  intros Hi Hg Hr Hsame Hzero Hnum Hs Hc Hgr Hp Hn Hf. pose proof Hi as [H1 H2 H3 H4 H5 H6 H7 H10 H8 H9].
  assert (Hu : used g' = true) by (unfold used; rewrite Hr, (H5 _ _ Hg), Z.ltb_lt; lia).
  split; cbn [vf_groups vf_live vf_dma]; try done.
  - by rewrite length_insert.
  - rewrite H2, (held_insert _ _ _ _ Hg), (held_split _ _ _ Hg). cbn [fmap list_fmap].
    rewrite (assoc_L (++) fds), (Permutation_app_comm fds), <- (assoc_L (++)), (assoc_L (++) fds), (assoc_L (++) fds).
    rewrite <- Hp. solve_Permutation.
  - by apply Forall_app.
  - intros i k Hk. rewrite users_cons. slot_cases.
    + rewrite decide_True by done. rewrite Hr, (H5 _ _ Hg). cbn [length]. lia.
    + rewrite decide_False by congruence. by apply H5.
  - intros x [->|Hx]%elem_of_cons.
    + exists gi, g'. split_and!; try done. apply list_lookup_insert_eq. by eapply lookup_lt_Some.
    + destruct (H6 x Hx) as (i & k & Hi' & Hk & Hck & Hgk). exists i.
      edestruct (slot_after (fun k => vh_container x = vs_container_fd k /\ vh_group x = vs_group_fd k)
        (vf_groups s) gi i g0 g' k) as (k' & ? & ? & ?); try done; [|by exists k'].
      intros -> Hx0. enough (set_ref g' 0 = set_ref g0 0) as [= ? ? ? ?] by (destruct Hx0; split; congruence).
      apply Hsame. unfold used. rewrite (H5 _ _ Hg), Z.ltb_lt. by apply (user_some hs gi x).
  - intros i j k k' Hk Hk' Huk Huk' E. slot_cases; eauto using eq_sym.
  - intros i k Hk Huk. slot_cases; [|by eapply H10]. destruct (used g0) eqn:Hu0; [|auto].
    pose proof (Hsame eq_refl) as [= ? ? ? E]. rewrite E. by apply (H10 gi).
  - intros m Hm. destruct (H8 m Hm) as (i & k & Hk & Huk & Hcm). exists i.
    edestruct (slot_after (fun k => used k = true /\ covers k m) (vf_groups s) gi i g0 g' k) as (k' & ? & ? & ?);
      try done; [|by exists k'].
    intros -> [Hu0 Hc0]. split; [done|]. apply Hsame in Hu0 as [= ? ? ? ?]. unfold covers in *. congruence.
Qed.

Lemma hand_inv hs e s s1 gi dfd : vfio_inv live0 hs s -> fresh e s -> ready e s s1 gi -> ve_device e = Some dfd ->
  let '(s2, h) := hand_out gi dfd (opened dfd s1) in vfio_inv live0 (h :: hs) s2 /\ vh_device h = dfd.
Proof.
  intros Hi [Hn Hf] (g & Hg & Hcase) Hd. unfold hand_out. cbn [opened vf_groups]. rewrite Hg. split; [|done].
  unfold answers in Hn, Hf. rewrite Hd in Hn, Hf.
  destruct Hcase as [[Hu ->]|(Hr & Hnew & Hz & (g0 & Hg0 & Hr0) & Ec & Eg & ->)].
  - apply (add_user hs s gi g (set_ref g (vs_refcount g + 1)) _ [dfd]); cbn; try done.
    + by rewrite Hu.
    + intros i k Hk Huk E. by eapply (vi_once _ _ _ Hi).
    + unfold slot_fds. rewrite Hu. assert (used (set_ref g (vs_refcount g + 1)) = true) as ->; [|done].
      unfold used in *. cbn. rewrite Z.ltb_lt in *. lia.
    + eapply sublist_NoDup; [exact Hn|]. rewrite <- !(assoc_L (++)). do 2 apply sublist_inserts_l. done.
    + rewrite !Forall_app in Hf. tauto.
  - rewrite Ec, Eg in Hn, Hf. unfold set_groups, opened. cbn [vf_groups vf_live vf_dma vf_sysfs].
    rewrite list_insert_insert_eq. 
    apply (add_user hs s gi g0 (set_ref g (vs_refcount g + 1)) _ [dfd; vs_group_fd g; vs_container_fd g]); cbn; try done.
    + by rewrite Hr, Hr0.
    + unfold used. by rewrite Hr0.
    + intros i k Hk Huk E. by destruct (Hnew i k Hk Huk).
    + unfold slot_fds, used. cbn. by rewrite Hr, Hr0.
    + eapply NoDup_Permutation_proper; [|exact Hn]. cbn. solve_Permutation.
    + cbn in Hf. rewrite !Forall_cons in Hf. rewrite !Forall_cons. tauto.
Qed.

(** A device that is refused leaves everything as it was before the group was
    opened, but for a field of an unused slot. *)
Lemma undo_inv hs e s s1 gi : vfio_inv live0 hs s -> fresh e s -> ready e s s1 gi ->
  vfio_inv live0 hs (undo_open gi s1).
Proof.
  intros Hi [Hn _] (g & Hg & Hcase). unfold undo_open. rewrite Hg.
  destruct Hcase as [[Hu ->]|(Hr & Hnew & Hz & (g0 & Hg0 & Hr0) & Ec & Eg & ->)].
  { unfold used in Hu. rewrite Z.ltb_lt in Hu. by destruct (Z.eqb_spec (vs_refcount g) 0); [lia|]. }
  rewrite Hr. change (0 =? 0) with true. cbn iota.
  destruct (closed_opened_two hs s (vs_container_fd g) (vs_group_fd g)) as [E1 E2]; [done|..].
  { unfold answers in Hn. rewrite Ec, Eg in Hn. eapply sublist_NoDup; [exact Hn|].
    cbn. do 2 apply sublist_skip. by apply sublist_inserts_l. }
  assert (Eb : forall gs gs', set_groups (closed (vs_container_fd g) (closed (vs_group_fd g) (set_groups
    (opened (vs_group_fd g) (opened (vs_container_fd g) s)) gs))) gs' = set_groups s gs').
  { intros gs gs'. change (set_groups (closed (vs_container_fd g) (closed (vs_group_fd g)
      (opened (vs_group_fd g) (opened (vs_container_fd g) s)))) gs' = set_groups s gs'). by rewrite E1, E2. }
  rewrite Eb. cbn [closed set_groups vf_groups]. rewrite list_insert_insert_eq. by apply (idle_inv hs s gi g0).
Qed.

(** ** Closing *)

(** One user less. *)
Lemma drop_user h hs s gi g g' live' dma' log : vfio_inv live0 (h :: hs) s -> vh_slot h = S gi ->
  vf_groups s !! gi = Some g -> vs_refcount g' = vs_refcount g - 1 ->
  (used g' = true -> set_ref g' 0 = set_ref g 0) ->
  live' ≡ₚ (vh_device <$> hs) ++ slot_fds g' ++ held (delete gi (vf_groups s)) ++ live0 ->
  sublist live' (vf_live s) -> sublist dma' (vf_dma s) ->
  (used g' = false -> forall m, m ∈ dma' -> dm_container m <> vs_container_fd g) ->
  vfio_inv live0 hs {| vf_groups := <[gi := g']> (vf_groups s); vf_live := live'; vf_dma := dma'; vf_sysfs := log |}.
Proof.
  intros [H1 H2 H3 H4 H5 H6 H7 H10 H8 H9] Hs Hg Hr Hsame Hl Hsub Hsubd Hd.
  assert (Hru : vs_refcount g' = Z.of_nat (length (users hs gi))).
  { rewrite Hr, (H5 _ _ Hg), users_cons, decide_True by done. cbn. lia. }
  split; cbn [vf_groups vf_live vf_dma].
  - by rewrite length_insert.
  - by rewrite Hl, (held_insert _ _ _ _ Hg), <- (assoc_L (++)).
  - by eapply sublist_NoDup.
  - by eapply sublist_Forall.
  - intros i k Hk. slot_cases; [done|]. rewrite (H5 _ _ Hk), users_cons, decide_False by congruence. done.
  - intros x Hx. destruct (H6 x) as (i & k & Hi' & Hk & Hck & Hgk); [by right|]. exists i.
    edestruct (slot_after (fun k => vh_container x = vs_container_fd k /\ vh_group x = vs_group_fd k)
      (vf_groups s) gi i g g' k) as (k' & ? & ? & ?); try done; [|by exists k'].
    intros -> Hx0. enough (set_ref g' 0 = set_ref g 0) as [= ? ? ? ?] by (destruct Hx0; split; congruence).
    apply Hsame. unfold used. rewrite Hru, Z.ltb_lt. by apply (user_some hs gi x).
  - assert (Hold : forall j k, used k = true -> vs_group_no g' = vs_group_no k -> vf_groups s !! j = Some k ->
      used g' = true -> gi = j).
    { intros j k Huk E Hk Hu. pose proof (Hsame Hu) as [= ? ? ? ?]. apply (H7 gi j g k); try done; [|congruence].
      unfold used in *. rewrite Z.ltb_lt in *. lia. }
    intros i j k k' Hk Hk' Huk Huk' E. slot_cases; [done|symmetry; by apply (Hold i k)|by apply (Hold j k')|by eapply H7].
  - intros i k Hk Huk. slot_cases; [|by eapply H10]. pose proof (Hsame Huk) as [= ? ? ? E]. rewrite E.
    apply (H10 gi); [done|]. unfold used in *. rewrite Z.ltb_lt in *. lia.
  - intros m Hm. destruct (H8 m) as (i & k & Hk & Huk & Hcm); [by eapply elem_of_sublist|]. exists i.
    edestruct (slot_after (fun k => used k = true /\ covers k m) (vf_groups s) gi i g g' k) as (k' & ? & ? & ?);
      try done; [|by exists k'].
    intros -> [Hu0 Hc0]. destruct (used g') eqn:Hu'.
    + split; [done|]. pose proof (Hsame eq_refl) as [= ? ? ? ?]. unfold covers in *. congruence.
    + exfalso. apply (Hd eq_refl m Hm), Hc0.
  - by eapply ordpairs_sublist.
Qed.

Lemma fd_close_live fd s : fd ∈ vf_live s -> Forall (fun fd => 0 <= fd) (vf_live s) -> fd_close fd s = closed fd s.
Proof. rewrite Forall_forall. intros Hfd H. unfold fd_close. by rewrite (proj2 (Z.leb_le _ _) (H _ Hfd)). Qed.

Lemma closed_live fd s r : NoDup (vf_live s) -> vf_live s ≡ₚ fd :: r ->
  vf_live (closed fd s) ≡ₚ r /\ NoDup (vf_live (closed fd s)) /\ sublist (vf_live (closed fd s)) (vf_live s).
Proof.
  intros Hn Hp. split_and!; cbn [closed vf_live]; [by apply filter_others|by apply NoDup_filter|apply sublist_filter].
Qed.

Lemma close_inv h hs s : vfio_inv live0 (h :: hs) s -> vfio_inv live0 hs (pw_vfio_close h s).
Proof.
  intros Hi. pose proof (vi_handles _ _ _ Hi h) as (gi & g & Hs & Hg & _); [by left|].
  unfold pw_vfio_close. rewrite Hs. pose proof (vi_live _ _ _ Hi) as Hl. pose proof (vi_nodup _ _ _ Hi) as Hn.
  pose proof (vi_fds _ _ _ Hi) as Hf. pose proof (vi_refs _ _ _ Hi _ _ Hg) as Hr.
  rewrite users_cons, decide_True in Hr by done.
  assert (Hu : used g = true) by (unfold used; rewrite Hr, Z.ltb_lt; cbn; lia).
  rewrite (held_split _ _ _ Hg) in Hl. unfold slot_fds in Hl. rewrite Hu in Hl. cbn [fmap list_fmap app] in Hl.
  rewrite fd_close_live by (try done; rewrite Hl; by left).
  destruct (closed_live _ _ _ Hn Hl) as (Hl1 & Hn1 & Hs1). set (s1 := closed (vh_device h) s) in *.
  unfold release. change (vf_groups s1) with (vf_groups s). rewrite Hg, Hu. cbn [negb].
  destruct (Z.eqb_spec (vs_refcount g - 1) 0) as [E|E].
  - assert (Hp1 : vf_live s1 ≡ₚ vs_group_fd g :: vs_container_fd g ::
      (vh_device <$> hs) ++ held (delete gi (vf_groups s)) ++ live0) by (rewrite Hl1; solve_Permutation).
    assert (Hf1 : Forall (fun fd => 0 <= fd) (vf_live s1)) by (by eapply sublist_Forall).
    rewrite (fd_close_live (vs_group_fd g)) by (try done; rewrite Hp1; by left).
    destruct (closed_live _ _ _ Hn1 Hp1) as (Hp2 & Hn2 & Hs2). set (s2 := closed (vs_group_fd g) s1) in *.
    assert (Hf2 : Forall (fun fd => 0 <= fd) (vf_live s2)) by (by eapply sublist_Forall).
    rewrite (fd_close_live (vs_container_fd g)) by (try done; rewrite Hp2; by left).
    destruct (closed_live _ _ _ Hn2 Hp2) as (Hp3 & Hn3 & Hs3).
    eapply (drop_user h hs s gi g); try done; [by do 2 (etrans; [eassumption|])|..].
    + cbn [closed vf_dma]. etrans; [apply sublist_filter|]. etrans; [apply sublist_filter|]. apply sublist_filter.
    + intros _ m. cbn [closed vf_dma]. rewrite list_elem_of_filter. tauto.
  - assert (Hu' : used (set_ref g (vs_refcount g - 1)) = true).
    { unfold used in *. cbn. rewrite Z.ltb_lt in *. lia. }
    eapply (drop_user h hs s gi g); try done; [|apply sublist_filter|by rewrite Hu'].
    unfold slot_fds. rewrite Hu', Hl1. cbn. solve_Permutation.
Qed.

(** ** DMA *)

(** Two used slots have different containers. *)
Lemma container_slot hs s i j g k : vfio_inv live0 hs s -> vf_groups s !! i = Some g -> vf_groups s !! j = Some k ->
  used g = true -> used k = true -> vs_container_fd g = vs_container_fd k -> i = j.
Proof.
  intros Hi Hg Hk Hug Huk E. destruct (decide (i = j)) as [|Hne]; [done|exfalso].
  pose proof (vi_nodup _ _ _ Hi) as Hn. rewrite (vi_live _ _ _ Hi), (held_split _ _ _ Hg) in Hn.
  apply NoDup_app in Hn as (_ & _ & Hn). rewrite <- (assoc_L (++)) in Hn. apply NoDup_app in Hn as (_ & Hn & _).
  apply (Hn (vs_container_fd g)); [unfold slot_fds; rewrite Hug; set_solver|].
  apply elem_of_app. left. apply list_elem_of_bind. exists k. rewrite E. split; [unfold slot_fds; rewrite Huk; set_solver|].
  assert (Hgs : k ∈ vf_groups s) by (by eapply list_elem_of_lookup_2).
  assert (Hd : vf_groups s !! j = Some k) by done. destruct (decide (j < i)%nat) as [Hlt|Hge].
  - eapply list_elem_of_lookup_2. rewrite list_lookup_delete_lt; [exact Hd|done].
  - apply (list_elem_of_lookup_2 _ (pred j)). rewrite list_lookup_delete_ge by lia. by replace (S (pred j)) with j by lia.
Qed.

(** The allocator of a slot only moves forward. *)
Lemma iova_inv hs s gi g n : vfio_inv live0 hs s -> vf_groups s !! gi = Some g -> vs_iova_next g <= n ->
  PW_VFIO_IOVA_BASE <= n < 2 ^ 64 -> vfio_inv live0 hs (set_groups s (<[gi := set_iova g n]> (vf_groups s))).
Proof.
  intros [H1 H2 H3 H4 H5 H6 H7 H10 H8 H9] Hg Hle Hn.
  assert (Hafter : forall (P : vfio_group_slot -> Prop) i k, vf_groups s !! i = Some k -> P k ->
    (P g -> P (set_iova g n)) -> exists k', <[gi := set_iova g n]> (vf_groups s) !! i = Some k' /\ P k').
  { intros P i k Hk HP HPg. by eapply slot_after. }
  split; cbn [vf_groups vf_live vf_dma set_groups]; try done.
  - by rewrite length_insert.
  - by rewrite H2, (held_insert _ _ _ _ Hg), (held_split _ _ _ Hg).
  - intros i k Hk. slot_cases; [by apply (H5 gi g)|by apply H5].
  - intros x Hx. destruct (H6 x Hx) as (i & k & Hs & Hk & Hc). exists i.
    edestruct (Hafter (fun k => vh_container x = vs_container_fd k /\ vh_group x = vs_group_fd k)) as (k' & ? & ?);
      try done. by exists k'.
  - intros i j k k' Hk Hk' Hu Hu' E. slot_cases; [done|by apply (H7 i gi k g)|by apply (H7 gi j g k')|by eapply H7].
  - intros i k Hk Hu. slot_cases; [by right|eauto].
  - intros m Hm. destruct (H8 m Hm) as (i & k & Hk & Hu & Hc). exists i.
    edestruct (Hafter (fun k => used k = true /\ covers k m)) as (k' & ? & ?); try done; [|by exists k'].
    unfold covers. cbn. intros (? & ? & ? & ? & ?). split_and!; try done. lia.
Qed.

Lemma mapped_inv hs s gi g m : vfio_inv live0 hs s -> vf_groups s !! gi = Some g -> used g = true -> covers g m ->
  (forall x, x ∈ vf_dma s -> dm_container x = vs_container_fd g -> dm_iova x + dm_len x <= dm_iova m) ->
  vfio_inv live0 hs {| vf_groups := vf_groups s; vf_live := vf_live s; vf_dma := m :: vf_dma s; vf_sysfs := vf_sysfs s |}.
Proof.
  intros [H1 H2 H3 H4 H5 H6 H7 H10 H8 H9] Hg Hu Hc Hx. split; cbn [vf_groups vf_live vf_dma]; try done.
  - intros x [->|Hm]%elem_of_cons; [by exists gi, g|auto].
  - constructor; [|done]. apply Forall_forall. intros x Hm E. right. apply Hx; [done|]. destruct Hc as [Hc _]. congruence.
Qed.

Lemma unmapped_inv hs s dma' : vfio_inv live0 hs s -> sublist dma' (vf_dma s) ->
  vfio_inv live0 hs {| vf_groups := vf_groups s; vf_live := vf_live s; vf_dma := dma'; vf_sysfs := vf_sysfs s |}.
Proof.
  intros [H1 H2 H3 H4 H5 H6 H7 H10 H8 H9] Hs. split; cbn [vf_groups vf_live vf_dma]; try done.
  - intros m Hm. apply H8. by eapply elem_of_sublist.
  - by eapply ordpairs_sublist.
Qed.

Lemma map_dma_inv hs h s page ok vaddr len : vfio_inv live0 hs s -> h ∈ hs -> 0 <= len ->
  vfio_inv live0 hs (pw_vfio_map_dma page ok h vaddr len s).1.
Proof.
  intros Hi Hh Hlen. unfold pw_vfio_map_dma. destruct (_ || _ || _) eqn:Hbad; [done|]. destruct (_ && _); [done|].
  destruct (vi_handles _ _ _ Hi h Hh) as (gi & g & Hs & Hg & Hc & _). rewrite Hs, Hg.
  assert (Hu : used g = true).
  { unfold used. rewrite (vi_refs _ _ _ Hi _ _ Hg), Z.ltb_lt. by apply (user_some hs gi h). }
  assert (Hnz : len <> 0) by (intros ->; by rewrite Z.eqb_refl, !orb_true_r in Hbad).
  pose proof (vi_next _ _ _ Hi _ _ Hg Hu) as Hn.
  set (iova := if vs_iova_next g =? 0 then PW_VFIO_IOVA_BASE else vs_iova_next g).
  assert (Hb : PW_VFIO_IOVA_BASE <= iova < 2 ^ 64 /\ vs_iova_next g <= iova).
  { subst iova. unfold PW_VFIO_IOVA_BASE in *. destruct (Z.eqb_spec (vs_iova_next g) 0); lia. }
  assert (Hi1 := iova_inv hs s gi g iova Hi Hg (proj2 Hb) (proj1 Hb)).
  destruct (Z.ltb_spec (2 ^ 64 - 1 - len) iova) as [Hw|Hw]; [done|]. destruct ok; cbn [negb]; [|done].
  set (g' := set_iova g (iova + len)). cbn [fst set_groups vf_groups]. rewrite list_insert_insert_eq.
  apply (mapped_inv hs (set_groups s (<[gi := g']> (vf_groups s))) gi g'); cbn [vf_groups set_groups].
  - by apply iova_inv; try done; lia.
  - apply list_lookup_insert_eq. by eapply lookup_lt_Some.
  - done.
  - split_and!; cbn; [done|lia..].
  - cbn. intros x Hx E. destruct (vi_dma _ _ _ Hi x Hx) as (i & k & Hk & Huk & Ek & ? & ? & Hxk).
    assert (i = gi) as -> by (eapply (container_slot hs s i gi k g); try done; congruence). simplify_eq. lia.
Qed.

Lemma unmap_dma_inv hs h s ok iova len : vfio_inv live0 hs s -> vfio_inv live0 hs (pw_vfio_unmap_dma ok h iova len s).1.
Proof.
  intros Hi. unfold pw_vfio_unmap_dma. destruct (_ || _); [done|]. destruct ok; [|done].
  apply unmapped_inv; [done|apply sublist_filter].
Qed.

(** ** Opening a card *)

Lemma mapped_handle_inv h h' hs s : vh_device h' = vh_device h -> vh_slot h' = vh_slot h ->
  vh_container h' = vh_container h -> vh_group h' = vh_group h ->
  vfio_inv live0 (h :: hs) s -> vfio_inv live0 (h' :: hs) s.
Proof.
  intros Ed Es Ec Eg [H1 H2 H3 H4 H5 H6 H7 H10 H8 H9]. split; try done.
  - cbn [fmap list_fmap] in *. by rewrite Ed.
  - intros i g Hg. rewrite (H5 i g Hg), !users_cons, Es. by destruct (decide _).
  - intros x [->|Hx]%elem_of_cons; [|apply H6; by right]. rewrite Es, Ec, Eg. apply H6. by left.
Qed.

Lemma map_bar_inv e h hs s : vfio_inv live0 (h :: hs) s ->
  match map_bar e h s with (s', Ok h') => vfio_inv live0 (h' :: hs) s' | (s', Err _) => vfio_inv live0 hs s' end.
Proof.
  intros Hi. pose proof (close_inv h hs s Hi) as Hc. unfold map_bar.
  destruct (ve_region e) as [[size mappable]|]; [|done]. destruct (_ || _); [done|]. destruct (negb _); [done|].
  by apply (mapped_handle_inv h).
Qed.

Lemma prep_inv hs s power config cmd bdf : vfio_inv live0 hs s ->
  vfio_inv live0 hs (pw_vfio_prep_device power config cmd bdf s).
Proof. by intros [H1 H2 H3 H4 H5 H6 H7 H10 H8 H9]. Qed.

Lemma open_inv hs e bdf i s : vfio_inv live0 hs s -> fresh e s ->
  match pw_vfio_open_bar e bdf i s with
  | (s', Ok h) => vfio_inv live0 (h :: hs) s'
  | (s', Err _) => vfio_inv live0 hs s'
  end.
Proof.
  intros Hi Hf. unfold pw_vfio_open_bar. destruct (_ || _); [done|].
  destruct (pw_pci_normalize_bdf bdf) as [cbdf|]; [|done]. set (s0 := pw_vfio_prep_device _ _ _ _ _).
  assert (Hi0 : vfio_inv live0 hs s0) by (by apply prep_inv). assert (Hf0 : fresh e s0) by exact Hf.
  destruct (_ <? 0); [done|]. pose proof (acquire_spec hs e (iommu_group_of (ve_iommu_link e cbdf)) s0 Hi0 Hf0) as Ha.
  destruct (acquire _ _ _) as [s1 [gi|st]]; [|by subst]. destruct (ve_device e) as [dfd|] eqn:Hd.
  - pose proof (hand_inv hs e s0 s1 gi dfd Hi0 Hf0 Ha Hd) as Hh. destruct (hand_out _ _ _) as [s2 h].
    apply map_bar_inv, Hh.
  - by apply (undo_inv hs e s0).
Qed.
End Inv.

(** ** Every life of the registry *)

(** The cards opened and closed, in any order, with the DMA of those that are open. *)
Inductive vfio_step : list pw_vfio_handle * vfio -> list pw_vfio_handle * vfio -> Prop :=
  | VOpen hs s e bdf i s' h : fresh e s -> pw_vfio_open_bar e bdf i s = (s', Ok h) -> vfio_step (hs, s) (h :: hs, s')
  | VOpenErr hs s e bdf i s' st : fresh e s -> pw_vfio_open_bar e bdf i s = (s', Err st) -> vfio_step (hs, s) (hs, s')
  | VClose hs hs' h s : hs ≡ₚ h :: hs' -> vfio_step (hs, s) (hs', pw_vfio_close h s)
  | VMap hs h s page ok vaddr len : h ∈ hs -> 0 <= len ->
      vfio_step (hs, s) (hs, (pw_vfio_map_dma page ok h vaddr len s).1)
  | VUnmap hs h s ok iova len : h ∈ hs -> vfio_step (hs, s) (hs, (pw_vfio_unmap_dma ok h iova len s).1).

Lemma init_inv live0 : NoDup live0 -> Forall (fun fd => 0 <= fd) live0 -> vfio_inv live0 [] (vfio_init live0).
Proof.
  intros Hn Hf.
  assert (Hfree : forall i g, vf_groups (vfio_init live0) !! i = Some g -> g = free_slot).
  { intros i g [-> _]%lookup_replicate_1. done. }
  split; try done.
  - intros i g ->%Hfree. done.
  - intros h Hh. by apply not_elem_of_nil in Hh.
  - intros i j g k ->%Hfree _ Hu. discriminate Hu.
  - intros i g ->%Hfree Hu. discriminate Hu.
  - intros m Hm. by apply not_elem_of_nil in Hm.
  - constructor.
Qed.

Lemma step_inv live0 a b : vfio_step a b -> vfio_inv live0 a.1 a.2 -> vfio_inv live0 b.1 b.2.
Proof.
  destruct 1 as [hs s e bdf i s' h Hf E|hs s e bdf i s' st Hf E|hs hs' h s Hp| |]; cbn [fst snd]; intros Hi.
  - pose proof (open_inv live0 hs e bdf i s Hi Hf) as Ho. by rewrite E in Ho.
  - pose proof (open_inv live0 hs e bdf i s Hi Hf) as Ho. by rewrite E in Ho.
  - apply close_inv. by eapply inv_perm.
  - by apply map_dma_inv.
  - by apply unmap_dma_inv.
Qed.

(** With no card open nothing is held. *)
Lemma idle_registry live0 s : vfio_inv live0 [] s -> vf_live s ≡ₚ live0 /\ vf_dma s = [].
Proof.
  intros Hi. assert (Hidle : forall g, g ∈ vf_groups s -> used g = false).
  { intros g [i Hg]%list_elem_of_lookup_1. unfold used. by rewrite (vi_refs _ _ _ Hi _ _ Hg). }
  split.
  - rewrite (vi_live _ _ _ Hi). cbn [fmap list_fmap app]. replace (held (vf_groups s)) with (@nil Z); [done|].
    symmetry. unfold held. induction (vf_groups s) as [|g gs IH]; [done|]. cbn. unfold slot_fds at 1.
    rewrite (Hidle g) by left. apply IH. intros k Hk. apply Hidle. by right.
  - destruct (vf_dma s) as [|m l] eqn:E; [done|exfalso]. destruct (vi_dma _ _ _ Hi m) as (i & g & Hg & Hu & _).
    { rewrite E. by left. }
    rewrite (Hidle g) in Hu; [done|]. by eapply list_elem_of_lookup_2.
Qed.

(** Whatever the sequence of cards opened, refused and closed and of DMA
    buffers mapped and unmapped, an IOMMU group is open in one slot at most; the
    descriptors that are open are the cards' devices, the group and the container of
    each slot in use and those open before, each once; a slot counts its cards; the
    DMA ranges of a container are disjoint, above 4 GiB and below 2^64. When the last
    card is closed every descriptor and every mapping is gone. *)
Theorem vfio_registry_exact (live0 : list Z) (hs : list pw_vfio_handle) (s : vfio)
    (Hn : NoDup live0) (Hf : Forall (fun fd => 0 <= fd) live0)
    (Hr : rtc vfio_step ([], vfio_init live0) (hs, s)) :
  vfio_inv live0 hs s /\ (hs = [] -> vf_live s ≡ₚ live0 /\ vf_dma s = []).
Proof.
  assert (Hi : vfio_inv live0 hs s).
  { revert Hr. change (vfio_inv live0 hs s) with ((fun a => vfio_inv live0 a.1 a.2) (hs, s)). intros Hr.
    eapply (rtc_ind_r (fun a => vfio_inv live0 a.1 a.2)); [|intros; by eapply step_inv|exact Hr]. by apply init_inv. }
  split; [done|]. intros ->. by apply idle_registry.
Qed.

(** Two cards of one group: the second shares what the first opened, and the last to
    leave closes it. *)
Definition sample_env (cfd gfd : option Z) (dfd : Z) : vfio_env := {|
  ve_power := true; ve_config := true; ve_cmd := Some 0;
  ve_iommu_link := fun _ => Some (chars "../../../kernel/iommu_groups/7");
  ve_container := cfd; ve_api := true; ve_group := gfd; ve_viable := true; ve_attach := true;
  ve_device := Some dfd; ve_region := Some (65536, true); ve_mmap := true |}.
Definition sample_card (d : Z) : pw_vfio_handle :=
  {| vh_container := 5; vh_group := 6; vh_device := d; vh_base := true; vh_size := 65536; vh_slot := 1 |}.
Definition sample_one : vfio := Eval vm_compute in
  (pw_vfio_open_bar (sample_env (Some 5) (Some 6) 7) (chars "07:00.0") 0 (vfio_init [3])).1.
Definition sample_two : vfio := Eval vm_compute in
  (pw_vfio_open_bar (sample_env None None 8) (chars "0000:08:00.0") 0 sample_one).1.
Definition sample_dma : vfio := Eval vm_compute in
  (pw_vfio_map_dma 4096 true (sample_card 8) 4096 4096
    (pw_vfio_map_dma 4096 true (sample_card 7) 4096 8192 sample_two).1).1.
Definition sample_gone : vfio := Eval vm_compute in
  pw_vfio_close (sample_card 8) (pw_vfio_close (sample_card 7) sample_dma).

Lemma vfio_registry_exact_witness :
  vf_live sample_dma = [8; 7; 6; 5; 3] /\ (dm_iova <$> vf_dma sample_dma) = [0x100002000; 0x100000000] /\
  vf_live sample_gone = [3] /\
  vfio_inv [3] [] sample_gone /\ ([] = @nil pw_vfio_handle -> vf_live sample_gone ≡ₚ [3] /\ vf_dma sample_gone = []).
Proof.
  split; [reflexivity|]. split; [reflexivity|]. split; [reflexivity|].
  assert (Hf : forall cfd gfd dfd s, (forall x, x ∈ answers (sample_env cfd gfd dfd) -> 0 <= x) ->
    bool_decide (NoDup (answers (sample_env cfd gfd dfd) ++ vf_live s)) = true -> fresh (sample_env cfd gfd dfd) s).
  { intros cfd gfd dfd s Hp Hn. split; [by apply bool_decide_eq_true in Hn|by apply Forall_forall]. }
  apply (vfio_registry_exact [3] [] sample_gone); [by apply NoDup_singleton|by repeat constructor|].
  eapply rtc_l; [eapply (VOpen _ _ (sample_env (Some 5) (Some 6) 7) (chars "07:00.0") 0 sample_one (sample_card 7))|].
  { apply Hf; [cbn; set_solver by lia|vm_compute; reflexivity]. }
  { vm_compute. reflexivity. }
  eapply rtc_l; [eapply (VOpen _ _ (sample_env None None 8) (chars "0000:08:00.0") 0 sample_two (sample_card 8))|].
  { apply Hf; [cbn; set_solver by lia|vm_compute; reflexivity]. }
  { vm_compute. reflexivity. }
  eapply rtc_l; [apply (VMap _ (sample_card 7) _ 4096 true 4096 8192); [set_solver|lia]|].
  eapply rtc_l; [apply (VMap _ (sample_card 8) _ 4096 true 4096 4096); [set_solver|lia]|].
  eapply rtc_l; [eapply (VClose _ [sample_card 8] (sample_card 7)); solve_Permutation|].
  eapply rtc_l; [eapply (VClose _ [] (sample_card 8)); reflexivity|].
  vm_compute. constructor.
Defined.
