(* ===== verification/CardLife.v ===== *)
(** * Cards opened and released

    Composes [sw/libpacketwyrm/src/backend_bar.c] with [pci.c] and [vfio.c]: how a card
    is opened over sysfs or VFIO with the fallback between them, how its DMA pool is
    mapped and unmapped, and how it is closed. [host] is what the process holds of
    the system. Then the probe of the kernel driver ([kernel/packetwyrm.c]), beside
    the identity the BAR backend reports. *)

From Stdlib Require Import Ascii.
From Stdlib Require String.
From S2P Require Import Prelude Types Csr Scalar Text Backend Dma BackendBar BarSafety Pci Vfio.

Local Open Scope string_scope.
Local Open Scope Z_scope.
Local Open Scope list_scope.

(** [PW_CSR_BAR]. *)
Definition csr_bar_index (env : option string) : Z :=
  match env with
  | Some (String.String _ _ as e) => let v := atoi e in if (0 <=? v) && (v <=? 5) then v else 0
  | _ => 0
  end.

(** ** What the process holds *)

(** The VFIO registry; the addresses of the mappings made outside it, and of the DMA
    pools. *)
Record host := { ho_vfio : vfio; ho_maps : list Z; ho_pools : list Z }.

Definition set_vfio (v : vfio) (ho : host) : host :=
  {| ho_vfio := v; ho_maps := ho_maps ho; ho_pools := ho_pools ho |}.
Definition add_map (a : Z) (ho : host) : host :=
  {| ho_vfio := ho_vfio ho; ho_maps := a :: ho_maps ho; ho_pools := ho_pools ho |}.
Definition add_pool (a : Z) (ho : host) : host :=
  {| ho_vfio := ho_vfio ho; ho_maps := ho_maps ho; ho_pools := a :: ho_pools ho |}.
(** [munmap] and [free]. *)
Definition del_map (a : Z) (ho : host) : host :=
  {| ho_vfio := ho_vfio ho; ho_maps := filter (fun x => x <> a) (ho_maps ho); ho_pools := ho_pools ho |}.
Definition del_pool (a : Z) (ho : host) : host :=
  {| ho_vfio := ho_vfio ho; ho_maps := ho_maps ho; ho_pools := filter (fun x => x <> a) (ho_pools ho) |}.

(** What the calls of one open answer: the environment variables, the preparation of
    the device, the resource files and where one is mapped, the VFIO calls, the
    register BAR and where it is mapped, the page size, the pool, the DMA mapping, the
    allocation of the context and of the DMA state, and the unmapping when that fails. *)
Record card_answers := {
  ca_force : option string; ca_csr_bar : option string;
  ca_power : bool; ca_config : bool; ca_cmd : option Z;
  ca_files : text -> bar_file; ca_base : Z;
  ca_vfio : vfio_env; ca_ctx : bool;
  ca_region : option (Z * bool); ca_region_mmap : bool; ca_xregs : Z;
  ca_pagesize : Z; ca_pool : option Z; ca_map_dma : bool; ca_state : bool; ca_unmap : bool
}.

(** ** Opening *)

(** [dma_setup] with the calls it makes. *)
Definition card_dma_setup (a : card_answers) (h : pw_vfio_handle) (ho : host) : host * (pw_status * option dma_state) :=
  match pw_vfio_map_region (ca_region a) (ca_region_mmap a) h 1 with
  | Err st => (ho, (st, None))
  | Ok _ =>
      let ho := add_map (ca_xregs a) ho in
      match ca_pool a with
      | None => (del_map (ca_xregs a) ho, (PW_E_NO_RESOURCES, None))
      | Some pool =>
          let ho := add_pool pool ho in
          let len := dma_pool_len (ca_pagesize a) in
          match pw_vfio_map_dma (ca_pagesize a) (ca_map_dma a) h pool len (ho_vfio ho) with
          | (v, Err st) => (del_map (ca_xregs a) (del_pool pool (set_vfio v ho)), (st, None))
          | (v, Ok iova) =>
              if negb (ca_state a) then
                let v := (pw_vfio_unmap_dma (ca_unmap a) h iova len v).1 in
                (del_map (ca_xregs a) (del_pool pool (set_vfio v ho)), (PW_E_NO_RESOURCES, None))
              else (set_vfio v ho, (PW_OK, Some (dma_layout (ca_pagesize a) iova)))
          end
      end
  end.

Definition status_or_ok {A} (r : result pw_status A) : pw_status := match r with Ok _ => PW_OK | Err st => st end.

(** The same answers as the DMA set-up of [Dma] takes them. *)
Definition dma_answers (a : card_answers) (h : pw_vfio_handle) (ho : host) : dma_env :=
  let m := (pw_vfio_map_dma (ca_pagesize a) (ca_map_dma a) h (default 0 (ca_pool a)) (dma_pool_len (ca_pagesize a)) (ho_vfio ho)).2 in
  {| de_map_region := status_or_ok (pw_vfio_map_region (ca_region a) (ca_region_mmap a) h 1);
     de_pagesize := ca_pagesize a; de_pool := bool_decide (is_Some (ca_pool a));
     de_map_dma := status_or_ok m; de_iova := match m with Ok iova => iova | Err _ => 0 end; de_state := ca_state a |}.

Section Cards.
Context {D X : Type} (dev : bar_dev D) (xdev : xdma_dev X).

(** An open card: its name when it has one, its context, the handle when VFIO owns the mapping, and the
    addresses of the sysfs mapping, the register BAR and the pool. *)
Record card := { cd_bdf : option text; cd_ctx : bar_ctx D X; cd_vfio : option pw_vfio_handle; cd_base : Z; cd_xregs : Z; cd_pool : Z }.

(** What a refused card gives back: the VFIO handle, or the sysfs mapping. *)
Definition card_release (a : card_answers) (v : option pw_vfio_handle) (ho : host) : host :=
  match v with
  | Some h => set_vfio (pw_vfio_close h (ho_vfio ho)) ho
  | None => del_map (ca_base a) ho
  end.

(** The canonical address where the one given is valid, cut to [pci_bdf]. *)
Definition card_bdf (bdf : text) : text := take (PW_PCI_BDF_MAX - 1) (default bdf (pw_pci_normalize_bdf bdf)).

(** [bar_backend_attach] with what it holds and releases. The DMA set-up is reached
    when the card advertises DMA: it came up, or the status says that it did not. *)
Definition card_attach (a : card_answers) (sz : Z) (bdf : option text) (v : option pw_vfio_handle) (d : D) (x : X) (ho : host) :
    host * (D * X) * result pw_status card :=
  if negb (ca_ctx a) then (card_release a v ho, (d, x), Err PW_E_NO_RESOURCES) else
  let '(c, st) := bar_backend_attach dev sz ((fun h => dma_answers a h ho) <$> v) d x in
  let ho := match v with
            | Some h => if bool_decide (st = PW_E_BACKEND) || bool_decide (is_Some (bc_dma c))
                        then (card_dma_setup a h ho).1 else ho
            | None => ho
            end in
  let dx := (bc_dev c, bc_xdma c) in
  if bool_decide (st = PW_OK) then
    (ho, dx, Ok {| cd_bdf := card_bdf <$> bdf; cd_ctx := c; cd_vfio := v; cd_base := ca_base a; cd_xregs := ca_xregs a;
                   cd_pool := default 0 (ca_pool a) |})
  else (card_release a v ho, dx, Err st).

Definition card_open_vfio (a : card_answers) (bdf : text) (d : D) (x : X) (ho : host) : host * (D * X) * result pw_status card :=
  match pw_vfio_open_bar (ca_vfio a) bdf (csr_bar_index (ca_csr_bar a)) (ho_vfio ho) with
  | (v, Err st) => (set_vfio v ho, (d, x), Err st)
  | (v, Ok h) => card_attach a (vh_size h) (Some bdf) (Some h) d x (set_vfio v ho)
  end.

(** The fallback keeps the first error. *)
Definition or_vfio (a : card_answers) (bdf : text) (st : pw_status) (d : D) (x : X) (ho : host) : host * (D * X) * result pw_status card :=
  if bool_decide (ca_force a = Some "sysfs") then (ho, (d, x), Err st) else
  match card_open_vfio a bdf d x ho with
  | (ho, dx, Ok c) => (ho, dx, Ok c)
  | (ho, dx, Err _) => (ho, dx, Err st)
  end.

(** [pw_bar_backend_open]; the device is prepared under the address as given. *)
Definition card_open_bdf (a : card_answers) (bdf : text) (d : D) (x : X) (ho : host) : host * (D * X) * result pw_status card :=
  let ho := set_vfio (pw_vfio_prep_device (ca_power a) (ca_config a) (ca_cmd a) bdf (ho_vfio ho)) ho in
  if bool_decide (ca_force a = Some "vfio") then card_open_vfio a bdf d x ho else
  match pw_pci_open_bar0 (ca_files a) bdf with
  | Err st => or_vfio a bdf st d x ho
  | Ok sz =>
      match card_attach a sz (Some bdf) None d x (add_map (ca_base a) ho) with
      | (ho, dx, Ok c) => (ho, dx, Ok c)
      | (ho, dx, Err st) => or_vfio a bdf st dx.1 dx.2 ho
      end
  end.

(** [pw_bar_backend_open_path]. *)
Definition card_open_path (a : card_answers) (f : bar_file) (d : D) (x : X) (ho : host) : host * (D * X) * result pw_status card :=
  match pw_pci_open_bar0_path f with
  | Err st => (ho, (d, x), Err st)
  | Ok sz => card_attach a sz None None d x (add_map (ca_base a) ho)
  end.

(** ** Closing *)

(** [dma_teardown] with the calls it makes: both channels are stopped, then the pool is
    unmapped and freed. [unmap] is the answer of the [ioctl], which is not looked at. *)
Definition card_dma_teardown (unmap : bool) (c : card) (ho : host) : host * bar_ctx D X :=
  match bc_dma (cd_ctx c) with
  | None => (ho, cd_ctx c)
  | Some s =>
      let x := dma_teardown xdev s (bc_xdma (cd_ctx c)) in
      let ho := match cd_vfio c with
                | Some h => set_vfio (pw_vfio_unmap_dma unmap h (ds_pool_iova s) (ds_pool_len s) (ho_vfio ho)).1 ho
                | None => ho
                end in
      (del_map (cd_xregs c) (del_pool (cd_pool c) ho), set_dma (cd_ctx c) None x)
  end.

Definition bar_close (unmap : bool) (c : card) (ho : host) : host * bar_ctx D X :=
  let '(ho, ctx) := card_dma_teardown unmap c ho in
  (match cd_vfio c with
   | Some h => set_vfio (pw_vfio_close h (ho_vfio ho)) ho
   | None => del_map (cd_base c) ho
   end, ctx).
End Cards.

(** ** Mappings survive *)

(** [m] is there, or its container is closed. *)
Definition there (m : dma_map) (s : vfio) : Prop := m ∈ vf_dma s \/ dm_container m ∉ vf_live s.

Lemma there_closed m fd s : there m s -> there m (closed fd s).
Proof.
  intros [Hm|Hn]; unfold there, closed; cbn [vf_dma vf_live].
  - destruct (decide (dm_container m = fd)) as [E|E]; [right|left]; apply list_elem_of_filter || rewrite list_elem_of_filter; [by intros [? _]|done].
  - right. rewrite list_elem_of_filter. by intros [_ ?].
Qed.

Lemma there_fd_close m fd s : there m s -> there m (fd_close fd s).
Proof. unfold fd_close. destruct (0 <=? fd); [apply there_closed|done]. Qed.

Lemma there_opened m fd s : dm_container m <> fd -> there m s -> there m (opened fd s).
Proof. intros Hne [Hm|Hn]; [by left|right]. cbn. by rewrite not_elem_of_cons. Qed.

Lemma there_groups m gs s : there m s -> there m (set_groups s gs).
Proof. done. Qed.

Create HintDb life.
#[local] Hint Resolve there_closed there_fd_close there_opened there_groups : life.

Lemma there_close m h s : there m s -> there m (pw_vfio_close h s).
Proof.
  intros Hm. unfold pw_vfio_close. destruct (vh_slot h) as [|gi]; [eauto with life|]. unfold release.
  destruct (_ !! gi) as [g|]; [|eauto with life]. destruct (negb _); [eauto with life|].
  destruct (_ =? 0); eauto with life.
Qed.
#[local] Hint Resolve there_close : life.

Lemma there_open m e bdf i s : dm_container m ∉ answers e -> there m s -> there m (pw_vfio_open_bar e bdf i s).1.
Proof.
  intros Ha Hm. unfold answers in Ha. rewrite !not_elem_of_app in Ha. destruct Ha as (Hc & Hg & Hd).
  unfold pw_vfio_open_bar. destruct (_ || _); [done|]. destruct (pw_pci_normalize_bdf bdf) as [cb|]; [|done].
  set (s1 := pw_vfio_prep_device _ _ _ _ s). assert (Hm1 : there m s1) by done. destruct (_ <? 0); [done|].
  assert (Hq : there m (acquire e (iommu_group_of (ve_iommu_link e cb)) s1).1).
  { unfold acquire, open_group. destruct (vfio_group_find _ _); [done|]. destruct (vfio_group_free_slot _); [|done].
    destruct (ve_container e) as [cfd|]; [|done]. cbn in Hc. assert (dm_container m <> cfd) by set_solver.
    destruct (ve_api e); cbn [negb]; [|eauto with life]. destruct (ve_group e) as [gfd|]; [|eauto with life]. cbn in Hg.
    assert (dm_container m <> gfd) by set_solver. destruct (negb _ || negb _); cbn [fst]; eauto 6 with life. }
  destruct (acquire _ _ _) as [s2 [gi|st]]; [|done]. cbn [fst] in Hq.
  destruct (ve_device e) as [dfd|]; cbn in Hd.
  - unfold hand_out. assert (dm_container m <> dfd) by set_solver.
    assert (Ho : there m (opened dfd s2)) by eauto with life.
    destruct (_ !! gi); unfold map_bar; destruct (ve_region e) as [[size mp]|]; repeat case_match; cbn [fst]; eauto with life.
  - cbn [fst]. unfold undo_open. destruct (_ !! gi); [|done]. destruct (_ =? 0); eauto with life.
Qed.

(** ** The DMA set-up *)

Lemma dma_pool_len_pos ps : 0 < dma_pool_len ps.
Proof.
  unfold dma_pool_len, PW_DMA_RX_RING, PW_DMA_FRAME_CAP. set (p := if ps <=? 0 then 4096 else ps).
  assert (0 < p) by (subst p; destruct (Z.leb_spec ps 0); lia). apply Z.mul_pos_pos; [|done]. apply Z.div_str_pos. lia.
Qed.

Lemma map_region_err r ok h i st : pw_vfio_map_region r ok h i = Err st -> st <> PW_OK.
Proof. unfold pw_vfio_map_region. repeat case_match; intros [= <-]; done. Qed.

Lemma map_dma_err page ok h vaddr len s v st : pw_vfio_map_dma page ok h vaddr len s = (v, Err st) -> st <> PW_OK.
Proof. unfold pw_vfio_map_dma. repeat case_match; intros [= _ <-]; done. Qed.

(** The model of the set-up in [Dma] is this one with its calls answered. *)
Lemma setup_answers a h ho : (card_dma_setup a h ho).2 = dma_setup (dma_answers a h ho).
Proof.
  unfold card_dma_setup, dma_setup, dma_answers. cbn [de_map_region de_pagesize de_pool de_map_dma de_iova de_state].
  destruct (pw_vfio_map_region _ _ _ _) as [n|st] eqn:Er; cbn [status_or_ok].
  2: { rewrite bool_decide_eq_true_2 by (by eapply map_region_err). done. }
  rewrite (bool_decide_eq_false_2 (PW_OK <> PW_OK)) by (intros H; by apply H).
  destruct (ca_pool a) as [pool|]; [|done]. cbn [default from_option id add_map add_pool ho_vfio].
  rewrite (bool_decide_eq_true_2 (is_Some (Some pool))) by done. cbn [negb].
  destruct (pw_vfio_map_dma _ _ _ _ _ _) as [v [iova|st]] eqn:Em; cbn [snd status_or_ok].
  - rewrite (bool_decide_eq_false_2 (PW_OK <> PW_OK)) by (intros H; by apply H). by destruct (ca_state a).
  - rewrite bool_decide_eq_true_2 by (by eapply map_dma_err). done.
Qed.

(** The mapping of a card's pool. *)
Definition pool_map (h : pw_vfio_handle) (s : dma_state) : dma_map :=
  {| dm_container := vh_container h; dm_iova := ds_pool_iova s; dm_len := ds_pool_len s |}.

Section Life.
Context (live0 : list Z).

Lemma map_dma_new hs h page ok vaddr len s v iova : vfio_inv live0 hs s -> h ∈ hs -> 0 < len ->
  pw_vfio_map_dma page ok h vaddr len s = (v, Ok iova) ->
  vf_dma v = {| dm_container := vh_container h; dm_iova := iova; dm_len := len |} :: vf_dma s /\
  {| dm_container := vh_container h; dm_iova := iova; dm_len := len |} ∉ vf_dma s.
Proof.
  intros Hi Hh Hlen. unfold pw_vfio_map_dma. destruct (_ || _ || _); [done|]. destruct (_ && _); [done|].
  destruct (vi_handles _ _ _ Hi h Hh) as (gi & g & Hs & Hg & Hc & _). rewrite Hs, Hg.
  assert (Hu : used g = true).
  { unfold used. rewrite (vi_refs _ _ _ Hi _ _ Hg), Z.ltb_lt. by apply (user_some hs gi h). }
  pose proof (vi_next _ _ _ Hi _ _ Hg Hu) as Hn.
  destruct (_ <? _); [done|]. destruct ok; cbn [negb]; [|done]. intros [= <- <-]. cbn [vf_dma set_groups]. split; [done|].
  intros Hm. destruct (vi_dma _ _ _ Hi _ Hm) as (i & k & Hk & Huk & Ek & _ & _ & Hx). cbn in Ek, Hx.
  assert (i = gi) as -> by (eapply (container_slot live0 hs s i gi k g); try done; congruence). simplify_eq.
  unfold PW_VFIO_IOVA_BASE in *. destruct (Z.eqb_spec (vs_iova_next g) 0); lia.
Qed.

Lemma unmap_keeps ok h iova len s m : m ∈ vf_dma s ->
  m <> {| dm_container := vh_container h; dm_iova := iova; dm_len := len |} ->
  m ∈ vf_dma (pw_vfio_unmap_dma ok h iova len s).1.
Proof.
  intros Hm Hne. unfold pw_vfio_unmap_dma. destruct (_ || _); [done|]. destruct ok; [|done]. cbn [negb fst vf_dma].
  apply list_elem_of_filter. split; [|done]. intros (E1 & E2 & E3). apply Hne. destruct m. cbn in *. by subst.
Qed.

Lemma filter_head (a : Z) l : a ∉ l -> filter (fun x => x <> a) (a :: l) = l.
Proof. intros H. rewrite filter_cons_False by auto. apply filter_keep. by intros x Hx ->. Qed.

(** A set-up that fails leaves the process with what it held; one that succeeds adds
    the register BAR, the pool and a mapping that nobody had. *)
Lemma setup_life hs h a ho : vfio_inv live0 (h :: hs) (ho_vfio ho) -> ca_xregs a ∉ ho_maps ho ->
  (forall p, ca_pool a = Some p -> p ∉ ho_pools ho) ->
  let ho' := (card_dma_setup a h ho).1 in
  vfio_inv live0 (h :: hs) (ho_vfio ho') /\ (forall m, m ∈ vf_dma (ho_vfio ho) -> m ∈ vf_dma (ho_vfio ho')) /\
  match (card_dma_setup a h ho).2.2 with
  | None => ho_maps ho' = ho_maps ho /\ ho_pools ho' = ho_pools ho
  | Some s => ho_maps ho' = ca_xregs a :: ho_maps ho /\ ho_pools ho' = default 0 (ca_pool a) :: ho_pools ho /\
      pool_map h s ∈ vf_dma (ho_vfio ho') /\ pool_map h s ∉ vf_dma (ho_vfio ho)
  end.
Proof.
  intros Hi Hx Hp. unfold card_dma_setup. destruct (pw_vfio_map_region _ _ _ _) as [n|st]; [|done].
  destruct (ca_pool a) as [pool|]; cbn [fst snd del_map add_map ho_maps ho_pools ho_vfio]; [|by rewrite filter_head].
  specialize (Hp pool eq_refl). cbn [add_pool add_map ho_vfio]. pose proof (dma_pool_len_pos (ca_pagesize a)) as Hl.
  pose proof (map_dma_inv live0 (h :: hs) h (ho_vfio ho) (ca_pagesize a) (ca_map_dma a) pool (dma_pool_len (ca_pagesize a)) Hi
    ltac:(by left) ltac:(lia)) as Hv.
  destruct (pw_vfio_map_dma _ _ _ _ _ _) as [v [iova|st]] eqn:Em; cbn [fst] in Hv.
  - destruct (map_dma_new _ _ _ _ _ _ _ _ _ Hi ltac:(by left) Hl Em) as [Ed Hnew].
    destruct (ca_state a); cbn [negb fst snd set_vfio add_map add_pool del_map del_pool ho_vfio ho_maps ho_pools default from_option id].
    + split_and!; try done; [|cbn; rewrite Ed; by left]. intros m Hm. rewrite Ed. by right.
    + rewrite !filter_head by done. split_and!; try done; [by apply unmap_dma_inv|].
      intros m Hm. apply unmap_keeps; [rewrite Ed; by right|]. by intros ->.
  - cbn [fst snd set_vfio add_map add_pool del_map del_pool ho_vfio ho_maps ho_pools]. rewrite !filter_head by done. split_and!; try done.
    assert (vf_dma v = vf_dma (ho_vfio ho)) as ->; [|done].
    revert Em. unfold pw_vfio_map_dma. repeat case_match; by intros [= <- _].
Qed.
End Life.

(** ** What the open cards hold is what the process holds *)

Section Inv.
Context {D X : Type} (dev : bar_dev D) (xdev : xdma_dev X) (live0 : list Z).

Abbreviation card_t := (@card D X).

Definition card_maps (c : card_t) : list Z :=
  match cd_vfio c with None => [cd_base c] | Some _ => [] end ++ match bc_dma (cd_ctx c) with Some _ => [cd_xregs c] | None => [] end.
Definition card_pools (c : card_t) : list Z := match bc_dma (cd_ctx c) with Some _ => [cd_pool c] | None => [] end.
Definition card_dma (c : card_t) : option dma_map := h ← cd_vfio c; s ← bc_dma (cd_ctx c); Some (pool_map h s).
Definition handles (cs : list card_t) : list pw_vfio_handle := omap cd_vfio cs.

(** The mappings and pools are the cards', once each; a card with DMA is one of VFIO;
    every card's pool is mapped, at an address of its own. *)
Record holds (cs : list card_t) (ho : host) : Prop := {
  hl_maps : ho_maps ho ≡ₚ cs ≫= card_maps;
  hl_maps_once : NoDup (ho_maps ho);
  hl_pools : ho_pools ho ≡ₚ cs ≫= card_pools;
  hl_pools_once : NoDup (ho_pools ho);
  hl_kind : forall c, c ∈ cs -> is_Some (bc_dma (cd_ctx c)) -> is_Some (cd_vfio c);
  hl_dma : forall c m, c ∈ cs -> card_dma c = Some m -> m ∈ vf_dma (ho_vfio ho);
  hl_apart : NoDup (omap card_dma cs)
}.

Definition life_inv (cs : list card_t) (ho : host) : Prop := vfio_inv live0 (handles cs) (ho_vfio ho) /\ holds cs ho.

(** A card's container is open. *)
Lemma container_live hs (cs : list card_t) v c m : vfio_inv live0 hs v -> handles cs ⊆ hs -> c ∈ cs -> card_dma c = Some m ->
  dm_container m ∈ vf_live v.
Proof.
  intros Hi Hsub Hc Hm. unfold card_dma in Hm. destruct (cd_vfio c) as [h|] eqn:Eh; [|done].
  destruct (bc_dma (cd_ctx c)) as [s|]; [|done]. cbn in Hm. injection Hm as <-. cbn [pool_map dm_container].
  assert (Hh : h ∈ hs) by (apply Hsub, list_elem_of_omap; eauto).
  destruct (vi_handles _ _ _ Hi h Hh) as (i & g & Hs & Hg & -> & _). eapply held_live; [done|exact Hg|].
  unfold used. rewrite (vi_refs _ _ _ Hi _ _ Hg), Z.ltb_lt. by apply (user_some hs i h).
Qed.

(** The registry moved, and no card's mapping was removed from under it. *)
Lemma holds_moved hs cs ho ho' : holds cs ho -> ho_maps ho' = ho_maps ho -> ho_pools ho' = ho_pools ho ->
  vfio_inv live0 hs (ho_vfio ho') -> handles cs ⊆ hs ->
  (forall m, m ∈ vf_dma (ho_vfio ho) -> there m (ho_vfio ho')) -> holds cs ho'.
Proof.
  intros [H1 H2 H3 H4 H5 H6 H7] Em Ep Hv Hsub Hm. split; rewrite ?Em, ?Ep; try done.
  intros c m Hc Ec. destruct (Hm m) as [?|[]]; [by eapply H6|done|by eapply container_live].
Qed.

Lemma holds_move cs ho ho' : holds cs ho -> ho_maps ho' = ho_maps ho -> ho_pools ho' = ho_pools ho ->
  vfio_inv live0 (handles cs) (ho_vfio ho') -> (forall m, m ∈ vf_dma (ho_vfio ho) -> there m (ho_vfio ho')) -> life_inv cs ho'.
Proof. intros H Em Ep Hv Hm. split; [done|]. by eapply (holds_moved (handles cs) cs ho). Qed.

(** ** Opening keeps the account *)

(** The addresses that are handed out are new. *)
Definition fresh_card (a : card_answers) (ho : host) : Prop :=
  fresh (ca_vfio a) (ho_vfio ho) /\ NoDup (ca_base a :: ca_xregs a :: ho_maps ho) /\
  forall p, ca_pool a = Some p -> p ∉ ho_pools ho.

Definition opened_ok (cs : list card_t) (r : host * (D * X) * result pw_status card_t) : Prop :=
  match r with (ho, _, Ok c) => life_inv (c :: cs) ho | (ho, _, Err _) => life_inv cs ho end.

Lemma attach_cases sz e d (x : X) c st : bar_backend_attach dev sz e d x = (c, st) ->
  bc_dma c = None /\ (st = PW_OK \/ st = PW_E_OUT_OF_RANGE) \/
  bc_dma c = (e ≫= fun e => (dma_setup e).2) /\ st = if bool_decide (bc_dma c = None) then PW_E_BACKEND else PW_OK.
Proof.
  unfold bar_backend_attach. set (c0 := bar_probe dev _).
  assert (E0 : bc_dma c0 = None).
  { unfold c0, bar_probe. destruct (_ <=? _); [|done]. unfold reg_rd. by repeat (destruct (bd_rd _ _ _); cbn [bc_dma set_dev]). }
  destruct (negb _); [intros [= <- <-]; auto|]. unfold reg_rd. destruct (bd_rd _ _ _) as [d1 caps].
  destruct (ztrue _); intros [= <- <-]; [right|left]; cbn [bc_dma set_dma set_dev]; auto.
Qed.

(** A card more, with what is its own. *)
Lemma holds_add cs c ho ho' : holds cs ho ->
  ho_maps ho' = card_maps c ++ ho_maps ho -> NoDup (card_maps c ++ ho_maps ho) ->
  ho_pools ho' = card_pools c ++ ho_pools ho -> NoDup (card_pools c ++ ho_pools ho) ->
  (is_Some (bc_dma (cd_ctx c)) -> is_Some (cd_vfio c)) ->
  (forall m, card_dma c = Some m -> m ∈ vf_dma (ho_vfio ho') /\ m ∉ vf_dma (ho_vfio ho)) ->
  (forall m, m ∈ vf_dma (ho_vfio ho) -> m ∈ vf_dma (ho_vfio ho')) -> holds (c :: cs) ho'.
Proof.
  intros [H1 H2 H3 H4 H5 H6 H7] Em Nm Ep Np Hk Hnew Hold. split; rewrite ?bind_cons, ?Em, ?Ep; try done.
  - by rewrite H1.
  - by rewrite H3.
  - intros k [->|Hc]%elem_of_cons; auto.
  - intros k m [->|Hc]%elem_of_cons; [by intros [? _]%Hnew|]. intros E. eauto.
  - cbn [omap list_omap]. destruct (card_dma c) as [m|] eqn:E; [|done]. apply NoDup_cons. split; [|done].
    destruct (Hnew m eq_refl) as [_ Hn]. intros (k & Hc & Ek)%list_elem_of_omap. apply Hn. by eapply H6.
Qed.

(** Over a sysfs mapping. *)
Lemma attach_sysfs cs a sz bdf d x ho : life_inv cs ho -> fresh_card a ho ->
  opened_ok cs (card_attach dev a sz bdf None d x (add_map (ca_base a) ho)).
Proof.
  intros [Hv Hh] (_ & Hm & _). unfold card_attach. cbn [fmap option_fmap option_map].
  apply NoDup_cons in Hm as [Hb Hm]. rewrite not_elem_of_cons in Hb. apply NoDup_cons in Hm as [_ Hm].
  assert (Hg : life_inv cs (card_release a None (add_map (ca_base a) ho))).
  { apply (holds_move cs ho); try done; [|by left]. cbn [card_release del_map add_map ho_maps]. apply filter_head. by destruct Hb. }
  destruct (ca_ctx a); cbn [negb]; [|done].
  destruct (bar_backend_attach dev sz None d x) as [c st] eqn:E.
  assert (Ec : bc_dma c = None) by (destruct (attach_cases _ _ _ _ _ _ E) as [[? _]|[? _]]; done).
  case_bool_decide; cbn [opened_ok]; [|done].
  split; [done|]. apply (holds_add cs _ ho); unfold card_maps, card_pools, card_dma; cbn [cd_ctx cd_vfio cd_base]; rewrite ?Ec; try done.
  - apply NoDup_cons. by destruct Hb.
  - by apply hl_pools_once with cs.
Qed.

(** Over VFIO: the handle is out already. *)
Lemma attach_vfio cs a sz bdf h d x ho : vfio_inv live0 (h :: handles cs) (ho_vfio ho) -> holds cs ho ->
  ca_xregs a ∉ ho_maps ho -> (forall p, ca_pool a = Some p -> p ∉ ho_pools ho) ->
  opened_ok cs (card_attach dev a sz bdf (Some h) d x ho).
Proof.
  intros Hv Hh Hx Hp. unfold card_attach. cbn [fmap option_fmap option_map].
  assert (Hrefused : forall ho1, ho_maps ho1 = ho_maps ho -> ho_pools ho1 = ho_pools ho -> vfio_inv live0 (h :: handles cs) (ho_vfio ho1) ->
    (forall m, m ∈ vf_dma (ho_vfio ho) -> m ∈ vf_dma (ho_vfio ho1)) -> life_inv cs (card_release a (Some h) ho1)).
  { intros ho1 Em Ep Hi1 Ho1. apply (holds_move cs ho); try done; cbn [card_release set_vfio ho_vfio]; [by apply close_inv|].
    intros m Hm. apply there_close. left. auto. }
  destruct (ca_ctx a); cbn [negb]; [|by apply Hrefused].
  destruct (bar_backend_attach dev sz _ d x) as [c st] eqn:E.
  destruct (setup_life live0 (handles cs) h a ho Hv Hx Hp) as (Hv1 & Hold & Hset).
  pose proof (setup_answers a h ho) as Ha.
  destruct (attach_cases _ _ _ _ _ _ E) as [[Ec Hst]|[Ec Hst]].
  - assert (bool_decide (st = PW_E_BACKEND) || bool_decide (is_Some (bc_dma c)) = false) as ->.
    { rewrite Ec. destruct Hst as [-> | ->]; done. }
    case_bool_decide; cbn [opened_ok]; [|by apply Hrefused]. split; [done|].
    apply (holds_add cs _ ho); unfold card_maps, card_pools, card_dma; cbn [cd_ctx cd_vfio cd_base mbind option_bind]; rewrite ?Ec; try done.
    + by apply hl_maps_once with cs.
    + by apply hl_pools_once with cs.
  - cbn [mbind option_bind] in Ec. rewrite <- Ha in Ec. rewrite <- Ec in Hset. destruct (bc_dma c) as [s|] eqn:Es.
    + rewrite bool_decide_eq_false_2 in Hst by done. subst st.
      rewrite (bool_decide_eq_true_2 (is_Some (Some s))) by done. rewrite orb_true_r, bool_decide_eq_true_2 by done. cbn [opened_ok].
      destruct Hset as (Em & Ep & Hin & Hout). split; [done|].
      apply (holds_add cs _ ho); unfold card_maps, card_pools, card_dma; cbn [cd_ctx cd_vfio cd_xregs cd_pool mbind option_bind app]; rewrite ?Es; try done.
      * apply NoDup_cons. split; [done|by apply hl_maps_once with cs].
      * apply NoDup_cons. split; [|by apply hl_pools_once with cs].
        destruct (ca_pool a) as [p|] eqn:Epool; [by apply Hp|]. exfalso.
        clear -Ec Epool. unfold card_dma_setup in Ec. rewrite Epool in Ec. by destruct (pw_vfio_map_region _ _ _ _).
      * by intros m [= <-].
    + rewrite bool_decide_eq_true_2 in Hst by done. subst st. cbn [bool_decide orb opened_ok]. by apply Hrefused; destruct Hset.
Qed.
Lemma open_vfio_life cs a bdf d x ho : life_inv cs ho -> fresh_card a ho -> opened_ok cs (card_open_vfio dev a bdf d x ho).
Proof.
  intros [Hv Hh] (Hf & Hm & Hp). unfold card_open_vfio. set (i := csr_bar_index _).
  pose proof (open_inv live0 (handles cs) (ca_vfio a) bdf i (ho_vfio ho) Hv Hf) as Ho.
  assert (Ht : forall m, m ∈ vf_dma (ho_vfio ho) -> there m (pw_vfio_open_bar (ca_vfio a) bdf i (ho_vfio ho)).1).
  { intros m Hd. apply there_open; [|by left]. pose proof (dma_live live0 _ _ _ Hv Hd) as Hl. intros Ha.
    destruct Hf as [Hn _]. apply NoDup_app in Hn as (_ & Hn & _). by apply (Hn _ Ha). }
  destruct (pw_vfio_open_bar _ _ _ _) as [v [h|st]]; cbn [fst] in Ht.
  - apply attach_vfio; try done; [|apply NoDup_cons in Hm as [_ Hm]; by apply NoDup_cons in Hm as [? _]].
    apply (holds_moved (h :: handles cs) cs ho); try done. set_solver.
  - by apply (holds_move cs ho).
Qed.

Lemma or_vfio_life cs a bdf st d x ho : life_inv cs ho -> fresh_card a ho -> opened_ok cs (or_vfio dev a bdf st d x ho).
Proof.
  intros Hi Hf. unfold or_vfio. destruct (bool_decide _); [done|].
  pose proof (open_vfio_life cs a bdf d x ho Hi Hf) as Ho. by destruct (card_open_vfio _ _ _ _ _ _) as [[ho' dx] [c|st']].
Qed.

(** A sysfs mapping that is refused is gone again. *)
Lemma attach_sysfs_refused a sz bdf d (x : X) ho ho' dx st : ca_base a ∉ ho_maps ho ->
  card_attach dev a sz bdf None d x (add_map (ca_base a) ho) = (ho', dx, Err st) -> ho' = ho.
Proof.
  intros Hb. assert (Hg : card_release a None (add_map (ca_base a) ho) = ho).
  { unfold card_release, del_map, add_map. cbn [ho_maps ho_vfio ho_pools]. rewrite filter_head by done. by destruct ho. }
  unfold card_attach. destruct (ca_ctx a); cbn [negb]; [|by intros [= <- _ _]].
  destruct (bar_backend_attach dev sz _ d x) as [c st']. case_bool_decide; [done|]. by intros [= <- _ _].
Qed.

Lemma open_life cs a bdf d x ho : life_inv cs ho -> fresh_card a ho -> opened_ok cs (card_open_bdf dev a bdf d x ho).
Proof.
  intros [Hv Hh] Hf. unfold card_open_bdf. set (ho1 := set_vfio _ ho).
  assert (Hi1 : life_inv cs ho1).
  { apply (holds_move cs ho); try done; cbn [ho1 set_vfio ho_vfio]; [by apply prep_inv|by left]. }
  assert (Hf1 : fresh_card a ho1) by exact Hf. destruct (bool_decide _); [by apply open_vfio_life|].
  destruct (pw_pci_open_bar0 _ _) as [sz|st]; [|by apply or_vfio_life].
  pose proof (attach_sysfs cs a sz (Some bdf) d x ho1 Hi1 Hf1) as Ha.
  destruct (card_attach _ _ _ _ _ _ _ _) as [[ho2 dx] [c|st]] eqn:E; [done|].
  apply attach_sysfs_refused in E as ->; [by apply or_vfio_life|].
  destruct Hf1 as (_ & Hm & _). apply NoDup_cons in Hm as [Hm _]. by rewrite not_elem_of_cons in Hm; destruct Hm.
Qed.

Lemma open_path_life cs a f d x ho : life_inv cs ho -> fresh_card a ho -> opened_ok cs (card_open_path dev a f d x ho).
Proof. intros Hi Hf. unfold card_open_path. destruct (pw_pci_open_bar0_path f); [by apply attach_sysfs|done]. Qed.

(** ** Closing *)

Lemma life_perm cs cs' ho : cs ≡ₚ cs' -> life_inv cs ho -> life_inv cs' ho.
Proof.
  intros Hp [Hv [H1 H2 H3 H4 H5 H6 H7]]. split; [|split]; try done.
  - eapply inv_perm; [|exact Hv]. unfold handles. by rewrite Hp.
  - by rewrite <- Hp.
  - by rewrite <- Hp.
  - intros c Hc. apply H5. by rewrite Hp.
  - intros c m Hc. apply H6. by rewrite Hp.
  - by rewrite <- Hp.
Qed.
(** A card less. *)
Lemma holds_drop cs c ho ho' : holds (c :: cs) ho -> ho_maps ho' ≡ₚ cs ≫= card_maps -> ho_pools ho' ≡ₚ cs ≫= card_pools ->
  vfio_inv live0 (handles cs) (ho_vfio ho') -> (forall k m, k ∈ cs -> card_dma k = Some m -> there m (ho_vfio ho')) -> life_inv cs ho'.
Proof.
  intros [H1 H2 H3 H4 H5 H6 H7] Em Ep Hv Hm. rewrite bind_cons in H1, H3. split; [done|]. split; try done.
  - rewrite Em. rewrite H1 in H2. by apply NoDup_app in H2 as (_ & _ & ?).
  - rewrite Ep. rewrite H3 in H4. by apply NoDup_app in H4 as (_ & _ & ?).
  - intros k Hk. apply H5. by right.
  - intros k m Hk Ek. destruct (Hm k m Hk Ek) as [?|[]]; [done|by eapply (container_live (handles cs))].
  - cbn [omap list_omap] in H7. destruct (card_dma c); [by apply NoDup_cons in H7 as [_ ?]|done].
Qed.

Lemma close_life cs c unmap ho : life_inv (c :: cs) ho -> life_inv cs (bar_close xdev unmap c ho).1.
Proof.
  intros [Hv Hh]. pose proof Hh as [H1 H2 H3 H4 H5 H6 H7]. rewrite bind_cons in H1, H3.
  pose proof (H5 c ltac:(by left)) as Hk. unfold bar_close, card_dma_teardown. unfold handles in Hv. cbn [omap list_omap] in Hv, H7.
  unfold card_maps at 1 in H1. unfold card_pools at 1 in H3. unfold card_dma at 1 in H7.
  destruct (bc_dma (cd_ctx c)) as [s|] eqn:Es; cbn [fst set_vfio del_map del_pool ho_vfio ho_maps ho_pools].
  - destruct (cd_vfio c) as [h|] eqn:Eh; [|by destruct Hk]. cbn in H1, H3, H7. apply NoDup_cons in H7 as [Hn _].
    apply (holds_drop cs c ho); try done; cbn [set_vfio del_map del_pool ho_vfio ho_maps ho_pools].
    + by apply filter_others.
    + by apply filter_others.
    + apply close_inv. by apply unmap_dma_inv.
    + intros k m Hc Em. apply there_close. left. apply unmap_keeps; [apply (H6 k); [by right|done]|].
      intros ->. apply Hn. apply list_elem_of_omap. exists k. by split.
  - destruct (cd_vfio c) as [h|] eqn:Eh; cbn in H1, H3.
    + apply (holds_drop cs c ho); try done; cbn [set_vfio ho_vfio]; [by apply close_inv|].
      intros k m Hc Em. apply there_close. left. apply (H6 k); [by right|done].
    + apply (holds_drop cs c ho); try done; cbn [del_map ho_maps ho_vfio]; [by apply filter_others|].
      intros k m Hc Em. left. apply (H6 k); [by right|done].
Qed.

(** ** Operations of an open card *)

Definition pool_of (c : bar_ctx D X) : option (Z * Z) := (fun s => (ds_pool_iova s, ds_pool_len s)) <$> bc_dma c.

Context (late : nat -> bool) (deadline : nat).

(** One call through the operation table. *)
Inductive bar_op : bar_ctx D X -> bar_ctx D X -> Prop :=
| OpRead32 off c : bar_op c (bar_read32 dev off c).1
| OpWrite32 off v c : bar_op c (bar_write32 dev off v c).1
| OpCardInfo c : bar_op c (bar_card_info dev c).1
| OpFlowWrite row f c : bar_op c (bar_flow_write dev row f c).1
| OpFlowCommit c : bar_op c (bar_flow_commit dev c).1
| OpSnapshot c : bar_op c (bar_stats_snapshot dev c).1
| OpPortStats p c : bar_op c (bar_port_stats_read dev p c).1
| OpFlowStats l c : bar_op c (bar_flow_stats_read dev l c).1
| OpFlowHist l n c : bar_op c (bar_flow_hist_read dev l n c).1
| OpRx n c : bar_op c (bar_slow_path_rx dev xdev n c).1
| OpTx frame lif p c : bar_op c (bar_slow_path_tx dev xdev late deadline frame lif p c).1.

Lemma reg_rd_dma off (c : bar_ctx D X) : bc_dma (reg_rd dev off c).1 = bc_dma c.
Proof. unfold reg_rd. by destruct (bd_rd _ _ _). Qed.

Lemma copy_words_dma n bs : (length bs <= n)%nat -> forall off (c : bar_ctx D X), bc_dma (bar_copy_words dev off bs c) = bc_dma c.
Proof.
  revert bs. induction n as [|n IH]; intros [|b0 [|b1 [|b2 [|b3 bs]]]] Hl off c; cbn [bar_copy_words]; try done; cbn [length] in Hl; [lia|].
  rewrite IH by lia. done.
Qed.

Lemma copy_out_dma n k : (k <= n)%nat -> forall off (c : bar_ctx D X), bc_dma (bar_copy_words_out dev off k c).1 = bc_dma c.
Proof.
  revert k. induction n as [|n IH]; intros [|[|[|[|k]]]] Hl off c; cbn [bar_copy_words_out]; try done; try lia;
    pose proof (reg_rd_dma off c) as Hr; destruct (reg_rd dev off c) as [c1 v]; try done.
  pose proof (IH k ltac:(lia) (off + 4) c1) as Hk. destruct (bar_copy_words_out dev (off + 4) k c1). cbn in *. congruence.
Qed.

Lemma inject_wait_dma n : forall c : bar_ctx D X, bc_dma (inject_wait dev n c).1 = bc_dma c.
Proof.
  induction n as [|n IH]; intros c; [done|]. cbn [inject_wait].
  pose proof (reg_rd_dma PWFPGA_REG_INJECT_CTRL c) as Hr. destruct (reg_rd dev _ c) as [c1 v].
  destruct (negb _); [done|]. by rewrite IH.
Qed.

Lemma rx_pool s n (x : X) : let '(_, s', _) := dma_slow_path_rx xdev s n x in ds_pool_iova s' = ds_pool_iova s /\ ds_pool_len s' = ds_pool_len s.
Proof.
  unfold dma_slow_path_rx. assert (Ha : forall x, let '(_, s') := if ds_c2h_armed s then (x, s) else dma_arm_c2h xdev s x in
    ds_pool_iova s' = ds_pool_iova s /\ ds_pool_len s' = ds_pool_len s).
  { intros y. destruct (ds_c2h_armed s); [done|]. unfold dma_arm_c2h. by destruct (xdma_rd _ _ _). }
  specialize (Ha x). destruct (if ds_c2h_armed s then _ else _) as [x1 s1]. destruct Ha as [Ha1 Ha2].
  assert (Hr : let '(_, s') := rx_status xdev s1 x1 in ds_pool_iova s' = ds_pool_iova s1 /\ ds_pool_len s' = ds_pool_len s1).
  { unfold rx_status. by repeat case_match; simplify_eq. }
  destruct (rx_status xdev s1 x1) as [x2 s2]. destruct Hr as [Hr1 Hr2]. destruct (xdma_rd _ _ _) as [x3 cnt].
  destruct (rx_select _ _ _) as [[]|]; cbn [set_c2h ds_pool_iova ds_pool_len]; split; congruence.
Qed.

(** The register operations leave the DMA state alone. *)
Ltac reg_steps :=
  repeat match goal with
  | |- context [reg_rd dev ?o ?c] =>
      let H := fresh in pose proof (reg_rd_dma o c) as H; destruct (reg_rd dev o c) as [? ?]; cbn [fst] in H
  | |- context [bar_copy_words_out dev ?o ?n ?c] =>
      let H := fresh in pose proof (copy_out_dma n n ltac:(done) o c) as H; destruct (bar_copy_words_out dev o n c) as [? ?]; cbn [fst] in H
  | |- context [inject_wait dev ?n ?c] =>
      let H := fresh in pose proof (inject_wait_dma n c) as H; destruct (inject_wait dev n c) as [? ?]; cbn [fst] in H
  | |- context [if ?b then _ else _] => destruct b
  end.

Lemma bar_op_pool c c' : bar_op c c' -> pool_of c' = pool_of c.
Proof.
  destruct 1; unfold pool_of.
  - unfold bar_read32. reg_steps; cbn; congruence.
  - unfold bar_write32. reg_steps; done.
  - unfold bar_card_info. reg_steps; cbn; congruence.
  - unfold bar_flow_write. reg_steps; try done. cbn [fst]. by rewrite (copy_words_dma _ _ (Nat.le_refl _)).
  - unfold bar_flow_commit. reg_steps; cbn in *; congruence.
  - unfold bar_stats_snapshot. reg_steps; done.
  - unfold bar_port_stats_read. reg_steps; cbn; congruence.
  - unfold bar_flow_stats_read. reg_steps; cbn; congruence.
  - unfold bar_flow_hist_read. cbv zeta. reg_steps; cbn; congruence.
  - unfold bar_slow_path_rx. destruct (bc_dma c) as [s|] eqn:Es; [|f_equal; cbv zeta; reg_steps; cbn in *; congruence].
    pose proof (rx_pool s n (bc_xdma c)) as Hr. destruct (dma_slow_path_rx _ _ _ _) as [[x s'] r]. cbn. destruct Hr. congruence.
  - unfold bar_slow_path_tx. destruct (bc_dma c) as [s|] eqn:Es; [by destruct (dma_slow_path_tx _ _ _ _ _ _ _)|].
    f_equal. cbv zeta. reg_steps; cbn [fst bc_dma set_dev reg_wr] in *; rewrite ?(copy_words_dma _ _ (Nat.le_refl _)) in *; congruence.
Qed.

(** ** Every life of the cards *)

Definition set_card_ctx (c : card_t) (ctx : bar_ctx D X) : card_t :=
  {| cd_bdf := cd_bdf c; cd_ctx := ctx; cd_vfio := cd_vfio c; cd_base := cd_base c; cd_xregs := cd_xregs c; cd_pool := cd_pool c |}.

(** A card is opened by its address or by a path, or refused; an open one is used, or
    closed. *)
Inductive life_step : list card_t * host -> list card_t * host -> Prop :=
| LifeOpen cs ho a bdf d x ho' dx c : fresh_card a ho -> card_open_bdf dev a bdf d x ho = (ho', dx, Ok c) ->
    life_step (cs, ho) (c :: cs, ho')
| LifeRefused cs ho a bdf d (x : X) ho' dx st : fresh_card a ho -> card_open_bdf dev a bdf d x ho = (ho', dx, Err st) ->
    life_step (cs, ho) (cs, ho')
| LifePath cs ho a f d x ho' dx c : fresh_card a ho -> card_open_path dev a f d x ho = (ho', dx, Ok c) ->
    life_step (cs, ho) (c :: cs, ho')
| LifePathRefused cs ho a f d (x : X) ho' dx st : fresh_card a ho -> card_open_path dev a f d x ho = (ho', dx, Err st) ->
    life_step (cs, ho) (cs, ho')
| LifeRun cs1 c cs2 ctx ho : bar_op (cd_ctx c) ctx -> life_step (cs1 ++ c :: cs2, ho) (cs1 ++ set_card_ctx c ctx :: cs2, ho)
| LifeClose cs1 c cs2 unmap ho : life_step (cs1 ++ c :: cs2, ho) (cs1 ++ cs2, (bar_close xdev unmap c ho).1).

Lemma run_life c ctx cs ho : pool_of ctx = pool_of (cd_ctx c) -> life_inv (c :: cs) ho -> life_inv (set_card_ctx c ctx :: cs) ho.
Proof.
  intros Hp [Hv [H1 H2 H3 H4 H5 H6 H7]]. unfold pool_of in Hp.
  assert (Em : card_maps (set_card_ctx c ctx) = card_maps c).
  { unfold card_maps. cbn. by destruct (bc_dma ctx), (bc_dma (cd_ctx c)). }
  assert (Ep : card_pools (set_card_ctx c ctx) = card_pools c).
  { unfold card_pools. cbn. by destruct (bc_dma ctx), (bc_dma (cd_ctx c)). }
  assert (Ed : card_dma (set_card_ctx c ctx) = card_dma c).
  { unfold card_dma. cbn. destruct (cd_vfio c); [|done]. cbn. destruct (bc_dma ctx), (bc_dma (cd_ctx c)); try done. cbn in *.
    injection Hp as E1 E2. unfold pool_map. by rewrite E1, E2. }
  split; [done|]. rewrite bind_cons in H1, H3. cbn [omap list_omap] in H7.
  split; rewrite ?bind_cons, ?Em, ?Ep; cbn [omap list_omap]; rewrite ?Ed; try done.
  - intros k [->|Hk]%elem_of_cons; [|apply H5; by right]. intros Hs. apply (H5 c); [by left|]. cbn in Hs.
    by destruct (bc_dma ctx), (bc_dma (cd_ctx c)).
  - intros k m [->|Hk]%elem_of_cons; [rewrite Ed; apply H6; by left|apply H6; by right].
Qed.

Lemma life_step_inv a b : life_step a b -> life_inv a.1 a.2 -> life_inv b.1 b.2.
Proof.
  destruct 1 as [cs ho a bdf d x ho' dx c Hf E|cs ho a bdf d x ho' dx st Hf E|cs ho a f d x ho' dx c Hf E|cs ho a f d x ho' dx st Hf E|
                 cs1 c cs2 ctx ho Ho|cs1 c cs2 unmap ho]; cbn [fst snd]; intros Hi.
  1,2: pose proof (open_life cs a bdf d x ho Hi Hf) as Hk; by rewrite E in Hk.
  1,2: pose proof (open_path_life cs a f d x ho Hi Hf) as Hk; by rewrite E in Hk.
  - apply (life_perm (set_card_ctx c ctx :: cs1 ++ cs2)); [by rewrite Permutation_middle|].
    apply run_life; [by apply bar_op_pool|]. eapply life_perm; [|exact Hi]. by rewrite Permutation_middle.
  - apply close_life. eapply life_perm; [|exact Hi]. by rewrite Permutation_middle.
Qed.

Definition host_init : host := {| ho_vfio := vfio_init live0; ho_maps := []; ho_pools := [] |}.

Lemma host_init_inv : NoDup live0 -> Forall (fun fd => 0 <= fd) live0 -> life_inv [] host_init.
Proof.
  intros Hn Hf. split; [by apply init_inv|]. split; try done; try constructor.
  - intros c Hc. by apply elem_of_nil in Hc.
  - intros c m Hc. by apply elem_of_nil in Hc.
Qed.

End Inv.

(** ** The kernel driver's probe *)

Definition PW_REG_DEVICE_ID : Z := 0x0000.
Definition PW_REG_VERSION : Z := 0x0004.
Definition PW_REG_BUILD_ID : Z := 0x0008.
Definition PW_REG_GIT_HASH : Z := 0x000c.
Definition PW_REG_CAPABILITIES : Z := 0x0010.
Definition PW_REG_NUM_PORTS : Z := 0x0014.
Definition PW_REG_NUM_FLOWS : Z := 0x0018.
Definition PW_EXPECTED_DEVICE_ID : Z := 0xA502BEEF.
Definition ENOMEM : Z := 12.
Definition ENODEV : Z := 19.

(** [struct pw_card]. *)
Record kernel_card := {
  kc_bar0_len : Z; kc_device_id : Z; kc_version : Z; kc_build_id : Z; kc_git_hash : Z;
  kc_capabilities : Z; kc_num_ports : Z; kc_num_flows : Z
}.

(** What the kernel's calls answer: the allocation, [pcim_enable_device] and
    [pcim_iomap_regions] (0 or a negative error), the length of BAR0; and the module
    parameter. *)
Record probe_env := { pe_alloc : bool; pe_enable : Z; pe_iomap : Z; pe_bar0_len : Z; pe_force_match : bool }.

Section Kernel.
Context {D : Type} (dev : bar_dev D).

(** [ioread32], with the offsets read so far. *)
Definition ioread32 (off : Z) (s : D * list Z) : (D * list Z) * Z :=
  let '(d, v) := bd_rd dev off s.1 in ((d, s.2 ++ [off]), v).

(** The device after the probe, the offsets it read, and the card or the error. *)
Definition pw_probe (e : probe_env) (d : D) : D * list Z * result Z kernel_card :=
  if negb (pe_alloc e) then (d, [], Err (- ENOMEM)) else
  if ztrue (pe_enable e) then (d, [], Err (pe_enable e)) else
  if ztrue (pe_iomap e) then (d, [], Err (pe_iomap e)) else
  if pe_bar0_len e <? PW_REG_NUM_FLOWS + 4 then (d, [], Err (- ENODEV)) else
  let '(s, dev_id) := ioread32 PW_REG_DEVICE_ID (d, []) in
  if negb (pe_force_match e) && negb (dev_id =? PW_EXPECTED_DEVICE_ID) then (s, Err (- ENODEV)) else
  let '(s, version) := ioread32 PW_REG_VERSION s in
  let '(s, build_id) := ioread32 PW_REG_BUILD_ID s in
  let '(s, git_hash) := ioread32 PW_REG_GIT_HASH s in
  let '(s, capabilities) := ioread32 PW_REG_CAPABILITIES s in
  let '(s, ports) := ioread32 PW_REG_NUM_PORTS s in
  let '(s, flows) := ioread32 PW_REG_NUM_FLOWS s in
  (s, Ok {| kc_bar0_len := pe_bar0_len e; kc_device_id := dev_id; kc_version := version; kc_build_id := build_id;
            kc_git_hash := git_hash; kc_capabilities := capabilities; kc_num_ports := ports; kc_num_flows := flows |}).

(** The backend's read at [a] is the probe's read at [b], whose result is [E]. *)
Ltac same_read a b E := change (bd_rd dev (0 + a)) with (bd_rd dev b); rewrite E; cbn [set_dev bc_csr_off bc_dev].

(** The probe reads inside BAR0 only, claims a card only with the expected device id
    or the override, and what it records is what the BAR backend reports of the same
    device, port and flow counts cut to 16 bits there. *)
Theorem kernel_probe_exact (e : probe_env) (d d' : D) (reads : list Z) (r : result Z kernel_card) :
  pw_probe e d = (d', reads, r) ->
  Forall (fun off => 0 <= off /\ off + 4 <= pe_bar0_len e) reads /\
  (forall k, r = Ok k -> (pe_force_match e = true \/ kc_device_id k = PW_EXPECTED_DEVICE_ID) /\
     forall (X : Type) (x : X) sz dma fault,
       let i := (bar_card_info dev {| bc_size := sz; bc_csr_off := 0; bc_dma := dma; bc_dev := d; bc_xdma := x; bc_fault := fault |}).2.2 in
       ci_device_id i = kc_device_id k /\ ci_version i = kc_version k /\ ci_build_id i = kc_build_id k /\
       ci_git_hash i = kc_git_hash k /\ ci_capabilities i = kc_capabilities k /\
       ci_num_local_ports i = u16 (kc_num_ports k) /\ ci_num_local_flows i = u16 (kc_num_flows k)).
Proof.
  unfold pw_probe. destruct (negb _); [by intros [= _ <- <-]|]. destruct (ztrue (pe_enable e)); [by intros [= _ <- <-]|].
  destruct (ztrue (pe_iomap e)); [by intros [= _ <- <-]|].
  destruct (Z.ltb_spec (pe_bar0_len e) (PW_REG_NUM_FLOWS + 4)) as [|Hl]; [by intros [= _ <- <-]|].
  unfold PW_REG_NUM_FLOWS in Hl. unfold ioread32. cbn [fst snd].
  destruct (bd_rd dev PW_REG_DEVICE_ID d) as [d1 dev_id] eqn:E1. cbn [fst snd app].
  destruct (negb (pe_force_match e) && _) eqn:Hid.
  { intros [= _ <- <-]. split; [|done]. repeat constructor; unfold PW_REG_DEVICE_ID; lia. }
  destruct (bd_rd dev PW_REG_VERSION d1) as [d2 ver] eqn:E2. cbn [fst snd].
  destruct (bd_rd dev PW_REG_BUILD_ID d2) as [d3 bid] eqn:E3. cbn [fst snd].
  destruct (bd_rd dev PW_REG_GIT_HASH d3) as [d4 git] eqn:E4. cbn [fst snd].
  destruct (bd_rd dev PW_REG_CAPABILITIES d4) as [d5 caps] eqn:E5. cbn [fst snd].
  destruct (bd_rd dev PW_REG_NUM_PORTS d5) as [d6 ports] eqn:E6. cbn [fst snd].
  destruct (bd_rd dev PW_REG_NUM_FLOWS d6) as [d7 flows] eqn:E7. cbn [fst snd app].
  intros [= _ <- <-]. split.
  { repeat constructor; unfold PW_REG_DEVICE_ID, PW_REG_VERSION, PW_REG_BUILD_ID, PW_REG_GIT_HASH, PW_REG_CAPABILITIES,
      PW_REG_NUM_PORTS, PW_REG_NUM_FLOWS; lia. }
  intros k [= <-]. cbn [kc_device_id kc_version kc_build_id kc_git_hash kc_capabilities kc_num_ports kc_num_flows]. split.
  - destruct (pe_force_match e); [by left|right]. cbn in Hid. by apply negb_false_iff, Z.eqb_eq in Hid.
  - intros X x sz dma fault. unfold bar_card_info, reg_rd. cbn [bc_csr_off bc_dev].
    same_read PWFPGA_REG_DEVICE_ID PW_REG_DEVICE_ID E1. same_read PWFPGA_REG_VERSION PW_REG_VERSION E2. same_read PWFPGA_REG_BUILD_ID PW_REG_BUILD_ID E3.
    same_read PWFPGA_REG_GIT_HASH PW_REG_GIT_HASH E4. same_read PWFPGA_REG_CAPABILITIES PW_REG_CAPABILITIES E5. same_read PWFPGA_REG_NUM_LOCAL_PORTS PW_REG_NUM_PORTS E6.
    same_read PWFPGA_REG_NUM_LOCAL_FLOWS PW_REG_NUM_FLOWS E7.
    destruct (bd_rd dev (0 + PWFPGA_REG_NUM_LOGICAL_IFS) _) as [d8 lifs]. cbn [set_dev bc_csr_off bc_dev].
    by destruct (bd_rd dev (0 + PWFPGA_REG_NUM_CLASSIFIER) _).
Qed.
End Kernel.

(** ** Two cards of one group *)

(** A card whose capabilities are its state; its slow path is not touched here. *)
Definition sample_bar : bar_dev Z := {| bd_rd off d := (d, if off =? PWFPGA_REG_CAPABILITIES then d else 0); bd_wr _ _ d := d |}.
Definition sample_xdma : xdma_dev unit :=
  {| xdma_rd _ x := (x, 0); xdma_wr _ _ x := x; pool_load _ _ := 0; pool_store _ _ x := x |}.

(** The first card has no resource file to map, the second is mapped and refused there
    for want of DMA, the third is a file. *)
Definition sample_answers (file : bar_file) (e : vfio_env) (base : Z) : card_answers := {|
  ca_force := None; ca_csr_bar := None; ca_power := true; ca_config := true; ca_cmd := Some 0;
  ca_files := fun _ => file; ca_base := base; ca_vfio := e; ca_ctx := true; ca_region := Some (65536, true);
  ca_region_mmap := true; ca_xregs := base + 1; ca_pagesize := 4096; ca_pool := Some base;
  ca_map_dma := true; ca_state := true; ca_unmap := true |}.
Definition no_file : bar_file := {| bf_open := false; bf_stat := None; bf_mmap := false |}.
Definition a_file : bar_file := {| bf_open := true; bf_stat := Some (65536, true); bf_mmap := true |}.

Definition opened_card (r : host * (Z * unit) * result pw_status (@card Z unit)) : host * option (@card Z unit) :=
  (r.1.1, match r.2 with Ok c => Some c | Err _ => None end).
Definition life_one := Eval vm_compute in
  opened_card (card_open_bdf sample_bar (sample_answers no_file (sample_env (Some 5) (Some 6) 7) 0x7000) (chars "07:00.0") PWFPGA_CAP_HAS_DMA tt
    (host_init [3])).
Definition life_two := Eval vm_compute in
  opened_card (card_open_bdf sample_bar (sample_answers a_file (sample_env None None 8) 0x8000) (chars "0000:08:00.0") PWFPGA_CAP_HAS_DMA tt life_one.1).
Definition life_three := Eval vm_compute in
  opened_card (card_open_path sample_bar (sample_answers no_file (sample_env None None 9) 0x9000) a_file 0 tt life_two.1).

Definition no_card : @card Z unit :=
  {| cd_bdf := None; cd_ctx := {| bc_size := 0; bc_csr_off := 0; bc_dma := None; bc_dev := 0; bc_xdma := tt; bc_fault := false |};
     cd_vfio := None; cd_base := 0; cd_xregs := 0; cd_pool := 0 |}.
Definition first_card : @card Z unit := Eval vm_compute in default no_card life_one.2.
Definition second_card : @card Z unit := Eval vm_compute in default no_card life_two.2.
Definition third_card : @card Z unit := Eval vm_compute in default no_card life_three.2.

(** The first card is used and closed: the second, of the same group, keeps its
    descriptors and its pool. *)
Definition life_used : @card Z unit := Eval vm_compute in set_card_ctx first_card (bar_card_info sample_bar (cd_ctx first_card)).1.
Definition life_left : host := Eval vm_compute in (bar_close sample_xdma true life_used life_three.1).1.
Definition life_gone : host := Eval vm_compute in
  (bar_close sample_xdma true third_card (bar_close sample_xdma true second_card life_left).1).1.

