(* ===== verification/Json.v ===== *)
(** * JSON values

    The values the daemon exchanges, and the json-c library as an interface: what
    it reads out of a value of another type is its own, what the code relies on is
    stated by the laws. Adding a key that is there replaces its value. *)

From Stdlib Require Import Ascii SpecFloat.
From S2P Require Import Prelude Scalar Text.

Local Open Scope string_scope.
Local Open Scope Z_scope.
Local Open Scope list_scope.

Inductive json : Type :=
| JNull
| JBool (b : bool)
| JInt (z : Z)
| JDouble (d : spec_float)
| JString (s : string)
| JArray (l : list json)
| JObject (l : list (string * json)).

(** [json_object_object_add] and [json_object_object_get_ex] on the members. *)
Fixpoint jput (k : string) (v : json) (l : list (string * json)) : list (string * json) :=
  match l with
  | [] => [(k, v)]
  | (k', v') :: l => if str_eq k' k then (k', v) :: l else (k', v') :: jput k v l
  end.

Fixpoint jmember (k : string) (l : list (string * json)) : option json :=
  match l with
  | [] => None
  | (k', v) :: l => if str_eq k' k then Some v else jmember k l
  end.

Definition jget (k : string) (j : json) : option json :=
  match j with JObject l => jmember k l | _ => None end.

Definition is_jstring (j : json) : bool := match j with JString _ => true | _ => false end.

(** A member that is there only under a condition. *)
Definition jif (c : bool) (l : list (string * json)) : list (string * json) := if c then l else [].

(** The C conversions to [int] and [int64_t]. *)
Definition i64 (z : Z) : Z := (z + 2 ^ 63) mod 2 ^ 64 - 2 ^ 63.

(** [json_object_new_int(x)] and [json_object_new_int64((int64_t)x)]. *)
Definition jint (z : Z) : json := JInt (i32 z).
Definition jint64 (z : Z) : json := JInt (i64 z).

(** What a C string shows of a text. *)
Definition c_string (s : string) : string := String.string_of_list_ascii (cstring (chars s)).

(** json-c: parse a request, print a reply, read a value as a string (NULL for the
    JSON null), an [int], an [int64_t] or a boolean. *)
Class JsonC := {
  jc_parse : string -> option json;
  jc_print : json -> string;
  jc_string : json -> option string;
  jc_int : json -> Z;
  jc_int64 : json -> Z;
  jc_bool : json -> bool;
  jc_string_of : forall s, jc_string (JString s) = Some s;
  jc_string_null : jc_string JNull = None;
  jc_int_of : forall z, - 2 ^ 31 <= z < 2 ^ 31 -> jc_int (JInt z) = z;
  jc_int64_of : forall z, - 2 ^ 63 <= z < 2 ^ 63 -> jc_int64 (JInt z) = z;
  jc_bool_of : forall b, jc_bool (JBool b) = b
}.

Lemma jget_put k v l : jget k (JObject (jput k v l)) = Some v.
Proof.
  simpl. induction l as [|[k' v'] l IH]; simpl.
  - unfold str_eq. by rewrite bool_decide_eq_true_2.
  - destruct (str_eq k' k) eqn:E; simpl; rewrite E; [done|exact IH].
Qed.

Lemma i64_id z : - 2 ^ 63 <= z < 2 ^ 63 -> i64 z = z.
Proof. intros. unfold i64. rewrite Z.mod_small by lia. lia. Qed.
Lemma i32_id z : - 2 ^ 31 <= z < 2 ^ 31 -> i32 z = z.
Proof. intros. unfold i32. rewrite Z.mod_small by lia. lia. Qed.
