(* ===== verification/Forms.v ===== *)
(** * The form view of the running configuration

    Models [config.get_test] of [sw/packetwyrmd/src/main.c]: the running flows and
    forwards in the shape of the web form ([flow_to_form_json],
    [fwd_to_form_json]). [inet_ntop] is the inverse of [inet_pton]. *)

From Stdlib Require Import Ascii.
From S2P Require Import Prelude Types Config Csr FlowRow Scalar Text Yaml ConfigParse Json.

Local Open Scope string_scope.
Local Open Scope Z_scope.
Local Open Scope list_scope.

(** [inet_ntop] of the C library. *)
Class InetNtop `{InetPton} := {
  inet_ntop4 : Z -> string;
  inet_ntop6 : list Z -> string;
  inet_ntop4_back : forall a, is_u32 a -> inet_pton4 (inet_ntop4 a) = Some a;
  inet_ntop6_back : forall a, wt_bytes 16 a -> inet_pton6 (inet_ntop6 a) = Some a;
  (** at most [INET6_ADDRSTRLEN - 1] characters, a colon among them and no slash *)
  inet_ntop6_form : forall a, (0 < String.length (inet_ntop6 a) < 46)%nat /\
    has_colon (inet_ntop6 a) = true /\ split_slash (inet_ntop6 a) = (inet_ntop6 a, None)
}.

(** ** [%x] *)

(** Hexadecimal digits of [z] before [acc], [n] of them at least. *)
Fixpoint hex_go (fuel n : nat) (z : Z) (acc : string) : string :=
  match fuel with
  | O => acc
  | S fuel =>
      if (z =? 0) && (n =? 0)%nat then acc
      else hex_go fuel (pred n) (z / 16) (String (hex_char (z mod 16)) acc)
  end.
(** [%0<n>x] of a value of at most 64 bits. *)
Definition hex (n : nat) (z : Z) : string := hex_go 16 n z "".
Definition hex0x (n : nat) (z : Z) : string := "0x" +:+ hex n z.

Section Forms.
Context `{InetNtop}.

Definition js_mac (m : list Z) : json := JString (mac_text m).
Definition js_v4 (host : Z) : json := JString (inet_ntop4 host).
Definition js_v6 (a : list Z) : json := JString (inet_ntop6 a).

(** The leading ones of a byte, then of the mask. *)
Fixpoint lead_ones (fuel : nat) (b : Z) : Z :=
  match fuel with
  | O => 0
  | S fuel => if ztrue (b &&& 0x80) then 1 + lead_ones fuel (u8 (b <<< 1)) else 0
  end.
Fixpoint v6_prefix_len (m : list Z) : Z :=
  match m with
  | [] => 0
  | b :: m => if b =? 0xFF then 8 + v6_prefix_len m else lead_ones 8 b
  end.

Definition v6_any (m : list Z) : bool := existsb ztrue m.

Definition modestr (m : Z) : string :=
  if m =? 1 then "increment" else if m =? 2 then "random" else "static".

Definition add_mod_u64 (k : string) (mode mask : Z) : string * json :=
  (k, JObject [("mode", JString (modestr mode));
               ("mask", JString (if ztrue mode && ztrue mask then hex0x 1 mask else ""))]).

Definition add_mod_v6 (k : string) (mode : Z) (mask16 : list Z) (active : bool) : string * json :=
  (k, JObject [("mode", JString (if active then modestr mode else "static"));
               ("mask", if active && ztrue mode && v6_any mask16 then js_v6 mask16 else JString "")]).

Definition mode_of (m : pw_field_mod) : Z := field_mod_code (fm_mode m).

(** The fields a flow narrows its match with; blank is the default. *)
Definition form_match (f : pw_flow) : json :=
  JObject
    [("udp_dst", JString (if f_match_udp_dst_mask f =? 0xFFFF then ""
                          else hex0x 1 (f_match_udp_dst_mask f)));
     ("ipv4_dst", JString (if f_match_ipv4_dst_mask f =? 0xFFFFFFFF then ""
                           else hex0x 1 (f_match_ipv4_dst_mask f)));
     ("ipv6_dst_prefix", if f_match_ipv6_dst_set f then jint (v6_prefix_len (f_match_ipv6_dst_mask f))
                         else JString "");
     ("ipv6_src_prefix", if f_match_ipv6_src_set f then jint (v6_prefix_len (f_match_ipv6_src_mask f))
                         else JString "")].

Definition form_mods (f : pw_flow) : json :=
  let md := f_mod f in
  let v6 := v6_present (f_ipv6 f) in
  JObject
    [add_mod_u64 "src_ipv4" (if v6 then 0 else mode_of (mod_src_ipv4 md)) (if v6 then 0 else fm_mask (mod_src_ipv4 md));
     add_mod_u64 "dst_ipv4" (if v6 then 0 else mode_of (mod_dst_ipv4 md)) (if v6 then 0 else fm_mask (mod_dst_ipv4 md));
     add_mod_v6 "src_ipv6" (mode_of (mod_src_ipv4 md)) (mod_src_ipv6_mask md) v6;
     add_mod_v6 "dst_ipv6" (mode_of (mod_dst_ipv4 md)) (mod_dst_ipv6_mask md) v6;
     add_mod_u64 "udp_src" (mode_of (mod_udp_src md)) (fm_mask (mod_udp_src md));
     add_mod_u64 "udp_dst" (mode_of (mod_udp_dst md)) (fm_mask (mod_udp_dst md));
     add_mod_u64 "src_mac" (mode_of (mod_src_mac md)) (fm_mask (mod_src_mac md));
     add_mod_u64 "dst_mac" (mode_of (mod_dst_mac md)) (fm_mask (mod_dst_mac md));
     add_mod_u64 "vlan" (mode_of (mod_vlan md)) (fm_mask (mod_vlan md))].

Definition form_encap (f : pw_flow) : json :=
  let e := f_encap f in
  let et := match enc_type e with
            | PW_ENCAP_IPIP => "ipip" | PW_ENCAP_GRE => "gre" | PW_ENCAP_ETHERIP => "etherip"
            | PW_ENCAP_NONE => "none" end in
  let ev6 := v6_present (enc_outer_ipv6 e) in
  JObject
    ([("type", JString (if enc_present e then et else "none"));
      ("l3", JString (if ev6 then "ipv6" else "ipv4"))] ++
     (if enc_present e && ev6 then
        [("src", js_v6 (v6_src (enc_outer_ipv6 e))); ("dst", js_v6 (v6_dst (enc_outer_ipv6 e)));
         ("ttl", jint (v6_hop_limit (enc_outer_ipv6 e))); ("dscp", jint (v6_dscp (enc_outer_ipv6 e)))]
      else if enc_present e then
        [("src", js_v4 (v4_src (enc_outer_ipv4 e))); ("dst", js_v4 (v4_dst (enc_outer_ipv4 e)));
         ("ttl", jint (v4_ttl (enc_outer_ipv4 e))); ("dscp", jint (v4_dscp (enc_outer_ipv4 e)))]
      else [("src", JString ""); ("dst", JString ""); ("ttl", JString ""); ("dscp", JString "")]) ++
     (if enc_present e && enc_inner_mac_set e then
        [("inner_src_mac", js_mac (enc_inner_src_mac e)); ("inner_dst_mac", js_mac (enc_inner_dst_mac e))]
      else [("inner_src_mac", JString ""); ("inner_dst_mac", JString "")])).

Definition form_l3 (f : pw_flow) : list (string * json) :=
  if v6_present (f_ipv6 f) then
    [("l3", JString "ipv6"); ("ip_src", js_v6 (v6_src (f_ipv6 f))); ("ip_dst", js_v6 (v6_dst (f_ipv6 f)));
     ("ttl", jint (v6_hop_limit (f_ipv6 f)))]
  else
    [("l3", JString "ipv4"); ("ip_src", js_v4 (v4_src (f_ipv4 f))); ("ip_dst", js_v4 (v4_dst (f_ipv4 f)));
     ("ttl", jint (v4_ttl (f_ipv4 f)))].

Definition form_rate (t : pw_flow_traffic) : list (string * json) :=
  if ztrue (tr_rate_pps t) then [("rate_mode", JString "pps"); ("rate", jint64 (tr_rate_pps t))]
  else [("rate_mode", JString "bps"); ("rate", jint64 (tr_rate_bps t))].

Definition flow_to_form_json (f : pw_flow) : json :=
  let l2 := f_l2 f in
  let t := f_traffic f in
  let tcp := udp_l4_proto (f_udp f) =? 6 in
  JObject
    ([("id", jint (f_id f)); ("name", JString (f_name f));
      ("tx", jint (f_tx_global_port f)); ("rx", jint (f_rx_global_port f));
      ("src_mac", js_mac (l2_src_mac l2)); ("dst_mac", js_mac (l2_dst_mac l2));
      ("vlan", if l2_vlan_set l2 then jint (l2_vlan l2) else JString "");
      ("ethertype", JString (if ztrue (l2_ethertype l2) then hex0x 4 (l2_ethertype l2) else ""))] ++
     form_l3 f ++
     [("l4", JString (if tcp then "tcp" else "udp"));
      ("sport", jint (udp_src_port (f_udp f))); ("dport", jint (udp_dst_port (f_udp f)));
      ("tcp_flags", JString (if tcp then hex0x 2 (udp_tcp_flags (f_udp f)) else ""));
      ("frame_len", jint (if tr_frame_len_fixed_set t then tr_frame_len_fixed t else tr_frame_len_min t))] ++
     form_rate t ++
     [("payload", JString match tr_payload_mode t with
                          | PWFPGA_PAYLOAD_ZERO => "zero" | PWFPGA_PAYLOAD_PRBS => "prbs"
                          | PWFPGA_PAYLOAD_RANDOM => "random" | PWFPGA_PAYLOAD_INCREMENT => "increment" end);
      ("frame_template", JString match tr_frame_template t with
                          | PW_FRAME_TEMPLATE_L4RAW => "raw" | PW_FRAME_TEMPLATE_L3RAW => "ip"
                          | PW_FRAME_TEMPLATE_L2RAW => "eth" | PW_FRAME_TEMPLATE_TEST => "test" end);
      ("seq", JBool (tr_insert_sequence t)); ("ts", JBool (tr_insert_timestamp t));
      ("m_loss", JBool (meas_loss (f_meas f))); ("m_lat", JBool (meas_latency (f_meas f)));
      ("m_jit", JBool (meas_jitter (f_meas f)));
      ("classify", JString (if f_classify_header f then "header" else "map"));
      ("background", JBool (f_background f));
      ("match", form_match f); ("mods", form_mods f); ("encap", form_encap f);
      ("rx_expect", JString match f_rx_expect f with PW_RX_TUNNELED => "tunneled" | PW_RX_INNER => "inner" end)]).

Definition opt16 (k : string) (v : Z) : string * json := (k, if ztrue v then jint v else JString "").

(** [snprintf(b, sizeof b, "%s/%d", ...)] into 80 bytes. *)
Definition form_prefix (k : string) (set : bool) (a m : list Z) : string * json :=
  (k, JString (if set then cstr 80 (inet_ntop6 a +:+ "/" +:+ str_Z (v6_prefix_len m)) else "")).

Definition fwd_to_form_json (r : pw_forward_rule) : json :=
  JObject
    [("name", JString (fr_name r)); ("ingress", jint (fr_ingress_port r)); ("egress", jint (fr_egress_port r));
     ("priority", jint (fr_priority r));
     opt16 "ethertype" (fr_ethertype r); opt16 "ip_proto" (fr_ip_proto r); opt16 "udp_dst" (fr_udp_dst r);
     opt16 "vlan" (fr_vlan r);
     form_prefix "ipv6_dst" (fr_ipv6_dst_set r) (fr_ipv6_dst r) (fr_ipv6_dst_mask r);
     form_prefix "ipv6_src" (fr_ipv6_src_set r) (fr_ipv6_src r) (fr_ipv6_src_mask r)].

Definition build_config_get_test (test_yaml : option string) (cfg : pw_config) : json :=
  JObject [("yaml", JString (default "" test_yaml)); ("loaded", JBool (bool_decide (is_Some test_yaml)));
           ("flows", JArray (flow_to_form_json <$> cfg_flows cfg));
           ("forwards", JArray (fwd_to_form_json <$> cfg_forwards cfg))].
End Forms.
