(* ===== verification/FormProps.v ===== *)
(** * The form view parses back

    Every value the form shows of a flow or a forward is one the configuration
    reader takes back to the field it came from. *)

From Stdlib Require Import Ascii.
From S2P Require Import Prelude Types Config Csr FlowRow Scalar Text Yaml ConfigParse ReaderProps Json Forms.

Local Open Scope string_scope.
Local Open Scope Z_scope.
Local Open Scope list_scope.

(** ** Hexadecimal numbers *)

Lemma digits_val_app base ds es : digits_val base (ds ++ es) = fold_left (fun a d => a * base + d) es (digits_val base ds).
Proof. unfold digits_val. by rewrite fold_left_app. Qed.

(** The digits written before [acc]. *)
Lemma hex_go_spec fuel : forall n z acc, 0 <= z < 16 ^ Z.of_nat fuel -> (n <= fuel)%nat ->
  exists ds, span_digits 16 (hex_go fuel n z acc) = (ds ++ (span_digits 16 acc).1, (span_digits 16 acc).2) /\
    digits_val 16 ds = z /\ (length ds <= fuel)%nat /\ ((0 < n)%nat -> ds <> []) /\
    String.length (hex_go fuel n z acc) = (length ds + String.length acc)%nat /\
    strip_underscores (hex_go fuel n z acc) = hex_go fuel n z (strip_underscores acc).
Proof.
  induction fuel as [|fuel IH]; intros n z acc Hz Hn.
  { exists []. simpl in *. split_and!; try done; [by destruct (span_digits 16 acc)| |lia].
    change (digits_val 16 []) with 0. change (16 ^ Z.of_nat 0) with 1 in Hz. lia. }
  cbn [hex_go]. destruct ((z =? 0) && (n =? 0)%nat) eqn:E.
  { exists []. apply andb_prop in E as [E1 E2]. apply Z.eqb_eq in E1. apply Nat.eqb_eq in E2. subst.
    split_and!; try done; try (intros; lia). by destruct (span_digits 16 acc). }
  destruct (hex_char_facts (z mod 16)) as [Hd Hu]; [by apply Z.mod_pos_bound|].
  destruct (IH (pred n) (z / 16) (String (hex_char (z mod 16)) acc)) as (ds & H1 & H2 & H3 & _ & H5 & H6).
  { rewrite Nat2Z.inj_succ, Z.pow_succ_r in Hz by lia. split; [apply Z.div_pos; lia|].
    apply Z.div_lt_upper_bound; lia. }
  { lia. }
  exists (ds ++ [z mod 16]). rewrite H1. cbn [span_digits]. rewrite Hd.
  destruct (span_digits 16 acc) as [da ra] eqn:Ea. cbn [fst snd].
  split_and!.
  - by rewrite <- app_assoc.
  - rewrite digits_val_app, H2. simpl. pose proof (Z.div_mod z 16). lia.
  - rewrite length_app. simpl. lia.
  - intros _ ?. by destruct ds.
  - rewrite H5, length_app. simpl. lia.
  - rewrite H6. cbn [strip_underscores]. by rewrite Hu.
Qed.

Lemma hex_parses n z : is_u64 z -> (0 < n <= 16)%nat -> pw_parse_u64 (hex0x n z) = Some z.
Proof.
  intros Hz Hn. destruct (hex_go_spec 16 n z "") as (ds & H1 & H2 & H3 & H4 & H5 & H6).
  { exact Hz. } { lia. }
  unfold pw_parse_u64, hex0x. change (strip_underscores ("0x" +:+ hex n z))
    with (String "0" (String "x" (strip_underscores (hex n z)))).
  unfold hex in *. rewrite H6. cbn [strip_underscores] in *. set (t := hex_go 16 n z "") in *.
  cbn [span_digits fst snd] in H1. rewrite app_nil_r in H1.
  assert (Hlen : (63 <? Z.of_nat (String.length (String "0" (String "x" t)))) = false).
  { cbn [String.length]. simpl in H5. apply Z.ltb_ge. lia. }
  rewrite Hlen. change (str_eq (String "0" (String "x" t)) "") with false. cbn [orb].
  change (skip_blank (String "0" (String "x" t))) with (String "0" (String "x" t)).
  change (is_signed (String "0" (String "x" t))) with false.
  change (base_of (String "0" (String "x" t))) with 16. cbn iota.
  destruct t as [|d t'] eqn:Et.
  { simpl in H1. injection H1 as <-. by specialize (H4 ltac:(lia)). }
  assert (Hd : is_Some (digit 16 d)).
  { cbn [span_digits] in H1. destruct (digit 16 d); [done|]. injection H1 as <- _.
    by specialize (H4 ltac:(lia)). }
  unfold strtoull. change (split_sign (skip_space (String "0" (String "x" (String d t')))))
    with (false, String "0" (String "x" (String d t'))).
  cbn [skip_0x]. change (is_x "x"%char) with true. rewrite bool_decide_eq_true_2 by done.
  change (16 =? 16) with true. cbn [andb]. rewrite H1. destruct ds as [|d0 ds]; [by specialize (H4 ltac:(lia))|].
  rewrite H2. unfold is_w in Hz. rewrite (proj2 (Z.ltb_lt _ _)) by lia. simpl.
  by rewrite u64_id.
Qed.

Lemma hex_parses_below w n z : 0 <= w <= 64 -> is_w w z -> (0 < n <= 16)%nat ->
  parse_below (2 ^ w - 1) (hex0x n z) = Some z.
Proof.
  intros Hw Hz Hn. unfold parse_below. rewrite hex_parses; [|eapply is_w_le; [|exact Hz]; lia|done].
  simpl. unfold is_w in Hz. by rewrite (proj2 (Z.ltb_ge _ _)) by lia.
Qed.

(** ** Prefix lengths *)

Lemma prefix_len_mask n : 0 <= n <= 128 -> v6_prefix_len (pw_v6_prefix_mask n) = n.
Proof.
  intros Hn. assert (forallb (fun n => v6_prefix_len (pw_v6_prefix_mask n) =? n) (seqZ 0 129) = true) as H
    by by vm_compute.
  rewrite forallb_forall in H. specialize (H n). rewrite <- list_elem_of_In, elem_of_seqZ in H.
  apply Z.eqb_eq, H. lia.
Qed.

(** ** Members *)

(** Member [k] is a text that [parse] takes to [v]. *)
Definition shows {A} (parse : string -> option A) (j : json) (k : string) (v : A) : Prop :=
  exists s, jget k j = Some (JString s) /\ parse s = Some v.

Definition shows_int (j : json) (k : string) (z : Z) : Prop := jget k j = Some (JInt z).

(** A modifier that varies its field shows the mode and the mask. *)
Definition shows_mod {A} (parse : string -> option A) (j : json) (k : string) (mode : pwfpga_field_mod) (mask : A) :
    Prop :=
  exists m, jget k j = Some m /\ shows (keyword mod_modes) m "mode" mode /\ shows parse m "mask" mask.

Lemma keyword_modestr m : keyword mod_modes (modestr (field_mod_code m)) = Some m.
Proof. by destruct m. Qed.

Section Forms.
Context `{InetNtop}.

Lemma u64_mod_shows k mode mask : mode <> PWFPGA_FIELD_STATIC -> mask <> 0 -> is_u64 mask ->
  exists m, add_mod_u64 k (field_mod_code mode) mask = (k, m) /\
    shows (keyword mod_modes) m "mode" mode /\ shows pw_parse_u64 m "mask" mask.
Proof.
  intros Hm Hz Hw. eexists. split; [reflexivity|]. split.
  - eexists. split; [reflexivity|apply keyword_modestr].
  - exists (hex0x 1 mask). split; [|apply hex_parses; [done|lia]]. unfold ztrue. simpl.
    rewrite (proj2 (Z.eqb_neq _ _) Hz). by destruct mode.
Qed.

Lemma v6_mod_shows k mode mask : mode <> PWFPGA_FIELD_STATIC -> v6_any mask = true -> wt_bytes 16 mask ->
  exists m, add_mod_v6 k (field_mod_code mode) mask true = (k, m) /\
    shows (keyword mod_modes) m "mode" mode /\
    shows (fun s => match parse_ipv6_mask "" (Some s) with Ok x => Some x | Err _ => None end) m "mask" mask.
Proof.
  intros Hm Hz Hw. eexists. split; [reflexivity|]. split.
  - eexists. split; [reflexivity|apply keyword_modestr].
  - exists (inet_ntop6 mask). split.
    + simpl. rewrite Hz. by destruct mode.
    + unfold parse_ipv6_mask. destruct (inet_ntop6_form mask) as (_ & Hc & _). rewrite Hc.
      unfold pw_parse_ipv6. by rewrite inet_ntop6_back.
Qed.

Lemma split_slash_back s t : split_slash s = (s, None) -> split_slash (s +:+ "/" +:+ t) = (s, Some t).
Proof.
  induction s as [|c s IH]; [done|]. simpl. destruct (ch c =? 47); [done|].
  destruct (split_slash s) as [a b] eqn:E. intros [= -> ->]. by rewrite IH.
Qed.

Lemma append_length s t : String.length (s +:+ t) = (String.length s + String.length t)%nat.
Proof. induction s as [|c s IH]; simpl; [done|]. by rewrite IH. Qed.

Lemma substring_all s : forall n, (String.length s <= n)%nat -> String.substring 0 n s = s.
Proof.
  induction s as [|c s IH]; intros [|n] Hn; simpl in *; try done; try lia. rewrite IH by lia. done.
Qed.

Lemma str_prefix n : 0 <= n <= 128 ->
  strtoul_prefix (str_Z n) = Some n /\ (String.length (str_Z n) <= 3)%nat.
Proof.
  intros Hn. assert (forallb (fun n => bool_decide (strtoul_prefix (str_Z n) = Some n) &&
    (String.length (str_Z n) <=? 3)%nat) (seqZ 0 129) = true) as Hf by by vm_compute.
  rewrite forallb_forall in Hf. specialize (Hf n). rewrite <- list_elem_of_In, elem_of_seqZ in Hf.
  specialize (Hf ltac:(lia)). apply andb_prop in Hf as [H1 H2].
  apply bool_decide_eq_true in H1. apply Nat.leb_le in H2. done.
Qed.

Lemma prefix_shows a n : wt_bytes 16 a -> 0 <= n <= 128 ->
  pw_parse_ipv6_cidr (cstr 80 (inet_ntop6 a +:+ "/" +:+ str_Z (v6_prefix_len (pw_v6_prefix_mask n)))) =
  Some (a, pw_v6_prefix_mask n).
Proof.
  intros Ha Hn. rewrite prefix_len_mask by done. destruct (str_prefix n Hn) as [H1 H2].
  destruct (inet_ntop6_form a) as (Hl & _ & Hs). unfold cstr.
  rewrite substring_all by (rewrite !append_length; simpl; lia).
  unfold pw_parse_ipv6_cidr. rewrite split_slash_back by done.
  rewrite (proj2 (Nat.eqb_neq _ _)), (proj2 (Nat.leb_gt _ _)) by lia. simpl. rewrite H1. simpl.
  unfold pw_parse_ipv6. by rewrite inet_ntop6_back.
Qed.
End Forms.

(** The modifiers shown with a numeric mask. *)
Definition numeric_mods (f : pw_flow) : list (string * pw_field_mod) :=
  let md := f_mod f in
  (if v6_present (f_ipv6 f) then [] else [("src_ipv4", mod_src_ipv4 md); ("dst_ipv4", mod_dst_ipv4 md)]) ++
  [("udp_src", mod_udp_src md); ("udp_dst", mod_udp_dst md); ("src_mac", mod_src_mac md);
   ("dst_mac", mod_dst_mac md); ("vlan", mod_vlan md)].

Definition parse_mask6 `{InetPton} (s : string) : option (list Z) :=
  match parse_ipv6_mask "" (Some s) with Ok x => Some x | Err _ => None end.

Section Members.
Context `{InetNtop}.

(** The members that do not depend on the address family or the rate. *)
Lemma form_members f : let j := flow_to_form_json f in
  jget "src_mac" j = Some (js_mac (l2_src_mac (f_l2 f))) /\ jget "dst_mac" j = Some (js_mac (l2_dst_mac (f_l2 f))) /\
  jget "ethertype" j = Some (JString (if ztrue (l2_ethertype (f_l2 f)) then hex0x 4 (l2_ethertype (f_l2 f)) else "")) /\
  jget "sport" j = Some (jint (udp_src_port (f_udp f))) /\ jget "dport" j = Some (jint (udp_dst_port (f_udp f))) /\
  jget "tcp_flags" j = Some (JString (if udp_l4_proto (f_udp f) =? 6 then hex0x 2 (udp_tcp_flags (f_udp f)) else "")) /\
  jget "match" j = Some (form_match f) /\ jget "mods" j = Some (form_mods f).
Proof.
  unfold flow_to_form_json, form_l3, form_rate.
  by destruct (v6_present (f_ipv6 f)), (ztrue (tr_rate_pps (f_traffic f))).
Qed.

Lemma form_addresses f : read_flow f -> let j := flow_to_form_json f in
  if v6_present (f_ipv6 f)
  then shows pw_parse_ipv6 j "ip_src" (v6_src (f_ipv6 f)) /\ shows pw_parse_ipv6 j "ip_dst" (v6_dst (f_ipv6 f))
  else shows pw_parse_ipv4 j "ip_src" (v4_src (f_ipv4 f)) /\ shows pw_parse_ipv4 j "ip_dst" (v4_dst (f_ipv4 f)).
Proof.
  intros Hf. pose proof (rf_wt _ Hf) as W.
  pose proof (wt_v4 _ W) as [S4 D4 _ _]. pose proof (wt_v6 _ W) as [S6 D6 _ _].
  unfold flow_to_form_json, form_l3. destruct (v6_present (f_ipv6 f)); split; eexists; (split; [reflexivity|]).
  - by apply inet_ntop6_back.
  - by apply inet_ntop6_back.
  - by apply inet_ntop4_back.
  - by apply inet_ntop4_back.
Qed.

Lemma form_rate_shown f : read_flow f -> let j := flow_to_form_json f in
  tr_rate_pps (f_traffic f) < 2 ^ 63 -> tr_rate_bps (f_traffic f) < 2 ^ 63 ->
  if tr_rate_pps (f_traffic f) =? 0
  then jget "rate_mode" j = Some (JString "bps") /\ shows_int j "rate" (tr_rate_bps (f_traffic f))
  else jget "rate_mode" j = Some (JString "pps") /\ shows_int j "rate" (tr_rate_pps (f_traffic f)).
Proof.
  intros Hf. pose proof (wt_tr _ (rf_wt _ Hf)) as [_ _ _ _ Bps Pps _ _ _]. unfold is_w in Bps, Pps.
  cbv zeta. intros Hp Hb. pose proof (i64_id (tr_rate_bps (f_traffic f)) ltac:(lia)) as Eb.
  pose proof (i64_id (tr_rate_pps (f_traffic f)) ltac:(lia)) as Ep.
  unfold shows_int, flow_to_form_json, form_l3, form_rate, ztrue, jint64. rewrite Eb, Ep.
  by destruct (v6_present (f_ipv6 f)), (tr_rate_pps (f_traffic f) =? 0).
Qed.

Lemma form_match_shown f : read_flow f ->
  (f_match_udp_dst_mask f <> 0xFFFF -> shows pw_parse_u16 (form_match f) "udp_dst" (f_match_udp_dst_mask f)) /\
  (f_match_ipv4_dst_mask f <> 0xFFFFFFFF -> shows pw_parse_u32 (form_match f) "ipv4_dst" (f_match_ipv4_dst_mask f)) /\
  forall n, 0 <= n <= 128 ->
    (f_match_ipv6_dst_set f = true -> f_match_ipv6_dst_mask f = pw_v6_prefix_mask n ->
      shows_int (form_match f) "ipv6_dst_prefix" n) /\
    (f_match_ipv6_src_set f = true -> f_match_ipv6_src_mask f = pw_v6_prefix_mask n ->
      shows_int (form_match f) "ipv6_src_prefix" n).
Proof.
  intros Hf. pose proof (rf_match _ Hf) as (M1 & M2 & _). unfold form_match, shows_int. split_and!.
  - intros Hne%Z.eqb_neq. rewrite Hne. eexists. split; [reflexivity|]. apply (hex_parses_below 16); [lia|done|lia].
  - intros Hne%Z.eqb_neq. rewrite Hne. eexists. split; [reflexivity|]. apply (hex_parses_below 32); [lia|done|lia].
  - intros n Hn. split; intros -> ->; rewrite prefix_len_mask by done; unfold jint; by rewrite (i32_id n) by lia.
Qed.

Lemma forward_shown r n : read_forward r -> 0 <= n <= 128 ->
  (fr_ipv6_dst_set r = true -> fr_ipv6_dst_mask r = pw_v6_prefix_mask n ->
    shows pw_parse_ipv6_cidr (fwd_to_form_json r) "ipv6_dst" (fr_ipv6_dst r, fr_ipv6_dst_mask r)) /\
  (fr_ipv6_src_set r = true -> fr_ipv6_src_mask r = pw_v6_prefix_mask n ->
    shows pw_parse_ipv6_cidr (fwd_to_form_json r) "ipv6_src" (fr_ipv6_src r, fr_ipv6_src_mask r)).
Proof.
  intros Hr Hn. pose proof (rr_dst _ Hr) as [D _]. pose proof (rr_src _ Hr) as [S _].
  split; intros Hset Hm; unfold fwd_to_form_json; rewrite Hset, Hm; eexists;
    (split; [reflexivity|by apply prefix_shows]).
Qed.

Lemma form_mods_show f : read_flow f -> exists md, jget "mods" (flow_to_form_json f) = Some md /\
  (forall k m, (k, m) ∈ numeric_mods f -> fm_mode m <> PWFPGA_FIELD_STATIC -> fm_mask m <> 0 ->
    shows_mod pw_parse_u64 md k (fm_mode m) (fm_mask m)) /\
  (v6_present (f_ipv6 f) = true ->
    (fm_mode (mod_src_ipv4 (f_mod f)) <> PWFPGA_FIELD_STATIC -> v6_any (mod_src_ipv6_mask (f_mod f)) = true ->
      shows_mod parse_mask6 md "src_ipv6" (fm_mode (mod_src_ipv4 (f_mod f))) (mod_src_ipv6_mask (f_mod f))) /\
    (fm_mode (mod_dst_ipv4 (f_mod f)) <> PWFPGA_FIELD_STATIC -> v6_any (mod_dst_ipv6_mask (f_mod f)) = true ->
      shows_mod parse_mask6 md "dst_ipv6" (fm_mode (mod_dst_ipv4 (f_mod f))) (mod_dst_ipv6_mask (f_mod f)))).
Proof.
  intros Hf. pose proof (rf_mods _ Hf) as [Hmasks Hs6 Hd6]. exists (form_mods f). split.
  { unfold flow_to_form_json, form_l3, form_rate. by destruct (v6_present _), (ztrue (tr_rate_pps _)). }
  split.
  - intros k m Hin Hmode Hmask.
    assert (Hw : is_u64 (fm_mask m)).
    { eapply (is_w_le 48); [lia|]. rewrite Forall_forall in Hmasks. apply Hmasks.
      unfold numeric_mods in Hin. destruct (v6_present _); set_solver. }
    destruct (u64_mod_shows k _ _ Hmode Hmask Hw) as (jm & E & H1 & H2). exists jm. split; [|done].
    unfold numeric_mods in Hin. unfold jget, form_mods, mode_of.
    destruct (v6_present _); rewrite ?elem_of_app, ?elem_of_cons, ?elem_of_nil in Hin;
      repeat match goal with Hin : _ \/ _ |- _ => destruct Hin as [Hin|Hin] end;
      try done; injection Hin as -> ->; rewrite E; reflexivity.
  - intros H6. unfold form_mods, mode_of. rewrite H6. split; intros Hm Ha.
    + destruct (v6_mod_shows "src_ipv6" _ _ Hm Ha Hs6) as (jm & E & H1 & H2). exists jm. split; [|done].
      unfold jget. rewrite E. reflexivity.
    + destruct (v6_mod_shows "dst_ipv6" _ _ Hm Ha Hd6) as (jm & E & H1 & H2). exists jm. split; [|done].
      unfold jget. rewrite E. reflexivity.
Qed.
End Members.


(** ** A pair of conversions *)

Module ToyInet.
(** Eight groups of four hexadecimal digits. *)
Fixpoint groups (l : list Z) : string :=
  match l with
  | [a; b] => mac_octet a +:+ mac_octet b
  | a :: b :: l => mac_octet a +:+ mac_octet b +:+ ":" +:+ groups l
  | _ => ""
  end.

Fixpoint bytes (s : string) : option (list Z) :=
  match s with
  | EmptyString => Some []
  | String c s1 =>
      if ch c =? 58 then bytes s1 else
      match s1 with
      | EmptyString => None
      | String d s2 =>
          match digit 16 c, digit 16 d, bytes s2 with
          | Some x, Some y, Some l => Some (x * 16 + y :: l)
          | _, _, _ => None
          end
      end
  end.

Definition byte_b (b : Z) : bool := (0 <=? b) && (b <? 256).
Definition wt_b (a : list Z) : bool := (length a =? 16)%nat && forallb byte_b a.
Lemma wt_b_spec a : wt_b a = true <-> wt_bytes 16 a.
Proof.
  unfold wt_b, wt_bytes. rewrite andb_true_iff, Nat.eqb_eq, forallb_forall, Forall_forall.
  setoid_rewrite list_elem_of_In. unfold byte_b, is_w. change (2 ^ 8) with 256.
  split; intros [Hl H]; (split; [done|]); intros x Hx; specialize (H x Hx); lia.
Qed.

Lemma octet_facts b : is_u8 b -> exists c d, mac_octet b = String c (String d "") /\
  digit 16 c = Some (b / 16) /\ digit 16 d = Some (b mod 16) /\
  (ch c =? 58) = false /\ (ch c =? 47) = false /\ (ch d =? 58) = false /\ (ch d =? 47) = false.
Proof.
  intros Hb. eexists _, _. split; [reflexivity|].
  assert (forallb (fun d => bool_decide (digit 16 (hex_char d) = Some d) && negb (ch (hex_char d) =? 58) &&
    negb (ch (hex_char d) =? 47)) (seqZ 0 16) = true) as Hall by by vm_compute.
  rewrite forallb_forall in Hall.
  assert (Hd : forall d, 0 <= d < 16 -> digit 16 (hex_char d) = Some d /\ (ch (hex_char d) =? 58) = false /\
    (ch (hex_char d) =? 47) = false).
  { intros d Hd. specialize (Hall d). rewrite <- list_elem_of_In, elem_of_seqZ in Hall.
    specialize (Hall ltac:(lia)). apply andb_prop in Hall as [Hall H3]. apply andb_prop in Hall as [H1 H2].
    apply bool_decide_eq_true in H1. apply negb_true_iff in H2, H3. done. }
  unfold is_w in Hb. change (2 ^ 8) with 256 in Hb.
  destruct (Hd (b / 16)) as (? & ? & ?).
  { split; [apply Z.div_pos; lia|apply Z.div_lt_upper_bound; lia]. }
  destruct (Hd (b mod 16)) as (? & ? & ?); [apply Z.mod_pos_bound; lia|]. done.
Qed.

Lemma bytes_octet b s : is_u8 b -> bytes (mac_octet b +:+ s) = cons b <$> bytes s.
Proof.
  intros Hb. destruct (octet_facts b Hb) as (c & d & -> & H1 & H2 & H3 & _). simpl. rewrite H3, H1, H2.
  change ("" +:+ s) with s. destruct (bytes s) as [l|]; [|done]. simpl. do 2 f_equal.
  pose proof (Z.div_mod b 16). lia.
Qed.

Lemma no_slash c s : (ch c =? 47) = false -> split_slash s = (s, None) ->
  split_slash (String c s) = (String c s, None).
Proof. intros Hc Hs. cbn [split_slash]. by rewrite Hc, Hs. Qed.

Lemma colon_later c s : has_colon s = true -> has_colon (String c s) = true.
Proof. intros Hs. cbn [has_colon]. rewrite Hs. apply orb_true_r. Qed.

Lemma bytes_groups n : forall l, (length l = 2 * S n)%nat -> Forall is_u8 l ->
  bytes (groups l) = Some l /\ String.length (groups l) = (4 + 5 * n)%nat /\
  split_slash (groups l) = (groups l, None) /\ ((0 < n)%nat -> has_colon (groups l) = true).
Proof.
  induction n as [|n IH]; intros [|a [|b l]] Hl Hb; try (simpl in Hl; lia);
    apply Forall_cons in Hb as [Ha Hb]; apply Forall_cons in Hb as [Hbb Hb];
    pose proof (octet_facts a Ha) as (c1 & d1 & E1 & _ & _ & _ & N1 & _ & N2);
    pose proof (octet_facts b Hbb) as (c2 & d2 & E2 & _ & _ & _ & N3 & _ & N4).
  - destruct l; [|simpl in Hl; lia]. cbn [groups]. split_and!.
    + rewrite bytes_octet by done. pose proof (bytes_octet b "" Hbb) as Hx. rewrite E2 in *. simpl in *. by rewrite Hx.
    + by rewrite E1, E2.
    + rewrite E1, E2. by repeat apply no_slash.
    + lia.
  - destruct (IH l) as (H1 & H2 & H3 & _); [simpl in Hl; lia|done|].
    assert (Hg : groups (a :: b :: l) = mac_octet a +:+ mac_octet b +:+ String ":" (groups l)).
    { destruct l; [simpl in Hl; lia|reflexivity]. }
    rewrite Hg. split_and!.
    + rewrite !bytes_octet by done. change (bytes (String ":" (groups l))) with (bytes (groups l)). by rewrite H1.
    + rewrite E1, E2. simpl. rewrite H2. lia.
    + rewrite E1, E2. by repeat apply no_slash.
    + intros _. rewrite E1, E2. do 4 apply colon_later. reflexivity.
Qed.

#[local, refine] Instance toy_pton : InetPton := {|
  inet_pton4 := pw_parse_u32;
  inet_pton6 s := l ← bytes s; if wt_b l then Some l else None |}.
Proof.
  - exact parse_u32_w.
  - intros s a Ha. apply bind_Some in Ha as (l & _ & Ha). destruct (wt_b l) eqn:E; [|done].
    injection Ha as <-. by apply wt_b_spec.
Defined.

#[local, refine] Instance toy_ntop : InetNtop := {|
  inet_ntop4 := hex0x 1;
  inet_ntop6 a := groups (if wt_b a then a else replicate 16 0) |}.
Proof.
  - intros a Ha. apply (hex_parses_below 32); [lia|done|lia].
  - intros a Ha. pose proof Ha as [Hl Hb]. apply wt_b_spec in Ha. rewrite Ha. cbn [inet_pton6 toy_pton].
    destruct (bytes_groups 7 a) as (E & _); [lia|done|]. rewrite E. cbn [mbind option_bind]. by rewrite Ha.
  - intros a. set (b := if wt_b a then a else replicate 16 0).
    assert (Hb : wt_bytes 16 b).
    { subst b. destruct (wt_b a) eqn:E; [by apply wt_b_spec|]. by apply wt_b_spec. }
    destruct Hb as [Hl Hb]. destruct (bytes_groups 7 b) as (_ & El & Es & Ec); [lia|done|].
    split_and!; [rewrite El; lia|rewrite El; lia|apply Ec; lia|done].
Defined.
End ToyInet.

Definition s_forward_tree : pw_yaml_node := y_map
  [("name", y_sc "f"); ("ingress_port", y_sc "0"); ("egress_port", y_sc "1");
   ("ipv6_dst", y_sc "2001:db8::1/32")].
Definition s_form_flow : option pw_flow :=
  match @parse_flow s_inet 0 (s_flow_tree "64") with Ok f => Some f | Err _ => None end.
Definition s_form_rule : option pw_forward_rule :=
  match @parse_forward s_inet 0 s_forward_tree with Ok r => Some r | Err _ => None end.

Definition toy_form (f : pw_flow) : json := @flow_to_form_json ToyInet.toy_pton ToyInet.toy_ntop f.
Definition toy_fwd (r : pw_forward_rule) : json := @fwd_to_form_json ToyInet.toy_pton ToyInet.toy_ntop r.

