(* ===== verification/Secrets.v ===== *)
(** * Access control and the environment file

    Models the part of [sw/packetwyrmd/src/main.c] that handles [system.secret]:
    the check of a request's secret ([handle_client]), the redacted view of the
    environment file ([build_config_get_raw]), the restoration of the secret
    ([yaml_rewrite_secret]) and [config.save] ([do_config_save]). A text is a list
    of characters. The file system is reduced to the environment file and the
    temporary file next to it; what each system call answers is a parameter. The
    second path-length check of [do_config_save] is left out: [dirname] is no longer
    than its argument, so it never fails after the first. *)

From Stdlib Require Import Ascii.
From Stdlib Require String.
From S2P Require Import Prelude Types Config Validate Scalar Text Yaml ConfigParse Daemon.

Local Open Scope string_scope.
Local Open Scope Z_scope.
Local Open Scope list_scope.

(** ** The request's secret *)

(** The string the request carries: none (the empty string is compared), JSON null
    ([Some None]) or a string. The comparison runs over the length of the wanted
    secret; only whether the accumulated difference is zero matters, so characters
    are compared by their codes. [None]: the C code dereferences a null pointer. *)
Definition char_xor (a b : ascii) : Z := Z.lxor (Z.of_nat (nat_of_ascii a)) (Z.of_nat (nat_of_ascii b)).
Fixpoint diff_loop (want got : text) (diff : Z) : Z :=
  match want with
  | [] => diff
  | w :: want => diff_loop want (tail got) (diff ||| char_xor w (hd NUL got))
  end.
Definition authed (secret : text) (got : option (option text)) : option bool :=
  match secret with
  | [] => Some true
  | _ =>
      match got with
      | Some None => None
      | _ =>
          let got_s := match got with Some (Some s) => s | _ => [] end in
          let diff := u32 (Z.lxor (Z.of_nat (length secret)) (Z.of_nat (length got_s))) in
          Some (diff_loop secret got_s diff =? 0)
      end
  end.

(** ** The secret's line *)

Definition secret_line_indent (line : text) : option nat :=
  let p := skip_ws line in
  if bool_decide (take 6 p = chars "secret") then
    match skip_ws (drop 6 p) with
    | c :: _ => if bool_decide (c = ":"%char) then Some (length line - length p)%nat else None
    | [] => None
    end
  else None.

Definition PW_SECRET_REDACTED : string := "***".

Definition secret_line (indent : nat) (value : text) (eol : text) : text :=
  replicate indent SP ++ chars "secret: " ++ [DQ] ++ value ++ [DQ] ++ eol.

(** ** The redacted view *)

Definition redact_line (line : text) : text :=
  let line := cstring line in
  match secret_line_indent line with
  | Some indent => secret_line (if (indent <? 32)%nat then indent else 32) (chars PW_SECRET_REDACTED) [NL]
  | None => line
  end.

Definition get_raw_yaml (file : text) : text := concat (redact_line <$> chunks (length file) 1023 file).

Record raw_reply := { rr_yaml : text; rr_secret_set : bool; rr_error : option string }.

Definition build_config_get_raw (file : option text) (cfg : pw_config) : raw_reply :=
  match file with
  | None => {| rr_yaml := []; rr_secret_set := false; rr_error := Some "cannot open env config" |}
  | Some f => {| rr_yaml := get_raw_yaml f; rr_secret_set := negb (str_eq (sys_secret (cfg_system cfg)) "");
                 rr_error := None |}
  end.

(** ** Restoring the secret *)

(** Into [esc[PW_SECRET_MAX * 2 + 1]], [e] bytes used. *)
Fixpoint escape (e : nat) (sec : text) : text :=
  match sec with
  | [] => []
  | c :: sec =>
      if (e + 2 <? PW_SECRET_MAX * 2 + 1)%nat then
        if bool_decide (c = BSL) || bool_decide (c = DQ) then BSL :: c :: escape (e + 2) sec
        else c :: escape (e + 1) sec
      else []
  end.

(** A line up to and with its newline. *)
Fixpoint split_line (t : text) : text * text :=
  match t with
  | [] => ([], [])
  | c :: t => if bool_decide (c = NL) then ([c], t) else let '(l, r) := split_line t in (c :: l, r)
  end.
Fixpoint lines_of (fuel : nat) (t : text) : list text :=
  match fuel, t with
  | S fuel, _ :: _ => let '(l, r) := split_line t in l :: lines_of fuel r
  | _, _ => []
  end.

Definition ends_nl (line : text) : bool := bool_decide (last line = Some NL).

Definition rewrite_line (esc line : text) : text :=
  if (length line <? 1024)%nat then
    match secret_line_indent line with
    | Some indent =>
        secret_line (if (indent <? 64)%nat then indent else 64) esc (if ends_nl line then [NL] else [])
    | None => line
    end
  else line.

Definition yaml_rewrite_secret (yaml sec : text) : text :=
  concat (rewrite_line (escape 0 sec) <$> lines_of (length yaml) yaml).

(** ** Saving the environment file *)

Record file := { f_text : text; f_mode : Z; f_owner : Z * Z }.

(** The environment file and the temporary file next to it. *)
Record disk := { dk_env : option file; dk_tmp : option file }.

(** What the system calls answer; [sv_writes] are the results of the successive
    writes, [sv_self] the daemon's own user and group. *)
Record save_env := {
  sv_path : string; sv_self : Z * Z;
  sv_mkstemp : bool; sv_fchmod : bool; sv_fchown : bool; sv_writes : list Z; sv_fsync : bool; sv_rename : bool
}.

(** The bytes written, and whether all were; no answer left counts as an error. *)
Fixpoint write_loop (answers : list Z) (out : text) : text * bool :=
  match out, answers with
  | [], _ => ([], true)
  | _, [] => ([], false)
  | _, w :: answers =>
      if w <=? 0 then ([], false) else
      let n := Z.to_nat (Z.min w (Z.of_nat (length out))) in
      let '(done, ok) := write_loop answers (drop n out) in (take n out ++ done, ok)
  end.

Record save_reply := { sr_restart_required : bool; sr_topology_change : bool }.

Section Save.
Context (libyaml : string -> yaml_parser) `{InetPton}.

Definition parse_env (yaml : text) : M pw_config :=
  pw_config_parse_string_ex (libyaml (String.string_of_list_ascii yaml)) 0 pw_config_new.

(** The text to write: the submitted one, or with the secret restored when it
    carries the placeholder. *)
Definition save_text (cfg newc : pw_config) (yaml : text) : result string text :=
  if str_eq (sys_secret (cfg_system newc)) PW_SECRET_REDACTED then
    let rewritten := yaml_rewrite_secret yaml (chars (sys_secret (cfg_system cfg))) in
    match parse_env rewritten with
    | Ok chk =>
        if str_eq (sys_secret (cfg_system chk)) PW_SECRET_REDACTED then Err "refusing to save the redacted secret placeholder"
        else Ok rewritten
    | Err _ => Err "refusing to save the redacted secret placeholder"
    end
  else Ok yaml.

(** Write a temporary file and rename it over the environment file. *)
Definition replace_env (e : save_env) (out : text) (d : disk) : disk * result string unit :=
  if (1024 <=? Z.of_nat (String.length (sv_path e))) then (d, Err "env path too long") else
  let mode := match dk_env d with Some f => f_mode f &&& 0xFFF | None => 0x180 end in
  if negb (sv_mkstemp e) then (d, Err "cannot create temp env config") else
  let gone := {| dk_env := dk_env d; dk_tmp := None |} in
  if negb (sv_fchmod e) then (gone, Err "cannot set env config mode") else
  let owner := match dk_env d with Some f => if sv_fchown e then f_owner f else sv_self e | None => sv_self e end in
  let '(content, wok) := write_loop (sv_writes e) out in
  if negb (wok && sv_fsync e) || negb (sv_rename e) then (gone, Err "write failed") else
  ({| dk_env := Some {| f_text := content; f_mode := mode; f_owner := owner |}; dk_tmp := None |}, Ok tt).

Definition do_config_save (e : save_env) (loaded : option text) (cfg : pw_config) (yaml : option text)
    (d : disk) : disk * result string save_reply :=
  match yaml with
  | None => (d, Err "missing yaml")
  | Some yaml =>
      let yaml := cstring yaml in
      match parse_env yaml with
      | Err er => (d, Err (stage_msg "parse" er))
      | Ok newc =>
          match pw_config_validate newc with
          | Err er => (d, Err (stage_msg "validate" er))
          | Ok _ =>
              let topology_change := negb (same_topology cfg newc) in
              match save_text cfg newc yaml with
              | Err msg => (d, Err msg)
              | Ok out =>
                  let restart := negb (bool_decide (loaded = Some out)) in
                  let '(d, r) := replace_env e out d in
                  (d, match r with
                      | Err msg => Err msg
                      | Ok _ => Ok {| sr_restart_required := restart; sr_topology_change := topology_change |}
                      end)
              end
          end
      end
  end.
End Save.
