(* ===== verification/SecretsProps.v ===== *)
(** * The secret is checked, hidden and kept

    The request check accepts exactly the configured secret; [config.save] replaces
    the environment file whole or leaves it alone; and saving the redacted view
    that [config.get_raw] returned restores the file it was taken from. *)

From Stdlib Require Import Ascii.
From Stdlib Require String.
From S2P Require Import Prelude Types Config Validate FlowCompiler Scalar Text Yaml ConfigParse ReaderProps Daemon DaemonSamples Secrets.

Local Open Scope string_scope.
Local Open Scope Z_scope.
Local Open Scope list_scope.

(** ** The request check *)

Lemma char_xor_zero a b : char_xor a b = 0 <-> a = b.
Proof.
  unfold char_xor. rewrite Z.lxor_eq_0_iff, Nat2Z.inj_iff. split; [|by intros ->].
  intros E%(f_equal ascii_of_nat). by rewrite !ascii_nat_embedding in E.
Qed.

Lemma diff_loop_zero want : forall got d, length got = length want ->
  diff_loop want got d = 0 <-> d = 0 /\ got = want.
Proof.
  induction want as [|w want IH]; intros got d Hl; simpl.
  - apply nil_length_inv in Hl as ->. tauto.
  - destruct got as [|g got]; [done|]. simpl in Hl |- *. injection Hl as Hl.
    rewrite IH, Z.lor_eq_0_iff, char_xor_zero by done. naive_solver.
Qed.

Lemma diff_loop_mono want : forall got d, diff_loop want got d = 0 -> d = 0.
Proof.
  induction want as [|w want IH]; intros got d; simpl; [done|].
  intros H%IH. by apply Z.lor_eq_0_iff in H as [? _].
Qed.

(** With no secret configured every request passes; otherwise a request passes
    exactly when it carries the configured secret, however long the one it carries
    (within a 32-bit length) and whatever prefix it shares; and the check crashes the
    daemon exactly on a request whose secret is JSON null. *)
Lemma auth_exact (secret : text) (got : option (option text)) :
  Z.of_nat (length secret) < 2 ^ 32 -> (forall s, got = Some (Some s) -> Z.of_nat (length s) < 2 ^ 32) ->
  (authed secret got = None <-> secret <> [] /\ got = Some None) /\
  (authed secret got = Some true <-> secret = [] \/ got = Some (Some secret)).
Proof.
  intros Hs Hg. destruct secret as [|c secret]; [simpl; split; naive_solver|].
  cbn [authed]. set (sec := c :: secret) in *.
  assert (Hcmp : forall s, Z.of_nat (length s) < 2 ^ 32 ->
    (diff_loop sec s (u32 (Z.lxor (Z.of_nat (length sec)) (Z.of_nat (length s)))) =? 0) = true <-> s = sec).
  { intros s Hl. rewrite Z.eqb_eq. split.
    - intros H. assert (length s = length sec) as Hlen.
      { pose proof (diff_loop_mono _ _ _ H) as E. rewrite u32_id in E.
        - apply Z.lxor_eq_0_iff, Nat2Z.inj in E. done.
        - apply is_w_lxor; unfold is_w; lia. }
      by apply (diff_loop_zero sec s) in H as [_ ?].
    - intros ->. by rewrite Z.lxor_nilpotent; apply diff_loop_zero. }
  destruct got as [[s|]|].
  - specialize (Hcmp s (Hg s eq_refl)). split; [naive_solver|]. split.
    + intros [= H]. apply Hcmp in H as ->. by right.
    + intros [?|[= ->]]; [done|]. f_equal. by apply Hcmp.
  - split; naive_solver.
  - specialize (Hcmp [] ltac:(simpl; lia)). split; [naive_solver|]. split; [|naive_solver].
    intros [= H]. by apply Hcmp in H.
Qed.

Lemma auth_exact_witness :
  authed (chars "s3cret") (Some (Some (chars "s3cre"))) <> Some true /\
  authed (chars "s3cret") (Some None) = None /\ authed (chars "s3cret") (Some (Some (chars "s3cret"))) = Some true.
Proof.
  split; [vm_compute; discriminate|]. split.
  - apply (auth_exact (chars "s3cret") (Some None)); [vm_compute; reflexivity|done|done].
  - apply (auth_exact (chars "s3cret") (Some (Some (chars "s3cret")))); [vm_compute; reflexivity| |by right].
    intros s [= <-]. vm_compute. reflexivity.
Defined.

(** ** Replacing the file *)

Lemma write_loop_all answers : forall out c, write_loop answers out = (c, true) -> c = out.
Proof.
  induction answers as [|w answers IH]; intros [|x out] c; cbn [write_loop]; try (by intros [= <-]); try done.
  destruct (w <=? 0); [done|]. destruct (write_loop answers _) as [done ok] eqn:E. intros [= <- ->].
  apply IH in E as ->. apply take_drop.
Qed.

(** The environment file after a replacement: untouched, or whole and with the
    mode it had. *)
Lemma replace_env_cases e out d d' r : dk_tmp d = None -> replace_env e out d = (d', r) ->
  dk_tmp d' = None /\
  match r with
  | Err _ => dk_env d' = dk_env d
  | Ok _ => exists f, dk_env d' = Some f /\ f_text f = out /\
      f_mode f = match dk_env d with Some old => f_mode old &&& 0xFFF | None => 0x180 end
  end.
Proof.
  intros Ht. unfold replace_env. destruct (1024 <=? _); [intros [= <- <-]; done|].
  destruct (negb (sv_mkstemp e)); [intros [= <- <-]; done|].
  destruct (negb (sv_fchmod e)); [intros [= <- <-]; done|].
  destruct (write_loop (sv_writes e) out) as [content wok] eqn:E.
  destruct (negb (wok && sv_fsync e) || negb (sv_rename e)) eqn:Hf; [intros [= <- <-]; done|].
  intros [= <- <-]. split; [done|]. eexists. split; [done|]. split; [|done]. simpl.
  destruct wok; [|done]. by apply write_loop_all in E.
Qed.

Section Save.
Context (libyaml : string -> yaml_parser) `{InetPton}.

End Save.

(** ** Lines *)

(** A closed decidable goal. *)
Ltac by_dec := apply (bool_decide_unpack _); vm_compute; exact I.

(** A line of a text file that fits the line buffers. *)
Definition line_ok (l : text) : Prop :=
  exists body, l = body ++ [NL] /\ (NL ∉ body) /\ (NUL ∉ body) /\ (length body <= 1022)%nat.

Lemma fgets_line n body rest : NL ∉ body -> (length body < n)%nat ->
  fgets n (body ++ NL :: rest) = (body ++ [NL], rest).
Proof.
  revert n. induction body as [|c body IH]; intros [|n] Hn Hl; simpl in *; try lia; [done|].
  apply not_elem_of_cons in Hn as [Hc Hn]. rewrite bool_decide_eq_false_2 by done.
  by rewrite IH by (done || lia).
Qed.

Lemma split_line_line body rest : NL ∉ body -> split_line (body ++ NL :: rest) = (body ++ [NL], rest).
Proof.
  induction body as [|c body IH]; intros Hn; simpl; [done|].
  apply not_elem_of_cons in Hn as [Hc Hn]. rewrite bool_decide_eq_false_2 by done. by rewrite IH.
Qed.

Lemma chunks_lines ls : Forall line_ok ls -> forall fuel, (length (concat ls) <= fuel)%nat ->
  chunks fuel 1023 (concat ls) = ls /\ lines_of fuel (concat ls) = ls.
Proof.
  induction 1 as [|l ls (body & -> & Hn & _ & Hl) Hls IH]; intros fuel Hf; [by destruct fuel|].
  cbn [concat] in *. rewrite <- app_assoc in *. cbn [app] in *.
  rewrite length_app in Hf. cbn [length] in Hf. destruct fuel as [|fuel]; [lia|].
  destruct (IH fuel ltac:(lia)) as [IH1 IH2].
  pose proof (fgets_line 1023 body (concat ls) Hn ltac:(lia)) as E1.
  pose proof (split_line_line body (concat ls) Hn) as E2.
  cbn [chunks lines_of]. destruct (body ++ NL :: concat ls) as [|c t] eqn:E; [by destruct body|].
  rewrite E1, E2. split; f_equal; [exact IH1|exact IH2].
Qed.

Lemma cstring_id t : NUL ∉ t -> cstring t = t.
Proof.
  induction t as [|c t IH]; intros Hn; simpl; [done|]. apply not_elem_of_cons in Hn as [Hc Hn].
  by rewrite bool_decide_eq_false_2, IH.
Qed.

Lemma cstring_line l : line_ok l -> cstring l = l.
Proof.
  intros (body & -> & _ & Hn & _). apply cstring_id. rewrite elem_of_app, list_elem_of_singleton.
  intros [?|?]; done.
Qed.

Lemma skip_ws_spaces n t : skip_ws (replicate n SP ++ t) = skip_ws t.
Proof. induction n as [|n IH]; [done|]. exact IH. Qed.

(** The line the code writes is recognised, with its own indentation. *)
Lemma secret_line_recognised n value eol : secret_line_indent (secret_line n value eol) = Some n.
Proof.
  unfold secret_line_indent, secret_line. rewrite skip_ws_spaces.
  cbn -[length replicate]. rewrite bool_decide_eq_true_2 by done. f_equal.
  rewrite length_app, length_replicate. simpl. lia.
Qed.

Lemma secret_line_ok n value : (n <= 64)%nat -> (length value <= 256)%nat -> NL ∉ value -> NUL ∉ value ->
  line_ok (secret_line n value [NL]).
Proof.
  intros Hn Hl Hnl Hnul. exists (replicate n SP ++ chars "secret: " ++ [DQ] ++ value ++ [DQ]). split_and!.
  - unfold secret_line. by rewrite <- !app_assoc.
  - rewrite !elem_of_app, !list_elem_of_singleton, elem_of_replicate.
    assert (NL ∉ chars "secret: ") by by_dec. intros [[? _]|[Hc|[?|[?|?]]]]; done.
  - rewrite !elem_of_app, !list_elem_of_singleton, elem_of_replicate.
    assert (NUL ∉ chars "secret: ") by by_dec. intros [[? _]|[Hc|[?|[?|?]]]]; done.
  - rewrite !length_app, length_replicate. simpl. lia.
Qed.

(** ** Saving the view restores the file *)

(** A secret line as the code itself writes it. *)
Definition canonical (sec l : text) : Prop :=
  forall n, secret_line_indent l = Some n -> (n <= 32)%nat /\ l = secret_line n (escape 0 sec) [NL].

Lemma redact_ok l : line_ok l -> line_ok (redact_line l).
Proof.
  intros Hl. unfold redact_line. rewrite cstring_line by done.
  destruct (secret_line_indent l) as [n|]; [|done].
  apply secret_line_ok; [destruct (Nat.ltb_spec n 32); lia|vm_compute; lia|by_dec..].
Qed.

Lemma rewrite_redacted sec l : line_ok l -> canonical sec l ->
  rewrite_line (escape 0 sec) (redact_line l) = l.
Proof.
  intros Hl Hc. pose proof (redact_ok l Hl) as (body & Eb & _ & _ & Hlen).
  unfold rewrite_line. rewrite Eb, length_app. cbn [length].
  rewrite (proj2 (Nat.ltb_lt _ _)) by lia. rewrite <- Eb. revert Eb.
  unfold redact_line. rewrite (cstring_line l) by done. intros Eb.
  destruct (secret_line_indent l) as [n|] eqn:Hs.
  - destruct (Hc n Hs) as [Hn ->]. rewrite secret_line_recognised, Eb.
    assert (ends_nl (body ++ [NL]) = true) as -> by (apply bool_decide_eq_true, last_snoc).
    assert ((if (n <? 32)%nat then n else 32%nat) = n) as -> by (destruct (Nat.ltb_spec n 32); lia).
    by rewrite (proj2 (Nat.ltb_lt n 64)) by lia.
  - by rewrite Hs.
Qed.

Lemma view_lines ls : Forall line_ok ls -> get_raw_yaml (concat ls) = concat (redact_line <$> ls).
Proof. intros Hl. unfold get_raw_yaml. by destruct (chunks_lines ls Hl _ (Nat.le_refl _)) as [-> _]. Qed.

Lemma rewrite_view sec ls : Forall line_ok ls -> Forall (canonical sec) ls ->
  yaml_rewrite_secret (get_raw_yaml (concat ls)) sec = concat ls.
Proof.
  intros Hl Hc. rewrite view_lines by done. unfold yaml_rewrite_secret.
  assert (Hr : Forall line_ok (redact_line <$> ls)).
  { apply Forall_fmap. eapply Forall_impl; [exact Hl|]. intros l ?. by apply redact_ok. }
  destruct (chunks_lines _ Hr _ (Nat.le_refl _)) as [_ ->]. f_equal.
  rewrite <- list_fmap_compose. rewrite <- (list_fmap_id ls) at 2. apply list_fmap_ext.
  intros i l Hi. simpl. apply rewrite_redacted; [exact (Forall_lookup_1 _ _ _ _ Hl Hi)|exact (Forall_lookup_1 _ _ _ _ Hc Hi)].
Qed.

(** The text every answer of the system calls would let through. *)
Definition calls_ok (e : save_env) (n : nat) : Prop :=
  Z.of_nat (String.length (sv_path e)) < 1024 /\ sv_mkstemp e = true /\ sv_fchmod e = true /\
  sv_writes e = [Z.of_nat n] /\ sv_fsync e = true /\ sv_rename e = true.

Lemma replace_env_ok e out d : out <> [] -> calls_ok e (length out) ->
  exists f, replace_env e out d = ({| dk_env := Some f; dk_tmp := None |}, Ok tt) /\ f_text f = out.
Proof.
  intros Hne (Hp & Hm & Hc & Hw & Hs & Hr). unfold replace_env.
  destruct (Z.leb_spec 1024 (Z.of_nat (String.length (sv_path e)))); [lia|].
  rewrite Hm, Hc, Hw, Hs, Hr. cbn [negb]. destruct out as [|c out]; [done|]. cbn [write_loop].
  destruct (Z.leb_spec (Z.of_nat (length (c :: out))) 0); [simpl in *; lia|].
  rewrite Z.min_id, Nat2Z.id, drop_all, take_ge by done. cbn [write_loop andb orb negb]. rewrite app_nil_r. eauto.
Qed.

Lemma view_no_nul ls : Forall line_ok ls -> cstring (get_raw_yaml (concat ls)) = get_raw_yaml (concat ls).
Proof.
  intros Hl. rewrite view_lines by done. apply cstring_id. intros Hin.
  apply list_elem_of_In, in_concat in Hin as (l & Hl' & Hin).
  apply list_elem_of_In, list_elem_of_fmap in Hl' as (l0 & -> & Hl0). apply list_elem_of_In in Hin.
  rewrite Forall_forall in Hl. destruct (redact_ok l0 (Hl _ Hl0)) as (body & E & _ & Hn & _).
  rewrite E, elem_of_app, list_elem_of_singleton in Hin. by destruct Hin.
Qed.


(** ** Witnesses *)

#[local] Existing Instance s_inet.

Definition s_sec : string := "hunter" +:+ String.String DQ "2".
Definition s_lines (value : text) : list text :=
  [chars "system:" ++ [NL]; secret_line 2 value [NL]; chars "cards: []" ++ [NL]].

(** The tree of those lines. *)
Definition s_env_tree (secret : string) : pw_yaml_node :=
  match s_root "64" with
  | PW_YAML_MAP l kvs =>
      PW_YAML_MAP l (("system", y_map [("name", y_sc "lab"); ("mode", y_sc "multi-card");
                                        ("default_speed", y_sc "10g"); ("secret", y_sc secret)]) :: tail kvs)
  | n => n
  end.
Definition s_env_libyaml (t : string) : yaml_parser :=
  {| yp_events := stream_events
       [(0, doc_of (s_env_tree (if str_eq t (String.string_of_list_ascii (concat (s_lines (chars PW_SECRET_REDACTED))))
                                then PW_SECRET_REDACTED else s_sec)), 0)] 0 0;
     yp_problem := None; yp_line := 0 |}.

Definition s_env_text : text := concat (s_lines (escape 0 (chars s_sec))).
Definition s_env_cfg (t : text) : pw_config :=
  match parse_env s_env_libyaml t with Ok c => c | Err _ => pw_config_new end.
Definition s_save : save_env :=
  {| sv_path := "/etc/pw.yaml"; sv_self := (0, 0); sv_mkstemp := true; sv_fchmod := true; sv_fchown := true;
     sv_writes := [Z.of_nat (length s_env_text)]; sv_fsync := true; sv_rename := true |}.
Definition s_disk : disk :=
  {| dk_env := Some {| f_text := s_env_text; f_mode := 0x81A0; f_owner := (0, 7) |}; dk_tmp := None |}.


