(* ===== verification/Taps.v ===== *)
(** * TAP set-up

    Models [backend_for_lif] and [setup_taps] of [sw/packetwyrmd/src/main.c]: a TAP
    device per logical interface, bound to the host plane of the card that owns its
    port. The TUN driver is a parameter: opening answers a status, a descriptor and
    the interface's name, given the descriptors in use; the ioctls answer a status;
    [hp_alloc] says whether a host plane could be allocated. The state keeps the
    open descriptors, so that a leak or a dangling binding shows. *)

From S2P Require Import Prelude Types Config Validate Csr Backend BackendFake HostPlane Daemon.

Record tap_handle := { th_fd : Z; th_lif_id : Z; th_name : string }.

Record tap_state := {
  tp_taps : list tap_handle;
  tp_hps : list (option pw_host_plane);
  tp_live : list Z
}.

Definition close_fd (fd : Z) (live : list Z) : list Z := filter (fun x => x <> fd) live.

Section Taps.
Context {C : Type}.
Context (tap_open : string -> list Z -> result pw_status (Z * string)).
Context (tap_set_mac : string -> list Z -> pw_status) (tap_set_mtu : string -> Z -> pw_status)
  (tap_set_up : string -> pw_status) (hp_alloc : nat -> bool).

(** The index of the open card that owns the port, and its local port. *)
Definition backend_for_lif (cfg : pw_config) (cards : list (@card_runtime C)) (lif : pw_logical_if) :
    option (nat * Z) :=
  match pw_config_resolve_port cfg (lif_global_port lif) with
  | Err _ => None
  | Ok ref =>
      match list_find (fun p => card_id p.1 = pr_card_id ref /\ cr_open p.2 = true)
              (zip (cfg_cards cfg) cards) with
      | Some (i, _) => Some (i, pr_local_port_id ref)
      | None => None
      end
  end.

(** How an iteration ends: go on, leave the loop, or [goto fail]. *)
Inductive tap_step := TapNext (s : tap_state) | TapBreak (s : tap_state) | TapFail (s : tap_state).

Definition tap_fail (allow_fake : bool) (s : tap_state) : tap_step :=
  if allow_fake then TapNext s else TapFail s.

Definition set_live (s : tap_state) (live : list Z) : tap_state :=
  {| tp_taps := tp_taps s; tp_hps := tp_hps s; tp_live := live |}.
Definition set_hp (s : tap_state) (i : nat) (hp : option pw_host_plane) : tap_state :=
  {| tp_taps := tp_taps s; tp_hps := <[i := hp]> (tp_hps s); tp_live := tp_live s |}.

(** Bind an open, configured TAP to the plane of card [ci]. *)
Definition bind_tap (allow_fake : bool) (ci : nat) (lp fd : Z) (name : string) (lif : pw_logical_if)
    (s : tap_state) : tap_step :=
  let closed s := set_live s (close_fd fd (tp_live s)) in
  let hp := match mjoin (tp_hps s !! ci) with
            | Some hp => Some hp
            | None => if hp_alloc ci then Some pw_host_plane_init else None
            end in
  match hp with
  | None => tap_fail allow_fake (closed s)
  | Some hp =>
      let s := set_hp s ci (Some hp) in
      match pw_host_plane_bind hp (lif_id lif) fd lp with
      | Err _ => tap_fail allow_fake (closed s)
      | Ok hp =>
          TapNext {| tp_taps := tp_taps s ++ [{| th_fd := fd; th_lif_id := lif_id lif;
                                                 th_name := cstr PW_TAP_IFNAME_MAX name |}];
                     tp_hps := <[ci := Some hp]> (tp_hps s); tp_live := tp_live s |}
      end
  end.

Definition setup_tap (cfg : pw_config) (cards : list (@card_runtime C)) (max_taps : nat) (allow_fake : bool)
    (lif : pw_logical_if) (s : tap_state) : tap_step :=
  if (max_taps <=? length (tp_taps s))%nat then (if allow_fake then TapBreak s else TapFail s) else
  match backend_for_lif cfg cards lif with
  | None => tap_fail allow_fake s
  | Some (ci, lp) =>
      match tap_open (lif_name lif) (tp_live s) with
      | Err _ => tap_fail allow_fake s
      | Ok (fd, actual) =>
          let s := set_live s (fd :: tp_live s) in
          let mr := tap_set_mac actual (lif_mac lif) in
          let tr := if ztrue (lif_mtu lif) then tap_set_mtu actual (lif_mtu lif) else PW_OK in
          let ur := tap_set_up actual in
          if (bool_decide (mr <> PW_OK) || bool_decide (tr <> PW_OK) || bool_decide (ur <> PW_OK)) && negb allow_fake
          then TapFail (set_live s (close_fd fd (tp_live s))) else
          if (PW_MAX_CARDS <=? ci)%nat then TapNext (set_live s (close_fd fd (tp_live s))) else
          bind_tap allow_fake ci lp fd actual lif s
      end
  end.

(** The rewind: close what the table holds, free the planes. *)
Definition tap_rewind (s : tap_state) : tap_state :=
  {| tp_taps := tp_taps s; tp_hps := (fun _ => None) <$> tp_hps s;
     tp_live := fold_left (fun live t => close_fd (th_fd t) live) (tp_taps s) (tp_live s) |}.

Fixpoint tap_loop_all (cfg : pw_config) (cards : list (@card_runtime C)) (max_taps : nat) (allow_fake : bool)
    (lifs : list pw_logical_if) (s : tap_state) : tap_state * option nat :=
  match lifs with
  | [] => (s, Some (length (tp_taps s)))
  | lif :: lifs =>
      match setup_tap cfg cards max_taps allow_fake lif s with
      | TapNext s => tap_loop_all cfg cards max_taps allow_fake lifs s
      | TapBreak s => (s, Some (length (tp_taps s)))
      | TapFail s => (tap_rewind s, None)
      end
  end.

(** [None] is -1; [live] are the descriptors open before. *)
Definition setup_taps (cfg : pw_config) (cards : list (@card_runtime C)) (allow_fake : bool) (live : list Z) :
    tap_state * option nat :=
  tap_loop_all cfg cards PW_HOST_PLANE_MAX_BINDINGS allow_fake (cfg_logical_if cfg)
    {| tp_taps := []; tp_hps := replicate PW_MAX_CARDS None; tp_live := live |}.
End Taps.
