(* ===== verification/TapsProps.v ===== *)
(** * No TAP leaks, and every interface is served

    Whatever the TUN driver answers, [setup_taps] leaves open exactly the
    descriptors it reports, every binding of a host plane uses one of them, a
    failed set-up closes all it opened, and a production set-up that succeeds
    serves every logical interface on the card and port it belongs to. *)

From S2P Require Import Prelude Types Config Validate Csr Backend BackendFake HostPlane Daemon Taps Samples.

(** ** Descriptors *)

Lemma close_fd_fresh fd live : fd ∉ live -> close_fd fd (fd :: live) = live.
Proof.
  intros H. unfold close_fd. rewrite filter_cons_False by tauto.
  induction live as [|x live IH]; [done|]. apply not_elem_of_cons in H as [Hx H].
  rewrite filter_cons_True by done. f_equal. by apply IH.
Qed.

Lemma close_fd_perm fd a b : a ≡ₚ b -> close_fd fd a ≡ₚ close_fd fd b.
Proof. intros H. unfold close_fd. by rewrite H. Qed.

Lemma close_taps ts : forall live live0, live ≡ₚ (th_fd <$> ts) ++ live0 -> NoDup live ->
  fold_left (fun live t => close_fd (th_fd t) live) ts live ≡ₚ live0.
Proof.
  induction ts as [|t ts IH]; intros live live0 Hp Hn; simpl in *; [done|].
  rewrite Hp in Hn. apply NoDup_cons in Hn as [Ht Hn]. apply IH.
  - rewrite (close_fd_perm _ _ _ Hp). by rewrite close_fd_fresh.
  - rewrite (close_fd_perm _ _ _ Hp). by rewrite close_fd_fresh.
Qed.

(** ** The invariant *)

Record tap_inv (live0 : list Z) (s : tap_state) : Prop := {
  ti_live : tp_live s ≡ₚ (th_fd <$> tp_taps s) ++ live0;
  ti_nodup : NoDup (tp_live s);
  ti_planes : forall ci hp, tp_hps s !! ci = Some (Some hp) ->
    plane_ok hp /\ forall hb, hb ∈ hp_bindings hp ->
      exists t, t ∈ tp_taps s /\ th_fd t = hb_fd hb /\ th_lif_id t = hb_logical_if_id hb;
  ti_cards : length (tp_hps s) = PW_MAX_CARDS
}.

(** Frames of the interface reach its TAP through the plane of its card, and leave
    by its port. *)
Definition served {C} (cfg : pw_config) (cards : list (@card_runtime C)) (s : tap_state) (lif : pw_logical_if) : Prop :=
  exists ci lp hp b hb, backend_for_lif cfg cards lif = Some (ci, lp) /\
    tp_hps s !! ci = Some (Some hp) /\ find_binding hp (lif_id lif) = Some b /\
    hp_bindings hp !! b = Some hb /\ hb_egress_local_port hb = lp.

(** Planes only gain bindings. *)
Definition hps_le (a b : list (option pw_host_plane)) : Prop :=
  forall ci hp, a !! ci = Some (Some hp) -> exists hp', b !! ci = Some (Some hp') /\
    forall l i, find_binding hp l = Some i -> find_binding hp' l = Some i /\
      hp_bindings hp' !! i = hp_bindings hp !! i.

#[global] Instance hps_le_preorder : PreOrder hps_le.
Proof.
  split.
  - intros a ci hp H. exists hp. split; [done|]. by intros.
  - intros a b c H1 H2 ci hp H. destruct (H1 ci hp H) as (hp1 & E1 & F1).
    destruct (H2 ci hp1 E1) as (hp2 & E2 & F2). exists hp2. split; [done|]. intros l i Hi.
    destruct (F1 l i Hi) as [Hi1 <-]. by apply F2.
Qed.

Lemma served_le {C} cfg (cards : list (@card_runtime C)) s s' lif : hps_le (tp_hps s) (tp_hps s') ->
  served cfg cards s lif -> served cfg cards s' lif.
Proof.
  intros Hle (ci & lp & hp & b & hb & Hbk & Hhp & Hf & Hb & Hlp). destruct (Hle ci hp Hhp) as (hp' & Hhp' & F).
  destruct (F _ _ Hf) as [Hf' Hb']. exists ci, lp, hp', b, hb. split_and!; try done. by rewrite Hb'.
Qed.

(** What binding does to a plane. *)
Lemma bind_spec hp lif fd lp hp' : plane_ok hp -> pw_host_plane_bind hp lif fd lp = Ok hp' ->
  plane_ok hp' /\ hp_bindings hp' = hp_bindings hp ++
    [{| hb_logical_if_id := lif; hb_fd := fd; hb_egress_local_port := lp |}] /\
  find_binding hp' lif = Some (length (hp_bindings hp)) /\
  forall l i, find_binding hp l = Some i -> find_binding hp' l = Some i /\
    hp_bindings hp' !! i = hp_bindings hp !! i.
Proof.
  intros Hok Hb. pose proof (host_bind hp lif fd lp Hok) as Hs. rewrite Hb in Hs.
  destruct Hs as (Hok' & Hn & Hf & Ho).
  assert (E : hp_bindings hp' = hp_bindings hp ++
    [{| hb_logical_if_id := lif; hb_fd := fd; hb_egress_local_port := lp |}]).
  { revert Hb. unfold pw_host_plane_bind. intros Hb. mon. done. }
  split_and!; try done. intros l i Hi. destruct (decide (l = lif)) as [->|Hne]; [congruence|].
  rewrite Ho by done. split; [done|]. rewrite E. apply find_binding_some in Hi as (hb & Hi & _).
  rewrite lookup_app_l; [done|]. by eapply lookup_lt_Some.
Qed.

Lemma init_ok : plane_ok pw_host_plane_init.
Proof. split; simpl; try done; [constructor|lia]. Qed.

Section Setup.
Context {C : Type}.
Context (tap_open : string -> list Z -> result pw_status (Z * string)).
Context (tap_set_mac : string -> list Z -> pw_status) (tap_set_mtu : string -> Z -> pw_status)
  (tap_set_up : string -> pw_status) (hp_alloc : nat -> bool).
(** The kernel hands out descriptors that are not in use. *)
Context (Hopen : forall name live fd a, tap_open name live = Ok (fd, a) -> fd ∉ live).
Context (cfg : pw_config) (cards : list (@card_runtime C)) (live0 : list Z).

(** The outcome of an iteration: on the way out only what the table holds is open;
    going on, no interface is unserved, and this one is served unless faults are
    tolerated. *)
Definition step_good (allow_fake : bool) (lif : pw_logical_if) (s : tap_state) (r : tap_step) : Prop :=
  match r with
  | TapNext s' => tap_inv live0 s' /\ hps_le (tp_hps s) (tp_hps s') /\
      (allow_fake = false -> (length (cfg_cards cfg) <= PW_MAX_CARDS)%nat -> served cfg cards s' lif)
  | TapBreak s' => s' = s /\ allow_fake = true
  | TapFail s' => tap_inv live0 s' /\ allow_fake = false
  end.

Lemma tap_fail_good allow_fake lif s s' : tap_inv live0 s' -> hps_le (tp_hps s) (tp_hps s') ->
  step_good allow_fake lif s (tap_fail allow_fake s').
Proof. intros Hi Hle. unfold tap_fail. destruct allow_fake; by split_and!. Qed.

Lemma closed_inv s fd : tap_inv live0 s -> fd ∉ tp_live s -> forall hps,
  (forall ci hp, hps !! ci = Some (Some hp) -> tp_hps s !! ci = Some (Some hp) \/ hp = pw_host_plane_init) ->
  length hps = PW_MAX_CARDS ->
  tap_inv live0 {| tp_taps := tp_taps s; tp_hps := hps; tp_live := close_fd fd (fd :: tp_live s) |}.
Proof.
  intros [Hl Hn Hp Hc] Hfd hps Hh Hlen. rewrite close_fd_fresh by done. split; simpl; try done.
  intros ci hp Hci. destruct (Hh ci hp Hci) as [H| ->]; [by apply Hp in H|].
  split; [apply init_ok|]. intros hb Hhb. by apply elem_of_nil in Hhb.
Qed.

(** The plane a TAP is bound to: the card's, or a new one where it had none. *)
Definition plane_at (s : tap_state) (ci : nat) (hp : pw_host_plane) : Prop :=
  tp_hps s !! ci = Some (Some hp) \/ mjoin (tp_hps s !! ci) = None /\ hp = pw_host_plane_init.

Lemma plane_at_ok s ci hp : tap_inv live0 s -> plane_at s ci hp ->
  plane_ok hp /\ forall hb, hb ∈ hp_bindings hp ->
    exists t, t ∈ tp_taps s /\ th_fd t = hb_fd hb /\ th_lif_id t = hb_logical_if_id hb.
Proof.
  intros Hi [H|[_ ->]]; [by apply (ti_planes _ _ Hi) in H|]. split; [apply init_ok|].
  intros hb Hhb. by apply elem_of_nil in Hhb.
Qed.

Lemma insert_le s ci hp hp' : (ci < length (tp_hps s))%nat -> plane_at s ci hp ->
  (forall l i, find_binding hp l = Some i -> find_binding hp' l = Some i /\
     hp_bindings hp' !! i = hp_bindings hp !! i) ->
  hps_le (tp_hps s) (<[ci := Some hp']> (tp_hps s)).
Proof.
  intros Hci Hat Hm cj hpj Hj. destruct (decide (cj = ci)) as [->|Hne].
  - exists hp'. rewrite list_lookup_insert_eq by done. split; [done|].
    destruct Hat as [H|[H _]]; rewrite Hj in H; [by injection H as ->|done].
  - exists hpj. rewrite list_lookup_insert_ne by done. split; [done|]. by intros.
Qed.

(** A bound TAP: one descriptor more, one table entry more, one binding more. *)
Lemma bound_inv s ci hp hp' fd lp name lif : tap_inv live0 s -> fd ∉ tp_live s -> (ci < PW_MAX_CARDS)%nat ->
  plane_at s ci hp -> pw_host_plane_bind hp (lif_id lif) fd lp = Ok hp' ->
  tap_inv live0 {| tp_taps := tp_taps s ++ [{| th_fd := fd; th_lif_id := lif_id lif; th_name := name |}];
                   tp_hps := <[ci := Some hp']> (tp_hps s); tp_live := fd :: tp_live s |}.
Proof.
  intros Hi Hfd Hci Hat Hb. destruct (plane_at_ok _ _ _ Hi Hat) as [Hok Hbd].
  destruct (bind_spec _ _ _ _ _ Hok Hb) as (Hok' & Hbs & _). destruct Hi as [Hl Hn Hp Hc].
  split; cbn [tp_live tp_taps tp_hps].
  - rewrite fmap_app, Hl. simpl. rewrite <- app_assoc. apply Permutation_middle.
  - by apply NoDup_cons.
  - assert (Hold : forall hb : pw_host_binding, (exists t, t ∈ tp_taps s /\ th_fd t = hb_fd hb /\
      th_lif_id t = hb_logical_if_id hb) -> exists t, t ∈ tp_taps s ++
        [{| th_fd := fd; th_lif_id := lif_id lif; th_name := name |}] /\ th_fd t = hb_fd hb /\
        th_lif_id t = hb_logical_if_id hb).
    { intros hb (t & Ht & ?). exists t. split; [|done]. apply elem_of_app. by left. }
    intros cj hpj. destruct (decide (cj = ci)) as [->|Hne].
    + rewrite list_lookup_insert_eq by lia. intros [= <-]. split; [done|]. intros hb.
      rewrite Hbs, elem_of_app, list_elem_of_singleton. intros [Hhb| ->]; [by apply Hold, Hbd|].
      eexists. split; [apply elem_of_app; right; by apply list_elem_of_singleton|done].
    + rewrite list_lookup_insert_ne by done. intros H. destruct (Hp _ _ H) as [? Hbd']. split; [done|].
      intros hb Hhb. by apply Hold, Hbd'.
  - by rewrite length_insert.
Qed.

Lemma bind_tap_good allow_fake ci lp fd name lif s : tap_inv live0 s -> fd ∉ tp_live s ->
  (ci < PW_MAX_CARDS)%nat -> backend_for_lif cfg cards lif = Some (ci, lp) ->
  step_good allow_fake lif s
    (bind_tap hp_alloc allow_fake ci lp fd name lif (set_live s (fd :: tp_live s))).
Proof.
  intros Hi Hfd Hci Hbk. unfold bind_tap, set_hp, set_live. cbn [tp_hps tp_live tp_taps].
  pose proof (ti_cards _ _ Hi) as Hcl.
  set (hpo := match mjoin (tp_hps s !! ci) with Some hp => Some hp | None => _ end).
  assert (Hpo : forall hp, hpo = Some hp -> plane_at s ci hp).
  { intros hp. unfold hpo, plane_at. destruct (tp_hps s !! ci) as [[hp0|]|]; simpl;
      [intros [= <-]; by left|..]; (destruct (hp_alloc ci); [|done]; intros [= <-]; by right). }
  destruct hpo as [hp|].
  2: { apply tap_fail_good; [|reflexivity]. apply closed_inv; [done..|by left|done]. }
  specialize (Hpo hp eq_refl). destruct (plane_at_ok _ _ _ Hi Hpo) as [Hok _].
  destruct (pw_host_plane_bind hp (lif_id lif) fd lp) as [hp'|e] eqn:Hb; cbn [tp_taps tp_hps tp_live].
  - destruct (bind_spec _ _ _ _ _ Hok Hb) as (Hok' & Hbs & Hf & Hmono).
    rewrite list_insert_insert_eq. split_and!; [by eapply bound_inv|by eapply insert_le; [lia|..]|].
    intros _ _. exists ci, lp, hp', (length (hp_bindings hp)),
      {| hb_logical_if_id := lif_id lif; hb_fd := fd; hb_egress_local_port := lp |}. cbn [tp_hps].
    rewrite list_lookup_insert_eq by lia. split_and!; try done. rewrite Hbs. by apply list_lookup_middle.
  - apply tap_fail_good; [|eapply insert_le; [lia|exact Hpo|by intros]].
    apply closed_inv; [done..| |by rewrite length_insert].
    intros cj hpj. destruct (decide (cj = ci)) as [->|Hne].
    + rewrite list_lookup_insert_eq by lia. intros [= <-]. unfold plane_at in Hpo. naive_solver.
    + rewrite list_lookup_insert_ne by done. by left.
Qed.

Lemma setup_tap_good max allow_fake lif s : tap_inv live0 s ->
  step_good allow_fake lif s
    (setup_tap tap_open tap_set_mac tap_set_mtu tap_set_up hp_alloc cfg cards max allow_fake lif s).
Proof.
  intros Hi. unfold setup_tap. destruct (max <=? _)%nat; [by destruct allow_fake|].
  destruct (backend_for_lif cfg cards lif) as [[ci lp]|] eqn:Hbk; [|by apply tap_fail_good].
  destruct (tap_open (lif_name lif) (tp_live s)) as [[fd a]|] eqn:Ho; [|by apply tap_fail_good].
  apply Hopen in Ho as Hfd.
  assert (Hcl : tap_inv live0 (set_live (set_live s (fd :: tp_live s)) (close_fd fd (fd :: tp_live s)))).
  { apply (closed_inv s fd Hi Hfd (tp_hps s)); [by left|apply Hi]. }
  destruct (_ && _) eqn:Hbad.
  { apply andb_true_iff in Hbad as [_ Hf%negb_true_iff]. by split. }
  destruct (Nat.leb_spec PW_MAX_CARDS ci) as [Hge|Hlt].
  - split_and!; [done|reflexivity|]. intros _ Hn. exfalso. revert Hbk. unfold backend_for_lif.
    destruct (pw_config_resolve_port cfg (lif_global_port lif)); [|done].
    destruct (list_find _ _) as [[i x]|] eqn:Hf; [|done]. intros [= <- _].
    apply list_find_Some in Hf as [Hx%lookup_lt_Some _]. rewrite length_zip_with in Hx. lia.
  - by apply bind_tap_good.
Qed.

Lemma tap_loop_good max allow_fake lifs : forall s, tap_inv live0 s ->
  let r := tap_loop_all tap_open tap_set_mac tap_set_mtu tap_set_up hp_alloc cfg cards max allow_fake lifs s in
  match r.2 with
  | Some n => n = length (tp_taps r.1) /\ tap_inv live0 r.1 /\ hps_le (tp_hps s) (tp_hps r.1) /\
      (allow_fake = false -> (length (cfg_cards cfg) <= PW_MAX_CARDS)%nat -> Forall (served cfg cards r.1) lifs)
  | None => allow_fake = false /\ tp_live r.1 ≡ₚ live0 /\ Forall (fun hp => hp = None) (tp_hps r.1)
  end.
Proof.
  induction lifs as [|lif lifs IH]; intros s Hi; cbn [tap_loop_all].
  { split_and!; [done|done|reflexivity|by intros]. }
  pose proof (setup_tap_good max allow_fake lif s Hi) as Hg.
  destruct (setup_tap _ _ _ _ _ _ _ _ _ _ _) as [s'|s'|s']; cbn [step_good] in Hg.
  - destruct Hg as (Hi' & Hle & Hs). specialize (IH s' Hi'). cbv zeta in IH.
    destruct (tap_loop_all _ _ _ _ _ _ _ _ _ lifs s') as [s2 [n|]]; cbn [fst snd] in *; [|done].
    destruct IH as (-> & Hi2 & Hle2 & Hs2). split_and!; [done|done|by etransitivity|].
    intros Hf Hn. apply Forall_cons. split; [|by apply Hs2]. by eapply served_le; [|apply Hs].
  - destruct Hg as [-> ->]. cbn [fst snd]. split_and!; [done|done|reflexivity|done].
  - destruct Hg as [Hi' ->]. cbn [fst snd]. split_and!; [done| |].
    + apply close_taps; apply Hi'.
    + apply Forall_fmap, Forall_true. done.
Qed.

(** Whatever the TUN driver answers, [setup_taps] leaks nothing: when it returns
    a count, the open descriptors are exactly those of its table (and those open
    before), every host-plane binding uses one of them, and a production set-up has
    then bound every logical interface to the host plane of the card that owns its
    port, with that port as egress; when it fails (only in production) every
    descriptor it opened is closed again and no host plane is left. *)
Lemma setup_taps_exact (allow_fake : bool) : NoDup live0 ->
  let r := setup_taps tap_open tap_set_mac tap_set_mtu tap_set_up hp_alloc cfg cards allow_fake live0 in
  match r.2 with
  | Some n => n = length (tp_taps r.1) /\ tap_inv live0 r.1 /\
      (allow_fake = false -> (length (cfg_cards cfg) <= PW_MAX_CARDS)%nat ->
       Forall (served cfg cards r.1) (cfg_logical_if cfg))
  | None => allow_fake = false /\ tp_live r.1 ≡ₚ live0 /\ Forall (fun hp => hp = None) (tp_hps r.1)
  end.
Proof.
  intros Hn. unfold setup_taps.
  pose proof (tap_loop_good PW_HOST_PLANE_MAX_BINDINGS allow_fake (cfg_logical_if cfg)
    {| tp_taps := []; tp_hps := replicate PW_MAX_CARDS None; tp_live := live0 |}) as H.
  cbv zeta in *. destruct (tap_loop_all _ _ _ _ _ _ _ _ _ _ _) as [s [n|]]; cbn [fst snd] in *.
  1: destruct H as (? & ? & _ & ?); [|done].
  2: apply H.
  all: (split; cbn [tp_live tp_taps tp_hps fmap list_fmap app]; [done|done| |by rewrite length_replicate]; intros ci hp Hci;
        apply lookup_replicate in Hci as [? _]; done).
Qed.
End Setup.

(** ** A witness *)

(** Descriptors handed out in order. *)
Definition s_tap_open (name : string) (live : list Z) : result pw_status (Z * string) :=
  Ok (1 + foldr Z.max 0 live, name).
Lemma s_tap_open_fresh name live fd a : s_tap_open name live = Ok (fd, a) -> fd ∉ live.
Proof.
  intros [= <- _]. assert (H : forall x, x ∈ live -> x <= foldr Z.max 0 live).
  { induction live as [|y live IH]; intros x; [by intros ?%elem_of_nil|].
    intros [->|Hx%IH]%elem_of_cons; simpl; lia. }
  intros Hin%H. lia.
Qed.

Definition s_tap_cards : list (@card_runtime unit) :=
  (fun _ => {| cr_open := true; cr_which := "fake"; cr_ctx := tt |}) <$> cfg_cards s_cfg.

Lemma setup_taps_exact_witness :
  let r := setup_taps s_tap_open (fun _ _ => PW_OK) (fun _ _ => PW_OK) (fun _ => PW_OK) (fun _ => true)
             s_cfg s_tap_cards false [0; 1; 2] in
  cfg_logical_if s_cfg <> [] /\ r.2 = Some (length (cfg_logical_if s_cfg)) /\
  Forall (served s_cfg s_tap_cards r.1) (cfg_logical_if s_cfg).
Proof.
  pose proof (setup_taps_exact s_tap_open (fun _ _ => PW_OK) (fun _ _ => PW_OK) (fun _ => PW_OK) (fun _ => true)
    s_tap_open_fresh s_cfg s_tap_cards [0; 1; 2] false) as H.
  cbv zeta in *. split; [vm_compute; discriminate|].
  assert (Hn : (setup_taps s_tap_open (fun _ _ => PW_OK) (fun _ _ => PW_OK) (fun _ => PW_OK) (fun _ => true)
    s_cfg s_tap_cards false [0; 1; 2]).2 = Some (length (cfg_logical_if s_cfg))) by (vm_compute; reflexivity).
  rewrite Hn in H. split; [exact Hn|]. apply H; [by repeat (constructor; [set_solver|]); constructor|done|].
  apply Nat.leb_le. vm_compute. reflexivity.
Defined.
