(* ===== verification/Proxy.v ===== *)
(** * The HTTPS gateway

    Models [sw/packetwyrm-proxyd/src/main.c] between the TLS layer and the daemon's
    socket: reading a request, its Content-Length and headers, the Host allow-list,
    the lazily repeated check that the daemon requires a secret, the dispatch of a
    request, and the option and configuration-file parsers with the start-up gates.
    The connection is the list of what its reads answer (a non-empty piece, or
    [None] for an error or the end), each with whether the whole-request deadline
    has passed after it; the daemon's socket is a [daemon_link] over a state [D].
    Last come the arguments, and the accept loop with its pool of workers as a step
    relation over their atomic actions. OpenSSL's set-up is not modelled. *)

From Stdlib Require Import Ascii.
From Stdlib Require String.
From S2P Require Import Prelude Types Scalar Text Ipc.

Local Open Scope string_scope.
Local Open Scope Z_scope.
Local Open Scope list_scope.

Definition PROXYD_REQ_MAX : Z := PW_IPC_FRAME_MAX + 8192.
Definition PROXYD_PROBE_PERIOD_S : Z := 60.
Definition PROXYD_DEFAULT_PORT : Z := 8443.
Definition PROXYD_MAX_THREADS : Z := 32.

(** ** Reading a request *)

Definition CRLFCRLF : text := [CR; NL; CR; NL].

(** The first [i >= from] with [i + 3 < have] where the blank line is; its end. *)
Definition header_end_from (from : nat) (buf : text) : option nat :=
  (fun p : nat * nat => p.2 + 4)%nat <$>
    list_find (fun i => take 4 (drop i buf) = CRLFCRLF) (seq from (length buf - 3 - from)).

Definition conn_script : Type := list (option text * bool).

Inductive req_err := ReqError | ReqTimeout.

(** Read until the header block is whole; only the fresh tail and three bytes
    before it are searched. *)
Fixpoint read_header (cap : nat) (reads : conn_script) (buf : text) : result req_err (text * nat * conn_script) :=
  if (cap <=? length buf)%nat then Err ReqError else
  match reads with
  | (Some ((_ :: _) as piece), late) :: reads =>
      if late then Err ReqTimeout else
      let fresh := take (cap - length buf) piece in
      let buf := buf ++ fresh in
      let r := length fresh in
      let from := if (r + 3 <=? length buf)%nat then (length buf - r - 3)%nat else 0%nat in
      match header_end_from from buf with
      | Some e => Ok (buf, e, reads)
      | None => read_header cap reads buf
      end
  | _ => Err ReqError
  end.

(** Decimal digits, and the value [strtoull] gives them. *)
Definition dec (c : ascii) : option Z := if dec_char c then Some (ch c - 48) else None.
Fixpoint span_dec (t : text) : list Z * text :=
  match t with
  | c :: t' => match dec c with Some d => let '(ds, r) := span_dec t' in (d :: ds, r) | None => ([], t) end
  | [] => ([], [])
  end.

(** The value of a Content-Length line, from after its name. *)
Definition parse_clen (t : text) : option Z :=
  let p := skip_ws t in
  let '(ds, e) := span_dec p in
  if (length ds =? 0)%nat then None else
  let v := digits_val 10 ds in
  let e := hd NUL (skip_ws e) in
  if negb (bool_decide (e = CR)) && negb (bool_decide (e = NL)) then None
  else if 2 ^ 64 <=? v then None else Some v.

(** [n] bytes of the header left; a second Content-Length is an error. *)
Fixpoint scan_clen (n : nat) (t : text) (at_start : bool) (seen : option Z) : option (option Z) :=
  match n, t with
  | S n', c :: t' =>
      if bool_decide (c = NL) then scan_clen n' t' true seen else
      if negb at_start then scan_clen n' t' false seen else
      if (n <=? 15)%nat || negb (prefix_ci (chars "Content-Length:") t) then scan_clen n' t' false seen else
      match seen with
      | Some _ => None
      | None => v ← parse_clen (drop 15 t); scan_clen n' t' false (Some v)
      end
  | _, _ => Some seen
  end.

(** Read on until [want] bytes are there. *)
Fixpoint read_body (cap want : nat) (reads : conn_script) (buf : text) : result req_err text :=
  if (want <=? length buf)%nat then Ok buf else
  match reads with
  | (Some ((_ :: _) as piece), late) :: reads =>
      if late then Err ReqTimeout else read_body cap want reads (buf ++ take (cap - length buf) piece)
  | _ => Err ReqError
  end.

(** The bytes, where the body starts, its length. *)
Definition read_request (cap : nat) (reads : conn_script) : result req_err (text * nat * nat) :=
  match read_header cap reads [] with
  | Err e => Err e
  | Ok (buf, header_end, reads) =>
      match scan_clen header_end buf true None with
      | None => Err ReqError
      | Some clen =>
          let clen := default 0 clen in
          if PW_IPC_FRAME_MAX <? clen then Err ReqError else
          let want := (header_end + Z.to_nat clen)%nat in
          if (cap <? want)%nat then Err ReqError else
          match read_body cap want reads buf with
          | Err e => Err e
          | Ok buf => Ok (buf, header_end, Z.to_nat clen)
          end
      end
  end.

(** ** Headers *)

(** The prefix up to a CR or NL. *)
Fixpoint to_eol (t : text) : text :=
  match t with
  | c :: t => if bool_decide (c = CR) || bool_decide (c = NL) then [] else c :: to_eol t
  | [] => []
  end.
Definition trim_end (t : text) : text := reverse (skip_ws (reverse t)).

(** [t] is the header block from the cursor on; the value as a C string. *)
Fixpoint find_header (t : text) (at_start : bool) (name : text) (outcap : nat) : option text :=
  match t with
  | [] => None
  | c :: t' =>
      if negb (length name <? length t)%nat then None else
      if at_start && prefix_ci name t then
        let v := trim_end (to_eol (skip_ws (drop (length name) t))) in
        if (outcap <=? length v)%nat then None else Some (cstring v)
      else find_header t' (bool_decide (c = NL)) name outcap
  end.

(** ** The Host allow-list *)

Definition LBR : ascii := "[".
Definition RBR : ascii := "]".

Definition host_matches (host want : text) : bool :=
  same_ci host want ||
  ((2 <=? length host)%nat && bool_decide (hd NUL host = LBR) && bool_decide (last host = Some RBR) &&
   (length want =? length host - 2)%nat && same_ci (take (length host - 2) (tail host)) want).

Definition strip_port (host : text) : text :=
  match host with
  | c :: _ =>
      if bool_decide (c = LBR) then
        match split_at RBR host with
        | Some (a, b) => if bool_decide (hd NUL b = COLON) then a ++ [RBR] else host
        | None => host
        end
      else
        match split_at COLON host with
        | Some (a, b) => if bool_decide (COLON ∈ b) then host else a
        | None => host
        end
  | [] => []
  end.

Definition builtin_hosts : list text := [chars "localhost"; chars "127.0.0.1"; chars "::1"].

Definition host_allowed (listen_addr : text) (allowed : list text) (raw : text) : bool :=
  let host := strip_port (take 299 raw) in
  negb (bool_decide (host = [])) &&
  existsb (host_matches host) (builtin_hosts ++ [listen_addr] ++ allowed).

(** ** The authentication probe *)

Record probe_state := { pb_enforce : bool; pb_ok : option Z }.

Definition pb_fresh (now : Z) (s : probe_state) : bool :=
  match pb_ok s with Some ts => now - ts <? PROXYD_PROBE_PERIOD_S | None => false end.
Definition pb_asks (now : Z) (s : probe_state) : bool := pb_enforce s && negb (pb_fresh now s).

(** [probe] is [probe_daemon_secret]'s answer, had it been asked. *)
Definition auth_probe_current (now probe : Z) (s : probe_state) : probe_state * bool :=
  if negb (pb_enforce s) then (s, true) else
  if pb_fresh now s then (s, true)
  else if probe =? 1 then ({| pb_enforce := pb_enforce s; pb_ok := Some now |}, true)
  else ({| pb_enforce := pb_enforce s; pb_ok := None |}, false).

(** [strstr]. *)
Fixpoint contains (sub t : text) : bool :=
  bool_decide (take (length sub) t = sub) || match t with [] => false | _ :: t => contains sub t end.

(** An object with one string member. *)
Definition json_pair (k v : text) : text :=
  [("{"%char : ascii); DQ] ++ k ++ [DQ; COLON; DQ] ++ v ++ [DQ; "}"%char].

Definition probe_request : text := json_pair (chars "rpc") (chars "version").

(** The daemon's socket: whether [socket] and [connect] succeed, the answers of the
    writes and reads, and what comes back for the bytes that were sent. *)
Record daemon_link (D : Type) := {
  dl_path : string;
  dl_socket : D -> bool;
  dl_connect : D -> option errno;
  dl_writes : D -> list io_answer;
  dl_daemon : list Z -> D -> D * list Z;
  dl_reads : D -> list io_answer
}.
Arguments dl_path {D} d.
Arguments dl_socket {D} d.
Arguments dl_connect {D} d.
Arguments dl_writes {D} d.
Arguments dl_daemon {D} d.
Arguments dl_reads {D} d.

Definition daemon_relay {D} (l : daemon_link D) (body : text) (rcap : Z) (d : D) : D * option text :=
  match pw_ipc_connect (dl_socket l d) (dl_connect l d) (dl_path l) with
  | Err _ => (d, None)
  | Ok _ =>
      let '(out, _, o) := pw_ipc_write_frame (dl_writes l d) (text_bytes body) in
      let '(d, back) := dl_daemon l out d in
      match o with
      | Done (Ok _) =>
          match (pw_ipc_read_frame (dl_reads l d) back rcap).2 with
          | Done (Ok resp) => (d, Some (bytes_text resp))
          | _ => (d, None)
          end
      | _ => (d, None)
      end
  end.

Definition probe_daemon_secret {D} (l : daemon_link D) (d : D) : D * Z :=
  let '(d, resp) := daemon_relay l probe_request (PW_IPC_FRAME_MAX - 1) d in
  (d, match resp with
      | None => -1
      | Some resp => if contains (chars "unauthorized") (cstring resp) then 1 else 0
      end).

(** The daemon is asked only when the last confirmation is missing or old. *)
Definition auth_probe {D} (l : daemon_link D) (now : Z) (s : probe_state) (d : D) : probe_state * D * bool :=
  let '(d', probe) := probe_daemon_secret l d in
  let '(s', ok) := auth_probe_current now probe s in
  (s', if pb_asks now s then d' else d, ok).

(** ** Dispatch *)

Record asset := { as_path : text; as_ctype : text; as_data : text }.

(** [%Ns]: blanks skipped, then at most [n] characters up to a blank; [None] when
    there is none. *)
Fixpoint skip_space_l (t : text) : text :=
  match t with c :: t' => if isspace c then skip_space_l t' else t | [] => [] end.
Fixpoint word (n : nat) (t : text) : text * text :=
  match n, t with
  | S n, c :: t' => if isspace c then ([], t) else let '(a, r) := word n t' in (c :: a, r)
  | _, _ => ([], t)
  end.
Definition scan_word (n : nat) (t : text) : option (text * text) :=
  let '(a, r) := word n (skip_space_l t) in if bool_decide (a = []) then None else Some (a, r).

(** Up to the query, at most 255 characters. *)
Fixpoint clean_path (n : nat) (path : text) : text :=
  match n, path with
  | S n, c :: path => if bool_decide (c = "?"%char) then [] else c :: clean_path n path
  | _, _ => []
  end.
Definition serve_asset (assets : list asset) (path : text) : option asset :=
  let clean := clean_path 255 path in
  let lookup := if bool_decide (clean = []) || bool_decide (clean = chars "/") then chars "/index.html" else clean in
  snd <$> list_find (fun a => as_path a = lookup) assets.

(** What the client gets; no reply when the connection is dropped. *)
Record http_reply := { hr_code : Z; hr_status : string; hr_ctype : text; hr_body : text }.

Definition json_type : text := chars "application/json".
Definition http_error (code : Z) (status : string) : option http_reply :=
  Some {| hr_code := code; hr_status := status; hr_ctype := json_type; hr_body := json_pair (chars "error") (chars status) |}.
Definition http_ok (ctype body : text) : option http_reply :=
  Some {| hr_code := 200; hr_status := "OK"; hr_ctype := ctype; hr_body := body |}.

Definition PROXYD_CSP : string :=
  "default-src 'self'; script-src 'self'; style-src 'self' 'unsafe-inline'; img-src 'self' data:; connect-src 'self'; object-src 'none'; base-uri 'none'; frame-ancestors 'none'".

(** Header lines, each ended, and the blank line. *)
Definition head_text (ls : list text) : text := concat ((fun l => l ++ CRLF) <$> ls) ++ CRLF.

Definition reply_head (r : http_reply) : text :=
  head_text [chars "HTTP/1.1 " ++ chars (str_Z (hr_code r)) ++ [SP] ++ chars (hr_status r);
             chars "Content-Type: " ++ hr_ctype r;
             chars "Content-Length: " ++ chars (str_nat (length (hr_body r)));
             chars "Content-Security-Policy: " ++ chars PROXYD_CSP;
             chars "X-Content-Type-Options: nosniff";
             chars "Cache-Control: no-store";
             chars "Connection: close"].

(** The writes: what each accepts, until the buffer is out; the answers left. *)
Fixpoint conn_write_all (answers : list Z) (buf : text) : text * list Z * bool :=
  match buf, answers with
  | [], _ => ([], answers, true)
  | _, w :: answers =>
      if w <=? 0 then ([], answers, false) else
      let n := Z.to_nat w in
      let '(out, answers, ok) := conn_write_all answers (drop n buf) in (take n buf ++ out, answers, ok)
  | _, [] => ([], [], false)
  end.

(** The bytes a reply puts on the connection: none when the head does not fit its
    1024 bytes, and the body only after the whole head. *)
Definition send_reply (answers : list Z) (r : http_reply) : text :=
  let head := reply_head r in
  if (1024 <=? length head)%nat then [] else
  let '(out, answers, ok) := conn_write_all answers head in
  if ok then out ++ (conn_write_all answers (hr_body r)).1.1 else out.

Definition reply_bytes (answers : list Z) (r : option http_reply) : text :=
  match r with Some r => send_reply answers r | None => [] end.

(** [pe_version] is [pw_version_string()]. *)
Record proxy_env (D : Type) := {
  pe_listen : text; pe_allowed : list text; pe_assets : list asset; pe_version : text;
  pe_link : daemon_link D
}.
Arguments pe_listen {D} p.
Arguments pe_allowed {D} p.
Arguments pe_assets {D} p.
Arguments pe_version {D} p.
Arguments pe_link {D} p.

Section Serve.
Context {D : Type} (e : proxy_env D).

(** A request handled: the probe state and the daemon after it, the reply, and the
    body relayed to the daemon, if any. *)
Definition handled : Type := (probe_state * D) * option http_reply * option text.

Definition serve_rpc (now : Z) (st : probe_state) (d : D) (buf : text) (body_off body_len : nat) : handled :=
  let hdr := take body_off buf in
  match find_header hdr true (chars "X-PW-Request:") 300 with
  | Some v =>
      if negb (bool_decide (v = chars "1")) then ((st, d), http_error 403 "missing X-PW-Request header", None) else
      match find_header hdr true (chars "Host:") 300 with
      | Some host =>
          if negb (host_allowed (pe_listen e) (pe_allowed e) host) then ((st, d), http_error 403 "host not allowed", None) else
          let '(st, d, ok) := auth_probe (pe_link e) now st d in
          if negb ok then ((st, d), http_error 403 "daemon auth not confirmed", None) else
          if (body_len =? 0)%nat then ((st, d), http_error 400 "empty body", None) else
          let body := take body_len (drop body_off buf) in
          let '(d, resp) := daemon_relay (pe_link e) body PW_IPC_FRAME_MAX d in
          ((st, d), match resp with
                    | Some resp => http_ok json_type resp
                    | None => http_error 502 "daemon unreachable"
                    end, Some body)
      | None => ((st, d), http_error 403 "host not allowed", None)
      end
  | None => ((st, d), http_error 403 "missing X-PW-Request header", None)
  end.

Definition serve (now : Z) (st : probe_state) (d : D) (reads : conn_script) : handled :=
  match read_request (Z.to_nat PROXYD_REQ_MAX) reads with
  | Err ReqTimeout => ((st, d), http_error 408 "request timeout", None)
  | Err ReqError => ((st, d), None, None)
  | Ok (buf, body_off, body_len) =>
      match (m ← scan_word 7 (cstring buf); p ← scan_word 255 m.2; Some (m.1, p.1)) with
      | None => ((st, d), http_error 400 "bad request", None)
      | Some (method, path) =>
          if bool_decide (method = chars "POST") && bool_decide (path = chars "/api/rpc")
          then serve_rpc now st d buf body_off body_len
          else if bool_decide (method = chars "GET") && bool_decide (path = chars "/proxyd/version")
          then ((st, d), http_ok json_type (json_pair (chars "version") (pe_version e)), None)
          else if bool_decide (method = chars "GET") then
            ((st, d), match serve_asset (pe_assets e) path with
                      | Some a => http_ok (as_ctype a) (as_data a)
                      | None => http_error 404 "not found"
                      end, None)
          else ((st, d), http_error 404 "not found", None)
      end
  end.
End Serve.

(** ** Options *)

Record proxyd_opts := {
  po_listen_addr : text; po_listen_port : Z; po_daemon_sock : text;
  po_tls_cert : option text; po_tls_key : option text;
  po_no_tls : bool; po_insecure_no_auth : bool; po_allowed_hosts : option text
}.

Definition default_opts : proxyd_opts :=
  {| po_listen_addr := chars "0.0.0.0"; po_listen_port := PROXYD_DEFAULT_PORT;
     po_daemon_sock := chars PW_IPC_DEFAULT_PATH; po_tls_cert := None; po_tls_key := None;
     po_no_tls := false; po_insecure_no_auth := false; po_allowed_hosts := None |}.

(** [strtol(s, &e, 10)] with [*e == '\0'] required; out of a long's range is an
    error. *)
Definition parse_port_strict (s : text) : option Z :=
  let t := skip_space_l s in
  let '(neg, t) := match t with
                   | c :: t' => if bool_decide (c = "-"%char) then (true, t')
                                else if bool_decide (c = "+"%char) then (false, t') else (false, t)
                   | [] => (false, [])
                   end in
  let '(ds, e) := span_dec t in
  if (length ds =? 0)%nat || negb (bool_decide (e = [])) then None else
  let v := if neg then - digits_val 10 ds else digits_val 10 ds in
  if (v <=? 0) || (65535 <? v) then None else Some v.

Definition set_listen (o : proxyd_opts) (addr : text) (port : Z) : proxyd_opts :=
  {| po_listen_addr := addr; po_listen_port := port; po_daemon_sock := po_daemon_sock o;
     po_tls_cert := po_tls_cert o; po_tls_key := po_tls_key o; po_no_tls := po_no_tls o;
     po_insecure_no_auth := po_insecure_no_auth o; po_allowed_hosts := po_allowed_hosts o |}.

(** [ADDR:PORT] or [PORT]; the callers stop on an error. *)
Definition parse_listen (o : proxyd_opts) (s : text) : option proxyd_opts :=
  match split_last COLON s with
  | Some (addr, port) =>
      if (128 <=? length addr)%nat then None else
      p ← parse_port_strict port; Some (set_listen o addr p)
  | None => p ← parse_port_strict s; Some (set_listen o (po_listen_addr o) p)
  end.

Definition parse_bool (s : text) : option bool :=
  if same_ci s (chars "true") || same_ci s (chars "yes") || same_ci s (chars "on") || bool_decide (s = chars "1")
  then Some true
  else if same_ci s (chars "false") || same_ci s (chars "no") || same_ci s (chars "off") || bool_decide (s = chars "0")
  then Some false else None.

(** ** The configuration file *)

Definition trim_value (t : text) : text :=
  let fix go (t : text) :=
    match t with
    | c :: t' => if bool_decide (c = NL) || bool_decide (c = CR) || bool_decide (c = SP) || bool_decide (c = TAB)
                 then go t' else t
    | [] => []
    end in
  reverse (go (reverse t)).

Definition QUOTE : ascii := "039".
Definition unquote (v : text) : text :=
  match v with
  | c :: v' =>
      if (2 <=? length v)%nat &&
         (bool_decide (c = DQ /\ last v = Some DQ) || bool_decide (c = QUOTE /\ last v = Some QUOTE))
      then take (length v - 2) v' else v
  | [] => []
  end.

(** One setting; [None]: a bad value or an unknown key. *)
Definition set_option (o : proxyd_opts) (key val : text) : option proxyd_opts :=
  let opt := if bool_decide (val = []) then None else Some val in
  if bool_decide (key = chars "listen") then parse_listen o val
  else if bool_decide (key = chars "socket") then
    Some {| po_listen_addr := po_listen_addr o; po_listen_port := po_listen_port o; po_daemon_sock := val;
            po_tls_cert := po_tls_cert o; po_tls_key := po_tls_key o; po_no_tls := po_no_tls o;
            po_insecure_no_auth := po_insecure_no_auth o; po_allowed_hosts := po_allowed_hosts o |}
  else if bool_decide (key = chars "tls_cert") then
    Some {| po_listen_addr := po_listen_addr o; po_listen_port := po_listen_port o; po_daemon_sock := po_daemon_sock o;
            po_tls_cert := opt; po_tls_key := po_tls_key o; po_no_tls := po_no_tls o;
            po_insecure_no_auth := po_insecure_no_auth o; po_allowed_hosts := po_allowed_hosts o |}
  else if bool_decide (key = chars "tls_key") then
    Some {| po_listen_addr := po_listen_addr o; po_listen_port := po_listen_port o; po_daemon_sock := po_daemon_sock o;
            po_tls_cert := po_tls_cert o; po_tls_key := opt; po_no_tls := po_no_tls o;
            po_insecure_no_auth := po_insecure_no_auth o; po_allowed_hosts := po_allowed_hosts o |}
  else if bool_decide (key = chars "allowed_hosts") || bool_decide (key = chars "allowed_host") then
    Some {| po_listen_addr := po_listen_addr o; po_listen_port := po_listen_port o; po_daemon_sock := po_daemon_sock o;
            po_tls_cert := po_tls_cert o; po_tls_key := po_tls_key o; po_no_tls := po_no_tls o;
            po_insecure_no_auth := po_insecure_no_auth o; po_allowed_hosts := Some val |}
  else if bool_decide (key = chars "no_tls") then
    b ← parse_bool val;
    Some {| po_listen_addr := po_listen_addr o; po_listen_port := po_listen_port o; po_daemon_sock := po_daemon_sock o;
            po_tls_cert := po_tls_cert o; po_tls_key := po_tls_key o; po_no_tls := b;
            po_insecure_no_auth := po_insecure_no_auth o; po_allowed_hosts := po_allowed_hosts o |}
  else if bool_decide (key = chars "insecure_no_auth") then
    b ← parse_bool val;
    Some {| po_listen_addr := po_listen_addr o; po_listen_port := po_listen_port o; po_daemon_sock := po_daemon_sock o;
            po_tls_cert := po_tls_cert o; po_tls_key := po_tls_key o; po_no_tls := po_no_tls o;
            po_insecure_no_auth := b; po_allowed_hosts := po_allowed_hosts o |}
  else None.

Definition config_line (o : proxyd_opts) (line : text) : option proxyd_opts :=
  let p := skip_ws (cstring line) in
  match p with
  | [] => Some o
  | c :: _ =>
      if bool_decide (c = "#"%char) || bool_decide (c = NL) || bool_decide (c = CR) then Some o else
      match split_at COLON p with
      | None => None
      | Some (key, val) => set_option o (trim_end key) (unquote (trim_value (skip_ws val)))
      end
  end.

(** [None]: [-1], a file that cannot be opened included. *)
Definition load_config_file (o : proxyd_opts) (file : option text) : option proxyd_opts :=
  f ← file; foldl (fun o line => o ≫= fun o => config_line o line) (Some o) (chunks (length f) 1023 f).

(** ** Start-up *)

(** [strtok(dup, ",")] as a list: empty pieces are skipped. *)
Fixpoint split_commas (t : text) (cur : text) : list text :=
  match t with
  | [] => if bool_decide (cur = []) then [] else [reverse cur]
  | c :: t =>
      if bool_decide (c = ","%char) then
        (if bool_decide (cur = []) then [] else [reverse cur]) ++ split_commas t []
      else split_commas t (c :: cur)
  end.

(** Why [main] refuses to run. *)
Inductive refusal := RefuseTlsPair | RefuseAddress | RefuseNoAuth | RefusePlaintext.

(** The checks of [main] up to the listening socket: the probe state it starts with. *)
Definition start_gate `{InetPton} (o : proxyd_opts) (sec now : Z) : result refusal probe_state :=
  if bool_decide (is_Some (po_tls_cert o)) && bool_decide (po_tls_key o = None) ||
     bool_decide (po_tls_cert o = None) && bool_decide (is_Some (po_tls_key o)) then Err RefuseTlsPair else
  match inet_pton4 (String.string_of_list_ascii (po_listen_addr o)) with
  | None => Err RefuseAddress
  | Some ia =>
      let loopback := (ia >>> 24) =? 127 in
      if negb loopback && negb (po_insecure_no_auth o) && negb (sec =? 1) then Err RefuseNoAuth else
      if negb loopback && po_no_tls o && negb (po_insecure_no_auth o) then Err RefusePlaintext else
      let enforce := negb loopback && negb (po_insecure_no_auth o) in
      Ok {| pb_enforce := enforce; pb_ok := if enforce && (sec =? 1) then Some now else None |}
  end.

(** ** The arguments and [main] up to the listening socket *)

Definition is_config (a : string) : bool := bool_decide (a ∈ ["--config"; "-c"]).

(** The first pass: every file named seeds the options. *)
Fixpoint config_pass (file : string -> option text) (o : proxyd_opts) (l : list string) : result Z proxyd_opts :=
  match l with
  | a :: ((v :: _) as l') =>
      if is_config a then
        match load_config_file o (file v) with Some o => config_pass file o l' | None => Err 2 end
      else config_pass file o l'
  | _ => Ok o
  end.

(** The options that take a value, and the flags. *)
Definition valued_option (o : proxyd_opts) (a v : string) : option (result Z proxyd_opts) :=
  let set (f : proxyd_opts) := Some (Ok f) in
  if is_config a then set o
  else if str_eq a "--listen" then Some (match parse_listen o (chars v) with Some o => Ok o | None => Err 2 end)
  else if str_eq a "--socket" then set
    {| po_listen_addr := po_listen_addr o; po_listen_port := po_listen_port o; po_daemon_sock := chars v;
       po_tls_cert := po_tls_cert o; po_tls_key := po_tls_key o; po_no_tls := po_no_tls o;
       po_insecure_no_auth := po_insecure_no_auth o; po_allowed_hosts := po_allowed_hosts o |}
  else if str_eq a "--tls-cert" then set
    {| po_listen_addr := po_listen_addr o; po_listen_port := po_listen_port o; po_daemon_sock := po_daemon_sock o;
       po_tls_cert := Some (chars v); po_tls_key := po_tls_key o; po_no_tls := po_no_tls o;
       po_insecure_no_auth := po_insecure_no_auth o; po_allowed_hosts := po_allowed_hosts o |}
  else if str_eq a "--tls-key" then set
    {| po_listen_addr := po_listen_addr o; po_listen_port := po_listen_port o; po_daemon_sock := po_daemon_sock o;
       po_tls_cert := po_tls_cert o; po_tls_key := Some (chars v); po_no_tls := po_no_tls o;
       po_insecure_no_auth := po_insecure_no_auth o; po_allowed_hosts := po_allowed_hosts o |}
  else if str_eq a "--allowed-host" then set
    {| po_listen_addr := po_listen_addr o; po_listen_port := po_listen_port o; po_daemon_sock := po_daemon_sock o;
       po_tls_cert := po_tls_cert o; po_tls_key := po_tls_key o; po_no_tls := po_no_tls o;
       po_insecure_no_auth := po_insecure_no_auth o; po_allowed_hosts := Some (chars v) |}
  else None.

Definition flag_option (o : proxyd_opts) (a : string) : result Z proxyd_opts :=
  if str_eq a "--no-tls" then Ok
    {| po_listen_addr := po_listen_addr o; po_listen_port := po_listen_port o; po_daemon_sock := po_daemon_sock o;
       po_tls_cert := po_tls_cert o; po_tls_key := po_tls_key o; po_no_tls := true;
       po_insecure_no_auth := po_insecure_no_auth o; po_allowed_hosts := po_allowed_hosts o |}
  else if str_eq a "--insecure-no-auth" then Ok
    {| po_listen_addr := po_listen_addr o; po_listen_port := po_listen_port o; po_daemon_sock := po_daemon_sock o;
       po_tls_cert := po_tls_cert o; po_tls_key := po_tls_key o; po_no_tls := po_no_tls o;
       po_insecure_no_auth := true; po_allowed_hosts := po_allowed_hosts o |}
  else if str_eq a "-h" || str_eq a "--help" then Err 0
  else Err 2.

(** The second pass, over the flags in order; an exit code when it stops. *)
Fixpoint option_pass (o : proxyd_opts) (l : list string) : result Z proxyd_opts :=
  match l with
  | [] => Ok o
  | a :: l' =>
      let flag := match flag_option o a with Ok o => option_pass o l' | Err c => Err c end in
      match l' with
      | v :: l'' =>
          match valued_option o a v with
          | Some (Ok o) => option_pass o l''
          | Some (Err c) => Err c
          | None => flag
          end
      | [] => flag
      end
  end.

Definition proxyd_args (file : string -> option text) (args : list string) : result Z proxyd_opts :=
  o ← config_pass file default_opts args; option_pass o args.

Definition exit_of (r : refusal) : Z :=
  match r with RefuseTlsPair | RefuseAddress => 2 | RefuseNoAuth | RefusePlaintext => 1 end.

(** How the environment answers: the clock at the probe, whether the TLS context can
    be made, and the socket created, bound and put to listening. *)
Record proxyd_env := { px_now : Z; px_tls : bool; px_socket : bool; px_bind : bool; px_listen : bool }.

(** [main] until it accepts: the options it runs with, the allow-list, the probe
    state and the daemon after the start-up probe; or the exit code. *)
Definition proxyd_start `{InetPton} {D} (file : string -> option text) (args : list string) (link : string -> daemon_link D)
    (x : proxyd_env) (d : D) : result Z (proxyd_opts * list text * probe_state * D) :=
  o ← proxyd_args file args;
  let '(d, sec) := probe_daemon_secret (link (String.string_of_list_ascii (po_daemon_sock o))) d in
  match start_gate o sec (px_now x) with
  | Err r => Err (exit_of r)
  | Ok st =>
      if negb (po_no_tls o) && negb (px_tls x) || negb (px_socket x) || negb (px_bind x) || negb (px_listen x) then Err 1
      else Ok (o, match po_allowed_hosts o with Some t => split_commas t [] | None => [] end, st, d)
  end.

(** ** The accept loop and its workers *)

Module Pool.

(** Where the accept loop stands with the connection it has: accepted, with room
    seen, counted, or counted back after its thread could not be created. *)
Inductive acceptor := Idle | Got (fd : Z) | Room (fd : Z) | Counted (fd : Z) | Uncounted (fd : Z).

(** A worker holds its connection until it has closed it, and then still counts. *)
Record pool := { pl_acc : acceptor; pl_active : Z; pl_workers : list (option Z); pl_open : list Z }.

Definition pool_start : pool := {| pl_acc := Idle; pl_active := 0; pl_workers := []; pl_open := [] |}.

(** [close]. *)
Definition pool_close (fd : Z) (l : list Z) : list Z := filter (fun x => x <> fd) l.

(** One atomic action of the accept loop; the kernel hands out a descriptor that is
    not open. *)
Inductive accept_step : pool -> pool -> Prop :=
| Accept a ws op fd : fd ∉ op ->
    accept_step {| pl_acc := Idle; pl_active := a; pl_workers := ws; pl_open := op |}
         {| pl_acc := Got fd; pl_active := a; pl_workers := ws; pl_open := fd :: op |}
| Full a ws op fd : PROXYD_MAX_THREADS <= a ->
    accept_step {| pl_acc := Got fd; pl_active := a; pl_workers := ws; pl_open := op |}
         {| pl_acc := Idle; pl_active := a; pl_workers := ws; pl_open := pool_close fd op |}
| HasRoom a ws op fd : a < PROXYD_MAX_THREADS ->
    accept_step {| pl_acc := Got fd; pl_active := a; pl_workers := ws; pl_open := op |}
         {| pl_acc := Room fd; pl_active := a; pl_workers := ws; pl_open := op |}
| Count a ws op fd :
    accept_step {| pl_acc := Room fd; pl_active := a; pl_workers := ws; pl_open := op |}
         {| pl_acc := Counted fd; pl_active := a + 1; pl_workers := ws; pl_open := op |}
| Create a ws op fd :
    accept_step {| pl_acc := Counted fd; pl_active := a; pl_workers := ws; pl_open := op |}
         {| pl_acc := Idle; pl_active := a; pl_workers := Some fd :: ws; pl_open := op |}
| CreateFails a ws op fd :
    accept_step {| pl_acc := Counted fd; pl_active := a; pl_workers := ws; pl_open := op |}
         {| pl_acc := Uncounted fd; pl_active := a - 1; pl_workers := ws; pl_open := op |}
| Drop a ws op fd :
    accept_step {| pl_acc := Uncounted fd; pl_active := a; pl_workers := ws; pl_open := op |}
         {| pl_acc := Idle; pl_active := a; pl_workers := ws; pl_open := pool_close fd op |}.

(** One atomic action of a worker, which may stop serving for any reason: a timeout
    that cannot be armed, a failed handshake, or the request handled. *)
Inductive worker_step : pool -> pool -> Prop :=
| WorkerCloses acc a ws1 ws2 op fd :
    worker_step {| pl_acc := acc; pl_active := a; pl_workers := ws1 ++ Some fd :: ws2; pl_open := op |}
         {| pl_acc := acc; pl_active := a; pl_workers := ws1 ++ None :: ws2; pl_open := pool_close fd op |}
| WorkerEnds acc a ws1 ws2 op :
    worker_step {| pl_acc := acc; pl_active := a; pl_workers := ws1 ++ None :: ws2; pl_open := op |}
         {| pl_acc := acc; pl_active := a - 1; pl_workers := ws1 ++ ws2; pl_open := op |}.

Definition pool_step (p p' : pool) : Prop := accept_step p p' \/ worker_step p p'.
Definition pool_reachable : pool -> Prop := rtc pool_step pool_start.
End Pool.
