(* ===== verification/ProxyProps.v ===== *)
(** * The gateway reads exactly one request and guards the daemon

    How a request is cut into reads does not matter: the incremental header search
    and the length parser compute a function of the byte stream. What reaches the
    daemon has passed the header, Host and authentication checks, and is exactly
    the declared body. *)

From Stdlib Require Import Ascii.
From Stdlib Require String.
From S2P Require Import Prelude Types Scalar Text Ipc Proxy.

Local Open Scope string_scope.
Local Open Scope Z_scope.
Local Open Scope list_scope.

(** ** The end of the header *)

Definition blank_at (t : text) (i : nat) : Prop := take 4 (drop i t) = CRLFCRLF.

Lemma blank_at_bound t i : blank_at t i -> (i + 4 <= length t)%nat.
Proof.
  intros H. apply (f_equal length) in H. rewrite length_take, length_drop in H. change (length CRLFCRLF) with 4%nat in H. lia.
Qed.

Lemma blank_at_app a b i : (i + 4 <= length a)%nat -> blank_at (a ++ b) i <-> blank_at a i.
Proof.
  intros H. unfold blank_at. rewrite drop_app_le by lia. rewrite take_app_le; [done|]. rewrite length_drop. lia.
Qed.

Lemma header_end_some from t e : header_end_from from t = Some e <->
  exists i, e = (i + 4)%nat /\ (from <= i)%nat /\ blank_at t i /\ forall j, (from <= j < i)%nat -> ~ blank_at t j.
Proof.
  unfold header_end_from. rewrite fmap_Some. split.
  - intros ([k i] & Hf & ->). apply list_find_Some in Hf as (Hk & Hb & Hn). apply lookup_seq in Hk as [-> Hk].
    exists (from + k)%nat. simpl. split_and!; [done|lia|done|]. intros j Hj Hbj.
    apply (Hn (j - from)%nat j); [apply lookup_seq; lia|lia|done].
  - intros (i & -> & Hi & Hb & Hn). exists (i - from, i)%nat. split; [|done]. apply list_find_Some.
    pose proof (blank_at_bound _ _ Hb). split; [apply lookup_seq; lia|]. split; [done|].
    intros k j [-> Hk]%lookup_seq Hlt Hbj. apply (Hn (from + k)%nat); [lia|done].
Qed.

Lemma header_end_none from t : header_end_from from t = None <-> forall i, (from <= i)%nat -> ~ blank_at t i.
Proof.
  split.
  - intros Hn i Hi Hb. unfold header_end_from in Hn. rewrite fmap_None, list_find_None, Forall_forall in Hn.
    apply (Hn i); [|done]. apply blank_at_bound in Hb. apply elem_of_seq. lia.
  - intros H. destruct (header_end_from from t) as [e|] eqn:E; [|done].
    apply header_end_some in E as (i & _ & Hi & Hb & _). by destruct (H i Hi).
Qed.

(** Searching the fresh tail and three bytes more is searching everything. *)
Lemma header_end_tail a b : header_end_from 0 a = None ->
  header_end_from (length a - 3) (a ++ b) = header_end_from 0 (a ++ b).
Proof.
  rewrite header_end_none. intros Hn.
  assert (Hlow : forall j, (j < length a - 3)%nat -> ~ blank_at (a ++ b) j).
  { intros j Hj. rewrite blank_at_app by lia. apply Hn. lia. }
  destruct (header_end_from 0 (a ++ b)) as [e|] eqn:E.
  - apply header_end_some in E as (i & -> & _ & Hb & Hi). apply header_end_some. exists i. split_and!; [done| |done|].
    + destruct (decide (i < length a - 3)%nat) as [Hlt|]; [|lia]. by destruct (Hlow i Hlt).
    + intros j Hj. apply Hi. lia.
  - apply header_end_none. intros i _. rewrite header_end_none in E. apply E. lia.
Qed.

Lemma header_end_grow a b e : header_end_from 0 a = Some e -> header_end_from 0 (a ++ b) = Some e.
Proof.
  rewrite !header_end_some. intros (i & -> & Hi & Hb & Hn). pose proof (blank_at_bound _ _ Hb).
  exists i. split_and!; [done|done|by apply blank_at_app|]. intros j Hj. rewrite blank_at_app by lia. auto.
Qed.

Lemma header_end_nl t e : header_end_from 0 t = Some e -> (e <= length t)%nat /\ last (take e t) = Some NL.
Proof.
  rewrite header_end_some. intros (i & -> & _ & Hb & _). pose proof (blank_at_bound _ _ Hb). split; [done|].
  rewrite <- (take_drop i (take (i + 4) t)), take_take, skipn_firstn_comm.
  replace (i + 4 - i)%nat with 4%nat by lia. rewrite Hb. unfold CRLFCRLF. by rewrite last_app_cons.
Qed.

(** ** The length *)

Lemma skip_ws_app a b : NL ∈ a -> skip_ws (a ++ b) = skip_ws a ++ b /\ NL ∈ skip_ws a.
Proof.
  induction a as [|c a IH]; [by intros ?%elem_of_nil|]. intros Hin. simpl.
  destruct (bool_decide (c = SP) || bool_decide (c = TAB)) eqn:Hc; [|done].
  apply IH. apply elem_of_cons in Hin as [<-|?]; [|done]. vm_compute in Hc. done.
Qed.

Lemma span_dec_app a b : NL ∈ a ->
  span_dec (a ++ b) = ((span_dec a).1, (span_dec a).2 ++ b) /\ NL ∈ (span_dec a).2.
Proof.
  induction a as [|c a IH]; [by intros ?%elem_of_nil|]. intros Hin. simpl. destruct (dec c) as [d|] eqn:Hd; [|done].
  destruct IH as [IH1 IH2]; [apply elem_of_cons in Hin as [<-|?]; [vm_compute in Hd|]; done|].
  rewrite IH1. by destruct (span_dec a).
Qed.

(** The value ends at the end of its line. *)
Lemma parse_clen_app a b : NL ∈ a -> parse_clen (a ++ b) = parse_clen a.
Proof.
  intros Hin. unfold parse_clen. destruct (skip_ws_app a b Hin) as [-> Hin1].
  destruct (span_dec_app (skip_ws a) b Hin1) as [-> Hin2]. destruct (span_dec (skip_ws a)) as [ds e]. simpl in *.
  destruct (skip_ws_app e b Hin2) as [-> Hin3]. by destruct (skip_ws e); [apply elem_of_nil in Hin3|].
Qed.

Lemma scan_clen_app x hdr : forall st seen, hdr = [] \/ last hdr = Some NL ->
  scan_clen (length hdr) (hdr ++ x) st seen = scan_clen (length hdr) hdr st seen.
Proof.
  induction hdr as [|c hdr IH]; intros st seen Hl; [by destruct x|].
  assert (Hl' : hdr = [] \/ last hdr = Some NL).
  { destruct Hl as [?|Hl]; [done|]. destruct hdr; [by left|right; exact Hl]. }
  cbn [length app scan_clen]. rewrite !IH by done.
  destruct (bool_decide (c = NL)) eqn:Hc; [done|]. destruct st; cbn [negb]; [|done].
  destruct (Nat.leb_spec (S (length hdr)) 15) as [|Hgt]; [done|].
  assert (Hp : forall y, prefix_ci (chars "Content-Length:") (c :: hdr ++ y) = prefix_ci (chars "Content-Length:") (c :: hdr)).
  { intros y. unfold prefix_ci. change (c :: hdr ++ y) with ((c :: hdr) ++ y).
    rewrite take_app_le; [done|]. simpl in *. lia. }
  rewrite Hp. cbn [orb]. destruct (negb (prefix_ci _ _)); [done|]. destruct seen; [done|].
  change (c :: hdr ++ x) with ((c :: hdr) ++ x). rewrite drop_app_le by (simpl; lia).
  rewrite parse_clen_app; [by destruct (parse_clen _); simpl; rewrite ?IH|].
  destruct Hl as [?|Hl]; [done|]. apply last_Some in Hl as [l El]. rewrite El.
  rewrite drop_app_le; [apply elem_of_app; right; by apply list_elem_of_singleton|].
  apply (f_equal length) in El. rewrite length_app in El. simpl in El. lia.
Qed.

(** ** The request as a function of the stream *)

(** Reads that deliver their piece in time. *)
Definition timely (ps : list text) : conn_script := (fun p => (Some p, false)) <$> ps.

Definition request_of (cap : nat) (s : text) : option (nat * nat) :=
  h ← header_end_from 0 s;
  clen ← scan_clen h (take h s) true None;
  let n := default 0 clen in
  if (PW_IPC_FRAME_MAX <? n) || (cap <? h + Z.to_nat n)%nat || (length s <? h + Z.to_nat n)%nat then None
  else Some (h, Z.to_nat n).

Lemma read_header_spec cap ps : Forall (fun p => p <> []) ps -> forall buf, header_end_from 0 buf = None ->
  (length (buf ++ concat ps) <= cap)%nat ->
  match header_end_from 0 (buf ++ concat ps) with
  | None => read_header cap (timely ps) buf = Err ReqError
  | Some e => exists k, read_header cap (timely ps) buf =
      Ok (buf ++ concat (take k ps), e, timely (drop k ps)) /\ (e <= length (buf ++ concat (take k ps)))%nat
  end.
Proof.
  induction 1 as [|p ps Hp Hps IH]; intros buf Hb Hl; cbn [concat timely fmap list_fmap read_header] in *.
  - rewrite app_nil_r, Hb. by destruct (_ <=? _)%nat.
  - rewrite !length_app in Hl. destruct p as [|c p]; [done|].
    destruct (Nat.leb_spec cap (length buf)) as [Hc|Hc]; [simpl in Hl; lia|].
    assert (Hbp : (length (buf ++ c :: p) <= cap)%nat) by (rewrite length_app; lia).
    cbv beta iota zeta. rewrite (take_ge (c :: p)) by (rewrite length_app in Hbp; lia).
    assert ((if (length (c :: p) + 3 <=? length (buf ++ c :: p))%nat
             then (length (buf ++ c :: p) - length (c :: p) - 3)%nat else 0%nat) = (length buf - 3)%nat) as ->.
    { rewrite length_app. destruct (Nat.leb_spec (length (c :: p) + 3) (length buf + length (c :: p))); lia. }
    rewrite header_end_tail by done. rewrite app_assoc.
    destruct (header_end_from 0 (buf ++ c :: p)) as [e|] eqn:E.
    + rewrite (header_end_grow _ _ _ E). exists 1%nat. simpl. rewrite app_nil_r. unfold timely. rewrite drop_0.
      split; [done|]. by apply header_end_nl in E as [? _].
    + specialize (IH (buf ++ c :: p) E). rewrite !length_app in IH. specialize (IH ltac:(lia)).
      destruct (header_end_from 0 ((buf ++ c :: p) ++ concat ps)) as [e|]; [|done].
      destruct IH as (k & IH1 & IH2). exists (S k). cbn [take drop concat]. rewrite app_assoc. done.
Qed.

Lemma read_body_spec cap want ps : Forall (fun p => p <> []) ps -> forall buf,
  (length (buf ++ concat ps) <= cap)%nat ->
  if (length (buf ++ concat ps) <? want)%nat then read_body cap want (timely ps) buf = Err ReqError
  else exists k, read_body cap want (timely ps) buf = Ok (buf ++ concat (take k ps)) /\
    (want <= length (buf ++ concat (take k ps)))%nat.
Proof.
  induction 1 as [|p ps Hp Hps IH]; intros buf Hl; cbn [concat timely fmap list_fmap read_body] in *.
  - rewrite app_nil_r. destruct (Nat.ltb_spec (length buf) want), (Nat.leb_spec want (length buf)); try lia; [done|].
    exists 0%nat. simpl. by rewrite app_nil_r.
  - destruct p as [|c p]; [done|]. destruct (Nat.leb_spec want (length buf)) as [Hw|Hw].
    + rewrite (proj2 (Nat.ltb_ge _ _)) by (rewrite length_app; lia). exists 0%nat. simpl. by rewrite app_nil_r.
    + rewrite !length_app in Hl. cbv beta iota zeta. rewrite (take_ge (c :: p)) by lia. rewrite app_assoc.
      specialize (IH (buf ++ c :: p)). rewrite !length_app in IH. specialize (IH ltac:(lia)). rewrite <- !length_app in IH.
      destruct (_ <? _)%nat; [exact IH|].
      destruct IH as (k & IH1 & IH2). exists (S k). cbn [take concat]. by rewrite app_assoc.
Qed.

Lemma concat_take_prefix {A} k (ps : list (list A)) : concat (take k ps) ++ concat (drop k ps) = concat ps.
Proof. by rewrite <- concat_app, take_drop. Qed.

(** However the bytes of a request are cut into (timely, non-empty) reads, the
    gateway finds the request that the byte stream holds: the first blank line ends
    the header, the one strictly parsed Content-Length bounds the body, and the bytes
    up to there are the stream's; a stream with no blank line, a bad, repeated or
    oversized length, or a body cut short is an error. *)
Theorem read_request_exact (cap : nat) (ps : list text) :
  Forall (fun p => p <> []) ps -> (length (concat ps) <= cap)%nat ->
  match request_of cap (concat ps) with
  | Some (h, n) => exists buf, read_request cap (timely ps) = Ok (buf, h, n) /\
      (h + n <= length buf)%nat /\ take (h + n) buf = take (h + n) (concat ps)
  | None => read_request cap (timely ps) = Err ReqError
  end.
Proof.
  intros Hps Hl. unfold request_of, read_request. pose proof (read_header_spec cap ps Hps []) as Hh.
  cbn [app] in Hh. specialize (Hh eq_refl Hl). destruct (header_end_from 0 (concat ps)) as [h|] eqn:Eh; cbn [mbind option_bind].
  2: { by rewrite Hh. }
  destruct Hh as (k & Hh & Hhk). rewrite Hh. clear Hh.
  set (buf := concat (take k ps)) in *. pose proof (concat_take_prefix k ps) as Hcat. fold buf in Hcat.
  assert (Htake : take h (concat ps) = take h buf) by (by rewrite <- Hcat, take_app_le).
  assert (scan_clen h buf true None = scan_clen h (take h (concat ps)) true None) as ->.
  { rewrite Htake. destruct (header_end_nl _ _ Eh) as [_ Hnl]. rewrite Htake in Hnl.
    pose proof (scan_clen_app (drop h buf) (take h buf) true None (or_intror Hnl)) as E.
    rewrite take_drop, length_take, Nat.min_l in E by done. exact E. }
  destruct (scan_clen h _ true None) as [clen|]; cbn [mbind option_bind]; [|done].
  destruct (PW_IPC_FRAME_MAX <? default 0%Z clen); [done|]. cbn [orb].
  destruct (cap <? h + Z.to_nat (default 0%Z clen))%nat; [done|]. cbn [orb].
  pose proof (read_body_spec cap (h + Z.to_nat (default 0%Z clen)) (drop k ps) (Forall_drop _ _ _ Hps) buf) as Hb.
  rewrite Hcat in Hb. specialize (Hb Hl). destruct (_ <? _)%nat; [by rewrite Hb|].
  destruct Hb as (k2 & -> & Hlen). eexists. split; [done|]. split; [done|].
  rewrite <- Hcat, <- (concat_take_prefix k2 (drop k ps)), app_assoc. symmetry. by apply take_app_le.
Qed.

(** ** The Host allow-list *)

(** The names it stands for. *)
Definition names (listen : text) (allowed : list text) : list text := builtin_hosts ++ [listen] ++ allowed.

(** [host] is [want] up to case, possibly in brackets. *)
Definition is_name (host want : text) : Prop :=
  tolower <$> host = tolower <$> want \/
  exists h, host = LBR :: h ++ [RBR] /\ tolower <$> h = tolower <$> want.

Lemma host_matches_spec host want : host_matches host want = true -> is_name host want.
Proof.
  unfold host_matches, same_ci. rewrite orb_true_iff, !andb_true_iff, !bool_decide_eq_true.
  intros [H|((((Hl%Nat.leb_le & Hh) & Hr) & _) & Hm)]; [by left|right].
  destruct host as [|c host]; [simpl in Hl; lia|]. simpl in Hh. subst c.
  destruct host as [|c0 host]; [simpl in Hl; lia|].
  assert (Hlast : last (c0 :: host) = Some RBR) by exact Hr.
  apply last_Some in Hlast as [h Eh]. exists h. split; [by rewrite Eh|].
  rewrite Eh in Hm. simpl in Hm. rewrite length_app in Hm. simpl in Hm.
  replace (length h + 1 - 1)%nat with (length h) in Hm by lia. by rewrite take_app_length in Hm.
Qed.

Lemma strip_port_spec raw : exists suffix, raw = strip_port raw ++ suffix /\
  (suffix = [] \/ exists port, suffix = COLON :: port).
Proof.
  unfold strip_port. destruct raw as [|c raw]; [exists []; split; [done|by left]|].
  assert (Hno : exists suffix, c :: raw = (c :: raw) ++ suffix /\ (suffix = [] \/ exists port, suffix = COLON :: port))
    by (exists []; rewrite app_nil_r; eauto).
  case_bool_decide; destruct (split_at _ (c :: raw)) as [[a b]|] eqn:E; try done;
    apply split_at_some in E as [E _]; rewrite E in *; case_bool_decide as Hb; try done.
  - exists b. rewrite <- app_assoc. split; [done|]. right. destruct b as [|x b]; [done|]. simpl in Hb. subst x. eauto.
  - exists (COLON :: b). eauto.
Qed.

(** If a Host value is accepted then, its optional port taken off, it is (case
    aside, possibly in brackets) one of the names. *)
Lemma host_allowed_sound (listen : text) (allowed : list text) (raw : text) :
  (length raw < 300)%nat -> host_allowed listen allowed raw = true ->
  exists want host suffix, want ∈ names listen allowed /\ raw = host ++ suffix /\ host <> [] /\
    (suffix = [] \/ exists port, suffix = COLON :: port) /\ is_name host want.
Proof.
  intros Hl. unfold host_allowed. rewrite take_ge by lia.
  rewrite andb_true_iff, negb_true_iff, bool_decide_eq_false, existsb_exists.
  intros [Hne (want & Hw%list_elem_of_In & Hm)]. apply host_matches_spec in Hm.
  destruct (strip_port_spec raw) as (suffix & E & Hs). exists want, (strip_port raw), suffix. by split_and!.
Qed.

Example host_examples :
  host_allowed (chars "10.0.0.1") [chars "lab"] (chars "LAB:8443") = true /\
  host_allowed (chars "10.0.0.1") [chars "lab"] (chars "[::1]:80") = true /\
  host_allowed (chars "10.0.0.1") [chars "lab"] (chars "attacker.example") = false.
Proof. vm_compute. done. Qed.

(** ** What reaches the daemon *)

Lemma cstring_length t : (length (cstring t) <= length t)%nat.
Proof. induction t as [|c t IH]; simpl; [lia|]. case_bool_decide; simpl; lia. Qed.

Lemma find_header_short t : forall st name cap v, find_header t st name cap = Some v -> (length v < cap)%nat.
Proof.
  induction t as [|c t IH]; intros st name cap v; cbn [find_header]; [done|].
  destruct (negb _); [done|]. destruct (_ && _); [|apply IH].
  destruct (Nat.leb_spec cap (length (trim_end (to_eol (skip_ws (drop (length name) (c :: t))))))) as [|Hl]; [done|].
  intros [= <-]. eapply Nat.le_lt_trans; [apply cstring_length|exact Hl].
Qed.

(** C31: what the gateway forwards to the daemon is guarded: only the declared, non-empty
    body of a request, whose header carries [X-PW-Request: 1] and a Host that is
    (port aside) localhost, 127.0.0.1, ::1, the bound address or a configured name, so
    neither a header-free cross-site POST nor a page that rebinds its own name gets
    through; and, where it is enforced, only while the daemon is confirmed to require
    a secret. *)
Theorem relay_guarded {D} (e : proxy_env D) (now : Z) (st st' : probe_state) (d d' : D) (reads : conn_script)
    (reply : option http_reply) (b : text) :
  serve e now st d reads = ((st', d'), reply, Some b) ->
  exists buf h n host, read_request (Z.to_nat PROXYD_REQ_MAX) reads = Ok (buf, h, n) /\
    b = take n (drop h buf) /\ n <> 0%nat /\
    find_header (take h buf) true (chars "X-PW-Request:") 300 = Some (chars "1") /\
    find_header (take h buf) true (chars "Host:") 300 = Some host /\
    (exists want name suffix, want ∈ names (pe_listen e) (pe_allowed e) /\ host = name ++ suffix /\ name <> [] /\
       (suffix = [] \/ exists port, suffix = COLON :: port) /\ is_name name want) /\
    (pb_enforce st = true ->
       (exists ts, pb_ok st = Some ts /\ now - ts < PROXYD_PROBE_PERIOD_S) \/ (probe_daemon_secret (pe_link e) d).2 = 1).
Proof.
  unfold serve. destruct (read_request _ reads) as [[[buf h] n]|[]]; [|done..].
  destruct (_ ≫= _) as [[method path]|]; [|done].
  destruct (_ && _); [|by repeat case_match]. unfold serve_rpc.
  destruct (find_header (take h buf) true (chars "X-PW-Request:") 300) as [v|] eqn:Hx; [|done].
  case_bool_decide as Hv; cbn [negb]; [|done]. subst v.
  destruct (find_header (take h buf) true (chars "Host:") 300) as [host|] eqn:Hh; [|done].
  destruct (host_allowed _ _ host) eqn:Ha; cbn [negb]; [|done]. unfold auth_probe.
  destruct (probe_daemon_secret (pe_link e) d) as [d1 probe]. cbn [snd].
  destruct (auth_probe_current now probe st) as [st1 ok] eqn:Hp. destruct ok; cbn [negb]; [|done].
  destruct (Nat.eqb_spec n 0); [done|]. destruct (daemon_relay _ _ _ _) as [d2 resp]. intros [= _ _ _ <-].
  exists buf, h, n, host. split_and!; try done.
  - apply host_allowed_sound; [by eapply find_header_short|done].
  - intros Henf. unfold auth_probe_current, pb_fresh in Hp. rewrite Henf in Hp. cbn [negb] in Hp.
    destruct (pb_ok st) as [ts|].
    + destruct (Z.ltb_spec (now - ts) PROXYD_PROBE_PERIOD_S); [left; eauto|].
      right. destruct (Z.eqb_spec probe 1); [done|congruence].
    + right. destruct (Z.eqb_spec probe 1); [done|congruence].
Qed.

(** ** A public gateway *)

(** Requests, each at a time and with what the probe would answer. *)
Definition run_probes (evs : list (Z * Z)) (s : probe_state) : probe_state :=
  fold_left (fun s ev => (auth_probe_current ev.1 ev.2 s).1) evs s.

Lemma run_probes_ok evs : forall s, pb_enforce s = true ->
  pb_enforce (run_probes evs s) = true /\
  forall ts, pb_ok (run_probes evs s) = Some ts -> pb_ok s = Some ts \/ (ts, 1) ∈ evs.
Proof.
  induction evs as [|[now p] evs IH]; intros s Hs; [by auto|]. unfold run_probes in *. cbn [fold_left fst snd].
  set (s1 := (auth_probe_current now p s).1).
  assert (H1 : pb_enforce s1 = true /\ forall ts, pb_ok s1 = Some ts -> pb_ok s = Some ts \/ (ts, 1) = (now, p)).
  { unfold s1, auth_probe_current. rewrite Hs. cbn [negb]. destruct (pb_fresh now s); [by auto|].
    destruct (Z.eqb_spec p 1) as [->|]; cbn; [|done]. split; [done|]. intros ts [= <-]. by right. }
  destruct H1 as [E1 O1]. destruct (IH s1 E1) as [E2 O2]. split; [done|].
  intros ts [H|H]%O2; [destruct (O1 ts H) as [?|E]; [by left|]|]; right; [rewrite E; left|by right].
Qed.

(** A gateway bound to a public address without the explicit override runs over
    TLS only, and after any sequence of requests admits one only if a probe, the one
    at start-up included, confirmed less than a minute before that the daemon requires
    a secret: a daemon restarted without one is cut off. *)
Theorem public_relay_confirmed `{InetPton} (o : proxyd_opts) (sec t0 ia : Z) (st0 st' : probe_state)
    (evs : list (Z * Z)) (now p : Z) :
  inet_pton4 (String.string_of_list_ascii (po_listen_addr o)) = Some ia -> ia >>> 24 <> 127 ->
  po_insecure_no_auth o = false -> start_gate o sec t0 = Ok st0 ->
  auth_probe_current now p (run_probes evs st0) = (st', true) ->
  po_no_tls o = false /\
  exists ts, now - ts < PROXYD_PROBE_PERIOD_S /\ (ts = t0 /\ sec = 1 \/ (ts, 1) ∈ evs \/ ts = now /\ p = 1).
Proof.
  intros Hia Hlb Hi. unfold start_gate. destruct (_ || _); [done|]. rewrite Hia, Hi.
  rewrite (proj2 (Z.eqb_neq _ _) Hlb). cbn [negb andb]. destruct (Z.eqb_spec sec 1) as [->|]; cbn [negb]; [|done].
  destruct (po_no_tls o); cbn [andb]; [done|]. intros [= <-] Hadm. split; [done|].
  destruct (run_probes_ok evs {| pb_enforce := true; pb_ok := Some t0 |} eq_refl) as [He Hok].
  revert Hadm. unfold auth_probe_current, pb_fresh. rewrite He. cbn [negb].
  assert (Hp : p = 1 -> exists ts, now - ts < PROXYD_PROBE_PERIOD_S /\
    (ts = t0 /\ 1 = 1 \/ (ts, 1) ∈ evs \/ ts = now /\ p = 1)).
  { intros ->. exists now. split; [unfold PROXYD_PROBE_PERIOD_S; lia|auto]. }
  destruct (pb_ok (run_probes evs _)) as [ts|].
  - destruct (Z.ltb_spec (now - ts) PROXYD_PROBE_PERIOD_S).
    + intros _. exists ts. split; [done|]. destruct (Hok ts eq_refl) as [[= <-]|?]; auto.
    + destruct (Z.eqb_spec p 1); [auto|done].
  - destruct (Z.eqb_spec p 1); [auto|done].
Qed.

(** ** The pool of workers *)

Section Workers.
Import Pool.

(** The connections somebody holds: the accept loop's, and those of the workers that
    have not closed theirs. *)
Definition held (p : pool) : list Z :=
  match pl_acc p with Idle => [] | Got fd | Room fd | Counted fd | Uncounted fd => [fd] end ++ omap id (pl_workers p).

Definition counted (a : acceptor) : Z := match a with Counted _ => 1 | _ => 0 end.
Definition below (a : acceptor) : Z := match a with Room _ => PROXYD_MAX_THREADS - 1 | _ => PROXYD_MAX_THREADS end.

(** The open descriptors are those held, once each; the counter is the number of
    workers, the one about to be created included; and it is below its bound. *)
Definition pool_inv (p : pool) : Prop :=
  NoDup (held p) /\ pl_open p ≡ₚ held p /\
  pl_active p = Z.of_nat (length (pl_workers p)) + counted (pl_acc p) /\ pl_active p <= below (pl_acc p).

Lemma closed_held fd l : fd ∉ l -> pool_close fd (fd :: l) = l.
Proof.
  intros H. unfold pool_close. rewrite filter_cons_False by auto. apply filter_keep. intros x Hx ->. done.
Qed.

(** Closing what one holds leaves the rest. *)
Lemma closed_perm fd op l : op ≡ₚ fd :: l -> NoDup (fd :: l) -> pool_close fd op ≡ₚ l.
Proof.
  intros Hp [Hn _]%NoDup_cons. unfold pool_close. rewrite Hp. fold (pool_close fd (fd :: l)). by rewrite closed_held.
Qed.

Lemma pool_held_split acc a ws1 w ws2 op :
  held {| pl_acc := acc; pl_active := a; pl_workers := ws1 ++ w :: ws2; pl_open := op |} ≡ₚ
  option_list w ++ held {| pl_acc := acc; pl_active := a; pl_workers := ws1 ++ ws2; pl_open := op |}.
Proof.
  unfold held. cbn [pl_acc pl_workers]. rewrite !omap_app. destruct w as [fd|]; cbn; [|done].
  by rewrite <- !Permutation_middle.
Qed.

(** The worker at [w] gives up what it holds. *)
Lemma pool_inv_worker acc a n ws1 w w' ws2 op op' :
  pool_inv {| pl_acc := acc; pl_active := a; pl_workers := ws1 ++ w :: ws2; pl_open := op |} ->
  n = Z.of_nat (length (ws1 ++ w' ++ ws2)) + counted acc -> n <= a -> omap id w' = [] ->
  op' = (match w with Some fd => pool_close fd op | None => op end) ->
  pool_inv {| pl_acc := acc; pl_active := n; pl_workers := ws1 ++ w' ++ ws2; pl_open := op' |}.
Proof.
  intros (Hn & Hp & Hc & Hb) En Hle Hw ->. rewrite pool_held_split in Hn, Hp. cbn [pl_acc pl_workers pl_active pl_open] in *.
  assert (Eh : held {| pl_acc := acc; pl_active := n; pl_workers := ws1 ++ w' ++ ws2;
                       pl_open := match w with Some fd => pool_close fd op | None => op end |} =
               held {| pl_acc := acc; pl_active := a; pl_workers := ws1 ++ ws2; pl_open := op |}).
  { unfold held. cbn [pl_acc pl_workers]. by rewrite !omap_app, Hw. }
  unfold pool_inv. rewrite Eh. cbn [pl_acc pl_workers pl_active pl_open]. split_and!; [|destruct w as [fd|]|done|lia].
  - by apply NoDup_app in Hn as (_ & _ & ?).
  - by apply closed_perm.
  - done.
Qed.

Lemma pool_step_inv p p' : pool_step p p' -> pool_inv p -> pool_inv p'.
Proof.
  intros [[a ws op fd Hf|a ws op fd Hf|a ws op fd Hf|a ws op fd|a ws op fd|a ws op fd|a ws op fd]|
          [acc a ws1 ws2 op fd|acc a ws1 ws2 op]] Hi.
  8: { apply (pool_inv_worker acc a a ws1 (Some fd) [None] ws2 op _ Hi); try done. destruct Hi as (_ & _ & Hc & _).
       cbn in Hc. rewrite Hc, !length_app. simpl. lia. }
  8: { apply (pool_inv_worker acc a (a - 1) ws1 None [] ws2 op _ Hi); try done; [|lia]. destruct Hi as (_ & _ & Hc & _).
       cbn in Hc. rewrite Hc, !length_app. simpl. lia. }
  all: destruct Hi as (Hn & Hp & Hc & Hb); unfold pool_inv, held in *;
    cbn [pl_acc pl_workers pl_active pl_open counted below app length] in *; split_and!; try done; try lia.
  - rewrite Hp in Hf. by constructor.
  - by rewrite Hp.
  - by apply NoDup_cons in Hn as [_ ?].
  - by apply closed_perm.
  - by apply NoDup_cons in Hn as [_ ?].
  - by apply closed_perm.
Qed.

(** C32: however the accept loop and the workers interleave, the gateway serves at most
    32 connections at a time and never loses room or a descriptor: the shared counter
    is the number of workers (with the one being created), no connection has two
    holders, so none is closed twice or under another worker, and every descriptor
    that is open is held by a live worker or by the accept loop; with the accept loop
    idle and the last worker gone, the counter is back at zero and nothing is open. *)
Theorem pool_exact (p : pool) : pool_reachable p ->
  0 <= pl_active p <= PROXYD_MAX_THREADS /\ Z.of_nat (length (pl_workers p)) <= pl_active p /\
  NoDup (held p) /\ (forall fd, fd ∈ pl_open p <-> fd ∈ held p) /\
  (pl_acc p = Idle -> pl_workers p = [] -> pl_active p = 0 /\ pl_open p = []).
Proof.
  intros Hr. assert (Hi : pool_inv p).
  { revert Hr. unfold pool_reachable. apply (rtc_ind_r (fun q => pool_inv q)).
    - split_and!; [constructor|done|done|]. by vm_compute.
    - intros q q' _ Hs Hq. by eapply pool_step_inv. }
  destruct Hi as (Hn & Hp & Hc & Hb). assert (0 <= counted (pl_acc p)) by (destruct (pl_acc p); cbn; lia).
  split_and!; [lia| |lia|done| |].
  - etransitivity; [exact Hb|]. destruct (pl_acc p); cbn; unfold PROXYD_MAX_THREADS; lia.
  - intros fd. by rewrite Hp.
  - intros Ha Hw. rewrite Ha, Hw in Hc. split; [done|]. apply Permutation_nil_r. unfold held in Hp. by rewrite Hp, Ha, Hw.
Qed.

(** Two connections served, the second while the first is being closed. *)
Lemma pool_exact_witness : exists p, pool_reachable p /\ pl_open p = [8] /\ pl_active p = 2 /\ NoDup (held p) /\
  (Z.of_nat (length (pl_workers p)) <= 2).
Proof.
  exists {| pl_acc := Idle; pl_active := 2; pl_workers := [Some 8; None]; pl_open := [8] |}.
  assert (Hr : pool_reachable {| pl_acc := Idle; pl_active := 2; pl_workers := [Some 8; None]; pl_open := [8] |}).
  { unfold pool_reachable, pool_start. eapply rtc_l; [left; apply (Accept 0 [] [] 7), not_elem_of_nil|].
    eapply rtc_l; [left; by apply HasRoom|]. eapply rtc_l; [left; apply Count|]. eapply rtc_l; [left; apply Create|].
    eapply rtc_l; [left; apply (Accept _ _ _ 8); by apply (bool_decide_unpack _)|]. eapply rtc_l; [left; by apply HasRoom|].
    eapply rtc_l; [left; apply Count|]. eapply rtc_l; [left; apply Create|]. cbn.
    eapply rtc_l; [right; apply (WorkerCloses Idle 2 [Some 8] [] [8; 7] 7)|]. apply rtc_refl. }
  destruct (pool_exact _ Hr) as (_ & Hl & Hn & _). split_and!; [exact Hr|reflexivity|reflexivity|exact Hn|exact Hl].
Defined.
End Workers.

(** ** Witnesses *)

Definition s_request : text :=
  chars "POST /api/rpc HTTP/1.1" ++ CRLF ++ chars "Host: lab:8443" ++ CRLF ++ chars "x-pw-request: 1" ++ CRLF ++
  chars "Content-length: 2" ++ CRLF ++ CRLF ++ chars "{}".
(** Cut inside the blank line. *)
Definition s_pieces : list text := [take 30 s_request; take 46 (drop 30 s_request); drop 76 s_request].

Lemma read_request_exact_witness :
  request_of 1000 (concat s_pieces) = Some (78, 2)%nat /\
  exists buf, read_request 1000 (timely s_pieces) = Ok (buf, 78%nat, 2%nat) /\ take 80 buf = s_request.
Proof.
  assert (E : request_of 1000 (concat s_pieces) = Some (78, 2)%nat) by (vm_compute; reflexivity).
  split; [exact E|]. pose proof (read_request_exact 1000 s_pieces) as H. rewrite E in H.
  destruct H as (buf & H1 & _ & H3); [repeat constructor; vm_compute; discriminate|apply Nat.leb_le; vm_compute; reflexivity|].
  exists buf. split; [exact H1|]. etransitivity; [exact H3|vm_compute; reflexivity].
Defined.

(** A daemon that answers every frame with the same one. *)
Definition s_link (answer : text) : daemon_link unit := {|
  dl_path := "/run/x"; dl_socket _ := true; dl_connect _ := None; dl_writes _ := replicate 30 (Xfer 9);
  dl_daemon _ d := (d, frame_hdr (Z.of_nat (length answer)) ++ text_bytes answer); dl_reads _ := replicate 30 (Xfer 9) |}.
Definition s_proxy (answer : text) : proxy_env unit :=
  {| pe_listen := chars "10.0.0.1"; pe_allowed := [chars "lab"]; pe_assets := []; pe_version := []; pe_link := s_link answer |}.

Lemma relay_guarded_witness :
  let e := s_proxy (chars "unauthorized") in
  let st := {| pb_enforce := true; pb_ok := Some 100 |} in
  let r := serve e 200 st tt (timely s_pieces) in
  r.2 = Some (chars "{}") /\ (probe_daemon_secret (pe_link e) tt).2 = 1.
Proof.
  intros e st r. destruct r as [[[st' d'] reply] b] eqn:E. pose proof E as E'. vm_compute in E'. injection E' as <- <- <- <-.
  split; [reflexivity|]. destruct (relay_guarded e 200 st _ _ _ _ _ _ E) as (_ & _ & _ & _ & _ & _ & _ & _ & _ & _ & H).
  destruct (H eq_refl) as [(ts & Hts & Hlt)|Hp]; [|exact Hp]. injection Hts as <-. vm_compute in Hlt. discriminate.
Defined.

#[local, refine] Instance s_inet_public : InetPton := {|
  inet_pton4 := fun s => if str_eq s "10.0.0.1" then Some 0x0A000001 else None;
  inet_pton6 := fun _ => None |}.
Proof.
  - intros s a. unfold str_eq. case_bool_decide; [|done]. intros [= <-]. unfold is_w. lia.
  - done.
Defined.

Definition s_opts : proxyd_opts := set_listen default_opts (chars "10.0.0.1") 443.

Lemma public_relay_confirmed_witness :
  exists st0 st', start_gate s_opts 1 1000 = Ok st0 /\
    auth_probe_current 1100 1 (run_probes [(1070, 0)] st0) = (st', true) /\ po_no_tls s_opts = false.
Proof.
  eexists _, _. split; [vm_compute; reflexivity|]. split; [vm_compute; reflexivity|].
  eapply (public_relay_confirmed s_opts 1 1000 0x0A000001 _ _ [(1070, 0)] 1100 1);
    [reflexivity|vm_compute; discriminate|reflexivity|vm_compute; reflexivity..].
Defined.
