(* ===== verification/Sfp.v ===== *)
(** * SFP+ module management

    Models [sw/libpacketwyrm/src/sfp.c]: the software I2C bit-bang over
    [REG_SFP_I2C], the random read, the byte-wise write with ACK polling, the
    password probe and the SFF-8472 decode. The doubles of [struct pw_sfp_info]
    are IEEE binary64 values ([SpecFloat]). The module in the cage and the
    register that drives its two wires are the interface class [SfpCage]. *)

From Stdlib Require Import SpecFloat.
From S2P Require Import Prelude StateMonad Types Csr Backend.

(** ** The bit-bang bus *)

Record i2c_bus := {
  b_scl : Z;       (* drive-low bit indices of the port *)
  b_sda : Z;
  b_drive : Z;     (* shadow of the 4-bit drive-low register *)
  b_err : bool     (* latched: a CSR access failed *)
}.
Definition set_drive (d : Z) (b : i2c_bus) : i2c_bus :=
  {| b_scl := b_scl b; b_sda := b_sda b; b_drive := d; b_err := b_err b |}.
Definition latch (s : pw_status) (b : i2c_bus) : i2c_bus :=
  {| b_scl := b_scl b; b_sda := b_sda b; b_drive := b_drive b;
     b_err := if decide (s = PW_OK) then b_err b else true |}.

(** The bounds of the clock-stretch wait and of the write-cycle poll. *)
Definition SCL_POLLS : nat := 100.
Definition ACK_POLLS : nat := 50.

Section Driver.
Context {C : Type} (write32 : Z -> Z -> C -> C * pw_status)
  (read32 : Z -> C -> C * (pw_status * Z)).

Definition i2c_apply (s : C * i2c_bus) : C * i2c_bus :=
  let '(c, b) := s in
  let '(c, st) := write32 PWFPGA_REG_SFP_I2C (b_drive b) c in (c, latch st b).

(** [level] releases the line (the pull-up raises it), otherwise it is driven low. *)
Definition set_line (bit : Z) (level : bool) (s : C * i2c_bus) : C * i2c_bus :=
  let '(c, b) := s in
  i2c_apply (c, set_drive
    (if level then b_drive b &&& u8 (not32 (1 <<< bit)) else b_drive b ||| u8 (1 <<< bit)) b).

Definition get_line (bit : Z) (s : C * i2c_bus) : (C * i2c_bus) * bool :=
  let '(c, b) := s in
  let '(c, (st, v)) := read32 PWFPGA_REG_SFP_I2C c in
  ((c, latch st b), ztrue ((v >>> (16 + bit)) &&& 1)).

Definition set_scl (level : bool) (s : C * i2c_bus) : C * i2c_bus := set_line (b_scl s.2) level s.
Definition set_sda (level : bool) (s : C * i2c_bus) : C * i2c_bus := set_line (b_sda s.2) level s.

Fixpoint stretch_wait (fuel : nat) (s : C * i2c_bus) : C * i2c_bus :=
  match fuel with
  | O => s
  | S fuel =>
      let '(s, high) := get_line (b_scl s.2) s in
      if high then s else stretch_wait fuel s
  end.
Definition scl_release_wait (s : C * i2c_bus) : C * i2c_bus :=
  stretch_wait SCL_POLLS (set_scl true s).

Definition i2c_start (s : C * i2c_bus) : C * i2c_bus :=
  set_scl false (set_sda false (scl_release_wait (set_sda true s))).

Definition i2c_stop (s : C * i2c_bus) : C * i2c_bus :=
  set_sda true (scl_release_wait (set_sda false s)).

(** The bits of a byte, the most significant first. *)
Definition bits8 (v : Z) : list bool :=
  (fun i => ztrue ((v >>> i) &&& 1)) <$> [7; 6; 5; 4; 3; 2; 1; 0].

(** One bit out: SDA while SCL is low, then a clock pulse. *)
Definition put_bit (s : C * i2c_bus) (bit : bool) : C * i2c_bus :=
  set_scl false (scl_release_wait (set_sda bit s)).

(** [true] when the slave did not acknowledge. *)
Definition i2c_write_byte (v : Z) (s : C * i2c_bus) : (C * i2c_bus) * bool :=
  let s := foldl put_bit s (bits8 v) in
  let s := scl_release_wait (set_sda true s) in
  let '(s, ack) := get_line (b_sda s.2) s in
  (set_scl false s, ack).

(** One bit in. *)
Definition get_bit (sv : (C * i2c_bus) * Z) (_ : nat) : (C * i2c_bus) * Z :=
  let '(s, v) := sv in
  let s := scl_release_wait s in
  let '(s, l) := get_line (b_sda s.2) s in
  (set_scl false s, u8 ((v <<< 1) ||| (b2z l &&& 1))).

Definition i2c_read_byte (ack : bool) (s : C * i2c_bus) : (C * i2c_bus) * Z :=
  let '(s, v) := foldl get_bit (set_sda true s, 0) (seq 0 8) in
  let s := set_sda (negb ack) s in
  (set_sda true (set_scl false (scl_release_wait s)), v).

(** ** Transactions *)

Definition act (f : C * i2c_bus -> C * i2c_bus) : stm (C * i2c_bus) pw_status unit :=
  fun s => (f s, Ok tt).

(** [if (i2c_write_byte(..)) { i2c_stop(..); return b.err ? .. : ..; }] *)
Definition send (v : Z) : stm (C * i2c_bus) pw_status unit := fun s =>
  let '(s, nak) := i2c_write_byte v s in
  if nak then let s := i2c_stop s in (s, Err (if b_err s.2 then PW_E_BACKEND else PW_E_IO))
  else (s, Ok tt).

Definition read_bytes (len : Z) : stm (C * i2c_bus) pw_status (list Z) :=
  st_for (fun i buf s => let '(s, v) := i2c_read_byte (i + 1 <? len) s in (s, Ok (buf ++ [v])))
    (seqZ 0 len) [].

Definition check_err : stm (C * i2c_bus) pw_status unit := fun s =>
  (s, if b_err s.2 then Err PW_E_BACKEND else Ok tt).

(** The bus object of a call: both lines released. *)
Definition open_bus (port : Z) (c : C) : C * i2c_bus :=
  set_sda true (set_scl true
    (c, {| b_scl := port * 2; b_sda := port * 2 + 1; b_drive := 0; b_err := false |})).

Definition sfp_read (port i2c_addr offset len : Z) (c : C) : C * result pw_status (list Z) :=
  let '(s, r) :=
    (act i2c_start ;;
     send (u8 (i2c_addr <<< 1)) ;;
     send offset ;;
     act i2c_start ;;
     send (u8 ((i2c_addr <<< 1) ||| 1)) ;;
     buf ← read_bytes len;
     act i2c_stop ;;
     check_err ;;
     mret buf) (open_bus port c) in
  (s.1, r).

(** The write-cycle poll: [true] when the address was acknowledged again. *)
Fixpoint ack_poll (fuel : nat) (i2c_addr : Z) (s : C * i2c_bus) : (C * i2c_bus) * bool :=
  match fuel with
  | O => (s, false)
  | S fuel =>
      let '(s, nak) := i2c_write_byte (u8 (i2c_addr <<< 1)) (i2c_start s) in
      let s := i2c_stop s in
      if b_err s.2 then (s, false) else
      if nak then ack_poll fuel i2c_addr s else (s, true)
  end.

Definition write_cycle (i2c_addr : Z) : stm (C * i2c_bus) pw_status unit := fun s =>
  let '(s, done) := ack_poll ACK_POLLS i2c_addr s in
  (s, if b_err s.2 then Err PW_E_BACKEND else if done then Ok tt else Err PW_E_IO).

(** One byte of [pw_sfp_write]. *)
Definition write_one (i2c_addr offset : Z) (ib : nat * Z) (_ : unit) :
    stm (C * i2c_bus) pw_status unit :=
  act i2c_start ;;
  send (u8 (i2c_addr <<< 1)) ;;
  send (u8 (offset + Z.of_nat ib.1)) ;;
  send ib.2 ;;
  act i2c_stop ;;
  write_cycle i2c_addr.

Definition sfp_write (port i2c_addr offset : Z) (buf : list Z) (c : C) : C * result pw_status unit :=
  let '(s, r) := st_for (write_one i2c_addr offset) (imap pair buf) tt (open_bus port c) in (s.1, r).
End Driver.

(** ** Entry points *)

Section Entry.
Context {C : Type} (o : pw_card_backend_ops C).

(** [has_buf] is [buf != NULL]. *)
Definition pw_sfp_read (port i2c_addr offset : Z) (has_buf : bool) (len : Z) (c : C) :
    C * result pw_status (list Z) :=
  match op_write32 o, op_read32 o with
  | Some w, Some r =>
      if (port <? 0) || (1 <? port) || negb has_buf then (c, Err PW_E_INVAL) else
      if 256 <? offset + len then (c, Err PW_E_INVAL) else
      sfp_read w r port i2c_addr offset len c
  | _, _ => (c, Err PW_E_NOT_IMPLEMENTED)
  end.

(** [buf] is [None] for NULL. *)
Definition pw_sfp_write (port i2c_addr offset : Z) (buf : option (list Z)) (c : C) :
    C * result pw_status unit :=
  match op_write32 o, op_read32 o with
  | Some w, Some r =>
      match buf with
      | None => (c, Err PW_E_INVAL)
      | Some buf =>
          if (port <? 0) || (1 <? port) then (c, Err PW_E_INVAL) else
          if 256 <? offset + Z.of_nat (length buf) then (c, Err PW_E_INVAL) else
          sfp_write w r port i2c_addr offset buf c
      end
  | _, _ => (c, Err PW_E_NOT_IMPLEMENTED)
  end.

Definition SFP_PW_ADDR : Z := 0x51.
Definition SFP_PW_OFFSET : Z := 0x7B.
Definition SFP_PW_TEST_ADDR : Z := 0x50.
Definition SFP_PW_TEST_OFF : Z := 0x3B.

Definition password_bytes (password : Z) : list Z :=
  [u8 (password >>> 24); u8 (password >>> 16); u8 (password >>> 8); u8 password].

Definition pw_sfp_unlock (port password : Z) (c : C) : C * result pw_status unit :=
  pw_sfp_write port SFP_PW_ADDR SFP_PW_OFFSET (Some (password_bytes password)) c.

(** [Ok] carries [*unlocked]; on an error it is [false]. *)
Definition pw_sfp_try_write_password (port password : Z) (c : C) : C * result pw_status bool :=
  match pw_sfp_unlock port password c with
  | (c, Err s) => (c, Err s)
  | (c, Ok _) =>
      match pw_sfp_read port SFP_PW_TEST_ADDR SFP_PW_TEST_OFF true 1 c with
      | (c, Ok [orig]) =>
          let test := u8 (orig ^^^ 0xFF) in
          match pw_sfp_write port SFP_PW_TEST_ADDR SFP_PW_TEST_OFF (Some [test]) c with
          | (c, Err _) => (c, Ok false)
          | (c, Ok _) =>
              match pw_sfp_read port SFP_PW_TEST_ADDR SFP_PW_TEST_OFF true 1 c with
              | (c, Ok [rb]) =>
                  if rb =? test then
                    let '(c, _) := pw_sfp_write port SFP_PW_TEST_ADDR SFP_PW_TEST_OFF (Some [orig]) c in
                    (c, Ok true)
                  else (c, Ok false)
              | (c, _) => (c, Err PW_E_IO)
              end
          end
      | (c, _) => (c, Err PW_E_IO)
      end
  end.

(** ** Decode *)

Record pw_sfp_info := {
  si_present : bool;
  si_identifier : Z;
  si_connector : Z;
  si_vendor : list Z;
  si_part : list Z;
  si_revision : list Z;
  si_serial : list Z;
  si_date_code : list Z;
  si_br_nominal : Z;
  si_dom_supported : bool;
  si_dom_external_cal : bool;
  si_dom_valid : bool;
  si_temp_c : spec_float;
  si_vcc_v : spec_float;
  si_tx_bias_ma : spec_float;
  si_tx_power_mw : spec_float;
  si_rx_power_mw : spec_float
}.

Definition f0 : spec_float := S754_zero false.
Definition zero_sfp_info : pw_sfp_info :=
  {| si_present := false; si_identifier := 0; si_connector := 0; si_vendor := []; si_part := [];
     si_revision := []; si_serial := []; si_date_code := []; si_br_nominal := 0;
     si_dom_supported := false; si_dom_external_cal := false; si_dom_valid := false;
     si_temp_c := f0; si_vcc_v := f0; si_tx_bias_ma := f0; si_tx_power_mw := f0; si_rx_power_mw := f0 |}.

(** A field as the characters before its NUL: trailing blanks and NULs go, the
    string ends at the first NUL that is left. *)
Fixpoint trim_tail (rev : list Z) : list Z :=
  match rev with
  | x :: r => if (x =? 0x20) || (x =? 0) then trim_tail r else rev
  | [] => []
  end.
Fixpoint until_nul (l : list Z) : list Z :=
  match l with x :: l => if x =? 0 then [] else x :: until_nul l | [] => [] end.
Definition copy_ascii (dst_sz : nat) (src : list Z) (n : nat) : list Z :=
  let n := if (dst_sz <=? n)%nat then (dst_sz - 1)%nat else n in
  until_nul (rev (trim_tail (rev (take n src)))).

Definition byte (l : list Z) (i : nat) : Z := nth i l 0.
Definition be16 (l : list Z) (i : nat) : Z := u16 ((byte l i <<< 8) ||| byte l (i + 1)).

(** [(double)z], [(int16_t)z], and the product and quotient of doubles. *)
Definition f64 (z : Z) : spec_float := binary_normalize 53 1024 z 0 false.
Definition i16 (z : Z) : Z := if z <? 2 ^ 15 then z else z - 2 ^ 16.
Definition fmul : spec_float -> spec_float -> spec_float := SFmul 53 1024.
Definition fdiv : spec_float -> spec_float -> spec_float := SFdiv 53 1024.
(** The literals [0.0001] and [0.002]. *)
Definition f_1e_4 : spec_float := S754_finite false 0x1a36e2eb1c432d (-66).
Definition f_2e_3 : spec_float := S754_finite false 0x10624dd2f1a9fc (-61).

(** The base ID page, then the DOM page when it was read. *)
Definition decode_id (a0 : list Z) : pw_sfp_info :=
  {| si_present := true;
     si_identifier := byte a0 0; si_connector := byte a0 2; si_br_nominal := byte a0 12;
     si_vendor := copy_ascii 17 (drop 20 a0) 16; si_part := copy_ascii 17 (drop 40 a0) 16;
     si_revision := copy_ascii 5 (drop 56 a0) 4; si_serial := copy_ascii 17 (drop 68 a0) 16;
     si_date_code := copy_ascii 9 (drop 84 a0) 8;
     si_dom_supported := ztrue (byte a0 92 &&& 0x40);
     si_dom_external_cal := ztrue (byte a0 92 &&& 0x10);
     si_dom_valid := false;
     si_temp_c := f0; si_vcc_v := f0; si_tx_bias_ma := f0; si_tx_power_mw := f0; si_rx_power_mw := f0 |}.

Definition decode_dom (a2 : list Z) (i : pw_sfp_info) : pw_sfp_info :=
  {| si_present := si_present i; si_identifier := si_identifier i; si_connector := si_connector i;
     si_vendor := si_vendor i; si_part := si_part i; si_revision := si_revision i;
     si_serial := si_serial i; si_date_code := si_date_code i; si_br_nominal := si_br_nominal i;
     si_dom_supported := si_dom_supported i; si_dom_external_cal := si_dom_external_cal i;
     si_dom_valid := true;
     si_temp_c := fdiv (f64 (i16 (be16 a2 0))) (f64 256);
     si_vcc_v := fmul (f64 (be16 a2 2)) f_1e_4;
     si_tx_bias_ma := fmul (f64 (be16 a2 4)) f_2e_3;
     si_tx_power_mw := fmul (f64 (be16 a2 6)) f_1e_4;
     si_rx_power_mw := fmul (f64 (be16 a2 8)) f_1e_4 |}.

Definition pw_sfp_probe (port : Z) (c : C) : C * result pw_status pw_sfp_info :=
  match pw_sfp_read port 0x50 0 true 96 c with
  | (c, Err PW_E_IO) => (c, Ok zero_sfp_info)
  | (c, Err s) => (c, Err s)
  | (c, Ok a0) =>
      let i := decode_id a0 in
      if si_dom_supported i && negb (si_dom_external_cal i) then
        match pw_sfp_read port 0x51 96 true 10 c with
        | (c, Ok a2) => (c, Ok (decode_dom a2 i))
        | (c, Err _) => (c, Ok i)
        end
      else (c, Ok i)
  end.
End Entry.

(** ** What the bus operations preserve *)

(** A property of card and bus that the two line accesses preserve is preserved by
    everything built from them. *)
Section Preserved.
Context {C : Type} (w : Z -> Z -> C -> C * pw_status) (r : Z -> C -> C * (pw_status * Z)).
Context (P : C * i2c_bus -> Prop).
Context (HS : forall bit l s, P s -> P (set_line w bit l s)) (HG : forall bit s, P s -> P (get_line r bit s).1).

Lemma inv_scl l s : P s -> P (set_scl w l s). Proof. apply HS. Qed.
Lemma inv_sda l s : P s -> P (set_sda w l s). Proof. apply HS. Qed.
Lemma inv_stretch fuel : forall s, P s -> P (stretch_wait r fuel s).
Proof.
  induction fuel as [|fuel IH]; intros s Hs; [done|]. cbn [stretch_wait].
  pose proof (HG (b_scl s.2) s Hs) as H. destruct (get_line _ _ s) as [s1 []]; auto.
Qed.
Lemma inv_release s : P s -> P (scl_release_wait w r s).
Proof. intros. by apply inv_stretch, inv_scl. Qed.
#[local] Hint Resolve inv_scl inv_sda inv_release : core.
#[local] Opaque set_scl set_sda scl_release_wait get_line.

Lemma inv_start s : P s -> P (i2c_start w r s).
Proof. unfold i2c_start. auto. Qed.
Lemma inv_stop s : P s -> P (i2c_stop w r s).
Proof. unfold i2c_stop. auto. Qed.

Lemma inv_foldl {A B} (Q : A -> Prop) (f : A -> B -> A) l :
  (forall a b, Q a -> Q (f a b)) -> forall a, Q a -> Q (foldl f a l).
Proof. intros Hf. induction l; simpl; auto. Qed.

Lemma inv_write_byte v s : P s -> P (i2c_write_byte w r v s).1.
Proof.
  intros Hs. unfold i2c_write_byte.
  assert (H8 : P (foldl (put_bit w r) s (bits8 v))).
  { apply (inv_foldl P); [|done]. unfold put_bit. auto. }
  set (s8 := foldl _ s _) in *. clearbody s8. cbv zeta.
  set (s9 := scl_release_wait _ _ _). assert (H9 : P s9) by (unfold s9; auto). clearbody s9.
  pose proof (HG (b_sda s9.2) s9 H9). destruct (get_line _ _ _) as [s10 l]. simpl in *. auto.
Qed.

Lemma inv_get_bit sv i : P sv.1 -> P (get_bit w r sv i).1.
Proof.
  destruct sv as [s a]. intros Hs. unfold get_bit. cbn [fst] in Hs.
  set (s9 := scl_release_wait _ _ _). assert (H9 : P s9) by (unfold s9; auto). clearbody s9.
  pose proof (HG (b_sda s9.2) s9 H9). destruct (get_line _ _ _) as [s10 l]. simpl in *. auto.
Qed.

Lemma inv_read_byte ack s : P s -> P (i2c_read_byte w r ack s).1.
Proof.
  intros Hs. unfold i2c_read_byte.
  assert (H8 : P (foldl (get_bit w r) (set_sda w true s, 0) (seq 0 8)).1).
  { apply (inv_foldl (fun sv => P sv.1)); [apply inv_get_bit|cbn [fst]; auto]. }
  destruct (foldl _ _ _) as [s8 v]. cbn [fst] in *. auto.
Qed.
#[local] Hint Resolve inv_start inv_stop inv_write_byte inv_read_byte : core.
#[local] Opaque i2c_start i2c_stop i2c_write_byte i2c_read_byte.

Lemma inv_poll a fuel : forall s, P s -> P (ack_poll w r fuel a s).1.
Proof.
  induction fuel as [|fuel IH]; intros s Hs; [done|]. cbn [ack_poll].
  pose proof (inv_write_byte (u8 (a <<< 1)) _ (inv_start s Hs)) as H.
  destruct (i2c_write_byte _ _ _ _) as [s1 nak]. cbn [fst] in H. cbv zeta.
  apply inv_stop in H. destruct (b_err _); [done|]. destruct nak; auto.
Qed.

(** The steps of a read transaction. *)
Definition preserves {A} (m : stm (C * i2c_bus) pw_status A) : Prop := forall s, P s -> P (m s).1.

Lemma preserves_bind {A B} (m : stm _ pw_status A) (f : A -> stm _ pw_status B) :
  preserves m -> (forall a, preserves (f a)) -> preserves (m ≫= f).
Proof.
  intros Hm Hf s Hs. unfold mbind, stm_bind. specialize (Hm s Hs). destruct (m s) as [s1 [a|e]]; [|done].
  by apply Hf.
Qed.
Lemma preserves_act f : (forall s, P s -> P (f s)) -> preserves (act f).
Proof. intros Hf s Hs. by apply Hf. Qed.
Lemma preserves_send v : preserves (send w r v).
Proof.
  intros s Hs. unfold send. pose proof (inv_write_byte v s Hs) as H.
  destruct (i2c_write_byte _ _ v s) as [s1 []]; cbn [fst] in *; auto.
Qed.
Lemma preserves_read_bytes len : preserves (read_bytes w r len).
Proof.
  unfold read_bytes. set (f := fun i buf s => _). assert (Hf : forall i buf, preserves (f i buf)).
  { intros i buf s Hs. unfold f. pose proof (inv_read_byte (i + 1 <? len) s Hs) as H.
    by destruct (i2c_read_byte _ _ _ s) as [s1 v]. }
  clearbody f. generalize (@nil Z) as buf. induction (seqZ 0 len) as [|i l IH]; intros buf; [by intros s Hs|].
  by apply preserves_bind.
Qed.

Lemma inv_sfp_read port a off len c b0 c' : P (c, b0) -> (forall b b' c, P (c, b) -> P (c, b')) ->
  (sfp_read w r port a off len c).1 = c' -> exists b, P (c', b).
Proof.
  intros Hc Hb <-. unfold sfp_read, open_bus.
  match goal with |- context [(?m ≫= _) ?s] => set (s0 := s) end.
  assert (H0 : P s0) by (unfold s0; apply inv_sda, inv_scl; by eapply Hb). clearbody s0.
  match goal with |- context [let '(_, _) := ?m s0 in _] => assert (Hm : preserves m) end.
  { repeat (apply preserves_bind; [first [by apply preserves_act; auto | apply preserves_send
      | apply preserves_read_bytes | by intros s Hs] |intros]). by intros s Hs. }
  specialize (Hm s0 H0). match type of Hm with P ?x.1 => destruct x as [s1 res] end. exists s1.2. cbn [fst] in *. by destruct s1.
Qed.
End Preserved.
