(* ===== verification/SfpBus.v ===== *)
(** * The SFP module on its two-wire bus

    The slave side of the bus as an automaton on the levels of SCL and SDA
    (address, offset, data and acknowledge phases, START and STOP, the write
    cycle), the interface class [SfpCage] of the card register that drives the
    wires, and what the bit-bang routines of [Sfp] do to the automaton. *)

From S2P Require Import Prelude StateMonad Types Csr Backend Sfp.

(** ** The module *)

(** What a module promises: the device addresses it answers, its memory as seen
    by reads, which data bytes it acknowledges, what a written byte does (a
    protected byte, or a password entry, need not behave like memory), and for how
    many addressings the write cycle that follows a write refuses. *)
Record sfp_module (M : Type) := {
  m_answers : Z -> bool;
  m_read : M -> Z -> Z -> Z;
  m_takes : M -> Z -> Z -> bool;
  m_write : M -> Z -> Z -> Z -> M;
  m_cycle : nat
}.
Arguments m_answers {M}. Arguments m_read {M}. Arguments m_takes {M}.
Arguments m_write {M}. Arguments m_cycle {M}.

Inductive i2c_role := RAddr | ROffset | RData.

Inductive i2c_phase :=
| PIdle
| PRecv (role : i2c_role) (n : nat) (v : Z)  (* [n] bits of a byte are in *)
| PAck (role : i2c_role) (v : Z)             (* the slave pulls SDA low *)
| PSend (n : nat) (v : Z)                    (* bit [n] of [v] is on the wire *)
| PMasterAck (ack : option bool).            (* the master's acknowledge, once sampled *)

Record slave (M : Type) := {
  s_scl : bool;            (* wire levels as the slave last saw them *)
  s_sda : bool;            (* SDA as the master drives it *)
  s_phase : i2c_phase;
  s_dev : Z;               (* the device address of the transfer *)
  s_ptr : Z;               (* its address pointer *)
  s_pend : list (Z * Z * Z);
  s_busy : nat;            (* addressings the write cycle still refuses *)
  s_mem : M
}.
Arguments s_scl {M}. Arguments s_sda {M}. Arguments s_phase {M}. Arguments s_dev {M}.
Arguments s_ptr {M}. Arguments s_pend {M}. Arguments s_busy {M}. Arguments s_mem {M}.

Section Slave.
Context {M : Type} (md : sfp_module M).

Definition pulls (x : slave M) : bool :=
  match s_phase x with
  | PAck _ _ => true
  | PSend n v => negb (Z.testbit v (Z.of_nat n))
  | _ => false
  end.

(** SDA on the wire. *)
Definition wire_sda (x : slave M) : bool := s_sda x && negb (pulls x).

Definition with_lines (scl sda : bool) (x : slave M) : slave M :=
  {| s_scl := scl; s_sda := sda; s_phase := s_phase x; s_dev := s_dev x; s_ptr := s_ptr x;
     s_pend := s_pend x; s_busy := s_busy x; s_mem := s_mem x |}.
Definition with_phase (p : i2c_phase) (x : slave M) : slave M :=
  {| s_scl := s_scl x; s_sda := s_sda x; s_phase := p; s_dev := s_dev x; s_ptr := s_ptr x;
     s_pend := s_pend x; s_busy := s_busy x; s_mem := s_mem x |}.
Definition with_dev (d : Z) (x : slave M) : slave M :=
  {| s_scl := s_scl x; s_sda := s_sda x; s_phase := s_phase x; s_dev := d; s_ptr := s_ptr x;
     s_pend := s_pend x; s_busy := s_busy x; s_mem := s_mem x |}.
Definition with_ptr (p : Z) (x : slave M) : slave M :=
  {| s_scl := s_scl x; s_sda := s_sda x; s_phase := s_phase x; s_dev := s_dev x; s_ptr := p;
     s_pend := s_pend x; s_busy := s_busy x; s_mem := s_mem x |}.
Definition with_pend (l : list (Z * Z * Z)) (x : slave M) : slave M :=
  {| s_scl := s_scl x; s_sda := s_sda x; s_phase := s_phase x; s_dev := s_dev x; s_ptr := s_ptr x;
     s_pend := l; s_busy := s_busy x; s_mem := s_mem x |}.
Definition with_mem (m : M) (x : slave M) : slave M :=
  {| s_scl := s_scl x; s_sda := s_sda x; s_phase := s_phase x; s_dev := s_dev x; s_ptr := s_ptr x;
     s_pend := s_pend x; s_busy := s_busy x; s_mem := m |}.
Definition with_busy (n : nat) (x : slave M) : slave M :=
  {| s_scl := s_scl x; s_sda := s_sda x; s_phase := s_phase x; s_dev := s_dev x; s_ptr := s_ptr x;
     s_pend := s_pend x; s_busy := n; s_mem := s_mem x |}.

Definition next_byte (x : slave M) : slave M :=
  with_ptr ((s_ptr x + 1) mod 256) (with_phase (PSend 7 (m_read md (s_mem x) (s_dev x) (s_ptr x))) x).

(** SCL rises: a bit is sampled. *)
Definition on_rise (x : slave M) : slave M :=
  match s_phase x with
  | PRecv k n v => with_phase (PRecv k (S n) (2 * v + b2z (s_sda x))) x
  | PMasterAck _ => with_phase (PMasterAck (Some (negb (s_sda x)))) x
  | _ => x
  end.

(** A whole byte is in: acknowledge it or let go of the bus. *)
Definition byte_in (k : i2c_role) (v : Z) (x : slave M) : slave M :=
  match k with
  | RAddr =>
      if m_answers md (v / 2) then
        match s_busy x with
        | O => with_dev (v / 2) (with_phase (PAck RAddr v) x)
        | S n => with_busy n (with_phase PIdle x)
        end
      else with_phase PIdle x
  | ROffset => with_phase (PAck ROffset v) x
  | RData =>
      if m_takes md (s_mem x) (s_dev x) (s_ptr x) then with_phase (PAck RData v) x
      else with_phase PIdle x
  end.

(** SCL falls: the slave changes its output. *)
Definition on_fall (x : slave M) : slave M :=
  match s_phase x with
  | PRecv k 8 v => byte_in k v x
  | PAck RAddr v => if Z.odd v then next_byte x else with_phase (PRecv ROffset 0 0) x
  | PAck ROffset v => with_ptr v (with_phase (PRecv RData 0 0) x)
  | PAck RData v =>
      with_ptr ((s_ptr x + 1) mod 256)
        (with_pend (s_pend x ++ [(s_dev x, s_ptr x, v)]) (with_phase (PRecv RData 0 0) x))
  | PSend (S n) v => with_phase (PSend n v) x
  | PSend O v => with_phase (PMasterAck None) x
  | PMasterAck (Some true) => next_byte x
  | PMasterAck _ => with_phase PIdle x
  | _ => x
  end.

Definition on_start (x : slave M) : slave M := with_pend [] (with_phase (PRecv RAddr 0 0) x).

(** A STOP commits the bytes of a write and starts the write cycle. *)
Definition on_stop (x : slave M) : slave M :=
  let commit m p := m_write md m p.1.1 p.1.2 p.2 in
  with_pend [] (with_phase PIdle
    (match s_pend x with
     | [] => x
     | l => with_busy (m_cycle md) (with_mem (foldl commit (s_mem x) l) x)
     end)).

(** The master sets the levels of both lines. *)
Definition slave_step (x : slave M) (scl sda : bool) : slave M :=
  let x' := with_lines scl sda x in
  match s_scl x, scl with
  | true, true =>
      match wire_sda x, wire_sda x' with
      | true, false => on_start x'
      | false, true => on_stop x'
      | _, _ => x'
      end
  | false, true => on_rise x'
  | true, false => on_fall x'
  | false, false => x'
  end.
End Slave.

(** ** The card register *)

(** A cage of a card in order: a write of [REG_SFP_I2C] sets the lines of the
    port; the module may hold SCL low for fewer reads than the driver waits; a
    read returns the levels of the wires. *)
Class SfpCage {C M : Type} (w : Z -> Z -> C -> C * pw_status)
    (r : Z -> C -> C * (pw_status * Z)) (port : Z) (md : sfp_module M) := {
  sf_bus : C -> slave M;
  sf_hold : C -> nat;
  sf_byte : forall m d q, is_u8 (m_read md m d q);
  sf_cycle : (m_cycle md < ACK_POLLS)%nat;
  sf_write : forall c v, is_w 4 v -> sf_hold c = O ->
    let scl := negb (Z.testbit v (port * 2)) in
    let sda := negb (Z.testbit v (port * 2 + 1)) in
    exists c', w PWFPGA_REG_SFP_I2C v c = (c', PW_OK) /\ (sf_hold c' < SCL_POLLS)%nat /\
      (s_scl (sf_bus c) = true \/ scl = false -> sf_hold c' = O) /\
      sf_bus c' = slave_step md (sf_bus c) (scl && (sf_hold c' =? 0)%nat) sda;
  sf_read : forall c, exists c' v, r PWFPGA_REG_SFP_I2C c = (c', (PW_OK, v)) /\
    sf_hold c' = pred (sf_hold c) /\
    sf_bus c' = (if (sf_hold c =? 1)%nat then slave_step md (sf_bus c) true (s_sda (sf_bus c))
                 else sf_bus c) /\
    Z.testbit v (16 + port * 2) = s_scl (sf_bus c) /\
    Z.testbit v (16 + (port * 2 + 1)) = wire_sda (sf_bus c)
}.

(** ** The lines *)

Section Cage.
Context {C M : Type} {w : Z -> Z -> C -> C * pw_status} {r : Z -> C -> C * (pw_status * Z)}
  {port : Z} {md : sfp_module M} {HC : SfpCage w r port md} (Hport : port = 0 \/ port = 1).

Abbreviation step := (slave_step md).

(** The register value for two line levels. *)
Definition drive_of (scl sda : bool) : Z :=
  (if scl then 0 else 1 <<< (port * 2)) ||| (if sda then 0 else 1 <<< (port * 2 + 1)).

Definition bus_of (scl sda : bool) : i2c_bus :=
  {| b_scl := port * 2; b_sda := port * 2 + 1; b_drive := drive_of scl sda; b_err := false |}.

(** The driver and the slave agree on the wires. *)
Definition synced (s : C * i2c_bus) (x : slave M) : Prop :=
  sf_hold s.1 = O /\ sf_bus s.1 = x /\ s.2 = bus_of (s_scl x) (s_sda x).

Lemma step_lines x scl sda : s_scl (step x scl sda) = scl /\ s_sda (step x scl sda) = sda.
Proof.
  unfold slave_step, on_rise, on_fall, byte_in, next_byte, on_start, on_stop.
  destruct (s_scl x), scl; repeat case_match; done.
Qed.
Lemma step_scl x scl sda : s_scl (step x scl sda) = scl. Proof. apply step_lines. Qed.
Lemma step_sda x scl sda : s_sda (step x scl sda) = sda. Proof. apply step_lines. Qed.

Lemma drive_ok scl sda : is_w 4 (drive_of scl sda) /\
  negb (Z.testbit (drive_of scl sda) (port * 2)) = scl /\
  negb (Z.testbit (drive_of scl sda) (port * 2 + 1)) = sda.
Proof. unfold drive_of. destruct Hport as [-> | ->], scl, sda; (split; [by vm_compute; split|done]). Qed.

Lemma drive_sda (scl sda l : bool) :
  (if l then drive_of scl sda &&& u8 (not32 (1 <<< (port * 2 + 1)))
   else drive_of scl sda ||| u8 (1 <<< (port * 2 + 1))) = drive_of scl l.
Proof. unfold drive_of. by destruct Hport as [-> | ->], scl, sda, l. Qed.
Lemma drive_scl (scl sda l : bool) :
  (if l then drive_of scl sda &&& u8 (not32 (1 <<< (port * 2)))
   else drive_of scl sda ||| u8 (1 <<< (port * 2))) = drive_of l sda.
Proof. unfold drive_of. by destruct Hport as [-> | ->], scl, sda, l. Qed.

Lemma apply_ok c scl sda : sf_hold c = O -> exists c',
  i2c_apply w (c, bus_of scl sda) = (c', bus_of scl sda) /\ (sf_hold c' < SCL_POLLS)%nat /\
  (s_scl (sf_bus c) = true \/ scl = false -> sf_hold c' = O) /\
  sf_bus c' = step (sf_bus c) (scl && (sf_hold c' =? 0)%nat) sda.
Proof.
  intros Hh. destruct (drive_ok scl sda) as (Hw & H1 & H2).
  destruct (sf_write c (drive_of scl sda) Hw Hh) as (c' & Hx & ? & ? & Hb).
  rewrite H1, H2 in *. exists c'. unfold i2c_apply. cbn [b_drive bus_of]. by rewrite Hx.
Qed.

Lemma set_sda_eq l c scl sda :
  set_sda w l (c, bus_of scl sda) = i2c_apply w (c, bus_of scl l).
Proof. unfold set_sda, set_line, set_drive. simpl b_sda. simpl b_drive. by rewrite drive_sda. Qed.
Lemma set_scl_eq l c scl sda :
  set_scl w l (c, bus_of scl sda) = i2c_apply w (c, bus_of l sda).
Proof. unfold set_scl, set_line, set_drive. simpl b_scl. simpl b_drive. by rewrite drive_scl. Qed.

Lemma set_sda_ok l s x : synced s x -> synced (set_sda w l s) (step x (s_scl x) l).
Proof.
  destruct s as [c b]. intros (Hh & Hb & Hd). cbn [fst snd] in *. subst b.
  rewrite set_sda_eq. destruct (apply_ok c (s_scl x) l Hh) as (c' & -> & _ & H0 & Hb'). rewrite Hb in *. assert (Hh' : sf_hold c' = O) by (apply H0; destruct (s_scl x); auto).
  split; [done|]. cbn [fst snd]. rewrite Hb', Hh', andb_true_r. by rewrite step_scl, step_sda.
Qed.

Lemma scl_low_ok s x : synced s x -> synced (set_scl w false s) (step x false (s_sda x)).
Proof.
  destruct s as [c b]. intros (Hh & Hb & Hd). cbn [fst snd] in *. subst b.
  rewrite set_scl_eq. destruct (apply_ok c false (s_sda x) Hh) as (c' & -> & _ & H0 & Hb'). rewrite Hb in *.
  split; [by apply H0; right|]. cbn [fst snd]. rewrite Hb'. by rewrite step_scl, step_sda.
Qed.

Lemma line_bit v n : ztrue ((v >>> n) &&& 1) = Z.testbit v n.
Proof.
  rewrite Z.testbit_odd. change 1 with (Z.ones 1). rewrite Z.land_ones by lia.
  change (2 ^ 1) with 2. rewrite Zmod_odd. by destruct (Z.odd _).
Qed.

Lemma get_sda_ok s x : synced s x ->
  (get_line r (b_sda s.2) s).2 = wire_sda x /\ synced (get_line r (b_sda s.2) s).1 x.
Proof.
  destruct s as [c b]. intros (Hh & Hb & Hd). cbn [fst snd] in *. subst b.
  unfold get_line. cbn [b_sda bus_of].
  destruct (sf_read c) as (c' & v & Hx & Hh' & Hb' & _ & H2). rewrite Hx, Hh in *. simpl.
  rewrite line_bit, H2, Hb. split; [done|]. split; [done|]. simpl. by rewrite Hb', Hb.
Qed.

(** The slave lets SCL rise within the polls. *)
Lemma stretch_ok fuel : forall c x sda, sf_bus c = x -> (sf_hold c < fuel)%nat -> s_sda x = sda ->
  s_scl x = (sf_hold c =? 0)%nat ->
  synced (stretch_wait r fuel (c, bus_of true sda))
    (if (sf_hold c =? 0)%nat then x else step x true sda).
Proof.
  induction fuel as [|fuel IH]; intros c x sda Hb Hf Hs Hl; [lia|]. simpl.
  destruct (sf_read c) as (c' & v & Hx & Hh' & Hb' & H1 & _). rewrite Hx. rewrite line_bit, H1, Hb, Hl.
  destruct (Nat.eqb_spec (sf_hold c) 0) as [H0|H0].
  - rewrite H0 in *. split; [done|]. simpl in *. rewrite Hb', Hb, Hl, Hs. done.
  - change (latch PW_OK (bus_of true sda)) with (bus_of true sda).
    destruct (decide (sf_hold c = 1%nat)) as [H1'|H1'].
    + rewrite H1' in *. simpl in *. specialize (IH c' (step x true sda) sda).
      rewrite Hh' in IH. apply IH; try done; [congruence|lia|apply step_sda|apply step_scl].
    + specialize (IH c' x sda). rewrite Hh' in IH.
      replace (pred (sf_hold c) =? 0)%nat with false in IH by (symmetry; apply Nat.eqb_neq; lia).
      apply IH; try done; [|lia]. rewrite Hb'. destruct (Nat.eqb_spec (sf_hold c) 1); [done|congruence].
Qed.

Lemma release_ok s x : synced s x -> synced (scl_release_wait w r s) (step x true (s_sda x)).
Proof.
  destruct s as [c b]. intros (Hh & Hb & Hd). cbn [fst snd] in *. subst b.
  unfold scl_release_wait. rewrite set_scl_eq.
  destruct (apply_ok c true (s_sda x) Hh) as (c' & -> & Hlt & H0 & Hb'). rewrite Hb in *.
  pose proof (stretch_ok SCL_POLLS c' (sf_bus c') (s_sda x) eq_refl Hlt) as HS.
  rewrite Hb' in HS at 1 2. rewrite step_sda, step_scl in HS. specialize (HS eq_refl eq_refl).
  destruct (Nat.eqb_spec (sf_hold c') 0) as [Hz|Hz]; rewrite Hb' in HS; simpl in HS; [done|].
  assert (Hlow : s_scl x = false).
  { destruct (s_scl x); [|done]. exfalso. apply Hz, H0. by left. }
  revert HS. unfold slave_step at 2. rewrite Hlow. unfold slave_step at 1 2. by rewrite Hlow.
Qed.

(** ** START, STOP and bytes *)

(** The slave listens: it pulls nothing and a START or STOP can come. *)
Definition listens (x : slave M) : Prop :=
  match s_phase x with PIdle | PRecv _ _ _ => True | _ => False end.

Lemma start_ok s x : synced s x -> listens x -> (s_scl x = true -> s_sda x = true) ->
  synced (i2c_start w r s) (on_start (with_lines false false x)).
Proof.
  intros Hs Hp Hl. unfold i2c_start.
  apply (set_sda_ok true), release_ok, (set_sda_ok false), scl_low_ok in Hs.
  rewrite ?step_sda, ?step_scl in Hs. revert Hs. generalize (i2c_start w r s).
  destruct x as [[] [] p d q pe bu m]; try (by specialize (Hl eq_refl)); destruct p; done.
Qed.

Lemma stop_ok s x : synced s x -> listens x -> s_scl x = false ->
  synced (i2c_stop w r s) (on_stop md (with_lines true true x)).
Proof.
  intros Hs Hp Hl. unfold i2c_stop.
  apply (set_sda_ok false), release_ok, (set_sda_ok true) in Hs.
  rewrite ?step_sda, ?step_scl in Hs. revert Hs. generalize (i2c_stop w r s).
  destruct x as [? ? p d q pe bu m]. simpl in Hl. subst. destruct p; try done; by destruct pe.
Qed.

Lemma put_bit_ok s x b : synced s x -> s_scl x = false ->
  synced (put_bit w r s b) (on_fall md (with_lines false b (on_rise (with_lines true b x)))).
Proof.
  intros Hs Hl. unfold put_bit. apply (set_sda_ok b), release_ok, scl_low_ok in Hs.
  rewrite ?step_sda, ?step_scl in Hs. revert Hs.
  destruct x as [? sd p d q pe bu m]. simpl in Hl. subst. destruct p; done.
Qed.

(** The value of bits that come in after [a]. *)
Definition shift_in (a : Z) (bs : list bool) : Z := foldl (fun a b => 2 * a + b2z b) a bs.

Lemma put_bits_ok bs : forall s x k n a, synced s x -> s_scl x = false ->
  s_phase x = PRecv k n a -> (n + length bs <= 7)%nat ->
  exists sda, synced (foldl (put_bit w r) s bs)
    (with_lines false sda (with_phase (PRecv k (n + length bs) (shift_in a bs)) x)).
Proof.
  induction bs as [|b bs IH]; intros s x k n a Hs Hl Hp Hn; simpl in *.
  - exists (s_sda x). rewrite Nat.add_0_r. destruct x. simpl in *. by subst.
  - apply (put_bit_ok s x b) in Hs; [|done]. destruct x as [? sd p d q pe bu m]. simpl in Hl, Hp. subst.
    destruct (IH _ _ k (S n) (2 * a + b2z b) Hs) as [sda H].
    + do 7 (destruct n as [|n]; [done|]). lia.
    + do 7 (destruct n as [|n]; [done|]). lia.
    + lia.
    + exists sda. rewrite Nat.add_succ_r. revert H. do 7 (destruct n as [|n]; [done|]). lia.
Qed.

Lemma forall_u8 (P : Z -> bool) : forallb P (seqZ 0 256) = true -> forall v, is_u8 v -> P v = true.
Proof.
  intros H v Hv. rewrite forallb_forall in H. apply H, list_elem_of_In, elem_of_seqZ.
  unfold is_w in Hv. lia.
Qed.

Lemma bits8_value v : is_u8 v -> shift_in 0 (bits8 v) = v.
Proof.
  intros Hv. apply Z.eqb_eq. revert v Hv. by apply forall_u8; vm_compute.
Qed.

Lemma last_bit x k a b sda :
  on_fall md (with_lines false b (on_rise (with_lines true b (with_lines false sda
    (with_phase (PRecv k 7 a) x))))) = with_lines false b (byte_in md k (2 * a + b2z b) x).
Proof.
  destruct x as [? ? ? dev ptr ? busy m]; destruct k; [|done|].
  - unfold on_fall. cbn [s_phase on_rise with_lines with_phase]. unfold byte_in.
    destruct (m_answers md _); [by destruct busy|done].
  - unfold on_fall. cbn [s_phase on_rise with_lines with_phase]. unfold byte_in.
    cbn [s_mem s_dev s_ptr with_lines with_phase].
    by destruct (m_takes md m dev ptr).
Qed.

(** A byte goes out: the slave takes it in and its answer is the acknowledge bit. *)
Lemma write_byte_ok v s x k : synced s x -> s_scl x = false -> s_phase x = PRecv k 0 0 -> is_u8 v ->
  (i2c_write_byte w r v s).2 = negb (pulls (byte_in md k v x)) /\
  synced (i2c_write_byte w r v s).1 (on_fall md (with_lines false true (byte_in md k v x))).
Proof.
  intros Hs Hl Hp Hv. unfold i2c_write_byte.
  destruct (put_bits_ok (take 7 (bits8 v)) s x k 0 0 Hs Hl Hp ltac:(done)) as [sda H7].
  rewrite <- (take_drop 7 (bits8 v)), foldl_app. set (s7 := foldl _ s _) in *. clearbody s7.
  pose proof (bits8_value v Hv) as Hval.
  rewrite <- (take_drop 7 (bits8 v)) in Hval. unfold shift_in in *. rewrite foldl_app in Hval.
  set (a7 := foldl _ 0 (take 7 _)) in *. clearbody a7.
  change (drop 7 (bits8 v)) with [ztrue ((v >>> 0) &&& 1)] in *. simpl foldl in Hval |- *.
  apply (put_bit_ok _ _ (ztrue ((v >>> 0) &&& 1))) in H7; [|done].
  set (s8 := put_bit w r s7 _) in *. clearbody s8.
  rewrite last_bit, Hval in H7. rename H7 into H8. set (y := byte_in md k v x) in *.
  assert (Hy : s_phase y = PIdle \/ exists k v, s_phase y = PAck k v).
  { subst y. destruct k; simpl; repeat case_match; simpl; eauto. }
  clearbody y. apply (set_sda_ok true), release_ok in H8. rewrite ?step_sda, ?step_scl in H8.
  destruct (get_sda_ok _ _ H8) as [Hg Hs']. destruct (get_line _ _ _) as [s9 l]. simpl in Hg, Hs' |- *.
  apply scl_low_ok in Hs'. rewrite step_sda in Hs'. subst l.
  destruct y as [? ? p d q pe bu m]. simpl in Hy. destruct Hy as [-> | (k' & v' & ->)]; by split.
Qed.

(** A bit comes in. *)
Definition sent (n : nat) (x : slave M) : slave M :=
  match n with
  | O => with_phase (PMasterAck None) x
  | S n => match s_phase x with PSend _ v => with_phase (PSend n v) x | _ => x end
  end.
Definition shift_bit (a : Z) (b : bool) : Z := u8 ((a <<< 1) ||| (b2z b &&& 1)).

Lemma get_bit_ok s x a i n v : synced s x -> s_scl x = false -> s_sda x = true -> s_phase x = PSend n v ->
  (get_bit w r (s, a) i).2 = shift_bit a (Z.testbit v (Z.of_nat n)) /\
  synced (get_bit w r (s, a) i).1 (sent n x).
Proof.
  intros Hs Hl Hd Hp. unfold get_bit. apply release_ok in Hs.
  destruct (get_sda_ok _ _ Hs) as [Hg Hs']. destruct (get_line _ _ _) as [s9 l]. simpl in Hg, Hs' |- *.
  apply scl_low_ok in Hs'. rewrite step_sda in Hs'. subst l.
  destruct x as [? ? p d q pe bu m]. simpl in Hl, Hd, Hp. subst. split.
  - unfold wire_sda, pulls. simpl. by rewrite negb_involutive.
  - by destruct n.
Qed.

Lemma get_bits_ok n : forall l s x a v, length l = S n -> synced s x -> s_scl x = false ->
  s_sda x = true -> s_phase x = PSend n v ->
  (foldl (get_bit w r) (s, a) l).2 =
    foldl shift_bit a ((fun i => Z.testbit v (Z.of_nat i)) <$> rev (seq 0 (S n))) /\
  synced (foldl (get_bit w r) (s, a) l).1 (with_phase (PMasterAck None) x).
Proof.
  induction n as [|n IH]; intros [|i l] s x a v Hlen Hs Hl Hd Hp; try done; injection Hlen as Hlen;
    cbn [foldl]; destruct (get_bit_ok s x a i _ v Hs Hl Hd Hp) as [H1 H2];
    destruct (get_bit w r (s, a) i) as [s1 a1]; cbn [fst snd] in *; subst a1.
  - by destruct l.
  - assert (Hx : with_phase (PMasterAck None) (sent (S n) x) = with_phase (PMasterAck None) x)
      by (unfold sent; by rewrite Hp).
    rewrite seq_S, rev_app_distr. cbn [rev app]. rewrite fmap_cons. cbn [foldl].
    rewrite <- Hx. apply IH; try done; unfold sent; by rewrite Hp.
Qed.

Lemma shift_bits_value v : is_u8 v ->
  foldl shift_bit 0 ((fun i => Z.testbit v (Z.of_nat i)) <$> rev (seq 0 8)) = v.
Proof. intros Hv. apply Z.eqb_eq. revert v Hv. by apply forall_u8; vm_compute. Qed.

(** A byte comes in; the acknowledge asks for the next one. *)
Lemma read_byte_ok ack v s x : synced s x -> s_scl x = false -> s_phase x = PSend 7 v -> is_u8 v ->
  (i2c_read_byte w r ack s).2 = v /\
  synced (i2c_read_byte w r ack s).1
    (with_lines false true (if ack then next_byte md x else with_phase PIdle x)).
Proof.
  intros Hs Hl Hp Hv. unfold i2c_read_byte. apply (set_sda_ok true) in Hs. rewrite Hl in Hs.
  assert (Hx : step x false true = with_lines false true x) by (unfold slave_step; by rewrite Hl).
  rewrite Hx in Hs.
  destruct (get_bits_ok 7 (seq 0 8) _ _ 0 v eq_refl Hs eq_refl eq_refl Hp) as [H1 H2].
  destruct (foldl _ _ (seq 0 8)) as [s8 v8]. cbn [fst snd] in *. rewrite shift_bits_value in H1 by done.
  split; [done|]. apply (set_sda_ok (negb ack)), release_ok, scl_low_ok, (set_sda_ok true) in H2.
  rewrite ?step_sda, ?step_scl in H2. revert H2.
  destruct x as [? ? p d q pe bu m]. simpl in Hl, Hp. subst. by destruct ack.
Qed.
End Cage.
