(* ===== verification/SfpTxn.v ===== *)
(** * SFP reads and writes are exact

    Against a cage in order ([SfpCage]) the transactions of [Sfp] come back with
    the bytes of the module, or write exactly the caller's bytes, and leave the
    bus idle; an address nothing answers ends in [PW_E_IO]. *)

From S2P Require Import Prelude StateMonad Types Csr Backend Sfp SfpBus.

Section Cage.
Context {C M : Type} {w : Z -> Z -> C -> C * pw_status} {r : Z -> C -> C * (pw_status * Z)}
  {port : Z} {md : sfp_module M} {HC : SfpCage w r port md} (Hport : port = 0 \/ port = 1).

(** Both lines up and nothing under way; [busy] addressings of a write cycle are left. *)
Definition bus_idle (busy : nat) (m : M) (x : slave M) : Prop :=
  s_scl x = true /\ s_sda x = true /\ s_phase x = PIdle /\ s_pend x = [] /\ s_busy x = busy /\ s_mem x = m.

Definition idle_at (busy : nat) (m : M) (s : C * i2c_bus) : Prop :=
  exists x, synced (HC := HC) s x /\ bus_idle busy m x.

(** In a transfer, SCL low. *)
Definition at_phase (p : i2c_phase) (dev ptr : Z) (pend : list (Z * Z * Z)) (busy : nat) (m : M)
    (s : C * i2c_bus) : Prop :=
  exists sda, synced (HC := HC) s
    {| s_scl := false; s_sda := sda; s_phase := p; s_dev := dev; s_ptr := ptr; s_pend := pend;
       s_busy := busy; s_mem := m |}.

Lemma act_ok (Q : C * i2c_bus -> Prop) f s : Q (f s) -> returns (act f) s (fun _ => Q).
Proof. by exists tt, (f s). Qed.

Lemma synced_err s x : synced (HC := HC) s x -> b_err s.2 = false.
Proof. intros (_ & _ & ->). done. Qed.

Lemma open_ok busy m c : sf_hold c = O -> bus_idle busy m (sf_bus c) ->
  idle_at busy m (open_bus w port c).
Proof.
  intros Hh Hi. pose proof Hi as (H1 & H2 & H3 & H4 & _).
  assert (Hs : synced (HC := HC) (set_scl w true (c, bus_of (port := port) true true)) (sf_bus c)).
  { rewrite set_scl_eq by done.
    destruct (apply_ok Hport c true true Hh) as (c' & -> & _ & H0 & Hb).
    assert (Hh' : sf_hold c' = O) by auto. rewrite Hh' in Hb. split; [done|].
    assert (Hx : sf_bus c' = sf_bus c); [|cbn [fst snd]; by rewrite Hx, H1, H2].
    rewrite Hb. destruct (sf_bus c). simpl in *. by subst. }
  apply (set_sda_ok Hport true) in Hs.
  exists (slave_step md (sf_bus c) (s_scl (sf_bus c)) true). split.
  - unfold open_bus. unfold bus_of, drive_of in Hs. destruct Hport as [-> | ->]; exact Hs.
  - destruct (sf_bus c). simpl in *. unfold bus_idle in *. simpl in *. by destruct_and!; subst.
Qed.

Lemma start_idle busy m s : idle_at busy m s ->
  exists dev ptr, at_phase (PRecv RAddr 0 0) dev ptr [] busy m (i2c_start w r s).
Proof.
  intros (x & Hs & H1 & H2 & H3 & H4 & H5 & H6).
  apply (start_ok Hport) in Hs; [|unfold listens; by rewrite H3|done].
  exists (s_dev x), (s_ptr x), false. destruct x; simpl in *; by subst.
Qed.

Lemma start_again k dev ptr pend busy m s : at_phase (PRecv k 0 0) dev ptr pend busy m s ->
  at_phase (PRecv RAddr 0 0) dev ptr [] busy m (i2c_start w r s).
Proof. intros (sda & Hs). apply (start_ok Hport) in Hs; [|done|done]. by exists false. Qed.

(** A STOP commits what was written. *)
Lemma stop_idle p dev ptr busy m s : match p with PIdle | PRecv _ _ _ => True | _ => False end ->
  at_phase p dev ptr [] busy m s -> idle_at busy m (i2c_stop w r s).
Proof.
  intros Hp (sda & Hs). apply (stop_ok Hport) in Hs; [|by destruct p|done].
  eexists. split; [exact Hs|]. done.
Qed.

Lemma stop_write p dev ptr off v busy m s : match p with PIdle | PRecv _ _ _ => True | _ => False end ->
  at_phase p dev ptr [(dev, off, v)] busy m s ->
  idle_at (m_cycle md) (m_write md m dev off v) (i2c_stop w r s).
Proof.
  intros Hp (sda & Hs). apply (stop_ok Hport) in Hs; [|by destruct p|done].
  eexists. split; [exact Hs|]. done.
Qed.

(** ** Sending a byte *)

Lemma send_acked v k dev ptr pend busy m s p' dev' ptr' pend' :
  at_phase (PRecv k 0 0) dev ptr pend busy m s -> is_u8 v ->
  (forall sda, on_fall md (with_lines false true (byte_in md k v
     {| s_scl := false; s_sda := sda; s_phase := PRecv k 0 0; s_dev := dev; s_ptr := ptr;
        s_pend := pend; s_busy := busy; s_mem := m |})) =
     {| s_scl := false; s_sda := true; s_phase := p'; s_dev := dev'; s_ptr := ptr';
        s_pend := pend'; s_busy := busy; s_mem := m |} /\
   pulls (byte_in md k v {| s_scl := false; s_sda := sda; s_phase := PRecv k 0 0; s_dev := dev;
     s_ptr := ptr; s_pend := pend; s_busy := busy; s_mem := m |}) = true) ->
  returns (send w r v) s (fun _ => at_phase p' dev' ptr' pend' busy m).
Proof.
  intros (sda & Hs) Hv Hx. destruct (Hx sda) as [Hx' Hp].
  destruct (write_byte_ok Hport v _ _ k Hs eq_refl eq_refl Hv) as [H1 H2].
  exists tt. unfold send. destruct (i2c_write_byte w r v s) as [s' nak]. cbn [fst snd] in *.
  subst nak. rewrite Hp. exists s'. split; [done|]. exists true. by rewrite <- Hx'.
Qed.

Lemma send_naked v k dev ptr pend busy busy' m s :
  at_phase (PRecv k 0 0) dev ptr pend busy m s -> is_u8 v ->
  (forall sda, byte_in md k v
     {| s_scl := false; s_sda := sda; s_phase := PRecv k 0 0; s_dev := dev; s_ptr := ptr;
        s_pend := pend; s_busy := busy; s_mem := m |} =
     {| s_scl := false; s_sda := sda; s_phase := PIdle; s_dev := dev; s_ptr := ptr;
        s_pend := pend; s_busy := busy'; s_mem := m |}) ->
  (i2c_write_byte w r v s).2 = true /\
  at_phase PIdle dev ptr pend busy' m (i2c_write_byte w r v s).1.
Proof.
  intros (sda & Hs) Hv Hx.
  destruct (write_byte_ok Hport v _ _ k Hs eq_refl eq_refl Hv) as [H1 H2]. rewrite Hx in H1, H2.
  split; [done|]. exists true. exact H2.
Qed.

Lemma send_nak v k dev ptr busy busy' m s :
  at_phase (PRecv k 0 0) dev ptr [] busy m s -> is_u8 v ->
  (forall sda, byte_in md k v
     {| s_scl := false; s_sda := sda; s_phase := PRecv k 0 0; s_dev := dev; s_ptr := ptr;
        s_pend := []; s_busy := busy; s_mem := m |} =
     {| s_scl := false; s_sda := sda; s_phase := PIdle; s_dev := dev; s_ptr := ptr;
        s_pend := []; s_busy := busy'; s_mem := m |}) ->
  exists s', send w r v s = (s', Err PW_E_IO) /\ idle_at busy' m s'.
Proof.
  intros Hs Hv Hx. destruct (send_naked v k dev ptr [] busy busy' m s Hs Hv Hx) as [H1 H2].
  unfold send. destruct (i2c_write_byte w r v s) as [s' nak]. cbn [fst snd] in *. subst nak.
  apply stop_idle in H2; [|done]. pose proof H2 as (x & Hx' & _). apply synced_err in Hx'.
  rewrite Hx'. eauto.
Qed.

(** ** The bytes of a transfer *)

Lemma addr_w a : 0 <= a < 128 -> u8 (a <<< 1) = 2 * a.
Proof. intros. unfold u8. rewrite Z.shiftl_mul_pow2 by lia. rewrite Z.mod_small; lia. Qed.
Lemma addr_r a : 0 <= a < 128 -> u8 ((a <<< 1) ||| 1) = 2 * a + 1.
Proof.
  intros. unfold u8. rewrite Z.shiftl_mul_pow2 by lia. change (2 ^ 1) with 2.
  rewrite (Z.mul_comm a 2). assert (Hl : 2 * a ||| 1 = 2 * a + 1) by (destruct a; [done|done|lia]).
  rewrite Hl, Z.mod_small; lia.
Qed.
Lemma half_even a : 2 * a / 2 = a. Proof. rewrite Z.mul_comm. by apply Z.div_mul. Qed.
Lemma half_odd a : (2 * a + 1) / 2 = a.
Proof. rewrite Z.mul_comm, Z.div_add_l by lia. change (1 / 2) with 0. lia. Qed.

Lemma send_addr_w a dev ptr m s : 0 <= a < 128 -> m_answers md a = true ->
  at_phase (PRecv RAddr 0 0) dev ptr [] 0 m s ->
  returns (send w r (u8 (a <<< 1))) s (fun _ => at_phase (PRecv ROffset 0 0) a ptr [] 0 m).
Proof.
  intros Ha Hans Hs. rewrite addr_w by done.
  eapply send_acked; [exact Hs|unfold is_w; lia|]. intros sda. unfold byte_in. rewrite half_even, Hans.
  split; [|done]. unfold on_fall. cbn [s_phase with_lines with_dev with_phase s_busy].
  by rewrite Z.odd_mul.
Qed.

Lemma send_addr_r a dev ptr m s : 0 <= a < 128 -> m_answers md a = true ->
  at_phase (PRecv RAddr 0 0) dev ptr [] 0 m s ->
  returns (send w r (u8 ((a <<< 1) ||| 1))) s
    (fun _ => at_phase (PSend 7 (m_read md m a ptr)) a ((ptr + 1) mod 256) [] 0 m).
Proof.
  intros Ha Hans Hs. rewrite addr_r by done.
  eapply send_acked; [exact Hs|unfold is_w; lia|]. intros sda. unfold byte_in. rewrite half_odd, Hans.
  split; [|done]. unfold on_fall. cbn [s_phase with_lines with_dev with_phase s_busy].
  by rewrite Z.odd_add, Z.odd_mul.
Qed.

Lemma send_offset v dev ptr m s : is_u8 v -> at_phase (PRecv ROffset 0 0) dev ptr [] 0 m s ->
  returns (send w r v) s (fun _ => at_phase (PRecv RData 0 0) dev v [] 0 m).
Proof.
  intros Hv Hs. by eapply send_acked.
Qed.

Lemma send_data v dev ptr m s : is_u8 v -> m_takes md m dev ptr = true ->
  at_phase (PRecv RData 0 0) dev ptr [] 0 m s ->
  returns (send w r v) s (fun _ => at_phase (PRecv RData 0 0) dev ((ptr + 1) mod 256) [(dev, ptr, v)] 0 m).
Proof.
  intros Hv Ht Hs. eapply send_acked; [exact Hs|done|].
  intros sda. unfold byte_in. cbn [s_mem s_dev s_ptr]. by rewrite Ht.
Qed.

Lemma send_data_nak v dev ptr m s : is_u8 v -> m_takes md m dev ptr = false ->
  at_phase (PRecv RData 0 0) dev ptr [] 0 m s ->
  exists s', send w r v s = (s', Err PW_E_IO) /\ idle_at 0 m s'.
Proof.
  intros Hv Ht Hs. eapply send_nak; [exact Hs|done|]. intros sda. unfold byte_in.
  cbn [s_mem s_dev s_ptr]. by rewrite Ht.
Qed.

Lemma send_addr_nak a dev ptr busy m s : 0 <= a < 128 -> m_answers md a = false ->
  at_phase (PRecv RAddr 0 0) dev ptr [] busy m s ->
  exists s', send w r (u8 (a <<< 1)) s = (s', Err PW_E_IO) /\ idle_at busy m s'.
Proof.
  intros Ha Hans Hs. rewrite addr_w by done. eapply send_nak; [exact Hs|unfold is_w; lia|].
  intros sda. unfold byte_in. by rewrite half_even, Hans.
Qed.

(** ** Reads *)

Lemma check_ok busy m s : idle_at busy m s -> returns check_err s (fun _ => idle_at busy m).
Proof.
  intros Hs. pose proof Hs as (x & Hx & _). apply synced_err in Hx.
  exists tt, s. unfold check_err. by rewrite Hx.
Qed.

Lemma read_bytes_ok a off len m ptr s : 0 < len -> 0 <= off -> off + len <= 256 ->
  ptr = (off + 1) mod 256 -> at_phase (PSend 7 (m_read md m a off)) a ptr [] 0 m s ->
  returns (read_bytes w r len) s (fun buf s' =>
    buf = (fun i => m_read md m a (off + i)) <$> seqZ 0 len /\
    exists ptr, at_phase PIdle a ptr [] 0 m s').
Proof.
  intros Hlen Ho Hend -> Hs. set (I := fun (k : nat) (buf : list Z) s' =>
    buf = (fun i => m_read md m a (off + i)) <$> seqZ 0 (Z.of_nat k) /\
    if Z.of_nat k <? len
    then at_phase (PSend 7 (m_read md m a (off + Z.of_nat k))) a ((off + Z.of_nat k + 1) mod 256) [] 0 m s'
    else exists ptr, at_phase PIdle a ptr [] 0 m s').
  eapply returns_mono; [apply (returns_for _ I (seqZ 0 len) 0%nat)|].
  - unfold I. change (Z.of_nat 0) with 0. rewrite Z.add_0_r. split; [done|].
    by rewrite (proj2 (Z.ltb_lt 0 len)).
  - intros j i buf s1 [-> Hj]%lookup_seqZ (-> & Hs1). change (0 + j)%nat with j in *.
    rewrite (proj2 (Z.ltb_lt (Z.of_nat j) len)) in Hs1 by lia. destruct Hs1 as (sda & Hs1).
    destruct (read_byte_ok Hport (0 + Z.of_nat j + 1 <? len) _ _ _ Hs1 eq_refl eq_refl (sf_byte _ _ _)) as [H1 H2].
    unfold returns. destruct (i2c_read_byte _ _ _ s1) as [s2 v]. cbn [fst snd] in *. subst v.
    eexists _, _. split; [reflexivity|]. unfold I. split.
    + rewrite Nat2Z.inj_succ, <- Z.add_1_r, seqZ_app by lia. rewrite fmap_app. do 2 f_equal.
    + replace (Z.of_nat (S j)) with (Z.of_nat j + 1) by lia. rewrite Z.add_0_l in H2.
      destruct (Z.ltb_spec (Z.of_nat j + 1) len).
      * exists true. rewrite Z.add_assoc.
        rewrite (Z.mod_small (off + Z.of_nat j + 1)) in H2 by lia. exact H2.
      * eexists _, true. exact H2.
  - intros buf s' (-> & Hs'). simpl in Hs'. rewrite length_seqZ in *. simpl in *.
    rewrite Z2Nat.id in * by lia. rewrite Z.ltb_irrefl in Hs'. done.
Qed.

Lemma sfp_read_ok a off len m c : 0 <= a < 128 -> 0 <= off -> 0 < len -> off + len <= 256 ->
  sf_hold c = O -> bus_idle 0 m (sf_bus c) -> m_answers md a = true ->
  exists c', sfp_read w r port a off len c =
    (c', Ok ((fun i => m_read md m a (off + i)) <$> seqZ 0 len)) /\
    sf_hold c' = O /\ bus_idle 0 m (sf_bus c').
Proof.
  intros Ha Ho Hl Hend Hh Hi Hans. unfold sfp_read.
  assert (Hr : returns (act (i2c_start w r) ;; send w r (u8 (a <<< 1)) ;; send w r off ;;
    act (i2c_start w r) ;; send w r (u8 ((a <<< 1) ||| 1)) ;;
    buf ← read_bytes w r len; act (i2c_stop w r) ;; check_err ;; mret buf) (open_bus w port c)
    (fun buf s => buf = (fun i => m_read md m a (off + i)) <$> seqZ 0 len /\ idle_at 0 m s)).
  { destruct (start_idle 0 m _ (open_ok 0 m c Hh Hi)) as (dev & ptr & Hs).
    eapply returns_bind; [apply (act_ok (at_phase (PRecv RAddr 0 0) dev ptr [] 0 m) _ _ Hs)|]. intros [] s1 Hs1.
    eapply returns_bind; [by eapply send_addr_w|]. intros [] s2 Hs2.
    eapply returns_bind; [eapply send_offset; [unfold is_w; lia|done]|]. intros [] s3 Hs3.
    apply start_again in Hs3.
    eapply returns_bind; [apply (act_ok (at_phase (PRecv RAddr 0 0) a off [] 0 m) _ _ Hs3)|]. intros [] s4 Hs4.
    eapply returns_bind; [by eapply send_addr_r|]. intros [] s5 Hs5.
    eapply returns_bind; [eapply read_bytes_ok; [done|done|done|reflexivity|done]|].
    intros buf s6 (-> & ptr' & Hs6). apply stop_idle in Hs6; [|done].
    eapply returns_bind; [apply (act_ok (idle_at 0 m) _ _ Hs6)|]. intros [] s7 Hs7.
    eapply returns_bind; [by apply (check_ok 0 m)|]. intros [] s8 Hs8. by apply returns_ret. }
  destruct Hr as (buf & s & -> & -> & x & (Hh' & Hb & _) & Hid). exists s.1. split; [done|].
  split; [done|]. by rewrite Hb.
Qed.

(** Nothing answers the address. *)
Lemma sfp_read_nak a off len m c : 0 <= a < 128 -> sf_hold c = O -> bus_idle 0 m (sf_bus c) ->
  m_answers md a = false ->
  exists c', sfp_read w r port a off len c = (c', Err PW_E_IO) /\
    sf_hold c' = O /\ bus_idle 0 m (sf_bus c').
Proof.
  intros Ha Hh Hi Hans. unfold sfp_read.
  destruct (start_idle 0 m _ (open_ok 0 m c Hh Hi)) as (dev & ptr & Hs).
  destruct (send_addr_nak a dev ptr 0 m _ Ha Hans Hs) as (s' & He & x & (Hh' & Hb & _) & Hid).
  unfold mbind, stm_bind, act. rewrite He. exists s'.1. split; [done|]. split; [done|]. by rewrite Hb.
Qed.

(** ** Writes *)

#[local] Opaque i2c_start i2c_stop i2c_write_byte.

Lemma send_inv v s s' : send w r v s = (s', Ok tt) -> i2c_write_byte w r v s = (s', false).
Proof.
  unfold send. destruct (i2c_write_byte w r v s) as [s1 nak]. cbv zeta.
  generalize (i2c_stop w r s1). intros s2. by destruct nak; intros [= ->].
Qed.

(** One addressing of the poll. *)
Lemma poll_once a busy dev ptr m s : 0 <= a < 128 -> m_answers md a = true ->
  at_phase (PRecv RAddr 0 0) dev ptr [] busy m s ->
  exists s', i2c_write_byte w r (u8 (a <<< 1)) s = (s', negb (busy =? 0)%nat) /\
    idle_at (pred busy) m (i2c_stop w r s').
Proof.
  intros Ha Hans Hs. destruct busy as [|busy].
  - destruct (send_addr_w a dev ptr m _ Ha Hans Hs) as ([] & s' & Hx & Hs').
    exists s'. split; [by apply send_inv|]. by apply (stop_idle (PRecv ROffset 0 0) a ptr).
  - rewrite addr_w by done.
    destruct (send_naked (2 * a) RAddr dev ptr [] (S busy) busy m _ Hs) as [H1 H2].
    + unfold is_w. lia.
    + intros sda. unfold byte_in. by rewrite half_even, Hans.
    + destruct (i2c_write_byte _ _ _ _) as [s1 nak]. cbn [fst snd] in *. subst nak.
      exists s1. split; [done|]. by apply (stop_idle PIdle dev ptr).
Qed.

Lemma ack_poll_ok a m fuel : forall busy s, 0 <= a < 128 -> m_answers md a = true ->
  (busy < fuel)%nat -> idle_at busy m s ->
  exists s', ack_poll w r fuel a s = (s', true) /\ idle_at 0 m s'.
Proof.
  induction fuel as [|fuel IH]; intros busy s Ha Hans Hf Hs; [lia|]. cbn [ack_poll].
  destruct (start_idle busy m s Hs) as (dev & ptr & Hs0).
  destruct (poll_once a busy dev ptr m _ Ha Hans Hs0) as (s1 & -> & H2).
  pose proof H2 as (x & Hx & _). apply synced_err in Hx. rewrite Hx.
  destruct busy as [|busy]; cbn [negb Nat.eqb pred] in *; [eauto|]. apply (IH busy); [done|done|lia|done].
Qed.

(** What the bytes do to the module, up to the first one it refuses. *)
Fixpoint write_spec (m : M) (a off : Z) (buf : list Z) : M * result pw_status unit :=
  match buf with
  | [] => (m, Ok tt)
  | v :: buf =>
      if m_takes md m a off then write_spec (m_write md m a off v) a (off + 1) buf
      else (m, Err PW_E_IO)
  end.

Lemma write_one_ok a off i v m s : 0 <= a < 128 -> m_answers md a = true -> is_u8 v ->
  is_u8 (off + Z.of_nat i) -> idle_at 0 m s ->
  if m_takes md m a (off + Z.of_nat i)
  then returns (write_one w r a off (i, v) tt) s
    (fun _ => idle_at 0 (m_write md m a (off + Z.of_nat i) v))
  else exists s', write_one w r a off (i, v) tt s = (s', Err PW_E_IO) /\ idle_at 0 m s'.
Proof.
  intros Ha Hans Hv Hoff Hs. unfold write_one. cbn [fst snd].
  destruct (start_idle 0 m _ Hs) as (dev & ptr & Hs0).
  destruct (send_addr_w a dev ptr m _ Ha Hans Hs0) as ([] & s1 & H1 & Hs1).
  rewrite (u8_id (off + Z.of_nat i)) by done.
  destruct (send_offset _ a ptr m _ Hoff Hs1) as ([] & s2 & H2 & Hs2).
  destruct (m_takes md m a (off + Z.of_nat i)) eqn:Ht.
  - destruct (send_data v a _ m _ Hv Ht Hs2) as ([] & s3 & H3 & Hs3).
    apply stop_write in Hs3; [|done].
    destruct (ack_poll_ok a _ ACK_POLLS _ _ Ha Hans sf_cycle Hs3) as (s4 & H4 & Hs4).
    exists tt, s4. split; [|done].
    unfold mbind, stm_bind, act. rewrite H1, H2, H3. unfold write_cycle. rewrite H4.
    destruct Hs4 as (x & Hx & _). apply synced_err in Hx. by rewrite Hx.
  - destruct (send_data_nak v a _ m _ Hv Ht Hs2) as (s3 & H3 & Hs3).
    exists s3. split; [|done]. unfold mbind, stm_bind, act. by rewrite H1, H2, H3.
Qed.

Lemma write_loop_ok a off buf : forall k m s, 0 <= a < 128 -> m_answers md a = true ->
  Forall is_u8 buf -> 0 <= off -> off + Z.of_nat k + Z.of_nat (length buf) <= 256 -> idle_at 0 m s ->
  exists s', st_for (write_one w r a off) (imap (fun i v => ((k + i)%nat, v)) buf) tt s =
    (s', (write_spec m a (off + Z.of_nat k) buf).2) /\
    idle_at 0 (write_spec m a (off + Z.of_nat k) buf).1 s'.
Proof.
  induction buf as [|v buf IH]; intros k m s Ha Hans Hb Ho Hend Hs; [by exists s|].
  apply Forall_cons in Hb as [Hv Hb]. rewrite imap_cons. cbn [st_for write_spec length] in *.
  rewrite Nat.add_0_r.
  pose proof (write_one_ok a off k v m s Ha Hans Hv ltac:(unfold is_w; lia) Hs) as H1.
  destruct (m_takes md m a (off + Z.of_nat k)).
  - destruct H1 as ([] & s1 & H1 & Hs1). unfold mbind at 1, stm_bind at 1. rewrite H1.
    destruct (IH (S k) _ s1 Ha Hans Hb Ho ltac:(lia) Hs1) as (s' & H2 & Hs').
    replace (off + Z.of_nat (S k)) with (off + Z.of_nat k + 1) in * by lia.
    exists s'. split; [|done]. rewrite <- H2.
    rewrite (imap_ext _ (fun i v => ((S k + i)%nat, v))); [done|]. intros i x _. cbn. f_equal. lia.
  - destruct H1 as (s1 & H1 & Hs1). unfold mbind at 1, stm_bind at 1. rewrite H1. by exists s1.
Qed.

Lemma sfp_write_ok a off buf m c : 0 <= a < 128 -> m_answers md a = true -> Forall is_u8 buf ->
  0 <= off -> off + Z.of_nat (length buf) <= 256 -> sf_hold c = O -> bus_idle 0 m (sf_bus c) ->
  exists c', sfp_write w r port a off buf c = (c', (write_spec m a off buf).2) /\
    sf_hold c' = O /\ bus_idle 0 (write_spec m a off buf).1 (sf_bus c').
Proof.
  intros Ha Hans Hb Ho Hend Hh Hi. unfold sfp_write.
  destruct (write_loop_ok a off buf 0 m _ Ha Hans Hb Ho ltac:(lia) (open_ok 0 m c Hh Hi))
    as (s' & H1 & x & (Hh' & Hb' & _) & Hid). change (off + Z.of_nat 0) with (off + 0) in *.
  rewrite Z.add_0_r in *. change (imap _ buf) with (imap pair buf) in H1. rewrite H1. exists s'.1.
  split; [done|]. split; [done|]. by rewrite Hb'.
Qed.

Lemma sfp_write_nak a off buf m c : 0 <= a < 128 -> m_answers md a = false -> buf <> [] ->
  sf_hold c = O -> bus_idle 0 m (sf_bus c) ->
  exists c', sfp_write w r port a off buf c = (c', Err PW_E_IO) /\
    sf_hold c' = O /\ bus_idle 0 m (sf_bus c').
Proof.
  intros Ha Hans Hne Hh Hi. unfold sfp_write. destruct buf as [|v buf]; [done|].
  rewrite imap_cons. cbn [st_for].
  destruct (start_idle 0 m _ (open_ok 0 m c Hh Hi)) as (dev & ptr & Hs).
  destruct (send_addr_nak a dev ptr 0 m _ Ha Hans Hs) as (s' & He & x & (Hh' & Hb & _) & Hid).
  unfold write_one, mbind, stm_bind, act. rewrite He. exists s'.1.
  split; [done|]. split; [done|]. by rewrite Hb.
Qed.
End Cage.
