(* ===== verification/SfpProps.v ===== *)
(** * SFP management: exactness and faults

    The entry points of [Sfp] against a cage in order, and, for any card
    whatever, that a failed register access always surfaces as [PW_E_BACKEND]
    and never as an empty cage. *)

From S2P Require Import Prelude StateMonad Types Csr Backend Sfp SfpBus SfpTxn.

(** ** Faults *)

Section Faults.
Context {C : Type} (w : Z -> Z -> C -> C * pw_status) (r : Z -> C -> C * (pw_status * Z)).

(** The operations of any card, with a flag that remembers a failed access. *)
Definition watch_w (off v : Z) (c : C * bool) : (C * bool) * pw_status :=
  let '(c', s) := w off v c.1 in ((c', c.2 || negb (bool_decide (s = PW_OK))), s).
Definition watch_r (off : Z) (c : C * bool) : (C * bool) * (pw_status * Z) :=
  let '(c', (s, v)) := r off c.1 in ((c', c.2 || negb (bool_decide (s = PW_OK))), (s, v)).

(** The latch of the bus object is the flag. *)
Definition latched (s : (C * bool) * i2c_bus) : Prop := b_err s.2 = s.1.2.

Lemma latched_apply s : latched s -> latched (i2c_apply watch_w s).
Proof.
  destruct s as [[c f] b]. unfold latched, i2c_apply, watch_w. simpl. intros <-.
  destruct (w _ _ c) as [c' st]. simpl. destruct (decide (st = PW_OK)) as [->|].
  - by rewrite bool_decide_eq_true_2, orb_false_r.
  - by rewrite bool_decide_eq_false_2, orb_true_r.
Qed.
Lemma latched_line bit l s : latched s -> latched (set_line watch_w bit l s).
Proof. destruct s as [c b]. intros H. apply latched_apply. exact H. Qed.
Lemma latched_get bit s : latched s -> latched (get_line watch_r bit s).1.
Proof.
  destruct s as [[c f] b]. unfold latched, get_line, watch_r. simpl. intros <-.
  destruct (r _ c) as [c' [st v]]. simpl. destruct (decide (st = PW_OK)) as [->|].
  - by rewrite bool_decide_eq_true_2, orb_false_r.
  - by rewrite bool_decide_eq_false_2, orb_true_r.
Qed.

Lemma latched_start s : latched s -> latched (i2c_start watch_w watch_r s).
Proof. apply (inv_start watch_w watch_r latched latched_line latched_get). Qed.
Lemma latched_stop s : latched s -> latched (i2c_stop watch_w watch_r s).
Proof. apply (inv_stop watch_w watch_r latched latched_line latched_get). Qed.
Lemma latched_write_byte v s : latched s -> latched (i2c_write_byte watch_w watch_r v s).1.
Proof. apply (inv_write_byte watch_w watch_r latched latched_line latched_get). Qed.
Lemma latched_read_byte ack s : latched s -> latched (i2c_read_byte watch_w watch_r ack s).1.
Proof. apply (inv_read_byte watch_w watch_r latched latched_line latched_get). Qed.
Lemma latched_poll a fuel s : latched s -> latched (ack_poll watch_w watch_r fuel a s).1.
Proof. apply (inv_poll watch_w watch_r latched latched_line latched_get). Qed.
#[local] Hint Resolve latched_start latched_stop latched_write_byte latched_read_byte : core.
#[local] Opaque i2c_start i2c_stop i2c_write_byte i2c_read_byte.

Lemma latched_open port c : latched (open_bus watch_w port (c, false)).
Proof. unfold open_bus. by apply latched_line, latched_line. Qed.

(** A step of a transaction keeps the latch, and ends it with an error other than
    [PW_E_BACKEND] only when no access has failed. *)
Definition honest {A} (m : stm ((C * bool) * i2c_bus) pw_status A) : Prop := forall s, latched s ->
  latched (m s).1 /\ forall e, (m s).2 = Err e -> (e = PW_E_BACKEND <-> b_err (m s).1.2 = true).

Lemma honest_bind {A B} (m : stm _ pw_status A) (f : A -> stm _ pw_status B) :
  honest m -> (forall a, honest (f a)) -> honest (m ≫= f).
Proof.
  intros Hm Hf s Hs. unfold mbind, stm_bind. destruct (Hm s Hs) as [H1 H2].
  destruct (m s) as [s1 [a|e]]; cbn [fst snd] in *; [by apply Hf|]. split; [done|].
  intros e' [= <-]. by apply H2.
Qed.
Lemma honest_ret {A} (a : A) : honest (mret a).
Proof. by intros s Hs. Qed.
Lemma honest_act f : (forall s, latched s -> latched (f s)) -> honest (act f).
Proof. intros Hf s Hs. split; [by apply Hf|done]. Qed.
Lemma honest_for {A B} (f : A -> B -> stm _ pw_status B) l :
  (forall a b, honest (f a b)) -> forall b, honest (st_for f l b).
Proof.
  intros Hf. induction l as [|a l IH]; intros b; [apply honest_ret|]. by apply honest_bind.
Qed.

Lemma honest_send v : honest (send watch_w watch_r v).
Proof.
  intros s Hs. unfold send. pose proof (latched_write_byte v s Hs) as H.
  destruct (i2c_write_byte _ _ v s) as [s1 []]; cbn [fst] in H; [|done].
  cbv zeta. cbn [fst snd]. split; [auto|]. intros e [= <-]. by destruct (b_err _).
Qed.
Lemma honest_read_bytes len : honest (read_bytes watch_w watch_r len).
Proof.
  apply honest_for. intros i buf s Hs. pose proof (latched_read_byte (i + 1 <? len) s Hs) as H.
  destruct (i2c_read_byte _ _ _ s). done.
Qed.
Lemma honest_check : honest check_err.
Proof. intros s Hs. split; [done|]. unfold check_err. cbn [fst snd]. intros e. by destruct (b_err _); intros [= <-]. Qed.

Lemma honest_cycle a : honest (write_cycle watch_w watch_r a).
Proof.
  intros s Hs. unfold write_cycle. pose proof (latched_poll a ACK_POLLS s Hs) as H.
  destruct (ack_poll _ _ _ _ s) as [s1 d]. cbn [fst snd] in *. split; [done|]. intros e.
  by destruct (b_err s1.2), d; intros [= <-].
Qed.
#[local] Hint Resolve honest_bind honest_ret honest_act honest_for honest_send honest_read_bytes
  honest_check honest_cycle : core.

Lemma sfp_read_honest port a off len c c' f res :
  sfp_read watch_w watch_r port a off len (c, false) = ((c', f), res) ->
  match res with Ok _ => f = false | Err e => e = PW_E_BACKEND <-> f = true end.
Proof.
  unfold sfp_read. intros H.
  match type of H with (let '(_, _) := ?m _ in _) = _ => assert (Hm : honest m) end.
  { auto 20. }
  destruct (Hm _ (latched_open port c)) as [H1 H2].
  match type of H with (let '(_, _) := ?x in _) = _ => destruct x as [s res'] eqn:Hx end.
  injection H as Hs ->. cbn [fst snd] in *. unfold latched in H1. rewrite Hs in H1. cbn [snd] in H1.
  destruct res as [buf|e]; [|rewrite <- H1; by apply H2].
  rewrite <- H1. revert Hx. clear. unfold mbind, stm_bind, act, check_err, mret, stm_ret.
  repeat match goal with |- context [match ?x with (_, _) => _ end] => destruct x as [? [?|?]]; try done end.
  destruct (b_err _) eqn:He; [done|]. by intros [= <- _].
Qed.

Lemma write_for_clean a off l : forall s, b_err s.2 = false \/ l <> [] ->
  (st_for (write_one watch_w watch_r a off) l tt s).2 = Ok tt ->
  b_err (st_for (write_one watch_w watch_r a off) l tt s).1.2 = false.
Proof.
  induction l as [|ib l IH]; intros s Hs H; [by destruct Hs|].
  revert H. cbn [st_for]. unfold mbind, stm_bind.
  destruct (write_one watch_w watch_r a off ib tt s) as [s1 [[]|e]] eqn:H1; [|done].
  intros H. apply IH; [|done]. left. revert H1. clear. unfold write_one, mbind, stm_bind, act, write_cycle.
  repeat match goal with |- context [match ?x with (_, _) => _ end] =>
    match x with ack_poll _ _ _ _ _ => destruct x as [? ?] | _ => destruct x as [? [?|?]]; try done end end.
  destruct (b_err _) eqn:He; [done|]. case_match; [|done]. by intros [= <-].
Qed.

Lemma sfp_write_honest port a off buf c c' f res : buf <> [] ->
  sfp_write watch_w watch_r port a off buf (c, false) = ((c', f), res) ->
  match res with Ok _ => f = false | Err e => e = PW_E_BACKEND <-> f = true end.
Proof.
  unfold sfp_write. intros Hne H.
  assert (Hm : honest (st_for (write_one watch_w watch_r a off) (imap pair buf) tt)).
  { apply honest_for. intros ib []. unfold write_one. auto 20. }
  destruct (Hm _ (latched_open port c)) as [H1 H2].
  pose proof (write_for_clean a off (imap pair buf) (open_bus watch_w port (c, false))) as H3.
  destruct (st_for _ _ _ _) as [s res']. injection H as Hs ->. cbn [fst snd] in *.
  unfold latched in H1. rewrite Hs in H1. cbn [snd] in H1. rewrite <- H1.
  destruct res as [[]|e]; [|by apply H2]. apply H3; [|done]. right. by destruct buf.
Qed.

(** The register operations of the watched card. *)
Definition watched_ops : pw_card_backend_ops (C * bool) :=
  {| op_read32 := Some watch_r; op_write32 := Some watch_w; op_card_info := None; op_flow_write := None;
     op_flow_commit := None; op_stats_snapshot := None; op_port_stats_read := None;
     op_flow_stats_read := None; op_flow_hist_read := None; op_slow_path_rx := None;
     op_slow_path_tx := None |}.
End Faults.

#[local] Opaque sfp_read sfp_write.

(** ** The guards of the entry points *)

Section Entry.
Context {C : Type} {o : pw_card_backend_ops C} {w r}
  (Hw : op_write32 o = Some w) (Hr : op_read32 o = Some r).

Lemma read_entry port a off len c : 0 <= port <= 1 -> off + len <= 256 ->
  pw_sfp_read o port a off true len c = sfp_read w r port a off len c.
Proof.
  intros. unfold pw_sfp_read. rewrite Hw, Hr.
  replace ((port <? 0) || (1 <? port) || negb true) with false by (simpl; lia).
  by replace (256 <? off + len) with false by lia.
Qed.
Lemma write_entry port a off buf c : 0 <= port <= 1 -> off + Z.of_nat (length buf) <= 256 ->
  pw_sfp_write o port a off (Some buf) c = sfp_write w r port a off buf c.
Proof.
  intros. unfold pw_sfp_write. rewrite Hw, Hr.
  replace ((port <? 0) || (1 <? port)) with false by lia.
  by replace (256 <? off + Z.of_nat (length buf)) with false by lia.
Qed.
End Entry.


(** ** A cage in order *)

(** The bytes of a page as the module shows them. *)
Definition page {M} (md : sfp_module M) (m : M) (a off len : Z) : list Z :=
  (fun i => m_read md m a (off + i)) <$> seqZ 0 len.

(** What a probe of the module should report. *)
Definition module_info {M} (md : sfp_module M) (m : M) : pw_sfp_info :=
  if m_answers md 0x50 then
    let i := decode_id (page md m 0x50 0 96) in
    if si_dom_supported i && negb (si_dom_external_cal i) && m_answers md 0x51
    then decode_dom (page md m 0x51 96 10) i else i
  else zero_sfp_info.

Section InOrder.
Context {C M : Type} {w : Z -> Z -> C -> C * pw_status} {r : Z -> C -> C * (pw_status * Z)}
  {port : Z} {md : sfp_module M} {HC : SfpCage w r port md} {o : pw_card_backend_ops C}
  (Hw : op_write32 o = Some w) (Hr : op_read32 o = Some r) (Hp : port = 0 \/ port = 1).

(** Nothing is under way and the module holds [m]. *)
Definition at_rest (m : M) (c : C) : Prop := sf_hold c = O /\ bus_idle 0 m (sf_bus c).

Lemma read_ok a off len m c : 0 <= a < 128 -> 0 <= off -> 0 < len -> off + len <= 256 -> at_rest m c ->
  exists c', pw_sfp_read o port a off true len c =
    (c', if m_answers md a then Ok (page md m a off len) else Err PW_E_IO) /\ at_rest m c'.
Proof.
  intros Ha Ho Hl Hend [Hh Hi]. rewrite (read_entry Hw Hr) by lia.
  destruct (m_answers md a) eqn:Hans; [by apply sfp_read_ok|by apply sfp_read_nak].
Qed.

Lemma write_ok a off buf m c : 0 <= a < 128 -> 0 <= off -> buf <> [] -> Forall is_u8 buf ->
  off + Z.of_nat (length buf) <= 256 -> at_rest m c ->
  let spec := if m_answers md a then write_spec (md := md) m a off buf else (m, Err PW_E_IO) in
  exists c', pw_sfp_write o port a off (Some buf) c = (c', spec.2) /\ at_rest spec.1 c'.
Proof.
  intros Ha Ho Hne Hb Hend [Hh Hi]. rewrite (write_entry Hw Hr) by lia.
  destruct (m_answers md a) eqn:Hans; [by apply sfp_write_ok|by apply sfp_write_nak].
Qed.

Lemma probe_ok m c : at_rest m c ->
  exists c', pw_sfp_probe o port c = (c', Ok (module_info md m)) /\ at_rest m c'.
Proof.
  intros Hc. unfold pw_sfp_probe, module_info.
  destruct (read_ok 0x50 0 96 m c) as (c1 & -> & H1); [lia..|done|].
  destruct (m_answers md 0x50); [|by exists c1].
  set (i := decode_id _). destruct (si_dom_supported i && _); simpl; [|by exists c1].
  destruct (read_ok 0x51 96 10 m c1) as (c2 & -> & H2); [lia..|done|].
  destruct (m_answers md 0x51); by exists c2.
Qed.

Lemma write_one_byte a off v m c : 0 <= a < 128 -> is_u8 off -> is_u8 v -> m_answers md a = true ->
  at_rest m c ->
  exists c', pw_sfp_write o port a off (Some [v]) c =
      (c', if m_takes md m a off then Ok tt else Err PW_E_IO) /\
    at_rest (if m_takes md m a off then m_write md m a off v else m) c'.
Proof.
  intros Ha Ho Hv Hans Hc. unfold is_w in Ho.
  destruct (write_ok a off [v] m c) as (c' & Hx & Hc'); try done; [lia|by apply Forall_singleton|simpl; lia|].
  rewrite Hans in *. simpl in *. exists c'. by destruct (m_takes md m a off).
Qed.

Lemma read_one_byte a off m c : 0 <= a < 128 -> is_u8 off -> m_answers md a = true -> at_rest m c ->
  exists c', pw_sfp_read o port a off true 1 c = (c', Ok [m_read md m a off]) /\ at_rest m c'.
Proof.
  intros Ha Ho Hans Hc. unfold is_w in Ho.
  destruct (read_ok a off 1 m c) as (c' & Hx & Hc'); [lia..|done|]. rewrite Hans in Hx.
  exists c'. split; [|done]. rewrite Hx. unfold page. simpl. by rewrite Z.add_0_r.
Qed.

Lemma flip_u8 v : is_u8 v -> is_u8 (u8 (v ^^^ 0xFF)) /\ v <> u8 (v ^^^ 0xFF).
Proof.
  intros Hv. split; [apply u8_w|]. intros He. revert v Hv He.
  enough (H : forall v, is_u8 v -> negb (v =? u8 (v ^^^ 0xFF)) = true).
  { intros v Hv He. specialize (H v Hv). rewrite <- He, Z.eqb_refl in H. done. }
  by apply forall_u8; vm_compute.
Qed.
End InOrder.

(** C22: reading an SFP page returns exactly the bytes the module shows and
    [PW_E_IO] when nothing answers the address, whatever clock stretching the
    module does within the polls; either way the bus is idle again and the module
    unchanged; a range that leaves the page, or a bad cage number, is refused
    without touching the bus. *)
Theorem sfp_read_exact {C M : Type} {w r port} {md : sfp_module M} {HC : @SfpCage C M w r port md}
    (o : pw_card_backend_ops C) (a off len : Z) (m : M) (c : C)
    (Hw : op_write32 o = Some w) (Hr : op_read32 o = Some r) (Hp : port = 0 \/ port = 1)
    (Ha : 0 <= a < 128) (Ho : 0 <= off) (Hl : 0 < len) (Hc : at_rest (HC := HC) m c) :
  (off + len <= 256 -> exists c',
    pw_sfp_read o port a off true len c =
      (c', if m_answers md a then Ok (page md m a off len) else Err PW_E_IO) /\ at_rest (HC := HC) m c') /\
  (256 < off + len -> pw_sfp_read o port a off true len c = (c, Err PW_E_INVAL)) /\
  (forall p, p < 0 \/ 1 < p -> pw_sfp_read o p a off true len c = (c, Err PW_E_INVAL)).
Proof.
  split; [by intros; apply read_ok|]. unfold pw_sfp_read. rewrite Hw, Hr. split.
  - intros H. replace (256 <? off + len) with true by lia. by destruct (_ || _).
  - intros p Hout. by replace ((p <? 0) || (1 <? p)) with true by lia.
Qed.

(** C23: writing an SFP page performs exactly the caller's bytes on the module, in
    order and each once its predecessor's write cycle is over, up to the first
    byte the module refuses, which is reported as [PW_E_IO] like an address that
    nothing answers; the bus is idle again. *)
Theorem sfp_write_exact {C M : Type} {w r port} {md : sfp_module M} {HC : @SfpCage C M w r port md}
    (o : pw_card_backend_ops C) (a off : Z) (buf : list Z) (m : M) (c : C)
    (Hw : op_write32 o = Some w) (Hr : op_read32 o = Some r) (Hp : port = 0 \/ port = 1)
    (Ha : 0 <= a < 128) (Ho : 0 <= off) (Hne : buf <> []) (Hb : Forall is_u8 buf)
    (Hend : off + Z.of_nat (length buf) <= 256) (Hc : at_rest (HC := HC) m c) :
  let spec := if m_answers md a then write_spec (md := md) m a off buf else (m, Err PW_E_IO) in
  exists c', pw_sfp_write o port a off (Some buf) c = (c', spec.2) /\ at_rest (HC := HC) spec.1 c'.
Proof. by apply write_ok. Qed.

(** A probe decodes exactly the module in the cage: an empty cage is no module,
    diagnostics are reported only for a module that supports them, is calibrated
    internally and answers the diagnostics page. *)
Lemma sfp_probe_exact {C M : Type} {w r port} {md : sfp_module M} {HC : @SfpCage C M w r port md}
    (o : pw_card_backend_ops C) (m : M) (c : C)
    (Hw : op_write32 o = Some w) (Hr : op_read32 o = Some r) (Hp : port = 0 \/ port = 1)
    (Hc : at_rest (HC := HC) m c) :
  exists c', pw_sfp_probe o port c = (c', Ok (module_info md m)) /\ at_rest (HC := HC) m c'.
Proof. by apply probe_ok. Qed.

(** Trying a write password reports the module unlocked exactly when the
    password unlocked it, and leaves every byte of the module as it was after the
    password entry: a locked module commits nothing, and the test byte of an
    unlocked one is restored. *)
Theorem sfp_password_probe {C M : Type} {w r port} {md : sfp_module M} {HC : @SfpCage C M w r port md}
    (o : pw_card_backend_ops C) (password : Z) (unlocked : M -> bool) (m m1 : M) (c : C)
    (Hw : op_write32 o = Some w) (Hr : op_read32 o = Some r) (Hp : port = 0 \/ port = 1)
    (H50 : m_answers md SFP_PW_TEST_ADDR = true) (H51 : m_answers md SFP_PW_ADDR = true)
    (Hentry : write_spec (md := md) m SFP_PW_ADDR SFP_PW_OFFSET (password_bytes password) = (m1, Ok tt))
    (Hopen : forall m v, is_u8 v -> unlocked m = true ->
      m_takes md m SFP_PW_TEST_ADDR SFP_PW_TEST_OFF = true /\
      let m' := m_write md m SFP_PW_TEST_ADDR SFP_PW_TEST_OFF v in
      unlocked m' = true /\ forall d q, m_read md m' d q =
        if (d =? SFP_PW_TEST_ADDR) && (q =? SFP_PW_TEST_OFF) then v else m_read md m d q)
    (Hlocked : forall m v, unlocked m = false -> m_takes md m SFP_PW_TEST_ADDR SFP_PW_TEST_OFF = true ->
      m_write md m SFP_PW_TEST_ADDR SFP_PW_TEST_OFF v = m)
    (Hc : at_rest (HC := HC) m c) :
  exists c' m', pw_sfp_try_write_password o port password c = (c', Ok (unlocked m1)) /\
    at_rest (HC := HC) m' c' /\ forall d q, m_read md m' d q = m_read md m1 d q.
Proof.
  unfold pw_sfp_try_write_password, pw_sfp_unlock.
  destruct (write_ok (HC := HC) Hw Hr Hp SFP_PW_ADDR SFP_PW_OFFSET (password_bytes password) m c)
    as (c1 & -> & Hc1); [by vm_compute; split|done|done| |done|done|].
  { unfold password_bytes. repeat (apply Forall_cons; split; [apply u8_w|]). by apply Forall_nil. }
  rewrite H51, Hentry in *. cbn [fst snd] in *.
  assert (Ha : 0 <= SFP_PW_TEST_ADDR < 128) by done. assert (Hq : is_u8 SFP_PW_TEST_OFF) by done.
  destruct (read_one_byte Hw Hr Hp _ _ m1 c1 Ha Hq H50 Hc1) as (c2 & -> & Hc2).
  set (orig := m_read md m1 _ _).
  assert (Ho : is_u8 orig) by apply (sf_byte (SfpCage := HC)). destruct (flip_u8 orig Ho) as [Ht Hne].
  destruct (write_one_byte Hw Hr Hp _ _ (u8 (orig ^^^ 0xFF)) m1 c2 Ha Hq Ht H50 Hc2) as (c3 & -> & Hc3).
  destruct (unlocked m1) eqn:Hu.
  - destruct (Hopen m1 (u8 (orig ^^^ 0xFF)) Ht Hu) as (Htk & Hu2 & Hm2). rewrite Htk in *.
    set (m2 := m_write md m1 _ _ _) in *.
    destruct (read_one_byte Hw Hr Hp _ _ m2 c3 Ha Hq H50 Hc3) as (c4 & -> & Hc4).
    rewrite Hm2, !Z.eqb_refl. cbn [andb].
    destruct (write_one_byte Hw Hr Hp _ _ orig m2 c4 Ha Hq Ho H50 Hc4) as (c5 & -> & Hc5).
    destruct (Hopen m2 orig Ho Hu2) as (Htk2 & _ & Hm3). rewrite Htk2 in *.
    eexists _, _. split; [done|]. split; [exact Hc5|]. intros d q. rewrite Hm3, Hm2.
    destruct (_ && _) eqn:He; [|done]. apply andb_prop in He as [He1 He2]. apply Z.eqb_eq in He1, He2. by subst.
  - destruct (m_takes md m1 _ _) eqn:Htk; [|by exists c3, m1].
    rewrite (Hlocked m1 _ Hu Htk) in Hc3.
    destruct (read_one_byte Hw Hr Hp _ _ m1 c3 Ha Hq H50 Hc3) as (c4 & -> & Hc4). fold orig.
    rewrite (proj2 (Z.eqb_neq _ _) Hne). by exists c4, m1.
Qed.

(** ** A cage *)

Module ToySfp.
(** The module: a memory of two pages, and a lock on the base page that the last
    byte of a password opens. *)
Record mem := { bytes : Z -> Z -> Z; open_ : bool }.

Definition md : sfp_module mem := {|
  m_answers := fun a => (a =? 0x50) || (a =? 0x51);
  m_read := fun m a q => if (a =? 0x51) && (0x7B <=? q) then 0xFF else u8 (bytes m a q);
  m_takes := fun _ _ _ => true;
  m_write := fun m a q v =>
    if a =? 0x50 then
      if open_ m then
        {| bytes := fun a' q' => if (a' =? a) && (q' =? q) then v else bytes m a' q'; open_ := true |}
      else m
    else if (q =? 0x7E) && (v =? 0x11) then {| bytes := bytes m; open_ := true |} else m;
  m_cycle := 2 |}.

Record cage := { bus : slave mem; hold : nat }.

(** Cage 1 of a card; the module stretches every rise of SCL for two polls. *)
Definition write32 (off v : Z) (c : cage) : cage * pw_status :=
  let scl := negb (Z.testbit v 2) in
  let h := if scl && negb (s_scl (bus c)) then 2%nat else 0%nat in
  ({| bus := slave_step md (bus c) (scl && (h =? 0)%nat) (negb (Z.testbit v 3)); hold := h |}, PW_OK).
Definition read32 (off : Z) (c : cage) : cage * (pw_status * Z) :=
  ({| bus := if (hold c =? 1)%nat then slave_step md (bus c) true (s_sda (bus c)) else bus c;
      hold := pred (hold c) |},
   (PW_OK, (b2z (s_scl (bus c)) <<< 18) ||| (b2z (wire_sda (bus c)) <<< 19))).

#[refine] Instance cage_in_order : SfpCage write32 read32 1 md := {| sf_bus := bus; sf_hold := hold |}.
Proof.
  - intros m d q. unfold md; simpl. destruct (_ && _); [by vm_compute; split|apply u8_w].
  - simpl. unfold ACK_POLLS. lia.
  - intros c v _ Hh. cbn zeta. eexists. split; [reflexivity|].
    change (1 * 2) with 2. change (2 + 1) with 3. cbn [hold bus].
    destruct (Z.testbit v 2), (s_scl (bus c)); cbn [negb andb]; unfold SCL_POLLS;
      (split; [lia|split; [by intros []|done]]).
  - intros c. eexists _, _. split; [reflexivity|]. split; [done|]. split; [done|].
    by destruct (s_scl (bus c)), (wire_sda (bus c)).
Defined.

Definition ops : pw_card_backend_ops cage :=
  {| op_read32 := Some read32; op_write32 := Some write32; op_card_info := None; op_flow_write := None;
     op_flow_commit := None; op_stats_snapshot := None; op_port_stats_read := None;
     op_flow_stats_read := None; op_flow_hist_read := None; op_slow_path_rx := None;
     op_slow_path_tx := None |}.

(** An internally calibrated optical module at 32 degrees. *)
Definition contents (a q : Z) : Z :=
  if a =? 0x50 then if q =? 0 then 0x03 else if q =? 92 then 0x68 else 0x20
  else if q =? 96 then 0x20 else 0.
Definition fresh : mem := {| bytes := contents; open_ := false |}.
Definition rest : cage :=
  {| bus := {| s_scl := true; s_sda := true; s_phase := PIdle; s_dev := 0; s_ptr := 0; s_pend := [];
               s_busy := 0; s_mem := fresh |}; hold := 0 |}.
Lemma rest_ok : at_rest (HC := cage_in_order) fresh rest.
Proof. done. Qed.
End ToySfp.

Lemma sfp_read_exact_witness : exists c',
  pw_sfp_read ToySfp.ops 1 0x50 91 true 2 ToySfp.rest = (c', Ok [0x20; 0x68]).
Proof.
  destruct (proj1 (sfp_read_exact (HC := ToySfp.cage_in_order) ToySfp.ops 0x50 91 2 ToySfp.fresh
    ToySfp.rest eq_refl eq_refl (or_intror eq_refl) ltac:(lia) ltac:(lia) ltac:(lia) ToySfp.rest_ok)
    ltac:(lia)) as (c' & H & _). exists c'. exact H.
Defined.

Lemma sfp_write_exact_witness : exists c',
  pw_sfp_write ToySfp.ops 1 0x51 0x7B (Some [0; 0; 0; 0x11]) ToySfp.rest = (c', Ok tt) /\
  ToySfp.open_ (s_mem (ToySfp.bus c')) = true.
Proof.
  destruct (sfp_write_exact (HC := ToySfp.cage_in_order) ToySfp.ops 0x51 0x7B [0; 0; 0; 0x11] ToySfp.fresh
    ToySfp.rest eq_refl eq_refl (or_intror eq_refl) ltac:(lia) ltac:(lia) ltac:(discriminate)
    ltac:(repeat (apply Forall_cons; split; [unfold is_w; lia|]); apply Forall_nil; exact I)
    ltac:(simpl; lia) ToySfp.rest_ok) as (c' & H & _ & Hi).
  exists c'. split; [exact H|]. destruct Hi as (_ & _ & _ & _ & _ & Hm). cbn in Hm. rewrite Hm. reflexivity.
Defined.

Lemma sfp_probe_exact_witness : exists c' i,
  pw_sfp_probe ToySfp.ops 1 ToySfp.rest = (c', Ok i) /\ si_identifier i = 3 /\ si_dom_valid i = true /\
  si_temp_c i = SpecFloat.S754_finite false 0x10000000000000 (-47).
Proof.
  destruct (sfp_probe_exact (HC := ToySfp.cage_in_order) ToySfp.ops ToySfp.fresh ToySfp.rest
    eq_refl eq_refl (or_intror eq_refl) ToySfp.rest_ok) as (c' & H & _).
  exists c', (module_info ToySfp.md ToySfp.fresh). split; [exact H|].
  split; [|split]; vm_compute; reflexivity.
Defined.

Lemma sfp_password_probe_witness : exists c' m',
  pw_sfp_try_write_password ToySfp.ops 1 0x11 ToySfp.rest = (c', Ok true) /\
  s_mem (ToySfp.bus c') = m' /\ m_read ToySfp.md m' 0x50 0x3B = 0x20.
Proof.
  destruct (sfp_password_probe (HC := ToySfp.cage_in_order) ToySfp.ops 0x11 ToySfp.open_ ToySfp.fresh
    {| ToySfp.bytes := ToySfp.contents; ToySfp.open_ := true |} ToySfp.rest
    eq_refl eq_refl (or_intror eq_refl) eq_refl eq_refl eq_refl)
    as (c' & m' & H & (_ & _ & _ & _ & _ & _ & Hm) & Hr); [| |exact ToySfp.rest_ok|].
  - intros m v Hv Hu. split; [reflexivity|]. cbn. rewrite Hu. split; [reflexivity|]. intros d q. cbn.
    destruct ((d =? SFP_PW_TEST_ADDR) && (q =? SFP_PW_TEST_OFF)) eqn:He; [|reflexivity].
    apply andb_prop in He as [Hd _]. apply Z.eqb_eq in Hd as ->. cbn. apply u8_id, Hv.
  - intros m v Hu _. cbn. rewrite Hu. reflexivity.
  - exists c', m'. split; [exact H|]. split; [exact Hm|]. rewrite Hr. reflexivity.
Defined.

