(* ===== verification/Reports.v ===== *)
(** * The daemon's reports

    Models the read-only requests of [sw/packetwyrmd/src/main.c]: the reply of each
    [build_*] function as a JSON value, with every register and statistics access
    it makes (the cards are threaded through, since a snapshot or a latched read
    changes them), the SFP cache with its refresh pass, and [flow.preview]. The
    kernel's answer about a TAP ([pw_tap_query]) and the version string of the build
    are parameters. *)

From Stdlib Require Import Ascii SpecFloat.
From Stdlib Require String.
From S2P Require Import Prelude Types Config Validate Csr FlowCompiler Backend GpioSync Scalar Text Yaml ConfigParse FramePreview.
From S2P Require Import HostPlane Sfp Daemon Taps Json Forms.

Local Open Scope string_scope.
Local Open Scope Z_scope.
Local Open Scope list_scope.

Definition build_error (msg : string) : json := JObject [("error", JString msg)].
Definition build_version (version : string) : json := JObject [("version", JString version)].

(** ** Configuration *)

Definition build_ports (cfg : pw_config) : json :=
  JObject [("ports", JArray (c ← cfg_cards cfg; p ← card_ports c;
    [JObject [("name", JString (cp_name p)); ("card_id", jint (card_id c));
              ("local_port", jint (cp_local_port p)); ("global_port", jint (cp_global_port p))]]))].

(** "none", "gpio-corrected" or "same-card". *)
Definition latency_method (m : pw_flow_meta) : string :=
  if negb (m_rx_slot_valid m) then "none" else if cross_card m then "gpio-corrected" else "same-card".

Definition flow_line (prog : pw_program) (f : pw_flow) (m : pw_flow_meta) : json :=
  JObject
    [("id", jint64 (f_id f)); ("name", JString (f_name f));
     ("tx_global_port", jint (f_tx_global_port f)); ("rx_global_port", jint (f_rx_global_port f));
     ("tx_card_id", jint (m_tx_card_id m)); ("rx_card_id", jint (m_rx_card_id m));
     ("background", JBool (negb (m_rx_slot_valid m))); ("latency_valid", JBool (m_rx_slot_valid m));
     ("latency_method", JString (latency_method m)); ("enabled", JBool (flow_enabled prog (u32 (f_id f))))].

Definition build_flows (cfg : pw_config) (prog : pw_program) : json :=
  JObject [("flows", JArray (zip_with (flow_line prog) (cfg_flows cfg) (p_flow_meta prog)))].

Definition port_label (cfg : pw_config) (gp : Z) : string :=
  cstr (PW_NAME_MAX * 2 + 2)
    match list_find (fun cp : pw_card * pw_card_port => cp_global_port cp.2 = gp)
            (c ← cfg_cards cfg; p ← card_ports c; [(c, p)]) with
    | Some (_, (c, p)) => card_name c +:+ "." +:+ cp_name p
    | None => "gp" +:+ str_Z gp
    end.

(** ** Host plane *)

(** [sum += counter[j]] over the bindings. *)
Definition sum_ctr (hp : pw_host_plane) (ctr : list Z) : Z :=
  fold_left (fun a x => u64 (a + x)) (take (length (hp_bindings hp)) ctr) 0.
Definition ctr_of (hp : option pw_host_plane) (ctr : pw_host_plane -> list Z) : Z :=
  match hp with Some hp => sum_ctr hp (ctr hp) | None => 0 end.

Section Reports.
Context {C : Type} (ops : pw_card_backend_ops C).

Abbreviation cards_t := (list (@card_runtime C)).

Definition backend_name (cards : cards_t) (i : nat) : string :=
  match cards !! i with Some cr => if cr_open cr then cr_which cr else "absent" | None => "absent" end.

Definition stats_line (cards : cards_t) (hps : list (option pw_host_plane)) (i : nat) (c : pw_card) : json :=
  let hp := mjoin (hps !! i) in
  JObject
    [("card_id", jint (card_id c)); ("open", JBool (card_open cards i));
     ("backend", JString (backend_name cards i));
     ("punt_to_tap_ok", jint64 (ctr_of hp hp_punt_ok)); ("punt_to_tap_dropped", jint64 (ctr_of hp hp_punt_dropped));
     ("tap_to_fpga_ok", jint64 (ctr_of hp hp_tap_ok)); ("tap_to_fpga_dropped", jint64 (ctr_of hp hp_tap_dropped));
     ("punt_unknown_lif", jint64 (from_option hp_unknown_lif 0 hp))].

Definition build_stats (cfg : pw_config) (cards : cards_t) (hps : list (option pw_host_plane)) (filter_card_id : Z) :
    json :=
  JObject [("stats", JArray (ic ← imap pair (cfg_cards cfg);
    if (0 <=? filter_card_id) && negb (card_id ic.2 =? filter_card_id) then []
    else [stats_line cards hps ic.1 ic.2]))].

(** ** Reading a card *)

(** An operation of an open card that has it. *)
Definition card_call {A} (ci : nat) (op : option (C -> C * A)) (cards : cards_t) : cards_t * option A :=
  match cards !! ci, op with
  | Some cr, Some f =>
      if cr_open cr then let '(c, a) := f (cr_ctx cr) in (<[ci := set_ctx cr c]> cards, Some a)
      else (cards, None)
  | _, _ => (cards, None)
  end.

(** [read32(..) == PW_OK] *)
Definition card_reg (ci : nat) (off : Z) (cards : cards_t) : cards_t * option Z :=
  match card_call ci ((fun rd => rd off) <$> op_read32 ops) cards with
  | (cards, Some (PW_OK, v)) => (cards, Some v)
  | (cards, _) => (cards, None)
  end.

(** Lines collected over a loop that touches the cards. *)
Fixpoint collect {A B} (f : A -> cards_t -> cards_t * list B) (l : list A) (cards : cards_t) : cards_t * list B :=
  match l with
  | [] => (cards, [])
  | x :: l =>
      let '(cards, b) := f x cards in
      let '(cards, bs) := collect f l cards in (cards, b ++ bs)
  end.

(** ** Cards *)

Definition card_identity (ci : nat) (cards : cards_t) : cards_t * list (string * json) :=
  match card_call ci (op_card_info ops) cards with
  | (cards, Some (PW_OK, info)) =>
      (cards, [("device_id", JString (hex0x 8 (ci_device_id info))); ("fpga_version", jint (ci_version info));
               ("build_id", JString (hex0x 8 (ci_build_id info)));
               ("git_hash", JString (hex0x 8 (ci_git_hash info)))])
  | (cards, _) => (cards, [])
  end.

Definition PWFPGA_REG_SYSMON_TEMP : Z := 0x0124.
Definition PWFPGA_REG_SYSMON_SUPPLY : Z := 0x0128.
Definition PWFPGA_GSTAT_ERROR : Z := 1 <<< 3.
Definition PWFPGA_GSTAT_ACTIVITY : Z := 1 <<< 5.
Definition PWFPGA_SYSMON_CODE (raw : Z) : Z := (raw >>> 4) &&& 0xFFF.
(** The literals [509.3140064] and [280.23087870]. *)
Definition f_sysmon_gain : spec_float := S754_finite false 0x1fd5062b932bc1 (-44).
Definition f_sysmon_zero : spec_float := S754_finite false 0x1183b1addd1d7d (-44).
Definition PWFPGA_SYSMON_TEMP_C (raw : Z) : spec_float :=
  SFsub 53 1024 (fdiv (fmul (f64 (PWFPGA_SYSMON_CODE raw)) f_sysmon_gain) (f64 4096)) f_sysmon_zero.
Definition PWFPGA_SYSMON_SUPPLY_V (raw : Z) : spec_float :=
  fdiv (fmul (f64 (PWFPGA_SYSMON_CODE raw)) (f64 3)) (f64 4096).

Definition card_health (ci : nat) (cards : cards_t) : cards_t * list (string * json) :=
  let '(cards, gs) := card_reg ci PWFPGA_REG_GLOBAL_STATUS cards in
  let status := match gs with
                | Some gs => [("err_sticky", JBool (ztrue (gs &&& PWFPGA_GSTAT_ERROR)));
                              ("activity", JBool (ztrue (gs &&& PWFPGA_GSTAT_ACTIVITY)))]
                | None => [] end in
  let '(cards, tc) := card_reg ci PWFPGA_REG_SYSMON_TEMP cards in
  match tc with
  | Some tc =>
      if ztrue (PWFPGA_SYSMON_CODE tc) then
        let '(cards, sup) := card_reg ci PWFPGA_REG_SYSMON_SUPPLY cards in
        (cards, status ++ [("temp_c", JDouble (PWFPGA_SYSMON_TEMP_C tc))] ++
           match sup with
           | Some sup =>
               jif (ztrue (PWFPGA_SYSMON_CODE (sup &&& 0xFFFF)))
                 [("vccint_v", JDouble (PWFPGA_SYSMON_SUPPLY_V (sup &&& 0xFFFF)))] ++
               jif (ztrue (PWFPGA_SYSMON_CODE (sup >>> 16)))
                 [("vccaux_v", JDouble (PWFPGA_SYSMON_SUPPLY_V (sup >>> 16)))]
           | None => []
           end)
      else (cards, status)
  | None => (cards, status)
  end.

Definition card_line (ic : nat * pw_card) (cards : cards_t) : cards_t * list json :=
  let '(i, c) := ic in
  let '(cards, ident) := card_identity i cards in
  let '(cards, health) := card_health i cards in
  (cards, [JObject ([("id", jint (card_id c)); ("name", JString (card_name c)); ("pci", JString (card_pci c));
                     ("backend", JString (backend_name cards i)); ("open", JBool (card_open cards i))] ++
                    ident ++ health)]).

Definition build_cards (cfg : pw_config) (cards : cards_t) : cards_t * json :=
  let '(cards, l) := collect card_line (imap pair (cfg_cards cfg)) cards in (cards, JObject [("cards", JArray l)]).

(** ** SFP modules *)

Record sfp_cache_entry := { sc_valid : bool; sc_probe_ok : bool; sc_info : pw_sfp_info }.
Definition sfp_cache := gmap (nat * nat) sfp_cache_entry.
(** The static array starts zeroed. *)
Definition sfp_entry (cache : sfp_cache) (i p : nat) : sfp_cache_entry :=
  default {| sc_valid := false; sc_probe_ok := false; sc_info := zero_sfp_info |} (cache !! (i, p)).

Definition sfp_refresh_port (i : nat) (s : cards_t * sfp_cache) (p : nat) : cards_t * sfp_cache :=
  let '(cards, cache) := s in
  match card_call i (Some (pw_sfp_probe ops (Z.of_nat p))) cards with
  | (cards, None) => (cards, cache)
  | (cards, Some (Ok info)) =>
      (cards, <[(i, p) := {| sc_valid := true; sc_probe_ok := true; sc_info := info |}]> cache)
  | (cards, Some (Err _)) =>
      (cards, <[(i, p) := {| sc_valid := true; sc_probe_ok := false; sc_info := sc_info (sfp_entry cache i p) |}]> cache)
  end.

(** One pass of the refresh thread. *)
Definition sfp_refresh_once (n_cards : nat) (s : cards_t * sfp_cache) : cards_t * sfp_cache :=
  fold_left (fun s i => fold_left (sfp_refresh_port i) [0; 1]%nat s) (seq 0 (Nat.min n_cards PW_MAX_CARDS)) s.

Definition jbytes (l : list Z) : json := JString (String.string_of_list_ascii (byte_char <$> l)).

Definition sfp_fields (s : pw_sfp_info) : list (string * json) :=
  [("present", JBool (si_present s))] ++
  jif (si_present s)
    ([("identifier", jint (si_identifier s)); ("connector", jint (si_connector s));
      ("vendor", jbytes (si_vendor s)); ("part", jbytes (si_part s)); ("revision", jbytes (si_revision s));
      ("serial", jbytes (si_serial s)); ("date_code", jbytes (si_date_code s));
      ("br_nominal_mbaud", jint (si_br_nominal s * 100));
      ("dom_supported", JBool (si_dom_supported s)); ("dom_external_cal", JBool (si_dom_external_cal s));
      ("dom_valid", JBool (si_dom_valid s))] ++
     jif (si_dom_valid s)
       [("temp_c", JDouble (si_temp_c s)); ("vcc_v", JDouble (si_vcc_v s)); ("tx_bias_ma", JDouble (si_tx_bias_ma s));
        ("tx_power_mw", JDouble (si_tx_power_mw s)); ("rx_power_mw", JDouble (si_rx_power_mw s))]).

Definition sfp_line (cache : sfp_cache) (i : nat) (c : pw_card) (p : nat) : json :=
  let e := sfp_entry cache i p in
  JObject ([("card_id", jint (card_id c)); ("port", jint (Z.of_nat p))] ++
    if negb (sc_valid e) then [("present", JBool false); ("pending", JBool true)]
    else if negb (sc_probe_ok e) then [("present", JBool false); ("error", JString "i2c error")]
    else sfp_fields (sc_info e)).

Definition build_sfp_info (cfg : pw_config) (cards : cards_t) (cache : sfp_cache) (card_filter port_filter : Z) : json :=
  JObject [("sfp", JArray (ic ← imap pair (take PW_MAX_CARDS (cfg_cards cfg));
    if (0 <=? card_filter) && negb (card_id ic.2 =? card_filter) then [] else
    if negb (card_open cards ic.1) then [] else
    p ← [0; 1]%nat;
    if (0 <=? port_filter) && negb (Z.of_nat p =? port_filter) then []
    else [sfp_line cache ic.1 ic.2 p]))].

(** ** Port statistics *)

(** Trigger a snapshot on every open card; which ones did not fail. *)
Definition snap_one (ci : nat) (cards : cards_t) : cards_t * list bool :=
  match card_call ci (op_stats_snapshot ops) cards with
  | (cards, Some s) => (cards, [bool_decide (s = PW_OK)])
  | (cards, None) => (cards, [true])
  end.
Definition snap_all (n : nat) : cards_t -> cards_t * list bool := collect snap_one (seq 0 n).

(** The timestamp of the first open card. *)
Fixpoint first_ts (cis : list nat) (cards : cards_t) : cards_t * list (string * json) :=
  match cis, op_read32 ops with
  | ci :: cis, Some _ =>
      if negb (card_open cards ci) then first_ts cis cards else
      let '(cards, lo) := card_reg ci PWFPGA_REG_TIMESTAMP_LOW cards in
      match lo with
      | None => (cards, [])
      | Some lo =>
          let '(cards, hi) := card_reg ci PWFPGA_REG_TIMESTAMP_HIGH cards in
          (cards, match hi with Some hi => [("fpga_ts_lo", jint64 lo); ("fpga_ts_hi", jint64 hi)] | None => [] end)
      end
  | _, _ => (cards, [])
  end.

Definition unmatched_json (ps : pw_port_stats) : json :=
  let c := ps_last_unmatched_ctx ps in
  JObject
    [("ctx_raw", jint64 c); ("is_test", JBool (ztrue (c &&& 0x1))); ("is_ipv4", JBool (ztrue ((c >>> 1) &&& 0x1)));
     ("is_ipv6", JBool (ztrue ((c >>> 2) &&& 0x1))); ("hit", JBool (ztrue ((c >>> 3) &&& 0x1)));
     ("action", jint ((c >>> 4) &&& 0x7)); ("is_arp", JBool (ztrue ((c >>> 7) &&& 0x1)));
     ("ethertype", jint ((c >>> 8) &&& 0xFFFF)); ("l3_proto", jint ((c >>> 24) &&& 0xFF));
     ("flow_id", jint64 (ps_last_unmatched_flowid ps))].

Definition port_stats_json (c : pw_card) (p : pw_card_port) (ps : pw_port_stats) : json :=
  JObject
    [("card_id", jint (card_id c)); ("local_port", jint (cp_local_port p)); ("global_port", jint (cp_global_port p));
     ("rx_frames", jint64 (ps_rx_frames ps)); ("rx_bytes", jint64 (ps_rx_bytes ps));
     ("tx_frames", jint64 (ps_tx_frames ps)); ("tx_bytes", jint64 (ps_tx_bytes ps));
     ("rx_fcs_error", jint64 (ps_rx_fcs_error ps)); ("drops", jint64 (ps_rx_bad_frame ps));
     ("rx_unmatched", jint64 (ps_rx_unmatched ps)); ("last_unmatched", unmatched_json ps);
     ("link_up_count", jint64 (ps_link_up_count ps)); ("block_lock_loss", jint64 (ps_block_lock_loss ps))].

Definition port_stats_line (icp : nat * pw_card * pw_card_port) (cards : cards_t) : cards_t * list json :=
  let '(i, c, p) := icp in
  match card_call i ((fun f => f (cp_local_port p)) <$> op_port_stats_read ops) cards with
  | (cards, Some (Ok ps)) => (cards, [port_stats_json c p ps])
  | (cards, _) => (cards, [])
  end.

Definition build_port_stats (cfg : pw_config) (cards : cards_t) : cards_t * json :=
  let '(cards, _) := snap_all (length (cfg_cards cfg)) cards in
  let '(cards, ts) := first_ts (seq 0 (length (cfg_cards cfg))) cards in
  let '(cards, l) := collect port_stats_line
    (ic ← imap pair (cfg_cards cfg); p ← card_ports ic.2; [(ic, p)]) cards in
  (cards, JObject (ts ++ [("ports", JArray l)])).

(** ** TAP devices *)

Record pw_tap_state := {
  tq_admin_up : bool; tq_oper_up : bool; tq_addrs : list string;
  tq_rx_packets : Z; tq_rx_bytes : Z; tq_rx_dropped : Z;
  tq_tx_packets : Z; tq_tx_bytes : Z; tq_tx_dropped : Z
}.

Definition tap_kernel (st : pw_tap_state) : list (string * json) :=
  [("admin_up", JBool (tq_admin_up st)); ("oper_up", JBool (tq_oper_up st));
   ("addrs", JArray (JString <$> tq_addrs st));
   ("kernel", JObject
      [("rx_packets", jint64 (tq_rx_packets st)); ("rx_bytes", jint64 (tq_rx_bytes st));
       ("rx_dropped", jint64 (tq_rx_dropped st)); ("tx_packets", jint64 (tq_tx_packets st));
       ("tx_bytes", jint64 (tq_tx_bytes st)); ("tx_dropped", jint64 (tq_tx_dropped st))])].

Definition bridge_json (hp : pw_host_plane) (j : nat) : json :=
  let at_j ctr := jint64 (default 0 (ctr hp !! j)) in
  JObject [("to_tap_ok", at_j hp_punt_ok); ("to_tap_dropped", at_j hp_punt_dropped);
           ("from_tap_ok", at_j hp_tap_ok); ("from_tap_dropped", at_j hp_tap_dropped)].

(** Every binding of the interface, on every card; a later one replaces the key. *)
Definition bridges (cfg : pw_config) (hps : list (option pw_host_plane)) (lif : Z) : list json :=
  hp ← take (length (cfg_cards cfg)) hps;
  match hp with
  | None => []
  | Some hp =>
      jb ← imap pair (hp_bindings hp);
      if hb_logical_if_id jb.2 =? lif then [bridge_json hp jb.1] else []
  end.

Definition tap_line (tap_query : string -> option pw_tap_state) (cfg : pw_config)
    (hps : list (option pw_host_plane)) (th : tap_handle) : json :=
  JObject (fold_left (fun l b => jput "bridge" b l) (bridges cfg hps (th_lif_id th))
    ([("name", JString (th_name th)); ("logical_if_id", jint64 (th_lif_id th))] ++
     match pw_config_logical_if_by_id cfg (th_lif_id th) with
     | Some lif =>
         [("mac", JString (mac_text (lif_mac lif))); ("global_port", jint (lif_global_port lif));
          ("vlan", jint (lif_vlan lif)); ("mtu", jint (lif_mtu lif))]
     | None => []
     end ++
     match tap_query (th_name th) with Some st => tap_kernel st | None => [] end)).

Definition build_tap_stats (tap_query : string -> option pw_tap_state) (cfg : pw_config) (taps : list tap_handle)
    (hps : list (option pw_host_plane)) : json :=
  JObject [("taps", JArray (tap_line tap_query cfg hps <$> taps))].

(** ** Latency histogram *)

Definition build_flow_hist (cfg : pw_config) (prog : pw_program) (flow_id : Z) (cards : cards_t) : cards_t * json :=
  match list_find (fun m => i32 (m_global_flow_id m) = flow_id) (p_flow_meta prog) with
  | None => (cards, build_error "unknown flow")
  | Some (_, m) =>
      if negb (m_rx_slot_valid m) then
        (cards, build_error "background (TX-only) flow: no RX latency histogram") else
      match card_idx_by_id cfg (m_rx_card_id m), op_flow_hist_read ops with
      | Some rx_ci, Some hist =>
          if negb (card_open cards rx_ci) then (cards, build_error "backend not ready") else
          match card_call rx_ci (op_stats_snapshot ops) cards with
          | (cards, ss) =>
              if bool_decide (default PW_OK ss <> PW_OK) then (cards, build_error (pw_strerror (default PW_OK ss))) else
              match card_call rx_ci (Some (hist (m_rx_local_flow_id m) 64%nat)) cards with
              | (cards, Some (Ok buckets)) =>
                  (cards, JObject [("id", jint flow_id); ("n_buckets", jint (Z.of_nat (length buckets)));
                                   ("buckets", JArray (jint64 <$> buckets))])
              | (cards, Some (Err e)) => (cards, build_error (pw_strerror (e_status e)))
              | (cards, None) => (cards, build_error "backend not ready")
              end
          end
      | _, _ => (cards, build_error "backend not ready")
      end
  end.

(** ** Flow statistics *)

(** The counters of a slot of a card, zeroes when they cannot be read, and whether
    they are the card's: the card is known and open, and neither its snapshot nor
    the read failed. *)
Definition slot_stats (snap_ok : list bool) (ci : option nat) (slot : Z) (cards : cards_t) :
    cards_t * (pw_flow_stats * bool) :=
  match ci with
  | None => (cards, (zero_flow_stats, false))
  | Some ci =>
      match card_call ci ((fun f => f slot) <$> op_flow_stats_read ops) cards with
      | (cards, Some (Ok st)) =>
          (cards, (st, if (ci <? PW_MAX_CARDS)%nat then default true (snap_ok !! ci) else true))
      | (cards, _) => (cards, (zero_flow_stats, false))
      end
  end.

(** The RX side; a background flow has none, which is not a fault. *)
Definition rx_stats (snap_ok : list bool) (rx_ci : option nat) (m : pw_flow_meta) (cards : cards_t) :
    cards_t * (pw_flow_stats * bool) :=
  if negb (m_rx_slot_valid m) then (cards, (zero_flow_stats, true))
  else slot_stats snap_ok rx_ci (m_rx_local_flow_id m) cards.

Definition latency_fields (m : pw_flow_meta) (rs : pw_flow_stats) : list (string * json) :=
  let n := fs_sample_count rs in
  let have := 0 <? n in
  [("min_latency", jint64 (if have then u32 (fs_min_latency rs) else 0));
   ("max_latency", jint64 (u32 (fs_max_latency rs)));
   ("avg_latency", jint64 (if have then fs_sum_latency rs / n else 0)); ("sample_count", jint64 n);
   ("jitter_min", jint64 (if have then fs_jitter_min rs else 0)); ("jitter_max", jint64 (fs_jitter_max rs));
   ("jitter_avg", jint64 (if have then fs_jitter_sum rs / n else 0));
   ("latency_method", JString (if cross_card m then "gpio-corrected" else "same-card"))].

Definition flow_path (cfg : pw_config) (m : pw_flow_meta) : list (string * json) :=
  let cf := pw_config_flow_by_id cfg (m_global_flow_id m) in
  let txgp := from_option f_tx_global_port 0 cf in
  let rxgp := from_option f_rx_global_port 0 cf in
  [("name", JString (from_option f_name "" cf)); ("tx_global_port", jint txgp); ("rx_global_port", jint rxgp);
   ("tx_port", JString (port_label cfg txgp)); ("rx_port", JString (port_label cfg rxgp))].

Definition counter_fields (ts rs : pw_flow_stats) : list (string * json) :=
  [("tx_frames", jint64 (fs_tx_frames ts)); ("tx_bytes", jint64 (fs_tx_bytes ts));
   ("rx_frames", jint64 (fs_rx_frames rs)); ("rx_bytes", jint64 (fs_rx_bytes rs));
   ("lost", jint64 (fs_lost_packets_estimated rs)); ("duplicate", jint64 (fs_duplicate_count rs));
   ("out_of_order", jint64 (fs_out_of_order_count rs)); ("seq_gap", jint64 (fs_sequence_gap_count rs));
   ("last_seq", jint64 (fs_last_sequence rs))].

(** The live offset of a cross-card flow, for information. *)
Definition offset_field (lat_ok : bool) (m : pw_flow_meta) (tx_ci rx_ci : option nat) (cards : cards_t) :
    cards_t * list (string * json) :=
  match tx_ci, rx_ci with
  | Some tx, Some rx =>
      if lat_ok && cross_card m then
        match card_offset ops tx rx cards with
        | (cards, Some off) => (cards, [("offset_ticks", jint64 off)])
        | (cards, None) => (cards, [])
        end
      else (cards, [])
  | _, _ => (cards, [])
  end.

Definition flow_stats_line (cfg : pw_config) (prog : pw_program) (snap_ok : list bool) (m : pw_flow_meta)
    (cards : cards_t) : cards_t * list json :=
  let rx_ci := card_idx_by_id cfg (m_rx_card_id m) in
  let tx_ci := card_idx_by_id cfg (m_tx_card_id m) in
  let '(cards, (rs, rx_ok)) := rx_stats snap_ok rx_ci m cards in
  let '(cards, (ts, tx_ok)) := slot_stats snap_ok tx_ci (m_tx_local_flow_id m) cards in
  let read_ok := rx_ok && tx_ok in
  let lat_ok := read_ok && m_rx_slot_valid m && (m_latency_valid m || cross_card m) in
  let '(cards, off) := offset_field lat_ok m tx_ci rx_ci cards in
  (cards, [JObject
    ([("id", jint64 (m_global_flow_id m)); ("tx_card_id", jint (m_tx_card_id m)); ("rx_card_id", jint (m_rx_card_id m))] ++
     flow_path cfg m ++
     [("enabled", JBool (flow_enabled prog (m_global_flow_id m))); ("read_ok", JBool read_ok)] ++
     counter_fields ts rs ++ [("latency_valid", JBool lat_ok)] ++
     jif lat_ok (latency_fields m rs) ++ off)]).

Definition build_flow_stats (cfg : pw_config) (prog : pw_program) (filter_flow_id : Z) (cards : cards_t) :
    cards_t * json :=
  let n := length (cfg_cards cfg) in
  let '(cards, snap_ok) := snap_all (Nat.min n PW_MAX_CARDS) cards in
  let '(cards, ts) := first_ts (seq 0 n) cards in
  let '(cards, l) := collect (flow_stats_line cfg prog snap_ok)
    (filter (fun m => filter_flow_id < 0 \/ i32 (m_global_flow_id m) = filter_flow_id) (p_flow_meta prog)) cards in
  (cards, JObject (ts ++ [("flows", JArray l)])).
End Reports.

(** ** Frame preview *)

Definition template_code (f : pw_flow) : Z :=
  match tr_frame_template (f_traffic f) with
  | PW_FRAME_TEMPLATE_TEST => 0 | PW_FRAME_TEMPLATE_L4RAW => 1
  | PW_FRAME_TEMPLATE_L3RAW => 2 | PW_FRAME_TEMPLATE_L2RAW => 3
  end.

(** [MOD(nm, fm)]: one active modifier, separated from the ones before. *)
Definition mod_word (ml : string) (nm : string) (fm : pw_field_mod) : string :=
  match fm_mode fm with
  | PWFPGA_FIELD_STATIC => ml
  | mode => ml +:+ (if str_eq ml "" then "" else " ") +:+ nm +:+ "=" +:+
      match mode with PWFPGA_FIELD_INCREMENT => "inc" | _ => "rand" end
  end.
Definition mod_words (m : pw_flow_modifiers) : string :=
  fold_left (fun ml nf => mod_word ml nf.1 nf.2)
    [("src_ip", mod_src_ipv4 m); ("dst_ip", mod_dst_ipv4 m); ("sport", mod_udp_src m); ("dport", mod_udp_dst m);
     ("smac", mod_src_mac m); ("dmac", mod_dst_mac m); ("vlan", mod_vlan m)] "".

Definition hex_text (l : list Z) : string :=
  String.string_of_list_ascii (b ← l; [hex_char (b >>> 4); hex_char (b &&& 0xF)]).

Definition preview_decode (f : pw_flow) : json :=
  let t := template_code f in
  JObject
    ([("eth_dst", JString (mac_text (l2_dst_mac (f_l2 f)))); ("eth_src", JString (mac_text (l2_src_mac (f_l2 f))))] ++
     jif (l2_vlan_set (f_l2 f)) [("vlan", jint (l2_vlan (f_l2 f)))] ++
     jif (enc_present (f_encap f) && negb (t =? 3))
       [("encap", JString match enc_type (f_encap f) with
                          | PW_ENCAP_IPIP => "ipip" | PW_ENCAP_GRE => "gre" | _ => "etherip" end)] ++
     jif (negb (t =? 3)) [("l3", JString (if v6_present (f_ipv6 f) then "ipv6" else "ipv4"))] ++
     jif (negb (t =? 3) && negb (t =? 2)) [("l4", JString (if udp_l4_proto (f_udp f) =? 6 then "tcp" else "udp"))] ++
     jif (negb (str_eq (mod_words (f_mod f)) "")) [("mod", JString (mod_words (f_mod f)))]).

Definition preview_json (f : pw_flow) (seq : Z) (fr : pv_frame) : json :=
  JObject
    [("ok", JBool true); ("flow", jint (f_id f)); ("name", JString (f_name f));
     ("template", JString (let t := template_code f in
        if t =? 0 then "test" else if t =? 1 then "l4raw" else if t =? 2 then "l3raw" else "l2raw"));
     ("len", jint (pv_len fr)); ("header_len", jint (pv_built fr)); ("seq", jint64 seq);
     ("hex", JString (hex_text (take (Z.to_nat (pv_len fr)) (pv_buf fr)))); ("decode", preview_decode f)].

(** The configuration previewed: the submitted text, or the running one. *)
Definition preview_cfg (libyaml : string -> yaml_parser) `{InetPton} (run_cfg : pw_config) (yaml : option string) :
    result string pw_config :=
  match yaml with
  | Some y =>
      if str_eq y "" then Ok run_cfg else
      match pw_config_parse_string_ex (libyaml y) PW_CFG_TEST_ONLY pw_config_new with
      | Ok c => Ok c
      | Err e => Err (cstr 300 ("preview parse error at " +:+ cstr 41 (diag_text e).1 +:+ ": " +:+
                        cstr 221 (diag_text e).2))
      end
  | None => Ok run_cfg
  end.

Definition build_flow_preview (libyaml : string -> yaml_parser) `{InetPton} (run_cfg : pw_config)
    (yaml : option string) (want_id seq : Z) : json :=
  match preview_cfg libyaml run_cfg yaml with
  | Err msg => build_error msg
  | Ok cfg =>
      if bool_decide (cfg_flows cfg = []) then build_error "no flows to preview" else
      match list_find (fun f => want_id < 0 \/ i32 (f_id f) = want_id) (cfg_flows cfg) with
      | None => build_error "flow id not found"
      | Some (_, f) =>
          match pw_flow_build_preview 9200 f seq with
          | Ok fr => preview_json f seq fr
          | Err _ => build_error "cannot build preview (unsupported template/length)"
          end
      end
  end.
