(* ===== verification/TapDev.v ===== *)
(** * TAP devices

    Models [sw/libpacketwyrm/src/tap.c] over the kernel's calls: [open] of the TUN
    device, a control socket, the [ioctl]s with the interface request they carry,
    [close] and [getifaddrs]. The kernel is a parameter, [Kernel]; what the functions
    ask of it is what the lemmas are about. *)

From S2P Require Import Prelude Types Config Validate Scalar Text Reports.

Local Open Scope Z_scope.
Local Open Scope list_scope.

Definition IFNAMSIZ : nat := 16.
Definition IFF_UP : Z := 0x1.
Definition IFF_RUNNING : Z := 0x40.
Definition IFF_TAP : Z := 0x2.
Definition IFF_NO_PI : Z := 0x1000.
Definition ARPHRD_ETHER : Z := 1.
Definition PW_TAP_ADDR_MAX : nat := 8.

(** The requests, with the descriptor they are made on and the fields of the
    [ifreq] that matter. *)
Inductive ifreq :=
  | TUNSETIFF (name : text) (flags : Z)
  | TUNSETPERSIST (on : Z)
  | TUNSETCARRIER (on : Z)
  | SIOCGIFFLAGS (name : text)
  | SIOCSIFFLAGS (name : text) (flags : Z)
  | SIOCSIFHWADDR (name : text) (family : Z) (mac : list Z)
  | SIOCSIFMTU (name : text) (mtu : Z).

(** An entry of [getifaddrs]: the name and flags, and what [ifa_addr] and [ifa_data]
    hold. The counters are receive packets, bytes, dropped, then the same sent. *)
Inductive if_addr := NoAddr | Packet (st : option (Z * Z * Z * (Z * Z * Z))) | Inet (a : list Z) | Inet6 (a : list Z) | OtherAddr.
Record ifaddr := { ia_name : option text; ia_flags : Z; ia_addr : if_addr }.

(** An answer holds the name and the flags of the request after the call. *)
Class Kernel (K : Type) := {
  k_tun : K -> K * option Z;
  k_socket : K -> K * option Z;
  k_ioctl : Z -> ifreq -> K -> K * option (text * Z);
  k_close : Z -> K -> K;
  k_ifaddrs : K -> option (list ifaddr)
}.

(** [None] is a name that does not fit. *)
Definition set_ifr_name (name : text) : option text :=
  let n := length (take IFNAMSIZ name) in
  if (n =? 0)%nat || (IFNAMSIZ <=? n)%nat then None else Some (take n name).

Section Tap.
Context {K : Type} {kernel : Kernel K}.

Definition pw_tap_open (requested : option text) (k : K) : K * result pw_status (Z * text) :=
  let name := default [] requested in
  if (IFNAMSIZ <=? length (take IFNAMSIZ name))%nat then (k, Err PW_E_INVAL) else
  match k_tun k with
  | (k, None) => (k, Err PW_E_BACKEND)
  | (k, Some fd) =>
      match k_ioctl fd (TUNSETIFF (take (IFNAMSIZ - 1) name) (IFF_TAP ||| IFF_NO_PI)) k with
      | (k, None) => (k_close fd k, Err PW_E_BACKEND)
      | (k, Some (actual, _)) =>
          let k := (k_ioctl fd (TUNSETPERSIST 0) k).1 in
          let k := (k_ioctl fd (TUNSETCARRIER 1) k).1 in
          (k, Ok (fd, take (PW_TAP_IFNAME_MAX - 1) actual))
      end
  end.

Definition pw_tap_close (fd : Z) (k : K) : K := if 0 <=? fd then k_close fd k else k.

(** A control socket around a request made with a name that fits. *)
Definition with_ctl (name : text) (f : Z -> text -> K -> K * pw_status) (k : K) : K * pw_status :=
  match k_socket k with
  | (k, None) => (k, PW_E_BACKEND)
  | (k, Some s) =>
      match set_ifr_name name with
      | None => (k_close s k, PW_E_INVAL)
      | Some n => let '(k, st) := f s n k in (k_close s k, st)
      end
  end.

Definition ioctl_status (s : Z) (r : ifreq) (k : K) : K * pw_status :=
  let '(k, a) := k_ioctl s r k in (k, match a with Some _ => PW_OK | None => PW_E_BACKEND end).

Definition pw_tap_set_up (name : text) (up : bool) : K -> K * pw_status :=
  with_ctl name (fun s n k =>
    match k_ioctl s (SIOCGIFFLAGS n) k with
    | (k, None) => (k, PW_E_BACKEND)
    | (k, Some (_, flags)) =>
        ioctl_status s (SIOCSIFFLAGS n (if up then flags ||| IFF_UP else Z.ldiff flags IFF_UP)) k
    end).

Definition pw_tap_set_mac (name : text) (mac : list Z) : K -> K * pw_status :=
  with_ctl name (fun s n => ioctl_status s (SIOCSIFHWADDR n ARPHRD_ETHER mac)).

Definition pw_tap_set_mtu (name : text) (mtu : Z) : K -> K * pw_status :=
  with_ctl name (fun s n => ioctl_status s (SIOCSIFMTU n mtu)).
End Tap.

(** ** State of an interface *)

Section Query.
Context (inet_ntop : bool -> list Z -> option string).

Definition tap_zero : pw_tap_state := {|
  tq_admin_up := false; tq_oper_up := false; tq_addrs := [];
  tq_rx_packets := 0; tq_rx_bytes := 0; tq_rx_dropped := 0; tq_tx_packets := 0; tq_tx_bytes := 0; tq_tx_dropped := 0
|}.

Definition query_flags (flags : Z) (st : pw_tap_state) : pw_tap_state := {|
  tq_admin_up := ztrue (flags &&& IFF_UP); tq_oper_up := ztrue (flags &&& IFF_RUNNING); tq_addrs := tq_addrs st;
  tq_rx_packets := tq_rx_packets st; tq_rx_bytes := tq_rx_bytes st; tq_rx_dropped := tq_rx_dropped st;
  tq_tx_packets := tq_tx_packets st; tq_tx_bytes := tq_tx_bytes st; tq_tx_dropped := tq_tx_dropped st
|}.

Definition query_stats (c : Z * Z * Z * (Z * Z * Z)) (st : pw_tap_state) : pw_tap_state :=
  let '(rp, rb, rd, (tp, tb, td)) := c in {|
  tq_admin_up := tq_admin_up st; tq_oper_up := tq_oper_up st; tq_addrs := tq_addrs st;
  tq_rx_packets := rp; tq_rx_bytes := rb; tq_rx_dropped := rd; tq_tx_packets := tp; tq_tx_bytes := tb; tq_tx_dropped := td
|}.

Definition query_addr (v6 : bool) (a : list Z) (st : pw_tap_state) : pw_tap_state :=
  if (PW_TAP_ADDR_MAX <=? length (tq_addrs st))%nat then st else
  match inet_ntop v6 a with
  | None => st
  | Some s => {|
      tq_admin_up := tq_admin_up st; tq_oper_up := tq_oper_up st; tq_addrs := tq_addrs st ++ [s];
      tq_rx_packets := tq_rx_packets st; tq_rx_bytes := tq_rx_bytes st; tq_rx_dropped := tq_rx_dropped st;
      tq_tx_packets := tq_tx_packets st; tq_tx_bytes := tq_tx_bytes st; tq_tx_dropped := tq_tx_dropped st |}
  end.

Definition query_entry (st : pw_tap_state) (e : ifaddr) : pw_tap_state :=
  let st := query_flags (ia_flags e) st in
  match ia_addr e with
  | Packet (Some c) => query_stats c st
  | Inet a => query_addr false a st
  | Inet6 a => query_addr true a st
  | _ => st
  end.

Definition pw_tap_query {K} {kernel : Kernel K} (name : text) (k : K) : result pw_status pw_tap_state :=
  match k_ifaddrs k with
  | None => Err PW_E_BACKEND
  | Some l =>
      let mine := filter (fun e => ia_name e = Some name) l in
      if (length mine =? 0)%nat then Err PW_E_BACKEND else Ok (fold_left query_entry mine tap_zero)
  end.
End Query.

(** ** What reaches the kernel *)

(** A kernel with its descriptors and the requests made of it on record. *)
Record traced (K : Type) := { tr_kernel : K; tr_open : list Z; tr_asked : list ifreq }.
Arguments tr_kernel {K} t.
Arguments tr_open {K} t.
Arguments tr_asked {K} t.

#[export] Instance traced_kernel {K} {kernel : Kernel K} : Kernel (traced K) := {|
  k_tun t := let '(k, fd) := k_tun (tr_kernel t) in
    ({| tr_kernel := k; tr_open := option_list fd ++ tr_open t; tr_asked := tr_asked t |}, fd);
  k_socket t := let '(k, fd) := k_socket (tr_kernel t) in
    ({| tr_kernel := k; tr_open := option_list fd ++ tr_open t; tr_asked := tr_asked t |}, fd);
  k_ioctl fd r t := let '(k, a) := k_ioctl fd r (tr_kernel t) in
    ({| tr_kernel := k; tr_open := tr_open t; tr_asked := r :: tr_asked t |}, a);
  k_close fd t := {| tr_kernel := k_close fd (tr_kernel t);
    tr_open := filter (fun x => x <> fd) (tr_open t); tr_asked := tr_asked t |};
  k_ifaddrs t := k_ifaddrs (tr_kernel t)
|}.

Definition asks (r : ifreq) : option text :=
  match r with
  | TUNSETIFF n _ | SIOCGIFFLAGS n | SIOCSIFFLAGS n _ | SIOCSIFHWADDR n _ _ | SIOCSIFMTU n _ => Some n
  | TUNSETPERSIST _ | TUNSETCARRIER _ => None
  end.

Definition fits (name : text) : Prop := (0 < length name < IFNAMSIZ)%nat.

Lemma set_ifr_name_spec name n : set_ifr_name name = Some n <-> n = name /\ fits name.
Proof.
  unfold set_ifr_name, fits. rewrite length_take. destruct (_ || _) eqn:E.
  - split; [done|]. intros [_ H]. rewrite orb_true_iff, Nat.eqb_eq, Nat.leb_le in E. unfold IFNAMSIZ in *. lia.
  - rewrite orb_false_iff, Nat.eqb_neq, Nat.leb_gt in E. rewrite take_ge by (unfold IFNAMSIZ in *; lia).
    split; [intros [= <-]; split; [done|]; unfold IFNAMSIZ in *; lia|by intros [-> _]].
Qed.

(** What a call leaves: the requests it made, all for [name], and the descriptors
    that were open before. *)
Definition only_for {K} (name : text) (t t' : traced K) : Prop :=
  tr_open t' = tr_open t /\
  exists l, tr_asked t' = l ++ tr_asked t /\ Forall (fun r => asks r = Some name) l /\ (~ fits name -> l = []).

Section Exact.
Context {K : Type} {kernel : Kernel K}.

(** The kernel hands out descriptors that are not in use. *)
Definition hands_out_new (t : traced K) : Prop :=
  forall fd, (k_socket (tr_kernel t)).2 = Some fd \/ (k_tun (tr_kernel t)).2 = Some fd -> fd ∉ tr_open t.

(** Requests for a name, the descriptors kept. *)
Definition asks_for (n : text) (f : traced K -> traced K * pw_status) : Prop := forall t,
  tr_open (f t).1 = tr_open t /\ exists l, tr_asked (f t).1 = l ++ tr_asked t /\ Forall (fun r => asks r = Some n) l.

Lemma ioctl_status_asks s r n : asks r = Some n -> asks_for n (ioctl_status s r).
Proof.
  intros Hr t. unfold ioctl_status. cbn. destruct (k_ioctl s r (tr_kernel t)) as [k a]. cbn.
  split; [done|]. exists [r]. split; [done|]. by repeat constructor.
Qed.

Lemma dropped_new fd (l : list Z) : fd ∉ l -> filter (fun x => x <> fd) ([fd] ++ l) = l.
Proof.
  intros Hf. rewrite filter_app, filter_cons_False by naive_solver. apply filter_keep. by intros x Hx ->.
Qed.

Lemma with_ctl_only name f t : hands_out_new t -> (forall s, asks_for name (f s name)) ->
  only_for name t (with_ctl name f t).1.
Proof.
  intros Hn Hf. unfold with_ctl. cbn [k_socket traced_kernel].
  destruct (k_socket (tr_kernel t)) as [k [s|]] eqn:Es; cbn [fst].
  2:{ split; [done|]. exists []. split_and!; [done|constructor|done]. }
  assert (Hs : s ∉ tr_open t) by (apply Hn; rewrite Es; by left).
  set (t1 := {| tr_kernel := k; tr_open := _; tr_asked := _ |}).
  destruct (set_ifr_name name) as [n|] eqn:E.
  - apply set_ifr_name_spec in E as [-> Hfit]. destruct (Hf s t1) as (Ho & l & Hl & Hall).
    destruct (f s name t1) as [t2 st]. cbn [fst] in *. split; cbn [k_close traced_kernel tr_open tr_asked]; [rewrite Ho; by apply dropped_new|].
    exists l. split_and!; [exact Hl|done|]. intros H. by destruct H.
  - split; [by apply dropped_new|]. exists []. split_and!; [done|constructor|done].
Qed.

Lemma set_up_only name up t : hands_out_new t -> only_for name t (pw_tap_set_up name up t).1.
Proof.
  intros Hn. apply with_ctl_only; [done|]. intros s t0. cbn [k_ioctl traced_kernel].
  destruct (k_ioctl s (SIOCGIFFLAGS name) (tr_kernel t0)) as [k [[n flags]|]]; cbn [fst].
  - edestruct (ioctl_status_asks s (SIOCSIFFLAGS name (if up then flags ||| IFF_UP else Z.ldiff flags IFF_UP)) name)
      as (Ho & l & Hl & Hall); [done|]. rewrite Ho, Hl. split; [done|].
    exists (l ++ [SIOCGIFFLAGS name]). rewrite <- (assoc_L (++)). split; [done|]. apply Forall_app. by repeat constructor.
  - split; [done|]. exists [SIOCGIFFLAGS name]. split; [done|]. by repeat constructor.
Qed.

Lemma set_mac_only name mac t : hands_out_new t -> only_for name t (pw_tap_set_mac name mac t).1.
Proof. intros Hn. apply with_ctl_only; [done|]. intros s. by apply ioctl_status_asks. Qed.

Lemma set_mtu_only name mtu t : hands_out_new t -> only_for name t (pw_tap_set_mtu name mtu t).1.
Proof. intros Hn. apply with_ctl_only; [done|]. intros s. by apply ioctl_status_asks. Qed.

(** Opening asks for the whole name or not at all; a device that is refused is
    closed. *)
Lemma tap_open_exact name t : hands_out_new t ->
  match pw_tap_open (Some name) t with
  | (t', Err _) => tr_open t' = tr_open t /\
      (tr_asked t' = tr_asked t \/ tr_asked t' = TUNSETIFF name 0x1002 :: tr_asked t)
  | (t', Ok (fd, _)) => tr_open t' = fd :: tr_open t /\ (fd ∉ tr_open t) /\
      tr_asked t' = TUNSETCARRIER 1 :: TUNSETPERSIST 0 :: TUNSETIFF name 0x1002 :: tr_asked t
  end.
Proof.
  intros Hn. unfold pw_tap_open. change (default [] (Some name)) with name. rewrite length_take.
  destruct (Nat.leb_spec IFNAMSIZ (Nat.min IFNAMSIZ (length name))) as [Hl|Hl]; [by auto|].
  rewrite take_ge by (unfold IFNAMSIZ in *; lia). cbn [k_tun traced_kernel].
  destruct (k_tun (tr_kernel t)) as [k [fd|]] eqn:Et; [|by auto].
  assert (Hfd : fd ∉ tr_open t) by (apply Hn; rewrite Et; by right).
  cbn [k_ioctl traced_kernel tr_kernel].
  change (IFF_TAP ||| IFF_NO_PI) with 0x1002. destruct (k_ioctl fd _ k) as [k2 [[actual fl]|]].
  - cbn. destruct (k_ioctl _ _ k2) as [k3 ?]. cbn. destruct (k_ioctl _ _ k3) as [k4 ?]. by cbn.
  - split; [by apply dropped_new|]. by right.
Qed.
End Exact.

(** ** What a query reports *)

Definition texts_of (inet_ntop : bool -> list Z -> option string) (e : ifaddr) : list string :=
  match ia_addr e with
  | Inet a => option_list (inet_ntop false a)
  | Inet6 a => option_list (inet_ntop true a)
  | _ => []
  end.

Lemma query_entry_addrs ntop st e : (length (tq_addrs st) <= PW_TAP_ADDR_MAX)%nat ->
  tq_addrs (query_entry ntop st e) = take PW_TAP_ADDR_MAX (tq_addrs st ++ texts_of ntop e).
Proof.
  intros Hl. assert (Hk : tq_addrs st = take PW_TAP_ADDR_MAX (tq_addrs st ++ [])) by (by rewrite app_nil_r, take_ge).
  assert (Ha : forall b a, tq_addrs (query_addr ntop b a (query_flags (ia_flags e) st)) =
    take PW_TAP_ADDR_MAX (tq_addrs st ++ option_list (ntop b a))).
  { intros b a. unfold query_addr. cbn [query_flags tq_addrs].
    destruct (Nat.leb_spec PW_TAP_ADDR_MAX (length (tq_addrs st))) as [H|H].
    - by rewrite take_app_le, take_ge by lia.
    - destruct (ntop b a); [|done]. cbn [tq_addrs option_list]. rewrite take_ge; [done|].
      rewrite length_app. cbn. lia. }
  unfold query_entry, texts_of. destruct (ia_addr e) as [|[[[[? ?] ?] [[? ?] ?]]|]|a|a|]; try done; apply Ha.
Qed.

Lemma query_addrs ntop l : forall st, (length (tq_addrs st) <= PW_TAP_ADDR_MAX)%nat ->
  tq_addrs (fold_left (query_entry ntop) l st) = take PW_TAP_ADDR_MAX (tq_addrs st ++ (l ≫= texts_of ntop)).
Proof.
  induction l as [|e l IH]; intros st Hl; cbn [fold_left].
  - by rewrite app_nil_r, take_ge.
  - rewrite IH; rewrite query_entry_addrs by done; [|rewrite length_take; lia].
    cbn [mbind list_bind]. rewrite (assoc_L (++)). generalize (tq_addrs st ++ texts_of ntop e) as a. intros a.
    destruct (decide (length a <= PW_TAP_ADDR_MAX)%nat) as [H|H]; [by rewrite (take_ge a)|].
    rewrite take_app_le by (rewrite length_take; lia). rewrite take_take, Nat.min_id. by rewrite take_app_le by lia.
Qed.

(** A query finds an interface exactly when the kernel lists it, and reports its
    first eight addresses, in order. *)
Lemma tap_query_exact {K} {kernel : Kernel K} ntop name k l : k_ifaddrs k = Some l ->
  let mine := filter (fun e => ia_name e = Some name) l in
  match pw_tap_query ntop name k with
  | Err st => mine = [] /\ st = PW_E_BACKEND
  | Ok st => mine <> [] /\ tq_addrs st = take PW_TAP_ADDR_MAX (mine ≫= texts_of ntop)
  end.
Proof.
  intros Hk. unfold pw_tap_query. rewrite Hk. destruct (filter _ l) as [|e mine]; cbn [length Nat.eqb]; [done|].
  split; [done|]. rewrite query_addrs by (cbn; unfold PW_TAP_ADDR_MAX; lia). done.
Qed.
