(* ===== verification/Requests.v ===== *)
(** * The daemon's control requests

    Models [handle_client] of [sw/packetwyrmd/src/main.c]: one request frame in,
    the access check, the dispatch over every method, one reply frame out. The
    server is the daemon of [Daemon] with the host planes, the TAP table, the SFP
    cache and the environment file; the calls around it (the file system, the TUN
    driver, [malloc]) answer from the parameter [req_env]. *)

From Stdlib Require Import Ascii.
From Stdlib Require String.
From S2P Require Import Prelude StateMonad Types Config Validate Csr FlowCompiler Backend Scalar Text Yaml ConfigParse Ipc.
From S2P Require Import HostPlane SpiFlash Daemon Taps Json Forms Secrets Reports.

Local Open Scope string_scope.
Local Open Scope Z_scope.
Local Open Scope list_scope.

(** The methods by name. *)
Inductive rpc :=
| RVersion | RCards | RPorts | RFlows | RStats | RPortStats | RTapStats | RFlowHist | RFlowPreview | RFlowStats
| RSfpInfo | RTest (a : test_action) | RStatsClear | RConfigLoad | RConfigGetRaw | RConfigGetTest | RConfigSave
| RFlow (enable : bool) | RFlashId | RFlashWrite.

Definition rpc_names : list (string * rpc) :=
  [("version", RVersion); ("cards", RCards); ("ports", RPorts); ("flows", RFlows); ("stats", RStats);
   ("ports.stats", RPortStats); ("tap.stats", RTapStats); ("flow.hist", RFlowHist);
   ("flow.preview", RFlowPreview); ("flow.stats", RFlowStats); ("sfp.info", RSfpInfo);
   ("test.start", RTest TestStart); ("test.stop", RTest TestStop); ("test.arm", RTest TestArm);
   ("stats.clear", RStatsClear); ("config.load", RConfigLoad); ("config.get_raw", RConfigGetRaw);
   ("config.get_test", RConfigGetTest); ("config.save", RConfigSave); ("flow.start", RFlow true);
   ("flow.stop", RFlow false); ("flash.id", RFlashId); ("flash.write", RFlashWrite)].

(** [strcmp] against each name in turn. *)
Definition rpc_of (name : string) : option rpc :=
  (fun x => x.2.2) <$> list_find (fun nr : string * rpc => nr.1 = name) rpc_names.

(** The answers of the calls around a request: [fopen] of a path (NULL for the JSON
    null) with the size [ftell] reports and the bytes the file delivers. *)
Record req_env := {
  re_version : string;
  re_save : save_env;
  re_tap_query : string -> option pw_tap_state;
  re_fopen : option string -> option (Z * list Z);
  re_malloc : bool
}.

(** ** Replies *)

Definition counts_json (action : string) (changed failed : Z) : list (string * json) :=
  [("action", JString action); ("changed", jint changed); ("failed", jint failed)].

Definition sync_warning : string :=
  "cross-card servo has no coherent J5 offset yet -- cross-card latency may be wrong; wait for sync then re-arm (test.arm) to re-baseline".

Definition test_json (name : string) (r : test_reply) : json :=
  JObject (counts_json name (tr_changed r) (tr_failed r) ++
    match tr_programmed r with Some b => [("programmed", JBool b)] | None => [] end ++
    match tr_converged r with
    | Some conv => ("servo_converged", JBool conv) :: jif (negb conv) [("warning", JString sync_warning)]
    | None => []
    end).

Definition load_json (r : result string (nat * nat)) : json :=
  match r with
  | Err msg => build_error msg
  | Ok (n_flows, n_rows) =>
      JObject [("ok", JBool true); ("n_flows", jint (Z.of_nat n_flows)); ("n_classifier_rows", jint (Z.of_nat n_rows))]
  end.

Definition text_json (t : text) : json := JString (String.string_of_list_ascii t).

Definition raw_json (path : string) (r : raw_reply) : json :=
  JObject ([("path", JString path); ("yaml", text_json (rr_yaml r)); ("secret_set", JBool (rr_secret_set r))] ++
    match rr_error r with Some e => [("error", JString e)] | None => [] end).

Definition save_json (path : string) (r : result string save_reply) : json :=
  match r with
  | Err msg => build_error msg
  | Ok s => JObject [("ok", JBool true); ("path", JString path);
                     ("restart_required", JBool (sr_restart_required s));
                     ("topology_change", JBool (sr_topology_change s))]
  end.

Section Server.
Context {C : Type} (ops : pw_card_backend_ops C).
Context (libyaml : string -> yaml_parser) {IP : InetPton} {IN : InetNtop} {JC : JsonC}.

Abbreviation cards_t := (list (@card_runtime C)).

Record server := {
  sv_d : @daemon C;
  sv_hps : list (option pw_host_plane);
  sv_taps : list tap_handle;
  sv_sfp : sfp_cache;
  sv_loaded : option text;   (* g_env_loaded_yaml *)
  sv_disk : disk
}.

Definition set_d (s : server) (d : @daemon C) : server :=
  {| sv_d := d; sv_hps := sv_hps s; sv_taps := sv_taps s; sv_sfp := sv_sfp s; sv_loaded := sv_loaded s;
     sv_disk := sv_disk s |}.
Definition set_disk (s : server) (dk : disk) : server :=
  {| sv_d := sv_d s; sv_hps := sv_hps s; sv_taps := sv_taps s; sv_sfp := sv_sfp s; sv_loaded := sv_loaded s;
     sv_disk := dk |}.

(** A report that reads the cards. *)
Definition report (f : cards_t -> cards_t * json) (s : server) : server * json :=
  let '(cards, j) := f (d_cards (sv_d s)) in (set_d s (set_cards (sv_d s) cards), j).

(** ** Members of the request *)

Definition int_member (k : string) (dflt : Z) (req : json) : Z := from_option jc_int dflt (jget k req).

(** A member that must be a JSON string, as the C string the code measures with [strlen]. *)
Definition string_member (k : string) (req : json) : option string :=
  match jget k req with Some (JString s) => Some (c_string s) | _ => None end.

(** ** Flash *)

Definition first_open (cards : cards_t) : option nat :=
  fst <$> list_find (fun cr => cr_open cr = true) cards.

Definition flash_id (cards : cards_t) : cards_t * json :=
  match first_open cards with
  | None => (cards, build_error "no open card")
  | Some ci =>
      let '(cards, r) := card_call ci (Some (pw_flash_read_id ops)) cards in
      let '(id, st) := match r with
                       | Some (Ok id) => (id, PW_OK)
                       | Some (Err e) => ([0; 0; 0], e)
                       | None => ([0; 0; 0], PW_E_NO_CARD) end in
      let at_ i := hex 2 (nth i id 0) in
      (cards, JObject [("jedec_id", JString (cstr 16 (at_ 0%nat +:+ " " +:+ at_ 1%nat +:+ " " +:+ at_ 2%nat)));
                       ("status", JString (pw_strerror st))])
  end.

Definition flash_reply (sz off : Z) (r : option (result pw_status Z)) : json :=
  let '(mism, st) := match r with
                     | Some (Ok m) => (m, PW_OK)
                     | Some (Err e) => (0, e)
                     | None => (0, PW_E_NO_CARD) end in
  JObject [("bytes", jint64 sz); ("offset", jint64 off); ("mismatch", jint64 mism);
           ("verified", JBool (bool_decide (st = PW_OK) && (mism =? 0))); ("status", JString (pw_strerror st))].

(** The image to program, or the refusal: [sz] bytes of the file within the 16 MB
    the flash addresses. *)
Definition flash_image (e : req_env) (path : option string) (off : Z) : result string (list Z) :=
  match re_fopen e path with
  | None => Err "open file failed"
  | Some (sz, data) =>
      if (sz <=? 0) || ((16 <<< 20) <? sz) then Err "bad file size" else
      if 0x01000000 <? off + sz then
        Err "offset+size exceeds 16 MB (would wrap onto boot image); use offset 0 for a full image" else
      if negb (re_malloc e) then Err "out of memory" else
      let img := take (Z.to_nat sz) data in
      if (length img =? Z.to_nat sz)%nat then Ok img else Err "file read failed"
  end.

Definition flash_write (e : req_env) (req : json) (cards : cards_t) : cards_t * json :=
  match jget "path" req, first_open cards with
  | None, _ => (cards, build_error "missing path")
  | _, None => (cards, build_error "no open card")
  | Some jp, Some ci =>
      let off := match jget "offset" req with Some jo => u32 (jc_int64 jo) | None => 0x00E00000 end in
      match flash_image e (jc_string jp) off with
      | Err msg => (cards, build_error msg)
      | Ok img =>
          let '(cards, r) := card_call ci (Some (pw_flash_program ops off img)) cards in
          (cards, flash_reply (Z.of_nat (length img)) off r)
      end
  end.

(** ** Dispatch *)

Definition run_rpc (e : req_env) (name : string) (r : rpc) (req : json) (s : server) : server * json :=
  let d := sv_d s in
  let cfg := d_cfg d in
  let prog := d_prog d in
  let cards := d_cards d in
  match r with
  | RVersion => (s, build_version (re_version e))
  | RCards => report (build_cards ops cfg) s
  | RPorts => (s, build_ports cfg)
  | RFlows => (s, build_flows cfg prog)
  | RStats => (s, build_stats cfg cards (sv_hps s) (int_member "card" (-1) req))
  | RPortStats => report (build_port_stats ops cfg) s
  | RTapStats => (s, build_tap_stats (re_tap_query e) cfg (sv_taps s) (sv_hps s))
  | RFlowHist =>
      match jget "id" req with
      | None => (s, build_error "missing id")
      | Some jid => report (build_flow_hist ops cfg prog (jc_int jid)) s
      end
  | RFlowPreview =>
      (s, build_flow_preview libyaml cfg (jget "yaml" req ≫= jc_string) (int_member "id" (-1) req)
            (from_option (fun j => u32 (jc_int64 j)) 0 (jget "seq" req)))
  | RFlowStats => report (build_flow_stats ops cfg prog (int_member "id" (-1) req)) s
  | RSfpInfo => (s, build_sfp_info cfg cards (sv_sfp s) (int_member "card" (-1) req) (int_member "port" (-1) req))
  | RTest a => let '(d, rep) := rpc_test ops a d in (set_d s d, test_json name rep)
  | RStatsClear =>
      let '(d, (changed, failed)) := rpc_stats_clear ops d in
      (set_d s d, JObject (counts_json "stats.clear" changed failed))
  | RConfigLoad =>
      let '(d, rep) := do_config_load ops libyaml (string_member "yaml" req) d in (set_d s d, load_json rep)
  | RConfigGetRaw => (s, raw_json (sv_path (re_save e)) (build_config_get_raw (f_text <$> dk_env (sv_disk s)) cfg))
  | RConfigGetTest => (s, build_config_get_test (d_test_yaml d) cfg)
  | RConfigSave =>
      let '(dk, rep) := do_config_save libyaml (re_save e) (sv_loaded s) cfg
                          (chars <$> string_member "yaml" req) (sv_disk s) in
      (set_disk s dk, save_json (sv_path (re_save e)) rep)
  | RFlow en =>
      match jget "id" req with
      | None => (s, build_error "missing id")
      | Some jid =>
          let '(d, st) := rpc_flow ops (jc_int64 jid) en d in
          (set_d s d, JObject [("id", jint64 (u32 (jc_int64 jid))); ("enable", JBool en);
                               ("status", JString (pw_strerror st))])
      end
  | RFlashId => report flash_id s
  | RFlashWrite => report (flash_write e req) s
  end.

Definition run_request (e : req_env) (name : option string) (req : json) (s : server) : server * json :=
  match name with
  | None => (s, build_error "missing rpc")
  | Some name =>
      match rpc_of name with
      | None => (s, build_error "unknown rpc")
      | Some r => run_rpc e name r req s
      end
  end.

(** The secret the request carries: [None] when there is none, [Some None] for null. *)
Definition carried_secret (req : json) : option (option text) :=
  (fun js => (fun x => chars (c_string x)) <$> jc_string js) <$> jget "secret" req.

(** The reply to the bytes of one frame; [None] when the access check dereferences
    the null pointer of a JSON null secret. *)
Definition handle_request (e : req_env) (buf : string) (s : server) : option (server * json) :=
  match jc_parse buf with
  | None => Some (s, build_error "invalid JSON")
  | Some (JObject l) =>
      let req := JObject l in
      match authed (chars (sys_secret (cfg_system (d_cfg (sv_d s))))) (carried_secret req) with
      | None => None
      | Some false => Some (s, build_error "unauthorized")
      | Some true => Some (run_request e (string_member "rpc" req) req s)
      end
  | Some _ => Some (s, build_error "request must be a JSON object")
  end.

(** The bytes of a C string. *)
Definition string_bytes (s : string) : list Z := text_bytes (chars (c_string s)).
Definition bytes_string (l : list Z) : string := String.string_of_list_ascii (bytes_text l).

(** One connection: the answers [ks] of its reads and writes, and what the peer
    sends. The result of the write is not looked at. *)
Definition handle_client (e : req_env) (ks : list io_answer) (sent : list Z) (s : server) :
    option (server * list Z) :=
  match pw_ipc_read_frame ks sent PW_IPC_FRAME_MAX with
  | (_, ks, Done (Ok body)) =>
      '(s, resp) ← handle_request e (bytes_string body) s;
      Some (s, (pw_ipc_write_frame ks (string_bytes (jc_print resp))).1.1)
  | _ => Some (s, [])
  end.

(** One pass of the SFP refresh thread. *)
Definition sfp_tick (s : server) : server :=
  let '(cards, cache) := sfp_refresh_once ops (length (d_cards (sv_d s))) (d_cards (sv_d s), sv_sfp s) in
  {| sv_d := set_cards (sv_d s) cards; sv_hps := sv_hps s; sv_taps := sv_taps s; sv_sfp := cache;
     sv_loaded := sv_loaded s; sv_disk := sv_disk s |}.
End Server.
