(* ===== verification/ReportProps.v ===== *)
(** * Reports and drivers keep the configuration

    What the daemon's read-only requests, the SFP refresh, the flash requests and
    the host plane rely on of a card beyond [DaemonCard]: statistics and slow-path
    operations leave the tables, the rows and the identity alone. From it, each of
    them does. *)

From S2P Require Import Prelude StateMonad Types Config Csr FlowCompiler Backend Programming GpioSync HostPlane.
From S2P Require Import SpiFlash Sfp Daemon DaemonProps Json Forms Reports.

Local Open Scope Z_scope.

Class ReportCard {C : Type} (ops : pw_card_backend_ops C) := {
  rp_daemon :: DaemonCard ops;
  rp_snapshot : forall f c, op_stats_snapshot ops = Some f -> kept c (f c).1;
  rp_ports : forall f p c, op_port_stats_read ops = Some f -> is_u8 p -> kept c (f p c).1;
  rp_flows : forall f l c, op_flow_stats_read ops = Some f -> is_u32 l -> kept c (f l c).1;
  rp_hist : forall f l n c, op_flow_hist_read ops = Some f -> is_u32 l -> kept c (f l n c).1;
  rp_rx : forall f n c, op_slow_path_rx ops = Some f -> kept c (f n c).1;
  rp_tx : forall f bs l p c, op_slow_path_tx ops = Some f -> kept c (f bs l p c).1
}.

Section Kept.
Context {C : Type} {ops : pw_card_backend_ops C} {RC : ReportCard ops}.

Abbreviation cards_t := (list (@card_runtime C)).

(** ** Registers *)

Lemma write_kept w off v (c : C) : op_write32 ops = Some w -> ctl_off off -> kept c (w off v c).1.
Proof.
  intros Hw Ho. pose proof (wr_reg_kept (ops := ops) off v c Ho) as H. unfold wr_reg in H. by rewrite Hw in H.
Qed.

Lemma read_kept r off (c : C) : op_read32 ops = Some r -> read_off off -> kept c (r off c).1.
Proof. intros Hr Ho Hc. by apply (dc_read r off c). Qed.

(** ** Calls over the list of cards *)

Lemma card_call_kept {A} ci (op : option (C -> C * A)) (cs : cards_t) :
  (forall f c, op = Some f -> kept (ops := ops) c (f c).1) -> kept_all (ops := ops) cs (card_call ci op cs).1.
Proof.
  intros Hop. unfold card_call. destruct (cs !! ci) as [cr|] eqn:Hci; [|reflexivity].
  destruct op as [f|]; [|reflexivity]. destruct (cr_open cr); [|reflexivity].
  pose proof (Hop f (cr_ctx cr) eq_refl) as Hk. destruct (f (cr_ctx cr)) as [c a]. by apply kept_insert.
Qed.

Lemma collect_kept {A B} (f : A -> cards_t -> cards_t * list B) l :
  (forall x, x ∈ l -> forall cs, kept_all (ops := ops) cs (f x cs).1) ->
  forall cs, kept_all (ops := ops) cs (collect f l cs).1.
Proof.
  induction l as [|x l IH]; intros Hf cs; [reflexivity|]. cbn [collect].
  pose proof (Hf x ltac:(left) cs) as H1. destruct (f x cs) as [cs1 b]. cbn [fst] in H1.
  pose proof (IH (fun y Hy => Hf y (list_elem_of_further y x l Hy)) cs1) as H2.
  destruct (collect f l cs1) as [cs2 bs]. by etransitivity.
Qed.

Lemma card_reg_kept ci off (cs : cards_t) : read_off off -> kept_all (ops := ops) cs (card_reg ops ci off cs).1.
Proof.
  intros Ho. unfold card_reg.
  pose proof (card_call_kept ci ((fun rd => rd off) <$> op_read32 ops) cs) as H.
  destruct (card_call _ _ _) as [cs1 [[[] v]|]]; apply H; intros f c (r & Hr & ->)%fmap_Some; by apply read_kept.
Qed.

Ltac keep_reg cs1 v :=
  match goal with
  | |- context [card_reg ops ?ci ?off ?cs] =>
      let H := fresh in
      pose proof (card_reg_kept ci off cs ltac:(by split)) as H;
      destruct (card_reg ops ci off cs) as [cs1 v]; cbn [fst] in H
  end.

(** ** The reports *)

Lemma identity_kept ci (cs : cards_t) : kept_all (ops := ops) cs (card_identity ops ci cs).1.
Proof.
  unfold card_identity. pose proof (card_call_kept ci (op_card_info ops) cs) as H.
  destruct (card_call _ _ _) as [cs1 [[[] i]|]]; apply H; intros f c Hf [H1 H2];
    rewrite (ct_info f c Hf H1 H2); (split; [by split|apply same_card_refl]).
Qed.

Lemma health_kept ci (cs : cards_t) : kept_all (ops := ops) cs (card_health ops ci cs).1.
Proof.
  unfold card_health. keep_reg cs1 gs. keep_reg cs2 t.
  destruct t as [t|]; [|by etransitivity]. destruct (ztrue _); [|by etransitivity].
  keep_reg cs3 sup. etransitivity; [eassumption|]. by etransitivity.
Qed.

Lemma build_cards_kept cfg (cs : cards_t) : kept_all (ops := ops) cs (build_cards ops cfg cs).1.
Proof.
  unfold build_cards.
  pose proof (collect_kept (card_line ops) (imap pair (cfg_cards cfg))) as H.
  specialize (H ltac:(intros [i c] _ cs0; unfold card_line;
    pose proof (identity_kept i cs0) as H1; destruct (card_identity ops i cs0) as [cs1 l1];
    pose proof (health_kept i cs1) as H2; destruct (card_health ops i cs1) as [cs2 l2]; by etransitivity) cs).
  by destruct (collect _ _ _).
Qed.

Lemma snap_all_kept n (cs : cards_t) : kept_all (ops := ops) cs (snap_all ops n cs).1.
Proof.
  apply collect_kept. intros ci _ cs0. unfold snap_one.
  pose proof (card_call_kept ci (op_stats_snapshot ops) cs0 (rp_snapshot)) as H.
  by destruct (card_call _ _ _) as [cs1 [s|]].
Qed.

Lemma first_ts_kept cis : forall cs : cards_t, kept_all (ops := ops) cs (first_ts ops cis cs).1.
Proof.
  induction cis as [|ci cis IH]; intros cs; cbn [first_ts]; [by destruct (op_read32 ops)|].
  destruct (op_read32 ops); [|done]. destruct (negb _); [apply IH|].
  keep_reg cs1 lo. destruct lo; [|done]. keep_reg cs2 hi. by etransitivity.
Qed.

Definition ports_typed (cfg : pw_config) : Prop :=
  forall c p, c ∈ cfg_cards cfg -> p ∈ card_ports c -> is_u8 (cp_local_port p).
Definition slots_typed (prog : pw_program) : Prop :=
  forall m, m ∈ p_flow_meta prog -> is_u32 (m_tx_local_flow_id m) /\
    (m_rx_slot_valid m = true -> is_u32 (m_rx_local_flow_id m)).

Lemma build_port_stats_kept cfg (cs : cards_t) : ports_typed cfg ->
  kept_all (ops := ops) cs (build_port_stats ops cfg cs).1.
Proof.
  intros Hp. unfold build_port_stats.
  pose proof (snap_all_kept (length (cfg_cards cfg)) cs) as H1. destruct (snap_all _ _ _) as [cs1 ?].
  pose proof (first_ts_kept (seq 0 (length (cfg_cards cfg))) cs1) as H2. destruct (first_ts _ _ _) as [cs2 ?].
  match goal with |- context [collect ?f ?l cs2] => pose proof (collect_kept f l) as H3 end.
  cbn [fst] in *. destruct (collect _ _ cs2) as [cs3 ?] eqn:E.
  etransitivity; [exact H1|]. etransitivity; [exact H2|]. apply (f_equal fst) in E. cbn [fst] in *. subst cs3.
  apply H3. intros [[i c] p] Hin cs0.
  apply list_elem_of_bind in Hin as ([i' c'] & Hin & Hic).
  apply list_elem_of_bind in Hin as (p' & Hin%list_elem_of_singleton & Hpp). injection Hin as -> -> ->.
  assert (is_u8 (cp_local_port p')) as Hu.
  { apply (Hp c'); [|done]. apply list_elem_of_lookup in Hic as [k Hk]. rewrite list_lookup_imap in Hk.
    apply fmap_Some in Hk as (x & Hx & [= _ ->]). by eapply list_elem_of_lookup_2. }
  unfold port_stats_line.
  pose proof (card_call_kept i' ((fun f => f (cp_local_port p')) <$> op_port_stats_read ops) cs0) as H.
  destruct (card_call _ _ _) as [cs1' [[|]|]]; apply H; intros f c0 (g & Hg & ->)%fmap_Some; by apply rp_ports.
Qed.

Lemma build_flow_hist_kept cfg prog id (cs : cards_t) : slots_typed prog ->
  kept_all (ops := ops) cs (build_flow_hist ops cfg prog id cs).1.
Proof.
  intros Hs. unfold build_flow_hist. destruct (list_find _ _) as [[j m]|] eqn:Hm; [|done].
  apply list_find_Some in Hm as (Hm%list_elem_of_lookup_2 & _ & _).
  destruct (m_rx_slot_valid m) eqn:Hv; [|done]. cbn [negb].
  destruct (card_idx_by_id cfg _) as [ci|]; [|done]. destruct (op_flow_hist_read ops) as [hist|] eqn:Hh; [|done].
  destruct (negb _); [done|].
  pose proof (card_call_kept ci (op_stats_snapshot ops) cs rp_snapshot) as H1.
  destruct (card_call ci (op_stats_snapshot ops) cs) as [cs1 ss]. cbn [fst] in H1.
  destruct (bool_decide _); [done|].
  pose proof (card_call_kept ci (Some (hist (m_rx_local_flow_id m) 64%nat)) cs1) as H2.
  assert (kept_all (ops := ops) cs (card_call ci (Some (hist (m_rx_local_flow_id m) 64%nat)) cs1).1) as H3.
  { etransitivity; [exact H1|]. apply H2. intros f c [= <-]. apply rp_hist; [done|]. by apply (Hs m). }
  by destruct (card_call ci (Some _) cs1) as [cs2 [[|]|]].
Qed.

Lemma slot_stats_kept snap ci slot (cs : cards_t) : is_u32 slot ->
  kept_all (ops := ops) cs (slot_stats ops snap ci slot cs).1.
Proof.
  intros Hs. unfold slot_stats. destruct ci as [ci|]; [|done].
  pose proof (card_call_kept ci ((fun f => f slot) <$> op_flow_stats_read ops) cs) as H.
  destruct (card_call _ _ _) as [cs1 [[|]|]]; apply H; intros f c (g & Hg & ->)%fmap_Some; by apply rp_flows.
Qed.

Lemma offset_field_kept l m tx rx (cs : cards_t) : kept_all (ops := ops) cs (offset_field ops l m tx rx cs).1.
Proof.
  unfold offset_field. destruct tx as [tx|]; [|done]. destruct rx as [rx|]; [|done]. destruct (_ && _); [|done].
  pose proof (offset_kept tx rx cs) as H. by destruct (card_offset ops tx rx cs) as [cs3 [o|]].
Qed.

Lemma flow_stats_line_kept cfg prog snap m (cs : cards_t) : slots_typed prog -> m ∈ p_flow_meta prog ->
  kept_all (ops := ops) cs (flow_stats_line ops cfg prog snap m cs).1.
Proof.
  intros Hs Hm. destruct (Hs m Hm) as [Ht Hr]. unfold flow_stats_line.
  assert (forall ci, kept_all (ops := ops) cs (rx_stats ops snap ci m cs).1) as H1.
  { intros ci. unfold rx_stats. destruct (m_rx_slot_valid m); [|done]. by apply slot_stats_kept, Hr. }
  specialize (H1 (card_idx_by_id cfg (m_rx_card_id m))).
  destruct (rx_stats ops snap _ m cs) as [cs1 [rs rok]]. cbn [fst] in H1.
  pose proof (slot_stats_kept snap (card_idx_by_id cfg (m_tx_card_id m)) _ cs1 Ht) as H2.
  destruct (slot_stats ops snap _ _ cs1) as [cs2 [ts tok]]. cbn [fst] in H2.
  match goal with |- context [offset_field ops ?l m ?tx ?rx cs2] =>
    pose proof (offset_field_kept l m tx rx cs2) as H3; destruct (offset_field ops l m tx rx cs2) as [cs3 off] end.
  cbn [fst] in *. etransitivity; [exact H1|]. by etransitivity.
Qed.

Lemma build_flow_stats_kept cfg prog id (cs : cards_t) : slots_typed prog ->
  kept_all (ops := ops) cs (build_flow_stats ops cfg prog id cs).1.
Proof.
  intros Hs. unfold build_flow_stats. set (n := length (cfg_cards cfg)).
  pose proof (snap_all_kept (Nat.min n PW_MAX_CARDS) cs) as H1. destruct (snap_all _ _ _) as [cs1 snap].
  pose proof (first_ts_kept (seq 0 n) cs1) as H2. destruct (first_ts _ _ _) as [cs2 ts]. cbn [fst] in *.
  match goal with |- context [collect ?f ?l cs2] =>
    assert (kept_all (ops := ops) cs2 (collect f l cs2).1) as H3 end.
  { apply collect_kept. intros m [_ Hm]%list_elem_of_filter cs0. by apply flow_stats_line_kept. }
  destruct (collect _ _ cs2) as [cs3 l]. cbn [fst] in *. etransitivity; [exact H1|]. by etransitivity.
Qed.

(** ** The SPI flash driver *)

Section Flash.
Context (w : Z -> Z -> C -> C * pw_status) (r : Z -> C -> C * (pw_status * Z)).
Context (Hw : op_write32 ops = Some w) (Hr : op_read32 ops = Some r).

Abbreviation keeps_card := (along (kept (ops := ops))).

Lemma wr_along off v : ctl_off off -> keeps_card (wr w off v).
Proof. intros Ho c. unfold wr. pose proof (write_kept w off v c Hw Ho) as H. by destruct (w off v c). Qed.
Lemma rd_along off : read_off off -> keeps_card (rd r off).
Proof. intros Ho c. unfold rd. pose proof (read_kept r off c Hr Ho) as H. by destruct (r off c) as [? []]. Qed.

Lemma steps_in n i : i ∈ steps 0 n 4 -> 0 <= i < n.
Proof. intros [j Hj]%list_elem_of_lookup. apply steps_lookup in Hj as [-> ?]; lia. Qed.

Lemma spi_spin_along n want : n <= PWFPGA_SPI_BUF_BYTES -> forall fuel, keeps_card (spi_spin r fuel n want).
Proof.
  intros Hn. induction fuel as [|fuel IH]; cbn [spi_spin]; [apply along_throw, _|].
  apply along_bind; [apply _|by apply rd_along|]. intros st. destruct (ztrue _); [done|].
  destruct want; [|apply along_ret, _]. apply along_for; [apply _|]. intros i Hi%steps_in acc.
  apply along_bind; [apply _| |intros; apply along_ret, _]. apply rd_along.
  unfold read_off, PWFPGA_SPI_RXBUF, PWFPGA_WIN_SPI_FLASH, PWFPGA_SPI_BUF_BYTES in *. lia.
Qed.

Lemma spi_txn_along tx want hold : keeps_card (spi_txn w r tx want hold).
Proof.
  unfold spi_txn. destruct (Z.ltb_spec PWFPGA_SPI_BUF_BYTES (nbytes tx)) as [|Hn]; [apply along_throw, _|].
  apply along_bind; [apply _| |intros []; apply along_bind; [apply _| |intros []; apply along_bind; [apply _| |intros []]]].
  - apply along_for; [apply _|]. intros i Hi%steps_in _. apply wr_along, window_off.
    unfold PWFPGA_SPI_TXBUF, PWFPGA_WIN_SPI_FLASH, PWFPGA_WIN_FC_CMP, PWFPGA_SPI_BUF_BYTES in *. lia.
  - by apply wr_along, window_off.
  - by apply wr_along, window_off.
  - by apply spi_spin_along.
Qed.

Ltac spi_step :=
  first [apply along_ret, _ | apply along_throw, _ | apply spi_txn_along | apply along_bind; [apply _| |intros]
        | progress (unfold warmup, wren, flash_read)].

Lemma wait_along : forall fuel, keeps_card (wait_loop w r fuel).
Proof.
  induction fuel as [|fuel IH]; intros c; cbn [wait_loop]; [reflexivity|].
  unfold wip. pose proof (spi_txn_along [0x05; 0] true false c) as H.
  destruct (spi_txn w r _ true false c) as [c1 [l|]]; cbn [fst] in *; [|done].
  destruct (_ =? 0); [done|]. etransitivity; [exact H|apply IH].
Qed.

Lemma page_along a data : keeps_card (page_program w r a data).
Proof. unfold page_program, wait_idle. repeat spi_step. apply wait_along. Qed.
Lemma erase_along a : keeps_card (sector_erase w r a).
Proof. unfold sector_erase, wait_idle. repeat spi_step. apply wait_along. Qed.
Lemma read_range_along a len : keeps_card (flash_read_range w r a len).
Proof. apply along_for; [apply _|]. intros. repeat spi_step. Qed.
Lemma verify_along a l m : keeps_card (flash_verify_range w r a l m).
Proof. apply along_for; [apply _|]. intros. repeat spi_step. Qed.
Lemma program_along a data : forall fuel p, keeps_card (program_loop w r fuel a data p).
Proof.
  induction fuel as [|fuel IH]; intros p; cbn [program_loop]; [apply along_ret, _|].
  destruct (_ <? _); [|apply along_ret, _]. apply along_bind; [apply _|apply page_along|intros; apply IH].
Qed.

Lemma erase_sector_along off end_ a m : keeps_card (erase_sector w r off end_ a m).
Proof.
  unfold erase_sector, program_range. destruct (_ && _).
  { apply along_bind; [apply _|apply erase_along|intros; apply along_ret, _]. }
  repeat first [apply read_range_along | apply erase_along | apply program_along | apply verify_along
    | apply along_ret, _ | apply along_bind; [apply _| |intros] | destruct (_ =? 0)].
Qed.

Lemma flash_program_along off data : keeps_card (flash_program w r off data).
Proof.
  unfold flash_program, program_range. destruct (bool_decide _); [apply along_throw, _|].
  destruct (_ || _); [apply along_throw, _|].
  repeat first [apply program_along | apply verify_along | spi_step].
  apply along_for; [apply _|]. intros. apply erase_sector_along.
Qed.

Lemma flash_read_id_along : keeps_card (flash_read_id w r).
Proof. unfold flash_read_id. repeat spi_step. Qed.
End Flash.

Lemma pw_flash_program_kept off data (c : C) : kept (ops := ops) c (pw_flash_program ops off data c).1.
Proof.
  unfold pw_flash_program. destruct (op_write32 ops) as [w|] eqn:Hw; [|apply along_throw, _].
  destruct (op_read32 ops) as [r|] eqn:Hr; [|apply along_throw, _]. by apply flash_program_along.
Qed.
Lemma pw_flash_read_id_kept (c : C) : kept (ops := ops) c (pw_flash_read_id ops c).1.
Proof.
  unfold pw_flash_read_id. destruct (op_write32 ops) as [w|] eqn:Hw; [|apply along_throw, _].
  destruct (op_read32 ops) as [r|] eqn:Hr; [|apply along_throw, _]. by apply flash_read_id_along.
Qed.

(** ** The SFP refresh *)

(** The card of a bus state is kept from [c] on. *)
Definition from_card (c : C) (s : C * i2c_bus) : Prop := kept (ops := ops) c s.1.

Lemma from_set w c : op_write32 ops = Some w ->
  forall bit l s, from_card c s -> from_card c (set_line w bit l s).
Proof.
  intros Hw bit l [c1 b1] H. unfold from_card, set_line, i2c_apply in *. cbn [fst] in H.
  match goal with |- context [w ?o ?v c1] => pose proof (write_kept w o v c1 Hw sfp_off) as H1;
    destruct (w o v c1) as [c2 st] end. by etransitivity.
Qed.
Lemma from_get r c : op_read32 ops = Some r -> forall bit s, from_card c s -> from_card c (get_line r bit s).1.
Proof.
  intros Hr bit [c1 b1] H. unfold from_card, get_line in *. cbn [fst] in H.
  pose proof (read_kept r PWFPGA_REG_SFP_I2C c1 Hr ltac:(by split)) as H1.
  destruct (r _ c1) as [c2 [st v]]. by etransitivity.
Qed.
Lemma from_start c b : from_card c (c, b). Proof. unfold from_card. reflexivity. Qed.
Lemma from_any c b b' c' : from_card c (c', b) -> from_card c (c', b'). Proof. done. Qed.
Lemma from_end c b c' : from_card c (c', b) -> kept (ops := ops) c c'. Proof. done. Qed.

Lemma sfp_read_kept w r port a off len (c c' : C) : op_write32 ops = Some w -> op_read32 ops = Some r ->
  (sfp_read w r port a off len c).1 = c' -> kept (ops := ops) c c'.
Proof.
  intros Hw Hr E.
  destruct (inv_sfp_read w r (from_card c) (from_set w c Hw) (from_get r c Hr) port a off len c
    {| b_scl := 0; b_sda := 0; b_drive := 0; b_err := false |} c' (from_start _ _) (fun b b' => from_any c b b') E)
    as [b H].
  exact (from_end _ _ _ H).
Qed.

Lemma pw_sfp_read_kept port a off hb len (c : C) : kept (ops := ops) c (pw_sfp_read ops port a off hb len c).1.
Proof.
  unfold pw_sfp_read. destruct (op_write32 ops) as [w|] eqn:Hw; [|reflexivity].
  destruct (op_read32 ops) as [r|] eqn:Hr; [|reflexivity]. destruct (_ || _); [reflexivity|].
  destruct (_ <? _); [reflexivity|]. by eapply sfp_read_kept.
Qed.

Lemma probe_kept port (c : C) : kept (ops := ops) c (pw_sfp_probe ops port c).1.
Proof.
  unfold pw_sfp_probe. pose proof (pw_sfp_read_kept port 0x50 0 true 96 c) as H.
  destruct (pw_sfp_read ops port 0x50 _ _ _ c) as [c1 [a0|[]]]; cbn [fst] in *; try done.
  cbv zeta. destruct (_ && _); [|done].
  pose proof (pw_sfp_read_kept port 0x51 96 true 10 c1) as H1.
  destruct (pw_sfp_read ops port 0x51 _ _ _ c1) as [c2 [a2|]]; cbn [fst] in *; by etransitivity.
Qed.

Lemma refresh_kept n (cs : cards_t) cache : kept_all (ops := ops) cs (sfp_refresh_once ops n (cs, cache)).1.
Proof.
  assert (Hp : forall i s p, kept_all (ops := ops) s.1 (sfp_refresh_port ops i s p).1).
  { intros i [cs0 ca] p. unfold sfp_refresh_port.
    pose proof (card_call_kept i (Some (pw_sfp_probe ops (Z.of_nat p))) cs0) as H.
    destruct (card_call _ _ _) as [cs1 [[|]|]]; apply H; intros f c [= <-]; apply probe_kept. }
  unfold sfp_refresh_once. generalize (seq 0 (Nat.min n PW_MAX_CARDS)) as l. intros l.
  change cs with (cs, cache).1 at 1. generalize (cs, cache) as s. induction l as [|i l IH]; intros s; [reflexivity|].
  cbn [fold_left]. etransitivity; [|apply IH]. etransitivity; apply Hp.
Qed.

(** ** The host plane *)

Section Plane.
Context {W : Type} (tap_write : Z -> list Z -> W -> W * Z) (tap_read : Z -> nat -> W -> W * option (list Z)).

Lemma punt_one_ctx f (s : plane_state C W) : st_ctx (punt_one tap_write f s) = st_ctx s.
Proof. unfold punt_one. by repeat case_match. Qed.

Lemma punt_loop_kept rx : op_slow_path_rx ops = Some rx ->
  forall n (s : plane_state C W), kept (ops := ops) (st_ctx s) (st_ctx (punt_loop tap_write rx n s)).
Proof.
  intros Hrx. induction n as [|n IH]; intros s; cbn [punt_loop]; [reflexivity|].
  pose proof (rp_rx rx PW_HOST_FRAME_MAX (st_ctx s) Hrx) as H.
  destruct (rx _ (st_ctx s)) as [c [[f|]|]]; cbn [fst] in *; try done.
  destruct (_ =? _)%nat; [done|]. etransitivity; [exact H|]. etransitivity; [|apply IH].
  by rewrite punt_one_ctx.
Qed.

Lemma tap_loop_kept tx b hb : op_slow_path_tx ops = Some tx ->
  forall n (s : plane_state C W), kept (ops := ops) (st_ctx s) (st_ctx (tap_loop tap_read tx b hb n s)).
Proof.
  intros Htx. induction n as [|n IH]; intros s; cbn [tap_loop]; [reflexivity|].
  destruct (tap_read _ _ _) as [w [[|x bs]|]]; try reflexivity.
  pose proof (rp_tx tx (x :: bs) (hb_logical_if_id hb) (hb_egress_local_port hb) (st_ctx s) Htx) as H.
  destruct (tx _ _ _ _) as [c r]. cbn [fst] in H. cbv zeta. etransitivity; [|apply IH]. exact H.
Qed.

Lemma plane_step_kept n hp (c : C) (w : W) :
  kept (ops := ops) c (st_ctx (pw_host_plane_step ops tap_write tap_read n hp c w)).
Proof.
  unfold pw_host_plane_step. set (s0 := {| st_hp := hp; st_ctx := c; st_world := w; st_moved := 0 |}).
  change c with (st_ctx s0) at 1. clearbody s0. cbv zeta.
  set (s1 := match op_slow_path_rx ops with Some rx => punt_loop tap_write rx n s0 | None => s0 end).
  assert (H1 : kept (ops := ops) (st_ctx s0) (st_ctx s1)).
  { unfold s1. destruct (op_slow_path_rx ops) as [rx|] eqn:E; [by apply punt_loop_kept|reflexivity]. }
  clearbody s1. destruct (op_slow_path_tx ops) as [tx|] eqn:E; [|done].
  etransitivity; [exact H1|]. clear H1. generalize (imap pair (hp_bindings hp)) as l. intros l. revert s1.
  induction l as [|x l IH]; intros s1; [reflexivity|]. cbn [fold_left]. etransitivity; [|apply IH].
  by apply tap_loop_kept.
Qed.
End Plane.
End Kept.
