(* ===== verification/BarReports.v ===== *)
(** * The BAR backend as a reporting card

    Over the FPGA of [BarDaemon], the statistics, histogram and slow-path
    operations of [BackendBar] only read registers and write control registers, so
    they leave the tables, the rows and the identity alone: a
    [ReportProps.ReportCard]. *)

From S2P Require Import Prelude Types Config Csr Backend Programming Dma BackendBar BarSafety BarTables.
From S2P Require Import ProgrammingProps GpioSync DaemonProps BarDaemon ReportProps.

Section BarReports.
Context {D X : Type} (dev : bar_dev D) (xdev : xdma_dev X).
Context (late : nat -> bool) (deadline : nat) (sz co : Z) {CD : CardDevice dev co} {XD : ControlDevice dev co}.

Abbreviation ctx := (bar_ctx D X).

Definition bkept (c c' : ctx) : Prop :=
  whole_card sz co c -> whole_card sz co c' /\ dev_same dev co (bc_dev c) (bc_dev c').

#[local] Instance bkept_preorder : PreOrder bkept.
Proof.
  split.
  - intros c Hc. split; [done|]. by split.
  - intros a b c Hab Hbc Ha. destruct (Hab Ha) as [Hb [W1 L1 I1]]. destruct (Hbc Hb) as [Hc [W2 L2 I2]].
    split; [done|]. split; intros; [rewrite W2, W1|rewrite L2, L1|rewrite I2, I1]; done.
Qed.

Lemma rd_b off (c : ctx) : read_off off -> bkept c (reg_rd dev off c).1.
Proof.
  intros Ho Hw. destruct (bar_read_kept dev sz co off c Hw Ho) as [H1 H2]. revert H1 H2.
  unfold bar_read32. destruct Ho as [Ho1 Ho2]. rewrite (whole_range sz co) by (done || lia). cbn [negb].
  by destruct (reg_rd dev off c).
Qed.

Lemma wr_b off v (c : ctx) : ctl_off off -> bkept c (reg_wr dev off v c).
Proof.
  intros Ho Hw. destruct (ctl_write dev sz co off v c Hw Ho) as (_ & H1 & H2). revert H1 H2.
  destruct (ctl_bound _ Ho) as [Ho1 Ho2]. unfold bar_write32. by rewrite (whole_range sz co) by (done || lia).
Qed.

Lemma copy_out_b n : forall off (c : ctx), 0 <= off -> off + (Z.of_nat n + 3) / 4 * 4 <= 0x10000 ->
  bkept c (bar_copy_words_out dev off n c).1.
Proof.
  induction n as [n IH] using lt_wf_ind. intros off c H0 H1.
  destruct n as [|[|[|[|n]]]]; cbn [bar_copy_words_out]; [reflexivity| | | |].
  1-3: (assert (H : bkept c (reg_rd dev off c).1) by (apply rd_b; split; [done|];
         revert H1; Z.to_euclidean_division_equations; lia)); by destruct (reg_rd dev off c).
  assert (H : bkept c (reg_rd dev off c).1).
  { apply rd_b. split; [done|]. revert H1. Z.to_euclidean_division_equations; lia. }
  destruct (reg_rd dev off c) as [c1 v]. cbn [fst] in H.
  assert (H2 : bkept c1 (bar_copy_words_out dev (off + 4) n c1).1).
  { apply IH; [lia|lia|]. revert H1. Z.to_euclidean_division_equations; lia. }
  destruct (bar_copy_words_out dev (off + 4) n c1) as [c2 bs]. by etransitivity.
Qed.

Lemma copy_b bs : forall off (c : ctx), PWFPGA_WIN_SPI_FLASH <= off ->
  off + (Z.of_nat (length bs) + 3) / 4 * 4 <= PWFPGA_WIN_FC_CMP -> bkept c (bar_copy_words dev off bs c).
Proof.
  induction bs as [bs IH] using (well_founded_induction (well_founded_ltof _ (@length Z))).
  intros off c H0 H1. destruct bs as [|b0 [|b1 [|b2 [|b3 bs]]]]; cbn [bar_copy_words]; [reflexivity| | | |].
  1-3: apply wr_b, window_off; simpl length in H1; revert H1; Z.to_euclidean_division_equations; lia.
  simpl length in H1. etransitivity; [apply wr_b, window_off|apply IH; [unfold ltof; simpl; lia|lia|]];
    revert H1; Z.to_euclidean_division_equations; lia.
Qed.

Lemma window_b {A} base n (g : list Z -> A) e (c : ctx) : 0 <= base ->
  base + (Z.of_nat n + 3) / 4 * 4 <= 0x10000 ->
  bkept c (if negb (csr_range_ok c base (Z.of_nat n)) then (c, Err e)
           else let '(c, bs) := bar_copy_words_out dev (u32 base) n c in (c, @Ok err A (g bs))).1.
Proof.
  intros H0 H1. destruct (csr_range_ok c base _); [|reflexivity]. cbn [negb].
  rewrite u32_id by (unfold is_w; revert H1; Z.to_euclidean_division_equations; lia).
  pose proof (copy_out_b n base c H0 H1) as H. by destruct (bar_copy_words_out dev base n c).
Qed.

Lemma snapshot_b (c : ctx) : bkept c (bar_stats_snapshot dev c).1.
Proof.
  unfold bar_stats_snapshot. destruct (negb _); [reflexivity|]. apply wr_b, trigger_off.
Qed.
Lemma ports_b p (c : ctx) : is_u8 p -> bkept c (bar_port_stats_read dev p c).1.
Proof.
  intros Hp. unfold is_w in Hp. unfold bar_port_stats_read.
  destruct (Z.leb_spec (Z.of_nat PW_PORTS_PER_CARD) p) as [|Hlt]; [reflexivity|].
  change (Z.of_nat PW_PORTS_PER_CARD) with 2 in Hlt.
  apply (window_b _ 88); change PWFPGA_WIN_STATS_SNAPSHOT with 0xC000; change PWFPGA_PORT_STATS_STRIDE with 128;
    Z.to_euclidean_division_equations; lia.
Qed.
Lemma flows_b l (c : ctx) : is_u32 l -> bkept c (bar_flow_stats_read dev l c).1.
Proof.
  intros Hl. unfold is_w in Hl. unfold bar_flow_stats_read.
  change PWFPGA_FLOW_STATS_SLOTS with 125. destruct (Z.leb_spec 125 l); [reflexivity|].
  apply (window_b _ 120); change PWFPGA_WIN_STATS_SNAPSHOT with 0xC000; change PWFPGA_FLOW_STATS_STRIDE with 128;
    change PWFPGA_FLOW_STATS_BASE with 0x100; Z.to_euclidean_division_equations; lia.
Qed.
Lemma hist_b l n (c : ctx) : is_u32 l -> bkept c (bar_flow_hist_read dev l n c).1.
Proof.
  intros Hl. unfold is_w in Hl. unfold bar_flow_hist_read.
  change PWFPGA_FLOW_HIST_SLOTS with 64. destruct (Z.leb_spec 64 l); [reflexivity|].
  change (Z.to_nat (PWFPGA_FLOW_HIST_STRIDE / 8)) with 16%nat.
  set (k := if (16 <? n)%nat then 16%nat else n).
  assert (k <= 16)%nat by (unfold k; destruct (Nat.ltb_spec 16 n); lia).
  cbv zeta. replace (Z.of_nat k * 8) with (Z.of_nat (k * 8)) by lia.
  apply (window_b _ (k * 8)); change PWFPGA_WIN_HISTOGRAM with 0xA000; change PWFPGA_FLOW_HIST_STRIDE with 128;
    Z.to_euclidean_division_equations; lia.
Qed.

Lemma set_dma_b (c : ctx) s x : bkept c (set_dma c s x).
Proof. intros [[] ?]. split; [by split|]. by split. Qed.

Ltac step_b cn :=
  match goal with
  | |- context [reg_rd dev ?off ?c] =>
      let H := fresh in
      pose proof (rd_b off c ltac:(by split)) as H;
      destruct (reg_rd dev off c) as [cn ?]; cbn [fst] in H
  end.

Lemma rx_b n (c : ctx) : bkept c (bar_slow_path_rx dev xdev n c).1.
Proof.
  unfold bar_slow_path_rx. destruct (bc_dma c) as [s|].
  { destruct (dma_slow_path_rx xdev s n (bc_xdma c)) as [[x s'] r]. apply set_dma_b. }
  destruct (negb _); [reflexivity|]. step_b c1. destruct (negb _); [done|].
  step_b c2. step_b c3. step_b c4. step_b c5.
  match goal with |- context [bar_copy_words_out dev _ ?k c5] => set (m := k) end.
  assert (Hle : Z.of_nat m <= 2048).
  { unfold m, PWFPGA_PUNT_MAX_FRAME.
    match goal with |- context [2048 <? ?x] => destruct (Z.ltb_spec 2048 x) end;
      match goal with |- context [(?a <? ?b)%nat] => destruct (Nat.ltb_spec a b) end; lia. }
  pose proof (copy_out_b m PWFPGA_PUNT_DATA c5) as H6.
  destruct (bar_copy_words_out dev PWFPGA_PUNT_DATA m c5) as [c6 bs]. cbn [fst] in *.
  do 5 (etransitivity; [eassumption|]). etransitivity; [|by apply wr_b, window_off].
  apply H6; [done|]. unfold PWFPGA_PUNT_DATA, PWFPGA_WIN_PUNT_RX. Z.to_euclidean_division_equations; lia.
Qed.

Lemma wait_b n : forall c : ctx, bkept c (inject_wait dev n c).1.
Proof.
  induction n as [|n IH]; intros c; cbn [inject_wait]; [reflexivity|].
  step_b c1. destruct (negb _); [done|]. by etransitivity.
Qed.

Lemma tx_b frame lif p (c : ctx) : bkept c (bar_slow_path_tx dev xdev late deadline frame lif p c).1.
Proof.
  unfold bar_slow_path_tx. destruct (bc_dma c) as [s|].
  { destruct (dma_slow_path_tx _ _ _ _ _ _ _) as [x r]. apply set_dma_b. }
  unfold PWFPGA_INJECT_MAX_FRAME. destruct (_ =? 0); [reflexivity|].
  destruct (Z.ltb_spec 512 (Z.of_nat (length frame))) as [|Hlen]; [reflexivity|].
  destruct (_ <? _); [reflexivity|].
  pose proof (wait_b INJECT_SPINS c) as H1. destruct (inject_wait dev INJECT_SPINS c) as [c1 b1]. cbn [fst] in H1.
  step_b c2. destruct (ztrue _); [by etransitivity|].
  match goal with |- context [inject_wait dev INJECT_SPINS ?cc] =>
    pose proof (wait_b INJECT_SPINS cc) as H3; destruct (inject_wait dev INJECT_SPINS cc) as [c3 b3] end.
  cbn [fst] in *. etransitivity; [exact H1|]. etransitivity; [eassumption|]. etransitivity; [|exact H3].
  etransitivity; [|by apply wr_b, window_off]. etransitivity; [|by apply wr_b, window_off].
  apply copy_b; [done|]. unfold PWFPGA_INJECT_DATA, PWFPGA_WIN_INJECT_TX, PWFPGA_WIN_FC_CMP.
  Z.to_euclidean_division_equations; lia.
Qed.

#[local] Existing Instance bar_daemon_card.

Lemma bkept_kept c c' : bkept c c' ->
  kept (DC := bar_daemon_card dev xdev late deadline sz co) c c'.
Proof.
  intros Hk [Hw _]. destruct (Hk Hw) as [Hw' Hd]. split; [by split|]. by apply same_state.
Qed.

#[export, refine] Instance bar_report_card : ReportCard (bar_ops dev xdev late deadline) := {|
  rp_daemon := bar_daemon_card dev xdev late deadline sz co
|}.
Proof.
  - intros f c [= <-]. apply bkept_kept, snapshot_b.
  - intros f p c [= <-] Hp. by apply bkept_kept, ports_b.
  - intros f l c [= <-] Hl. by apply bkept_kept, flows_b.
  - intros f l n c [= <-] Hl. by apply bkept_kept, hist_b.
  - intros f n c [= <-]. apply bkept_kept, rx_b.
  - intros f bs l p c [= <-]. apply bkept_kept, tx_b.
Defined.
End BarReports.
