(* ===== verification/Metrics.v ===== *)
(** * The daemon's metrics exporter

    Models the Prometheus part of [sw/packetwyrmd/src/main.c]: the label escape,
    the body ([promex_build_body]) as the lines it formats and the buffer that
    takes the ones that fit, the reply ([promex_handle]) and the listening socket.
    [snprintf]'s [%.1f] on binary64 is written out; [log10] is a parameter. *)

From Stdlib Require Import Ascii SpecFloat.
From Stdlib Require String.
From S2P Require Import Prelude Types Config Validate Csr FlowCompiler Backend Scalar Text.
From S2P Require Import HostPlane Sfp Daemon Taps Json Forms Reports.

Local Open Scope string_scope.
Local Open Scope Z_scope.
Local Open Scope list_scope.

(** ** Formats *)

(** Nearest integer to [a / b], ties to even. *)
Definition round_div (a b : Z) : Z :=
  let q := a / b in
  let r := a mod b in
  if 2 * r <? b then q else if b <? 2 * r then q + 1 else if Z.even q then q else q + 1.

(** [n] decimal digits of [v]. *)
Fixpoint digits (n : nat) (v : Z) : string :=
  match n with O => "" | S n => digits n (v / 10) +:+ str_Z (v mod 10) end.

Definition sign_text (s : bool) : string := if s then "-" else "".

(** The magnitude [m * 2^e] in units of [10^-n]. *)
Definition scaled (n : nat) (m e : Z) : Z :=
  let p := m * 10 ^ Z.of_nat n in if 0 <=? e then p * 2 ^ e else round_div p (2 ^ (- e)).

(** [%.<n>f], for [n > 0]. *)
Definition fmt_fixed (n : nat) (d : spec_float) : string :=
  let units s u := sign_text s +:+ str_Z (u / 10 ^ Z.of_nat n) +:+ "." +:+ digits n (u mod 10 ^ Z.of_nat n) in
  match d with
  | S754_zero s => units s 0
  | S754_infinity s => sign_text s +:+ "inf"
  | S754_nan => "nan"
  | S754_finite s m e => units s (scaled n (Zpos m) e)
  end.

Definition newline : string := String.String NL "".

(** [name="value"] *)
Definition label (k v : string) : string := k +:+ "=" +:+ String.String DQ (v +:+ String.String DQ "").
(** [packetwyrm_<name>{<labels>} <value>\n] *)
Definition series (name labels value : string) : string :=
  "packetwyrm_" +:+ name +:+ "{" +:+ labels +:+ "} " +:+ value +:+ newline.

(** The [# HELP] and [# TYPE] lines of a metric. *)
Definition described (m : string * string * string) : list string :=
  let '(name, kind, help) := m in
  ["# HELP packetwyrm_" +:+ name +:+ " " +:+ help +:+ newline;
   "# TYPE packetwyrm_" +:+ name +:+ " " +:+ kind +:+ newline].

(** ** Labels *)

(** The letter that follows the backslash, for the characters that need one. *)
Definition escape_of (c : ascii) : option ascii :=
  if bool_decide (c = BSL) then Some BSL
  else if bool_decide (c = DQ) then Some DQ
  else if bool_decide (c = NL) then Some "n"%char
  else None.

Fixpoint escape_loop (dstsz j : nat) (src : text) : text :=
  match src with
  | [] => []
  | c :: src =>
      if (j + 2 <? dstsz)%nat then
        match escape_of c with
        | Some e => BSL :: e :: escape_loop dstsz (j + 2) src
        | None => c :: escape_loop dstsz (j + 1) src
        end
      else []
  end.

(** [None] is the null pointer. *)
Definition prom_label_escape (dstsz : nat) (src : option string) : string :=
  String.string_of_list_ascii (escape_loop dstsz 0 (cstring (chars (default "" src)))).

(** ** The metrics *)

Definition plane_metrics : list (string * string * string) :=
  [("card_open", "gauge", "Whether the card backend is open");
   ("punt_to_tap_ok", "counter", "Total punt frames forwarded to TAPs");
   ("punt_to_tap_dropped", "counter", "Total punt frames dropped on TAP write");
   ("tap_to_fpga_ok", "counter", "Total TAP-read frames forwarded to slow-path TX");
   ("tap_to_fpga_dropped", "counter", "Total TAP-read frames dropped");
   ("punt_unknown_lif", "counter", "Total punts with an unbound logical_if_id")].

Definition flow_metrics : list (string * string * string) :=
  [("flow_tx_frames", "counter", "Frames transmitted per flow");
   ("flow_rx_frames", "counter", "Frames received per flow");
   ("flow_tx_bytes", "counter", "Bytes transmitted per flow");
   ("flow_rx_bytes", "counter", "Bytes received per flow");
   ("flow_lost_packets", "counter", "Estimated lost packets per flow");
   ("flow_duplicate_packets", "counter", "Duplicate packets per flow");
   ("flow_out_of_order_packets", "counter", "Out-of-order packets per flow");
   ("flow_sequence_gaps", "counter", "Sequence-gap events per flow");
   ("flow_latency_samples", "counter", "Latency samples measured per flow");
   ("flow_running", "gauge", "1 when the flow's generator is enabled");
   ("flow_latency_ns", "gauge", "One-way latency per flow (nanoseconds)");
   ("flow_jitter_ns", "gauge", "Inter-packet delay variation per flow (nanoseconds)")].

Definition health_metrics : list (string * string * string) :=
  [("card_temp_celsius", "gauge", "FPGA die temperature (SYSMON)");
   ("card_vccint_volts", "gauge", "FPGA VCCINT rail (SYSMON)");
   ("card_vccaux_volts", "gauge", "FPGA VCCAUX rail (SYSMON)");
   ("card_error_sticky", "gauge", "1 when the card latched an error")].

Definition port_metrics : list (string * string * string) :=
  [("port_rx_frames", "counter", "Frames received on the port (wire)");
   ("port_tx_frames", "counter", "Frames transmitted on the port (wire)");
   ("port_rx_bytes", "counter", "Bytes received on the port (wire)");
   ("port_tx_bytes", "counter", "Bytes transmitted on the port (wire)");
   ("port_rx_fcs_errors", "counter", "FCS (CRC) errors received");
   ("port_rx_bad_frames", "counter", "Real RX drops (SAF buffer overflow)");
   ("port_rx_oversize", "counter", "Oversize frames received");
   ("port_rx_undersize", "counter", "Undersize frames received");
   ("port_rx_unmatched", "counter", "Frames with no classifier match (informational)");
   ("port_link_up_events", "counter", "Link-up transitions");
   ("port_link_down_events", "counter", "Link-down transitions");
   ("port_block_lock_loss", "counter", "PCS block-lock loss events")].

Definition sfp_metrics : list (string * string * string) :=
  [("sfp_present", "gauge", "1 when a module is seated");
   ("sfp_temp_celsius", "gauge", "Module temperature (DOM)");
   ("sfp_vcc_volts", "gauge", "Module supply voltage (DOM)");
   ("sfp_tx_bias_ma", "gauge", "Laser bias current (DOM)");
   ("sfp_tx_power_dbm", "gauge", "TX optical power (DOM)");
   ("sfp_rx_power_dbm", "gauge", "RX optical power (DOM)")].

Definition bit_text (b : bool) : string := if b then "1" else "0".
Definition card_label (c : pw_card) : string := label "card" (str_Z (card_id c)).

(** [(double)ticks * 1e9 / (double)PWFPGA_DATA_PLANE_CLOCK_HZ] *)
Definition ticks_ns (t : Z) : spec_float := fdiv (fmul (f64 t) (f64 1000000000)) (f64 PWFPGA_DATA_PLANE_CLOCK_HZ).

Section Lines.
Context {C : Type} (ops : pw_card_backend_ops C) {JC : JsonC} (log10 : spec_float -> spec_float).

Abbreviation cards_t := (list (@card_runtime C)).

(** ** Host plane *)

Definition plane_lines (cards : cards_t) (hps : list (option pw_host_plane)) (ic : nat * pw_card) : list string :=
  let '(i, c) := ic in
  let hp := mjoin (hps !! i) in
  let line name v := series name (card_label c) (str_Z v) in
  [series "card_open" (card_label c) (bit_text (card_open cards i));
   line "punt_to_tap_ok" (ctr_of hp hp_punt_ok); line "punt_to_tap_dropped" (ctr_of hp hp_punt_dropped);
   line "tap_to_fpga_ok" (ctr_of hp hp_tap_ok); line "tap_to_fpga_dropped" (ctr_of hp hp_tap_dropped);
   line "punt_unknown_lif" (from_option hp_unknown_lif 0 hp)].

(** ** Flows *)

Definition flow_labels (f : json) : string :=
  label "flow" (str_Z (from_option jc_int 0 (jget "id" f))) +:+ "," +:+
  label "name" (prom_label_escape 256 (from_option jc_string (Some "") (jget "name" f))).

(** [FLOWMETRIC(field, key)] *)
Definition flow_metric (f : json) (fk : string * string) : list string :=
  match jget fk.2 f with
  | Some v => [series ("flow_" +:+ fk.1) (flow_labels f) (str_Z (jc_int64 v))]
  | None => []
  end.

Definition flow_fields : list (string * string) :=
  [("tx_frames", "tx_frames"); ("rx_frames", "rx_frames"); ("tx_bytes", "tx_bytes"); ("rx_bytes", "rx_bytes");
   ("lost_packets", "lost"); ("duplicate_packets", "duplicate"); ("out_of_order_packets", "out_of_order");
   ("sequence_gaps", "seq_gap"); ("latency_samples", "sample_count")].

Definition stat_keys : list (string * string * string) :=
  [("min_latency", "jitter_min", "min"); ("avg_latency", "jitter_avg", "avg"); ("max_latency", "jitter_max", "max")].

Definition ns_line (f : json) (metric key stat : string) : list string :=
  match jget key f with
  | Some v => [series metric (flow_labels f +:+ "," +:+ label "stat" stat) (fmt_fixed 1 (ticks_ns (jc_int64 v)))]
  | None => []
  end.

Definition flow_lines (f : json) : list string :=
  (flow_fields ≫= flow_metric f) ++
  match jget "enabled" f with
  | Some v => [series "flow_running" (flow_labels f) (bit_text (jc_bool v))]
  | None => []
  end ++
  match jget "latency_valid" f with
  | Some lv =>
      if jc_bool lv then
        '(lkey, jkey, stat) ← stat_keys; ns_line f "flow_latency_ns" lkey stat ++ ns_line f "flow_jitter_ns" jkey stat
      else []
  | None => []
  end.

Definition all_flow_lines (cfg : pw_config) (prog : pw_program) (cards : cards_t) : cards_t * list string :=
  if bool_decide (p_flow_meta prog = []) then (cards, []) else
  let '(cards, fs) := build_flow_stats ops cfg prog (-1) cards in
  (cards, match jget "flows" fs with
          | Some (JArray arr) => (flow_metrics ≫= described) ++ (arr ≫= flow_lines)
          | _ => []
          end).

(** ** Cards and ports *)

Definition health_lines (ic : nat * pw_card) (cards : cards_t) : cards_t * list string :=
  let '(ci, c) := ic in
  let id := card_label c in
  let '(cards, tc) := card_reg ops ci PWFPGA_REG_SYSMON_TEMP cards in
  let '(cards, temp) :=
    match tc with
    | Some tc =>
        if ztrue (PWFPGA_SYSMON_CODE tc) then
          let '(cards, sup) := card_reg ops ci PWFPGA_REG_SYSMON_SUPPLY cards in
          let rail name code :=
            if ztrue (PWFPGA_SYSMON_CODE code) then [series name id (fmt_fixed 3 (PWFPGA_SYSMON_SUPPLY_V code))]
            else [] in
          (cards, series "card_temp_celsius" id (fmt_fixed 1 (PWFPGA_SYSMON_TEMP_C tc)) ::
             match sup with
             | Some sup => rail "card_vccint_volts" (sup &&& 0xFFFF) ++ rail "card_vccaux_volts" (sup >>> 16)
             | None => []
             end)
        else (cards, [])
    | None => (cards, [])
    end in
  let '(cards, gs) := card_reg ops ci PWFPGA_REG_GLOBAL_STATUS cards in
  (cards, temp ++
     match gs with
     | Some gs => [series "card_error_sticky" id (bit_text (ztrue (gs &&& PWFPGA_GSTAT_ERROR)))]
     | None => []
     end).

(** [PORTMETRIC] for each counter. *)
Definition port_lines_of (c : pw_card) (p : Z) (ps : pw_port_stats) : list string :=
  (fun fv : string * Z =>
     series ("port_" +:+ fv.1) (card_label c +:+ "," +:+ label "port" (str_Z p)) (str_Z fv.2)) <$>
  [("rx_frames", ps_rx_frames ps); ("tx_frames", ps_tx_frames ps); ("rx_bytes", ps_rx_bytes ps);
   ("tx_bytes", ps_tx_bytes ps); ("rx_fcs_errors", ps_rx_fcs_error ps); ("rx_bad_frames", ps_rx_bad_frame ps);
   ("rx_oversize", ps_rx_oversize ps); ("rx_undersize", ps_rx_undersize ps); ("rx_unmatched", ps_rx_unmatched ps);
   ("link_up_events", ps_link_up_count ps); ("link_down_events", ps_link_down_count ps);
   ("block_lock_loss", ps_block_lock_loss ps)].

Definition port_read_lines (ic : nat * pw_card) (p : nat) (cards : cards_t) : cards_t * list string :=
  match card_call ic.1 ((fun f => f (Z.of_nat p)) <$> op_port_stats_read ops) cards with
  | (cards, Some (Ok ps)) => (cards, port_lines_of ic.2 (Z.of_nat p) ps)
  | (cards, _) => (cards, [])
  end.

Definition port_lines (ic : nat * pw_card) (cards : cards_t) : cards_t * list string :=
  match op_port_stats_read ops with
  | None => (cards, [])
  | Some _ =>
      if negb (card_open cards ic.1) then (cards, []) else
      let '(cards, _) := card_call ic.1 (op_stats_snapshot ops) cards in
      collect (port_read_lines ic) (seq 0 PW_PORTS_PER_CARD) cards
  end.

(** ** Optics *)

Definition sfp_lines (cache : sfp_cache) (ic : nat * pw_card) (p : nat) : list string :=
  let e := sfp_entry cache ic.1 p in
  let s := sc_info e in
  let id := card_label ic.2 +:+ "," +:+ label "port" (str_nat p) in
  let dbm name mw :=
    if SFltb f0 mw then [series name id (fmt_fixed 2 (fmul (f64 10) (log10 mw)))] else [] in
  if negb (sc_valid e) || negb (sc_probe_ok e) then [] else
  series "sfp_present" id (bit_text (si_present s)) ::
  if si_present s && si_dom_valid s then
    [series "sfp_temp_celsius" id (fmt_fixed 1 (si_temp_c s)); series "sfp_vcc_volts" id (fmt_fixed 3 (si_vcc_v s));
     series "sfp_tx_bias_ma" id (fmt_fixed 2 (si_tx_bias_ma s))] ++
    dbm "sfp_tx_power_dbm" (si_tx_power_mw s) ++ dbm "sfp_rx_power_dbm" (si_rx_power_mw s)
  else [].

(** ** The body *)

Definition promex_lines (version : string) (cfg : pw_config) (prog : pw_program)
    (hps : list (option pw_host_plane)) (cache : sfp_cache) (cards : cards_t) : cards_t * list string :=
  let all := imap pair (cfg_cards cfg) in
  let build := described ("build_info", "gauge", "Build info") ++ [series "build_info" (label "version" version) "1"] in
  let plane := (plane_metrics ≫= described) ++ (all ≫= plane_lines cards hps) in
  let '(cards, flows) := all_flow_lines cfg prog cards in
  let '(cards, health) := collect health_lines all cards in
  let '(cards, ports) := collect port_lines all cards in
  (cards, build ++ plane ++ flows ++ (health_metrics ≫= described) ++ health ++
          (port_metrics ≫= described) ++ ports ++
          (sfp_metrics ≫= described) ++
          (ic ← take PW_MAX_CARDS all; p ← [0; 1]%nat; sfp_lines cache ic p)).

(** [APPENDF]: a line that does not fit is left out. *)
Definition appendf (cap : nat) (out line : string) : string :=
  if (0 <? String.length line)%nat && (String.length line <? cap - String.length out)%nat then out +:+ line else out.

Definition promex_build_body (cap : nat) (version : string) (cfg : pw_config) (prog : pw_program)
    (hps : list (option pw_host_plane)) (cache : sfp_cache) (cards : cards_t) : cards_t * string :=
  let '(cards, lines) := promex_lines version cfg prog hps cache cards in (cards, fold_left (appendf cap) lines "").

Definition PROM_BODY : nat := Z.to_nat 262144.
Definition crlf : string := String.String CR newline.

Definition promex_header (n : nat) : string :=
  cstr 256 ("HTTP/1.1 200 OK" +:+ crlf +:+ "Content-Type: text/plain; version=0.0.4" +:+ crlf +:+
            "Content-Length: " +:+ str_nat n +:+ crlf +:+ "Connection: close" +:+ crlf +:+ crlf).

(** What a [write] of [out] that returned [w] sent. *)
Definition sent_by (w : Z) (out : string) : string := String.substring 0 (Z.to_nat w) out.

(** One scrape: the answers of [read], of the header's [write] and of the body's;
    what the peer gets. The request is not looked at. *)
Definition promex_handle (version : string) (nread whead wbody : Z) (cfg : pw_config) (prog : pw_program)
    (hps : list (option pw_host_plane)) (cache : sfp_cache) (cards : cards_t) : cards_t * string :=
  if nread <=? 0 then (cards, "") else
  let '(cards, body) := promex_build_body PROM_BODY version cfg prog hps cache cards in
  (cards, if whead <? 0 then ""
          else sent_by whead (promex_header (String.length body)) +:+ sent_by wbody body).
End Lines.

(** The listening socket: the answers of [socket], [bind] and [listen]; whether it
    listens, and on which address. *)
Definition promex_listen `{InetPton} (sock bnd lstn : bool) (addr : string) (port : Z) : option (Z * Z) :=
  if negb sock then None else
  let addr := if str_eq addr "" then "127.0.0.1" else addr in
  match inet_pton4 addr with
  | Some a => if bnd && lstn then Some (a, u16 port) else None
  | None => None
  end.

(** [SO_RCVTIMEO], then [SO_SNDTIMEO]. *)
Definition set_conn_timeout (rcv snd : bool) : bool := if negb rcv then false else snd.
