(* ===== verification/MetricsProps.v ===== *)
(** * The metrics page is well formed

    The page is made of whole lines whatever the configured names, and a label
    reads back by the rule of the exposition format. A scrape leaves the
    configuration of the cards alone. *)

From Stdlib Require Import Ascii SpecFloat.
From Stdlib Require String.
From S2P Require Import Prelude Types Config Validate Csr FlowCompiler Backend Scalar Text.
From S2P Require Import HostPlane Sfp Daemon DaemonProps Taps Json Forms Reports ReportProps Metrics.

Local Open Scope string_scope.
Local Open Scope Z_scope.
Local Open Scope list_scope.

(** ** Texts without a line break *)

Lemma chars_app (a b : string) : chars (a +:+ b) = chars a ++ chars b.
Proof. induction a as [|c a IH]; [done|]. change (c :: chars (a +:+ b) = c :: (chars a ++ chars b)). by rewrite IH. Qed.

Definition clean_b (s : string) : bool := forallb (fun c => negb (bool_decide (c = NL))) (chars s).
Definition clean (s : string) : Prop := clean_b s = true.

Lemma clean_app a b : clean a -> clean b -> clean (a +:+ b).
Proof. unfold clean, clean_b. intros Ha Hb. by rewrite chars_app, forallb_app, Ha, Hb. Qed.

Lemma clean_cons c s : c <> NL -> clean s -> clean (String.String c s).
Proof. unfold clean, clean_b. intros Hc Hs. cbn. by rewrite Hs, bool_decide_eq_false_2. Qed.

Create HintDb clean.
#[export] Hint Resolve clean_app clean_cons : clean.
#[export] Hint Extern 1 (clean ?s) => reflexivity : clean.
#[export] Hint Extern 2 (_ <> NL) => discriminate : clean.

Lemma clean_pretty_go x : forall s, clean s -> clean (pretty_N_go x s).
Proof.
  induction (N.lt_wf_0 x) as [x _ IH]. intros s Hs.
  assert (x = 0 \/ 0 < x)%N as [->|Hx] by lia; [by rewrite pretty_N_go_0|].
  rewrite pretty_N_go_step by done. apply IH; [by apply N.div_lt|]. apply clean_cons; [|done].
  unfold pretty_N_char. repeat case_match; discriminate.
Qed.

Lemma clean_N n : clean (pretty (n : N)).
Proof. unfold pretty, pretty_N. case_decide; [done|]. by apply clean_pretty_go. Qed.
Lemma clean_Z z : clean (str_Z z).
Proof.
  unfold str_Z, pretty, pretty_Z. destruct z as [|p|p]; [done|apply clean_N|].
  apply clean_app; [done|apply clean_N].
Qed.
Lemma clean_nat n : clean (str_nat n).
Proof. apply clean_N. Qed.
#[export] Hint Resolve clean_Z clean_nat : clean.

Lemma clean_digits n : forall v, clean (digits n v).
Proof. induction n as [|n IH]; intros v; cbn [digits]; auto with clean. Qed.
#[export] Hint Resolve clean_digits : clean.

Lemma clean_fixed n d : clean (fmt_fixed n d).
Proof. unfold fmt_fixed, sign_text. destruct d as [[]|[]| |[]]; auto 6 with clean. Qed.
Lemma clean_bit b : clean (bit_text b).
Proof. by destruct b. Qed.
Lemma clean_label k v : clean k -> clean v -> clean (label k v).
Proof. intros. unfold label. auto 6 with clean. Qed.
#[export] Hint Resolve clean_fixed clean_bit clean_label : clean.

Lemma clean_card c : clean (card_label c).
Proof. unfold card_label. auto with clean. Qed.
#[export] Hint Resolve clean_card : clean.

(** ** Labels *)

Lemma escape_loop_nl n : forall src j, NL ∉ escape_loop n j src.
Proof.
  induction src as [|c src IH]; intros j; cbn [escape_loop]; [apply not_elem_of_nil|].
  destruct (_ <? _)%nat; [|apply not_elem_of_nil]. unfold escape_of.
  repeat case_bool_decide; rewrite ?not_elem_of_cons; split_and!; (apply IH || done || congruence).
Qed.

Lemma clean_escape n s : clean (prom_label_escape n s).
Proof.
  unfold clean, clean_b, prom_label_escape. rewrite String.list_ascii_of_string_of_list_ascii.
  apply forallb_forall. intros c Hc%list_elem_of_In. apply negb_true_iff, bool_decide_eq_false_2. intros ->.
  by apply escape_loop_nl in Hc.
Qed.
#[export] Hint Resolve clean_escape : clean.

(** The exposition format's reader of a label value: up to the closing quote, with
    backslash escapes. *)
Fixpoint read_label (t : text) : option (text * text) :=
  match t with
  | [] => None
  | c :: t =>
      if bool_decide (c = DQ) then Some ([], t) else
      if bool_decide (c = BSL) then
        match t with
        | e :: t =>
            v ← (if bool_decide (e = "n"%char) then Some NL
                 else if bool_decide (e = BSL) || bool_decide (e = DQ) then Some e else None);
            '(l, r) ← read_label t; Some (v :: l, r)
        | [] => None
        end
      else '(l, r) ← read_label t; Some (c :: l, r)
  end.

Lemma escape_length n : forall src j, (j < n)%nat -> (j + length (escape_loop n j src) < n)%nat.
Proof.
  induction src as [|c src IH]; intros j Hj; cbn [escape_loop length]; [lia|].
  destruct (Nat.ltb_spec (j + 2) n); [|cbn; lia].
  destruct (escape_of c); cbn [length]; [specialize (IH (j + 2)%nat)|specialize (IH (j + 1)%nat)]; lia.
Qed.

(** What the label reads back as: a prefix of the name, the whole of it unless the
    buffer is full. *)
Lemma escape_reads n rest : forall src j, exists k,
  read_label (escape_loop n j src ++ DQ :: rest) = Some (take k src, rest) /\
  (take k src = src \/ (n <= j + length (escape_loop n j src) + 2)%nat).
Proof.
  induction src as [|c src IH]; intros j; cbn [escape_loop].
  { exists 0%nat. cbn. by split; [|left]. }
  destruct (Nat.ltb_spec (j + 2) n) as [Hn|Hn].
  2:{ exists 0%nat. cbn. split; [done|right; lia]. }
  destruct (escape_of c) as [e|] eqn:He.
  - destruct (IH (j + 2)%nat) as (k & Hr & Hk). exists (S k). unfold escape_of in He.
    repeat case_bool_decide; simplify_eq; cbn -[escape_loop]; rewrite Hr; cbn -[escape_loop];
      (split; [done|]; destruct Hk as [Hk|Hk]; [left; by rewrite Hk|right; lia]).
  - destruct (IH (j + 1)%nat) as (k & Hr & Hk). exists (S k). unfold escape_of in He.
    repeat case_bool_decide; simplify_eq. cbn -[escape_loop].
    rewrite !bool_decide_eq_false_2 by done. rewrite Hr. cbn -[escape_loop].
    split; [done|]. destruct Hk as [Hk|Hk]; [left; by rewrite Hk|right; lia].
Qed.

(** ** Lines *)

Definition one_line (s : string) : Prop := exists t, s = t +:+ newline /\ clean t.

Lemma app_assoc_str (a b c : string) : (a +:+ b) +:+ c = a +:+ (b +:+ c).
Proof.
  induction a as [|x a IH]; [done|].
  change (String.String x ((a +:+ b) +:+ c) = String.String x (a +:+ (b +:+ c))). by rewrite IH.
Qed.

Lemma series_line name labels value : clean name -> clean labels -> clean value -> one_line (series name labels value).
Proof.
  intros. exists ("packetwyrm_" +:+ name +:+ "{" +:+ labels +:+ "} " +:+ value). split.
  - unfold series. by rewrite !app_assoc_str.
  - auto 8 with clean.
Qed.

Lemma described_lines m : clean m.1.1 -> clean m.1.2 -> clean m.2 -> Forall one_line (described m).
Proof.
  destruct m as [[name kind] help]. intros. repeat (apply Forall_cons; split); [| |apply Forall_nil_2].
  - exists ("# HELP packetwyrm_" +:+ name +:+ " " +:+ help). split; [by rewrite !app_assoc_str|auto 6 with clean].
  - exists ("# TYPE packetwyrm_" +:+ name +:+ " " +:+ kind). split; [by rewrite !app_assoc_str|auto 6 with clean].
Qed.

Create HintDb lines.
#[export] Hint Resolve Forall_nil_2 Forall_cons_2 Forall_app_2 series_line : lines.
#[export] Hint Extern 3 (clean _) => (auto 6 with clean) : lines.

Lemma Forall_bind {A B} (P : B -> Prop) (f : A -> list B) l :
  (forall x, x ∈ l -> Forall P (f x)) -> Forall P (l ≫= f).
Proof.
  intros H. induction l as [|x l IH]; [by apply Forall_nil_2|]. cbn. apply Forall_app_2; [apply H; left|].
  apply IH. intros y Hy. apply H. by right.
Qed.

Definition metric_ok (m : string * string * string) : bool := clean_b m.1.1 && clean_b m.1.2 && clean_b m.2.
Lemma all_described ms : forallb metric_ok ms = true -> Forall one_line (ms ≫= described).
Proof.
  rewrite forallb_forall. intros H. apply Forall_bind. intros m Hm%list_elem_of_In%H.
  apply andb_true_iff in Hm as [[H1 H2]%andb_true_iff H3]. by apply described_lines.
Qed.

Section Page.
Context {C : Type} {ops : pw_card_backend_ops C} {JC : JsonC} (log10 : spec_float -> spec_float).

Abbreviation cards_t := (list (@card_runtime C)).

Lemma plane_lines_ok (cs : cards_t) hps ic : Forall one_line (plane_lines cs hps ic).
Proof. destruct ic as [i c]. unfold plane_lines. auto 12 with lines clean. Qed.

Lemma clean_flow_labels f : clean (flow_labels f).
Proof. unfold flow_labels. auto 6 with clean. Qed.
#[local] Hint Resolve clean_flow_labels : clean.

Lemma ns_line_ok f metric key stat : clean metric -> clean stat -> Forall one_line (ns_line f metric key stat).
Proof. intros. unfold ns_line. destruct (jget _ _); auto 10 with lines clean. Qed.

Lemma flow_lines_ok f : Forall one_line (flow_lines f).
Proof.
  unfold flow_lines. rewrite !Forall_app. split_and!.
  - apply Forall_bind. intros [field key] Hin. unfold flow_metric. destruct (jget _ _); [|apply Forall_nil_2].
    assert (clean field) by (unfold flow_fields in Hin;
      repeat (apply elem_of_cons in Hin as [[= -> _]|Hin]; [reflexivity|]); by apply elem_of_nil in Hin).
    auto 10 with lines clean.
  - destruct (jget _ _); auto with lines clean.
  - destruct (jget _ _) as [lv|]; [|apply Forall_nil_2]. destruct (jc_bool lv); [|apply Forall_nil_2].
    apply Forall_bind. intros [[l j] st] Hin.
    assert (clean st) by (unfold stat_keys in Hin;
      repeat (apply elem_of_cons in Hin as [[= _ _ ->]|Hin]; [reflexivity|]); by apply elem_of_nil in Hin).
    by apply Forall_app_2; apply ns_line_ok.
Qed.

Lemma all_flow_lines_ok cfg prog (cs : cards_t) : Forall one_line (all_flow_lines ops cfg prog cs).2.
Proof.
  unfold all_flow_lines. destruct (bool_decide _); [apply Forall_nil_2|]. destruct (build_flow_stats _ _ _ _ _) as [cs1 fs].
  cbn [snd]. destruct (jget _ _) as [[]|]; try apply Forall_nil_2.
  apply Forall_app_2; [by apply all_described|]. apply Forall_bind. intros f _. apply flow_lines_ok.
Qed.

Lemma collect_lines {A B} (P : B -> Prop) (f : A -> cards_t -> cards_t * list B) l :
  (forall x cs, Forall P (f x cs).2) -> forall cs, Forall P (collect f l cs).2.
Proof.
  intros Hf. induction l as [|x l IH]; intros cs; cbn [collect]; [apply Forall_nil_2|].
  pose proof (Hf x cs) as H1. destruct (f x cs) as [cs1 b]. pose proof (IH cs1) as H2.
  destruct (collect f l cs1) as [cs2 bs]. by apply Forall_app_2.
Qed.

Lemma health_lines_ok ic (cs : cards_t) : Forall one_line (health_lines ops ic cs).2.
Proof.
  destruct ic as [ci c]. unfold health_lines. destruct (card_reg ops ci PWFPGA_REG_SYSMON_TEMP cs) as [cs1 t].
  match goal with |- context [let '(_, _) := ?x in _] => assert (Ht : Forall one_line x.2) end.
  { destruct t as [t|]; [|apply Forall_nil_2]. destruct (ztrue _); [|apply Forall_nil_2].
    destruct (card_reg _ _ _ _) as [cs2 [sup|]]; cbn [snd]; auto 8 with lines clean.
    apply Forall_cons_2; [auto with lines clean|]. apply Forall_app_2; destruct (ztrue _); auto with lines clean. }
  destruct (match t with Some _ => _ | None => _ end) as [cs2 l]. destruct (card_reg _ _ _ _) as [cs3 [gs|]];
    cbn [snd] in *; auto with lines clean.
Qed.

Lemma port_lines_ok ic (cs : cards_t) : Forall one_line (port_lines ops ic cs).2.
Proof.
  unfold port_lines. destruct (op_port_stats_read ops) as [f|] eqn:E; [|apply Forall_nil_2].
  destruct (negb _); [apply Forall_nil_2|]. destruct (card_call _ _ _) as [cs1 ?]. apply collect_lines.
  intros p cs2. unfold port_read_lines. destruct (card_call _ _ cs2) as [cs3 [[ps|]|]]; try apply Forall_nil_2.
  cbn [snd]. unfold port_lines_of. apply Forall_fmap. cbn [compose].
  repeat (apply Forall_cons; split; [apply series_line; auto 8 with clean|]). apply Forall_nil_2.
Qed.

Lemma sfp_lines_ok cache ic p : Forall one_line (sfp_lines log10 cache ic p).
Proof.
  unfold sfp_lines. cbv zeta. destruct (_ || _); [apply Forall_nil_2|].
  apply Forall_cons_2; [auto 8 with lines clean|]. destruct (_ && _); [|apply Forall_nil_2].
  apply Forall_app_2; [repeat (apply Forall_cons_2; [apply series_line; auto 8 with clean|]); apply Forall_nil_2|].
  apply Forall_app_2; destruct (SFltb _ _); try apply Forall_nil_2;
    (apply Forall_cons_2; [apply series_line; auto 8 with clean|apply Forall_nil_2]).
Qed.

Lemma promex_lines_ok version cfg prog hps cache (cs : cards_t) : clean version ->
  Forall one_line (promex_lines ops log10 version cfg prog hps cache cs).2.
Proof.
  intros Hv. unfold promex_lines. pose proof (all_flow_lines_ok cfg prog cs) as H1.
  destruct (all_flow_lines _ _ _ _) as [cs1 l1].
  pose proof (collect_lines one_line (health_lines ops) (imap pair (cfg_cards cfg)) health_lines_ok cs1) as H2.
  destruct (collect (health_lines ops) _ _) as [cs2 l2].
  pose proof (collect_lines one_line (port_lines ops) (imap pair (cfg_cards cfg)) port_lines_ok cs2) as H3.
  destruct (collect (port_lines ops) _ _) as [cs3 l3]. cbn [snd] in *.
  assert (Hd : forall ms, forallb metric_ok ms = true -> Forall one_line (ms ≫= described)) by apply all_described.
  rewrite !Forall_app. split_and!; try done; try (by apply Hd).
  - by apply described_lines.
  - auto 8 with lines clean.
  - apply Forall_bind. intros ic _. apply plane_lines_ok.
  - apply Forall_bind. intros ic _. apply Forall_bind. intros p _. apply sfp_lines_ok.
Qed.
End Page.

(** ** A scrape keeps the cards *)

Section Scrape.
Context {C : Type} {ops : pw_card_backend_ops C} {RC : ReportCard ops} {JC : JsonC} (log10 : spec_float -> spec_float).

Abbreviation cards_t := (list (@card_runtime C)).

Lemma all_flow_lines_kept cfg prog (cs : cards_t) : slots_typed prog ->
  kept_all (ops := ops) cs (all_flow_lines ops cfg prog cs).1.
Proof.
  intros Hs. unfold all_flow_lines. destruct (bool_decide _); [reflexivity|].
  pose proof (build_flow_stats_kept cfg prog (-1) cs Hs) as H. by destruct (build_flow_stats _ _ _ _ _).
Qed.

Lemma health_lines_kept ic (cs : cards_t) : kept_all (ops := ops) cs (health_lines ops ic cs).1.
Proof.
  destruct ic as [ci c]. unfold health_lines.
  pose proof (card_reg_kept (ops := ops) ci PWFPGA_REG_SYSMON_TEMP cs ltac:(by split)) as H1.
  destruct (card_reg ops ci PWFPGA_REG_SYSMON_TEMP cs) as [cs1 t]. cbn [fst] in H1.
  match goal with |- context [let '(_, _) := ?x in _] => assert (H2 : kept_all (ops := ops) cs1 x.1) end.
  { destruct t as [t|]; [|reflexivity]. destruct (ztrue _); [|reflexivity].
    pose proof (card_reg_kept (ops := ops) ci PWFPGA_REG_SYSMON_SUPPLY cs1 ltac:(by split)) as H.
    by destruct (card_reg _ _ _ _). }
  destruct (match t with Some _ => _ | None => _ end) as [cs2 l]. cbn [fst] in H2.
  pose proof (card_reg_kept (ops := ops) ci PWFPGA_REG_GLOBAL_STATUS cs2 ltac:(by split)) as H3.
  destruct (card_reg _ _ _ _) as [cs3 gs]. cbn [fst] in *. by etransitivity; [|etransitivity].
Qed.

Lemma port_lines_kept ic (cs : cards_t) : kept_all (ops := ops) cs (port_lines ops ic cs).1.
Proof.
  unfold port_lines. destruct (op_port_stats_read ops) as [f|] eqn:E; [|reflexivity].
  destruct (negb _); [reflexivity|].
  pose proof (card_call_kept (ops := ops) ic.1 (op_stats_snapshot ops) cs rp_snapshot) as H1.
  destruct (card_call _ _ _) as [cs1 ?]. cbn [fst] in H1. etransitivity; [exact H1|]. apply collect_kept.
  intros p Hp cs2. unfold port_read_lines.
  pose proof (card_call_kept (ops := ops) ic.1 ((fun f => f (Z.of_nat p)) <$> op_port_stats_read ops) cs2) as H2.
  apply list_elem_of_In, in_seq in Hp. assert (is_u8 (Z.of_nat p)) by (unfold is_w, PW_PORTS_PER_CARD in *; lia).
  destruct (card_call _ _ _) as [cs3 [[ps|]|]]; apply H2; intros g c (h & Hh & ->)%fmap_Some; by apply rp_ports.
Qed.

Lemma promex_handle_kept version n1 n2 n3 cfg prog hps cache (cs : cards_t) : slots_typed prog ->
  kept_all (ops := ops) cs (promex_handle ops log10 version n1 n2 n3 cfg prog hps cache cs).1.
Proof.
  intros Hs. unfold promex_handle. destruct (n1 <=? 0); [reflexivity|]. unfold promex_build_body, promex_lines.
  pose proof (all_flow_lines_kept cfg prog cs Hs) as H1. destruct (all_flow_lines _ _ _ _) as [cs1 l1].
  pose proof (collect_kept (health_lines ops) (imap pair (cfg_cards cfg)) (fun ic _ => health_lines_kept ic) cs1) as H2.
  destruct (collect (health_lines ops) _ _) as [cs2 l2].
  pose proof (collect_kept (port_lines ops) (imap pair (cfg_cards cfg)) (fun ic _ => port_lines_kept ic) cs2) as H3.
  destruct (collect (port_lines ops) _ _) as [cs3 l3]. cbn [fst] in *. by etransitivity; [|etransitivity].
Qed.
End Scrape.

(** ** The buffer *)

Definition cat (ls : list string) : string := foldr String.append "" ls.

Lemma cat_app a b : cat (a ++ b) = cat a +:+ cat b.
Proof. induction a as [|x a IH]; [done|]. cbn [app cat foldr]. fold (cat (a ++ b)). rewrite IH. by rewrite app_assoc_str. Qed.

Lemma length_append (a b : string) : String.length (a +:+ b) = (String.length a + String.length b)%nat.
Proof. rewrite <- !length_chars, chars_app, length_app. done. Qed.

Lemma append_nil_r (a : string) : a +:+ "" = a.
Proof. induction a as [|x a IH]; [done|]. change (String.String x (a +:+ "") = String.String x a). by rewrite IH. Qed.

(** Some of the lines in their order, the buffer never full; all of them when they
    fit. *)
Lemma body_of_lines cap ls : forall out, (String.length out < cap)%nat ->
  exists kept, sublist kept ls /\ fold_left (appendf cap) ls out = out +:+ cat kept /\
    (String.length (out +:+ cat kept) < cap)%nat /\
    ((String.length out + String.length (cat ls) < cap)%nat -> cat kept = cat ls).
Proof.
  induction ls as [|l ls IH]; intros out Ho.
  { exists []. cbn. rewrite append_nil_r. split_and!; [constructor|done|done|done]. }
  cbn [fold_left]. unfold appendf at 2. change (cat (l :: ls)) with (l +:+ cat ls).
  destruct (Nat.ltb_spec 0 (String.length l)) as [Hl|Hl]; cbn [andb].
  - destruct (Nat.ltb_spec (String.length l) (cap - String.length out)) as [Hf|Hf].
    + destruct (IH (out +:+ l)) as (kept & H1 & H2 & H3 & H4); [rewrite length_append; lia|].
      exists (l :: kept). change (cat (l :: kept)) with (l +:+ cat kept). rewrite <- app_assoc_str.
      split_and!; [by apply sublist_skip|done|done|]. rewrite length_append in *. intros. rewrite H4; [done|lia].
    + destruct (IH out Ho) as (kept & H1 & H2 & H3 & H4). exists kept.
      split_and!; [by apply sublist_cons|done|done|]. rewrite length_append. lia.
  - destruct (IH out Ho) as (kept & H1 & H2 & H3 & H4). exists kept. destruct l as [|c l]; [|cbn in Hl; lia].
    split_and!; [by apply sublist_cons|done|done|]. rewrite length_append. cbn [String.length]. intros. by apply H4.
Qed.

(** C24: whatever the cards answer and whatever the configured names contain, the
    metrics page is made of whole lines in their order (a line that does not fit the
    buffer is left out entirely, none is when they all fit), one series or comment
    each, and always ends before the buffer does. *)
Theorem metrics_whole_lines {C : Type} (ops : pw_card_backend_ops C) `{JC : JsonC} log10 version cfg prog hps cache
    (cs : list (@card_runtime C)) : clean version ->
  let ls := (promex_lines ops log10 version cfg prog hps cache cs).2 in
  let body := (promex_build_body ops log10 PROM_BODY version cfg prog hps cache cs).2 in
  (String.length body < PROM_BODY)%nat /\
  (exists kept, sublist kept ls /\ Forall one_line kept /\ body = cat kept) /\
  ((String.length (cat ls) < PROM_BODY)%nat -> body = cat ls).
Proof.
  intros Hv ls body. unfold body, promex_build_body. fold ls.
  assert (Hok : Forall one_line ls) by by apply promex_lines_ok. unfold ls in *. clear ls body.
  destruct (promex_lines _ _ _ _ _ _ _ _) as [cs1 ls]. cbn [snd] in *.
  destruct (body_of_lines PROM_BODY ls "") as (kept & H1 & H2 & H3 & H4); [apply Nat.ltb_lt; vm_compute; reflexivity|].
  change ("" +:+ cat kept) with (cat kept) in *. rewrite H2. split_and!; [done| |exact H4].
  exists kept. split_and!; [done| |done].
  rewrite Forall_forall in *. intros l Hl. apply Hok. by eapply elem_of_sublist.
Qed.

(** A label of the metrics page reads back: after the escaped name and the
    closing quote the reader of the exposition format has the name (or, for a name
    whose escaped form fills the buffer, a prefix of it) and stands right behind the
    quote, so no configured name can open a label or a series of its own; and the
    escaped name always fits its buffer. *)
Lemma label_reads_back (dstsz : nat) (name : string) (rest : text) :
  let esc := chars (prom_label_escape dstsz (Some name)) in
  let n := cstring (chars name) in
  (0 < dstsz -> length esc < dstsz)%nat /\
  exists k, read_label (esc ++ DQ :: rest) = Some (take k n, rest) /\
    (take k n = n \/ (dstsz <= length esc + 2)%nat).
Proof.
  cbv zeta. unfold prom_label_escape. cbn [default]. rewrite String.list_ascii_of_string_of_list_ascii.
  split; [intros; by apply (escape_length dstsz _ 0)|apply (escape_reads dstsz rest _ 0)].
Qed.
