(* ===== verification/Server.v ===== *)
(** * The daemon process

    Models [main] of [sw/packetwyrmd/src/main.c]: the options, the startup from the
    configuration files to the listening socket with every gate that refuses to
    run, one pass of the main loop over the control socket and the metrics socket,
    one pass of a card's worker thread, and the periodic statistics text. What the
    system calls answer is [start_env] and [pass_env]; the operations a thread makes
    in one pass are one step. [Threads] is how the threads are started, told to stop
    and joined, and what is closed after them. [getopt_long] hands over the options one by one. *)

From Stdlib Require Import Ascii SpecFloat.
From Stdlib Require String.
From S2P Require Import Prelude StateMonad Types Config Validate Csr FlowCompiler Backend Scalar Text Yaml ConfigParse Ipc.
From S2P Require Import HostPlane Sfp Daemon Taps Json Forms Secrets Reports Requests Metrics.

Local Open Scope string_scope.
Local Open Scope Z_scope.
Local Open Scope list_scope.

(** ** Options *)

Record daemon_opts := {
  o_env : string; o_test : option string;
  o_dry_run : bool; o_verbose : bool; o_allow_fake : bool; o_autostart : bool;
  o_stats_ms : Z; o_servo_ms : Z; o_cal : Z;
  o_prom_addr : string; o_prom_port : Z
}.

Definition daemon_defaults : daemon_opts :=
  {| o_env := "/etc/packetwyrm/packetwyrm.yaml"; o_test := None; o_dry_run := false; o_verbose := false;
     o_allow_fake := false; o_autostart := false; o_stats_ms := 5000; o_servo_ms := 10; o_cal := 0;
     o_prom_addr := "127.0.0.1"; o_prom_port := 0 |}.

Definition prom_opt (o : daemon_opts) (arg : string) : daemon_opts :=
  let '(addr, port) := match split_last ":" (chars arg) with
                       | Some (a, p) => (String.string_of_list_ascii a, String.string_of_list_ascii p)
                       | None => (o_prom_addr o, arg)
                       end in
  {| o_env := o_env o; o_test := o_test o; o_dry_run := o_dry_run o; o_verbose := o_verbose o;
     o_allow_fake := o_allow_fake o; o_autostart := o_autostart o; o_stats_ms := o_stats_ms o;
     o_servo_ms := o_servo_ms o; o_cal := o_cal o; o_prom_addr := addr; o_prom_port := atoi port |}.

(** One option with its argument; the exit code of [-h] and of an unknown one. *)
Definition set_opt (o : daemon_opts) (c : ascii) (arg : string) : result Z daemon_opts :=
  let upd env test dry verb fake auto stats servo cal :=
    Ok {| o_env := env; o_test := test; o_dry_run := dry; o_verbose := verb; o_allow_fake := fake;
          o_autostart := auto; o_stats_ms := stats; o_servo_ms := servo; o_cal := cal;
          o_prom_addr := o_prom_addr o; o_prom_port := o_prom_port o |} in
  let '(e, t, d, v, f) := (o_env o, o_test o, o_dry_run o, o_verbose o, o_allow_fake o) in
  let '(a, st, sv, cal) := (o_autostart o, o_stats_ms o, o_servo_ms o, o_cal o) in
  match c with
  | "c" | "e" => upd arg t d v f a st sv cal
  | "t" => upd e (Some arg) d v f a st sv cal
  | "n" => upd e t true v f a st sv cal
  | "v" => upd e t d true f a st sv cal
  | "a" => upd e t d v f true st sv cal
  | "s" => upd e t d v f a (atoi arg) sv cal
  | "S" => upd e t d v f a st (Z.max 1 (atoi arg)) cal
  | "C" => upd e t d v f a st sv (atoi arg)
  | "p" => Ok (prom_opt o arg)
  | "F" => upd e t d v true a st sv cal
  | "h" => Err 0
  | _ => Err 2
  end%char.

Fixpoint parse_opts (o : daemon_opts) (l : list (ascii * string)) : result Z daemon_opts :=
  match l with
  | [] => Ok o
  | (c, arg) :: l => match set_opt o c arg with Ok o => parse_opts o l | Err n => Err n end
  end.

(** ** Startup *)

(** The answers of the system during startup. [se_reread] is the second reading of
    a file ([read_file_str]); [se_group] the id of the group [packetwyrm];
    [se_prom] those of [socket], [bind] and [listen] for the metrics. *)
Record start_env := {
  se_file : string -> file_answer;
  se_reread : string -> option string;
  se_tap_open : string -> list Z -> result pw_status (Z * string);
  se_set_mac : string -> list Z -> pw_status;
  se_set_mtu : string -> Z -> pw_status;
  se_set_up : string -> pw_status;
  se_plane_alloc : nat -> bool;
  se_listen : listen_env;
  se_group : option Z;
  se_chown : bool;
  se_prom : bool * bool * bool;
  se_disk : disk
}.

Section Process.
Context {C : Type} (ops : pw_card_backend_ops C).
Context (libyaml : string -> yaml_parser) {IP : InetPton} {IN : InetNtop} {JC : JsonC}.
Context (log10 : spec_float -> spec_float).

Abbreviation server_t := (@server C).

(** The daemon up: its state, the calls that made the control socket with the mode
    and the group it got, the address of the metrics. *)
Record running := {
  up_server : server_t;
  up_calls : list syscall;
  up_mode : Z;
  up_group : option Z;
  up_prom : option (Z * Z);
  up_live : list Z   (* the TAP descriptors *)
}.

Inductive start_result := Exit (code : Z) | Up (r : running).

Definition sock_path (cfg : pw_config) : string :=
  let p := sys_control_socket (cfg_system cfg) in if str_eq p "" then PW_IPC_DEFAULT_PATH else p.

(** From the programmed cards on. *)
Definition start_services (o : daemon_opts) (e : start_env) (loaded : option text) (d : @daemon C) : start_result :=
  let cfg := d_cfg d in
  let '(ts, n) := setup_taps (se_tap_open e) (se_set_mac e) (se_set_mtu e) (se_set_up e) (se_plane_alloc e)
                    cfg (d_cards d) (o_allow_fake o) [] in
  match n with
  | None => Exit 1
  | Some n =>
      if (n =? 0)%nat && (0 <? length (cfg_logical_if cfg))%nat && negb (o_allow_fake o) then Exit 1 else
      let mode := if o_allow_fake o then 0x1B6 else 0x1B0 in
      let '(calls, r) := pw_ipc_listen (se_listen e) (sock_path cfg) mode in
      match r with
      | Err _ => Exit 1
      | Ok _ =>
          Up {| up_server := {| sv_d := d; sv_hps := tp_hps ts; sv_taps := tp_taps ts; sv_sfp := ∅;
                                sv_loaded := loaded; sv_disk := se_disk e |};
                up_calls := calls; up_mode := mode;
                up_group := if o_allow_fake o then None else if se_chown e then se_group e else None;
                up_prom := if 0 <? o_prom_port o then
                             let '(s, b, l) := se_prom e in promex_listen s b l (o_prom_addr o) (o_prom_port o)
                           else None;
                up_live := tp_live ts |}
      end
  end.

(** [set_test_yaml] of the test file read again. *)
Definition stash_test (e : start_env) (test : option string) (d : @daemon C) : @daemon C :=
  {| d_cfg := d_cfg d; d_prog := d_prog d; d_cards := d_cards d;
     d_test_yaml := c_string <$> (test ≫= se_reread e); d_cal := d_cal d |}.

Definition test_text (e : start_env) (test : option string) : M (option string) :=
  match test with
  | None => Ok None
  | Some path => t ← file_text path (se_file e path); Ok (Some t)
  end.

Definition daemon_start (bar_open fake_open : string -> C * pw_status) (o : daemon_opts) (e : start_env) : start_result :=
  match file_text (o_env o) (se_file e (o_env o)), test_text e (o_test o) with
  | Ok env, Ok test =>
      match startup_cfg libyaml env test with
      | Err _ => Exit 1
      | Ok _ =>
          if o_dry_run o then Exit 0 else
          match startup ops libyaml bar_open fake_open (o_autostart o) (o_allow_fake o) (o_cal o) env test with
          | None => Exit 1
          | Some d =>
              start_services o e ((fun t => cstring (chars t)) <$> se_reread e (o_env o)) (stash_test e (o_test o) d)
          end
      end
  | _, _ => Exit 1
  end.

Definition daemon_main (bar_open fake_open : string -> C * pw_status) (args : list (ascii * string)) (e : start_env) :
    start_result :=
  match parse_opts daemon_defaults args with
  | Err code => Exit code
  | Ok o => daemon_start bar_open fake_open o e
  end.

(** ** The main loop *)

(** What one pass of the loop meets on a listening socket: nothing ready, [accept]
    failed, or a connection with the answers of [set_conn_timeout] and the rest. *)
Inductive arrival (A : Type) := Quiet | NoConn | Conn (rcv snd : bool) (a : A).
Arguments Quiet {A}.
Arguments NoConn {A}.
Arguments Conn {A} rcv snd a.

Record pass_env := {
  pa_control : arrival (req_env * list io_answer * list Z);
  pa_metrics : arrival (string * Z * Z * Z)
}.

(** The control connection, then the scrape. [None] when the daemon crashes. *)
Definition control_pass (a : arrival (req_env * list io_answer * list Z)) (s : server_t) :
    option (server_t * list Z) :=
  match a with
  | Conn rcv snd (e, ks, sent) =>
      if set_conn_timeout rcv snd then handle_client ops libyaml e ks sent s else Some (s, [])
  | _ => Some (s, [])
  end.

Definition metrics_pass (a : arrival (string * Z * Z * Z)) (s : server_t) : server_t * string :=
  match a with
  | Conn rcv snd (version, nread, whead, wbody) =>
      if set_conn_timeout rcv snd then
        let d := sv_d s in
        let '(cards, out) := promex_handle ops log10 version nread whead wbody (d_cfg d) (d_prog d) (sv_hps s)
                               (sv_sfp s) (d_cards d) in
        (set_d s (set_cards d cards), out)
      else (s, "")
  | _ => (s, "")
  end.

Definition loop_pass (pa : pass_env) (s : server_t) : option (server_t * (list Z * string)) :=
  '(s, reply) ← control_pass (pa_control pa) s;
  let '(s, page) := metrics_pass (pa_metrics pa) s in Some (s, (reply, page)).

(** ** Worker threads *)

Definition worker_fds (hp : pw_host_plane) : list Z := take PW_HOST_PLANE_MAX_BINDINGS (hb_fd <$> hp_bindings hp).

(** One pass of the worker of card [i], over the TAPs [w]. *)
Definition worker_pass {W} (tap_write : Z -> list Z -> W -> W * Z) (tap_read : Z -> nat -> W -> W * option (list Z))
    (i : nat) (w : W) (s : server_t) : server_t * W :=
  match mjoin (sv_hps s !! i), d_cards (sv_d s) !! i with
  | Some hp, Some cr =>
      let st := pw_host_plane_step ops tap_write tap_read 16 hp (cr_ctx cr) w in
      ({| sv_d := set_cards (sv_d s) (<[i := Daemon.set_ctx cr (st_ctx st)]> (d_cards (sv_d s)));
          sv_hps := <[i := Some (st_hp st)]> (sv_hps s);
          sv_taps := sv_taps s; sv_sfp := sv_sfp s; sv_loaded := sv_loaded s; sv_disk := sv_disk s |}, st_world st)
  | _, _ => (s, w)
  end.

(** ** Console output *)

Definition plane_text (hp : pw_host_plane) : string :=
  let n ctr := str_Z (sum_ctr hp (ctr hp)) in
  "  punts=" +:+ n hp_punt_ok +:+ "/" +:+ n hp_punt_dropped +:+ "  injects=" +:+ n hp_tap_ok +:+ "/" +:+
  n hp_tap_dropped +:+ "  unknown_lif=" +:+ str_Z (hp_unknown_lif hp).

Definition print_stats (now_ms : Z) (s : server_t) : string :=
  let d := sv_d s in
  "--- stats @ " +:+ fmt_fixed 3 (fdiv (f64 now_ms) (f64 1000)) +:+ " s ---" +:+ newline +:+
  String.concat "" (ic ← imap pair (cfg_cards (d_cfg d));
    if negb (card_open (d_cards d) ic.1) then [] else
    ["  card" +:+ str_Z (card_id ic.2) +:+ "(" +:+ card_name ic.2 +:+ ") backend=" +:+
     backend_name (d_cards d) ic.1 +:+ from_option plane_text "" (mjoin (sv_hps s !! ic.1)) +:+ newline]).

Definition now_ms (tv_sec tv_nsec : Z) : Z := u64 (u64 tv_sec * 1000 + u64 tv_nsec / 1000000).

(** The periodic text at the end of a pass; [now], [shown] and [again] are the three
    readings of the clock. *)
Definition stats_pass (interval last now shown again : Z) (s : server_t) : Z * string :=
  if (0 <? interval) && (interval <=? i32 (now - last)) then (again, print_stats shown s) else (last, "").

Definition summary_line (f : pw_flow) (m : pw_flow_meta) : string :=
  "  flow id=" +:+ str_Z (f_id f) +:+ " tx=p" +:+ str_Z (f_tx_global_port f) +:+ " rx=p" +:+
  str_Z (f_rx_global_port f) +:+ " latency=" +:+
  (if m_latency_valid m then "same-card" else "gpio-corrected (cross-card)") +:+ newline.

Definition print_summary (version : string) (cfg : pw_config) (prog : pw_program) : string :=
  let y := cfg_system cfg in
  "packetwyrmd " +:+ version +:+ newline +:+
  "system: " +:+ sys_name y +:+ " (mode=" +:+ sys_mode y +:+ ", speed=" +:+ sys_default_speed y +:+ ")" +:+ newline +:+
  "cards: " +:+ str_nat (length (cfg_cards cfg)) +:+ ", logical_interfaces: " +:+
  str_nat (length (cfg_logical_if cfg)) +:+ ", flows: " +:+ str_nat (length (cfg_flows cfg)) +:+ newline +:+
  String.concat "" (zip_with summary_line (cfg_flows cfg) (p_flow_meta prog)).
End Process.
Arguments Quiet {A}.
Arguments NoConn {A}.
Arguments Conn {A} rcv snd a.

(** ** Threads and shutdown *)

Module Threads.

(** Where a thread stands: not created, at its test of the stop flag, in a pass, with
    naps left before the test, gone. *)
Inductive thread := Off | AtTest | Busy | Nap (left : nat) | Done.
#[export] Instance thread_eq_dec : EqDecision thread.
Proof. solve_decision. Defined.

Definition alive (t : thread) : bool := match t with Off | Done => false | _ => true end.

(** The loop of a thread: [naps] slices of sleep between two passes, each after a
    test of the flag too. *)
Definition thread_next (stop : bool) (naps : nat) (t : thread) : option thread :=
  match t with
  | Off | Done => None
  | AtTest => Some (if stop then Done else Busy)
  | Busy => Some (if (naps =? 0)%nat then AtTest else Nap naps)
  | Nap n => Some (if stop || (n =? 0)%nat then AtTest else Nap (n - 1))
  end.

Definition SFP_NAPS : nat := 50.

Record worker := { wk_fds : list Z; wk_stop : bool; wk_thread : thread }.
Definition no_worker : worker := {| wk_fds := []; wk_stop := false; wk_thread := Off |}.

(** What the process closes. *)
Inductive resource := Metrics | Control | Tap (fd : Z) | Card (i : nat).

(** The statements of [main] from the workers on. *)
Inductive main_at :=
| Starting (i : nat) | StartServo | StartSfp | Loop | Pass
| JoinServo | JoinSfp | StopWorkers (i : nat) | JoinWorkers (i : nat)
| CloseMetrics | CloseControl | CloseTaps (i : nat) | CloseCards (i : nat) | Returned.

(** [pr_stop] is [g_stop]; [pr_closed] the closes so far, in order. *)
Record process := {
  pr_main : main_at; pr_stop : bool; pr_servo : thread; pr_sfp : thread;
  pr_workers : list worker; pr_closed : list resource
}.

Definition goto (m : main_at) (p : process) : process :=
  {| pr_main := m; pr_stop := pr_stop p; pr_servo := pr_servo p; pr_sfp := pr_sfp p;
     pr_workers := pr_workers p; pr_closed := pr_closed p |}.
Definition on_signal (p : process) : process :=
  {| pr_main := pr_main p; pr_stop := true; pr_servo := pr_servo p; pr_sfp := pr_sfp p;
     pr_workers := pr_workers p; pr_closed := pr_closed p |}.
Definition set_servo (t : thread) (p : process) : process :=
  {| pr_main := pr_main p; pr_stop := pr_stop p; pr_servo := t; pr_sfp := pr_sfp p;
     pr_workers := pr_workers p; pr_closed := pr_closed p |}.
Definition set_sfp (t : thread) (p : process) : process :=
  {| pr_main := pr_main p; pr_stop := pr_stop p; pr_servo := pr_servo p; pr_sfp := t;
     pr_workers := pr_workers p; pr_closed := pr_closed p |}.
Definition set_worker (i : nat) (w : worker) (p : process) : process :=
  {| pr_main := pr_main p; pr_stop := pr_stop p; pr_servo := pr_servo p; pr_sfp := pr_sfp p;
     pr_workers := <[i := w]> (pr_workers p); pr_closed := pr_closed p |}.
Definition closes (r : resource) (p : process) : process :=
  {| pr_main := pr_main p; pr_stop := pr_stop p; pr_servo := pr_servo p; pr_sfp := pr_sfp p;
     pr_workers := pr_workers p; pr_closed := pr_closed p ++ [r] |}.

Definition worker_at (p : process) (i : nat) : worker := default no_worker (pr_workers p !! i).
Definition wake (w : worker) (t : thread) : worker := {| wk_fds := wk_fds w; wk_stop := wk_stop w; wk_thread := t |}.
Definition tell (w : worker) : worker := {| wk_fds := wk_fds w; wk_stop := true; wk_thread := wk_thread w |}.

Section Life.
(** The planes and TAPs of the startup, which cards are open, whether metrics are
    served. *)
Context (hps : list (option pw_host_plane)) (taps : list Z) (cards : list bool) (prom : bool).

Definition proc_init : process :=
  {| pr_main := Starting 0; pr_stop := false; pr_servo := Off; pr_sfp := Off;
     pr_workers := replicate PW_MAX_CARDS no_worker; pr_closed := [] |}.

(** The next statement of [main]; [created] is what [pthread_create] answers. [None]:
    it waits in [pthread_join], or has returned. *)
Definition main_next (created : bool) (p : process) : option process :=
  let t := if created then AtTest else Off in
  match pr_main p with
  | Starting i =>
      if (length cards <=? i)%nat then Some (goto StartServo p) else
      Some (goto (Starting (S i))
        match mjoin (hps !! i) with
        | None => p
        | Some hp => set_worker i {| wk_fds := worker_fds hp; wk_stop := false; wk_thread := t |} p
        end)
  | StartServo => Some (goto StartSfp (set_servo t p))
  | StartSfp => Some (goto Loop (set_sfp t p))
  | Loop => Some (goto (if pr_stop p then JoinServo else Pass) p)
  | Pass => Some (goto Loop p)
  | JoinServo => if alive (pr_servo p) then None else Some (goto JoinSfp p)
  | JoinSfp => if alive (pr_sfp p) then None else Some (goto (StopWorkers 0) p)
  | StopWorkers i =>
      if (PW_MAX_CARDS <=? i)%nat then Some (goto (JoinWorkers 0) p) else
      let w := worker_at p i in
      Some (goto (StopWorkers (S i)) (if bool_decide (wk_thread w = Off) then p else set_worker i (tell w) p))
  | JoinWorkers i =>
      if (PW_MAX_CARDS <=? i)%nat then Some (goto CloseMetrics p) else
      if alive (wk_thread (worker_at p i)) then None else Some (goto (JoinWorkers (S i)) p)
  | CloseMetrics => Some (goto CloseControl (if prom then closes Metrics p else p))
  | CloseControl => Some (goto (CloseTaps 0) (closes Control p))
  | CloseTaps i =>
      match taps !! i with
      | Some fd => Some (goto (CloseTaps (S i)) (closes (Tap fd) p))
      | None => Some (goto (CloseCards 0) p)
      end
  | CloseCards i =>
      match (cards !! i : option bool) with
      | Some b => Some (goto (CloseCards (S i)) (if b then closes (Card i) p else p))
      | None => Some (goto Returned p)
      end
  | Returned => None
  end.

(** One action of some thread, or a signal. *)
Inductive proc_step : process -> process -> Prop :=
| MainStep created p p' : main_next created p = Some p' -> proc_step p p'
| Signal p : proc_step p (on_signal p)
| ServoStep p t : thread_next (pr_stop p) 0 (pr_servo p) = Some t -> proc_step p (set_servo t p)
| SfpStep p t : thread_next (pr_stop p) SFP_NAPS (pr_sfp p) = Some t -> proc_step p (set_sfp t p)
| WorkerStep i p w t : pr_workers p !! i = Some w -> thread_next (wk_stop w) 0 (wk_thread w) = Some t ->
    proc_step p (set_worker i (wake w t) p).

Definition open_cards (l : list bool) : list resource := mjoin (imap (fun i (b : bool) => if b then [Card i] else []) l).
(** Everything the process has to close, in the order of the code. *)
Definition to_close : list resource :=
  (if prom then [Metrics] else []) ++ [Control] ++ (Tap <$> taps) ++ open_cards cards.
End Life.
End Threads.
