(* ===== verification/ServerProps.v ===== *)
(** * The daemon process keeps its promises

    That every request on the control socket keeps the daemon's invariant, what a
    successful startup guarantees, that every pass of every thread keeps it, and that with a secret configured only a request that
    carries it has any effect or learns anything. *)

From Stdlib Require Import Ascii SpecFloat.
From Stdlib Require String.
From S2P Require Import Prelude StateMonad Types Config Validate Csr FlowCompiler CompilerInv CompilerFlows CompilerProps Backend Programming GpioSync.
From S2P Require Import Scalar Text Yaml ConfigParse ReaderProps Ipc HostPlane SpiFlash Daemon RunState DaemonProps DaemonClaims Taps TapsProps.
From S2P Require Import Json Forms Secrets SecretsProps Reports ReportProps Requests Metrics MetricsProps Server.

Local Open Scope string_scope.
Local Open Scope Z_scope.
Local Open Scope list_scope.

(** ** Requests *)

Section Requests.
Context {C : Type} {ops : pw_card_backend_ops C} {RC : ReportCard ops}.
Context (libyaml : string -> yaml_parser) {IP : InetPton} {IN : InetNtop} {JC : JsonC}.

Abbreviation server_t := (@server C).

Definition server_inv (s : server_t) : Prop := daemon_inv (ops := ops) (sv_d s) /\ all_open (d_cards (sv_d s)).

(** ** Typed reads *)

Lemma inv_ports d : daemon_inv (ops := ops) d -> ports_typed (d_cfg d).
Proof.
  intros Hd c p Hc Hp. pose proof (proj1 (Forall_forall _ _) (proj2 (rcf_cards _ (di_read _ Hd))) c Hc) as Hr.
  pose proof (proj1 (Forall_forall _ _) (rc_ports _ Hr) p Hp) as [? _]. unfold is_w. lia.
Qed.

Lemma inv_compiled d : daemon_inv (ops := ops) d ->
  exists p, compiled (d_cfg d) p /\ p_flow_meta (d_prog d) = p_flow_meta p.
Proof.
  intros [_ (p & Hp%pw_flow_compile_compiled & [Hk _]) _ _]. injection Hk as Hm _. eauto.
Qed.

Lemma slot_row_bound cfg p cp l r : compiled cfg p -> cp ∈ p_per_card p -> slot cp l r ->
  0 <= l < PWFPGA_FLOW_TABLE_ROWS.
Proof.
  intros Hc Hcp [H0 Hl%lookup_lt_Some]. destruct (compiled_card_fits _ _ _ Hc Hcp) as ([[Hr _ _ _ _] _ _ _ _] & _).
  unfold n_rows in Hr. lia.
Qed.

Lemma inv_slot_bounds d m : daemon_inv (ops := ops) d -> m ∈ p_flow_meta (d_prog d) ->
  0 <= m_tx_local_flow_id m < PWFPGA_FLOW_TABLE_ROWS /\
  (m_rx_slot_valid m = true -> 0 <= m_rx_local_flow_id m < PWFPGA_FLOW_TABLE_ROWS).
Proof.
  intros Hd Hm. destruct (inv_compiled d Hd) as (p & Hc & E). rewrite E in Hm.
  apply list_elem_of_lookup in Hm as [j Hj].
  destruct (lookup_lt_is_Some_2 (cfg_flows (d_cfg d)) j) as [f Hf].
  { rewrite <- (cm_len _ _ Hc). by eapply lookup_lt_Some. }
  destruct (compiled_meta_slots _ _ _ _ Hc Hf) as (m' & tx & rx & Hm' & _ & _ & _ & _ & _ & _ & _ & Ht & Hr).
  simplify_eq. split.
  - destruct Ht as (i & cp & Hcp & _ & Hs). eapply slot_row_bound; [done|by eapply list_elem_of_lookup_2|done].
  - intros Hv. destruct (Hr Hv) as (i & cp & Hcp & _ & _ & ? & ? & _ & _ & Hs & _).
    eapply slot_row_bound; [done|by eapply list_elem_of_lookup_2|done].
Qed.

Lemma inv_slots d : daemon_inv (ops := ops) d -> slots_typed (d_prog d).
Proof.
  intros Hd m Hm. destruct (inv_slot_bounds d m Hd Hm) as [H1 H2]. rewrite flow_table_rows_64 in *.
  unfold is_w. split; [lia|]. intros Hv. specialize (H2 Hv). lia.
Qed.

(** ** The requests *)

Lemma keeps_server (s : server_t) d : server_inv s -> keeps (ops := ops) (sv_d s) d -> server_inv (set_d s d).
Proof.
  intros [Hd Ho] K. split; [by eapply keeps_inv|]. eapply (open_alike (ops := ops)); [exact Ho|apply K].
Qed.

Lemma report_inv f (s : server_t) : server_inv s ->
  kept_all (ops := ops) (d_cards (sv_d s)) (f (d_cards (sv_d s))).1 -> server_inv (report f s).1.
Proof.
  intros Hs Hk. unfold report. destruct (f _) as [cs j]. cbn [fst] in *. apply keeps_server; [done|].
  apply keeps_kept; [|done]. apply keeps_refl, Hs.
Qed.

Lemma flash_id_kept (cs : list (@card_runtime C)) : kept_all (ops := ops) cs (flash_id ops cs).1.
Proof.
  unfold flash_id. destruct (first_open cs) as [ci|]; [|reflexivity].
  pose proof (card_call_kept ci (Some (pw_flash_read_id ops)) cs) as H2.
  destruct (card_call _ _ _) as [cs1 r]. destruct (match r with Some _ => _ | None => _ end).
  apply H2. intros f c [= <-]. apply pw_flash_read_id_kept.
Qed.

Lemma flash_write_kept e req (cs : list (@card_runtime C)) : kept_all (ops := ops) cs (flash_write ops e req cs).1.
Proof.
  unfold flash_write. destruct (jget "path" req) as [jp|]; [|reflexivity].
  destruct (first_open cs) as [ci|]; [|reflexivity]. cbv zeta.
  match goal with |- context [flash_image e ?a ?b] => destruct (flash_image e a b) as [img|]; [|reflexivity] end.
  match goal with |- context [card_call ci ?op cs] => pose proof (card_call_kept ci op cs) as H2;
    destruct (card_call ci op cs) as [cs1 r] end.
  apply H2. intros f c [= <-]. apply pw_flash_program_kept.
Qed.

Lemma run_rpc_inv e name r req (s : server_t) : server_inv s -> server_inv (run_rpc ops libyaml e name r req s).1.
Proof.
  intros Hs. pose proof Hs as [Hd Ho]. pose proof (di_sync _ Hd) as Hy.
  destruct r; cbn [run_rpc]; try done.
  - apply report_inv; [done|apply build_cards_kept].
  - apply report_inv; [done|]. by apply build_port_stats_kept, inv_ports.
  - destruct (jget "id" req); [|done]. apply report_inv; [done|]. by apply build_flow_hist_kept, inv_slots.
  - apply report_inv; [done|]. by apply build_flow_stats_kept, inv_slots.
  - pose proof (rpc_test_keeps a _ Hy) as K. destruct (rpc_test ops a (sv_d s)). by apply keeps_server.
  - pose proof (rpc_stats_clear_keeps _ Hy) as K. destruct (rpc_stats_clear ops (sv_d s)) as [d [? ?]].
    by apply keeps_server.
  - pose proof (load_spec libyaml (string_member "yaml" req) _ Hd) as (H1 & A & _).
    destruct (do_config_load ops libyaml _ (sv_d s)) as [d rep]. split; [done|].
    by eapply (open_alike (ops := ops)).
  - by destruct (do_config_save _ _ _ _ _ _).
  - destruct (jget "id" req) as [jid|]; [|done]. pose proof (rpc_flow_keeps (jc_int64 jid) enable _ Hy) as K.
    destruct (rpc_flow ops _ enable (sv_d s)). by apply keeps_server.
  - apply report_inv; [done|apply flash_id_kept].
  - apply report_inv; [done|apply flash_write_kept].
Qed.

Lemma handle_request_inv e buf (s s' : server_t) j : server_inv s ->
  handle_request ops libyaml e buf s = Some (s', j) -> server_inv s'.
Proof.
  intros Hs. unfold handle_request. destruct (jc_parse buf) as [[]|]; try by intros [= <- _].
  destruct (authed _ _) as [[]|]; [|by intros [= <- _]|done].
  unfold run_request. destruct (string_member _ _) as [name|]; [|by intros [= <- _]].
  destruct (rpc_of name) as [r|]; [|by intros [= <- _]].
  pose proof (run_rpc_inv e name r (JObject l) s Hs) as Hr. by intros [= E]; rewrite E in Hr.
Qed.

Lemma handle_client_inv e ks sent (s s' : server_t) out : server_inv s ->
  handle_client ops libyaml e ks sent s = Some (s', out) -> server_inv s'.
Proof.
  intros Hs. unfold handle_client. destruct (pw_ipc_read_frame ks sent _) as [[rest ks1] [[body|]| |]];
    try by intros [= <- _].
  destruct (handle_request _ _ _ _ s) as [[s1 j]|] eqn:E; [|done]. cbn [mbind option_bind]. intros [= <- _].
  by eapply handle_request_inv.
Qed.
End Requests.

Section Process.
Context {C : Type} {ops : pw_card_backend_ops C} {RC : ReportCard ops}.
Context (libyaml : string -> yaml_parser) {IP : InetPton} {IN : InetNtop} {JC : JsonC}.
Context (log10 : spec_float -> spec_float).

Abbreviation server_t := (@server C).

(** ** Steps *)

(** One pass of the main loop, of a worker thread over its TAPs, of the servo thread
    or of the SFP thread. *)
Inductive server_step : server_t -> server_t -> Prop :=
| step_loop pa s s' out : loop_pass ops libyaml log10 pa s = Some (s', out) -> server_step s s'
| step_worker W tap_write tap_read i (w : W) s : server_step s (worker_pass ops tap_write tap_read i w s).1
| step_servo_pass s : server_step s (set_d s (servo_tick ops (sv_d s)))
| step_sfp_pass s : server_step s (sfp_tick ops s).

Lemma metrics_pass_inv a (s : server_t) : server_inv (ops := ops) s ->
  server_inv (ops := ops) (metrics_pass ops log10 a s).1.
Proof.
  intros Hs. destruct a as [| |rcv snd [[[v n1] n2] n3]]; [done|done|]. cbn [metrics_pass].
  destruct (set_conn_timeout rcv snd); [|done].
  pose proof (promex_handle_kept (ops := ops) log10 v n1 n2 n3 (d_cfg (sv_d s)) (d_prog (sv_d s)) (sv_hps s) (sv_sfp s)
    (d_cards (sv_d s)) (inv_slots _ (proj1 Hs))) as K.
  destruct (promex_handle _ _ _ _ _ _ _ _ _ _ _) as [cs out]. apply keeps_server; [done|].
  apply keeps_kept; [apply keeps_refl, Hs|exact K].
Qed.

Lemma loop_pass_inv pa (s s' : server_t) out : server_inv (ops := ops) s ->
  loop_pass ops libyaml log10 pa s = Some (s', out) -> server_inv (ops := ops) s'.
Proof.
  intros Hs ([s1 r] & Hc & H2)%bind_Some.
  assert (H1 : server_inv (ops := ops) s1).
  { destruct (pa_control pa) as [| |rcv snd [[e ks] sent]]; cbn [control_pass] in Hc; try by injection Hc as <- _.
    destruct (set_conn_timeout rcv snd); [by eapply handle_client_inv|by injection Hc as <- _]. }
  pose proof (metrics_pass_inv (pa_metrics pa) s1 H1) as Hm. destruct (metrics_pass _ _ _ s1). by injection H2 as <- _.
Qed.

Lemma inv_set_cards (s s' : server_t) cs : server_inv (ops := ops) s -> sv_d s' = set_cards (sv_d s) cs ->
  kept_all (ops := ops) (d_cards (sv_d s)) cs -> server_inv (ops := ops) s'.
Proof.
  intros Hs E K. unfold server_inv. rewrite E. apply (keeps_server s (set_cards (sv_d s) cs) Hs).
  apply keeps_kept; [apply keeps_refl, Hs|done].
Qed.

Lemma server_step_inv (s s' : server_t) : server_step s s' -> server_inv (ops := ops) s -> server_inv (ops := ops) s'.
Proof.
  intros [pa s1 s2 out H|W tw tr i w s1|s1|s1] Hs.
  - by eapply loop_pass_inv.
  - unfold worker_pass. destruct (mjoin _) as [hp|]; [|done]. destruct (_ !! i) as [cr|] eqn:Hi; [|done].
    eapply inv_set_cards; [exact Hs|reflexivity|]. apply kept_insert; [done|]. apply plane_step_kept.
  - apply keeps_server; [done|]. apply servo_tick_keeps, Hs.
  - unfold sfp_tick. pose proof (refresh_kept (ops := ops) (length (d_cards (sv_d s1))) (d_cards (sv_d s1)) (sv_sfp s1)) as K.
    destruct (sfp_refresh_once _ _ _) as [cs cache]. by eapply inv_set_cards.
Qed.

(** ** Startup *)

Lemma start_up bar_open fake_open o e r : opens_ok (ops := ops) bar_open -> o_allow_fake o = false ->
  daemon_start ops libyaml bar_open fake_open o e = Up r ->
  exists d env test, d = sv_d (up_server r) /\ o_dry_run o = false /\
    startup ops libyaml bar_open fake_open (o_autostart o) false (o_cal o) env test =
      Some {| d_cfg := d_cfg d; d_prog := d_prog d; d_cards := d_cards d; d_test_yaml := test; d_cal := d_cal d |} /\
    exists loaded, start_services o e loaded d = Up r.
Proof.
  intros Hop Hf. unfold daemon_start. rewrite Hf.
  destruct (file_text _ _) as [env|]; [|done]. destruct (test_text _ _) as [test|]; [|done].
  destruct (startup_cfg _ _ _) as [cp|]; [|done]. destruct (o_dry_run o); [done|].
  destruct (startup _ _ _ _ _ _ _ _ _) as [d|] eqn:Hs; [|done]. intros Hu. exists (stash_test e (o_test o) d), env, test.
  assert (Ht : d_test_yaml d = test).
  { unfold startup in Hs. destruct (startup_cfg _ _ _) as [[]|]; [|done]. destruct (open_all_backends _ _ _ _).
    destruct (_ && _); [done|]. destruct (program_backends_diag _ _ _ _ _) as [? ?]. destruct (_ && _); [done|].
    by injection Hs as <-. }
  split_and!; [|done| |by eexists].
  - unfold start_services in Hu. destruct (setup_taps _ _ _ _ _ _ _ _ _) as [ts [n|]]; [|done].
    destruct (_ && _); [done|]. destruct (pw_ipc_listen _ _ _) as [calls [|]]; [|done]. by injection Hu as <-.
  - destruct d as [dc dp dcs dt dcal]. cbn in *. by subst.
Qed.

Lemma start_inv bar_open fake_open o e r : opens_ok (ops := ops) bar_open -> o_allow_fake o = false ->
  daemon_start ops libyaml bar_open fake_open o e = Up r -> server_inv (ops := ops) (up_server r).
Proof.
  intros Hop Hf H. destruct (start_up _ _ _ _ _ Hop Hf H) as (d & env & test & -> & _ & Hs & _).
  apply (startup_inv (ops := ops)) in Hs as [[H1 H2 H3 [H4 H5 H6]] Ho]; [|done].
  split; [split; [exact H1|exact H2|exact H3|split; [exact H4|exact H5|exact H6]]|exact Ho].
Qed.


Lemma startup_idle bar_open fake_open cal env test d :
  startup ops libyaml bar_open fake_open false false cal env test = Some d -> idle (d_prog d).
Proof.
  unfold startup. destruct (startup_cfg libyaml env test) as [[cfg p]|] eqn:Hc; [|done].
  apply startup_cfg_ok in Hc as [_ Hp]. destruct (open_all_backends _ _ _ _) as [cs n]. destruct (_ && _); [done|].
  destruct (program_backends_diag _ _ _ _ _) as [cs1 w]. destruct (_ && _); [done|]. intros [= <-].
  cbn [d_prog]. by eapply stage_idle, pw_flow_compile_compiled.
Qed.

Abbreviation taps_of r := {| tp_taps := sv_taps (up_server r); tp_hps := sv_hps (up_server r); tp_live := up_live r |}.

(** The TAPs and the control socket of a production startup. *)
Lemma start_whole bar_open fake_open o e r : opens_ok (ops := ops) bar_open ->
  (forall name live fd a, se_tap_open e name live = Ok (fd, a) -> fd ∉ live) ->
  o_allow_fake o = false -> daemon_start ops libyaml bar_open fake_open o e = Up r ->
  let d := sv_d (up_server r) in
  (o_autostart o = false -> idle (d_prog d)) /\ tap_inv [] (taps_of r) /\
  Forall (served (d_cfg d) (d_cards d) (taps_of r)) (cfg_logical_if (d_cfg d)) /\
  up_mode r = 0x1B0 /\ pw_ipc_listen (se_listen e) (sock_path (d_cfg d)) 0x1B0 = (up_calls r, Ok tt).
Proof.
  intros Hop Hfresh Hf H. pose proof (start_inv _ _ _ _ _ Hop Hf H) as [Hd _].
  destruct (start_up _ _ _ _ _ Hop Hf H) as (d & env & test & Ed & _ & Hs & loaded & Hv). rewrite <- Ed in *.
  split; [intros Ha; rewrite Ha in Hs; by apply startup_idle in Hs|].
  unfold start_services in Hv. rewrite Hf in Hv.
  pose proof (setup_taps_exact (se_tap_open e) (se_set_mac e) (se_set_mtu e) (se_set_up e) (se_plane_alloc e) Hfresh
    (d_cfg d) (d_cards d) [] false (NoDup_nil_2)) as Ht. cbv zeta in Ht.
  destruct (setup_taps _ _ _ _ _ _ _ _ _) as [ts [n|]]; [|done]. cbn [fst snd] in Ht. destruct (_ && _); [done|].
  destruct (pw_ipc_listen _ _ _) as [calls [[]|]] eqn:Hl; [|done]. injection Hv as <-. cbn in *.
  destruct Ht as (_ & Hi & Hall). destruct ts as [tt_ th tl]. cbn in *.
  split_and!; [done| |done|done]. apply Hall; [done|]. apply (rcf_cards _ (di_read _ Hd)).
Qed.


(** ** Access *)

Definition refusals : list string := ["invalid JSON"; "request must be a JSON object"; "unauthorized"].

(** The request a connection delivers. *)
Definition delivered (ks : list io_answer) (sent : list Z) : option json :=
  match pw_ipc_read_frame ks sent PW_IPC_FRAME_MAX with
  | (_, _, Done (Ok body)) => jc_parse (bytes_string body)
  | _ => None
  end.

(** Access to one request. *)
Lemma request_access e buf (s : server_t) :
  let secret := chars (sys_secret (cfg_system (d_cfg (sv_d s)))) in
  secret <> [] -> Z.of_nat (length secret) < 2 ^ 32 ->
  (forall req x, jc_parse buf = Some req -> carried_secret req = Some (Some x) -> Z.of_nat (length x) < 2 ^ 32) ->
  (forall s' j, handle_request ops libyaml e buf s = Some (s', j) ->
     (exists req, jc_parse buf = Some req /\ carried_secret req = Some (Some secret)) \/
     s' = s /\ exists msg, msg ∈ refusals /\ j = build_error msg) /\
  (handle_request ops libyaml e buf s = None <-> exists req, jc_parse buf = Some req /\ carried_secret req = Some None).
Proof.
  intros secret Hne Hlen Hb. unfold handle_request. fold secret.
  assert (Href : forall msg, msg ∈ refusals -> forall s' j, Some (s, build_error msg) = Some (s', j) ->
    s' = s /\ exists msg, msg ∈ refusals /\ j = build_error msg) by (intros msg ? s' j [= <- <-]; eauto).
  destruct (jc_parse buf) as [req|] eqn:Hp.
  2:{ split; [intros s' j H; right; by eapply (Href "invalid JSON"); [left|]|split; [done|naive_solver]]. }
  destruct req; try (split; [intros s' j H; right; by eapply (Href "request must be a JSON object"); [right; left|]
    |split; [done|by intros (? & [= <-] & ?)]]).
  destruct (auth_exact secret (carried_secret (JObject l))) as [Hnull Hok]; [done|naive_solver|].
  destruct (authed secret _) as [[]|] eqn:Ha.
  - split.
    + intros s' j _. left. exists (JObject l). split; [done|]. by destruct (proj1 Hok eq_refl).
    + split; [done|]. intros (? & [= <-] & Hn). by pose proof (proj2 Hnull (conj Hne Hn)).
  - split; [intros s' j H; right; by eapply (Href "unauthorized"); [do 2 right; left|]|]. split; [done|].
    intros (? & [= <-] & Hn). by pose proof (proj2 Hnull (conj Hne Hn)).
  - split; [done|]. split; [|done]. intros _. exists (JObject l). split; [done|]. by apply Hnull.
Qed.

(** C28: with a secret configured, a connection has an effect or learns anything
    only when the request it delivers carries exactly that secret: otherwise the
    whole server state is as before and the peer gets nothing or one of three fixed
    error replies. And the daemon crashes exactly on a request whose secret is the
    JSON null. *)
Theorem request_guarded e ks sent (s : server_t) :
  let secret := chars (sys_secret (cfg_system (d_cfg (sv_d s)))) in
  secret <> [] -> Z.of_nat (length secret) < 2 ^ 32 ->
  (forall req x, delivered ks sent = Some req -> carried_secret req = Some (Some x) -> Z.of_nat (length x) < 2 ^ 32) ->
  (forall s' out, handle_client ops libyaml e ks sent s = Some (s', out) ->
     (exists req, delivered ks sent = Some req /\ carried_secret req = Some (Some secret)) \/
     s' = s /\ (out = [] \/ exists msg ks', msg ∈ refusals /\
       out = (pw_ipc_write_frame ks' (string_bytes (jc_print (build_error msg)))).1.1)) /\
  (handle_client ops libyaml e ks sent s = None <->
     exists req, delivered ks sent = Some req /\ carried_secret req = Some None).
Proof.
  intros secret Hne Hlen. unfold handle_client, delivered.
  destruct (pw_ipc_read_frame ks sent PW_IPC_FRAME_MAX) as [[rest ks1] [[body|]| |]]; intros Hb;
    try (split; [intros s' out [= <- <-]; right; by split; [|left]|split; [done|naive_solver]]).
  destruct (request_access e (bytes_string body) s Hne Hlen Hb) as [H1 H2]. fold secret in H1.
  destruct (handle_request _ _ _ _ s) as [[s1 j]|]; cbn [mbind option_bind]; [|by split; [intros ? ? [=]|split; [intros _; apply H2|]]].
  split; [|by split; [|intros ?%H2]]. intros s' out [= <- <-].
  destruct (H1 _ _ eq_refl) as [?|(-> & msg & ? & ->)]; [by left|]. right. split; [done|]. right. eauto.
Qed.
End Process.

(** ** Winding down *)

Section Winding.
Import Threads.
Context (hps : list (option pw_host_plane)) (taps : list Z) (cards : list bool) (prom : bool).

(** How far [main] is, and where in a loop. *)
Definition place (m : main_at) : nat * nat :=
  match m with
  | Starting i => (0, i) | StartServo => (1, 0) | StartSfp => (2, 0) | Pass => (3, 0) | Loop => (3, 1)
  | JoinServo => (4, 0) | JoinSfp => (5, 0) | StopWorkers i => (6, i) | JoinWorkers i => (7, i)
  | CloseMetrics => (8, 0) | CloseControl => (9, 0) | CloseTaps i => (10, i) | CloseCards i => (11, i) | Returned => (12, 0)
  end%nat.

(** The worker of card [j] was told to stop; it was joined. *)
Definition told (m : main_at) (j : nat) : Prop :=
  match m with StopWorkers i => (j < i)%nat | _ => (7 <= (place m).1)%nat end.
Definition joined (m : main_at) (j : nat) : Prop :=
  match m with JoinWorkers i => (j < i)%nat | _ => (8 <= (place m).1)%nat end.

Definition closed_by (m : main_at) : list resource :=
  let pm := if prom then [Metrics] else [] in
  match m with
  | CloseControl => pm
  | CloseTaps i => pm ++ [Control] ++ (Tap <$> take i taps)
  | CloseCards i => pm ++ [Control] ++ (Tap <$> taps) ++ open_cards (take i cards)
  | Returned => to_close taps cards prom
  | _ => []
  end.

Record proc_inv (p : process) : Prop := {
  pi_servo : alive (pr_servo p) = true -> ((place (pr_main p)).1 <= 4)%nat;
  pi_sfp : alive (pr_sfp p) = true -> ((place (pr_main p)).1 <= 5)%nat;
  pi_workers : length (pr_workers p) = PW_MAX_CARDS;
  pi_worker : forall j w, pr_workers p !! j = Some w -> alive (wk_thread w) = true ->
    (exists hp, hps !! j = Some (Some hp) /\ wk_fds w = worker_fds hp) /\ (j < length cards)%nat /\
    (told (pr_main p) j -> wk_stop w = true) /\ ~ joined (pr_main p) j;
  pi_stop : (4 <= (place (pr_main p)).1)%nat -> pr_stop p = true;
  pi_closed : pr_closed p = closed_by (pr_main p)
}.

Lemma open_cards_snoc l b : open_cards (l ++ [b]) = open_cards l ++ (if b then [Card (length l)] else []).
Proof. unfold open_cards. rewrite imap_app, join_app. cbn. by rewrite app_nil_r, Nat.add_0_r. Qed.

(** A thread that goes on was not gone. *)
Lemma next_alive stop naps t t' : thread_next stop naps t = Some t' -> alive t = true.
Proof. by destruct t. Qed.

Lemma init_proc_inv : proc_inv proc_init.
Proof. split; cbn [proc_init pr_servo pr_sfp pr_main pr_workers pr_stop pr_closed place fst]; try done; try lia. by intros j w [-> _]%lookup_replicate. Qed.

(** [main] goes on, and nothing else changes. *)
Lemma goto_inv m p : proc_inv p -> ((place (pr_main p)).1 <= (place m).1)%nat ->
  ((place m).1 <= 4 \/ alive (pr_servo p) = false)%nat -> ((place m).1 <= 5 \/ alive (pr_sfp p) = false)%nat ->
  (forall j w, pr_workers p !! j = Some w -> alive (wk_thread w) = true -> (told m j -> wk_stop w = true) /\ ~ joined m j) ->
  ((4 <= (place m).1)%nat -> pr_stop p = true) -> pr_closed p = closed_by m -> proc_inv (goto m p).
Proof.
  intros [H1 H2 H3 H4 H5 H6] Hm Ha Hb Hw Hs Hc. split; cbn [goto pr_servo pr_sfp pr_main pr_workers pr_stop pr_closed]; try done.
  - intros E. destruct Ha; congruence.
  - intros E. destruct Hb; congruence.
  - intros j w Hj E. destruct (H4 j w Hj E) as (? & ? & _). destruct (Hw j w Hj E). by split_and!.
Qed.

(** A thread takes a step of its own. *)
Lemma servo_inv t p : proc_inv p -> thread_next (pr_stop p) 0 (pr_servo p) = Some t -> proc_inv (set_servo t p).
Proof. intros [H1 H2 H3 H4 H5 H6] Ht%next_alive. split; try done. intros _. by apply H1. Qed.

Lemma sfp_inv t p : proc_inv p -> thread_next (pr_stop p) SFP_NAPS (pr_sfp p) = Some t -> proc_inv (set_sfp t p).
Proof. intros [H1 H2 H3 H4 H5 H6] Ht%next_alive. split; try done. intros _. by apply H2. Qed.

Lemma worker_inv i w w' p : proc_inv p -> pr_workers p !! i = Some w ->
  (alive (wk_thread w') = true -> alive (wk_thread w) = true) -> wk_fds w' = wk_fds w -> (wk_stop w = true -> wk_stop w' = true) -> proc_inv (set_worker i w' p).
Proof.
  intros [H1 H2 H3 H4 H5 H6] Hi Ha Ef Es. split; try done; cbn [set_worker pr_workers pr_main]; [by rewrite length_insert|].
  intros j u [(<- & -> & _)|[_ Hj]]%list_lookup_insert_Some Hu; [|by apply H4].
  destruct (H4 _ _ Hi (Ha Hu)) as ((hp & ? & ?) & ? & Ht & ?). split_and!; try done; [exists hp; split; [done|congruence]|auto].
Qed.

Lemma worker_at_lookup p j w : pr_workers p !! j = Some w -> worker_at p j = w.
Proof. unfold worker_at. by intros ->. Qed.

(** A worker is created before the loop. *)
Lemma fresh_worker_inv i hp t p : proc_inv p -> pr_main p = Starting i -> (i < length cards)%nat -> mjoin (hps !! i) = Some hp ->
  proc_inv (set_worker i {| wk_fds := worker_fds hp; wk_stop := false; wk_thread := t |} p).
Proof.
  intros [H1 H2 H3 H4 H5 H6] Em Hi Hh. split; try done; cbn [set_worker pr_workers pr_main]; [by rewrite length_insert|].
  intros j u [(<- & <- & _)|[_ Hj]]%list_lookup_insert_Some Hu; [|by apply H4]. rewrite Em. cbn [told joined place fst].
  split_and!; try lia. exists hp. split; [|done]. by destruct (hps !! i) as [[|]|]; simplify_eq/=.
Qed.

(** Past the joins nobody is left to disturb. *)
Lemma closing_inv m l p : proc_inv p -> (8 <= (place (pr_main p)).1 <= (place m).1)%nat -> l = closed_by m ->
  proc_inv {| pr_main := m; pr_stop := pr_stop p; pr_servo := pr_servo p; pr_sfp := pr_sfp p; pr_workers := pr_workers p; pr_closed := l |}.
Proof.
  intros [H1 H2 H3 H4 H5 H6] Hm Hl. split; cbn; try done.
  - intros E. specialize (H1 E). lia.
  - intros E. specialize (H2 E). lia.
  - intros j w Hj Ha. destruct (H4 j w Hj Ha) as (_ & _ & _ & []). destruct (pr_main p); cbn in *; lia.
  - intros _. apply H5. lia.
Qed.

Ltac goes :=
  apply goto_inv; cbn [set_servo set_sfp set_worker closes pr_main pr_servo pr_sfp pr_workers pr_stop pr_closed];
  try match goal with H : pr_main _ = _ |- _ => rewrite ?H end; cbn [place fst told joined closed_by]; auto with lia.

Lemma main_inv created p p' : proc_inv p -> main_next hps taps cards prom created p = Some p' -> proc_inv p'.
Proof.
  intros Hi. pose proof Hi as [H1 H2 H3 H4 H5 H6]. unfold main_next.
  assert (Hlate : forall j w, pr_workers p !! j = Some w -> (j < PW_MAX_CARDS)%nat) by (intros j w Hj%lookup_lt_Some; lia).
  assert (Hsv : (5 <= (place (pr_main p)).1)%nat -> alive (pr_servo p) = false) by (destruct (alive (pr_servo p)); [intros; specialize (H1 eq_refl); lia|done]).
  assert (Hsf : (6 <= (place (pr_main p)).1)%nat -> alive (pr_sfp p) = false) by (destruct (alive (pr_sfp p)); [intros; specialize (H2 eq_refl); lia|done]).
  destruct (pr_main p) eqn:Em; cbn [place fst told joined closed_by] in *.
  - destruct (Nat.leb_spec (length cards) i) as [Hn|Hn]; intros [= <-]; [goes|].
    destruct (mjoin _) as [hp|] eqn:Eh; [|goes]. pose proof (fresh_worker_inv i hp (if created then AtTest else Off) p Hi Em Hn Eh). goes.
  - intros [= <-]. assert (proc_inv (set_servo (if created then AtTest else Off) p)); [|goes].
    split; try done; cbn; rewrite Em; auto with lia.
  - intros [= <-]. assert (proc_inv (set_sfp (if created then AtTest else Off) p)); [|goes].
    split; try done; cbn; rewrite Em; auto with lia.
  - intros [= <-]. destruct (pr_stop p) eqn:Es; goes.
  - intros [= <-]. goes.
  - destruct (alive (pr_servo p)) eqn:Ea; [done|]. intros [= <-]. goes.
  - destruct (alive (pr_sfp p)) eqn:Ea; [done|]. intros [= <-]. goes.
  - destruct (Nat.leb_spec PW_MAX_CARDS i) as [Hn|Hn]; intros [= <-].
    { goes. intros j w Hj Ha. split; [|lia]. intros _. apply (H4 j w Hj Ha). specialize (Hlate j w Hj). lia. }
    destruct (lookup_lt_is_Some_2 (pr_workers p) i ltac:(lia)) as [w Hw]. rewrite (worker_at_lookup p i w Hw).
    case_bool_decide as Eo.
    + goes. intros j u Hj Ha. split; [|lia]. intros Hl. destruct (decide (j = i)) as [->|]; [simplify_eq; by rewrite Eo in Ha|].
      apply (H4 j u Hj Ha). lia.
    + pose proof (worker_inv i w (tell w) p Hi Hw ltac:(done) eq_refl ltac:(done)). goes.
      intros j u [(<- & <- & _)|[Hne Hj]]%list_lookup_insert_Some Ha; [split; [done|lia]|]. split; [|lia]. intros Hl.
      apply (H4 j u Hj Ha). lia.
  - destruct (Nat.leb_spec PW_MAX_CARDS i) as [Hn|Hn].
    { intros [= <-]. goes. intros j w Hj Ha. destruct (H4 j w Hj Ha) as (_ & _ & _ & []). specialize (Hlate j w Hj). lia. }
    destruct (lookup_lt_is_Some_2 (pr_workers p) i ltac:(lia)) as [w Hw]. rewrite (worker_at_lookup p i w Hw).
    destruct (alive (wk_thread w)) eqn:Ea; [done|]. intros [= <-]. goes. intros j u Hj Ha. destruct (H4 j u Hj Ha) as (_ & _ & Hs & Hn2).
    split; [done|]. intros Hl. assert (j = i) as -> by lia. congruence.
  - intros [= <-]. destruct prom eqn:Ep; apply (closing_inv CloseControl _ p Hi); rewrite ?Em; cbn [place fst closed_by]; try lia;
      cbn [closes pr_closed]; by rewrite ?H6, Ep.
  - intros [= <-]. apply (closing_inv (CloseTaps 0) _ p Hi); rewrite ?Em; cbn [place fst closed_by closes pr_closed]; [lia|]. by rewrite H6.
  - destruct (taps !! i) as [fd|] eqn:Et; intros [= <-].
    + apply (closing_inv (CloseTaps (S i)) _ p Hi); rewrite ?Em; cbn [place fst closed_by closes pr_closed]; [lia|].
      by rewrite H6, (take_S_r _ _ _ Et), fmap_app, !(assoc_L (++)).
    + apply (closing_inv (CloseCards 0) _ p Hi); rewrite ?Em; cbn [place fst closed_by pr_closed]; [lia|].
      rewrite H6, take_ge by (by apply lookup_ge_None_1). cbn. by rewrite app_nil_r.
  - destruct (cards !! i) as [b|] eqn:Et; intros [= <-].
    + assert (Hl : length (take i cards) = i) by (apply length_take_le; apply lookup_lt_Some in Et; lia).
      pose proof (open_cards_snoc (take i cards) b) as Ho. rewrite Hl in Ho.
      destruct b; apply (closing_inv (CloseCards (S i)) _ p Hi); rewrite ?Em; cbn [place fst closed_by closes pr_closed]; try lia;
        rewrite H6, (take_S_r _ _ _ Et), Ho, ?app_nil_r; by rewrite ?(assoc_L (++)).
    + apply (closing_inv Returned _ p Hi); rewrite ?Em; cbn [place fst closed_by pr_closed]; [lia|].
      rewrite H6, take_ge by (by apply lookup_ge_None_1). done.
  - done.
Qed.

Lemma proc_step_inv p p' : proc_step hps taps cards prom p p' -> proc_inv p -> proc_inv p'.
Proof.
  destruct 1 as [created p p' E|p|p t E|p t E|i p w t Hw E]; intros Hi.
  - by eapply main_inv.
  - destruct Hi. by split.
  - by apply servo_inv.
  - by apply sfp_inv.
  - apply (worker_inv i w); try done. intros _. by eapply next_alive.
Qed.

(** A thread whose flag is set ends. *)
Lemma thread_ends naps t : exists t', alive t' = false /\ rtc (fun a b => thread_next true naps a = Some b) t t'.
Proof.
  assert (Ht : rtc (fun a b => thread_next true naps a = Some b) AtTest Done) by (by apply rtc_once).
  assert (Hn : forall k, rtc (fun a b => thread_next true naps a = Some b) (Nap k) Done) by (intros k; by eapply rtc_l).
  destruct t as [| | |k|]; [exists Off|exists Done..]; (split; [done|]); try done.
  destruct (naps =? 0)%nat eqn:E; (eapply rtc_l; [cbn; by rewrite E|done]).
Qed.

Abbreviation pstep := (proc_step hps taps cards prom).

Lemma servo_ends p : pr_stop p = true -> exists t, alive t = false /\ rtc pstep p (set_servo t p).
Proof.
  intros Hs. destruct (thread_ends 0 (pr_servo p)) as (t & Ha & Hr). exists t. split; [done|].
  replace p with (set_servo (pr_servo p) p) at 1 by (by destruct p).
  refine (rtc_congruence (fun t => set_servo t p) pstep _ _ _ Hr). intros a b E. apply (ServoStep _ _ _ _ (set_servo a p)). cbn. by rewrite Hs.
Qed.

Lemma sfp_ends p : pr_stop p = true -> exists t, alive t = false /\ rtc pstep p (set_sfp t p).
Proof.
  intros Hs. destruct (thread_ends SFP_NAPS (pr_sfp p)) as (t & Ha & Hr). exists t. split; [done|].
  replace p with (set_sfp (pr_sfp p) p) at 1 by (by destruct p).
  refine (rtc_congruence (fun t => set_sfp t p) pstep _ _ _ Hr). intros a b E. apply (SfpStep _ _ _ _ (set_sfp a p)). cbn [pr_stop set_sfp]. by rewrite Hs.
Qed.

Lemma worker_ends i w p : pr_workers p !! i = Some w -> wk_stop w = true ->
  exists t, alive t = false /\ rtc pstep p (set_worker i (wake w t) p).
Proof.
  intros Hi Hs. destruct (thread_ends 0 (wk_thread w)) as (t & Ha & Hr). exists t. split; [done|].
  replace p with (set_worker i (wake w (wk_thread w)) p) at 1.
  2: { unfold set_worker. rewrite list_insert_id; [by destruct p|]. by destruct w. }
  refine (rtc_congruence (fun t => set_worker i (wake w t) p) pstep _ _ _ Hr). intros a b E.
  replace (set_worker i (wake w b) p) with (set_worker i (wake (wake w a) b) (set_worker i (wake w a) p)).
  - apply (WorkerStep _ _ _ _ i); [|by rewrite <- Hs in E]. cbn. apply list_lookup_insert_eq. by apply lookup_lt_Some in Hi.
  - unfold set_worker. cbn. by rewrite list_insert_insert_eq.
Qed.

Definition left_of (m : main_at) : nat :=
  let k := (20 + length cards + length taps)%nat in ((20 - (place m).1) * (k + 1) + (k - (place m).2))%nat.

Lemma left_lt m m' :
  ((place m).1 < (place m').1 <= 12 \/
   (place m').1 = (place m).1 /\ (place m).1 <= 12 /\ (place m).2 < (place m').2 <= 20 + length cards + length taps)%nat ->
  (left_of m' < left_of m)%nat.
Proof.
  unfold left_of. set (k := (20 + length cards + length taps)%nat). destruct (place m) as [a i], (place m') as [b j]. cbn [fst snd].
  intros [H|(-> & ? & ?)]; [|lia]. assert ((20 - a) = (20 - b) + (b - a))%nat as -> by lia. nia.
Qed.

(** [main] gets on once the signal has come: it waits for nobody who is not told. *)
Lemma main_gets_on p : proc_inv p -> pr_stop p = true -> pr_main p <> Returned ->
  exists p1 p2, rtc pstep p p1 /\ main_next hps taps cards prom true p1 = Some p2 /\ pr_stop p2 = true /\
    (left_of (pr_main p2) < left_of (pr_main p))%nat.
Proof.
  intros Hi Hs Hm.
  assert (Hgo : forall p1 m q, rtc pstep p p1 -> main_next hps taps cards prom true p1 = Some (goto m q) -> pr_stop q = true ->
    (left_of m < left_of (pr_main p))%nat -> exists p1 p2, rtc pstep p p1 /\ main_next hps taps cards prom true p1 = Some p2 /\
    pr_stop p2 = true /\ (left_of (pr_main p2) < left_of (pr_main p))%nat) by (intros p1 m q ????; by exists p1, (goto m q)).
  unfold main_next in *. destruct (pr_main p) eqn:Em; [..|done].
  - destruct (Nat.leb_spec (length cards) i) as [Hn|Hn].
    + apply (Hgo p StartServo p); [done|rewrite Em|done|apply left_lt; cbn; lia]. by apply Nat.leb_le in Hn as ->.
    + eapply (Hgo p (Starting (S i))); [done|rewrite Em; apply Nat.leb_gt in Hn as ->; done| |apply left_lt; cbn; lia]. by destruct (mjoin _).
  - eapply (Hgo p StartSfp); [done|by rewrite Em|done|apply left_lt; cbn; lia].
  - eapply (Hgo p Loop); [done|by rewrite Em|done|apply left_lt; cbn; lia].
  - apply (Hgo p JoinServo p); [done|by rewrite Em, Hs|done|apply left_lt; cbn; lia].
  - apply (Hgo p Loop p); [done|by rewrite Em|done|apply left_lt; cbn; lia].
  - destruct (servo_ends p Hs) as (t & Ha & Hr).
    eapply (Hgo _ JoinSfp); [exact Hr|cbn [set_servo pr_main pr_servo]; by rewrite Em, Ha|done|apply left_lt; cbn; lia].
  - destruct (sfp_ends p Hs) as (t & Ha & Hr).
    eapply (Hgo _ (StopWorkers 0)); [exact Hr|cbn [set_sfp pr_main pr_sfp]; by rewrite Em, Ha|done|apply left_lt; cbn; lia].
  - destruct (Nat.leb_spec PW_MAX_CARDS i) as [Hn|Hn].
    + apply (Hgo p (JoinWorkers 0) p); [done|rewrite Em|done|apply left_lt; cbn; lia]. by apply Nat.leb_le in Hn as ->.
    + eapply (Hgo p (StopWorkers (S i))); [done|rewrite Em; apply Nat.leb_gt in Hn as ->; done| |apply left_lt; cbn; unfold PW_MAX_CARDS in Hn; lia].
      by destruct (bool_decide _).
  - destruct (Nat.leb_spec PW_MAX_CARDS i) as [Hn|Hn].
    { apply (Hgo p CloseMetrics p); [done|rewrite Em|done|apply left_lt; cbn; lia]. by apply Nat.leb_le in Hn as ->. }
    destruct (lookup_lt_is_Some_2 (pr_workers p) i ltac:(by rewrite (pi_workers p Hi))) as [w Hw].
    assert (Hl : (left_of (JoinWorkers (S i)) < left_of (JoinWorkers i))%nat) by (apply left_lt; cbn; unfold PW_MAX_CARDS in Hn; lia).
    apply Nat.leb_gt in Hn. destruct (alive (wk_thread w)) eqn:Ea.
    + destruct (pi_worker p Hi i w Hw Ea) as (_ & _ & Ht & _). rewrite Em in Ht.
      destruct (worker_ends i w p Hw (Ht ltac:(cbn; lia))) as (t & Hd & Hr).
      apply (Hgo (set_worker i (wake w t) p) (JoinWorkers (S i)) (set_worker i (wake w t) p)); [exact Hr| |done|done]. cbn [set_worker pr_main]. rewrite Em, Hn.
      rewrite (worker_at_lookup _ i (wake w t)); [cbn [wake wk_thread]; by rewrite Hd|].
      cbn. apply list_lookup_insert_eq. by apply lookup_lt_Some in Hw.
    + apply (Hgo p (JoinWorkers (S i)) p); [done| |done|done]. by rewrite Em, Hn, (worker_at_lookup p i w Hw), Ea.
  - eapply (Hgo p CloseControl); [done|by rewrite Em| |apply left_lt; cbn; lia]. by destruct prom.
  - eapply (Hgo p (CloseTaps 0)); [done|by rewrite Em|done|apply left_lt; cbn; lia].
  - destruct (taps !! i) as [fd|] eqn:Et.
    + apply lookup_lt_Some in Et as Hl. eapply (Hgo p (CloseTaps (S i))); [done|by rewrite Em, Et|done|apply left_lt; cbn; lia].
    + eapply (Hgo p (CloseCards 0)); [done|by rewrite Em, Et|done|apply left_lt; cbn; lia].
  - destruct (cards !! i) as [b|] eqn:Et.
    + apply lookup_lt_Some in Et as Hl. eapply (Hgo p (CloseCards (S i))); [done|by rewrite Em, Et| |apply left_lt; cbn; lia]. by destruct b.
    + eapply (Hgo p Returned); [done|by rewrite Em, Et|done|apply left_lt; cbn; lia].
Qed.

Lemma run_proc_inv p p' : rtc pstep p p' -> proc_inv p -> proc_inv p'.
Proof. induction 1; [done|]. intros Hi. by apply IHrtc, (proc_step_inv x). Qed.

Lemma winds_down n : forall p, proc_inv p -> pr_stop p = true -> (left_of (pr_main p) < n)%nat ->
  exists p', rtc pstep p p' /\ pr_main p' = Returned.
Proof.
  induction n as [|n IH]; intros p Hi Hs Hl; [lia|].
  assert (pr_main p = Returned \/ pr_main p <> Returned) as [Hm|Hm] by (destruct (pr_main p); auto); [by exists p|].
  destruct (main_gets_on p Hi Hs Hm) as (p1 & p2 & Hr & Hn & Hs2 & Hl2).
  assert (Hr2 : rtc pstep p p2) by (eapply rtc_r; [exact Hr|by eapply MainStep]).
  destruct (IH p2 (run_proc_inv _ _ Hr2 Hi) Hs2 ltac:(lia)) as (p' & Hp & Hq). exists p'. split; [by etransitivity|done].
Qed.

(** A resource of the process that is not closed yet. *)
Definition still_open (p : process) (r : resource) : Prop := r ∈ to_close taps cards prom /\ r ∉ pr_closed p.

Lemma elem_open_cards i : cards !! i = Some true -> Card i ∈ open_cards cards.
Proof.
  intros Hi. unfold open_cards. apply list_elem_of_join. exists [Card i]. split; [by left|].
  apply list_elem_of_lookup. exists i. by rewrite list_lookup_imap, Hi.
Qed.

Lemma card_below l r : r ∈ open_cards l -> exists j, r = Card j /\ (j < length l)%nat.
Proof.
  unfold open_cards. intros (x & Hr & Hx)%list_elem_of_join. apply list_elem_of_lookup in Hx as [j Hj].
  rewrite list_lookup_imap in Hj. destruct (l !! j) as [b|] eqn:El; [|done]. cbn in Hj. injection Hj as <-.
  apply lookup_lt_Some in El. destruct b; [|by apply elem_of_nil in Hr]. apply list_elem_of_singleton in Hr. eauto.
Qed.

Lemma open_cards_once l : NoDup (open_cards l).
Proof.
  induction l as [|b l IH] using rev_ind; [constructor|]. rewrite open_cards_snoc. apply NoDup_app. split_and!; [done| |].
  - intros r (j & -> & Hj)%card_below. destruct b; [|by apply not_elem_of_nil]. rewrite list_elem_of_singleton. intros [=]. lia.
  - destruct b; [apply NoDup_singleton|constructor].
Qed.

Lemma to_close_once : NoDup taps -> NoDup (to_close taps cards prom).
Proof.
  intros Ht. unfold to_close. rewrite !NoDup_app. split_and!.
  - destruct prom; [apply NoDup_singleton|constructor].
  - intros r Hr. destruct prom; [|by apply elem_of_nil in Hr]. apply list_elem_of_singleton in Hr as ->. rewrite !elem_of_app.
    intros [Hc|[Hc|Hc]]; [by apply list_elem_of_singleton in Hc|by apply list_elem_of_fmap in Hc as (? & ? & _)|by apply card_below in Hc as (? & ? & _)].
  - apply NoDup_singleton.
  - intros r ->%list_elem_of_singleton. rewrite elem_of_app.
    intros [Hc|Hc]; [by apply list_elem_of_fmap in Hc as (? & ? & _)|by apply card_below in Hc as (? & ? & _)].
  - apply NoDup_fmap_2; [|done]. by intros a b [=].
  - intros r (fd & -> & _)%list_elem_of_fmap (j & Hc & _)%card_below. done.
  - apply open_cards_once.
Qed.

(** Before the closes everything is open. *)
Lemma before_closes p r : proc_inv p -> ((place (pr_main p)).1 < 9)%nat -> r ∈ to_close taps cards prom -> still_open p r.
Proof.
  intros Hi Hm Hr. split; [done|]. rewrite (pi_closed p Hi). destruct (pr_main p); cbn in *; try lia; apply not_elem_of_nil.
Qed.
End Winding.

Section Shutdown.
Import Threads.
Context {C : Type} {ops : pw_card_backend_ops C} {RC : ReportCard ops}.
Context (libyaml : string -> yaml_parser) {IP : InetPton} {IN : InetNtop} {JC : JsonC}.

(** What a startup hands to its threads. *)
Definition up_taps (r : @running C) : list Z := th_fd <$> sv_taps (up_server r).
Definition up_cards (r : @running C) : list bool := cr_open <$> d_cards (sv_d (up_server r)).
Definition up_metrics (r : @running C) : bool := bool_decide (is_Some (up_prom r)).
Definition up_step (r : @running C) : process -> process -> Prop :=
  proc_step (sv_hps (up_server r)) (up_taps r) (up_cards r) (up_metrics r).
Definition up_open (r : @running C) : process -> resource -> Prop := still_open (up_taps r) (up_cards r) (up_metrics r).

End Shutdown.
