(* ===== verification/ServerSamples.v ===== *)
(** * The daemon process on a concrete card

    A startup over the toy BAR card, a json-c that knows three requests, and a run
    of the process: the hypotheses of the theorems of [ServerProps] and
    [MetricsProps] hold here. *)

From Stdlib Require Import Ascii SpecFloat.
From Stdlib Require String.
From S2P Require Import Prelude Types Config Validate Csr FlowCompiler Backend Programming Dma BackendBar BarSafety BarTables.
From S2P Require Import DmaProps Deploy GpioSync Scalar Text Yaml ConfigParse ReaderProps Ipc HostPlane Daemon RunState DaemonProps DaemonClaims BarDaemon DaemonSamples.
From S2P Require Import Taps TapsProps Json Forms FormProps Secrets Reports ReportProps BarReports Requests Metrics MetricsProps Server ServerProps.

Local Open Scope string_scope.
Local Open Scope Z_scope.
Local Open Scope list_scope.

#[local] Existing Instances ToyInet.toy_pton ToyInet.toy_ntop.

#[export] Instance toy_report_card : ReportCard toy_ops := bar_report_card toy_bar dead_dev (fun _ => true) 0 0x10000 0.

(** ** Documents *)

Definition v_flow : pw_yaml_node := y_map
  [("id", y_sc "7"); ("name", y_sc "up"); ("tx_global_port", y_sc "0"); ("rx_global_port", y_sc "1");
   ("ipv4", y_map [("src", y_sc "0x0A000001"); ("dst", y_sc "0x0A000002")]);
   ("udp", y_map [("src_port", y_sc "5000"); ("dst_port", y_sc "5000")]);
   ("traffic", y_map [("frame_len", y_sc "64"); ("rate_bps", y_sc "1_000_000")])].

Definition v_root : pw_yaml_node := y_map
  [("system", y_map [("name", y_sc "lab"); ("mode", y_sc "multi-card"); ("default_speed", y_sc "10g");
                     ("secret", y_sc "s3cret")]);
   ("cards", PW_YAML_SEQ 1 [y_map
      [("id", y_sc "0"); ("pci", y_sc "0000:03:00.0");
       ("ports", PW_YAML_SEQ 1
          [y_map [("local_port", y_sc "0"); ("global_port", y_sc "0")];
           y_map [("local_port", y_sc "1"); ("global_port", y_sc "1")]])]]);
   ("logical_interfaces", PW_YAML_SEQ 1 [y_map
      [("id", y_sc "5"); ("global_port", y_sc "1"); ("mac", y_sc "02:00:00:00:00:01")]]);
   ("flows", PW_YAML_SEQ 1 [v_flow])].

Definition v_libyaml (text : string) : yaml_parser :=
  {| yp_events := if str_eq text "env" then stream_events [(0, doc_of v_root, 0)] 0 0 else [];
     yp_problem := None; yp_line := 0 |}.

Definition v_request (name : string) (secret : json) : json :=
  JObject [("rpc", JString name); ("secret", secret)].

#[export, refine] Instance v_json : JsonC := {|
  jc_parse s :=
    if str_eq s "start" then Some (v_request "test.start" (JString "s3cret"))
    else if str_eq s "guess" then Some (v_request "test.start" (JString "s3cre"))
    else if str_eq s "null" then Some (v_request "test.start" JNull)
    else None;
  jc_print j := "{}";
  jc_string j := match j with JNull => None | JString s => Some s | _ => Some "" end;
  jc_int j := match j with JInt z => i32 z | _ => 0 end;
  jc_int64 j := match j with JInt z => z | _ => 0 end;
  jc_bool j := match j with JBool b => b | _ => false end |}.
Proof. all: try done. intros z Hz. by apply i32_id. Defined.

(** ** The system *)

Definition v_save : save_env :=
  {| sv_path := "/etc/packetwyrm/packetwyrm.yaml"; sv_self := (0, 0); sv_mkstemp := true; sv_fchmod := true;
     sv_fchown := true; sv_writes := []; sv_fsync := true; sv_rename := true |}.
Definition v_req : req_env :=
  {| re_version := "1.0"; re_save := v_save; re_tap_query := fun _ => None; re_fopen := fun _ => None; re_malloc := true |}.

Definition v_env : start_env :=
  {| se_file path := File 3 true "env"; se_reread path := Some "env"; se_tap_open := s_tap_open;
     se_set_mac _ _ := PW_OK; se_set_mtu _ _ := PW_OK; se_set_up _ := PW_OK; se_plane_alloc _ := true;
     se_listen := {| le_lstat := None; le_socket := true; le_bind := true; le_listen := true; le_chmod := true |};
     se_group := Some 970; se_chown := true; se_prom := (true, true, true);
     se_disk := {| dk_env := None; dk_tmp := None |} |}.

Definition v_opts : daemon_opts :=
  match parse_opts daemon_defaults [("p"%char, "0.0.0.0:9100"); ("S"%char, "0"); ("e"%char, "lab.yaml")] with
  | Ok o => o
  | Err _ => daemon_defaults
  end.

Example v_opts_read :
  (o_env v_opts, o_servo_ms v_opts, o_prom_addr v_opts, o_prom_port v_opts, o_allow_fake v_opts) =
  ("lab.yaml", 1, "0.0.0.0", 9100, false).
Proof. vm_compute. reflexivity. Qed.

Definition v_log10 (d : spec_float) : spec_float := d.

Abbreviation v_start := (daemon_start toy_ops v_libyaml s_bar_open s_bar_open v_opts v_env).

Definition v_nobody : @server (bar_ctx toy_card unit) :=
  {| sv_d := {| d_cfg := pw_config_new; d_prog := {| p_per_card := []; p_flow_meta := [] |}; d_cards := [];
                d_test_yaml := None; d_cal := 0 |};
     sv_hps := []; sv_taps := []; sv_sfp := ∅; sv_loaded := None; sv_disk := {| dk_env := None; dk_tmp := None |} |}.
Definition v_up : running :=
  match v_start with
  | Up r => r
  | Exit _ => {| up_server := v_nobody; up_calls := []; up_mode := 0; up_group := None; up_prom := None; up_live := [] |}
  end.

Lemma v_starts : v_start = Up v_up.
Proof.
  unfold v_up. assert (H : (match v_start with Up _ => true | Exit _ => false end) = true) by (vm_compute; reflexivity).
  by destruct v_start.
Qed.

(** A client that sends one frame. *)
Definition v_frame (body : string) : list Z :=
  let b := string_bytes body in [0; 0; 0; Z.of_nat (length b)] ++ b.
Definition v_ks : list io_answer := replicate 8 (Xfer 100).
Definition v_pass (body : string) : pass_env :=
  {| pa_control := Conn true true (v_req, v_ks, v_frame body); pa_metrics := Conn true true ("1.0", 10, 0, 0) |}.

Definition v_after (body : string) : option (@server (bar_ctx toy_card unit)) :=
  fst <$> loop_pass toy_ops v_libyaml v_log10 (v_pass body) (up_server v_up).
Definition v_s1 : @server (bar_ctx toy_card unit) := default v_nobody (v_after "start").


Lemma v_runs : loop_pass toy_ops v_libyaml v_log10 (v_pass "start") (up_server v_up) =
  Some (v_s1, default ([], "") (snd <$> loop_pass toy_ops v_libyaml v_log10 (v_pass "start") (up_server v_up))).
Proof.
  unfold v_s1, v_after.
  assert (H : is_some (loop_pass toy_ops v_libyaml v_log10 (v_pass "start") (up_server v_up)) = true)
    by (vm_compute; reflexivity).
  by destruct (loop_pass _ _ _ _ _) as [[? ?]|].
Qed.

(** ** Witnesses *)



Lemma v_guess : delivered v_ks (v_frame "guess") = Some (v_request "test.start" (JString "s3cre")).
Proof. vm_compute. reflexivity. Qed.
Lemma v_null : delivered v_ks (v_frame "null") = Some (v_request "test.start" JNull).
Proof. vm_compute. reflexivity. Qed.

Lemma request_guarded_witness :
  (forall s' out, handle_client toy_ops v_libyaml v_req v_ks (v_frame "guess") (up_server v_up) = Some (s', out) ->
     s' = up_server v_up) /\
  handle_client toy_ops v_libyaml v_req v_ks (v_frame "null") (up_server v_up) = None.
Proof.
  assert (Hs : chars (sys_secret (cfg_system (d_cfg (sv_d (up_server v_up))))) = chars "s3cret") by (vm_compute; reflexivity).
  split.
  - intros s' out H. destruct (request_guarded (ops := toy_ops) v_libyaml v_req v_ks (v_frame "guess") (up_server v_up)) as [G _].
    + rewrite Hs. discriminate.
    + rewrite Hs. vm_compute. reflexivity.
    + rewrite v_guess. intros req x [= <-] [= <-]. vm_compute. reflexivity.
    + destruct (G _ _ H) as [(req & Hr & Hc)|[-> _]]; [|done]. rewrite v_guess in Hr. injection Hr as <-.
      rewrite Hs in Hc. discriminate.
  - apply (request_guarded (ops := toy_ops) v_libyaml v_req v_ks (v_frame "null") (up_server v_up)).
    + rewrite Hs. discriminate.
    + rewrite Hs. vm_compute. reflexivity.
    + rewrite v_null. intros req x [= <-]. discriminate.
    + exists (v_request "test.start" JNull). split; [exact v_null|reflexivity].
Defined.

Definition v_lines : list string :=
  (promex_lines toy_ops v_log10 "1.0" (d_cfg (sv_d v_s1)) (d_prog (sv_d v_s1)) (sv_hps v_s1) (sv_sfp v_s1)
     (d_cards (sv_d v_s1))).2.

Lemma metrics_whole_lines_witness :
  length v_lines = 133%nat /\
  (promex_build_body toy_ops v_log10 PROM_BODY "1.0" (d_cfg (sv_d v_s1)) (d_prog (sv_d v_s1)) (sv_hps v_s1) (sv_sfp v_s1)
     (d_cards (sv_d v_s1))).2 = cat v_lines.
Proof.
  split; [vm_compute; reflexivity|].
  assert (Hf : (String.length (cat v_lines) < PROM_BODY)%nat) by (apply Nat.ltb_lt; vm_compute; reflexivity).
  unfold v_lines in *.
  exact (proj2 (proj2 (metrics_whole_lines toy_ops v_log10 "1.0" (d_cfg (sv_d v_s1)) (d_prog (sv_d v_s1)) (sv_hps v_s1)
    (sv_sfp v_s1) (d_cards (sv_d v_s1)) eq_refl)) Hf).
Defined.

(** ** A whole life of the threads *)

(** Who acts next. *)
Inductive turn := AMain | ASignal | AServo | ASfp | AWorker (i : nat).

Section Schedule.
Import Threads.
Context (hps : list (option pw_host_plane)) (taps : list Z) (cards : list bool) (prom : bool).

Definition turn_next (a : turn) (p : process) : option process :=
  match a with
  | AMain => main_next hps taps cards prom true p
  | ASignal => Some (on_signal p)
  | AServo => (fun t => set_servo t p) <$> thread_next (pr_stop p) 0 (pr_servo p)
  | ASfp => (fun t => set_sfp t p) <$> thread_next (pr_stop p) SFP_NAPS (pr_sfp p)
  | AWorker i =>
      w ← pr_workers p !! i; t ← thread_next (wk_stop w) 0 (wk_thread w); Some (set_worker i (wake w t) p)
  end.

Fixpoint schedule (l : list turn) (p : process) : option process :=
  match l with [] => Some p | a :: l => p ← turn_next a p; schedule l p end.

Lemma turn_step a p p' : turn_next a p = Some p' -> proc_step hps taps cards prom p p'.
Proof.
  destruct a; cbn [turn_next].
  - by apply MainStep.
  - intros [= <-]. apply Signal.
  - intros (t & H & ->)%fmap_Some. by apply ServoStep.
  - intros (t & H & ->)%fmap_Some. by apply SfpStep.
  - intros (w & Hw & (t & Ht & [= <-])%bind_Some)%bind_Some. by apply WorkerStep.
Qed.

Lemma schedule_steps l : forall p p', schedule l p = Some p' -> rtc (proc_step hps taps cards prom) p p'.
Proof.
  induction l as [|a l IH]; intros p p'; cbn [schedule]; [by intros [= <-]|].
  intros (q & Hq%turn_step & H)%bind_Some. eapply rtc_l; [exact Hq|by apply IH].
Qed.
End Schedule.

(** The signal comes with every thread in a pass; the threads end when they see it. *)
Definition v_hit : list turn :=
  [AMain; AMain; AWorker 0; AMain; AServo; AMain; ASfp; AMain; ASignal; ASfp].
Definition v_end : list turn :=
  [AMain; AMain; AServo; AServo; AMain; ASfp; ASfp; AMain] ++ replicate 17 AMain ++ [AWorker 0; AWorker 0] ++ replicate 17 AMain ++ replicate 6 AMain.

Definition v_life (l : list turn) : option Threads.process :=
  schedule (sv_hps (up_server v_up)) (up_taps v_up) (up_cards v_up) (up_metrics v_up) l Threads.proc_init.

