(* ===== verification/Client.v ===== *)
(** * The command-line client: arguments, secret and transport

    Models the part of [sw/pktwyrm/src/main.c] that every command goes through: the
    global flags, the secret it presents, one call to the daemon over the local
    socket or over HTTPS through the gateway, and what is said when a call fails.
    The peer is a parameter, [peer]: a state [W] that bytes are sent to and bytes
    come back from. A command yields the new state, what it wrote to the standard
    output and error, and its exit code. *)

From Stdlib Require Import Ascii.
From Stdlib Require String.
From S2P Require Import Prelude Types Config Validate FlowCompiler Scalar Text Yaml ConfigParse Ipc.
From S2P Require Import Daemon Json Secrets Requests Proxy.

Local Open Scope string_scope.
Local Open Scope Z_scope.
Local Open Scope list_scope.

(** ** Text *)

Definition spaces (n : nat) : string := String.string_of_list_ascii (replicate n SP).
(** [%-ns] and [%ns]. *)
Definition rpad (n : nat) (s : string) : string := s +:+ spaces (n - String.length s).
Definition lpad (n : nat) (s : string) : string := spaces (n - String.length s) +:+ s.
Definition eol (s : string) : string := s +:+ String.String NL "".
Definition joined (sep : string) (l : list string) : string := String.concat sep l.
Definition quoted (s : string) : string := String.String DQ (s +:+ String.String DQ "").

(** A request written out: the members in order, their values as texts. *)
Definition req_text (l : list (string * string)) : string :=
  "{" +:+ joined "," ((fun kv => quoted kv.1 +:+ ":" +:+ kv.2) <$> l) +:+ "}".

(** ** Arguments *)

(** One pass over the arguments: the options that take a value and have one, the
    flags and the other words, each in order. *)
Record args := { ar_opts : list (string * string); ar_flags : list string; ar_words : list string }.

Fixpoint scan_args (valued flags : list string) (l : list string) : args :=
  match l with
  | [] => {| ar_opts := []; ar_flags := []; ar_words := [] |}
  | a :: l' =>
      let flag_or_word (r : args) :=
        if bool_decide (a ∈ flags) then {| ar_opts := ar_opts r; ar_flags := a :: ar_flags r; ar_words := ar_words r |}
        else {| ar_opts := ar_opts r; ar_flags := ar_flags r; ar_words := a :: ar_words r |} in
      match l' with
      | v :: l'' =>
          if bool_decide (a ∈ valued) then
            let r := scan_args valued flags l'' in
            {| ar_opts := (a, v) :: ar_opts r; ar_flags := ar_flags r; ar_words := ar_words r |}
          else flag_or_word (scan_args valued flags l')
      | [] => flag_or_word (scan_args valued flags l')
      end
  end.

(** A later occurrence of an option replaces an earlier one. *)
Definition opt_of (k : string) (a : args) : option string :=
  snd <$> last (filter (fun kv => kv.1 = k) (ar_opts a)).
Definition flag_of (k : string) (a : args) : bool := bool_decide (k ∈ ar_flags a).

Record globals := { g_secret_arg : option string; g_env_arg : option string; g_host_arg : option string }.

(** The global flags, wherever they stand, and the words that remain. *)
Definition global_args (l : list string) : globals * list string :=
  let a := scan_args ["--secret"; "--env"; "--host"] [] l in
  ({| g_secret_arg := opt_of "--secret" a; g_env_arg := opt_of "--env" a; g_host_arg := opt_of "--host" a |}, ar_words a).

(** ** The secret *)

Section Files.
Context {inet : InetPton} (libyaml : string -> yaml_parser).

(** [file] answers the reading of a configuration. *)
Definition resolve_secret (g : globals) (getenv : option string) (file : string -> file_answer) : string :=
  match g_secret_arg g, getenv with
  | Some s, _ => cstr PW_SECRET_MAX s
  | None, Some (String.String _ _ as s) => cstr PW_SECRET_MAX s
  | None, _ =>
      let path := default "/etc/packetwyrm/packetwyrm.yaml" (g_env_arg g) in
      match pw_config_parse_file libyaml path (file path) pw_config_new with
      | Ok cfg => cstr PW_SECRET_MAX (sys_secret (cfg_system cfg))
      | Err _ => ""
      end
  end.

(** A diagnostic that was not filled is empty. *)
Definition diag_line (what : string) (e : err) : string :=
  let '(path, msg) := match e_diag e with Some d => (d_path d, d_message d) | None => ("", "") end in
  eol (what +:+ " at " +:+ path +:+ ": " +:+ msg).

(** Read, check and compile a whole configuration; the text of the failure. *)
Definition load_config (file : string -> file_answer) (path : string) : result string (pw_config * pw_program) :=
  match pw_config_parse_file libyaml path (file path) pw_config_new with
  | Err e => Err (diag_line "parse error" e)
  | Ok cfg =>
      match pw_config_validate cfg with
      | Err e => Err (diag_line "invalid config" e)
      | Ok _ =>
          match pw_flow_compile cfg with
          | Err e => Err (diag_line "compile error" e)
          | Ok prog => Ok (cfg, prog)
          end
      end
  end.
End Files.

(** ** Over HTTPS *)

(** [HOST], [HOST:PORT], [[HOST]:PORT] or a bare address with several colons. *)
Definition split_host (hostarg : text) : option (text * text) :=
  if (256 <=? length hostarg)%nat then None else
  match hostarg with
  | c :: rest =>
      if bool_decide (c = LBR) then
        match split_at RBR rest with
        | None => None
        | Some (host, []) => Some (host, chars "8443")
        | Some (host, c :: port) => if bool_decide (c = COLON) then Some (host, port) else None
        end
      else
        match split_at COLON hostarg with
        | Some (host, port) => if bool_decide (COLON ∈ port) then Some (hostarg, chars "8443") else Some (host, port)
        | None => Some (hostarg, chars "8443")
        end
  | [] => Some ([], chars "8443")
  end.

Definition http_request (host send : text) : text :=
  chars "POST /api/rpc HTTP/1.1" ++ CRLF ++ chars "Host: " ++ host ++ CRLF ++
  chars "Content-Type: application/json" ++ CRLF ++ chars "Content-Length: " ++ chars (str_nat (length send)) ++ CRLF ++
  chars "X-PW-Request: 1" ++ CRLF ++ chars "Connection: close" ++ CRLFCRLF ++ send.

(** The writes: what each accepts, until the request is out. *)
Definition tls_write (answers : list Z) (req : text) : text * bool :=
  let '(out, _, ok) := conn_write_all answers req in (out, ok).

(** The reads, each into the room that is left, until one gives nothing. *)
Fixpoint tls_read (cap : nat) (pieces : list text) (buf : text) : text :=
  if (cap <=? length buf)%nat then buf else
  match pieces with
  | (_ :: _) as piece :: pieces => tls_read cap pieces (buf ++ take (cap - length buf) piece)
  | _ => buf
  end.

Fixpoint find_text (sub t : text) : option nat :=
  if bool_decide (take (length sub) t = sub) then Some O else
  match t with [] => None | _ :: t => S <$> find_text sub t end.

(** [strtol] in base 10 of what follows a header's name. *)
Definition strtol10 (t : text) : Z :=
  let '(neg, s) := split_sign (skip_space (String.string_of_list_ascii t)) in
  let v := digits_val 10 (span_digits 10 s).1 in
  Z.max (- 2 ^ 63) (Z.min (2 ^ 63 - 1) (if neg then - v else v)).

(** The first [Content-Length] at a line start within the first [n] bytes. *)
Fixpoint declared_len (fuel n : nat) (t : text) : Z :=
  match fuel with
  | O => -1
  | S fuel =>
      if (n =? 0)%nat then -1 else
      if prefix_ci (chars "Content-Length:") t then strtol10 (drop 15 t) else
      match find_text CRLF t with
      | Some i => declared_len fuel (n - (i + 2)) (drop (i + 2) t)
      | None => -1
      end
  end.

Definition is_200 (t : text) : bool :=
  bool_decide (take 7 t = chars "HTTP/1.") &&
  match split_at SP t with
  | Some (_, after) =>
      bool_decide (take 3 after = chars "200") &&
      match drop 3 after with c :: _ => bool_decide (c = SP) || bool_decide (c = CR) | [] => false end
  | None => false
  end.

Definition HTTP_BUF : nat := Z.to_nat (PW_IPC_FRAME_MAX + 4096).

(** The body of a reply: a whole [200], as long as it declares. *)
Definition http_body (resp_cap : nat) (buf : text) : option text :=
  let t := cstring buf in
  if negb (is_200 t) || (HTTP_BUF - 1 <=? length buf)%nat then None else
  match find_text CRLFCRLF t with
  | None => None
  | Some i =>
      let off := (i + 4)%nat in
      let blen := (length buf - off)%nat in
      let declared := declared_len (S (length buf)) off t in
      if (0 <=? declared) && negb (declared =? Z.of_nat blen) then None else
      if (resp_cap <? blen)%nat then None else Some (drop off buf)
  end.

(** ** One call *)

Inductive call_fail := NoConnect (e : option errno) | BadReply.

(** The other end. Locally: whether [connect] fails, the answers of the socket, and
    the bytes that come back for the bytes sent. Remotely: whether the TLS session
    comes up, and the same of it. *)
Record peer (W : Type) := {
  pr_errno : W -> option errno;
  pr_connect : string -> W -> option errno;
  pr_writes : W -> list io_answer;
  pr_daemon : string -> list Z -> W -> W * list Z;
  pr_reads : W -> list io_answer;
  pr_tls : text -> text -> W -> bool;
  pr_tls_writes : W -> list Z;
  pr_gateway : text -> text -> text -> W -> W * list text
}.
Arguments pr_errno {W} p.
Arguments pr_connect {W} p.
Arguments pr_writes {W} p.
Arguments pr_daemon {W} p.
Arguments pr_reads {W} p.
Arguments pr_tls {W} p.
Arguments pr_tls_writes {W} p.
Arguments pr_gateway {W} p.

Section Call.
Context {W : Type} {JC : JsonC} (p : peer W).

Definition https_rpc_call (hostarg : text) (send : string) (resp_cap : nat) (w : W) : W * result call_fail string :=
  let body := cstring (chars send) in
  if PW_IPC_FRAME_MAX <? Z.of_nat (length body) then (w, Err BadReply) else
  match split_host hostarg with
  | None => (w, Err BadReply)
  | Some (host, port) =>
      if negb (pr_tls p host port w) then (w, Err BadReply) else
      let req := http_request host body in
      if PW_IPC_FRAME_MAX + 512 <=? Z.of_nat (length req) then (w, Err BadReply) else
      let '(out, ok) := tls_write (pr_tls_writes p w) req in
      let '(w, pieces) := pr_gateway p host port out w in
      if negb ok then (w, Err BadReply) else
      match http_body resp_cap (tls_read (HTTP_BUF - 1) pieces []) with
      | Some resp => (w, Ok (String.string_of_list_ascii resp))
      | None => (w, Err BadReply)
      end
  end.

Definition local_rpc_call (sock send : string) (resp_cap : Z) (w : W) : W * result call_fail string :=
  match fill_sockaddr_un sock, pr_connect p sock w with
  | Err _, _ => (w, Err (NoConnect (pr_errno p w)))
  | Ok _, Some e => (w, Err (NoConnect (Some e)))
  | Ok _, None =>
      let '(out, _, o) := pw_ipc_write_frame (pr_writes p w) (string_bytes send) in
      let '(w, back) := pr_daemon p sock out w in
      match o with
      | Done (Ok _) =>
          match (pw_ipc_read_frame (pr_reads p w) back resp_cap).2 with
          | Done (Ok body) => (w, Ok (bytes_string body))
          | _ => (w, Err BadReply)
          end
      | _ => (w, Err BadReply)
      end
  end.

(** The request with the secret, through json-c. *)
Definition with_secret (secret req : string) : string :=
  match secret with
  | "" => req
  | _ => match jc_parse req with
         | Some (JObject l) => jc_print (JObject (jput "secret" (JString secret) l))
         | _ => req
         end
  end.

Definition rpc_call (g : globals) (secret sock req : string) (resp_cap : Z) (w : W) : W * result call_fail string :=
  let send := with_secret secret req in
  match g_host_arg g with
  | Some host => https_rpc_call (chars host) send (Z.to_nat resp_cap) w
  | None => local_rpc_call sock send resp_cap w
  end.

Context (strerror : errno -> string).

Definition rpc_fail (g : globals) (sock : string) (f : call_fail) : string :=
  match g_host_arg g, f with
  | Some h, _ => eol ("rpc call failed (host=" +:+ h +:+ ") -- is packetwyrm-proxyd reachable and serving TLS there?")
  | None, NoConnect (Some e) =>
      eol ("rpc call failed (socket=" +:+ sock +:+ "): " +:+ strerror e) +:+ eol ("         " +:+ pw_ipc_connect_hint e)
  | None, _ => eol ("rpc call failed (socket=" +:+ sock +:+
      "): the daemon closed the connection or sent a malformed reply")
  end.
End Call.
