(* ===== verification/ClientShow.v ===== *)
(** * The command-line client: what it prints

    Models the printers of [sw/pktwyrm/src/main.c]: the tables made of the daemon's
    replies ([stats], [latency], [flow stats], [tap], [sfp], [hist latency]) and those
    made of a configuration ([cards], [ports], [map], [flow show], [flow preview]) or
    of the cards found ([init], [cards]). Each is the text written to the standard
    output. *)

From Stdlib Require Import Ascii SpecFloat.
From Stdlib Require String.
From S2P Require Import Prelude Types Config Validate Csr FlowCompiler FramePreview Backend Scalar Text Pci Ipc.
From S2P Require Import Daemon Sfp Json Forms Reports Metrics Client.

Local Open Scope string_scope.
Local Open Scope Z_scope.
Local Open Scope list_scope.

Definition pw_ticks_to_ns (ticks : Z) : Z := u64 (ticks * 1000000000) / PWFPGA_DATA_PLANE_CLOCK_HZ.

(** [%s] of what json-c gives for a value. *)
Definition shown (s : option string) : string := match s with Some s => c_string s | None => "(null)" end.

Definition lines (l : list string) : string := joined "" (eol <$> l).
Definition columns (l : list string) : string := joined " " l.

Section Replies.
Context {JC : JsonC}.

(** A member, or the value the variable started with. *)
Definition get_int (k : string) (d : Z) (o : json) : Z := from_option jc_int d (jget k o).
Definition get_int64 (k : string) (o : json) : Z := from_option jc_int64 0 (jget k o).
Definition get_bool (k : string) (o : json) : bool := from_option jc_bool false (jget k o).
Definition get_str (k d : string) (o : json) : string := from_option (fun v => shown (jc_string v)) d (jget k o).

(** A reply as an object with an array under [key]; otherwise the text to print. *)
Definition reply_array (key reply : string) : string + list json :=
  match jc_parse reply with
  | None => inl (eol (c_string reply))
  | Some root =>
      match jget "error" root with
      | Some e => inl (eol ("error: " +:+ shown (jc_string e)))
      | None => match jget key root with Some (JArray l) => inr l | _ => inl (eol (c_string reply)) end
      end
  end.

Definition stats_row (c : json) : string :=
  columns [rpad 5 (str_Z (get_int "card_id" 0 c)); rpad 7 (if get_bool "open" c then "yes" else "no");
    rpad 8 (get_str "backend" "?" c); lpad 12 (str_Z (get_int64 "punt_to_tap_ok" c));
    lpad 12 (str_Z (get_int64 "punt_to_tap_dropped" c)); lpad 12 (str_Z (get_int64 "tap_to_fpga_ok" c));
    lpad 12 (str_Z (get_int64 "tap_to_fpga_dropped" c)); lpad 12 (str_Z (get_int64 "punt_unknown_lif" c))].

Definition pretty_print_stats (reply : string) : string :=
  match reply_array "stats" reply with
  | inl t => t
  | inr l => lines (columns [rpad 5 "card"; rpad 7 "open"; rpad 8 "backend"; lpad 12 "punt_ok"; lpad 12 "punt_drop";
      lpad 12 "inject_ok"; lpad 12 "inject_drop"; lpad 12 "unk_lif"] :: (stats_row <$> l))
  end.

(** [x * 6.4] in binary64. *)
Definition f_6_4 : spec_float := fdiv (f64 64) (f64 10).
Definition ns1 (n : nat) (ticks : Z) : string := lpad n (fmt_fixed 1 (fmul (f64 ticks) f_6_4)).

Definition path_text (o : json) : string :=
  cstr (4 * PW_NAME_MAX + 4) (get_str "tx_port" "?" o +:+ "->" +:+ get_str "rx_port" "?" o).

Definition latency_row (f : json) : string :=
  let valid := get_bool "latency_valid" f in
  let samp := get_int64 "sample_count" f in
  let head := [rpad 5 (str_Z (get_int "id" 0 f)); rpad 19 (path_text f)] in
  if valid && (0 <? samp) then
    columns (head ++ [ns1 10 (get_int64 "min_latency" f); ns1 10 (get_int64 "max_latency" f);
                      ns1 8 (get_int64 "jitter_max" f); lpad 8 (str_Z samp)]) +:+ "  " +:+ get_str "latency_method" "?" f
  else
    columns (head ++ [lpad 10 "-"; lpad 10 "-"; lpad 8 "-"; lpad 8 (str_Z samp)]) +:+ "  " +:+
    (if valid then "no traffic" else "no latency").

Definition pretty_print_latency (reply : string) : string :=
  match reply_array "flows" reply with
  | inl t => t
  | inr l => lines ((columns [rpad 5 "flow"; rpad 19 "path (tx->rx)"; lpad 10 "min(ns)"; lpad 10 "max(ns)";
      lpad 8 "jit(ns)"; lpad 8 "samples"] +:+ "  method") :: (latency_row <$> l))
  end.

(** [flow stats]: no samples show as a dash. *)
Definition flow_row (f : json) : string :=
  let lv := get_bool "latency_valid" f in
  let ns k := if lv && (0 <? get_int64 "sample_count" f)
              then cstr 16 (str_Z (i64 (pw_ticks_to_ns (u64 (get_int64 k f))))) else "-" in
  columns [rpad 4 (str_Z (get_int64 "id" f)); rpad 19 (path_text f); lpad 10 (str_Z (get_int64 "tx_frames" f));
    lpad 10 (str_Z (get_int64 "rx_frames" f)); lpad 8 (str_Z (get_int64 "lost" f));
    lpad 8 (str_Z (get_int64 "duplicate" f)); lpad 8 (str_Z (get_int64 "out_of_order" f));
    lpad 10 (ns "min_latency"); lpad 10 (ns "avg_latency"); lpad 10 (ns "max_latency"); if lv then "yes" else "no"].

Definition pretty_print_flows (reply : string) : string :=
  match jc_parse reply ≫= jget "flows" with
  | Some (JArray l) => lines (columns [rpad 4 "id"; rpad 19 "path (tx->rx)"; lpad 10 "tx_frames"; lpad 10 "rx_frames";
      lpad 8 "lost"; lpad 8 "dup"; lpad 8 "reord"; lpad 10 "min_ns"; lpad 10 "avg_ns"; lpad 10 "max_ns"; "lat_valid"]
      :: (flow_row <$> l))
  | _ => eol reply
  end.

(** The elements of a value the code takes for an array (json-c stops the process on
    another type). *)
Definition elements (j : json) : list json := match j with JArray l => l | _ => [] end.

Definition tap_block (o : json) : string :=
  let n k b := str_Z (get_int64 k b) in
  lines ((rpad 16 (get_str "name" "?" o) +:+ " lif=" +:+ str_Z (get_int "logical_if_id" 0 o) +:+ "  " +:+
    get_str "mac" "" o +:+ "  port=" +:+ str_Z (get_int "global_port" (-1) o) +:+ " vlan=" +:+
    str_Z (get_int "vlan" 0 o) +:+ " mtu=" +:+ str_Z (get_int "mtu" 0 o) +:+ "  [" +:+
    (if get_bool "admin_up" o then "UP" else "DOWN") +:+ (if get_bool "oper_up" o then ",RUNNING" else "") +:+ "]") ::
    match elements <$> jget "addrs" o with
    | Some (_ :: _ as l) => ["    addrs:" +:+ joined "" ((fun a => " " +:+ shown (jc_string a)) <$> l)]
    | _ => []
    end ++
    match jget "kernel" o with
    | Some k => ["    kernel: rx " +:+ n "rx_packets" k +:+ " pkt (" +:+ n "rx_dropped" k +:+ " drop)  tx " +:+
                 n "tx_packets" k +:+ " pkt (" +:+ n "tx_dropped" k +:+ " drop)"]
    | None => []
    end ++
    match jget "bridge" o with
    | Some b => ["    bridge: FPGA->tap " +:+ n "to_tap_ok" b +:+ " (" +:+ n "to_tap_dropped" b +:+ " drop)  tap->FPGA " +:+
                 n "from_tap_ok" b +:+ " (" +:+ n "from_tap_dropped" b +:+ " drop)"]
    | None => []
    end).

(** The texts on the standard output and error. *)
Definition pretty_print_taps (reply : string) : string * string :=
  match jc_parse reply with
  | None => ("", eol "bad response")
  | Some root =>
      match jget "error" root, jget "taps" root with
      | Some e, _ => (eol ("error: " +:+ shown (jc_string e)), "")
      | None, None => ("", "")
      | None, Some arr =>
          match elements arr with
          | [] => (eol "(no TAP interfaces)", "")
          | l => (joined "" (tap_block <$> l), "")
          end
      end
  end.

(** ** Modules *)

(** [json_object_get_double] and the [log10] of the C library. *)
Context (jc_double : json -> spec_float) (log10 : spec_float -> spec_float).

Definition get_double (k : string) (o : json) : spec_float := from_option jc_double (S754_zero false) (jget k o).
Definition dbm (mw : spec_float) : spec_float :=
  if SFltb (S754_zero false) mw then fmul (f64 10) (log10 mw) else SFopp (f64 40).

Definition sfp_block (o : json) : string :=
  "card " +:+ str_Z (get_int "card_id" 0 o) +:+ " port " +:+ str_Z (get_int "port" 0 o) +:+ ": " +:+
  if negb (get_bool "present" o) then eol (get_str "error" "no module" o) else
  eol (get_str "vendor" "" o +:+ " " +:+ get_str "part" "" o +:+ "  s/n " +:+ get_str "serial" "" o +:+ "  " +:+
       fmt_fixed 1 (fdiv (f64 (get_int "br_nominal_mbaud" 0 o)) (f64 1000)) +:+ " Gb/s") +:+
  if get_bool "dom_valid" o then
    eol ("    DOM: " +:+ fmt_fixed 1 (get_double "temp_c" o) +:+ " C  " +:+ fmt_fixed 2 (get_double "vcc_v" o) +:+
         " V  bias " +:+ fmt_fixed 1 (get_double "tx_bias_ma" o) +:+ " mA  TX " +:+
         fmt_fixed 2 (dbm (get_double "tx_power_mw" o)) +:+ " dBm  RX " +:+
         fmt_fixed 2 (dbm (get_double "rx_power_mw" o)) +:+ " dBm")
  else if get_bool "dom_external_cal" o then eol "    DOM: externally calibrated -- not decoded"
  else if negb (get_bool "dom_supported" o) then eol "    DOM: not supported (e.g. passive DAC)"
  else "".

Definition pretty_print_sfp (reply : string) : string * string :=
  match jc_parse reply with
  | None => ("", eol "bad response")
  | Some root =>
      match jget "error" root, jget "sfp" root with
      | Some e, _ => (eol ("error: " +:+ shown (jc_string e)), "")
      | None, Some arr => (joined "" (sfp_block <$> elements arr), "")
      | None, None => ("", "")
      end
  end.

(** ** Histogram *)

(** The bars: [v * 40 / max] in 64 bits, at most 40. *)
Definition bar (maxv v : Z) : nat :=
  if 0 <? maxv then Z.to_nat (Z.min 40 (i32 (u64 (u64 v * 40) / maxv))) else 0%nat.

Definition hist_row (maxv : Z) (i : nat) (v : Z) : string :=
  "  [" +:+ lpad 2 (str_nat i) +:+ "] " +:+
  (if (i =? 0)%nat then "(<  " +:+ str_Z (pw_ticks_to_ns 2) else "(>= " +:+ str_Z (pw_ticks_to_ns (u64 (Z.shiftl 1 (Z.of_nat i))))) +:+
  " ns) " +:+ lpad 10 (str_Z v) +:+ "  " +:+ String.string_of_list_ascii (replicate (bar maxv v) "#"%char).

Definition hist_rows (l : list Z) : list string :=
  imap (hist_row (fold_left (fun m v => Z.max m (u64 v)) l 0)) l.

(** The reply to [flow.hist], and the exit code. *)
Definition pretty_print_hist (flow_id : Z) (reply : string) : string * Z :=
  match jc_parse reply with
  | None => (eol reply, 0)
  | Some root =>
      match jget "error" root with
      | Some e => (eol ("error: " +:+ shown (jc_string e)), 1)
      | None =>
          if negb (from_option jc_bool true (jget "latency_valid" root)) then
            let reason := match jget "reason" root with Some JNull => "" | _ => get_str "reason" "" root end in
            (eol ("flow " +:+ str_Z flow_id +:+ ": latency not valid (" +:+ reason +:+ ")"), 0)
          else
            match jget "buckets" root with
            | Some (JArray l) => (lines (("flow " +:+ str_Z flow_id +:+ " latency histogram (log2 buckets, " +:+
                str_nat (length l) +:+ " bins)") :: hist_rows (jc_int64 <$> l)), 0)
            | _ => (eol reply, 0)
            end
      end
  end.
End Replies.
