(* ===== verification/ClientFiles.v ===== *)
(** * The command-line client: configurations and cards

    Models the commands of [sw/pktwyrm/src/main.c] that need no daemon: the tables of
    a configuration file, the preview of a flow's frame, the list of cards and the
    configuration skeleton made of them. *)

From Stdlib Require Import Ascii.
From Stdlib Require String.
From S2P Require Import Prelude Types Config Validate Csr FlowCompiler FramePreview Backend Scalar Text Pci Yaml ConfigParse Ipc.
From S2P Require Import Daemon Json Forms Reports Metrics Client ClientShow.

Local Open Scope string_scope.
Local Open Scope Z_scope.
Local Open Scope list_scope.

(** What a command leaves: its texts and its exit code. *)
Record run := { r_out : string; r_err : string; r_code : Z }.
Definition says (out : string) : run := {| r_out := out; r_err := ""; r_code := 0 |}.
Definition refuses (code : Z) (err : string) : run := {| r_out := ""; r_err := err; r_code := code |}.

Section Tables.
Context {inet : InetPton} (libyaml : string -> yaml_parser) (file : string -> file_answer).

(** A command over a whole configuration. *)
Definition over_config (usage : string) (l : list string) (show : pw_config -> pw_program -> string) : run :=
  match l with
  | [] => refuses 2 (eol usage)
  | path :: _ => match load_config libyaml file path with
                 | Err e => refuses 1 e
                 | Ok (cfg, prog) => says (show cfg prog)
                 end
  end.

Definition config_card_row (c : pw_card) : string :=
  rpad 3 (str_Z (card_id c)) +:+ " " +:+ rpad 14 (card_pci c) +:+ " " +:+ rpad 6 (card_name c) +:+ " " +:+
  rpad 8 "0.1.0" +:+ " " +:+ rpad 9 "config" +:+ " " +:+ joined "," (cp_name <$> card_ports c).

Definition cards_table (cfg : pw_config) : string :=
  lines ("ID  PCI BDF        Name   FW       Status    Ports" :: (config_card_row <$> cfg_cards cfg)).

Definition port_row (cp : pw_card * pw_card_port) : string :=
  columns [rpad 5 (cp_name cp.2); rpad 5 (str_Z (card_id cp.1)); rpad 6 (str_Z (cp_local_port cp.2)); rpad 5 "?";
           rpad 6 "10G"; rpad 8 "0.00"; rpad 8 "0.00"].

Definition all_ports (cfg : pw_config) : list (pw_card * pw_card_port) :=
  c ← cfg_cards cfg; pair c <$> card_ports c.

Definition ports_table (cfg : pw_config) : string :=
  lines ("Port  Card  Local  Link  Speed  TX Gbps  RX Gbps" :: (port_row <$> all_ports cfg)).

Definition map_row (cfg : pw_config) (cp : pw_card * pw_card_port) : string :=
  "  " +:+ rpad 10 (cp_name cp.2) +:+ " card" +:+ str_Z (card_id cp.1) +:+ "." +:+ str_Z (cp_local_port cp.2) +:+
  "           " +:+
  match filter (fun l => lif_global_port l = cp_global_port cp.2) (cfg_logical_if cfg) with
  | [] => "(none)"
  | ls => joined ", " ((fun l => lif_name l +:+ "(id=" +:+ str_Z (lif_id l) +:+ ",vlan=" +:+ str_Z (lif_vlan l) +:+ ")") <$> ls)
  end.

Definition map_table (cfg : pw_config) : string :=
  lines ("global_port  card.local_port  logical_interface(s)" :: (map_row cfg <$> all_ports cfg)).

Definition name_or (n : string) : string := if str_eq n "" then "(unnamed)" else n.

Definition show_row (fm : pw_flow * pw_flow_meta) : string :=
  rpad 4 (str_Z (f_id fm.1)) +:+ " p" +:+ rpad 3 (str_Z (f_tx_global_port fm.1)) +:+ " p" +:+
  rpad 3 (str_Z (f_rx_global_port fm.1)) +:+ " " +:+ rpad 13 (if m_latency_valid fm.2 then "yes" else "no") +:+ " " +:+
  name_or (f_name fm.1).

Definition flow_table (cfg : pw_config) (prog : pw_program) : string :=
  lines ("ID   TX   RX   LatencyValid  Name" :: (show_row <$> zip (cfg_flows cfg) (p_flow_meta prog))).

Definition cmd_ports (l : list string) : run := over_config "usage: pktwyrm ports <config.yaml>" l (fun c _ => ports_table c).
Definition cmd_map (l : list string) : run := over_config "usage: pktwyrm map <config.yaml>" l (fun c _ => map_table c).
Definition cmd_flow_show (l : list string) : run := over_config "usage: pktwyrm flow show <config.yaml>" l flow_table.

(** ** Preview *)

Definition tmpl_name (t : Z) : string :=
  if t =? 0 then "test" else if t =? 1 then "l4raw" else if t =? 2 then "l3raw" else if t =? 3 then "l2raw" else "?".

(** Sixteen bytes of the dump from [off], of which [n] are shown. *)
Definition hex_cell (row : list Z) (j : nat) : string :=
  match row !! j with Some b => hex 2 b +:+ " " | None => "   " end +:+ (if (j =? 7)%nat then " " else "").
Definition printable (b : Z) : ascii := if (32 <=? b) && (b <? 127) then byte_char b else "."%char.
Definition dump_row (off : nat) (row : list Z) : string :=
  "  " +:+ hex 4 (Z.of_nat off) +:+ "  " +:+ joined "" (hex_cell row <$> seq 0 16) +:+ " |" +:+
  String.string_of_list_ascii (printable <$> row) +:+ "|".

Fixpoint dump_rows (fuel off : nat) (l : list Z) : list string :=
  match fuel, l with
  | S fuel, _ :: _ => dump_row off (take 16 l) :: dump_rows fuel (off + 16) (drop 16 l)
  | _, _ => []
  end.

Definition mod_note (m : pw_flow_modifiers) : list string :=
  let words := nf ← [("src_ip", mod_src_ipv4 m); ("dst_ip", mod_dst_ipv4 m); ("sport", mod_udp_src m);
      ("dport", mod_udp_dst m); ("smac", mod_src_mac m); ("dmac", mod_dst_mac m); ("vlan", mod_vlan m)];
    match fm_mode nf.2 with
    | PWFPGA_FIELD_STATIC => []
    | PWFPGA_FIELD_INCREMENT => [" " +:+ nf.1 +:+ "=inc"]
    | PWFPGA_FIELD_RANDOM => [" " +:+ nf.1 +:+ "=rand"]
    end in
  match words with [] => [] | _ => ["  mod  " +:+ joined "" words +:+ "  (fields vary per seq -- change --seq to step)"] end.

Definition decode_lines (f : pw_flow) (seq : Z) (buf : list Z) : list string :=
  let t := template_code f in
  let l4 := if udp_l4_proto (f_udp f) =? 6 then "tcp" else "udp" in
  let proto := if t =? 2 then "raw" else l4 in
  let or64 z := str_Z (if ztrue z then z else 64) in
  ["  eth   dst=" +:+ mac_text (take 6 buf) +:+ " src=" +:+ mac_text (take 6 (drop 6 buf))] ++
  (if l2_vlan_set (f_l2 f) then ["  vlan  vid=" +:+ str_Z (l2_vlan (f_l2 f)) +:+ " pcp=" +:+ str_Z (l2_pcp (f_l2 f))] else []) ++
  (if enc_present (f_encap f) && negb (t =? 3) then
    ["  encap " +:+ match enc_type (f_encap f) with PW_ENCAP_IPIP => "ipip" | PW_ENCAP_GRE => "gre" | _ => "etherip" end +:+
     " (outer " +:+ (if v6_present (enc_outer_ipv6 (f_encap f)) then "ipv6" else "ipv4") +:+ ")"] else []) ++
  (if t =? 3 then [] else
    [(if v6_present (f_ipv6 f)
      then "  ipv6  ttl=" +:+ or64 (v6_hop_limit (f_ipv6 f)) +:+ " dscp=" +:+ str_Z (v6_dscp (f_ipv6 f))
      else "  ipv4  ttl=" +:+ or64 (v4_ttl (f_ipv4 f)) +:+ " dscp=" +:+ str_Z (v4_dscp (f_ipv4 f))) +:+ " proto=" +:+ proto] ++
    (if t =? 2 then [] else
      ["  l4    " +:+ l4 +:+ " sport=" +:+ str_Z (udp_src_port (f_udp f)) +:+ " dport=" +:+ str_Z (udp_dst_port (f_udp f))]) ++
    (if t =? 0 then ["  test  magic=A5027E57 flow_id=" +:+ str_Z (f_id f) +:+ " seq=" +:+ str_Z seq +:+ " ts=<egress>"] else [])) ++
  mod_note (f_mod f).

Definition preview_text (f : pw_flow) (seq : Z) (fr : pv_frame) : string :=
  let len := pv_len fr in
  let show := Z.min (pv_built fr + 16) len in
  lines
    (["flow " +:+ str_Z (f_id f) +:+ " " +:+ quoted (name_or (f_name f)) +:+ ": template=" +:+ tmpl_name (template_code f) +:+
      "  frame_len=" +:+ str_Z len +:+ " B (pre-FCS)  packet seq=" +:+ str_Z seq] ++
     decode_lines f seq (pv_buf fr) ++
     dump_rows (Z.to_nat show) 0 (take (Z.to_nat show) (pv_buf fr)) ++
     (if show <? len then ["  ... +" +:+ str_Z (len - show) +:+ " payload bytes (zero-filled)"] else []) ++
     ["  note: timestamp is stamped by HW at egress (shown 0); L4 checksum shown is";
      "        computed for this seq with ts=0 (HW re-folds it at egress)."]).

Context {JC : JsonC}.

Definition preview_line (f : pw_flow) (seq : Z) (fr : pv_frame) : string :=
  eol (c_string (jc_print (JObject
    [("flow", jint (f_id f)); ("name", JString (f_name f)); ("template", JString (tmpl_name (template_code f)));
     ("len", jint (pv_len fr)); ("seq", jint64 seq);
     ("hex", JString (hex_text (take (Z.to_nat (pv_len fr)) (pv_buf fr))))]))).

(** One flow after another; a frame that cannot be built is an error of its own. *)
Fixpoint preview_flows (raw : bool) (want seq : Z) (fs : list pw_flow) : bool * run :=
  match fs with
  | [] => (false, says "")
  | f :: fs =>
      let '(found, r) := preview_flows raw want seq fs in
      if (0 <=? want) && negb (i32 (f_id f) =? want) then (found, r) else
      (true,
       match pw_flow_build_preview 9200 f seq with
       | Err _ => {| r_out := r_out r; r_code := 1;
                     r_err := eol ("flow " +:+ str_Z (f_id f) +:+ " (" +:+ tmpl_name (template_code f) +:+
                                   "): cannot build preview (unsupported template/length)") +:+ r_err r |}
       | Ok fr => {| r_out := (if raw then preview_line f seq fr else preview_text f seq fr) +:+ r_out r;
                     r_err := r_err r; r_code := r_code r |}
       end)
  end.

(** [strtoul] that finds the base itself. *)
Definition base_0 (s : string) : Z :=
  match (split_sign (skip_space s)).2 with
  | String.String "0" (String.String c _) => if is_x c then 16 else 8
  | _ => 10
  end.
Definition strtoul0 (s : string) : Z := match strtoull (base_0 s) s with Some (v, _, _) => v | None => 0 end.

(** The whole file, or only its test part. *)
Definition cmd_flow_preview (atoi : string -> Z) (l : list string) : run :=
  let a := scan_args ["--flow"; "--seq"] ["--json"] l in
  let want := from_option atoi (-1) (opt_of "--flow" a) in
  let seq := from_option (fun s => u32 (strtoul0 s)) 0 (opt_of "--seq" a) in
  match ar_words a with
  | [] => refuses 2 (eol "usage: pktwyrm flow preview <config.yaml> [--flow ID] [--seq N] [--json]")
  | path :: _ =>
      let cfg := match pw_config_parse_file libyaml path (file path) pw_config_new with
                 | Ok cfg => Ok cfg
                 | Err _ => pw_config_parse_file_ex libyaml path (file path) PW_CFG_TEST_ONLY pw_config_new
                 end in
      match cfg with
      | Err e => refuses 1 (diag_line "parse error" e)
      | Ok cfg =>
          if bool_decide (cfg_flows cfg = []) then refuses 1 (eol ("no flows in " +:+ path)) else
          let '(found, r) := preview_flows (flag_of "--json" a) want seq (cfg_flows cfg) in
          if (0 <=? want) && negb found then
            {| r_out := r_out r; r_err := r_err r +:+ eol ("flow id " +:+ str_Z want +:+ " not found in " +:+ path); r_code := 1 |}
          else r
      end
  end.

(** ** Cards *)

Definition found_row {W} (probe : text -> W -> W * option Z) (id : nat) (d : pw_pci_device) (w : W) : W * string :=
  let '(w, answer) := probe (pd_bdf d) w in
  let st := match answer with
            | Some dev_id => if dev_id =? 0xA502BEEF then "ready" else "wrong-id"
            | None => "noaccess"
            end in
  (w, rpad 3 (str_nat id) +:+ " " +:+ rpad 14 (String.string_of_list_ascii (pd_bdf d)) +:+ " " +:+
      hex 4 (pd_vendor d) +:+ ":" +:+ hex 4 (pd_device d) +:+ "      " +:+
      hex 4 (pd_subsystem_vendor d) +:+ ":" +:+ hex 4 (pd_subsystem_device d) +:+ "      " +:+ st).

Fixpoint found_rows {W} (probe : text -> W -> W * option Z) (id : nat) (l : list pw_pci_device) (w : W) : W * list string :=
  match l with
  | [] => (w, [])
  | d :: l =>
      let '(w, r) := found_row probe id d w in
      let '(w, rs) := found_rows probe (S id) l w in (w, r :: rs)
  end.

Definition vendor_device : string :=
  "(vendor=0x" +:+ hex 4 PW_DEFAULT_PCI_VENDOR +:+ " device=0x" +:+ hex 4 PW_DEFAULT_PCI_DEVICE +:+ ").".

(** [probe]: open the card and read its identity ([None]: it does not open); [devs]
    is what the discovery answers. *)
Definition cmd_cards {W} (probe : text -> W -> W * option Z) (devs : result pw_status (nat * list pw_pci_device))
    (l : list string) (w : W) : W * run :=
  match l with
  | _ :: _ => (w, over_config "" l (fun c _ => cards_table c))
  | [] =>
      match devs with
      | Err st => (w, refuses 1 (eol ("PCI discovery failed: " +:+ pw_strerror st)))
      | Ok (O, _) => (w, says (lines ["No PacketWyrm cards found " +:+ vendor_device;
                                      "  (Pass a YAML config to inspect a configured card map instead.)"]))
      | Ok (n, ds) =>
          let '(w, rows) := found_rows probe 0 ds w in
          (w, says (lines ("ID  PCI BDF        Vendor:Device  Subsys         Status" :: rows ++
               if (PW_MAX_CARDS <? n)%nat then
                 ["  (" +:+ str_nat (n - PW_MAX_CARDS) +:+ " more cards not shown; PW_MAX_CARDS=" +:+ str_nat PW_MAX_CARDS +:+ ")"]
               else [])))
      end
  end.

Definition skeleton_head : list string :=
  ["# PacketWyrm environment config (generated by `pktwyrm init`).";
   "# Deploy as /etc/packetwyrm/packetwyrm.yaml, then edit as needed.";
   "# Pair with a test config (flows/forwards) via `pktwyrm load`.";
   "system:"; "  name: " +:+ quoted "pw-host"; "  mode: " +:+ quoted "multi-card"; "  default_speed: " +:+ quoted "10g";
   "  # secret: " +:+ quoted "change-me" +:+ "   # uncomment to require a control-socket secret"].

Definition skeleton_port (lp gp : Z) (name : string) : string :=
  "      - { local_port: " +:+ str_Z lp +:+ ", global_port: " +:+ str_Z gp +:+ ", name: " +:+ quoted name +:+ " }".

Definition skeleton_card (i : nat) (bdf : string) : list string :=
  let n := str_nat i in
  ["  - id: " +:+ n; "    name: " +:+ quoted ("card" +:+ n); "    pci: " +:+ quoted bdf; "    ports:";
   skeleton_port 0 (2 * Z.of_nat i) ("c" +:+ n +:+ "p0"); skeleton_port 1 (2 * Z.of_nat i + 1) ("c" +:+ n +:+ "p1")].

Definition skeleton_none : list string :=
  ["# NOTE: no PacketWyrm cards were discovered " +:+ vendor_device;
   "#   Fill in the PCI BDF(s) below by hand once the card is bound.";
   "cards:"; "  - id: 0"; "    name: " +:+ quoted "card0"; "    pci: " +:+ quoted "0000:00:00.0" +:+ "   # EDIT ME";
   "    ports:"; skeleton_port 0 0 "p0"; skeleton_port 1 1 "p1"].

Definition skeleton_tail : list string :=
  ["logical_interfaces:"; "  - id: 1000"; "    global_port: 0"; "    vlan: 100"; "    mac: " +:+ quoted "02:a5:02:00:00:64";
   "    mtu: 9000";
   "    punt: { arp: false, ipv6_nd: false, lldp: false, icmp: false, bgp: false, ospf: false }"].

Definition skeleton (n : nat) (ds : list pw_pci_device) : string :=
  lines (skeleton_head ++
    (if (n =? 0)%nat then skeleton_none
     else "cards:" :: concat (imap (fun i d => skeleton_card i (String.string_of_list_ascii (pd_bdf d))) ds)) ++
    skeleton_tail).

(** The run, and the file written if there is one; [fopen] gives the error text. *)
Definition cmd_init (fopen : string -> option string) (devs : result pw_status (nat * list pw_pci_device))
    (l : list string) : run * option (string * string) :=
  match devs with
  | Err st => (refuses 1 (eol ("PCI discovery failed: " +:+ pw_strerror st)), None)
  | Ok (n, ds) =>
      match opt_of "--out" (scan_args ["--out"] [] l) with
      | None => (says (skeleton n ds), None)
      | Some out =>
          match fopen out with
          | Some why => (refuses 1 (eol ("cannot write " +:+ out +:+ ": " +:+ why)), None)
          | None => ({| r_out := ""; r_err := eol ("wrote " +:+ out +:+ " (" +:+ str_nat n +:+ " card(s) discovered)");
                        r_code := 0 |}, Some (out, skeleton n ds))
          end
      end
  end.
End Tables.
