(* ===== verification/ClientRun.v ===== *)
(** * The command-line client: commands

    Models the commands of [sw/pktwyrm/src/main.c] that talk to the daemon, the test
    run with its verdict, the deployment of a configuration, the firmware update
    over a local card, and the choice of the command. [sleep] is the time that
    passes between two calls. *)

From Stdlib Require Import Ascii SpecFloat.
From Stdlib Require String.
From S2P Require Import Prelude StateMonad Types Config Validate Csr FlowCompiler Backend Scalar Text Pci Yaml ConfigParse Ipc.
From S2P Require Import SpiFlash Daemon Sfp Json Forms Reports Metrics Server Client ClientShow ClientFiles.

Local Open Scope string_scope.
Local Open Scope Z_scope.
Local Open Scope list_scope.

Definition CLEAR : string := String.String "027" ("[2J" +:+ String.String "027" "[H").

(** What stands around the process. *)
Record cli_env (W : Type) := {
  ce_peer : peer W;
  ce_sleep : Z -> W -> W;
  ce_getenv : option string;
  ce_file : string -> file_answer;
  ce_reread : string -> file_answer;
  ce_realpath : string -> option string;
  ce_strerror : errno -> string;
  ce_strtod : string -> option (spec_float * string);
  ce_double : json -> spec_float;
  ce_log10 : spec_float -> spec_float
}.
Arguments ce_peer {W} c.
Arguments ce_sleep {W} c.
Arguments ce_getenv {W} c.
Arguments ce_file {W} c.
Arguments ce_reread {W} c.
Arguments ce_realpath {W} c.
Arguments ce_strerror {W} c.
Arguments ce_strtod {W} c.
Arguments ce_double {W} c.
Arguments ce_log10 {W} c.

Section Online.
Context {W : Type} {JC : JsonC} {inet : InetPton} (libyaml : string -> yaml_parser) (e : cli_env W) (g : globals).

Definition call (sock req : string) (w : W) : W * result call_fail string :=
  rpc_call (ce_peer e) g (resolve_secret libyaml g (ce_getenv e) (ce_file e)) sock req PW_IPC_FRAME_MAX w.

Definition failed_call (code : Z) (sock : string) (f : call_fail) : run := refuses code (rpc_fail (ce_strerror e) g sock f).

(** One call, its reply shown. *)
Definition online (sock req : string) (show : string -> run) (w : W) : W * run :=
  match call sock req w with
  | (w, Err f) => (w, failed_call 1 sock f)
  | (w, Ok resp) => (w, show resp)
  end.

Definition raw_or (raw : bool) (show : string -> run) (resp : string) : run := if raw then says (eol resp) else show resp.
Definition with_err (oe : string * string) : run := {| r_out := oe.1; r_err := oe.2; r_code := 0 |}.

Definition sock_of (a : args) : string := default PW_IPC_DEFAULT_PATH (opt_of "--socket" a).
Definition num_of (k : string) (a : args) : Z := from_option atoi (-1) (opt_of k a).
Definition rpc_req (method : string) (l : list (string * Z)) : string :=
  req_text (("rpc", quoted method) :: ((fun kz => (kz.1, str_Z kz.2)) <$> l)).
(** Members that are sent only when they are not negative. *)
Definition given (l : list (string * Z)) : list (string * Z) := filter (fun kz => 0 <= kz.2) l.

(** Repeated every [ms] milliseconds when that is positive; [passes] bounds how long
    the process is left to run. *)
Fixpoint watching (passes : nat) (ms : Z) (sock req : string) (show : string -> run) (w : W) : W * run :=
  match online sock req show w with
  | (w, r) =>
      if (ms <=? 0) || negb (r_code r =? 0) then (w, r) else
      let r := {| r_out := CLEAR +:+ r_out r; r_err := r_err r; r_code := r_code r |} in
      match passes with
      | O => (w, r)
      | S passes =>
          let '(w, r2) := watching passes ms sock req show (ce_sleep e ms w) in
          (w, {| r_out := r_out r +:+ r_out r2; r_err := r_err r +:+ r_err r2; r_code := r_code r2 |})
      end
  end.

Definition cmd_latency (l : list string) : W -> W * run :=
  let a := scan_args ["--socket"; "--flow"] ["--json"] l in
  online (sock_of a) (rpc_req "flow.stats" (given [("id", num_of "--flow" a)]))
    (raw_or (flag_of "--json" a) (fun r => says (pretty_print_latency r))).

Definition cmd_tap (l : list string) : W -> W * run :=
  let a := scan_args ["--socket"] ["--json"] l in
  online (sock_of a) (rpc_req "tap.stats" []) (raw_or (flag_of "--json" a) (fun r => with_err (pretty_print_taps r))).

Definition cmd_sfp (l : list string) : W -> W * run :=
  let a := scan_args ["--socket"; "--card"; "--port"] ["--json"] l in
  online (sock_of a) (rpc_req "sfp.info" (given [("card", num_of "--card" a); ("port", num_of "--port" a)]))
    (raw_or (flag_of "--json" a) (fun r => with_err (pretty_print_sfp (ce_double e) (ce_log10 e) r))).

Definition cmd_stats (passes : nat) (l : list string) : W -> W * run :=
  let a := scan_args ["--socket"; "--card"; "--watch"] ["--json"] l in
  watching passes (from_option atoi 0 (opt_of "--watch" a)) (sock_of a) (rpc_req "stats" (given [("card", num_of "--card" a)]))
    (raw_or (flag_of "--json" a) (fun r => says (pretty_print_stats r))).

Definition cmd_flow_stats (passes : nat) (l : list string) : W -> W * run :=
  let a := scan_args ["--socket"; "--flow"; "--watch"] ["--json"] l in
  watching passes (from_option atoi 0 (opt_of "--watch" a)) (sock_of a) (rpc_req "flow.stats" (given [("id", num_of "--flow" a)]))
    (raw_or (flag_of "--json" a) (fun r => says (pretty_print_flows r))).

(** The reply as it is. *)
Definition plain (sock req : string) : W -> W * run := online sock req (fun r => says (eol r)).

Definition cmd_rpc (l : list string) (w : W) : W * run :=
  let a := scan_args ["--socket"; "--card"] [] l in
  match ar_words a with
  | [] => (w, refuses 2 (eol "usage: pktwyrm rpc <version|cards|ports|flows|stats> [--socket PATH] [--card N]"))
  | method :: _ =>
      let req := rpc_req method (given [("card", num_of "--card" a)]) in
      if (256 <=? String.length req)%nat then (w, refuses 1 "") else plain (sock_of a) req w
  end.

Definition cmd_hist (l : list string) (w : W) : W * run :=
  match l with
  | what :: ((_ :: _) as rest) =>
      if negb (str_eq what "latency") then (w, refuses 2 (eol "usage: pktwyrm hist latency --flow N [--socket PATH] [--json]")) else
      let a := scan_args ["--flow"; "--socket"] ["--json"] rest in
      let flow := num_of "--flow" a in
      if flow <? 0 then (w, refuses 2 (eol "--flow required")) else
      online (sock_of a) (rpc_req "flow.hist" [("id", flow)])
        (raw_or (flag_of "--json" a) (fun r => let '(out, code) := pretty_print_hist flow r in
                                               {| r_out := out; r_err := ""; r_code := code |})) w
  | _ => (w, refuses 2 (eol "usage: pktwyrm hist latency --flow N [--socket PATH] [--json]"))
  end.

(** ** Deploying a configuration *)

(** The bytes of the file, read again. *)
Definition slurp_file (a : file_answer) : option string :=
  match a with
  | NoFile _ => None
  | File size alloc bytes => if (size <? 0) || negb alloc then None else Some (String.substring 0 (Z.to_nat size) bytes)
  end.

(** The check before anything is sent: the text shown, or the text of the error. *)
Definition check_file (path : string) : result string string :=
  match pw_config_parse_file libyaml path (ce_file e path) pw_config_new with
  | Ok _ =>
      match load_config libyaml (ce_file e) path with
      | Err t => Err t
      | Ok (cfg, prog) =>
          Ok (lines (("Configuration OK: " +:+ str_nat (length (cfg_cards cfg)) +:+ " cards, " +:+
                      str_nat (length (cfg_logical_if cfg)) +:+ " logical interfaces, " +:+
                      str_nat (length (cfg_flows cfg)) +:+ " flows.") ::
            ((fun c => "  card" +:+ str_Z (cp_card_id c) +:+ " program: " +:+ str_nat (length (cp_flow_rows c)) +:+
                       " flow rows, " +:+ str_nat (length (cp_map_entries c)) +:+ " map entries, " +:+
                       str_nat (length (cp_fc_cmps c)) +:+ " cmp/" +:+ str_nat (length (cp_fc_udfs c)) +:+ " udf/" +:+
                       str_nat (length (cp_fc_rules c)) +:+ " rules") <$> p_per_card prog)))
      end
  | Err _ =>
      match pw_config_parse_file_ex libyaml path (ce_file e path) PW_CFG_TEST_ONLY pw_config_new with
      | Err d => Err (diag_line "parse error" d)
      | Ok t => Ok (eol ("Test config OK: " +:+ str_nat (length (cfg_flows t)) +:+ " flows, " +:+
                         str_nat (length (cfg_forwards t)) +:+
                         " forwards (validated against the daemon's environment on load)."))
      end
  end.

Definition load_reply (dest resp : string) : run :=
  match jc_parse resp with
  | None => refuses 1 (eol "invalid daemon response")
  | Some j =>
      match jget "error" j with
      | Some d => refuses 1 (eol ("daemon rejected reload: " +:+ shown (jc_string d)))
      | None => says (eol ("Deployed to " +:+ dest +:+ ": " +:+ str_Z (get_int "n_flows" 0 j) +:+ " flows, " +:+
                           str_Z (get_int "n_classifier_rows" 0 j) +:+ " classifier rows."))
      end
  end.

Definition load_request (yaml : string) : string := jc_print (JObject [("rpc", JString "config.load"); ("yaml", JString yaml)]).

Definition after (out : string) (r : run) : run := {| r_out := out +:+ r_out r; r_err := r_err r; r_code := r_code r |}.

Definition cmd_load (l : list string) (w : W) : W * run :=
  let a := scan_args ["--socket"; "--env"; "--secret"] ["--check"; "-n"] l in
  match ar_words a with
  | [] => (w, refuses 2 (lines ["usage: pktwyrm load <config.yaml> [--socket PATH] [--check]";
             "  Deploys to the running daemon by default (socket " +:+
                (match g_host_arg g with Some _ => "via --host" | None => PW_IPC_DEFAULT_PATH end) +:+ ");";
             "  --check validates the file offline without deploying."]))
  | path :: _ =>
      match check_file path with
      | Err t => (w, refuses 1 t)
      | Ok out =>
          if flag_of "--check" a || flag_of "-n" a
          then (w, after out (says (eol "(--check: validated offline, not deployed)"))) else
          match slurp_file (ce_reread e path) with
          | None => (w, after out (refuses 1 (eol ("cannot read " +:+ path))))
          | Some yaml =>
              let sock := sock_of a in
              let '(w, r) := online sock (load_request yaml) (load_reply (default sock (g_host_arg g))) w in
              (w, after out r)
          end
      end
  end.

(** ** Flash through the daemon *)

Definition flash_request (path : string) (off : Z) : string :=
  jc_print (JObject [("rpc", JString "flash.write"); ("path", JString path); ("offset", jint64 off)]).

(** [strtol] that finds the base itself. *)
Definition strtol0 (s : string) : Z :=
  let '(neg, s1) := split_sign (skip_space s) in
  let v := digits_val (base_0 s) (span_digits (base_0 s) (skip_0x (base_0 s) s1)).1 in
  Z.max (- 2 ^ 63) (Z.min (2 ^ 63 - 1) (if neg then - v else v)).

Definition cmd_flash (l : list string) (w : W) : W * run :=
  match l with
  | [] => (w, refuses 2 (lines
      ["usage: pktwyrm flash write <file> [--offset 0xADDR] [--socket PATH]"; "       pktwyrm flash id [--socket PATH]";
       "  Live config-flash write over PCIe (FPGA keeps running). Default";
       "  offset 0x00E00000 (scratch, past the boot image); 0 = boot image."]))
  | what :: rest =>
      if str_eq what "id" then plain (sock_of (scan_args ["--socket"] [] rest)) (rpc_req "flash.id" []) w
      else if str_eq what "write" then
        match rest with
        | [] => (w, refuses 2 (eol "usage: pktwyrm flash write <file> [--offset 0xADDR] [--socket PATH]"))
        | f :: rest =>
            let a := scan_args ["--socket"; "--offset"] [] rest in
            match ce_realpath e f with
            | None => (w, refuses 1 (eol ("cannot resolve " +:+ f)))
            | Some path =>
                online (sock_of a) (flash_request path (from_option strtol0 0x00E00000 (opt_of "--offset" a)))
                  (fun r => {| r_out := eol r; r_err := "";
                               r_code := if from_option (get_bool "verified") false (jc_parse r) then 0 else 1 |}) w
            end
        end
      else (w, refuses 2 (eol ("unknown flash subcommand: " +:+ what)))
  end.
End Online.
