(* ===== verification/ClientMain.v ===== *)
(** * The command-line client: test run, firmware update, dispatch

    Models [cmd_test_run], [cmd_firmware] and [main] of [sw/pktwyrm/src/main.c]. The
    card of the firmware update is any backend; the driver binding, the opening and
    the PCI rescan around it are parameters. *)

From Stdlib Require Import Ascii SpecFloat.
From Stdlib Require String.
From S2P Require Import Prelude StateMonad Types Config Validate Csr FlowCompiler Backend Scalar Text Pci Yaml ConfigParse Ipc.
From S2P Require Import SpiFlash Daemon Sfp Json Forms Reports Metrics Server Client ClientShow ClientFiles ClientRun.

Local Open Scope string_scope.
Local Open Scope Z_scope.
Local Open Scope list_scope.

(** ** Test run *)

(** A rounded conversion to [long]: the value and a half, cut. *)
Definition sf_trunc (d : spec_float) : Z :=
  match d with
  | S754_finite s m ex =>
      let v := if 0 <=? ex then Zpos m * 2 ^ ex else Zpos m / 2 ^ (- ex) in if s then - v else v
  | _ => 0
  end.
Definition half_up (d : spec_float) : Z := sf_trunc (SFadd 53 1024 d (fdiv (f64 1) (f64 2))).

(** [strtod] gives the value and the rest, [None] when nothing is converted or out of
    range; the result is in milliseconds. *)
Definition parse_duration_ms (strtod : string -> option (spec_float * string)) (s : string) : Z :=
  match strtod s with
  | None => -1
  | Some (v, rest) =>
      if SFltb v (S754_zero false) then -1 else
      if str_eq rest "" || str_eq rest "s" then half_up (fmul v (f64 1000)) else
      if str_eq rest "ms" then half_up v else
      if str_eq rest "m" then half_up (fmul v (f64 60000)) else -1
  end.

Section Client.
Context {W : Type} {JC : JsonC} {inet : InetPton} (libyaml : string -> yaml_parser) (e : cli_env W) (g : globals).

Inductive test_verdict := TxOnly | NoRx | Impaired | Passed.
#[global] Instance test_verdict_eq_dec : EqDecision test_verdict.
Proof. solve_decision. Defined.

(** A flow is measured when its line has both members; only those count. *)
Definition flow_verdict (f : json) : test_verdict :=
  match jget "rx_frames" f, jget "rx_card_id" f with
  | Some rx, Some _ =>
      if jc_int64 rx =? 0 then NoRx else
      if ztrue (get_int64 "lost" f) || ztrue (get_int64 "duplicate" f) || ztrue (get_int64 "out_of_order" f)
      then Impaired else Passed
  | _, _ => TxOnly
  end.

Definition verdict_text (v : test_verdict) : string :=
  match v with TxOnly => "-- (tx-only)" | NoRx => "FAIL (no rx)" | Impaired => "FAIL" | Passed => "PASS" end.
Definition is_failed (v : test_verdict) : bool := match v with NoRx | Impaired => true | _ => false end.
Definition is_measured (v : test_verdict) : bool := match v with TxOnly => false | _ => true end.
Definition count (p : test_verdict -> bool) (l : list test_verdict) : nat := length (filter (fun v => p v = true) l).

Definition verdict_row (f : json) : string :=
  columns [rpad 4 (str_Z (get_int "id" 0 f)); rpad 14 (get_str "rx_port" "?" f); lpad 14 (str_Z (get_int64 "tx_frames" f));
    lpad 14 (str_Z (get_int64 "rx_frames" f)); lpad 8 (str_Z (get_int64 "lost" f)); lpad 8 (str_Z (get_int64 "duplicate" f));
    lpad 8 (str_Z (get_int64 "out_of_order" f))] +:+ "  " +:+ verdict_text (flow_verdict f).

(** The reply to [flow.stats] judged: the texts and the exit code. *)
Definition judge (raw : bool) (resp : string) : run :=
  let pre := if raw then eol resp else "" in
  match jc_parse resp with
  | None => {| r_out := pre +:+ (if raw then "" else eol resp); r_err := ""; r_code := 2 |}
  | Some root =>
      match jget "flows" root with
      | Some (JArray l) =>
          let vs := flow_verdict <$> l in
          let failed := count is_failed vs in
          {| r_out := pre +:+
               (if raw then "" else
                lines (((columns [rpad 4 "flow"; rpad 14 "path"; lpad 14 "tx_frames"; lpad 14 "rx_frames"; lpad 8 "lost";
                                 lpad 8 "dup"; lpad 8 "ooo"] +:+ "  verdict") :: (verdict_row <$> l)) ++
                  [""; (if (failed =? 0)%nat then "PASS" else "FAIL") +:+ ": " +:+ str_nat (count is_measured vs) +:+
                       " measured flow(s), " +:+ str_nat failed +:+ " failed"]));
             r_err := ""; r_code := if (failed =? 0)%nat then 0 else 1 |}
      | _ => {| r_out := pre; r_err := eol "unexpected flow.stats response"; r_code := 2 |}
      end
  end.

Definition start_warning (resp : string) : string :=
  match jc_parse resp ≫= jget "warning" with Some v => eol ("warning: " +:+ shown (jc_string v)) | None => "" end.

Definition prefix_err (err : string) (r : run) : run := {| r_out := r_out r; r_err := err +:+ r_err r; r_code := r_code r |}.

(** The stop is sent whatever the statistics answered, and its own answer, longer
    than the room given for it or not, is not looked at. *)
Definition test_sequence (sock : string) (dur_ms : Z) (raw : bool) (w : W) : W * run :=
  match call libyaml e g sock (rpc_req "test.arm" []) w with
  | (w, Err f) => (w, failed_call e g 2 sock f)
  | (w, Ok _) =>
      match call libyaml e g sock (rpc_req "test.start" []) w with
      | (w, Err f) => (w, failed_call e g 2 sock f)
      | (w, Ok started) =>
          let err := start_warning started +:+ (if raw then "" else eol ("running for " +:+ str_Z dur_ms +:+ " ms...")) in
          let '(w, stats) := call libyaml e g sock (rpc_req "flow.stats" []) (ce_sleep e dur_ms w) in
          let '(w, _) := rpc_call (ce_peer e) g (resolve_secret libyaml g (ce_getenv e) (ce_file e)) sock
                           (rpc_req "test.stop" []) 16 w in
          (w, prefix_err err match stats with
                             | Err f => failed_call e g 2 sock f
                             | Ok resp => judge raw resp
                             end)
      end
  end.

Definition cmd_test_run (l : list string) (w : W) : W * run :=
  let a := scan_args ["--socket"; "--duration"] ["--json"] l in
  let durs := (fun kv => parse_duration_ms (ce_strtod e) kv.2) <$> filter (fun kv => kv.1 = "--duration") (ar_opts a) in
  if bool_decide (Exists (fun d => d < 0) durs) then (w, refuses 2 (eol "bad --duration (try 10s, 500ms, 2m)")) else
  test_sequence (sock_of a) (default 10000 (last durs)) (flag_of "--json" a) w.

Definition cmd_test (l : list string) (w : W) : W * run :=
  match l with
  | [] => (w, refuses 2 (lines ["usage: pktwyrm test arm|start|stop [--socket PATH] [--json]";
                                "       pktwyrm test run [--duration 10s] [--socket PATH] [--json]"]))
  | action :: rest =>
      if str_eq action "run" then cmd_test_run rest w else
      if bool_decide (action ∈ ["arm"; "start"; "stop"])
      then plain libyaml e g (sock_of (scan_args ["--socket"] [] rest)) (rpc_req ("test." +:+ action) []) w
      else (w, refuses 2 (eol ("unknown test action: " +:+ action)))
  end.

Definition cmd_flow (passes : nat) (l : list string) (w : W) : W * run :=
  match l with
  | [] => (w, refuses 2 (lines ["usage: pktwyrm flow show <config.yaml>";
      "       pktwyrm flow preview <config.yaml> [--flow ID] [--seq N] [--json]";
      "       pktwyrm flow start <id> [--socket PATH]"; "       pktwyrm flow stop  <id> [--socket PATH]"]))
  | what :: rest =>
      if str_eq what "show" then (w, cmd_flow_show libyaml (ce_file e) rest) else
      if str_eq what "preview" then (w, cmd_flow_preview libyaml (ce_file e) atoi rest) else
      if str_eq what "stats" then cmd_flow_stats libyaml e g passes rest w else
      if str_eq what "start" || str_eq what "stop" then
        match rest with
        | [] => (w, refuses 2 (eol ("usage: pktwyrm flow " +:+ what +:+ " <id> [--socket PATH]")))
        | id :: rest => plain libyaml e g (sock_of (scan_args ["--socket"] [] rest))
                          (rpc_req ("flow." +:+ what) [("id", atoi id)]) w
        end
      else (w, refuses 2 (eol ("unknown flow subcommand: " +:+ what)))
  end.
End Client.

(** ** Firmware update *)

Record card_env (W : Type) := {
  ca_ops : pw_card_backend_ops W;
  ca_bind : string -> W -> W;
  ca_open : string -> W -> W * bool;
  ca_close : W -> W;
  ca_rescan : text -> W -> W;
  ca_image : string -> option (Z * list Z)
}.
Arguments ca_ops {W} c.
Arguments ca_bind {W} c.
Arguments ca_open {W} c.
Arguments ca_close {W} c.
Arguments ca_rescan {W} c.
Arguments ca_image {W} c.

Definition PWFPGA_REG_REBOOT : Z := 0x0120.
Definition PWFPGA_REBOOT_MAGIC : Z := 0x52424F54.

Section Firmware.
Context {W : Type} (c : card_env W).

Record fw_opts := { fo_bdf : option string; fo_boot : bool; fo_scratch : bool }.

(** The arguments after the file; [Err] is one that is not known. *)
Fixpoint fw_args (o : fw_opts) (l : list string) : result string fw_opts :=
  match l with
  | [] => Ok o
  | a :: l' =>
      let other :=
        if str_eq a "--boot" then fw_args {| fo_bdf := fo_bdf o; fo_boot := true; fo_scratch := fo_scratch o |} l'
        else if str_eq a "--scratch" then fw_args {| fo_bdf := fo_bdf o; fo_boot := fo_boot o; fo_scratch := true |} l'
        else Err a in
      match l' with
      | v :: l'' => if str_eq a "--card" then fw_args {| fo_bdf := Some v; fo_boot := fo_boot o; fo_scratch := fo_scratch o |} l''
                    else other
      | [] => other
      end
  end.

(** The size [ftell] gives and the bytes the file holds: the image to write. *)
Definition fw_image (path : string) (off : Z) : result string (list Z) :=
  match ca_image c path with
  | None => Err (eol ("cannot open " +:+ path))
  | Some (fsz, bytes) =>
      if (fsz <=? 0) || (Z.shiftl 16 20 <? fsz)
      then Err (eol ("bad image size " +:+ str_Z fsz +:+ " (expect a .bin up to 16 MB)")) else
      if 0x01000000 <? off + fsz
      then Err (eol ("offset 0x" +:+ hex 1 off +:+ " + " +:+ str_Z fsz +:+ " B exceeds the 16 MB (3-byte) range")) else
      if Z.of_nat (length bytes) <? fsz then Err (eol ("short read on " +:+ path)) else
      Ok (take (Z.to_nat fsz) bytes)
  end.

Definition read_info (w : W) : W * pw_card_info :=
  match op_card_info (ca_ops c) with
  | Some f => let '(w, (_, i)) := f w in (w, i)
  | None => (w, zero_card_info)
  end.

Definition reload (bdf : string) (before : pw_card_info) (w : W) : W * run :=
  let w := match op_write32 (ca_ops c) with Some f => (f PWFPGA_REG_REBOOT PWFPGA_REBOOT_MAGIC w).1 | None => w end in
  let w := ca_close c w in
  match pw_pci_normalize_bdf (chars bdf) with
  | None => (w, refuses 1 (eol ("bad BDF " +:+ bdf)))
  | Some cbdf =>
      match ca_open c bdf (ca_bind c bdf (ca_rescan c cbdf w)) with
      | (w, false) => (w, refuses 1 (eol "card did not re-enumerate after reload -- recover via JTAG"))
      | (w, true) =>
          let '(w, info) := read_info w in
          let w := ca_close c w in
          let told := eol ("reloaded: build_id 0x" +:+ hex 8 (ci_build_id before) +:+ " -> 0x" +:+ hex 8 (ci_build_id info)) in
          if ci_build_id info =? ci_build_id before then
            (w, {| r_out := told; r_code := 1; r_err := eol
                   "WARNING: build_id unchanged -- the new image may not have booted (check the .bin, or the flash write region)" |})
          else (w, says (told +:+ eol "firmware update OK: card is running the new image."))
      end
  end.

Definition fw_program (bdf : string) (o : fw_opts) (off : Z) (img : list Z) (w : W) : W * run :=
  match ca_open c bdf (ca_bind c bdf w) with
  | (w, false) => (w, refuses 1 (eol ("backend open failed for " +:+ bdf +:+
      " -- is it a PacketWyrm card, bound to vfio-pci, and NOT in use by a running packetwyrmd?")))
  | (w, true) =>
      let '(w, before) := read_info w in
      let n := str_nat (length img) in
      let intro := lines
        ["card " +:+ bdf +:+ ": build_id=0x" +:+ hex 8 (if ztrue (ci_device_id before) then ci_build_id before else 0) +:+
           " version=0x" +:+ hex 8 (ci_version before) +:+ " num_flows=" +:+ str_Z (ci_num_local_flows before);
         "writing " +:+ n +:+ " bytes to the " +:+ (if fo_scratch o then "scratch" else "BOOT") +:+ " region @ 0x" +:+ hex 6 off +:+
           " (live, PCIe stays up)..."] in
      let '(w, res) := pw_flash_program (ca_ops c) off img w in
      let '(w, r) :=
        match res with
        | Err s => (w, refuses 1 (eol ("flash program failed (status " +:+ str_Z (status_code s) +:+ ")")))
        | Ok mism =>
            if negb (mism =? 0) then (w, refuses 1 (eol ("VERIFY FAILED: " +:+ str_Z mism +:+ " mismatched bytes"))) else
            let ok := eol ("verify OK: " +:+ n +:+ " bytes match") in
            if negb (fo_boot o) then
              (w, says (ok +:+ eol "done (flash written). Pass --boot to reload into it now, or power-cycle."))
            else if fo_scratch o then
              (w, after ok (refuses 2 (eol
                "refusing --boot with --scratch: the boot loader reads offset 0, not the scratch region")))
            else
              let '(w, r) := reload bdf before w in
              (w, after (ok +:+ eol "triggering ICAP reload (PCIe link drops, FPGA reloads from flash)...") r)
        end in
      (w, after intro r)
  end.

Definition fw_offset (o : fw_opts) : Z := if fo_scratch o then 0x00E00000 else 0.

Definition fw_usage : string := lines
  ["usage: pktwyrm firmware update <file.bin> --card BDF [--boot] [--scratch]";
   "  Writes the config flash live over PCIe, then (with --boot) reloads.";
   "  Default target is the BOOT image (offset 0); --scratch writes the";
   "  0xE00000 dev region instead. Needs root; the card must be free";
   "  (stop packetwyrmd first)."].

Definition cmd_firmware (l : list string) (w : W) : W * run :=
  match l with
  | verb :: path :: rest =>
      if negb (str_eq verb "update") then (w, refuses 2 fw_usage) else
      match fw_args {| fo_bdf := None; fo_boot := false; fo_scratch := false |} rest with
      | Err a => (w, refuses 2 (eol ("unknown arg: " +:+ a)))
      | Ok o =>
          match fo_bdf o with
          | None => (w, refuses 2 (eol "--card BDF required (e.g. --card 07:00.0)"))
          | Some bdf =>
              match fw_image path (fw_offset o) with
              | Err t => (w, refuses 1 t)
              | Ok img => fw_program bdf o (fw_offset o) img w
              end
          end
      end
  | _ => (w, refuses 2 fw_usage)
  end.
End Firmware.

(** ** The command *)

Definition help_text : string := lines
  ["pktwyrm - PacketWyrm CLI";
   "";
   "Offline commands (operate on a YAML file):";
   "  pktwyrm init  [--out FILE]           generate an env-config skeleton from discovered cards";
   "  pktwyrm cards                        discover real PacketWyrm PCI cards";
   "  pktwyrm cards <config.yaml>          list configured cards from YAML";
   "  pktwyrm ports <config.yaml>          list configured ports";
   "  pktwyrm map   <config.yaml>          show port -> logical-if map";
   "  pktwyrm load  <config.yaml> [--check]  validate offline (--check), else deploy";
   "  pktwyrm flow show <config.yaml>      list flows";
   "  pktwyrm flow preview <config.yaml> [--flow ID] [--seq N] [--json]  decode+hexdump the generated frame";
   "  pktwyrm version";
   "";
   "Online (talks to a running packetwyrmd over a Unix socket):";
   "  pktwyrm rpc version";
   "  pktwyrm rpc cards|ports|flows|stats [--socket PATH] [--card N]";
   "  pktwyrm stats [--socket PATH] [--card N] [--watch MS] [--json]";
   "  pktwyrm latency [--flow N] [--socket PATH] [--json]   per-flow one-way latency";
   "                  (same-card: exact; cross-card: J5 GPIO-corrected)";
   "  pktwyrm sfp [--card N] [--port P] [--socket PATH] [--json]  SFP id + DOM";
   "  pktwyrm tap [--socket PATH] [--json]                 host-plane TAP status + stats";
   "  pktwyrm flow start|stop <id> [--socket PATH]";
   "  pktwyrm flow stats [--flow N] [--socket PATH] [--watch MS] [--json]";
   "  pktwyrm test arm|start|stop [--socket PATH] [--json]";
   "  pktwyrm test run [--duration 10s] [--socket PATH] [--json]  arm+start+wait+stop, PASS/FAIL";
   "  pktwyrm hist latency --flow N [--socket PATH] [--json]";
   "  pktwyrm load <config.yaml> [--socket PATH]      deploy a config to the daemon (default)";
   "";
   "Firmware (LOCAL, direct card -- root, card free of any daemon):";
   "  pktwyrm firmware update <file.bin> --card BDF [--boot] [--scratch]";
   "                 validate + live-flash + verify (+ reload with --boot)";
   "";
   "Global flags (may appear anywhere):";
   "  --secret S     control-socket secret (else $PACKETWYRM_SECRET, else --env file)";
   "  --env PATH     env config to read the secret from (default /etc/packetwyrm/packetwyrm.yaml)";
   "  --host H[:P]   talk to a remote packetwyrm-proxyd over HTTPS (default port 8443)";
   "                 instead of the local Unix socket; --socket is then ignored"].

Section Main.
Context {W : Type} {JC : JsonC} {inet : InetPton} (libyaml : string -> yaml_parser) (e : cli_env W) (c : card_env W).
Context (devs : result pw_status (nat * list pw_pci_device)) (probe : text -> W -> W * option Z)
  (fopen : string -> option string) (version : string) (passes : nat).

Definition cmd_stats_or_clear (g : globals) (l : list string) (w : W) : W * run :=
  match l with
  | verb :: rest =>
      if str_eq verb "clear" then plain libyaml e g (sock_of (scan_args ["--socket"] [] rest)) (rpc_req "stats.clear" []) w
      else cmd_stats libyaml e g passes l w
  | [] => cmd_stats libyaml e g passes l w
  end.

(** The state after, the run, and the file [init] wrote. *)
Definition client_main (argv : list string) (w : W) : W * run * option (string * string) :=
  let '(g, words) := global_args argv in
  match words with
  | [] => (w, says help_text, None)
  | sub :: l =>
      let only r := (w, r, None) in
      let went (wr : W * run) : W * run * option (string * string) := (wr.1, wr.2, None) in
      if bool_decide (sub ∈ ["help"; "-h"; "--help"]) then only (says help_text) else
      if bool_decide (sub ∈ ["version"; "--version"]) then only (says (eol ("pktwyrm " +:+ version))) else
      if str_eq sub "firmware" then went (cmd_firmware c l w) else
      if str_eq sub "init" then let '(r, f) := cmd_init fopen devs l in (w, r, f) else
      if str_eq sub "cards" then went (cmd_cards libyaml (ce_file e) probe devs l w) else
      if str_eq sub "ports" then only (cmd_ports libyaml (ce_file e) l) else
      if str_eq sub "map" then only (cmd_map libyaml (ce_file e) l) else
      if str_eq sub "load" then went (cmd_load libyaml e g l w) else
      if str_eq sub "rpc" then went (cmd_rpc libyaml e g l w) else
      if str_eq sub "latency" then went (cmd_latency libyaml e g l w) else
      if str_eq sub "sfp" then went (cmd_sfp libyaml e g l w) else
      if str_eq sub "tap" then went (cmd_tap libyaml e g l w) else
      if str_eq sub "stats" then went (cmd_stats_or_clear g l w) else
      if str_eq sub "hist" then went (cmd_hist libyaml e g l w) else
      if str_eq sub "test" then went (cmd_test libyaml e g l w) else
      if str_eq sub "flash" then went (cmd_flash libyaml e g l w) else
      if str_eq sub "flow" then went (cmd_flow libyaml e g passes l w) else
      (w, {| r_out := help_text; r_err := eol ("unknown subcommand: " +:+ sub); r_code := 0 |}, None)
  end.
End Main.
