(* ===== verification/ClientProps.v ===== *)
(** * The client and the daemon

    A call of the client over the local socket is one request of the daemon: the two
    ends of the frame protocol composed, with the secret the client presents. Then
    the test run judged on the daemon's own statistics, and the firmware update over
    any card. *)

From Stdlib Require Import Ascii SpecFloat.
From Stdlib Require String.
From S2P Require Import Prelude StateMonad Types Config Validate Csr FlowCompiler Backend Scalar Text Pci Yaml ConfigParse Ipc.
From S2P Require Import SpiFlash FlashProps HostPlane Daemon Taps Json Forms Secrets SecretsProps Reports Requests.
From S2P Require Import Client ClientShow ClientFiles ClientRun ClientMain.

Local Open Scope string_scope.
Local Open Scope Z_scope.
Local Open Scope list_scope.

(** ** Bytes and texts *)

Lemma bytes_back s : bytes_string (string_bytes s) = c_string s.
Proof.
  change (bytes_string (string_bytes s)) with (String.string_of_list_ascii (bytes_text (text_bytes (chars (c_string s))))).
  rewrite text_bytes_back. apply String.string_of_list_ascii_of_string.
Qed.

(** Nothing comes out of an empty stream. *)
Lemma read_all_empty ks n : (n <> 0)%nat -> exists ks' o, read_all ks [] n = ([], ks', o) /\ forall b, o <> Done b.
Proof.
  intros Hn. destruct n as [|n]; [done|]. clear Hn. induction ks as [|[k| |] ks IH]; cbn [read_all].
  - by exists [], Blocked.
  - cbn [length]. rewrite Nat.min_0_r. by exists ks, Failed.
  - exact IH.
  - by exists ks, Failed.
Qed.

Lemma read_frame_empty ks cap b : (pw_ipc_read_frame ks [] cap).2 <> Done (Ok b).
Proof.
  unfold pw_ipc_read_frame. destruct (read_all_empty ks 4) as (ks' & o & -> & Ho); [done|].
  destruct o as [hdr| |]; [by destruct (Ho hdr)|done|done].
Qed.

(** A message that can be a frame. *)
Definition fits_frame (b : list Z) : bool := (1 <=? Z.of_nat (length b)) && (Z.of_nat (length b) <=? PW_IPC_FRAME_MAX).

Lemma write_frame_unfit ks b : fits_frame b = false -> (pw_ipc_write_frame ks b).1.1 = [].
Proof.
  unfold fits_frame, pw_ipc_write_frame. intros H. destruct (_ || _) eqn:E; [done|].
  rewrite andb_false_iff, !Z.leb_gt in H. rewrite orb_false_iff, Z.eqb_neq, Z.ltb_ge in E. lia.
Qed.

Section Local.
Context {C : Type} (ops : pw_card_backend_ops C).
Context (libyaml : string -> yaml_parser) {IP : InetPton} {IN : InetNtop} {JC : JsonC}.

Abbreviation server_t := (@server C).

(** The daemon at the other end of the socket: [ks] are the answers of its reads and
    writes. A daemon that dies sends nothing. *)
Definition daemon_peer (e : req_env) (wr rd ks : list io_answer) : peer server_t := {|
  pr_errno _ := None; pr_connect _ _ := None;
  pr_writes _ := wr; pr_reads _ := rd;
  pr_daemon _ sent s := default (s, []) (handle_client ops libyaml e ks sent s);
  pr_tls _ _ _ := false; pr_tls_writes _ := []; pr_gateway _ _ _ s := (s, [])
|}.

(** One request, answered. *)
Lemma handle_client_frame e ks b (s s' : server_t) resp :
  fits_frame b = true -> handle_request ops libyaml e (bytes_string b) s = Some (s', resp) ->
  let r := string_bytes (jc_print resp) in
  serves ((4 + length r) + (4 + length b)) ks ->
  handle_client ops libyaml e ks (frame_hdr (Z.of_nat (length b)) ++ b) s =
    Some (s', if fits_frame r then frame_hdr (Z.of_nat (length r)) ++ r else []).
Proof.
  intros Hb Hh r Hk. unfold handle_client. pose proof Hb as [H1%Z.leb_le H2%Z.leb_le]%andb_true_iff.
  destruct (frame_got ks (4 + length r) b [] PW_IPC_FRAME_MAX) as (ks' & Hg & Hk'); [lia|lia|done|].
  rewrite app_nil_r in Hg. rewrite Hg, Hh. cbn [mbind option_bind]. do 2 f_equal. fold r.
  destruct (fits_frame r) eqn:Hr; [|by apply write_frame_unfit].
  apply andb_true_iff in Hr as [H3%Z.leb_le H4%Z.leb_le]. destruct (frame_sent ks' 0 r) as (ks2 & Hw & _); [lia|done|]. by rewrite Hw.
Qed.

Lemma local_call_exact e wr rd ks sock send (s s' : server_t) resp :
  (String.length sock < SUN_PATH)%nat -> fits_frame (string_bytes send) = true ->
  handle_request ops libyaml e (c_string send) s = Some (s', resp) ->
  let b := string_bytes send in
  let r := string_bytes (jc_print resp) in
  serves (4 + length b) wr -> serves ((4 + length r) + (4 + length b)) ks -> serves (4 + length r) rd ->
  local_rpc_call (daemon_peer e wr rd ks) sock send PW_IPC_FRAME_MAX s =
    (s', if fits_frame r then Ok (c_string (jc_print resp)) else Err BadReply).
Proof.
  intros Hsock Hb Hh b r Hw Hk Hr. unfold local_rpc_call, fill_sockaddr_un.
  destruct (Nat.leb_spec SUN_PATH (String.length sock)); [lia|]. cbn [daemon_peer pr_connect pr_writes pr_reads pr_daemon].
  pose proof Hb as [H1%Z.leb_le H2%Z.leb_le]%andb_true_iff. destruct (frame_sent wr 0 (string_bytes send)) as (ws' & Hs & _); [lia|done|].
  rewrite Hs. rewrite (handle_client_frame e ks (string_bytes send) s s' resp); [|done|by rewrite bytes_back|done].
  cbn [default from_option id]. fold r. destruct (fits_frame r) eqn:Hf.
  - apply andb_true_iff in Hf as [H3%Z.leb_le H4%Z.leb_le]. destruct (frame_got rd 0 r [] PW_IPC_FRAME_MAX) as (rs & Hg & _); [lia|lia|done|].
    rewrite app_nil_r in Hg. rewrite Hg. cbn [snd]. unfold r. by rewrite bytes_back.
  - destruct (pw_ipc_read_frame rd [] PW_IPC_FRAME_MAX).2 as [[body|]| |] eqn:E; try done.
    by destruct (read_frame_empty rd PW_IPC_FRAME_MAX body).
Qed.

(** What the daemon reads of a request that carries its own secret. *)
Definition presented (secret : string) (l : list (string * json)) : json :=
  match secret with "" => JObject l | _ => JObject (jput "secret" (JString secret) l) end.

Lemma presented_runs e buf l (s : server_t) :
  let secret := sys_secret (cfg_system (d_cfg (sv_d s))) in
  let o := presented secret l in
  c_string secret = secret -> Z.of_nat (String.length secret) < 2 ^ 32 -> jc_parse buf = Some o ->
  handle_request ops libyaml e buf s = Some (run_request ops libyaml e (string_member "rpc" o) o s).
Proof.
  intros secret o Hc Hl Hp. unfold handle_request. rewrite Hp. fold secret.
  assert (Ho : exists l', o = JObject l') by (unfold o, presented; destruct secret; eauto).
  destruct Ho as [l' Ho]. rewrite Ho. rewrite <- Ho.
  assert (authed (chars secret) (carried_secret o) = Some true) as ->; [|done].
  unfold o, presented, carried_secret in *. destruct secret as [|c sec] eqn:E; [done|].
  rewrite jget_put. cbn [fmap option_fmap option_map]. rewrite jc_string_of. cbn [fmap option_fmap option_map]. rewrite Hc.
  assert (Hlen : Z.of_nat (length (chars (String.String c sec))) < 2 ^ 32) by (by rewrite length_chars).
  apply auth_exact; [done| |by right]. by intros x [= <-].
Qed.

Lemma sent_text secret req l : c_string req = req -> jc_parse req = Some (JObject l) ->
  jc_parse (c_string (jc_print (presented secret l))) = Some (presented secret l) ->
  jc_parse (c_string (with_secret secret req)) = Some (presented secret l).
Proof. intros Hp Hr Hb. unfold with_secret, presented in *. destruct secret; [by rewrite Hp|]. by rewrite Hr. Qed.

End Local.

(** ** What the verdicts mean *)

(** ** Lines collected *)

Section Verdicts.
Context {C : Type} (ops : pw_card_backend_ops C) {JC : JsonC}.

Abbreviation cards_t := (list (@card_runtime C)).

(** Each element gives one line, at some state of the cards. *)
Lemma collect_each {A B} (f : A -> cards_t -> cards_t * list B) (P : A -> B -> Prop) l :
  (forall x cs, exists b, (f x cs).2 = [b] /\ P x b) -> forall cs, Forall2 P l (collect f l cs).2.
Proof.
  intros Hf. induction l as [|x l IH]; intros cs; cbn [collect]; [constructor|].
  destruct (Hf x cs) as (b & Hb & HP). destruct (f x cs) as [cs1 b1]. cbn [snd] in Hb. subst b1.
  specialize (IH cs1). destruct (collect f l cs1) as [cs2 bs]. cbn [snd app] in *. by constructor.
Qed.

Lemma jc_int64_jint64 z : jc_int64 (jint64 z) = i64 z.
Proof. unfold jint64. apply jc_int64_of. unfold i64. pose proof (Z.mod_pos_bound (z + 2 ^ 63) (2 ^ 64)). lia. Qed.

Lemma i64_zero z : i64 z = 0 <-> u64 z = 0.
Proof. unfold i64, u64. Z.div_mod_to_equations. lia. Qed.

(** The counters of a flow's receiver are those of a flow that got through. *)
Definition unimpaired (rs : pw_flow_stats) : Prop :=
  u64 (fs_rx_frames rs) <> 0 /\ u64 (fs_lost_packets_estimated rs) = 0 /\ u64 (fs_duplicate_count rs) = 0 /\
  u64 (fs_out_of_order_count rs) = 0.

(** [rs] is what the daemon read for the receiver of [m]. *)
Definition reading (cfg : pw_config) (snap_ok : list bool) (m : pw_flow_meta) (rs : pw_flow_stats) : Prop :=
  exists cs ok, (rx_stats ops snap_ok (card_idx_by_id cfg (m_rx_card_id m)) m cs).2 = (rs, ok).

Definition judged (f : json) (rs : pw_flow_stats) : Prop := is_failed (flow_verdict f) = false <-> unimpaired rs.

Lemma flow_line_judged cfg prog snap_ok m cs : exists f,
  (flow_stats_line ops cfg prog snap_ok m cs).2 = [f] /\ exists rs, reading cfg snap_ok m rs /\ judged f rs.
Proof.
  unfold flow_stats_line. destruct (rx_stats _ _ _ _ _) as [cs1 [rs rx_ok]] eqn:Hrx.
  destruct (slot_stats _ _ _ _ _) as [cs2 [ts tx_ok]]. destruct (offset_field _ _ _ _ _ _) as [cs3 off].
  eexists. split; [reflexivity|]. exists rs. split; [exists cs, rx_ok; by rewrite Hrx|].
  unfold judged, flow_verdict, get_int64.
  (* the members, by their place in the object *)
  match goal with |- context [JObject ?l] => set (o := JObject l) end.
  assert (jget "rx_frames" o = Some (jint64 (fs_rx_frames rs)) /\ jget "rx_card_id" o = Some (jint (m_rx_card_id m)) /\
    jget "lost" o = Some (jint64 (fs_lost_packets_estimated rs)) /\ jget "duplicate" o = Some (jint64 (fs_duplicate_count rs)) /\
    jget "out_of_order" o = Some (jint64 (fs_out_of_order_count rs))) as (-> & -> & -> & -> & ->) by done.
  cbn [from_option]. rewrite !jc_int64_jint64. unfold unimpaired. rewrite <- !i64_zero.
  destruct (Z.eqb_spec (i64 (fs_rx_frames rs)) 0) as [E|E]; [cbn; naive_solver|].
  unfold ztrue. destruct (Z.eqb_spec (i64 (fs_lost_packets_estimated rs)) 0), (Z.eqb_spec (i64 (fs_duplicate_count rs)) 0),
    (Z.eqb_spec (i64 (fs_out_of_order_count rs)) 0); cbn; naive_solver.
Qed.

Lemma count_failed l : count is_failed l = 0%nat <-> Forall (fun v => is_failed v = false) l.
Proof.
  unfold count. induction l as [|v l IH]; [by split|]. rewrite filter_cons, Forall_cons, <- IH.
  destruct (is_failed v); [rewrite decide_True by done|rewrite decide_False by done]; cbn; naive_solver lia.
Qed.

Lemma first_ts_keys cis : forall cs, (first_ts ops cis cs).2 = [] \/
  exists lo hi, (first_ts ops cis cs).2 = [("fpga_ts_lo", jint64 lo); ("fpga_ts_hi", jint64 hi)].
Proof.
  induction cis as [|ci cis IH]; intros cs; cbn [first_ts]; [by left|]. destruct (op_read32 ops); [|by left].
  destruct (card_open cs ci); cbn [negb]; [|apply IH].
  destruct (card_reg ops ci PWFPGA_REG_TIMESTAMP_LOW cs) as [cs1 [lo|]]; [|by left].
  destruct (card_reg ops ci PWFPGA_REG_TIMESTAMP_HIGH cs1) as [cs2 [hi|]]; [right; eauto|by left].
Qed.

(** The exit code of the verdict on the daemon's own report. *)
Lemma judge_report cfg prog cs raw resp : jc_parse resp = Some (build_flow_stats ops cfg prog (-1) cs).2 ->
  exists snap_ok rss, Forall2 (reading cfg snap_ok) (p_flow_meta prog) rss /\
    (r_code (judge raw resp) = 0 <-> Forall unimpaired rss) /\
    (r_code (judge raw resp) = 0 \/ r_code (judge raw resp) = 1).
Proof.
  intros Hp. unfold build_flow_stats in Hp. destruct (snap_all _ _ _) as [cs1 snap_ok].
  destruct (first_ts _ _ _) as [cs2 ts] eqn:Hts.
  set (metas := filter _ (p_flow_meta prog)) in Hp.
  assert (metas = p_flow_meta prog) as Hm by (apply filter_keep; intros m _; left; lia). rewrite Hm in Hp. clear metas Hm.
  pose proof (collect_each (flow_stats_line ops cfg prog snap_ok) (fun m f => exists rs, reading cfg snap_ok m rs /\ judged f rs)
    (p_flow_meta prog) (flow_line_judged cfg prog snap_ok) cs2) as Hl.
  destruct (collect _ _ cs2) as [cs3 l]. cbn [snd] in Hl, Hp. exists snap_ok.
  assert (exists rss, Forall2 (reading cfg snap_ok) (p_flow_meta prog) rss /\ Forall2 judged l rss) as (rss & H1 & H2).
  { clear Hp. induction Hl as [|m f ms fs (rs & Hr & Hj) _ (rss & H1 & H2)]; [by exists []|].
    exists (rs :: rss). split; by constructor. }
  exists rss. split; [done|]. unfold judge. rewrite Hp.
  assert (jget "flows" (JObject (ts ++ [("flows", JArray l)])) = Some (JArray l)) as ->.
  { pose proof (first_ts_keys (seq 0 (length (cfg_cards cfg))) cs1) as Hk. rewrite Hts in Hk.
    cbn [snd] in Hk. by destruct Hk as [->|(lo & hi & ->)]. }
  cbn [r_code]. destruct (Nat.eqb_spec (count is_failed (flow_verdict <$> l)) 0) as [E|E].
  - split; [|by left]. split; [|done]. intros _. apply count_failed in E. rewrite Forall_fmap in E.
    clear -H2 E. induction H2; [constructor|]. inversion E; subst. constructor; [by apply H|auto].
  - split; [|by right]. split; [done|]. intros Hall. destruct E. apply count_failed, Forall_fmap.
    clear -H2 Hall. induction H2; [constructor|]. inversion Hall; subst. constructor; [by apply H|auto].
Qed.

Context {W : Type} {inet : InetPton} (libyaml : string -> yaml_parser) (e : cli_env W) (g : globals).

(** C38: a test run whose calls all succeed sends the stop, and passes exactly when
    the daemon's report shows, for the receiver of every flow of the program, frames
    received and none lost, repeated or out of order. A background flow has no
    receiver and reads as zero, so a program with one never passes: the run does not
    leave such flows out of the verdict, since the report always carries the members
    it looks for. *)
Theorem test_run_verdict cfg prog (cs : cards_t) sock dur raw w w1 w2 w3 armed started resp :
  call libyaml e g sock (rpc_req "test.arm" []) w = (w1, Ok armed) ->
  call libyaml e g sock (rpc_req "test.start" []) w1 = (w2, Ok started) ->
  call libyaml e g sock (rpc_req "flow.stats" []) (ce_sleep e dur w2) = (w3, Ok resp) ->
  jc_parse resp = Some (build_flow_stats ops cfg prog (-1) cs).2 ->
  let '(w', r) := test_sequence libyaml e g sock dur raw w in
  w' = (rpc_call (ce_peer e) g (resolve_secret libyaml g (ce_getenv e) (ce_file e)) sock (rpc_req "test.stop" []) 16 w3).1 /\
  (exists snap_ok rss, Forall2 (reading cfg snap_ok) (p_flow_meta prog) rss /\
     (r_code r = 0 <-> Forall unimpaired rss) /\ (r_code r = 0 \/ r_code r = 1)) /\
  (Exists (fun m => m_rx_slot_valid m = false) (p_flow_meta prog) -> r_code r = 1).
Proof.
  intros Ha Hs Hst Hp. unfold test_sequence. rewrite Ha, Hs, Hst.
  destruct (rpc_call _ _ _ _ _ _ w3) as [w4 stopped]. split; [done|]. cbn [prefix_err r_code].
  destruct (judge_report cfg prog cs raw resp Hp) as (snap_ok & rss & H1 & H2 & H3). split; [eauto 10|].
  intros (m & Hm & Hv)%Exists_exists. destruct H3 as [H3|H3]; [|done]. exfalso. apply H2 in H3.
  apply list_elem_of_lookup_1 in Hm as [i Hm]. destruct (Forall2_lookup_l _ _ _ _ _ H1 Hm) as (rs & Hrs & cs1 & ok & Hr).
  unfold rx_stats in Hr. rewrite Hv in Hr. injection Hr as <- _.
  rewrite Forall_lookup in H3. by destruct (H3 _ _ Hrs) as [Hz _].
Qed.
End Verdicts.

(** ** Firmware *)

Section Firmware.
Context {W : Type} (c : card_env W) {w32 r32 jedec} {HC : @FlashCard W w32 r32 jedec}.
Context (Hw32 : op_write32 (ca_ops c) = Some w32) (Hr32 : op_read32 (ca_ops c) = Some r32).

(** The flash holds [img] at [off] and is otherwise as before. *)
Definition flashed (off : Z) (img : list Z) (w w' : W) : Prop := forall x, n_mem (fl_nor w') x =
  if (off <=? x) && (x <? off + nbytes img) then nth (Z.to_nat (x - off)) img 0 else n_mem (fl_nor w) x.

Lemma fw_image_ok path off fsz bytes : 0 <= off -> ca_image c path = Some (fsz, bytes) -> 0 < fsz <= Z.of_nat (length bytes) ->
  off + fsz <= FLASH_SZ ->
  let img := take (Z.to_nat fsz) bytes in
  fw_image c path off = Ok img /\ img <> [] /\ nbytes img = fsz.
Proof.
  intros Ho Hi Hb Hf img. unfold fw_image. rewrite Hi. unfold FLASH_SZ in Hf.
  assert (Hn : nbytes img = fsz) by (unfold nbytes, img; rewrite length_take; lia).
  split; [|split; [intros E; rewrite E in Hn; unfold nbytes in Hn; cbn in Hn; lia|done]].
  change (Z.shiftl 16 20) with 0x1000000.
  rewrite (proj2 (Z.leb_gt fsz 0)), (proj2 (Z.ltb_ge 0x1000000 fsz)), (proj2 (Z.ltb_ge 0x01000000 (off + fsz))),
    (proj2 (Z.ltb_ge (Z.of_nat (length bytes)) fsz)) by lia. done.
Qed.

(** The programming succeeds and the options say what follows. *)
Lemma fw_program_ok bdf o off img w w1 w2 before : ca_open c bdf (ca_bind c bdf w) = (w1, true) ->
  read_info c w1 = (w2, before) -> fl_busy w2 = O -> n_wip (fl_nor w2) = O ->
  img <> [] -> 0 <= off -> off + nbytes img <= FLASH_SZ -> Forall is_u8 img ->
  exists w3, flashed off img w2 w3 /\
  let '(w', r) := fw_program c bdf o off img w in
  if negb (fo_boot o) then w' = w3 /\ r_code r = 0 else
  if fo_scratch o then w' = w3 /\ r_code r = 2 else
  w' = (reload c bdf before w3).1 /\ r_code r = r_code (reload c bdf before w3).2.
Proof.
  intros Ho Hi Hb Hn Hne Hoff Hend Hu. unfold fw_program. rewrite Ho, Hi.
  destruct (flash_program_ok (HC := HC) off img w2) as (mism & w3 & Hx & -> & Hid); try done.
  destruct Hid as (_ & _ & _ & Hm). exists w3. split; [exact Hm|].
  unfold pw_flash_program. rewrite Hw32, Hr32, Hx. cbn [Z.eqb negb].
  destruct (fo_boot o); cbn [negb]; [|done]. destruct (fo_scratch o); [done|].
  by destruct (reload c bdf before w3) as [w4 r4].
Qed.

(** A reload that exits with 0 has read another build off the card it found again. *)
Lemma reload_changed bdf before w : r_code (reload c bdf before w).2 = 0 ->
  exists w1 w2 info, ca_open c bdf w1 = (w2, true) /\ (read_info c w2).2 = info /\ ci_build_id info <> ci_build_id before.
Proof.
  unfold reload. destruct (pw_pci_normalize_bdf _); [|done].
  destruct (ca_open _ _ _) as [w2 [|]] eqn:Ho; [|done]. destruct (read_info c w2) as [w3 info] eqn:Hi.
  destruct (Z.eqb_spec (ci_build_id info) (ci_build_id before)); [done|]. intros _.
  eexists _, w2, info. split_and!; [exact Ho|by rewrite Hi|done].
Qed.

(** C39: a firmware update on a card in order writes the whole image and nothing
    else: at the start of the flash, or with [--scratch] from 14 MB on, where it
    leaves every byte of the boot image alone. Without [--boot] it exits with 0 and
    the card is not reloaded; [--boot] with [--scratch] exits with 2 and does not
    reload either; [--boot] alone reloads, and exits with 0 only when the card came
    back with another build. *)
Theorem firmware_update_exact path rest o bdf fsz bytes w w1 w2 before :
  fw_args {| fo_bdf := None; fo_boot := false; fo_scratch := false |} rest = Ok o -> fo_bdf o = Some bdf ->
  ca_image c path = Some (fsz, bytes) -> 0 < fsz <= Z.of_nat (length bytes) -> Forall is_u8 bytes ->
  fw_offset o + fsz <= FLASH_SZ ->
  ca_open c bdf (ca_bind c bdf w) = (w1, true) -> read_info c w1 = (w2, before) ->
  fl_busy w2 = O -> n_wip (fl_nor w2) = O ->
  let '(w', r) := cmd_firmware c ("update" :: path :: rest) w in
  exists w3, flashed (fw_offset o) (take (Z.to_nat fsz) bytes) w2 w3 /\
  (fo_scratch o = true -> forall x, x < 0xE00000 -> n_mem (fl_nor w3) x = n_mem (fl_nor w2) x) /\
  (fo_boot o = false -> w' = w3 /\ r_code r = 0) /\
  (fo_boot o = true -> fo_scratch o = true -> w' = w3 /\ r_code r = 2) /\
  (fo_boot o = true -> fo_scratch o = false -> w' = (reload c bdf before w3).1 /\
     (r_code r = 0 -> exists w4 w5 info, ca_open c bdf w4 = (w5, true) /\ (read_info c w5).2 = info /\
                        ci_build_id info <> ci_build_id before)).
Proof.
  intros Ha Hb Hi Hsz Hu Hend Ho Hri Hbusy Hwip. unfold cmd_firmware. change (negb (str_eq "update" "update")) with false. cbn iota.
  assert (Hoff : 0 <= fw_offset o) by (unfold fw_offset; destruct (fo_scratch o); lia).
  destruct (fw_image_ok path (fw_offset o) fsz bytes Hoff Hi Hsz Hend) as (Himg & Hne & Hn). rewrite Ha, Hb, Himg.
  destruct (fw_program_ok bdf o (fw_offset o) (take (Z.to_nat fsz) bytes) w w1 w2 before) as (w3 & Hfl & Hcase);
    try done; [by rewrite Hn|by apply Forall_take|].
  destruct (fw_program _ _ _ _ _ w) as [w' r]. exists w3. split; [done|]. split.
  { intros Hs x Hx. rewrite (Hfl x). unfold fw_offset. rewrite Hs. by rewrite (proj2 (Z.leb_gt 0x00E00000 x)). }
  destruct (fo_boot o), (fo_scratch o); cbn [negb] in Hcase; split_and!; try done.
  intros _ _. destruct Hcase as [-> ->]. split; [done|]. apply reload_changed.
Qed.
End Firmware.
