(* ===== verification/ClientSamples.v ===== *)
(** * The client on concrete inputs

    A json-c for plain texts, a client talking to the daemon of [ServerSamples], and
    a firmware update of the toy flash: the hypotheses of the theorems on the client
    hold here. *)

From Stdlib Require Import Ascii SpecFloat.
From Stdlib Require String.
From S2P Require Import Prelude Types Config Validate Csr FlowCompiler Backend BackendBar BarSafety DmaProps Deploy Programming Dma BarTables Scalar Text Yaml ConfigParse Ipc.
From S2P Require Import SpiFlash FlashProps Daemon BarDaemon DaemonSamples Json Forms FormProps Reports Requests Server ServerSamples.
From S2P Require Import Client ClientShow ClientFiles ClientRun ClientMain ClientProps.

Local Open Scope string_scope.
Local Open Scope Z_scope.
Local Open Scope list_scope.

#[local] Existing Instances ToyInet.toy_pton ToyInet.toy_ntop.

(** ** JSON without escapes *)

Fixpoint j_text (j : json) : string :=
  match j with
  | JNull => "null"
  | JBool b => if b then "true" else "false"
  | JInt z => str_Z z
  | JDouble _ => "0"
  | JString s => quoted s
  | JArray l => "[" +:+ joined "," (j_text <$> l) +:+ "]"
  | JObject l => "{" +:+ joined "," ((fun kv => quoted kv.1 +:+ ":" +:+ j_text kv.2) <$> l) +:+ "}"
  end.

Definition j_str (t : text) : option (string * text) :=
  '(s, t) ← split_at DQ t; Some (String.string_of_list_ascii s, t).

Fixpoint j_val (fuel : nat) (t : text) : option (json * text) :=
  match fuel with
  | O => None
  | S fuel =>
      let fix elems (n : nat) (t : text) : option (list json * text) :=
        match n with
        | O => None
        | S n =>
            '(v, t) ← j_val fuel t;
            match t with
            | "]" :: t => Some ([v], t)
            | "," :: t => '(l, t) ← elems n t; Some (v :: l, t)
            | _ => None
            end%char
        end in
      let fix members (n : nat) (t : text) : option (list (string * json) * text) :=
        match n, t with
        | S n, "034" :: t =>
            '(k, t) ← j_str t;
            match t with
            | ":" :: t =>
                '(v, t) ← j_val fuel t;
                match t with
                | "}" :: t => Some ([(k, v)], t)
                | "," :: t => '(l, t) ← members n t; Some ((k, v) :: l, t)
                | _ => None
                end
            | _ => None
            end
        | _, _ => None
        end%char in
      match t with
      | "n" :: "u" :: "l" :: "l" :: t => Some (JNull, t)
      | "t" :: "r" :: "u" :: "e" :: t => Some (JBool true, t)
      | "f" :: "a" :: "l" :: "s" :: "e" :: t => Some (JBool false, t)
      | "[" :: "]" :: t => Some (JArray [], t)
      | "{" :: "}" :: t => Some (JObject [], t)
      | "[" :: t => '(l, t) ← elems 100%nat t; Some (JArray l, t)
      | "{" :: t => '(l, t) ← members 100%nat t; Some (JObject l, t)
      | "034" :: t => '(s, t) ← j_str t; Some (JString s, t)
      | _ =>
          let '(neg, s) := split_sign (String.string_of_list_ascii t) in
          match span_digits 10 s with
          | ([], _) => None
          | (ds, r) => Some (JInt (if neg then - digits_val 10 ds else digits_val 10 ds), chars r)
          end
      end%char
  end.

#[export, refine] Instance plain_json : JsonC := {|
  jc_parse s := match j_val 6 (chars s) with Some (j, []) => Some j | _ => None end;
  jc_print := j_text;
  jc_string j := match j with JNull => None | JString s => Some s | _ => Some "" end;
  jc_int j := match j with JInt z => i32 z | _ => 0 end;
  jc_int64 j := match j with JInt z => z | _ => 0 end;
  jc_bool j := match j with JBool b => b | _ => false end |}.
Proof. all: try done. intros z Hz. by apply i32_id. Defined.

(** ** A client of the daemon *)

Definition c_script : list io_answer := replicate (30 * 100) (Xfer 512).

Definition c_env : cli_env (@server (bar_ctx toy_card unit)) := {|
  ce_peer := daemon_peer (JC := plain_json) toy_ops v_libyaml v_req c_script c_script c_script;
  ce_sleep _ w := w; ce_getenv := Some "s3cret"; ce_file _ := NoFile "none"; ce_reread _ := NoFile "none"; ce_realpath _ := None;
  ce_strerror _ := "error"; ce_strtod _ := None; ce_double _ := S754_zero false; ce_log10 d := d
|}.
Definition c_globals : globals := {| g_secret_arg := None; g_env_arg := None; g_host_arg := None |}.
Definition c_server : @server (bar_ctx toy_card unit) := up_server v_up.

Lemma c_serves n : (n <= 30 * 100)%nat -> serves n c_script.
Proof.
  intros Hn. unfold c_script. split.
  - intros [H _]%elem_of_replicate. discriminate.
  - rewrite filter_keep; [by rewrite length_replicate|]. by intros x [-> _]%elem_of_replicate.
Qed.

(** ** Witnesses *)

Definition c_arm : string := rpc_req "test.arm" [].
Definition c_armed : @server (bar_ctx toy_card unit) * json :=
  run_request (JC := plain_json) toy_ops v_libyaml v_req (Some "test.arm")
    (JObject [("rpc", JString "test.arm"); ("secret", JString "s3cret")]) c_server.


Definition c_call (method : string) (w : @server (bar_ctx toy_card unit)) : @server (bar_ctx toy_card unit) * result call_fail string :=
  call (JC := plain_json) v_libyaml c_env c_globals "/run/x" (rpc_req method []) w.
Definition c_w1 : @server (bar_ctx toy_card unit) := (c_call "test.arm" c_server).1.
Definition c_w2 : @server (bar_ctx toy_card unit) := (c_call "test.start" c_w1).1.
Definition c_w3 : @server (bar_ctx toy_card unit) := (c_call "flow.stats" c_w2).1.
Definition c_reply (r : result call_fail string) : string := match r with Ok t => t | Err _ => "" end.

(** A card that reads as all ones: the flow is measured and fails. *)
Lemma test_run_verdict_witness :
  flow_enabled (d_prog (sv_d c_w2)) 7 = true /\
  flow_enabled (d_prog (sv_d (test_sequence (JC := plain_json) v_libyaml c_env c_globals "/run/x" 10 false c_server).1)) 7 = false /\
  exists snap_ok rss, Forall2 (reading toy_ops (d_cfg (sv_d c_w2)) snap_ok) (p_flow_meta (d_prog (sv_d c_w2))) rss /\
    (r_code (test_sequence (JC := plain_json) v_libyaml c_env c_globals "/run/x" 10 false c_server).2 = 0 <-> Forall unimpaired rss).
Proof.
  split; [vm_compute; reflexivity|]. split; [vm_compute; reflexivity|].
  assert (Hok : forall m w, bool_decide (c_reply (c_call m w).2 <> "") = true -> c_call m w = ((c_call m w).1, Ok (c_reply (c_call m w).2))).
  { intros m w H. destruct (c_call m w) as [w' [t|f]]; [done|]. discriminate H. }
  assert (H1 : bool_decide (c_reply (c_call "test.arm" c_server).2 <> "") = true) by (vm_compute; reflexivity).
  assert (H2 : bool_decide (c_reply (c_call "test.start" c_w1).2 <> "") = true) by (vm_compute; reflexivity).
  assert (H3 : bool_decide (c_reply (c_call "flow.stats" c_w2).2 <> "") = true) by (vm_compute; reflexivity).
  pose proof (Hok "test.arm" c_server H1) as E1. pose proof (Hok "test.start" c_w1 H2) as E2. pose proof (Hok "flow.stats" c_w2 H3) as E3.
  fold c_w1 in E1. fold c_w2 in E2. fold c_w3 in E3. unfold c_call at 1 in E1. unfold c_call at 1 in E2. unfold c_call at 1 in E3.
  assert (Hp : jc_parse (c_reply (c_call "flow.stats" c_w2).2) =
    Some (build_flow_stats toy_ops (d_cfg (sv_d c_w2)) (d_prog (sv_d c_w2)) (-1) (d_cards (sv_d c_w2))).2) by (vm_compute; reflexivity).
  pose proof (test_run_verdict (JC := plain_json) toy_ops v_libyaml c_env c_globals (d_cfg (sv_d c_w2)) (d_prog (sv_d c_w2))
    (d_cards (sv_d c_w2)) "/run/x" 10 false c_server c_w1 c_w2 c_w3 _ _ _ E1 E2 E3 Hp) as H.
  destruct (test_sequence _ _ _ _ _ _ _) as [w' r]. destruct H as (_ & (snap_ok & rss & G1 & G2 & _) & _).
  exists snap_ok, rss. split; [exact G1|exact G2].
Defined.

Definition f_card : card_env ToyFlash.toy := {|
  ca_ops := ToyFlash.ops; ca_bind _ w := w; ca_open _ w := (w, true); ca_close w := w; ca_rescan _ w := w;
  ca_image _ := Some (3, [1; 2; 3; 4])
|}.

Lemma firmware_update_exact_witness : exists w3,
  n_mem (ToyFlash.nor_of w3) 0xE00000 = 1 /\ n_mem (ToyFlash.nor_of w3) 0xE00002 = 3 /\
  n_mem (ToyFlash.nor_of w3) 0xE00003 = 0x5A /\ n_mem (ToyFlash.nor_of w3) 0 = 0x5A /\
  (cmd_firmware f_card ["update"; "top.bin"; "--card"; "07:00.0"; "--scratch"] ToyFlash.start).1 = w3.
Proof.
  pose proof (firmware_update_exact (HC := ToyFlash.toy_card) f_card eq_refl eq_refl "top.bin" ["--card"; "07:00.0"; "--scratch"]
    {| fo_bdf := Some "07:00.0"; fo_boot := false; fo_scratch := true |} "07:00.0" 3 [1; 2; 3; 4]
    ToyFlash.start ToyFlash.start ToyFlash.start zero_card_info) as H.
  destruct (cmd_firmware _ _ _) as [w' r]. destruct H as (w3 & Hm & Hlow & Hno & _); try reflexivity.
  - split; [lia|reflexivity || (vm_compute; discriminate)].
  - repeat (apply Forall_cons; split; [unfold is_w; lia|]). by apply Forall_nil.
  - vm_compute. discriminate.
  - exists w3. destruct (Hno eq_refl) as [-> _]. unfold flashed in Hm. cbn [fl_nor ToyFlash.toy_card] in Hm.
    rewrite !Hm. repeat split; reflexivity.
Defined.
