(* ===== verification/Gateway.v ===== *)
(** * The client, the gateway and the daemon

    A call of the client over HTTPS, through the gateway, to the daemon: the three
    programs composed. The lemmas read a header block line by line on either side,
    the request by the gateway and the reply by the client; the theorem says that a
    call through the gateway is one request of the daemon, as a local call is. *)

From Stdlib Require Import Ascii SpecFloat.
From Stdlib Require String.
From S2P Require Import Prelude StateMonad Types Config Backend Scalar Text Yaml ConfigParse Ipc Csr BackendBar BarSafety.
From S2P Require Import BarTables Deploy Daemon Json Forms FormProps Secrets Proxy ProxyProps Reports Requests Server ServerSamples.
From S2P Require Import Client ClientRun ClientProps ClientSamples.

Local Open Scope string_scope.
Local Open Scope Z_scope.
Local Open Scope list_scope.

(** ** Printed numbers *)

Lemma pretty_go_dec x : forall s, Forall (fun c => dec_char c = true) (chars s) ->
  Forall (fun c => dec_char c = true) (chars (pretty_N_go x s)).
Proof.
  induction (N.lt_wf_0 x) as [x _ IH]. intros s Hs. assert (x = 0 \/ 0 < x)%N as [->|Hx] by lia.
  { by rewrite pretty_N_go_0. }
  rewrite pretty_N_go_step by done. apply IH; [by apply N.div_lt|]. cbn. constructor; [|done].
  assert (x `mod` 10 < 10)%N as Hd by (by apply N.mod_lt). revert Hd. generalize (x `mod` 10)%N. intros d Hd.
  assert (d = 0 \/ d = 1 \/ d = 2 \/ d = 3 \/ d = 4 \/ d = 5 \/ d = 6 \/ d = 7 \/ d = 8 \/ d = 9)%N by lia. naive_solver.
Qed.

Lemma dec_digits_chars s : Forall (fun c => dec_char c = true) (chars s) -> dec_digits s = (fun c => ch c - 48) <$> chars s.
Proof.
  induction s as [|c s IH]; cbn [chars dec_digits fmap list_fmap]; [done|].
  intros [Hc Hs]%Forall_cons. destruct (dec_char_facts c Hc) as (_ & _ & _ & _ & _ & -> & _). cbn. by rewrite IH.
Qed.

(** The characters, the value and the length of a printed number. *)
Lemma str_nat_spec n : let s := str_nat n in
  Forall (fun c => dec_char c = true) (chars s) /\ digits_val 10 (dec_digits s) = Z.of_nat n /\
  (Z.of_nat n < 100000 -> (1 <= length (chars s) <= 5)%nat).
Proof.
  cbv zeta. destruct (decide (n = 0)%nat) as [->|Hn]; [vm_compute; split_and!; [by repeat constructor|done|lia]|].
  assert (str_nat n = pretty_N_go (N.of_nat n) "") as ->.
  { unfold str_nat, pretty, pretty_N. rewrite decide_False by lia. done. }
  pose proof (pretty_go_dec (N.of_nat n) "" ltac:(constructor)) as Hd. split; [done|].
  destruct (pretty_go_spec (N.of_nat n) "") as (_ & Hv & _ & Hl). rewrite dec_digits_chars in Hv, Hl by done.
  rewrite nat_N_Z in Hv, Hl. rewrite dec_digits_chars by done. split; [exact Hv|]. intros Hb.
  specialize (Hl 5%nat Hb). rewrite length_fmap in Hl. simpl in Hl. split; [|lia].
  destruct (chars (pretty_N_go (N.of_nat n) "")); [|simpl; lia]. cbn in Hv. lia.
Qed.

Lemma span_dec_digits t c r : Forall (fun c => dec_char c = true) t -> dec_char c = false ->
  span_dec (t ++ c :: r) = ((fun c => ch c - 48) <$> t, c :: r).
Proof.
  intros Ht Hc. induction Ht as [|x t Hx Ht IH]; cbn; unfold dec; [by rewrite Hc|]. by rewrite Hx, IH.
Qed.

Lemma span_digits_dec t c r : Forall (fun c => dec_char c = true) t -> digit 10 c = None ->
  span_digits 10 (String.string_of_list_ascii (t ++ c :: r)) = ((fun c => ch c - 48) <$> t, String.string_of_list_ascii (c :: r)).
Proof.
  intros Ht Hc. induction Ht as [|x t Hx Ht IH]; cbn; [by rewrite Hc|].
  destruct (dec_char_facts x Hx) as (-> & _). by rewrite IH.
Qed.

(** Both ends read a printed length back. *)
Lemma parse_clen_print n r : Z.of_nat n < 100000 -> parse_clen (SP :: chars (str_nat n) ++ CR :: r) = Some (Z.of_nat n).
Proof.
  intros Hn. destruct (str_nat_spec n) as (Hd & Hv & Hl). specialize (Hl Hn). rewrite dec_digits_chars in Hv by done.
  unfold parse_clen. cbn [skip_ws]. rewrite (bool_decide_eq_true_2 (SP = SP)) by done. cbn [orb].
  assert (skip_ws (chars (str_nat n) ++ CR :: r) = chars (str_nat n) ++ CR :: r) as ->.
  { destruct (chars (str_nat n)) as [|c t]; [simpl in Hl; lia|]. apply Forall_cons in Hd as [Hc _]. cbn.
    revert Hc. clear. ascii_cases c. }
  rewrite span_dec_digits by done. rewrite length_fmap, Hv. destruct (Nat.eqb_spec (length (chars (str_nat n))) 0); [lia|].
  cbn. rewrite (proj2 (Z.leb_gt _ _)) by lia. done.
Qed.

Lemma strtol_print n r : Z.of_nat n < 100000 -> strtol10 (SP :: chars (str_nat n) ++ CR :: r) = Z.of_nat n.
Proof.
  intros Hn. destruct (str_nat_spec n) as (Hd & Hv & Hl). specialize (Hl Hn). rewrite dec_digits_chars in Hv by done.
  unfold strtol10. cbn [String.string_of_list_ascii skip_space]. change (isspace SP) with true. cbv iota.
  assert (exists c t, chars (str_nat n) = c :: t) as (c & t & E) by (destruct (chars (str_nat n)); [simpl in Hl; lia|eauto]).
  assert (Hc : dec_char c = true) by (rewrite E in Hd; by apply Forall_cons in Hd as [? _]).
  destruct (dec_char_facts c Hc) as (_ & Hs & _ & Hm & Hp & _).
  assert (split_sign (skip_space (String.string_of_list_ascii (chars (str_nat n) ++ CR :: r))) =
          (false, String.string_of_list_ascii (chars (str_nat n) ++ CR :: r))) as ->.
  { rewrite E. cbn. rewrite Hs. unfold split_sign. revert Hm Hp. clear. destruct c as [[] [] [] [] [] [] [] []]; done. }
  rewrite span_digits_dec by done. cbn [fst]. rewrite Hv. lia.
Qed.

(** ** Header blocks *)

(** A character of a header line, and a line of a block. *)
Definition line_char (c : ascii) : Prop := c <> CR /\ c <> NL /\ c <> NUL.
Definition line_ok (l : text) : Prop := l <> [] /\ Forall line_char l.

Definition line_charb (c : ascii) : bool := negb (bool_decide (c = CR) || bool_decide (c = NL) || bool_decide (c = NUL)).
Lemma plain_text t : forallb line_charb t = true -> Forall line_char t.
Proof.
  intros H. apply Forall_forall. intros c Hc. rewrite forallb_forall in H. specialize (H c (proj1 (list_elem_of_In _ _) Hc)).
  unfold line_charb in H. rewrite negb_true_iff, !orb_false_iff, !bool_decide_eq_false in H. by destruct H as [[? ?] ?].
Qed.

Lemma dec_plain t : Forall (fun c => dec_char c = true) t -> Forall line_char t.
Proof. intros H. apply (Forall_impl _ _ _ H). intros c. unfold line_char. ascii_cases c. Qed.

Lemma blank_at_lookup t i : blank_at t i -> t !! i = Some CR /\ t !! S (S i) = Some CR.
Proof.
  unfold blank_at. intros H. split.
  - rewrite <- (Nat.add_0_r i), <- lookup_drop, <- (lookup_take_lt (drop i t) 4) by lia. by rewrite H.
  - replace (S (S i)) with (i + 2)%nat by lia. rewrite <- lookup_drop, <- (lookup_take_lt (drop i t) 4) by lia. by rewrite H.
Qed.

Lemma head_text_cons l ls : head_text (l :: ls) = l ++ CRLF ++ head_text ls.
Proof. unfold head_text. cbn. by rewrite <- !app_assoc. Qed.

Lemma head_text_length l ls : length (head_text (l :: ls)) = (length l + 2 + length (head_text ls))%nat.
Proof. rewrite head_text_cons, !length_app. simpl. lia. Qed.

Lemma head_text_2 ls : (2 <= length (head_text ls))%nat.
Proof. unfold head_text. rewrite length_app. simpl. lia. Qed.

(** The blank line is at the end of the block, and nowhere before. *)
Lemma head_blank ls x : ls <> [] -> blank_at (head_text ls ++ x) (length (head_text ls) - 4).
Proof.
  intros Hls. destruct (exists_last Hls) as (ls' & l & ->). unfold head_text. rewrite fmap_app, concat_app. cbn.
  rewrite app_nil_r, <- !app_assoc. set (a := concat _). unfold blank_at.
  replace (length (a ++ l ++ CRLF ++ CRLF) - 4)%nat with (length (a ++ l)) by (rewrite !length_app; simpl; lia).
  rewrite (app_assoc a l). by rewrite drop_app_length.
Qed.

Lemma head_first ls x : Forall line_ok ls -> forall j, (j < length (head_text ls) - 4)%nat -> ~ blank_at (head_text ls ++ x) j.
Proof.
  induction 1 as [|l ls [Hne Hl] Hls IH]; intros j Hj Hb; [simpl in Hj; lia|].
  rewrite head_text_length in Hj. rewrite head_text_cons, <- !app_assoc in Hb.
  destruct (decide (j < length l)%nat) as [Hin|Hout].
  { apply blank_at_lookup in Hb as [Hb _]. rewrite lookup_app_l in Hb by done.
    by destruct (proj1 (Forall_lookup line_char l) Hl _ _ Hb) as (? & _). }
  assert (Hat : forall k, (l ++ CRLF ++ head_text ls ++ x) !! (length l + k)%nat = (CRLF ++ head_text ls ++ x) !! k).
  { intros k. rewrite lookup_app_r by lia. f_equal. lia. }
  assert (j = length l + (j - length l))%nat as Ej by lia. destruct (j - length l)%nat as [|[|k]] eqn:Ek.
  - destruct ls as [|l2 ls]; [simpl in Hj; lia|]. apply blank_at_lookup in Hb as [_ Hb].
    replace (S (S j)) with (length l + 2)%nat in Hb by lia. rewrite Hat, head_text_cons in Hb.
    apply Forall_cons in Hls as [[Hne2 Hl2] _]. destruct l2 as [|c l2]; [done|]. cbn in Hb. injection Hb as ->.
    by apply Forall_cons in Hl2 as [(? & _) _].
  - apply blank_at_lookup in Hb as [Hb _]. rewrite Ej, Hat in Hb. done.
  - apply (IH k); [lia|]. unfold blank_at in *. rewrite Ej in Hb.
    replace (length l + S (S k))%nat with (length (l ++ CRLF) + k)%nat in Hb by (rewrite length_app; simpl; lia).
    rewrite (app_assoc l) in Hb. rewrite drop_app_add in Hb. exact Hb.
Qed.

Lemma header_end_head ls x : ls <> [] -> Forall line_ok ls -> header_end_from 0 (head_text ls ++ x) = Some (length (head_text ls)).
Proof.
  intros Hne Hls. apply header_end_some. exists (length (head_text ls) - 4)%nat. split_and!.
  - destruct ls as [|l ls]; [done|]. rewrite head_text_length. pose proof (head_text_2 ls). apply Forall_cons in Hls as [[? _] _].
    destruct l; [done|]. simpl in *. lia.
  - lia.
  - by apply head_blank.
  - intros j Hj. apply head_first; [done|lia].
Qed.

Lemma find_text_first sub t i : take (length sub) (drop i t) = sub -> (i <= length t)%nat ->
  (forall j, (j < i)%nat -> take (length sub) (drop j t) <> sub) -> find_text sub t = Some i.
Proof.
  revert t. induction i as [|i IH]; intros t Hi Hle Hj; destruct t as [|c t]; cbn [find_text].
  - rewrite bool_decide_eq_true_2 by done. done.
  - rewrite bool_decide_eq_true_2 by done. done.
  - simpl in Hle. lia.
  - rewrite bool_decide_eq_false_2 by (apply (Hj 0%nat); lia). rewrite (IH t); [done|done|simpl in Hle; lia|].
    intros j Hlt. apply (Hj (S j)). lia.
Qed.

Lemma find_blank ls x : ls <> [] -> Forall line_ok ls -> find_text CRLFCRLF (head_text ls ++ x) = Some (length (head_text ls) - 4)%nat.
Proof.
  intros Hne Hls. apply find_text_first.
  - by apply head_blank.
  - rewrite length_app. lia.
  - intros j Hj. by apply head_first.
Qed.

Lemma find_eol l x : Forall line_char l -> find_text CRLF (l ++ CRLF ++ x) = Some (length l).
Proof.
  intros Hl. apply find_text_first; [by rewrite drop_app_length|rewrite length_app; lia|].
  intros j Hj Ht. assert (Hc : l !! j = Some CR).
  { rewrite <- (lookup_app_l l (CRLF ++ x)) by done.
    rewrite <- (Nat.add_0_r j), <- lookup_drop, <- (lookup_take_lt (drop j (l ++ CRLF ++ x)) (length CRLF)) by (simpl; lia).
    by rewrite Ht. }
  by destruct (proj1 (Forall_lookup line_char l) Hl _ _ Hc) as (? & _).
Qed.

(** A line that differs from a header's name within the name's length. *)
Fixpoint differ (name l : text) : bool :=
  match name, l with
  | p :: name, c :: l => negb (bool_decide (tolower c = tolower p)) || differ name l
  | _, _ => false
  end.

Lemma differ_prefix name l x : differ name l = true -> prefix_ci name (l ++ x) = false.
Proof.
  unfold prefix_ci, same_ci. intros H. apply bool_decide_eq_false. revert l H.
  induction name as [|p name IH]; intros [|c l]; cbn; try done.
  intros [H|H]%orb_true_iff [= H1 H2]; [|by apply (IH l)].
  rewrite negb_true_iff, bool_decide_eq_false in H. done.
Qed.

Lemma prefix_ci_self name x : prefix_ci name (name ++ x) = true.
Proof. unfold prefix_ci, same_ci. rewrite take_app_length. by apply bool_decide_eq_true. Qed.

(** *** The gateway's scan *)

Lemma scan_clen_line l rest seen : Forall line_char l ->
  scan_clen (length l + 2 + length rest) (l ++ CRLF ++ rest) false seen = scan_clen (length rest) rest true seen.
Proof.
  induction 1 as [|c l (Hc1 & Hc2 & _) Hl IH]; [done|]. cbn [length app Nat.add scan_clen].
  rewrite bool_decide_eq_false_2 by done. cbn [negb]. exact IH.
Qed.

(** A line starts: what it may mean for the length. *)
Lemma scan_clen_head l ls seen : line_ok l ->
  scan_clen (length (head_text (l :: ls))) (head_text (l :: ls)) true seen =
  if (length (head_text (l :: ls)) <=? 15)%nat || negb (prefix_ci (chars "Content-Length:") (head_text (l :: ls)))
  then scan_clen (length (head_text ls)) (head_text ls) true seen
  else match seen with
       | Some _ => None
       | None => v ← parse_clen (drop 15 (head_text (l :: ls))); scan_clen (length (head_text ls)) (head_text ls) true (Some v)
       end.
Proof.
  intros [Hne Hl]. rewrite head_text_length, head_text_cons. destruct l as [|c l]; [done|].
  apply Forall_cons in Hl as [(Hc1 & Hc2 & _) Hl]. cbn [length app Nat.add scan_clen].
  rewrite bool_decide_eq_false_2 by done. cbn [negb]. rewrite !scan_clen_line by done.
  destruct (_ || _); [done|]. destruct seen; [done|].
  destruct (parse_clen _); cbn [mbind option_bind]; [|done]. by rewrite scan_clen_line.
Qed.

Lemma scan_clen_skip l ls seen : line_ok l -> differ (chars "Content-Length:") l = true ->
  scan_clen (length (head_text (l :: ls))) (head_text (l :: ls)) true seen = scan_clen (length (head_text ls)) (head_text ls) true seen.
Proof.
  intros Hl Hd. rewrite scan_clen_head by done. rewrite (head_text_cons l ls), (differ_prefix _ l) by done. by rewrite orb_true_r.
Qed.

Lemma scan_clen_here n ls : Z.of_nat n < 100000 ->
  let l := chars "Content-Length: " ++ chars (str_nat n) in
  scan_clen (length (head_text (l :: ls))) (head_text (l :: ls)) true None =
  scan_clen (length (head_text ls)) (head_text ls) true (Some (Z.of_nat n)).
Proof.
  intros Hn l. destruct (str_nat_spec n) as (Hd & _ & Hlen). specialize (Hlen Hn).
  assert (Hl : line_ok l). { split; [done|]. apply Forall_app. split; [by apply plain_text|by apply dec_plain]. }
  rewrite scan_clen_head by done. assert (El : l = chars "Content-Length:" ++ SP :: chars (str_nat n)) by done.
  destruct (Nat.leb_spec (length (head_text (l :: ls))) 15) as [Hle|_].
  { rewrite head_text_length, El, length_app in Hle. simpl in Hle. lia. }
  cbn [orb]. rewrite head_text_cons, El, <- !app_assoc. rewrite prefix_ci_self. cbn [negb].
  change 15%nat with (length (chars "Content-Length:")). rewrite drop_app_length.
  assert (Ep : parse_clen ((SP :: chars (str_nat n)) ++ CRLF ++ head_text ls) = Some (Z.of_nat n)) by (by apply parse_clen_print).
  rewrite Ep. done.
Qed.

(** *** The gateway's header look-up *)

Lemma find_header_line l rest name cap : Forall line_char l -> (length name < length rest)%nat ->
  find_header (l ++ CRLF ++ rest) false name cap = find_header rest true name cap.
Proof.
  intros Hl Hn. induction Hl as [|c l (Hc1 & Hc2 & _) Hl IH].
  - cbn [app CRLF find_header]. cbn [andb length].
    rewrite !(proj2 (Nat.ltb_lt (length name) _)) by (simpl; lia). done.
  - cbn [app find_header andb]. rewrite (proj2 (Nat.ltb_lt (length name) _)) by (simpl; rewrite !length_app; simpl; lia).
    cbn [negb]. rewrite bool_decide_eq_false_2 by done. exact IH.
Qed.

Lemma find_header_skip l ls name cap : line_ok l -> differ name l = true -> (length name < length (head_text ls))%nat ->
  find_header (head_text (l :: ls)) true name cap = find_header (head_text ls) true name cap.
Proof.
  intros [Hne Hl] Hd Hn. rewrite head_text_cons. destruct l as [|c l]; [done|].
  pose proof (differ_prefix name (c :: l) (CRLF ++ head_text ls) Hd) as Hp.
  apply Forall_cons in Hl as [(Hc1 & Hc2 & _) Hl]. cbn [app] in *. cbn [find_header]. rewrite Hp. cbn [andb].
  rewrite (proj2 (Nat.ltb_lt (length name) _)) by (simpl; rewrite !length_app; simpl; lia). cbn [negb].
  rewrite bool_decide_eq_false_2 by done. by apply find_header_line.
Qed.

(** A value without blanks. *)
Definition graphic (c : ascii) : Prop := 33 <= ch c <= 126.
Definition graphicb (c : ascii) : bool := (33 <=? ch c) && (ch c <=? 126).

Lemma graphic_facts c : graphic c -> line_char c /\ c <> SP /\ c <> TAB.
Proof.
  intros H. assert (graphicb c = true) as Hb by (unfold graphicb, graphic in *; apply andb_true_iff; lia).
  clear H. revert Hb. unfold line_char. ascii_cases c.
Qed.

Lemma skip_ws_graphic t r : Forall graphic t -> t <> [] -> skip_ws (t ++ r) = t ++ r.
Proof.
  intros Ht Hne. destruct t as [|c t]; [done|]. apply Forall_cons in Ht as [(_ & Hs & Htb)%graphic_facts _].
  cbn. by rewrite !bool_decide_eq_false_2.
Qed.

Lemma to_eol_line t r : Forall line_char t -> to_eol (t ++ CRLF ++ r) = t.
Proof.
  induction 1 as [|c t (H1 & H2 & _) Ht IH]; [done|]. cbn [app to_eol]. rewrite !bool_decide_eq_false_2 by done.
  cbn [orb]. by f_equal.
Qed.

Lemma trim_end_graphic t : Forall graphic t -> trim_end t = t.
Proof.
  intros Ht. unfold trim_end. destruct (decide (t = [])) as [->|Hne]; [done|].
  pose proof (skip_ws_graphic (reverse t) [] (proj2 (Forall_reverse _ _) Ht)) as E. rewrite app_nil_r in E.
  rewrite E, reverse_involutive; [done|]. intros E0. apply Hne. rewrite <- (reverse_involutive t), E0. done.
Qed.

Lemma cstring_clean t r : Forall (fun c => c <> NUL) t -> cstring (t ++ r) = t ++ cstring r.
Proof.
  induction 1 as [|c t H Ht IH]; [done|]. cbn [app cstring]. rewrite bool_decide_eq_false_2 by done. by rewrite IH.
Qed.

Lemma plain_clean t : Forall line_char t -> Forall (fun c => c <> NUL) t.
Proof. intros H. apply (Forall_impl _ _ _ H). by intros c (_ & _ & ?). Qed.

Lemma cstring_plain t r : Forall line_char t -> cstring (t ++ r) = t ++ cstring r.
Proof. intros H. by apply cstring_clean, plain_clean. Qed.

Lemma head_clean ls : Forall line_ok ls -> Forall (fun c => c <> NUL) (head_text ls).
Proof.
  induction 1 as [|l ls [_ Hl] Hls IH]; [by repeat constructor|]. rewrite head_text_cons, !Forall_app.
  split_and!; [by apply plain_clean|by repeat constructor|done].
Qed.

Lemma graphic_plain t : Forall graphic t -> Forall line_char t.
Proof. intros H. apply (Forall_impl _ _ _ H). intros c. by apply graphic_facts. Qed.

Lemma find_header_match t name cap : prefix_ci name t = true -> (length name < length t)%nat ->
  find_header t true name cap =
  let v := trim_end (to_eol (skip_ws (drop (length name) t))) in if (cap <=? length v)%nat then None else Some (cstring v).
Proof.
  intros Hp Hl. destruct t as [|c t]; [simpl in Hl; lia|]. cbn [find_header]. rewrite Hp, (proj2 (Nat.ltb_lt _ _) Hl). done.
Qed.

Lemma find_header_here name v ls cap : Forall graphic v -> v <> [] -> (length v < cap)%nat ->
  find_header (head_text ((name ++ SP :: v) :: ls)) true name cap = Some v.
Proof.
  intros Hv Hne Hc. rewrite head_text_cons, <- app_assoc.
  rewrite find_header_match; [|apply prefix_ci_self|rewrite !length_app; simpl; lia].
  rewrite drop_app_length. cbn [app skip_ws]. rewrite (bool_decide_eq_true_2 (SP = SP)) by done. cbn [orb].
  rewrite skip_ws_graphic by done. rewrite to_eol_line by (by apply graphic_plain). rewrite trim_end_graphic by done.
  cbv zeta. destruct (Nat.leb_spec cap (length v)); [lia|]. pose proof (cstring_plain v [] (graphic_plain v Hv)) as E.
  cbn [cstring] in E. rewrite !app_nil_r in E. by rewrite E.
Qed.

(** *** The client's scan *)

Lemma declared_skip fuel l ls x : Forall line_char l -> differ (chars "Content-Length:") l = true ->
  declared_len (S fuel) (length (head_text (l :: ls))) (head_text (l :: ls) ++ x) =
  declared_len fuel (length (head_text ls)) (head_text ls ++ x).
Proof.
  intros Hl Hd. rewrite head_text_length, head_text_cons, <- !app_assoc. cbn [declared_len].
  destruct (Nat.eqb_spec (length l + 2 + length (head_text ls)) 0); [lia|]. rewrite differ_prefix, find_eol by done. f_equal; [lia|].
  replace (length l + 2)%nat with (length (l ++ CRLF)) by (by rewrite length_app). rewrite (app_assoc l). apply drop_app_length.
Qed.

Lemma declared_here fuel n ls x : Z.of_nat n < 100000 ->
  let l := chars "Content-Length: " ++ chars (str_nat n) in
  declared_len (S fuel) (length (head_text (l :: ls))) (head_text (l :: ls) ++ x) = Z.of_nat n.
Proof.
  intros Hn l. rewrite head_text_length, head_text_cons, <- !app_assoc. cbn [declared_len].
  destruct (Nat.eqb_spec (length l + 2 + length (head_text ls)) 0); [lia|].
  assert (El : l = chars "Content-Length:" ++ SP :: chars (str_nat n)) by done. rewrite El, <- !app_assoc, prefix_ci_self.
  change 15%nat with (length (chars "Content-Length:")). rewrite drop_app_length. by apply strtol_print.
Qed.

(** ** The request, as the gateway reads it *)

Definition request_lines (host : text) (n : nat) : list text :=
  [chars "POST /api/rpc HTTP/1.1"; chars "Host: " ++ host; chars "Content-Type: application/json";
   chars "Content-Length: " ++ chars (str_nat n); chars "X-PW-Request: 1"; chars "Connection: close"].

Lemma http_request_lines host body : http_request host body = head_text (request_lines host (length body)) ++ body.
Proof. unfold http_request, request_lines. rewrite !head_text_cons, <- !app_assoc. done. Qed.

(** A host a client can name, and a body a frame can carry. *)
Definition host_ok (host : text) : Prop := Forall graphic host /\ (length host < 256)%nat /\ host <> [].
Definition body_ok (body : text) : Prop := 1 <= Z.of_nat (length body) <= PW_IPC_FRAME_MAX.

Lemma const_line l : negb (bool_decide (l = [])) && forallb line_charb l = true -> line_ok l.
Proof.
  intros [H1 H2]%andb_true_iff. split; [|by apply plain_text]. by rewrite negb_true_iff, bool_decide_eq_false in H1.
Qed.

Lemma named_line name v : forallb line_charb name = true -> name <> [] -> Forall line_char v -> line_ok (name ++ v).
Proof. intros Hn Hne Hv. split; [by destruct name|]. apply Forall_app. split; [by apply plain_text|done]. Qed.

Lemma request_lines_ok host n : Forall graphic host -> Forall line_ok (request_lines host n).
Proof.
  intros Hh. destruct (str_nat_spec n) as (Hd & _). unfold request_lines.
  rewrite !Forall_cons, Forall_nil. split_and!; try (by apply const_line); [| |done];
    (apply named_line; [done|done|]); [by apply graphic_plain|by apply dec_plain].
Qed.

Lemma request_head_length host n : Z.of_nat n < 100000 ->
  (length (head_text (request_lines host n)) = 120 + length host + length (chars (str_nat n)))%nat.
Proof. intros Hn. unfold request_lines. rewrite !head_text_length, !length_app. simpl. lia. Qed.

Lemma request_of_request cap host body : Forall graphic host -> body_ok body ->
  (length (http_request host body) <= cap)%nat ->
  request_of cap (http_request host body) = Some (length (head_text (request_lines host (length body))), length body).
Proof.
  intros Hh [Hb1 Hb2] Hcap. rewrite http_request_lines in *. set (ls := request_lines host (length body)) in *.
  assert (Hn : Z.of_nat (length body) < 100000) by (unfold PW_IPC_FRAME_MAX in Hb2; lia).
  assert (Hls : Forall line_ok ls) by (by apply request_lines_ok).
  unfold request_of. rewrite header_end_head by done. cbn [mbind option_bind]. rewrite take_app_length.
  assert (scan_clen (length (head_text ls)) (head_text ls) true None = Some (Some (Z.of_nat (length body)))) as ->.
  { unfold ls, request_lines in *. repeat (apply Forall_cons in Hls as [? Hls]).
    rewrite !scan_clen_skip by done. rewrite scan_clen_here by done. rewrite !scan_clen_skip by done. done. }
  cbn [default mbind option_bind from_option id]. rewrite Nat2Z.id. rewrite length_app in *.
  rewrite (proj2 (Z.ltb_ge _ _)) by lia. rewrite !(proj2 (Nat.ltb_ge _ _)) by lia. done.
Qed.

Lemma request_line_words x : (m ← scan_word 7 (cstring (chars "POST /api/rpc HTTP/1.1" ++ x)); p ← scan_word 255 m.2; Some (m.1, p.1)) =
  Some (chars "POST", chars "/api/rpc").
Proof. rewrite cstring_plain by (by apply plain_text). done. Qed.

Lemma request_headers host n : host_ok host ->
  find_header (head_text (request_lines host n)) true (chars "X-PW-Request:") 300 = Some (chars "1") /\
  find_header (head_text (request_lines host n)) true (chars "Host:") 300 = Some host.
Proof.
  intros (Hh & Hl & Hne). pose proof (request_lines_ok host n Hh) as Hls. unfold request_lines in *.
  repeat (apply Forall_cons in Hls as [? Hls]).
  split.
  - do 4 (rewrite find_header_skip; [|done|done|rewrite !head_text_length; simpl; lia]).
    apply (find_header_here (chars "X-PW-Request:") (chars "1")); [by repeat constructor|done|simpl; lia].
  - rewrite find_header_skip; [|done|done|rewrite !head_text_length; simpl; lia].
    apply (find_header_here (chars "Host:")); [done|done|lia].
Qed.

Section Exchange.
Context {D : Type} (e : proxy_env D).

(** What the gateway does with the client's request, whichever way it is cut. *)
Lemma serve_request now st d ps host body : host_ok host -> body_ok body -> Forall (fun p => p <> []) ps ->
  concat ps = http_request host body ->
  serve e now st d (timely ps) =
  if negb (host_allowed (pe_listen e) (pe_allowed e) host) then ((st, d), http_error 403 "host not allowed", None) else
  let '(st, d, ok) := auth_probe (pe_link e) now st d in
  if negb ok then ((st, d), http_error 403 "daemon auth not confirmed", None) else
  let '(d, resp) := daemon_relay (pe_link e) body PW_IPC_FRAME_MAX d in
  ((st, d), match resp with Some resp => http_ok json_type resp | None => http_error 502 "daemon unreachable" end, Some body).
Proof.
  intros Hh Hb Hps Hcat. pose proof Hh as (Hg & Hhl & _). pose proof Hb as [Hb1 Hb2].
  set (head := head_text (request_lines host (length body))).
  assert (Hn : Z.of_nat (length body) < 100000) by (unfold PW_IPC_FRAME_MAX in Hb2; lia).
  assert (Hlen : (length (http_request host body) <= Z.to_nat PROXYD_REQ_MAX)%nat).
  { rewrite http_request_lines, length_app, request_head_length by done. destruct (str_nat_spec (length body)) as (_ & _ & H).
    specialize (H Hn). unfold PROXYD_REQ_MAX, PW_IPC_FRAME_MAX in *. lia. }
  pose proof (read_request_exact (Z.to_nat PROXYD_REQ_MAX) ps Hps) as Hr. rewrite Hcat in Hr. specialize (Hr Hlen).
  rewrite request_of_request in Hr by done. fold head in Hr. destruct Hr as (buf & Hr & Hbl & Ht).
  rewrite http_request_lines in Ht. fold head in Ht. rewrite (take_ge (head ++ body)) in Ht by (rewrite length_app; lia).
  assert (Hbuf : buf = head ++ body ++ drop (length head + length body) buf) by (by rewrite app_assoc, <- Ht, take_drop).
  unfold serve. rewrite Hr. rewrite Hbuf. set (x := body ++ _).
  assert (head ++ x = chars "POST /api/rpc HTTP/1.1" ++ CRLF ++ head_text (drop 1 (request_lines host (length body))) ++ x) as E.
  { unfold head, request_lines. rewrite head_text_cons, <- !app_assoc. done. }
  rewrite E at 1. rewrite request_line_words. cbn [bool_decide andb]. rewrite !bool_decide_eq_true_2 by done. cbn [andb].
  unfold serve_rpc. rewrite take_app_length. destruct (request_headers host (length body) Hh) as [Hx Hho]. fold head in Hx, Hho.
  rewrite Hx, bool_decide_eq_true_2 by done. cbn [negb]. rewrite Hho. unfold x. rewrite drop_app_length, take_app_length.
  destruct (Nat.eqb_spec (length body) 0); [lia|]. done.
Qed.
End Exchange.

(** ** The reply, as the client reads it *)

(** A connection that takes what it is given, at least [n] times. *)
Definition accepts (n : nat) (ws : list Z) : Prop := Forall (fun w => 0 < w) ws /\ (n <= length ws)%nat.

Lemma conn_write_accepts ws : forall m buf, accepts (m + length buf) ws ->
  exists ws', conn_write_all ws buf = (buf, ws', true) /\ accepts m ws'.
Proof.
  induction ws as [|w ws IH]; intros m buf Hw; pose proof Hw as [Hp Hl].
  - destruct buf; [|simpl in Hl; lia]. exists []. split; [done|]. split; [done|]. simpl in *. lia.
  - destruct buf as [|c buf]; [exists (w :: ws); by rewrite Nat.add_0_r in Hw|]. apply Forall_cons in Hp as [Hw0 Hp].
    cbn [conn_write_all]. destruct (Z.leb_spec w 0); [lia|].
    destruct (IH m (drop (Z.to_nat w) (c :: buf))) as (ws' & -> & Hs).
    { split; [done|]. rewrite length_drop. simpl in *. lia. }
    exists ws'. by rewrite take_drop.
Qed.

(** Pieces of a stream. *)
Definition segments (cut : text -> list text) : Prop := forall t, concat (cut t) = t /\ Forall (fun p => p <> []) (cut t).

Lemma tls_read_pieces cap ps : Forall (fun p => p <> []) ps -> forall buf, (length (buf ++ concat ps) < cap)%nat ->
  tls_read cap ps buf = buf ++ concat ps.
Proof.
  induction 1 as [|p ps Hp Hps IH]; intros buf Hl; cbn [tls_read concat] in *; rewrite ?length_app in Hl.
  - destruct (_ <=? _)%nat; by rewrite app_nil_r.
  - destruct (Nat.leb_spec cap (length buf)); [lia|]. destruct p as [|c p]; [done|].
    rewrite (take_ge (c :: p)) by lia. rewrite IH; [by rewrite <- app_assoc|]. rewrite !length_app. lia.
Qed.

(** What a connection that takes it all carries. *)
Lemma send_reply_whole ws r : (length (reply_head r) < 1024)%nat -> accepts (length (reply_head r) + length (hr_body r)) ws ->
  send_reply ws r = reply_head r ++ hr_body r.
Proof.
  intros Hl Hw. unfold send_reply. destruct (Nat.leb_spec 1024 (length (reply_head r))); [lia|].
  destruct (conn_write_accepts ws (length (hr_body r)) (reply_head r)) as (ws1 & -> & Hw1); [by rewrite Nat.add_comm|].
  destruct (conn_write_accepts ws1 0 (hr_body r) Hw1) as (ws2 & -> & _). done.
Qed.

(** The gateway's own replies, and the daemon's relayed. *)
Definition reply_lines (code : Z) (status : string) (n : nat) : list text :=
  [chars "HTTP/1.1 " ++ chars (str_Z code) ++ [SP] ++ chars status; chars "Content-Type: " ++ json_type;
   chars "Content-Length: " ++ chars (str_nat n); chars "Content-Security-Policy: " ++ chars PROXYD_CSP;
   chars "X-Content-Type-Options: nosniff"; chars "Cache-Control: no-store"; chars "Connection: close"].

Definition ok_reply (body : text) : http_reply :=
  {| hr_code := 200; hr_status := "OK"; hr_ctype := json_type; hr_body := body |}.

Lemma ok_lines_ok n : Forall line_ok (reply_lines 200 "OK" n).
Proof.
  destruct (str_nat_spec n) as (Hd & _). unfold reply_lines.
  rewrite !Forall_cons, Forall_nil. split_and!; try (by apply const_line); [|done].
  apply named_line; [done|done|by apply dec_plain].
Qed.

Lemma ok_head_length n : Z.of_nat n < 100000 -> (length (head_text (reply_lines 200 "OK" n)) < 400)%nat.
Proof.
  intros Hn. destruct (str_nat_spec n) as (_ & _ & Hl). specialize (Hl Hn). unfold reply_lines.
  rewrite !head_text_length. rewrite (length_app (chars "Content-Length: ")). simpl. lia.
Qed.

Lemma ok_line_200 x : is_200 (chars "HTTP/1.1 200 OK" ++ x) = true.
Proof. done. Qed.

Lemma ok_declared fuel n x : Z.of_nat n < 100000 ->
  declared_len (3 + fuel) (length (head_text (reply_lines 200 "OK" n))) (head_text (reply_lines 200 "OK" n) ++ x) = Z.of_nat n.
Proof.
  intros Hn. pose proof (ok_lines_ok n) as Hls. unfold reply_lines in *.
  rewrite !Forall_cons in Hls. destruct Hls as ([_ H1] & [_ H2] & _). cbn [Nat.add].
  rewrite !declared_skip by done. by apply declared_here.
Qed.

(** The client takes the body of a relayed reply. *)
Lemma http_body_ok cap body : body_ok body -> (length body <= cap)%nat ->
  http_body cap (reply_head (ok_reply body) ++ body) = Some body.
Proof.
  intros [Hb1 Hb2] Hc. assert (Hn : Z.of_nat (length body) < 100000) by (unfold PW_IPC_FRAME_MAX in Hb2; lia).
  change (reply_head (ok_reply body)) with (head_text (reply_lines 200 "OK" (length body))).
  pose proof (ok_lines_ok (length body)) as Hls. pose proof (ok_head_length _ Hn) as Hl.
  set (ls := reply_lines 200 "OK" (length body)) in *. assert (Hne : ls <> []) by done.
  unfold http_body. rewrite cstring_clean by (by apply head_clean).
  assert (is_200 (head_text ls ++ cstring body) = true) as ->.
  { unfold ls, reply_lines. rewrite head_text_cons, <- !app_assoc. exact (ok_line_200 _). }
  assert ((HTTP_BUF - 1 <=? length (head_text ls ++ body))%nat = false) as ->.
  { apply Nat.leb_gt. rewrite length_app. unfold HTTP_BUF, PW_IPC_FRAME_MAX in *. lia. }
  cbn [negb orb]. rewrite find_blank by done.
  assert (4 <= length (head_text ls))%nat as H4 by (unfold ls, reply_lines; rewrite !head_text_length; lia).
  replace (length (head_text ls) - 4 + 4)%nat with (length (head_text ls)) by lia.
  replace (S (length (head_text ls ++ body))) with (3 + (length (head_text ls ++ body) - 2))%nat by (rewrite length_app; lia).
  assert (forall k, declared_len (3 + k) (length (head_text ls)) (head_text ls ++ cstring body) = Z.of_nat (length body)) as ->
    by (intros k; by apply ok_declared).
  rewrite length_app. replace (length (head_text ls) + length body - length (head_text ls))%nat with (length body) by lia.
  rewrite Z.eqb_refl. cbn [negb]. rewrite andb_false_r. destruct (Nat.ltb_spec cap (length body)); [lia|].
  by rewrite drop_app_length.
Qed.

(** Nor does it take anything from a refusal. *)
Lemma http_body_refused cap code status x : (code, status) ∈ [(403, "host not allowed"); (403, "daemon auth not confirmed"); (502, "daemon unreachable")] ->
  http_body cap (head_text (reply_lines code status (length x)) ++ x) = None.
Proof.
  intros Hin. unfold http_body. assert (is_200 (cstring (head_text (reply_lines code status (length x)) ++ x)) = false) as ->; [|done].
  unfold reply_lines. rewrite head_text_cons, <- !app_assoc.
  repeat (apply elem_of_cons in Hin as [[= -> ->]|Hin]; [reflexivity|]). by apply elem_of_nil in Hin.
Qed.

(** ** The three programs *)

Lemma split_host_short t host port : split_host t = Some (host, port) -> (length host < 256)%nat.
Proof.
  unfold split_host. destruct (Nat.leb_spec 256 (length t)) as [|Hl]; [done|].
  destruct t as [|c t]; [by intros [= <- _]|].
  case_bool_decide; destruct (split_at _ _) as [[a b]|] eqn:E; try done.
  - apply split_at_some in E as [-> _]. rewrite length_cons, length_app in Hl.
    destruct b as [|c' b]; [|case_bool_decide; [|done]]; intros [= <- _]; lia.
  - apply split_at_some in E as [Et _]. case_bool_decide; intros [= <- _]; [done|].
    apply (f_equal length) in Et. rewrite length_app in Et. lia.
  - by intros [= <- _].
Qed.

Section Remote.
Context {C : Type} (ops : pw_card_backend_ops C).
Context (libyaml : string -> yaml_parser) {IP : InetPton} {IN : InetNtop} {JC : JsonC}.

Abbreviation server_t := (@server C).

(** The daemon behind the gateway: [ks] are the answers of its reads and writes. *)
Definition gateway_link (e : req_env) (path : string) (wr rd ks : list io_answer) : daemon_link server_t := {|
  dl_path := path; dl_socket _ := true; dl_connect _ := None; dl_writes _ := wr; dl_reads _ := rd;
  dl_daemon sent s := default (s, []) (handle_client ops libyaml e ks sent s)
|}.

(** The gateway at the other end of the TLS session: [ws] and [rs] are what the
    writes of the client and of the gateway take, [up] and [down] how the bytes
    arrive. *)
Definition gateway_peer (px : proxy_env server_t) (now : Z) (ws rs : list Z) (up down : text -> list text) :
    peer (probe_state * server_t) := {|
  pr_errno _ := None; pr_connect _ _ := None; pr_writes _ := []; pr_reads _ := [];
  pr_daemon _ _ w := (w, []);
  pr_tls _ _ _ := true; pr_tls_writes _ := ws;
  pr_gateway _ _ sent w :=
    let '(w, reply, _) := serve px now w.1 w.2 (timely (up sent)) in (w, down (reply_bytes rs reply))
|}.

(** One frame through the gateway, answered by the daemon. *)
Lemma relay_exact e path wr rd ks body (s s' : server_t) resp :
  (String.length path < SUN_PATH)%nat -> body_ok body ->
  handle_request ops libyaml e (String.string_of_list_ascii body) s = Some (s', resp) ->
  let r := string_bytes (jc_print resp) in
  serves (4 + length body) wr -> serves ((4 + length r) + (4 + length body)) ks -> serves (4 + length r) rd ->
  daemon_relay (gateway_link e path wr rd ks) body PW_IPC_FRAME_MAX s =
    (s', if fits_frame r then Some (chars (c_string (jc_print resp))) else None).
Proof.
  intros Hp [Hb1 Hb2] Hh r Hw Hk Hr. unfold daemon_relay, pw_ipc_connect, fill_sockaddr_un. cbn [gateway_link dl_path dl_socket dl_connect].
  destruct (Nat.leb_spec SUN_PATH (String.length path)); [lia|]. cbn [gateway_link dl_writes dl_reads dl_daemon].
  set (b := text_bytes body). assert (Hlb : length b = length body) by (unfold b, text_bytes; by rewrite length_fmap).
  assert (Hf : fits_frame b = true) by (unfold fits_frame; rewrite Hlb; apply andb_true_iff; lia).
  destruct (frame_sent wr 0 b) as (wr' & Hs & _); [rewrite Hlb; lia|by rewrite Hlb|]. change (negb true) with false. cbn. rewrite Hs.
  assert (Hbs : bytes_string b = String.string_of_list_ascii body) by (unfold b, bytes_string; by rewrite text_bytes_back).
  rewrite (handle_client_frame ops libyaml e ks b s s' resp); [|done|by rewrite Hbs|by rewrite Hlb].
  cbn [default from_option id]. fold r. destruct (fits_frame r) eqn:Hfr.
  - apply andb_true_iff in Hfr as [H3%Z.leb_le H4%Z.leb_le]. destruct (frame_got rd 0 r [] PW_IPC_FRAME_MAX) as (rs & Hg & _); [lia|lia|done|].
    rewrite app_nil_r in Hg. rewrite Hg. cbn [snd]. unfold r, string_bytes. by rewrite text_bytes_back.
  - destruct (pw_ipc_read_frame rd [] PW_IPC_FRAME_MAX).2 as [[x|]| |] eqn:E; try done.
    by destruct (read_frame_empty rd PW_IPC_FRAME_MAX x).
Qed.

(** Room for any reply. *)
Definition REPLY_MAX : nat := Z.to_nat (1024 + PW_IPC_FRAME_MAX).

Lemma reply_arrives rs down r : segments down -> accepts REPLY_MAX rs ->
  (length (reply_head r) < 1024)%nat -> Z.of_nat (length (hr_body r)) <= PW_IPC_FRAME_MAX ->
  tls_read (HTTP_BUF - 1) (down (reply_bytes rs (Some r))) [] = reply_head r ++ hr_body r.
Proof.
  intros Hd [Hp Hl] Hh Hb. unfold REPLY_MAX, PW_IPC_FRAME_MAX in *. cbn [reply_bytes].
  rewrite send_reply_whole; [|done|split; [done|lia]]. destruct (Hd (reply_head r ++ hr_body r)) as [Hc Hn].
  rewrite tls_read_pieces, Hc; [done|done|]. cbn [app]. rewrite Hc, length_app. unfold HTTP_BUF, PW_IPC_FRAME_MAX. lia.
Qed.

Lemma refusal_unread cap rs down code status : segments down -> accepts REPLY_MAX rs ->
  (code, status) ∈ [(403, "host not allowed"); (403, "daemon auth not confirmed"); (502, "daemon unreachable")] ->
  http_body cap (tls_read (HTTP_BUF - 1) (down (reply_bytes rs (http_error code status))) []) = None.
Proof.
  intros Hd Ha Hin. unfold http_error. rewrite reply_arrives; try done.
  - by apply http_body_refused.
  - repeat (apply elem_of_cons in Hin as [[= -> ->]|Hin]; [apply Nat.ltb_lt; vm_compute; reflexivity|]). by apply elem_of_nil in Hin.
  - repeat (apply elem_of_cons in Hin as [[= -> ->]|Hin]; [vm_compute; discriminate|]). by apply elem_of_nil in Hin.
Qed.

(** One exchange over TLS, with a gateway whose admission is open or not. *)
Lemma remote_call_exact px now ws rs up down hostarg host port send (st : probe_state) (s : server_t) :
  let body := cstring (chars send) in
  split_host (chars hostarg) = Some (host, port) -> Forall graphic host -> host <> [] -> body_ok body ->
  segments up -> segments down -> accepts (length (http_request host body)) ws -> accepts REPLY_MAX rs ->
  https_rpc_call (gateway_peer px now ws rs up down) (chars hostarg) send (Z.to_nat PW_IPC_FRAME_MAX) (st, s) =
  if negb (host_allowed (pe_listen px) (pe_allowed px) host) then ((st, s), Err BadReply) else
  let '(st', s1, ok) := auth_probe (pe_link px) now st s in
  if negb ok then ((st', s1), Err BadReply) else
  let '(s', resp) := daemon_relay (pe_link px) body PW_IPC_FRAME_MAX s1 in
  ((st', s'), match resp with
              | Some resp => match http_body (Z.to_nat PW_IPC_FRAME_MAX)
                                     (tls_read (HTTP_BUF - 1) (down (reply_bytes rs (http_ok json_type resp))) []) with
                             | Some t => Ok (String.string_of_list_ascii t)
                             | None => Err BadReply
                             end
              | None => Err BadReply
              end).
Proof.
  intros body Hs Hg Hne Hb Hup Hdown Hw Hr. pose proof (split_host_short _ _ _ Hs) as Hl. pose proof Hb as [Hb1 Hb2].
  unfold https_rpc_call. fold body. rewrite (proj2 (Z.ltb_ge _ _)) by done. rewrite Hs. cbn [gateway_peer pr_tls negb].
  assert (Hreq : Z.of_nat (length (http_request host body)) < PW_IPC_FRAME_MAX + 512).
  { assert (Hn : Z.of_nat (length body) < 100000) by (unfold PW_IPC_FRAME_MAX in Hb2; lia).
    rewrite http_request_lines, length_app, request_head_length by done.
    destruct (str_nat_spec (length body)) as (_ & _ & H). specialize (H Hn). lia. }
  rewrite (proj2 (Z.leb_gt _ _)) by done. unfold tls_write. cbn [gateway_peer pr_tls_writes].
  destruct (conn_write_accepts ws 0 (http_request host body) Hw) as (ws' & -> & _). cbn [gateway_peer pr_gateway fst snd].
  destruct (Hup (http_request host body)) as [Hc Hp]. rewrite (serve_request px now st s _ host body); [|done|done|done|done].
  destruct (host_allowed _ _ host); cbn [negb]; [|by rewrite refusal_unread by (done || left)].
  destruct (auth_probe _ _ _ _) as [[st' s1] ok]. destruct ok; cbn [negb]; [|by rewrite refusal_unread by (done || (right; left))].
  destruct (daemon_relay _ _ _ _) as [s' [resp|]]; [|by rewrite refusal_unread by (done || (do 2 right; left))].
  by destruct (http_body _ _).
Qed.

Lemma relayed_reply rs down resp : segments down -> accepts REPLY_MAX rs -> fits_frame (text_bytes resp) = true ->
  http_body (Z.to_nat PW_IPC_FRAME_MAX) (tls_read (HTTP_BUF - 1) (down (reply_bytes rs (http_ok json_type resp))) []) = Some resp.
Proof.
  intros Hd Ha Hf. unfold fits_frame, text_bytes in Hf. rewrite length_fmap, andb_true_iff, !Z.leb_le in Hf. destruct Hf as [H1 H2].
  change (http_ok json_type resp) with (Some (ok_reply resp)).
  assert (Hn : Z.of_nat (length resp) < 100000) by (unfold PW_IPC_FRAME_MAX in H2; lia).
  rewrite reply_arrives; [apply http_body_ok; [done|lia]|done|done| |done].
  change (reply_head (ok_reply resp)) with (head_text (reply_lines 200 "OK" (length resp))). pose proof (ok_head_length _ Hn). lia.
Qed.

End Remote.

(** ** Witness *)

#[local] Existing Instances ToyInet.toy_pton ToyInet.toy_ntop.

Lemma auth_probe_fresh {D} (l : daemon_link D) now st d : pb_enforce st = false \/ pb_fresh now st = true ->
  auth_probe l now st d = (st, d, true).
Proof.
  intros H. unfold auth_probe, auth_probe_current, pb_asks. destruct (probe_daemon_secret l d) as [d' probe].
  destruct (pb_enforce st); cbn [negb andb]; [|done]. destruct H as [H|H]; [done|]. by rewrite H.
Qed.

(** Every byte on its own, and writes that take one byte each. *)
Definition bytewise (t : text) : list text := (fun c => [c]) <$> t.

Lemma bytewise_segments : segments bytewise.
Proof.
  intros t. split.
  - induction t as [|c t IH]; [done|]. cbn. by f_equal.
  - induction t as [|c t IH]; constructor; done.
Qed.

Definition y_writes : list Z := replicate (Z.to_nat 70000) 1.
Lemma y_accepts n : Z.of_nat n <= 70000 -> accepts n y_writes.
Proof. intros Hn. split; [by apply Forall_replicate|]. unfold y_writes. rewrite length_replicate. lia. Qed.

Definition y_proxy : proxy_env (@server (bar_ctx toy_card unit)) :=
  {| pe_listen := chars "10.0.0.1"; pe_allowed := [chars "lab"]; pe_assets := []; pe_version := [];
     pe_link := gateway_link (JC := plain_json) toy_ops v_libyaml v_req "/run/packetwyrm.sock" c_script c_script c_script |}.
Definition y_globals : globals := {| g_secret_arg := None; g_env_arg := None; g_host_arg := Some "lab:8443" |}.
Definition y_probe : probe_state := {| pb_enforce := true; pb_ok := Some 100 |}.

